(* ===== verification/_CoqProject ===== *)
-Q . S2P
Prelude.v
EventQueue.v
Keyboard.v
Mouse.v
Bytes.v
Text.v
PhysMem.v
Multiboot.v
Pmm.v
Sync.v
Allocator.v
Paging.v
Shm.v
Socket.v
Elf.v
Rtc.v
Calculator.v
Disk.v
Ata.v
AtaFacts.v
Fat.v
FatChain.v
FatDir.v
FatFile.v
Vfs.v
Session.v
Process.v
Task.v
Spawn.v
Interrupts.v
Accounting.v
Syscall.v
LinuxAbi.v
Dispatch.v
Confine.v
LinuxFacts.v
Font.v
Gfx.v
Draw.v
Shadow.v
Scale.v
PixelBuffer.v
Fb.v
FbFacts.v
Terminal.v
Console.v
Vga.v
Io.v
Quiet.v
Wayland.v
WaylandFacts.v
Editor.v
EditorFacts.v
LineEdit.v
Cpuid.v
Shell.v
ShellFacts.v
Canvas.v
Settings.v
SettingsFacts.v
Line.v
Paint.v
PaintFacts.v
ImageViewer.v
ImageFacts.v
Diagonal.v
Steady.v
Explorer.v
ExplorerFacts.v
CalcWindow.v
Window.v
Chrome.v
Wm.v
Desktop.v
Launch.v
WmInput.v
Compositor.v
WmInvariant.v
CursorFacts.v
WmFacts.v
