(* ===== verification/Prelude.v ===== *)
(** * MachaOS: a verification library for the kernel

    MachaOS (src/src/) is a single-processor x86-64 kernel: it runs
    identity-mapped, builds page tables for processes that run in ring 3,
    schedules tasks from the timer, serves two system-call tables, and keeps
    its files on a FAT32 volume.  This library translates it function by
    function and proves what makes each part correct, and what the parts
    guarantee together.

    ** How the code is modelled

    Integers are [Z] with the wrap-around of their width written out ([u8],
    [u32], [u64], [i32] ...; the kernel is a release build), bytes are [Z] in
    [0, 256), memory is a function from addresses to bytes ([PhysMem.mem]).
    A function that changes state is an [ST S A]: it returns a value and the new
    state, or [Panic], which is an out-of-range index, a failed [unwrap] or a
    trapping division: the kernel halts.  [STR] adds Rust's [?].  A body that
    runs under a spin lock is one step; [Sync.v] proves why.  Assembly routines
    are interpreted instruction by instruction on registers and memory.

    ** Files, in dependency order, and the source they model

    Foundations.
    - [Prelude], [Bytes], [Text], [PhysMem]: integers, results, the state
      monads and their [wp], lists; little-endian fields; [str]; raw memory.
    - [Disk]: the block device the file system is written against, as a class.

    Devices and boot information.
    - [EventQueue], [Keyboard], [Mouse]: keyboard.rs and mouse.rs, interrupt
      handler and ring buffer; [EventQueue.Spec] is the FIFO they refine.
    - [Multiboot]: multiboot.rs, read from physical memory.
    - [Rtc]: rtc.rs over a chip given as its registers over time.

    Memory.
    - [Pmm]: pmm.rs, the frame bitmap.  [Allocator]: allocator.rs, the heap with
      its headers in memory.  [Paging]: paging.rs on memory and bitmap, against
      the hardware's page walk ([walk], [translate]).  [Shm]: shm.rs.
    - [Sync]: sync.rs, as a step relation over interleavings.

    Processes and scheduling.
    - [Elf]: elf.rs.  [Process]: the process record of process.rs with its memory
      operations, loading and initial stacks.  [Task]: task.rs, tasks, the
      scheduler, context switches.  [Spawn]: the operations of process.rs that go
      through a process id, on the state of the whole kernel.  [Accounting]: what
      process creation takes from the frame bitmap.
    - [Interrupts]: interrupts.rs, idt.rs, gdt.rs, pic.rs and isr_stubs.asm.

    Files and programs.
    - [Fat] (all of fat.rs), [FatChain], [FatDir], [FatFile]: the FAT32 driver and
      its theory.  [Vfs]: vfs.rs.  [Session]: session.rs and users.rs.
    - [Socket]: socket.rs, against the interface [FdRefs] that [Shm] implements.
    - [Syscall]: the native table of syscall.rs.  [LinuxAbi]: linux_abi.rs.
      [Dispatch]: both tables behind the entry assembly, ring 3 entry and exit.
      [Confine], [LinuxFacts]: what programs can reach, and two defects.
    - [Calculator]: the arithmetic of calculator.rs.

    A definition keeps the source's name; a handler [f] of module [m.rs] is [f] in
    the file of that module.  What a module calls of another is that module's
    definition: [Spawn.spawn] runs [Fat.read_file], [Elf.parse], [Paging.map_range_in]
    and [Task.spawn_process] on one state, as the code does.

    ** What the theorems show

    - Files: what is written is read back, also after remounting, and nothing
      else changes ([FatFile]); an open file is a POSIX file ([Vfs]); the session
      file is read back as saved ([Session]).  Where the driver fails to do so,
      the failing cases are theorems too.
    - Memory: frames and heap blocks are never handed out twice or lost ([Pmm],
      [Allocator], [Shm]); mapping and unmapping change exactly the translations
      they should ([Paging]); a process owns what it took ([Accounting]).
    - Programs: the loader accepts exactly the safe, well-formed executables
      ([Elf]); faults stay in the process ([Interrupts]); system calls reach only
      what the caller mapped ([Confine]) and are transparent to it ([Dispatch]).
    - Scheduling: a preempted task does not notice ([Task.preemption_transparent]),
      and none starves ([Task.scheduler_fair]).
    - Communication: sockets are FIFO streams, with exact reference counts
      ([Socket]); locks serialise ([Sync]); events arrive in order ([Keyboard],
      [Mouse]).

    ** Fuel and bounds

    A loop that the source bounds keeps its bound: [Fat.CHAIN_FUEL] is the
    source's guard of 1,000,000 clusters plus the two iterations around it, so the
    guard ends the loop first; [Rtc]'s and the allocator's scans are bounded by the
    retry count and by the number of blocks that fit the range
    ([Allocator.fuel]), and the theorems include that this suffices.  [Syscall.DRAIN_FUEL] is one more than
    the capacity of the event queue, which is all [drain] can pop.
    [Multiboot.collect] and [cstr] take their fuel as an argument;
    [memory_map_collects] shows one that is enough on any memory.  Everything else
    is structural.

    ** Not modelled, and why

    - Heap exhaustion: an allocation in [Vec] or [String] succeeds.
    - Port I/O whose effect is outside the processor: the controller handshakes
      of the mouse, serial and ATA drivers and the timer's programming.  Values
      read from a port are arguments, values written are a trace where a theorem
      needs them.  ata.rs itself is the [BlockDevice] class of [Disk].
    - Model-specific registers set by syscall.rs's [init], its [run_demo] self-test
      and main.rs's start-up order.
    - Text that is only printed ([Display] implementations, register dumps).
    - The desktop: the window manager, shell, file explorer, settings and the
      image programs draw and take input; see the manifest for each. *)
From stdpp Require Export base tactics numbers list option strings gmap fin_maps.
From Stdlib Require Export ZArith Lia.

Global Open Scope Z_scope.

(** ** Machine integers

    An unsigned [w]-bit integer is a [Z] in [0, 2^w).  The kernel is built in
    release mode, so [+], [-] and [*] wrap; the checked and saturating
    operations are the ones of Rust's core library. *)
Definition wrap (w x : Z) : Z := x mod 2 ^ w.
Abbreviation u8 := (wrap 8).
Abbreviation u16 := (wrap 16).
Abbreviation u32 := (wrap 32).
Abbreviation u64 := (wrap 64).
Abbreviation U64_MAX := (2 ^ 64 - 1).

(** A [w]-bit two's complement reading of a bit pattern. *)
Definition swrap (w x : Z) : Z :=
  let y := wrap w x in if y <? 2 ^ (w - 1) then y else y - 2 ^ w.
Abbreviation i32 := (swrap 32).
Abbreviation i64 := (swrap 64).

Definition in_u (w x : Z) : Prop := 0 <= x < 2 ^ w.

Definition checked_add (w a b : Z) : option Z :=
  if a + b <? 2 ^ w then Some (a + b) else None.
Definition saturating_add (w a b : Z) : Z := Z.min (a + b) (2 ^ w - 1).
Definition saturating_sub (a b : Z) : Z := Z.max 0 (a - b).

(** Bitwise complement of a [w]-bit integer, Rust's [!x]. *)
Definition unot (w x : Z) : Z := 2 ^ w - 1 - x.

(** [is_set x m] is Rust's [x & m != 0]. *)
Definition is_set (x m : Z) : bool := negb (Z.land x m =? 0).

(** [x.div_ceil(y)] on unsigned integers. *)
Definition div_ceil (x y : Z) : Z :=
  if x mod y =? 0 then x / y else x / y + 1.

(** ** Results *)
Inductive result (E A : Type) : Type :=
| Ok (a : A)
| Err (e : E).
Arguments Ok {E A} a.
Arguments Err {E A} e.

Global Instance result_ret E : MRet (result E) := fun A a => Ok a.
Global Instance result_bind E : MBind (result E) := fun A B k m =>
  match m with Ok a => k a | Err e => Err e end.
Global Instance result_fmap E : FMap (result E) := fun A B f m =>
  match m with Ok a => Ok (f a) | Err e => Err e end.

(** Rust's [Option::ok_or] and [Result::ok]. *)
Definition ok_or {E A} (o : option A) (e : E) : result E A :=
  match o with Some a => Ok a | None => Err e end.
Definition result_ok {E A} (r : result E A) : option A :=
  match r with Ok a => Some a | Err _ => None end.
Definition map_err {E F A} (f : E -> F) (r : result E A) : result F A :=
  match r with Ok a => Ok a | Err e => Err (f e) end.

(** ** Stateful code

    A function that threads a state and may panic (an out-of-range index, a
    failed [unwrap]): the kernel halts on a panic, so it has no final state. *)
Inductive outcome (S A : Type) : Type :=
| Ret (a : A) (s : S)
| Panic.
Arguments Ret {S A} a s.
Arguments Panic {S A}.

Definition ST (S A : Type) : Type := S -> outcome S A.

Global Instance st_ret S : MRet (ST S) := fun A a s => Ret a s.
Global Instance st_bind S : MBind (ST S) := fun A B k m s =>
  match m s with Ret a s' => k a s' | Panic => Panic end.

Definition get_st {S} : ST S S := fun s => Ret s s.
Definition put_st {S} (s : S) : ST S unit := fun _ => Ret tt s.
Definition modify {S} (f : S -> S) : ST S unit := fun s => Ret tt (f s).
Definition panic {S A} : ST S A := fun _ => Panic.
(** [o.unwrap()] and an indexed read [v[i]]. *)
Definition unwrap {S A} (o : option A) : ST S A := fun s =>
  match o with Some a => Ret a s | None => Panic end.

(** The same with Rust's [?]: an error leaves the state as it is at the error. *)
Definition STR (S E A : Type) : Type := S -> outcome S (result E A).
Global Instance str_ret S E : MRet (STR S E) := fun A a s => Ret (Ok a) s.
Global Instance str_bind S E : MBind (STR S E) := fun A B k m s =>
  match m s with
  | Ret (Ok a) s' => k a s'
  | Ret (Err e) s' => Ret (Err e) s'
  | Panic => Panic
  end.
Definition throw {S E A} (e : E) : STR S E A := fun s => Ret (Err e) s.
Definition lift_st {S E A} (m : ST S A) : STR S E A := fun s =>
  match m s with Ret a s' => Ret (Ok a) s' | Panic => Panic end.
Definition lift_res {S E A} (r : result E A) : STR S E A := fun s => Ret r s.

(** A Hoare-style reading of [ST]: [m] does not panic from [s] and its value
    and final state satisfy [Q]. *)
Definition wp {S A} (m : ST S A) (Q : A -> S -> Prop) (s : S) : Prop :=
  match m s with Ret a s' => Q a s' | Panic => False end.

Lemma wp_ret {S A} (a : A) (Q : A -> S -> Prop) s : Q a s -> wp (mret a) Q s.
Proof. done. Qed.
Lemma wp_bind {S A B} (m : ST S A) (k : A -> ST S B) Q s :
  wp m (fun a => wp (k a) Q) s -> wp (mbind k m) Q s.
Proof. unfold wp, mbind, st_bind. by destruct (m s). Qed.
(** Steps of a [wp] proof over the two primitive reads. *)
Lemma wp_get {S A} (k : S -> ST S A) Q s : wp (k s) Q s -> wp (s ← get_st; k s) Q s.
Proof. done. Qed.
Lemma wp_unwrap {S A B} (o : option A) a (k : A -> ST S B) Q s :
  o = Some a -> wp (k a) Q s -> wp (x ← unwrap o; k x) Q s.
Proof. by intros ->. Qed.
Lemma wp_conseq {S A} (m : ST S A) (P Q : A -> S -> Prop) s :
  wp m P s -> (forall a s', P a s' -> Q a s') -> wp m Q s.
Proof. unfold wp. destruct (m s); naive_solver. Qed.
Lemma wp_elim {S A} (m : ST S A) Q s :
  wp m Q s -> exists a s', m s = Ret a s' /\ Q a s'.
Proof. unfold wp. destruct (m s) eqn:?; naive_solver. Qed.
Lemma wp_intro {S A} (m : ST S A) Q s a s' :
  m s = Ret a s' -> Q a s' -> wp m Q s.
Proof. unfold wp. by intros ->. Qed.

(** Stepping through a bind whose first part is known. *)
Lemma st_bind_ret {S A B} (m : ST S A) (k : A -> ST S B) s a s' :
  m s = Ret a s' -> (m ≫= k) s = k a s'.
Proof. intros E. unfold mbind, st_bind. by rewrite E. Qed.
Lemma str_bind_ok {S E A B} (m : STR S E A) (k : A -> STR S E B) s a s' :
  m s = Ret (Ok a) s' -> (m ≫= k) s = k a s'.
Proof. intros Em. unfold mbind, str_bind. by rewrite Em. Qed.
Lemma str_bind_err {S E A B} (m : STR S E A) (k : A -> STR S E B) s e s' :
  m s = Ret (Err e) s' -> (m ≫= k) s = Ret (Err e) s'.
Proof. intros Em. unfold mbind, str_bind. by rewrite Em. Qed.
Lemma str_bind_inv {S E A B} (m : STR S E A) (k : A -> STR S E B) s b s' :
  (m ≫= k) s = Ret (Ok b) s' -> exists a s1, m s = Ret (Ok a) s1 /\ k a s1 = Ret (Ok b) s'.
Proof.
  unfold mbind, str_bind. destruct (m s) as [[a|e] s1|]; intros Em; try discriminate.
  by exists a, s1.
Qed.

(** Evaluating a run for its value without normalising its final state. *)
Definition ret_val {S A} (o : outcome S A) : option A :=
  match o with Ret a _ => Some a | Panic => None end.
Definition ret_state {S A} (d : S) (o : outcome S A) : S :=
  match o with Ret _ s => s | Panic => d end.
Lemma ret_intro {S A} (d : S) (o : outcome S A) a :
  ret_val o = Some a -> o = Ret a (ret_state d o).
Proof. destruct o; simpl; congruence. Qed.

(** ** Facts about bits and alignment *)
Lemma wrap_bound w x : 0 <= w -> in_u w (wrap w x).
Proof. intros. apply Z.mod_pos_bound. lia. Qed.
Lemma wrap_small w x : in_u w x -> wrap w x = x.
Proof. apply Z.mod_small. Qed.

Lemma testbit_high w x i : in_u w x -> 0 <= w <= i -> Z.testbit x i = false.
Proof.
  intros [H0 H1] Hi. destruct (decide (x = 0)) as [->|]; [apply Z.bits_0|].
  apply Z.bits_above_log2; [lia|].
  assert (Z.log2 x < w); [|lia]. apply Z.log2_lt_pow2; lia.
Qed.
Lemma in_u_bits w x :
  0 <= w -> 0 <= x -> (forall i, w <= i -> Z.testbit x i = false) -> in_u w x.
Proof.
  intros Hw Hx Hb. split; [done|]. destruct (decide (x = 0)) as [->|]; [lia|].
  apply Z.log2_lt_pow2; [lia|]. destruct (decide (Z.log2 x < w)); [done|].
  specialize (Hb (Z.log2 x)). rewrite Z.bit_log2 in Hb by lia.
  discriminate Hb; lia.
Qed.

Lemma lor_in_u w x y : 0 <= w -> in_u w x -> in_u w y -> in_u w (Z.lor x y).
Proof.
  intros Hw Hx Hy. apply in_u_bits; [done| |].
  - apply Z.lor_nonneg. unfold in_u in *; lia.
  - intros i Hi. rewrite Z.lor_spec, (testbit_high w x), (testbit_high w y); [done|..]; done || lia.
Qed.
Lemma land_in_u w x y : 0 <= w -> in_u w x -> 0 <= y -> in_u w (Z.land x y).
Proof.
  intros Hw Hx Hy. apply in_u_bits; [done| |].
  - apply Z.land_nonneg. unfold in_u in *; lia.
  - intros i Hi. rewrite Z.land_spec, (testbit_high w x); [done|..]; done || lia.
Qed.
Lemma unot_in_u w x : in_u w x -> in_u w (unot w x).
Proof. unfold in_u, unot. lia. Qed.

Lemma unot_testbit w x i :
  in_u w x -> 0 <= i < w -> Z.testbit (unot w x) i = negb (Z.testbit x i).
Proof.
  intros Hx Hi. unfold unot.
  replace (2 ^ w - 1 - x) with (Z.lnot x + 1 * 2 ^ w) by (unfold Z.lnot; lia).
  rewrite <- (Z.mod_pow2_bits_low _ w) by lia.
  rewrite Z_mod_plus_full, Z.mod_pow2_bits_low by lia.
  by rewrite Z.lnot_spec by lia.
Qed.

Lemma shiftl1_testbit k i : 0 <= k -> 0 <= i -> Z.testbit (Z.shiftl 1 k) i = (i =? k).
Proof.
  intros. rewrite Z.shiftl_1_l, Z.pow2_bits_eqb by lia.
  destruct (Z.eqb_spec i k), (Z.eqb_spec k i); congruence.
Qed.
Lemma shiftl1_in_u w k : 0 <= k < w -> in_u w (Z.shiftl 1 k).
Proof.
  intros. rewrite Z.shiftl_1_l. split; [lia|]. apply Z.pow_lt_mono_r; lia.
Qed.

Lemma is_set_bit x k : 0 <= k -> is_set x (Z.shiftl 1 k) = Z.testbit x k.
Proof.
  intros Hk. unfold is_set. destruct (Z.testbit x k) eqn:E.
  - apply negb_true_iff, Z.eqb_neq. intros H.
    apply (f_equal (fun z => Z.testbit z k)) in H.
    by rewrite Z.land_spec, shiftl1_testbit, Z.bits_0, E, Z.eqb_refl in H by lia.
  - apply negb_false_iff, Z.eqb_eq. apply Z.bits_inj'. intros i Hi.
    rewrite Z.land_spec, shiftl1_testbit, Z.bits_0 by lia.
    destruct (Z.eqb_spec i k) as [->|]; [by rewrite E|]. apply andb_false_r.
Qed.

Lemma set_bit_testbit x k i :
  0 <= k -> 0 <= i -> Z.testbit (Z.lor x (Z.shiftl 1 k)) i = (i =? k) || Z.testbit x i.
Proof. intros. rewrite Z.lor_spec, shiftl1_testbit by lia. apply orb_comm. Qed.
Lemma clear_bit_testbit w x k i :
  0 <= k < w -> 0 <= i < w ->
  Z.testbit (Z.land x (unot w (Z.shiftl 1 k))) i = negb (i =? k) && Z.testbit x i.
Proof.
  intros. rewrite Z.land_spec, unot_testbit, shiftl1_testbit by (lia || by apply shiftl1_in_u).
  apply andb_comm.
Qed.

Lemma land_unot_pow2 x k :
  in_u 64 x -> 0 <= k <= 64 -> Z.land x (unot 64 (2 ^ k - 1)) = x / 2 ^ k * 2 ^ k.
Proof.
  intros Hx Hk. rewrite <- Z.shiftr_div_pow2, <- Z.shiftl_mul_pow2 by lia.
  assert (in_u 64 (2 ^ k - 1)) as Ho.
  { assert (0 < 2 ^ k) by (apply Z.pow_pos_nonneg; lia).
    assert (2 ^ k <= 2 ^ 64) by (apply Z.pow_le_mono_r; lia). split; lia. }
  apply Z.bits_inj'. intros i Hi. rewrite Z.land_spec.
  destruct (decide (64 <= i)).
  - rewrite (testbit_high 64 x) by (done || lia). simpl.
    rewrite Z.shiftl_spec by lia. destruct (decide (i < k)).
    + by rewrite Z.testbit_neg_r by lia.
    + rewrite Z.shiftr_spec by lia. symmetry. apply (testbit_high 64); [done|lia].
  - rewrite unot_testbit by (done || lia).
    replace (2 ^ k - 1) with (Z.ones k) by (rewrite Z.ones_equiv; lia).
    rewrite Z.shiftl_spec by lia. destruct (decide (i < k)).
    + rewrite Z.ones_spec_low, (Z.testbit_neg_r _ (i - k)) by lia. apply andb_false_r.
    + rewrite Z.ones_spec_high, Z.shiftr_spec by lia.
      rewrite andb_true_r. f_equal. lia.
Qed.

(** The two roundings every component uses, with the alignment a power of two. *)
Lemma align_down_spec x k :
  in_u 64 x -> 0 <= k <= 64 ->
  Z.land x (unot 64 (2 ^ k - 1)) = 2 ^ k * (x / 2 ^ k).
Proof. intros. rewrite land_unot_pow2 by done. lia. Qed.
Lemma align_up_spec x k :
  0 <= x -> 0 <= k <= 64 -> x + 2 ^ k - 1 < 2 ^ 64 ->
  Z.land (wrap 64 (x + 2 ^ k - 1)) (unot 64 (2 ^ k - 1)) = 2 ^ k * ((x + 2 ^ k - 1) / 2 ^ k).
Proof.
  intros. assert (0 < 2 ^ k) by (apply Z.pow_pos_nonneg; lia).
  rewrite wrap_small by (unfold in_u; lia). apply align_down_spec; [unfold in_u; lia|done].
Qed.
Lemma div_ceil_spec x y : 0 < y -> div_ceil x y = (x + y - 1) / y.
Proof.
  intros. unfold div_ceil. pose proof (Z.div_mod x y). pose proof (Z.mod_pos_bound x y).
  case_match eqn:E.
  - apply Z.eqb_eq in E. apply (Z.div_unique _ _ _ (y - 1)); lia.
  - apply Z.eqb_neq in E. apply (Z.div_unique _ _ _ (x mod y - 1)); lia.
Qed.

(** ** Text

    Byte strings are lists of byte values; [bytes_of] gives the bytes of an
    ASCII literal of the source. *)
Fixpoint bytes_of (s : string) : list Z :=
  match s with
  | EmptyString => []
  | String c s => Z.of_N (Ascii.N_of_ascii c) :: bytes_of s
  end.
Arguments bytes_of s%_string_scope.

(** Rust's [u8] character classes. *)
Definition is_ascii_lower (b : Z) : bool := (97 <=? b) && (b <=? 122).
Definition is_ascii_upper (b : Z) : bool := (65 <=? b) && (b <=? 90).
Definition is_ascii_digit (b : Z) : bool := (48 <=? b) && (b <=? 57).
Definition is_ascii_alphabetic (b : Z) : bool := is_ascii_lower b || is_ascii_upper b.
Definition is_ascii_alphanumeric (b : Z) : bool := is_ascii_alphabetic b || is_ascii_digit b.
Definition is_ascii_control (b : Z) : bool := (b <? 32) || (b =? 127).
Definition to_ascii_uppercase (b : Z) : Z := if is_ascii_lower b then b - 32 else b.
Definition to_ascii_lowercase (b : Z) : Z := if is_ascii_upper b then b + 32 else b.

(** Every value of a small range satisfies a decidable predicate. *)
Definition all_below (n : nat) (P : Z -> bool) : bool :=
  forallb (fun i => P (Z.of_nat i)) (seq 0 n).
Lemma all_below_spec n P :
  all_below n P = true -> forall z, 0 <= z < Z.of_nat n -> P z = true.
Proof.
  unfold all_below. rewrite forallb_forall. intros H z Hz.
  rewrite <- (Z2Nat.id z) by lia. apply H, in_seq. lia.
Qed.

(** ** Lists *)
Lemma filter_ext_in {A} (P1 P2 : A -> Prop)
    `{!forall x, Decision (P1 x), !forall x, Decision (P2 x)} (l : list A) :
  (forall x, x ∈ l -> P1 x <-> P2 x) -> filter P1 l = filter P2 l.
Proof.
  induction l as [|a l IH]; intros Hl; [done|]. rewrite !filter_cons.
  rewrite IH by (intros; apply Hl; by right).
  assert (P1 a <-> P2 a) by (apply Hl; left). repeat case_decide; naive_solver.
Qed.

Lemma filter_all_not {A} (P : A -> Prop) `{!forall x, Decision (P x)} (l : list A) :
  Forall (fun x => ~ P x) l -> filter P l = [].
Proof. induction 1; [done|]. by rewrite filter_cons_False. Qed.

(** ** Automation *)
Create HintDb macha.
#[export] Hint Resolve wp_ret lor_in_u land_in_u unot_in_u : macha.

(** Split on every [match] and boolean test of the goal and hypotheses. *)
Ltac break_match :=
  repeat (case_match; simplify_eq/=).
(** Turn boolean comparisons into propositions. *)
Ltac to_prop :=
  repeat match goal with
  | H : (_ =? _) = true |- _ => apply Z.eqb_eq in H
  | H : (_ =? _) = false |- _ => apply Z.eqb_neq in H
  | H : (_ <? _) = true |- _ => apply Z.ltb_lt in H
  | H : (_ <? _) = false |- _ => apply Z.ltb_ge in H
  | H : (_ <=? _) = true |- _ => apply Z.leb_le in H
  | H : (_ <=? _) = false |- _ => apply Z.leb_gt in H
  | H : _ && _ = true |- _ => apply andb_true_iff in H as [? ?]
  | H : _ || _ = false |- _ => apply orb_false_iff in H as [? ?]
  | H : negb _ = true |- _ => apply negb_true_iff in H
  | H : negb _ = false |- _ => apply negb_false_iff in H
  | H : bool_decide _ = true |- _ => apply bool_decide_eq_true in H
  | H : bool_decide _ = false |- _ => apply bool_decide_eq_false in H
  end.
(** [lia] over goals with division and remainder by constants. *)
Ltac zlia := Z.to_euclidean_division_equations; lia.
(** One step of a [wp] proof through a bind. *)
Ltac wp_step := apply wp_bind.
