(* ===== verification/EventQueue.v ===== *)
(** * The event ring buffers of [keyboard.rs] and [mouse.rs]

    Both drivers push from an interrupt handler into a fixed array with a
    [head] and a [tail] index and pop from the main loop.  The two copies of
    the code differ only in the element type and the capacity, which are the
    parameters of the Section.  [Spec] is the contract: a FIFO that holds one
    element less than the array and drops a push when it is full. *)
From S2P Require Import Prelude.

(** The contract: a bounded FIFO. *)
Module Spec.
Definition push {E} (cap : nat) (e : E) (l : list E) : list E :=
  if decide (length l < cap - 1)%nat then l ++ [e] else l.
Definition pop {E} (l : list E) : option E * list E :=
  match l with [] => (None, []) | e :: l' => (Some e, l') end.
End Spec.

Record EventQueue (E : Type) := mk_queue {
  buffer : list E;
  head : nat;
  tail : nat
}.
Arguments mk_queue {E}.
Arguments buffer {E}.
Arguments head {E}.
Arguments tail {E}.

(** What the interrupt handler and the main loop do to the queue. *)
Inductive queue_op (E : Type) := OpPush (e : E) | OpPop.
Arguments OpPush {E}.
Arguments OpPop {E}.

Section queue.
Context {E : Type} `{Inhabited E} (BUFFER_CAPACITY : nat).

Definition new (blank : E) : EventQueue E :=
  mk_queue (replicate BUFFER_CAPACITY blank) 0 0.

Definition push (event : E) : ST (EventQueue E) unit := fun q =>
  let next := ((head q + 1) mod BUFFER_CAPACITY)%nat in
  if decide (next = tail q) then Ret tt q
  else if decide (head q < length (buffer q))%nat
  then Ret tt (mk_queue (<[head q := event]> (buffer q)) next (tail q))
  else Panic.

Definition pop : ST (EventQueue E) (option E) := fun q =>
  if decide (head q = tail q) then Ret None q
  else match buffer q !! tail q with
       | Some event =>
           Ret (Some event)
             (mk_queue (buffer q) (head q) ((tail q + 1) mod BUFFER_CAPACITY)%nat)
       | None => Panic
       end.

(** ** Invariant and abstraction *)
Definition queue_wf (q : EventQueue E) : Prop :=
  length (buffer q) = BUFFER_CAPACITY /\
  (head q < BUFFER_CAPACITY)%nat /\ (tail q < BUFFER_CAPACITY)%nat.

Definition queue_len (q : EventQueue E) : nat :=
  if decide (tail q <= head q)%nat then (head q - tail q)%nat
  else (head q + BUFFER_CAPACITY - tail q)%nat.
Definition slot (q : EventQueue E) (i : nat) : nat :=
  if decide (tail q + i < BUFFER_CAPACITY)%nat then (tail q + i)%nat
  else (tail q + i - BUFFER_CAPACITY)%nat.
(** Oldest event first. *)
Definition contents (q : EventQueue E) : list E :=
  (fun i => buffer q !!! slot q i) <$> seq 0 (queue_len q).

Lemma mod_succ_cap i :
  (i < BUFFER_CAPACITY)%nat ->
  ((i + 1) mod BUFFER_CAPACITY)%nat =
    if decide (i + 1 < BUFFER_CAPACITY)%nat then (i + 1)%nat else 0%nat.
Proof.
  intros. case_decide; [by apply Nat.mod_small|].
  replace (i + 1)%nat with BUFFER_CAPACITY by lia. apply Nat.Div0.mod_same.
Qed.

Lemma length_contents q : length (contents q) = queue_len q.
Proof. unfold contents. by rewrite length_fmap, length_seq. Qed.

Lemma wf_new blank : (0 < BUFFER_CAPACITY)%nat -> queue_wf (new blank).
Proof. unfold queue_wf, new; simpl. rewrite length_replicate. lia. Qed.
Lemma contents_new blank : contents (new blank) = [].
Proof. done. Qed.

Lemma push_refines e q :
  queue_wf q ->
  exists q', push e q = Ret tt q' /\ queue_wf q' /\
    contents q' = Spec.push BUFFER_CAPACITY e (contents q).
Proof.
  intros (Hl & Hh & Ht). unfold push, Spec.push. rewrite length_contents.
  rewrite mod_succ_cap by done.
  destruct (decide (queue_len q < BUFFER_CAPACITY - 1)%nat) as [Hn|Hn]; cycle 1.
  { rewrite decide_True; [by exists q|]. unfold queue_len in Hn. repeat case_decide; lia. }
  rewrite decide_False by (unfold queue_len in Hn; repeat case_decide; lia).
  rewrite decide_True by lia. eexists; split; [done|]. split.
  { unfold queue_wf; simpl. rewrite length_insert. case_decide; lia. }
  set (q' := mk_queue _ _ _).
  assert (queue_len q' = S (queue_len q)) as Hlen.
  { unfold queue_len in *; subst q'; simpl. repeat case_decide; lia. }
  unfold contents. rewrite Hlen, seq_S, fmap_app. f_equal; simpl.
  - apply list_fmap_ext. intros ? i [-> Hi]%lookup_seq. subst q'; simpl.
    unfold slot; simpl. rewrite list_lookup_total_insert_ne; [done|].
    unfold queue_len in *. repeat case_decide; lia.
  - f_equal. subst q'; unfold slot; simpl.
    assert ((if decide (tail q + queue_len q < BUFFER_CAPACITY)
             then tail q + queue_len q else tail q + queue_len q - BUFFER_CAPACITY) = head q)%nat as ->.
    { unfold queue_len in *. repeat case_decide; lia. }
    apply list_lookup_total_insert_eq. lia.
Qed.

Lemma pop_refines q :
  queue_wf q ->
  exists q', pop q = Ret (Spec.pop (contents q)).1 q' /\ queue_wf q' /\
    contents q' = (Spec.pop (contents q)).2.
Proof.
  intros (Hl & Hh & Ht). unfold pop.
  destruct (decide (head q = tail q)) as [He|He].
  { assert (contents q = []) as ->.
    { apply nil_length_inv. rewrite length_contents. unfold queue_len. case_decide; lia. }
    exists q. split_and!; try done.
    apply nil_length_inv. rewrite length_contents. unfold queue_len. case_decide; lia. }
  destruct (lookup_lt_is_Some_2 (buffer q) (tail q)) as [e He']; [lia|].
  rewrite He'. set (q' := mk_queue _ _ _).
  assert (queue_len q = S (queue_len q')) as Hlen.
  { unfold queue_len; subst q'; simpl. rewrite mod_succ_cap by done.
    repeat case_decide; lia. }
  assert (contents q = e :: contents q') as Hc.
  { unfold contents. rewrite Hlen. simpl. f_equal.
    - unfold slot. rewrite Nat.add_0_r, decide_True by lia.
      by apply list_lookup_total_correct.
    - rewrite <- fmap_S_seq, <- list_fmap_compose. apply list_fmap_ext.
      intros ? i [-> Hi]%lookup_seq. simpl. f_equal. subst q'; unfold slot; simpl.
      rewrite mod_succ_cap by done. unfold queue_len in *. repeat case_decide; lia. }
  exists q'. rewrite Hc. split_and!; [done| |done].
  unfold queue_wf; subst q'; simpl. rewrite mod_succ_cap by done. case_decide; lia.
Qed.

(** ** Interleavings *)
Definition step (o : queue_op E) : ST (EventQueue E) (option E) :=
  match o with OpPush e => push e;; mret None | OpPop => pop end.
Fixpoint run (os : list (queue_op E)) : ST (EventQueue E) (list (option E)) :=
  match os with
  | [] => mret []
  | o :: os => r ← step o; rs ← run os; mret (r :: rs)
  end.
Fixpoint spec_run (os : list (queue_op E)) (l : list E) : list (option E) * list E :=
  match os with
  | [] => ([], l)
  | o :: os =>
      let '(r, l') := match o with
                      | OpPush e => (None, Spec.push BUFFER_CAPACITY e l)
                      | OpPop => Spec.pop l
                      end in
      let '(rs, l'') := spec_run os l' in (r :: rs, l'')
  end.

Lemma run_refines os q :
  queue_wf q ->
  exists q', run os q = Ret (spec_run os (contents q)).1 q' /\ queue_wf q' /\
    contents q' = (spec_run os (contents q)).2.
Proof.
  revert q; induction os as [|o os IH]; intros q Hq; [by exists q|].
  simpl. unfold mbind, st_bind.
  assert (exists r l q1, step o q = Ret r q1 /\ queue_wf q1 /\ contents q1 = l /\
    (match o with OpPush e => (None, Spec.push BUFFER_CAPACITY e (contents q))
     | OpPop => Spec.pop (contents q) end) = (r, l)) as (r & l & q1 & Hs & Hq1 & Hl & ->).
  { destruct o as [e|]; simpl.
    - destruct (push_refines e q Hq) as (q1 & Hp & ? & ?).
      unfold mbind, st_bind. rewrite Hp. eauto 10.
    - destruct (pop_refines q Hq) as (q1 & Hp & ? & ?).
      destruct (Spec.pop (contents q)) eqn:Hpop. eauto 10. }
  rewrite Hs. destruct (IH q1 Hq1) as (q2 & Hr & Hq2 & Hc). rewrite Hr. subst l.
  destruct (spec_run os (contents q1)). by exists q2.
Qed.
End queue.
