(* ===== verification/Keyboard.v ===== *)
(** * The PS/2 keyboard driver, [keyboard.rs]

    The state is the driver's statics: the three modifier flags, the [0xE0]
    prefix flag and the event queue ([EventQueue.v]).  The byte that [irq]
    reads from port [0x60] is its argument. *)
From S2P Require Import Prelude EventQueue.

Inductive Event :=
| Char (c : Z)
| Ctrl (c : Z)
| Backspace
| Enter
| Tab
| Up
| Down
| Left
| Right
| Escape
| F2.
Global Instance Event_eq_dec : EqDecision Event.
Proof. solve_decision. Defined.
Global Instance Event_inhabited : Inhabited Event := populate (Char 0).

Definition BUFFER_CAPACITY : nat := 256.

Definition KEYMAP : list Z :=
  [0; 0] ++ bytes_of "1234567890-=" ++ [0; 0] ++
  bytes_of "qwertyuiop[]" ++ [0; 0] ++ bytes_of "as" ++
  bytes_of "dfghjkl;'`" ++ [0] ++ bytes_of "\zxcv" ++
  bytes_of "bnm,./" ++ [0] ++ bytes_of "*" ++ [0] ++ bytes_of " " ++ replicate 6 0 ++
  replicate 64 0.

Definition KEYMAP_SHIFT : list Z :=
  [0; 0] ++ bytes_of "!@#$%^&*()_+" ++ [0; 0] ++
  bytes_of "QWERTYUIOP{}" ++ [0; 0] ++ bytes_of "AS" ++
  bytes_of "DFGHJKL:" ++ [34] ++ bytes_of "~" ++ [0] ++ bytes_of "|ZXCV" ++
  bytes_of "BNM<>?" ++ [0; 0; 0] ++ bytes_of " " ++ replicate 6 0 ++
  replicate 64 0.

Record keyboard := mk_keyboard {
  QUEUE : EventQueue Event;
  SHIFT_DOWN : bool;
  CAPS_LOCK : bool;
  CTRL_DOWN : bool;
  EXTENDED : bool
}.

Definition boot_state : keyboard :=
  mk_keyboard (new BUFFER_CAPACITY (Char 0)) false false false false.

Definition set_shift (b : bool) (k : keyboard) : keyboard :=
  mk_keyboard (QUEUE k) b (CAPS_LOCK k) (CTRL_DOWN k) (EXTENDED k).
Definition set_caps (b : bool) (k : keyboard) : keyboard :=
  mk_keyboard (QUEUE k) (SHIFT_DOWN k) b (CTRL_DOWN k) (EXTENDED k).
Definition set_ctrl (b : bool) (k : keyboard) : keyboard :=
  mk_keyboard (QUEUE k) (SHIFT_DOWN k) (CAPS_LOCK k) b (EXTENDED k).
Definition set_extended (b : bool) (k : keyboard) : keyboard :=
  mk_keyboard (QUEUE k) (SHIFT_DOWN k) (CAPS_LOCK k) (CTRL_DOWN k) b.
Definition set_queue (q : EventQueue Event) (k : keyboard) : keyboard :=
  mk_keyboard q (SHIFT_DOWN k) (CAPS_LOCK k) (CTRL_DOWN k) (EXTENDED k).

(** The last arm of [decode]: a key that is neither a modifier nor one of the
    named keys, looked up in the two tables. *)
Definition decode_char (scancode : Z) : ST keyboard (option Event) := fun k =>
  match KEYMAP !! Z.to_nat scancode, KEYMAP_SHIFT !! Z.to_nat scancode with
  | Some base, Some shifted_char =>
      Ret (if CTRL_DOWN k && negb (base =? 0) then Some (Ctrl base)
           else if SHIFT_DOWN k && negb (shifted_char =? 0) then Some (Char shifted_char)
           else if CAPS_LOCK k && is_ascii_alphabetic base
           then Some (Char (to_ascii_uppercase base))
           else if negb (base =? 0) then Some (Char base)
           else None) k
  | _, _ => Panic
  end.

Definition decode (scancode : Z) (extended : bool) : ST keyboard (option Event) := fun k =>
  if extended then
    Ret (if scancode =? 0x48 then Some Up
         else if scancode =? 0x50 then Some Down
         else if scancode =? 0x4B then Some Left
         else if scancode =? 0x4D then Some Right
         else None) k
  else if (scancode =? 0x2A) || (scancode =? 0x36) then Ret None (set_shift true k)
  else if (scancode =? 0xAA) || (scancode =? 0xB6) then Ret None (set_shift false k)
  else if scancode =? 0x1D then Ret None (set_ctrl true k)
  else if scancode =? 0x9D then Ret None (set_ctrl false k)
  else if scancode =? 0x3A then Ret None (set_caps (negb (CAPS_LOCK k)) k)
  else if scancode =? 0x0E then Ret (Some Backspace) k
  else if scancode =? 0x1C then Ret (Some Enter) k
  else if scancode =? 0x0F then Ret (Some Tab) k
  else if scancode =? 0x39 then Ret (Some (Char 32)) k
  else if scancode =? 0x01 then Ret (Some Escape) k
  else if scancode =? 0x3C then Ret (Some F2) k
  else if 0x80 <=? scancode then Ret None k
  else decode_char scancode k.

Definition irq (scancode : Z) : ST keyboard unit := fun k =>
  if scancode =? 0xE0 then Ret tt (set_extended true k)
  else
    let extended := EXTENDED k in
    match decode scancode extended (set_extended false k) with
    | Panic => Panic
    | Ret None k => Ret tt k
    | Ret (Some event) k =>
        match push BUFFER_CAPACITY event (QUEUE k) with
        | Ret _ q => Ret tt (set_queue q k)
        | Panic => Panic
        end
    end.

Definition next_event : ST keyboard (option Event) := fun k =>
  match pop BUFFER_CAPACITY (QUEUE k) with
  | Ret e q => Ret e (set_queue q k)
  | Panic => Panic
  end.

(** ** The contract of the driver

    [decoded] says, per class of key, which event a scancode yields under the
    given modifiers; [mods_after] says which modifiers it leaves. *)
Record modifiers := mk_modifiers { m_shift : bool; m_caps : bool; m_ctrl : bool; m_ext : bool }.
Definition mods_of (k : keyboard) : modifiers :=
  mk_modifiers (SHIFT_DOWN k) (CAPS_LOCK k) (CTRL_DOWN k) (EXTENDED k).

Inductive key_class :=
| Letter (lower : Z)
| Symbol (plain shifted : Z)
| Named (e : Event)
| Modifier
| NoKey.

(** The key cap at a scancode, [0] where there is none. *)
Definition cap_at (table : list Z) (scancode : Z) : Z := default 0 (table !! Z.to_nat scancode).

Definition class_of (scancode : Z) : key_class :=
  if bool_decide (scancode ∈ [0x2A; 0x36; 0x1D; 0x3A]) || (0x80 <=? scancode) then Modifier
  else if scancode =? 0x0E then Named Backspace
  else if scancode =? 0x1C then Named Enter
  else if scancode =? 0x0F then Named Tab
  else if scancode =? 0x39 then Named (Char 32)
  else if scancode =? 0x01 then Named Escape
  else if scancode =? 0x3C then Named F2
  else if cap_at KEYMAP scancode =? 0 then NoKey
  else if is_ascii_lower (cap_at KEYMAP scancode) then Letter (cap_at KEYMAP scancode)
  else Symbol (cap_at KEYMAP scancode) (cap_at KEYMAP_SHIFT scancode).

Definition decoded (m : modifiers) (scancode : Z) : option Event :=
  if scancode =? 0xE0 then None
  else if m_ext m then
    match scancode with
    | 0x48 => Some Up | 0x50 => Some Down | 0x4B => Some Left | 0x4D => Some Right
    | _ => None
    end
  else match class_of scancode with
       | Letter c =>
           Some (if m_ctrl m then Ctrl c
                 else if m_shift m || m_caps m then Char (c - 32) else Char c)
       | Symbol p s =>
           Some (if m_ctrl m then Ctrl p
                 else if m_shift m && negb (s =? 0) then Char s else Char p)
       | Named e => Some e
       | Modifier | NoKey => None
       end.

Definition mods_after (m : modifiers) (scancode : Z) : modifiers :=
  if scancode =? 0xE0 then mk_modifiers (m_shift m) (m_caps m) (m_ctrl m) true
  else if m_ext m then mk_modifiers (m_shift m) (m_caps m) (m_ctrl m) false
  else mk_modifiers
    (if bool_decide (scancode ∈ [0x2A; 0x36]) then true
     else if bool_decide (scancode ∈ [0xAA; 0xB6]) then false else m_shift m)
    (if scancode =? 0x3A then negb (m_caps m) else m_caps m)
    (if scancode =? 0x1D then true else if scancode =? 0x9D then false else m_ctrl m)
    false.

Definition keyboard_wf (k : keyboard) : Prop := queue_wf BUFFER_CAPACITY (QUEUE k).
Definition pending (k : keyboard) : list Event := contents BUFFER_CAPACITY (QUEUE k).

(** One decoded byte, all 256 of them under all modifiers, by computation. *)
Definition decode_agrees (sh ca ct ex : bool) (scancode : Z) : bool :=
  let k := mk_keyboard (mk_queue [] 0 0) sh ca ct false in
  let m := mk_modifiers sh ca ct ex in
  (scancode =? 0xE0) ||
  match decode scancode ex k with
  | Ret e k' => bool_decide (e = decoded m scancode) &&
      bool_decide ((m_shift (mods_after m scancode), m_caps (mods_after m scancode),
                    m_ctrl (mods_after m scancode), m_ext (mods_after m scancode)) =
                   (SHIFT_DOWN k', CAPS_LOCK k', CTRL_DOWN k', EXTENDED k'))
  | Panic => false
  end.
Lemma decode_table :
  forallb (fun '(sh, ca, ct, ex) => all_below 256 (decode_agrees sh ca ct ex))
    (sh ← [true; false]; ca ← [true; false]; ct ← [true; false]; ex ← [true; false];
     [(sh, ca, ct, ex)]) = true.
Proof. vm_compute. reflexivity. Qed.

(** [decode] never looks at the queue. *)
Lemma decode_frame sc ex q k :
  decode sc ex (set_queue q k) =
    match decode sc ex k with Ret e k' => Ret e (set_queue q k') | Panic => Panic end.
Proof. unfold decode, decode_char. destruct k; simpl. by repeat case_match. Qed.

Lemma decode_spec sc ex k :
  0 <= sc < 256 -> sc <> 0xE0 -> EXTENDED k = false ->
  exists k', decode sc ex k = Ret (decoded (mk_modifiers (SHIFT_DOWN k) (CAPS_LOCK k) (CTRL_DOWN k) ex) sc) k' /\
    QUEUE k' = QUEUE k /\
    mods_of k' = mods_after (mk_modifiers (SHIFT_DOWN k) (CAPS_LOCK k) (CTRL_DOWN k) ex) sc.
Proof.
  intros Hsc Hne Hex. destruct k as [q sh ca ct ex0]; simpl in *; subst ex0.
  assert (decode_agrees sh ca ct ex sc = true) as Hok.
  { pose proof decode_table as Ht. rewrite forallb_forall in Ht.
    specialize (Ht (sh, ca, ct, ex)). simpl in Ht.
    refine (all_below_spec _ _ (Ht _) sc _); [|lia].
    destruct sh, ca, ct, ex; simpl; tauto. }
  unfold decode_agrees in Hok. apply orb_true_iff in Hok as [Hok|Hok]; [to_prop; lia|].
  change (mk_keyboard q sh ca ct false)
    with (set_queue q (mk_keyboard (mk_queue [] 0 0) sh ca ct false)).
  rewrite decode_frame. destruct (decode sc ex _) as [e k'|] eqn:Hd in |- *; rewrite Hd in Hok; [|done]. to_prop. subst.
  eexists; split_and!; [done|done|]. destruct (mods_after _ _); simpl in *. unfold mods_of; simpl. congruence.
Qed.

(** The body of [irq_spec], for the lemmas about sequences of interrupts. *)
Lemma irq_step sc k :
  0 <= sc < 256 -> keyboard_wf k ->
  exists k', irq sc k = Ret tt k' /\ keyboard_wf k' /\
    mods_of k' = mods_after (mods_of k) sc /\
    pending k' = match decoded (mods_of k) sc with
                 | Some e => EventQueue.Spec.push BUFFER_CAPACITY e (pending k)
                 | None => pending k
                 end.
Proof.
  intros Hsc Hk. unfold irq.
  destruct (Z.eqb_spec sc 0xE0) as [->|Hne]; [by eexists|].
  destruct (decode_spec sc (EXTENDED k) (set_extended false k)) as (k' & Hd & Hq & Hm); [done..|].
  rewrite Hd. unfold pending, keyboard_wf in *. simpl in *.
  change (mk_modifiers _ _ _ (EXTENDED k)) with (mods_of k) in *.
  destruct (decoded (mods_of k) sc) as [e|].
  - rewrite <- Hq in *.
    destruct (push_refines BUFFER_CAPACITY e (QUEUE k') Hk) as (q & Hp & Hwf & Hc).
    rewrite Hp. eexists; split_and!; [done..|]. by rewrite <- Hc.
  - eexists; split_and!; [done|by rewrite Hq|done|by rewrite Hq].
Qed.

(** ** Sequences of interrupts *)
Fixpoint irqs (scs : list Z) : ST keyboard unit :=
  match scs with [] => mret tt | sc :: scs => irq sc;; irqs scs end.
Fixpoint drain (n : nat) : ST keyboard (list (option Event)) :=
  match n with
  | O => mret []
  | S n => e ← next_event; es ← drain n; mret (e :: es)
  end.

Definition plain : modifiers := mk_modifiers false false false false.
Definition is_char_key (sc : Z) : bool :=
  match class_of sc with Letter _ | Symbol _ _ => true | _ => false end.
(** Pressing a key sends its scancode, releasing it the same with bit 7 set. *)
Definition keystroke (sc : Z) : list Z := [sc; Z.lor sc 0x80].
Definition typed (sc : Z) : Event := Char (cap_at KEYMAP sc).

Definition keystroke_ok (sc : Z) : bool :=
  negb (is_char_key sc) ||
  (bool_decide (decoded plain sc = Some (typed sc)) &&
   bool_decide (decoded plain (Z.lor sc 0x80) = None) &&
   match mods_after plain sc, mods_after plain (Z.lor sc 0x80) with
   | mk_modifiers false false false false, mk_modifiers false false false false => true
   | _, _ => false
   end && (Z.lor sc 0x80 <? 256) && (0 <=? Z.lor sc 0x80)).
Lemma keystroke_table : all_below 128 keystroke_ok = true.
Proof. vm_compute. reflexivity. Qed.

Lemma keystroke_spec sc k :
  0 <= sc < 128 -> is_char_key sc = true -> keyboard_wf k -> mods_of k = plain ->
  (length (pending k) < BUFFER_CAPACITY - 1)%nat ->
  exists k', irqs (keystroke sc) k = Ret tt k' /\ keyboard_wf k' /\ mods_of k' = plain /\
    pending k' = pending k ++ [typed sc].
Proof.
  intros Hsc Hck Hk Hm Hlen.
  pose proof (all_below_spec _ _ keystroke_table sc Hsc) as Hok. unfold keystroke_ok in Hok.
  rewrite Hck in Hok. simpl in Hok. to_prop.
  destruct (irq_step sc k) as (k1 & Hi1 & Hwf1 & Hm1 & Hp1); [lia|done|].
  destruct (irq_step (Z.lor sc 0x80) k1) as (k2 & Hi2 & Hwf2 & Hm2 & Hp2); [lia|done|].
  rewrite Hm in *. assert (mods_after plain sc = plain) as Hpl by (by repeat case_match).
  rewrite Hpl in *. rewrite Hm1 in *.
  assert (mods_after plain (Z.lor sc 0x80) = plain) as Hpl' by (by repeat case_match).
  exists k2. unfold keystroke, irqs, mbind, st_bind. rewrite Hi1, Hi2.
  split_and!; [done|done|congruence|]. rewrite Hp2, Hp1.
  repeat match goal with H : decoded _ _ = _ |- _ => rewrite H end.
  unfold EventQueue.Spec.push. by rewrite decide_True by done.
Qed.

Lemma irqs_app xs ys k :
  irqs (xs ++ ys) k = match irqs xs k with Ret _ k' => irqs ys k' | Panic => Panic end.
Proof.
  revert k; induction xs as [|x xs IH]; intros k; simpl; [done|].
  unfold mbind, st_bind. destruct (irq x k); [apply IH|done].
Qed.

Lemma keystrokes_spec scs k :
  Forall (fun sc => 0 <= sc < 128 /\ is_char_key sc = true) scs ->
  keyboard_wf k -> mods_of k = plain ->
  (length (pending k) + length scs < BUFFER_CAPACITY)%nat ->
  exists k', irqs (concat (keystroke <$> scs)) k = Ret tt k' /\ keyboard_wf k' /\
    pending k' = pending k ++ (typed <$> scs).
Proof.
  intros Hs. revert k. induction Hs as [|sc scs [? ?] _ IH]; intros k Hk Hm Hlen.
  { exists k. by rewrite app_nil_r. }
  destruct (keystroke_spec sc k) as (k1 & H1 & Hwf1 & Hm1 & Hp1); [done..|simpl in Hlen; lia|].
  destruct (IH k1) as (k2 & H2 & Hwf2 & Hp2); [done..| |].
  { rewrite Hp1, length_app. simpl in *. lia. }
  exists k2. rewrite fmap_cons. cbn [concat]. rewrite irqs_app, H1, H2.
  split_and!; [done..|]. by rewrite Hp2, Hp1, <- app_assoc.
Qed.

Lemma drain_spec k :
  keyboard_wf k ->
  exists k', drain (length (pending k)) k = Ret (Some <$> pending k) k' /\
    keyboard_wf k' /\ pending k' = [].
Proof.
  remember (length (pending k)) as n eqn:Hn. revert k Hn.
  induction n as [|n IH]; intros k Hn Hk.
  { exists k. by rewrite (nil_length_inv (pending k)) by done. }
  destruct (pop_refines BUFFER_CAPACITY (QUEUE k) Hk) as (q & Hp & Hwf & Hc).
  unfold pending in *. destruct (contents BUFFER_CAPACITY (QUEUE k)) as [|e l] eqn:Hl; [done|].
  simpl in *. destruct (IH (set_queue q k)) as (k' & Hd & Hwf' & Hc'); [simpl; rewrite Hc; lia|done|].
  exists k'. unfold mbind, st_bind, next_event. rewrite Hp, Hd. simpl. rewrite Hc. done.
Qed.

(** The abstract driver: modifiers and pending events. *)
Definition abs_irq (a : modifiers * list Event) (sc : Z) : modifiers * list Event :=
  (mods_after a.1 sc,
   match decoded a.1 sc with
   | Some e => EventQueue.Spec.push BUFFER_CAPACITY e a.2
   | None => a.2
   end).

(** C25: the driver refines its contract on every byte stream.  Whatever bytes
    the controller sends, the interrupt handler never panics; the modifiers it
    keeps are the ones [mods_after] folds out of the stream, and the pending
    events are exactly the ones [decoded] assigns to each byte under the
    modifiers at that point, in order, dropped only while 255 are pending. *)
Theorem irqs_refine scs k :
  Forall (fun sc => 0 <= sc < 256) scs -> keyboard_wf k ->
  exists k', irqs scs k = Ret tt k' /\ keyboard_wf k' /\
    (mods_of k', pending k') = foldl abs_irq (mods_of k, pending k) scs.
Proof.
  intros Hs. revert k. induction Hs as [|sc scs Hsc _ IH]; intros k Hk; [by exists k|].
  destruct (irq_step sc k Hsc Hk) as (k1 & H1 & Hk1 & Hm1 & Hp1).
  destruct (IH k1 Hk1) as (k2 & H2 & Hk2 & Heq). exists k2. simpl.
  unfold mbind, st_bind. rewrite H1, H2. split_and!; [done..|].
  rewrite Heq. unfold abs_irq at 2. simpl. by rewrite Hm1, Hp1.
Qed.

Example irqs_refine_witness :
  (Forall (fun sc => 0 <= sc < 256) [0x2A; 0x1E; 0xAA; 0xE0; 0x48] /\ keyboard_wf boot_state) /\
  exists k', irqs [0x2A; 0x1E; 0xAA; 0xE0; 0x48] boot_state = Ret tt k' /\ keyboard_wf k' /\
    (mods_of k', pending k') = (plain, [Char 65; Up]).
Proof.
  assert (Forall (fun sc => 0 <= sc < 256) [0x2A; 0x1E; 0xAA; 0xE0; 0x48]) as HF
    by (repeat constructor; lia).
  assert (keyboard_wf boot_state) as Hk by (apply wf_new; unfold BUFFER_CAPACITY; lia).
  split; [done|]. apply (irqs_refine [0x2A; 0x1E; 0xAA; 0xE0; 0x48] boot_state HF Hk).
Defined.

(** what is typed is what is read.  Pressing and releasing any sequence of
    at most 255 character keys with no modifier held, and then reading the
    queue, gives the characters on the key caps, in order, and nothing else. *)
Theorem typing_roundtrip scs :
  Forall (fun sc => 0 <= sc < 128 /\ is_char_key sc = true) scs ->
  (length scs < BUFFER_CAPACITY)%nat ->
  exists k k', irqs (concat (keystroke <$> scs)) boot_state = Ret tt k /\
    drain (length scs) k = Ret ((fun sc => Some (Char (cap_at KEYMAP sc))) <$> scs) k' /\
    exists k'', next_event k' = Ret None k''.
Proof.
  intros Hs Hlen.
  destruct (keystrokes_spec scs boot_state Hs) as (k & Hi & Hk & Hp);
    [apply wf_new; unfold BUFFER_CAPACITY; lia|done|done|].
  simpl in Hp. change (contents _ _) with (@nil Event) in Hp.
  destruct (drain_spec k Hk) as (k' & Hd & Hk' & He). exists k, k'. split; [done|].
  unfold pending in *. simpl in Hp.
  rewrite Hp, length_fmap, <- list_fmap_compose in Hd. split; [done|].
  destruct (pop_refines BUFFER_CAPACITY (QUEUE k') Hk') as (q & Hpop & _ & _).
  rewrite He in Hpop. simpl in Hpop. exists (set_queue q k'). unfold next_event. by rewrite Hpop.
Qed.

Example typing_roundtrip_witness :
  (Forall (fun sc => 0 <= sc < 128 /\ is_char_key sc = true) [0x23; 0x17] /\
   (length [0x23; 0x17] < BUFFER_CAPACITY)%nat) /\
  exists k k', irqs [0x23; 0xA3; 0x17; 0x97] boot_state = Ret tt k /\
    drain 2 k = Ret (Some <$> (Char <$> bytes_of "hi")) k' /\
    exists k'', next_event k' = Ret None k''.
Proof.
  assert (Forall (fun sc => 0 <= sc < 128 /\ is_char_key sc = true) [0x23; 0x17]) as HF
    by (repeat constructor; lia).
  split; [split; [exact HF|unfold BUFFER_CAPACITY; simpl; lia]|].
  apply (typing_roundtrip [0x23; 0x17]); [exact HF|unfold BUFFER_CAPACITY; simpl; lia].
Defined.
