(* ===== verification/Mouse.v ===== *)
(** * The PS/2 mouse driver, [mouse.rs]

    The packet assembler of [irq] and the event queue.  The byte that [irq]
    reads from the data port is its argument; the controller handshake of
    [init] is port I/O and is not modelled. *)
From S2P Require Import Prelude EventQueue.

Record MouseEvent := mk_event { dx : Z; dy : Z; left : bool; right : bool; middle : bool }.
Global Instance MouseEvent_eq_dec : EqDecision MouseEvent.
Proof. solve_decision. Defined.

Definition BUFFER_CAPACITY : nat := 64.
Definition BLANK_EVENT : MouseEvent := mk_event 0 0 false false false.
Global Instance MouseEvent_inhabited : Inhabited MouseEvent := populate BLANK_EVENT.

Record mouse := mk_mouse {
  QUEUE : EventQueue MouseEvent;
  SKIP_FIRST_PACKET : bool;
  packet_bytes : list Z;
  packet_index : nat
}.

Definition boot_state : mouse :=
  mk_mouse (new BUFFER_CAPACITY BLANK_EVENT) true [0; 0; 0] 0.

(** The event of a complete packet. *)
Definition packet_event (b0 b1 b2 : Z) : MouseEvent :=
  let dx := if is_set b0 0x10 then b1 - 256 else b1 in
  let dy := if is_set b0 0x20 then b2 - 256 else b2 in
  mk_event dx (- dy) (is_set b0 0x01) (is_set b0 0x02) (is_set b0 0x04).

Definition irq (data : Z) : ST mouse unit := fun m =>
  if bool_decide (packet_index m = 0%nat) && negb (is_set data 0x08) then Ret tt m
  else if decide (packet_index m < length (packet_bytes m))%nat then
    let bytes := <[packet_index m := data]> (packet_bytes m) in
    let index := (packet_index m + 1)%nat in
    if decide (index < 3)%nat
    then Ret tt (mk_mouse (QUEUE m) (SKIP_FIRST_PACKET m) bytes index)
    else
      match bytes with
      | [b0; b1; b2] =>
          if SKIP_FIRST_PACKET m then Ret tt (mk_mouse (QUEUE m) false bytes 0)
          else match push BUFFER_CAPACITY (packet_event b0 b1 b2) (QUEUE m) with
               | Ret _ q => Ret tt (mk_mouse q false bytes 0)
               | Panic => Panic
               end
      | _ => Panic
      end
  else Panic.

Definition next_event : ST mouse (option MouseEvent) := fun m =>
  match pop BUFFER_CAPACITY (QUEUE m) with
  | Ret e q => Ret e (mk_mouse q (SKIP_FIRST_PACKET m) (packet_bytes m) (packet_index m))
  | Panic => Panic
  end.

(** ** Invariant *)
Definition mouse_wf (m : mouse) : Prop :=
  queue_wf BUFFER_CAPACITY (QUEUE m) /\ length (packet_bytes m) = 3%nat /\
  (packet_index m < 3)%nat.
Definition pending (m : mouse) : list MouseEvent := contents BUFFER_CAPACITY (QUEUE m).

Lemma mouse_boot_wf : mouse_wf boot_state.
Proof. split; [apply wf_new; unfold BUFFER_CAPACITY; lia|split; simpl; lia]. Qed.

Lemma three_bytes (l : list Z) : length l = 3%nat -> exists a b c, l = [a; b; c].
Proof. destruct l as [|a [|b [|c [|]]]]; simpl; naive_solver lia. Qed.

(** the packet assembler is safe on every byte stream: from a well-formed
    state one interrupt never panics (the index stays inside the three-byte
    buffer), keeps the state well-formed, and adds at most one event. *)
Theorem irq_safe data m :
  mouse_wf m ->
  exists m', irq data m = Ret tt m' /\ mouse_wf m' /\
    (pending m' = pending m \/ exists e, pending m' = Spec.push BUFFER_CAPACITY e (pending m)).
Proof.
  intros (Hq & Hl & Hi). unfold irq, mouse_wf, pending.
  case_match; [eexists; split_and!; eauto|].
  rewrite decide_True by lia. destruct (decide (packet_index m + 1 < 3)%nat).
  { eexists; split; [done|]. split; [|by left]. simpl. rewrite length_insert. split_and!; done || lia. }
  destruct (three_bytes (<[packet_index m := data]> (packet_bytes m)))
    as (b0 & b1 & b2 & ->); [by rewrite length_insert|].
  case_match.
  { eexists; split; [done|]. split; [|by left]. simpl. split_and!; done || lia. }
  destruct (push_refines BUFFER_CAPACITY (packet_event b0 b1 b2) (QUEUE m) Hq) as (q & -> & ? & ?).
  eexists; split; [done|]. split; [|by right; eexists]. simpl. split_and!; done || lia.
Qed.

Fixpoint irqs (data : list Z) : ST mouse unit :=
  match data with [] => mret tt | b :: data => irq b;; irqs data end.
Lemma mouse_irqs_app xs ys m :
  irqs (xs ++ ys) m = match irqs xs m with Ret _ m' => irqs ys m' | Panic => Panic end.
Proof.
  revert m; induction xs as [|x xs IH]; intros m; simpl; [done|].
  unfold mbind, st_bind. destruct (irq x m); [apply IH|done].
Qed.

(** ** Whole packets *)
Definition packet : Type := Z * Z * Z.
Definition packet_ok (p : packet) : Prop :=
  let '(b0, b1, b2) := p in
  in_u 8 b0 /\ in_u 8 b1 /\ in_u 8 b2 /\ is_set b0 0x08 = true.
Definition wire (p : packet) : list Z := let '(b0, b1, b2) := p in [b0; b1; b2].
(** The PS/2 protocol: bits 4 and 5 of the first byte are the ninth bits of
    two two's complement deltas, and [+y] is up. *)
Definition motion (p : packet) : MouseEvent :=
  let '(b0, b1, b2) := p in
  mk_event (swrap 9 (b1 + 256 * Z.b2z (Z.testbit b0 4)))
    (- swrap 9 (b2 + 256 * Z.b2z (Z.testbit b0 5)))
    (Z.testbit b0 0) (Z.testbit b0 1) (Z.testbit b0 2).

Lemma sign_extend9 b s :
  in_u 8 b -> (if (s : bool) then b - 256 else b) = swrap 9 (b + 256 * Z.b2z s).
Proof.
  intros [? ?]. unfold swrap, wrap. destruct s; simpl Z.b2z.
  - rewrite Z.mod_small by lia. case_match; to_prop; lia.
  - rewrite Z.mod_small by lia. case_match; to_prop; lia.
Qed.
Lemma packet_event_motion b0 b1 b2 :
  in_u 8 b1 -> in_u 8 b2 -> packet_event b0 b1 b2 = motion (b0, b1, b2).
Proof.
  intros. unfold packet_event, motion.
  pose proof (is_set_bit b0) as Hbit.
  rewrite (Hbit 4 : _ -> is_set b0 0x10 = _), (Hbit 5 : _ -> is_set b0 0x20 = _),
    (Hbit 0 : _ -> is_set b0 0x01 = _), (Hbit 1 : _ -> is_set b0 0x02 = _),
    (Hbit 2 : _ -> is_set b0 0x04 = _) by lia.
  f_equal; [|f_equal]; by apply sign_extend9.
Qed.

Lemma irqs_packet p m :
  packet_ok p -> mouse_wf m -> packet_index m = 0%nat ->
  exists m', irqs (wire p) m = Ret tt m' /\ mouse_wf m' /\ packet_index m' = 0%nat /\
    SKIP_FIRST_PACKET m' = false /\
    pending m' = if SKIP_FIRST_PACKET m then pending m
                 else Spec.push BUFFER_CAPACITY (motion p) (pending m).
Proof.
  destruct p as [[b0 b1] b2]. intros (? & ? & ? & Hs) (Hq & Hl & _) Hi.
  destruct (three_bytes _ Hl) as (a & b & c & Hb).
  unfold wire, irqs, mbind, st_bind, irq. rewrite Hi, Hs, Hb. simpl.
  rewrite packet_event_motion by done. unfold mouse_wf, pending.
  destruct (SKIP_FIRST_PACKET m).
  { eexists; split; [done|]. simpl. split_and!; done || lia. }
  destruct (push_refines BUFFER_CAPACITY (motion (b0, b1, b2)) (QUEUE m) Hq) as (q & -> & ? & ?).
  eexists; split; [done|]. simpl. split_and!; done || lia.
Qed.

Lemma irqs_junk junk m :
  Forall (fun b => is_set b 0x08 = false) junk -> packet_index m = 0%nat ->
  irqs junk m = Ret tt m.
Proof.
  intros Hj Hi. induction Hj as [|b junk Hb _ IH]; [done|].
  simpl. unfold mbind, st_bind, irq. rewrite Hi, Hb. done.
Qed.

Lemma irqs_packets ps m :
  Forall packet_ok ps -> mouse_wf m -> packet_index m = 0%nat ->
  SKIP_FIRST_PACKET m = false ->
  (length (pending m) + length ps < BUFFER_CAPACITY)%nat ->
  exists m', irqs (concat (wire <$> ps)) m = Ret tt m' /\ mouse_wf m' /\
    pending m' = pending m ++ (motion <$> ps).
Proof.
  intros Hps. revert m. induction Hps as [|p ps Hp _ IH]; intros m Hm Hi Hs Hlen.
  { exists m. by rewrite app_nil_r. }
  destruct (irqs_packet p m Hp Hm Hi) as (m1 & H1 & Hm1 & Hi1 & Hs1 & Hp1).
  rewrite Hs in Hp1. unfold Spec.push in Hp1.
  rewrite decide_True in Hp1 by (simpl in Hlen; lia).
  destruct (IH m1) as (m2 & H2 & Hm2 & Hp2); [done..| |].
  { rewrite Hp1, length_app. simpl in *. lia. }
  exists m2. rewrite fmap_cons. cbn [concat]. rewrite mouse_irqs_app, H1, H2.
  split_and!; [done..|]. by rewrite Hp2, Hp1, <- app_assoc.
Qed.

(** the decoded stream.  Bytes without the sync bit before the first
    packet are dropped, the first packet is discarded as start-up noise, and
    each of the next (at most 63) packets gives the motion the PS/2 protocol
    assigns to it: 9-bit two's complement deltas, [y] flipped to screen
    coordinates, and the three buttons, in order. *)
Theorem stream_decoded junk first ps :
  Forall (fun b => is_set b 0x08 = false) junk ->
  Forall packet_ok (first :: ps) ->
  (length ps < BUFFER_CAPACITY)%nat ->
  exists m, irqs (junk ++ concat (wire <$> first :: ps)) boot_state = Ret tt m /\
    mouse_wf m /\ pending m = motion <$> ps /\
    Forall (fun e => -256 <= dx e <= 255 /\ -255 <= dy e <= 256) (pending m).
Proof.
  intros Hj [Hf Hps]%Forall_cons Hlen.
  rewrite mouse_irqs_app, irqs_junk by done. rewrite fmap_cons. cbn [concat]. rewrite mouse_irqs_app.
  destruct (irqs_packet first boot_state Hf mouse_boot_wf) as (m1 & -> & Hm1 & Hi1 & Hs1 & Hp1); [done|].
  simpl in Hp1. change (pending boot_state) with (@nil MouseEvent) in Hp1.
  destruct (irqs_packets ps m1) as (m2 & -> & Hm2 & Hp2); [done..|by rewrite Hp1|].
  exists m2. rewrite Hp1 in Hp2. simpl in Hp2. split_and!; [done..|]. rewrite Hp2.
  apply Forall_fmap, Forall_forall. intros [[b0 b1] b2] Hin. simpl.
  unfold swrap, wrap. repeat case_match; to_prop; zlia.
Qed.

Example irq_safe_witness :
  mouse_wf boot_state /\
  exists m', irq 0x08 boot_state = Ret tt m' /\ mouse_wf m' /\
    (pending m' = pending boot_state \/
     exists e, pending m' = Spec.push BUFFER_CAPACITY e (pending boot_state)).
Proof. split; [exact mouse_boot_wf|]. apply (irq_safe 0x08 boot_state mouse_boot_wf). Defined.

Example stream_decoded_witness :
  exists m, irqs [0x01; 0x08; 0; 0; 0x19; 0xFE; 0x03] boot_state = Ret tt m /\
    mouse_wf m /\ pending m = [mk_event (-2) (-3) true false false] /\
    Forall (fun e => -256 <= dx e <= 255 /\ -255 <= dy e <= 256) (pending m).
Proof.
  apply (stream_decoded [0x01] (0x08, 0, 0) [(0x19, 0xFE, 0x03)]).
  - repeat constructor.
  - repeat constructor; unfold in_u; lia.
  - unfold BUFFER_CAPACITY; simpl; lia.
Defined.
