(* ===== verification/Bytes.v ===== *)
(** * Byte strings and little-endian fields

    What the loaders, the file system and the page-table code use of Rust's
    [from_le_bytes]/[to_le_bytes], slices and [copy_from_slice].  A byte is a
    [Z] in [0, 256). *)
From S2P Require Import Prelude.

Abbreviation byte_list l := (Forall (in_u 8) l).

(** [from_le_bytes] and [to_le_bytes]. *)
Fixpoint le_combine (bs : list Z) : Z :=
  match bs with [] => 0 | b :: bs => b + 256 * le_combine bs end.
Fixpoint le_split (n : nat) (v : Z) : list Z :=
  match n with O => [] | S n => v mod 256 :: le_split n (v / 256) end.

(** [data.get(a..b)]: [None] when the range is not inside the slice. *)
Definition get_range {A} (data : list A) (a b : Z) : option (list A) :=
  if (0 <=? a) && (a <=? b) && (b <=? Z.of_nat (length data))
  then Some (take (Z.to_nat (b - a)) (drop (Z.to_nat a) data)) else None.

(** [data[a..a + src.len()].copy_from_slice(src)], [None] where Rust panics. *)
Definition splice {A} (data : list A) (a : nat) (src : list A) : option (list A) :=
  if decide (a + length src <= length data)%nat
  then Some (take a data ++ src ++ drop (a + length src) data) else None.

Lemma length_le_split n v : length (le_split n v) = n.
Proof. revert v; induction n as [|n IH]; intros v; simpl; [done|]. by rewrite IH. Qed.
Lemma le_split_bytes n v : byte_list (le_split n v).
Proof.
  revert v; induction n as [|n IH]; intros v; simpl; constructor; [|done].
  apply Z.mod_pos_bound; lia.
Qed.
Lemma pow256_S n : 2 ^ (8 * Z.of_nat (S n)) = 256 * 2 ^ (8 * Z.of_nat n).
Proof.
  replace (8 * Z.of_nat (S n)) with (8 + 8 * Z.of_nat n) by lia.
  rewrite Z.pow_add_r by lia. reflexivity.
Qed.

Lemma le_combine_split n v : le_combine (le_split n v) = v mod 2 ^ (8 * Z.of_nat n).
Proof.
  revert v; induction n as [|n IH]; intros v; simpl le_split; cbn [le_combine].
  { by rewrite Z.mod_1_r. }
  rewrite IH, pow256_S. assert (0 < 2 ^ (8 * Z.of_nat n)) by (apply Z.pow_pos_nonneg; lia).
  rewrite Z.rem_mul_r by lia. lia.
Qed.
Lemma le_combine_small n v : 0 <= v < 2 ^ (8 * Z.of_nat n) -> le_combine (le_split n v) = v.
Proof. intros. rewrite le_combine_split. by apply Z.mod_small. Qed.
Lemma le_combine_bound bs :
  byte_list bs -> 0 <= le_combine bs < 2 ^ (8 * Z.of_nat (length bs)).
Proof.
  induction 1 as [|b bs [? ?] _ IH]; [simpl; lia|].
  cbn [le_combine length]. rewrite pow256_S. lia.
Qed.
Lemma le_split_combine bs : byte_list bs -> le_split (length bs) (le_combine bs) = bs.
Proof.
  induction 1 as [|b bs [? ?] _ IH]; [done|]. cbn [length le_split le_combine]. f_equal.
  - rewrite (Z.mul_comm 256), Z_mod_plus_full. apply Z.mod_small; lia.
  - by rewrite (Z.mul_comm 256), Z.div_add, (Z.div_small b), Z.add_0_l by lia.
Qed.
Lemma le_combine_app bs1 bs2 :
  le_combine (bs1 ++ bs2) = le_combine bs1 + 2 ^ (8 * Z.of_nat (length bs1)) * le_combine bs2.
Proof.
  induction bs1 as [|b bs1 IH].
  - simpl app. cbn [le_combine length]. change (8 * Z.of_nat 0) with 0. rewrite Z.pow_0_r. lia.
  - cbn [app le_combine length]. rewrite IH, pow256_S. lia.
Qed.

Lemma length_get_range {A} (data : list A) a b l :
  get_range data a b = Some l -> Z.of_nat (length l) = b - a.
Proof.
  unfold get_range. intros H. case_match; [|done]. simplify_eq. to_prop.
  rewrite length_take, length_drop. lia.
Qed.
Lemma get_range_bytes data a b l :
  byte_list data -> get_range data a b = Some l -> byte_list l.
Proof.
  unfold get_range. intros Hd H. case_match; [|done]. simplify_eq.
  by apply Forall_take, Forall_drop.
Qed.
Lemma get_range_is_Some {A} (data : list A) a b :
  0 <= a <= b -> b <= Z.of_nat (length data) -> is_Some (get_range data a b).
Proof.
  intros. unfold get_range.
  by rewrite (proj2 (Z.leb_le 0 a)), (proj2 (Z.leb_le a b)), (proj2 (Z.leb_le b _)) by lia.
Qed.

Lemma length_splice {A} (data : list A) a src l :
  splice data a src = Some l -> length l = length data.
Proof.
  unfold splice. intros H. case_decide; [|done]. simplify_eq.
  rewrite !length_app, length_take, length_drop. lia.
Qed.
Lemma splice_bytes data a src l :
  byte_list data -> byte_list src -> splice data a src = Some l -> byte_list l.
Proof.
  unfold splice. intros ? ? H. case_decide; [|done]. simplify_eq.
  repeat apply Forall_app_2; auto using Forall_take, Forall_drop.
Qed.
Lemma splice_lookup {A} (data : list A) a src l i :
  splice data a src = Some l ->
  l !! i = if decide (a <= i < a + length src)%nat then src !! (i - a)%nat else data !! i.
Proof.
  unfold splice. intros H. case_decide as Hle; [|done]. simplify_eq.
  destruct (decide (i < a)%nat).
  { rewrite decide_False, lookup_app_l, lookup_take_lt by (rewrite ?length_take; lia). done. }
  rewrite lookup_app_r by (rewrite length_take; lia). rewrite length_take, Nat.min_l by lia.
  destruct (decide (i < a + length src)%nat).
  { by rewrite decide_True, lookup_app_l by lia. }
  rewrite decide_False, lookup_app_r, lookup_drop by lia. f_equal. lia.
Qed.

#[export] Hint Resolve le_split_bytes get_range_bytes splice_bytes : macha.
