(* ===== verification/Text.v ===== *)
(** * Text

    What the kernel uses of Rust's [str]: a string is the list of its
    characters (code points), and UTF-8 relates it to bytes.  The functions are
    those of Rust's core library. *)
From S2P Require Import Prelude Bytes.

Abbreviation str := (list Z).

(** [char::is_whitespace]: the Unicode White_Space property. *)
Definition is_whitespace (c : Z) : bool :=
  ((9 <=? c) && (c <=? 13)) || (c =? 32) || (c =? 0x85) || (c =? 0xA0) || (c =? 0x1680) ||
  ((0x2000 <=? c) && (c <=? 0x200A)) || (c =? 0x2028) || (c =? 0x2029) || (c =? 0x202F) ||
  (c =? 0x205F) || (c =? 0x3000).

(** ** UTF-8 *)
Definition encode_char (c : Z) : list Z :=
  if c <? 0x80 then [c]
  else if c <? 0x800 then [0xC0 + c / 64; 0x80 + c mod 64]
  else if c <? 0x10000 then [0xE0 + c / 4096; 0x80 + c / 64 mod 64; 0x80 + c mod 64]
  else [0xF0 + c / 262144; 0x80 + c / 4096 mod 64; 0x80 + c / 64 mod 64; 0x80 + c mod 64].
Definition as_bytes (s : str) : list Z := s ≫= encode_char.
Definition is_scalar (c : Z) : bool :=
  ((0 <=? c) && (c <? 0xD800)) || ((0xE000 <=? c) && (c <? 0x110000)).

Definition continuation (b : Z) : bool := (0x80 <=? b) && (b <? 0xC0).
(** [str::from_utf8]: [None] is an invalid sequence (overlong forms,
    surrogates and values above U+10FFFF included). *)
Fixpoint from_utf8 (bs : list Z) : option str :=
  match bs with
  | [] => Some []
  | b :: bs1 =>
      if b <? 0x80 then cons b <$> from_utf8 bs1 else
      if b <? 0xC2 then None else
      match bs1 with
      | [] => None
      | b1 :: bs2 =>
          if negb (continuation b1) then None else
          if b <? 0xE0 then cons ((b - 0xC0) * 64 + (b1 - 0x80)) <$> from_utf8 bs2 else
          match bs2 with
          | [] => None
          | b2 :: bs3 =>
              if negb (continuation b2) then None else
              if b <? 0xF0 then
                let c := (b - 0xE0) * 4096 + (b1 - 0x80) * 64 + (b2 - 0x80) in
                if (0x800 <=? c) && is_scalar c then cons c <$> from_utf8 bs3 else None
              else
              match bs3 with
              | [] => None
              | b3 :: bs4 =>
                  if negb (continuation b3) then None else
                  let c := (b - 0xF0) * 262144 + (b1 - 0x80) * 4096 + (b2 - 0x80) * 64 + (b3 - 0x80) in
                  if (0x10000 <=? c) && is_scalar c then cons c <$> from_utf8 bs4 else None
              end
          end
      end
  end.

(** [String::from_utf8_lossy]: a maximal prefix of a character that goes wrong
    becomes U+FFFD, as in [Utf8Chunks]. *)
Definition second_ok (b b1 : Z) : bool :=
  if b =? 0xE0 then (0xA0 <=? b1) && (b1 <? 0xC0)
  else if b =? 0xED then (0x80 <=? b1) && (b1 <? 0xA0)
  else if b =? 0xF0 then (0x90 <=? b1) && (b1 <? 0xC0)
  else if b =? 0xF4 then (0x80 <=? b1) && (b1 <? 0x90)
  else continuation b1.
Fixpoint from_utf8_lossy (bs : list Z) : str :=
  match bs with
  | [] => []
  | b :: bs1 =>
      if b <? 0x80 then b :: from_utf8_lossy bs1 else
      if (b <? 0xC2) || (0xF5 <=? b) then 0xFFFD :: from_utf8_lossy bs1 else
      match bs1 with
      | [] => [0xFFFD]
      | b1 :: bs2 =>
          if negb (second_ok b b1) then 0xFFFD :: from_utf8_lossy bs1 else
          if b <? 0xE0 then ((b - 0xC0) * 64 + (b1 - 0x80)) :: from_utf8_lossy bs2 else
          match bs2 with
          | [] => [0xFFFD]
          | b2 :: bs3 =>
              if negb (continuation b2) then 0xFFFD :: from_utf8_lossy bs2 else
              if b <? 0xF0 then
                ((b - 0xE0) * 4096 + (b1 - 0x80) * 64 + (b2 - 0x80)) :: from_utf8_lossy bs3
              else
              match bs3 with
              | [] => [0xFFFD]
              | b3 :: bs4 =>
                  if negb (continuation b3) then 0xFFFD :: from_utf8_lossy bs3 else
                  ((b - 0xF0) * 262144 + (b1 - 0x80) * 4096 + (b2 - 0x80) * 64 + (b3 - 0x80))
                    :: from_utf8_lossy bs4
              end
          end
      end
  end.

(** [eq_ignore_ascii_case] *)
Definition eq_ignore_ascii_case (a b : str) : bool :=
  bool_decide (to_ascii_lowercase <$> a = to_ascii_lowercase <$> b).

(** ** Trimming and splitting *)
Fixpoint trim_start_matches (p : Z -> bool) (s : str) : str :=
  match s with
  | [] => []
  | c :: s' => if p c then trim_start_matches p s' else s
  end.
Definition trim_end_matches (p : Z -> bool) (s : str) : str := rev (trim_start_matches p (rev s)).
Definition trim (s : str) : str := trim_end_matches is_whitespace (trim_start_matches is_whitespace s).

(** [split(p)]: the pieces between the characters satisfying [p]. *)
Fixpoint split_on (p : Z -> bool) (s : str) : list str :=
  match s with
  | [] => [[]]
  | c :: s =>
      if p c then [] :: split_on p s
      else match split_on p s with [] => [[c]] | w :: ws => (c :: w) :: ws end
  end.
Definition nonempty (s : str) : bool := match s with [] => false | _ => true end.
Definition split_whitespace (s : str) : list str := filter (fun w => nonempty w = true) (split_on is_whitespace s).
(** [lines]: the pieces between newlines, without the carriage return of a
    line that ends in one before its newline, and without an empty piece after
    the final newline. *)
Definition strip_cr (s : str) : str :=
  match rev s with 13 :: r => rev r | _ => s end.
Fixpoint strip_endings (ps : list str) : list str :=
  match ps with
  | [] => []
  | [p] => if nonempty p then [p] else []
  | p :: ps => strip_cr p :: strip_endings ps
  end.
Definition lines (s : str) : list str := strip_endings (split_on (Z.eqb 10) s).

(** ** Decimal numbers *)
Definition digit_char (d : Z) : Z := 48 + d.
(** Least significant digit first, [n] digits at most. *)
Fixpoint digits_rev (n : nat) (v : Z) : list Z :=
  match n with
  | O => []
  | S n => digit_char (v mod 10) :: (if v / 10 =? 0 then [] else digits_rev n (v / 10))
  end.
(** [to_string] of an integer below 10^40 in magnitude. *)
Definition uint_to_string (v : Z) : str := rev (digits_rev 40 v).
Definition int_to_string (v : Z) : str := if v <? 0 then 45 :: uint_to_string (- v) else uint_to_string v.

(** The digits of [parse]; [None] on an empty string or another character. *)
Fixpoint parse_digits (s : str) (acc : Z) : option Z :=
  match s with
  | [] => Some acc
  | c :: s => if is_ascii_digit c then parse_digits s (acc * 10 + (c - 48)) else None
  end.
Definition parse_magnitude (s : str) : option Z :=
  match s with [] => None | _ => parse_digits s 0 end.
(** [str::parse] to a [w]-bit unsigned and a [w]-bit signed integer. *)
Definition parse_uint (w : Z) (s : str) : option Z :=
  let s := match s with 43 :: s => s | _ => s end in
  v ← parse_magnitude s; if v <? 2 ^ w then Some v else None.
Definition parse_int (w : Z) (s : str) : option Z :=
  match s with
  | 45 :: s => v ← parse_magnitude s; if v <=? 2 ^ (w - 1) then Some (- v) else None
  | 43 :: s => v ← parse_magnitude s; if v <? 2 ^ (w - 1) then Some v else None
  | _ => v ← parse_magnitude s; if v <? 2 ^ (w - 1) then Some v else None
  end.

(** ** Facts *)
Lemma from_utf8_encode s :
  Forall (fun c => is_scalar c = true) s -> from_utf8 (as_bytes s) = Some s.
Proof.
  induction 1 as [|c s Hc _ IH]; [done|]. unfold as_bytes in *. cbn [mbind list_bind].
  unfold is_scalar in Hc. apply orb_true_iff in Hc. rewrite !andb_true_iff, !Z.leb_le, !Z.ltb_lt in Hc.
  unfold encode_char at 1.
  destruct (Z.ltb_spec c 0x80); [|destruct (Z.ltb_spec c 0x800); [|destruct (Z.ltb_spec c 0x10000)]]; cbn [app from_utf8].
  - rewrite (proj2 (Z.ltb_lt c _)) by lia. by rewrite IH.
  - assert (continuation (0x80 + c mod 64) = true) as -> by (unfold continuation; zlia).
    rewrite (proj2 (Z.ltb_ge _ 0x80)), (proj2 (Z.ltb_ge _ 0xC2)), (proj2 (Z.ltb_lt _ 0xE0)) by zlia.
    simpl. rewrite IH. simpl. do 2 f_equal. zlia.
  - assert (continuation (0x80 + c mod 64) = true) as -> by (unfold continuation; zlia).
    assert (continuation (0x80 + c / 64 mod 64) = true) as -> by (unfold continuation; zlia).
    rewrite (proj2 (Z.ltb_ge _ 0x80)), (proj2 (Z.ltb_ge _ 0xC2)), (proj2 (Z.ltb_ge _ 0xE0)), (proj2 (Z.ltb_lt _ 0xF0)) by zlia.
    cbn [negb]. assert ((0xE0 + c / 4096 - 0xE0) * 4096 + (0x80 + c / 64 mod 64 - 0x80) * 64 + (0x80 + c mod 64 - 0x80) = c)
      as -> by zlia.
    assert ((0x800 <=? c) && is_scalar c = true) as -> by (unfold is_scalar; lia). by rewrite IH.
  - assert (continuation (0x80 + c mod 64) = true) as -> by (unfold continuation; zlia).
    assert (continuation (0x80 + c / 64 mod 64) = true) as -> by (unfold continuation; zlia).
    assert (continuation (0x80 + c / 4096 mod 64) = true) as -> by (unfold continuation; zlia).
    rewrite (proj2 (Z.ltb_ge _ 0x80)), (proj2 (Z.ltb_ge _ 0xC2)), (proj2 (Z.ltb_ge _ 0xE0)), (proj2 (Z.ltb_ge _ 0xF0)) by zlia.
    cbn [negb]. assert ((0xF0 + c / 262144 - 0xF0) * 262144 + (0x80 + c / 4096 mod 64 - 0x80) * 4096 +
      (0x80 + c / 64 mod 64 - 0x80) * 64 + (0x80 + c mod 64 - 0x80) = c) as -> by zlia.
    assert ((0x10000 <=? c) && is_scalar c = true) as -> by (unfold is_scalar; lia). by rewrite IH.
Qed.

Lemma split_on_app_sep p w s c : Forall (fun c => p c = false) w -> p c = true ->
  split_on p (w ++ c :: s) = w :: split_on p s.
Proof.
  induction 1 as [|a w Ha _ IH]; intros Hc; cbn [Datatypes.app split_on]; [by rewrite Hc|].
  by rewrite Ha, (IH Hc).
Qed.
Lemma split_on_none p w : Forall (fun c => p c = false) w -> split_on p w = [w].
Proof. induction 1 as [|a w Ha _ IH]; cbn [split_on]; [done|]. by rewrite Ha, IH. Qed.
Lemma digits_rev_length n v : (length (digits_rev n v) <= n)%nat.
Proof. revert v. induction n as [|n IH]; intros v; [done|]. cbn [digits_rev length]. case_match; [simpl; lia|]. specialize (IH (v / 10)). lia. Qed.
Lemma parse_digits_app s1 s2 acc : parse_digits (s1 ++ s2) acc = parse_digits s1 acc ≫= parse_digits s2.
Proof.
  revert acc. induction s1 as [|c s1 IH]; intros acc; [done|]. cbn [app parse_digits].
  case_match; [apply IH|done].
Qed.
Lemma digit_char_is d : 0 <= d < 10 -> is_ascii_digit (digit_char d) = true.
Proof. unfold is_ascii_digit, digit_char. lia. Qed.
Lemma digits_rev_digits n v : Forall (fun c => is_ascii_digit c = true) (digits_rev n v).
Proof.
  revert v. induction n as [|n IH]; intros v; cbn [digits_rev]; [constructor|].
  constructor; [apply digit_char_is, Z.mod_pos_bound; lia|]. case_match; [constructor|apply IH].
Qed.
Lemma uint_to_string_digits v : Forall (fun c => is_ascii_digit c = true) (uint_to_string v).
Proof. apply Forall_rev, digits_rev_digits. Qed.
Lemma parse_digits_rev n v acc :
  0 <= v < 10 ^ Z.of_nat n ->
  parse_digits (rev (digits_rev n v)) acc = Some (acc * 10 ^ Z.of_nat (length (digits_rev n v)) + v).
Proof.
  revert v acc. induction n as [|n IH]; intros v acc Hv.
  { cbn in *. f_equal. lia. }
  rewrite Nat2Z.inj_succ, Z.pow_succ_r in Hv by lia.
  assert (forall a, parse_digits [digit_char (v mod 10)] a = Some (a * 10 + v mod 10)) as Hlast.
  { intros a. cbn [parse_digits]. rewrite digit_char_is by (apply Z.mod_pos_bound; lia).
    unfold digit_char. f_equal. lia. }
  cbn [digits_rev]. destruct (Z.eqb_spec (v / 10) 0) as [E|E]; cbn [rev].
  - rewrite Hlast. cbn [length]. f_equal. change (10 ^ Z.of_nat 1) with 10. zlia.
  - rewrite parse_digits_app, IH by zlia. cbn [mbind option_bind]. rewrite Hlast. cbn [length].
    rewrite Nat2Z.inj_succ, Z.pow_succ_r by lia. f_equal. zlia.
Qed.
Lemma uint_to_string_nonempty v : uint_to_string v <> [].
Proof. unfold uint_to_string. cbn [digits_rev rev]. by destruct (rev _). Qed.
Lemma uint_to_string_head v : exists c s, uint_to_string v = c :: s /\ is_ascii_digit c = true.
Proof.
  pose proof (uint_to_string_digits v) as Hd. pose proof (uint_to_string_nonempty v).
  destruct (uint_to_string v) as [|c s]; [done|]. exists c, s. split; [done|]. by inversion Hd.
Qed.
Lemma parse_magnitude_to_string v :
  0 <= v < 10 ^ 40 -> parse_magnitude (uint_to_string v) = Some v.
Proof.
  intros Hv. destruct (uint_to_string_head v) as (c & s & E & _).
  assert (parse_magnitude (uint_to_string v) = parse_digits (uint_to_string v) 0) as -> by (by rewrite E).
  unfold uint_to_string. rewrite parse_digits_rev by done. done.
Qed.
Lemma parse_uint_to_string w v :
  0 <= v < 2 ^ w -> v < 10 ^ 40 -> parse_uint w (uint_to_string v) = Some v.
Proof.
  intros Hv Hb. destruct (uint_to_string_head v) as (c & s & E & Hc). unfold parse_uint.
  assert (match uint_to_string v with 43 :: s => s | _ => uint_to_string v end = uint_to_string v) as ->.
  { rewrite E. unfold is_ascii_digit in Hc.
    destruct c as [|c|c]; try done. repeat (destruct c as [c|c|]; try done). }
  rewrite parse_magnitude_to_string by lia. cbn. by rewrite (proj2 (Z.ltb_lt _ _)) by lia.
Qed.
Lemma parse_int_to_string w v :
  - 2 ^ (w - 1) <= v < 2 ^ (w - 1) -> 2 ^ (w - 1) < 10 ^ 40 -> parse_int w (int_to_string v) = Some v.
Proof.
  intros Hv Hb. unfold int_to_string. case_match; to_prop.
  - cbn [parse_int]. rewrite parse_magnitude_to_string by lia. cbn.
    rewrite (proj2 (Z.leb_le _ _)) by lia. f_equal. lia.
  - destruct (uint_to_string_head v) as (c & s & E & Hc).
    pose proof (parse_magnitude_to_string v ltac:(lia)) as Hm. rewrite E in *. unfold parse_int.
    assert (v < 2 ^ (w - 1)) as Hlt by lia. unfold is_ascii_digit in Hc.
    destruct c as [|c|c]; try done. repeat (destruct c as [c|c|]; try done).
    all: rewrite Hm; cbn [mbind option_bind]; by rewrite (proj2 (Z.ltb_lt _ _) Hlt).
Qed.

(** Decimal digits are appended on the right. *)
Lemma digits_rev_fuel n k v :
  0 <= v < 10 ^ Z.of_nat n -> (n <= k)%nat -> (0 < n)%nat -> digits_rev k v = digits_rev n v.
Proof.
  revert k v. induction n as [|n IH]; intros k v Hv Hk H0; [lia|]. destruct k as [|k]; [lia|].
  rewrite Nat2Z.inj_succ, Z.pow_succ_r in Hv by lia. cbn [digits_rev].
  destruct (Z.eqb_spec (v / 10) 0); [done|]. f_equal. destruct n as [|n]; [cbn in Hv; zlia|].
  apply IH; [zlia|lia|lia].
Qed.
Lemma uint_to_string_snoc v d :
  0 < v < 10 ^ 39 -> 0 <= d < 10 -> uint_to_string (v * 10 + d) = uint_to_string v ++ [digit_char d].
Proof.
  intros Hv Hd. unfold uint_to_string. rewrite (digits_rev_fuel 39 40 v) by (change (Z.of_nat 39) with 39; lia).
  cbn [digits_rev rev]. assert ((v * 10 + d) mod 10 = d) as -> by zlia.
  assert ((v * 10 + d) / 10 = v) as -> by zlia. rewrite (proj2 (Z.eqb_neq v 0)) by lia. reflexivity.
Qed.
Lemma length_digits_rev n v :
  0 < v < 10 ^ Z.of_nat n ->
  10 ^ (Z.of_nat (length (digits_rev n v)) - 1) <= v < 10 ^ Z.of_nat (length (digits_rev n v)).
Proof.
  revert v. induction n as [|n IH]; intros v Hv; [cbn in Hv; lia|].
  rewrite Nat2Z.inj_succ, Z.pow_succ_r in Hv by lia. cbn [digits_rev].
  destruct (Z.eqb_spec (v / 10) 0); cbn [length]; [cbn; zlia|].
  specialize (IH (v / 10) ltac:(zlia)). set (l := Z.of_nat (length (digits_rev n (v / 10)))) in *.
  rewrite Nat2Z.inj_succ, Z.pow_succ_r by lia. fold l.
  replace (Z.succ l - 1) with (Z.succ (l - 1)) by lia.
  assert (0 < l). { destruct (decide (l = 0)) as [E|]; [|lia]. rewrite E in IH. change (10 ^ 0) with 1 in IH. zlia. }
  rewrite Z.pow_succ_r by lia. zlia.
Qed.
Lemma length_uint_to_string v k :
  0 < v < 10 ^ 40 -> 0 < k -> (Z.of_nat (length (uint_to_string v)) <= k <-> v < 10 ^ k).
Proof.
  intros Hv Hk. unfold uint_to_string. rewrite length_rev.
  destruct (length_digits_rev 40 v ltac:(change (Z.of_nat 40) with 40; lia)) as [H1 H2].
  set (l := Z.of_nat _) in *. split; intros H.
  - apply Z.lt_le_trans with (10 ^ l); [done|]. apply Z.pow_le_mono_r; lia.
  - destruct (decide (l <= k)); [done|]. assert (10 ^ k <= 10 ^ (l - 1)); [apply Z.pow_le_mono_r; lia|lia].
Qed.
