(* ===== verification/PhysMem.v ===== *)
(** * Physical memory

    The kernel runs identity-mapped and reads and writes physical memory
    through raw pointers.  Memory is a function from byte addresses to bytes;
    two memories are equivalent when they agree everywhere, and every
    operation respects that. *)
From stdpp Require Import base.
From S2P Require Import Prelude Bytes.

Definition mem : Type := Z -> Z.
Definition mem_eq (m1 m2 : mem) : Prop := forall a, m1 a = m2 a.
Global Instance mem_equiv : Equiv mem := mem_eq.
Global Instance mem_equivalence : Equivalence (≡@{mem}).
Proof. split; repeat intro; unfold equiv, mem_equiv, mem_eq in *; congruence. Qed.
Definition mem_wf (m : mem) : Prop := forall a, in_u 8 (m a).

(** [slice::from_raw_parts(a, n)] *)
Definition mem_read (m : mem) (a : Z) (n : nat) : list Z :=
  (fun i => m (a + Z.of_nat i)) <$> seq 0 n.
(** [ptr::copy_nonoverlapping] from a slice outside this memory range *)
Definition mem_write (m : mem) (a : Z) (bs : list Z) : mem := fun x =>
  if (a <=? x) && (x <? a + Z.of_nat (length bs)) then bs !!! Z.to_nat (x - a) else m x.
(** [ptr::write_bytes(a, v, n)] *)
Definition mem_fill (m : mem) (a n v : Z) : mem := fun x =>
  if (a <=? x) && (x <? a + n) then v else m x.
(** [ptr::copy_nonoverlapping(src, dst, n)] *)
Definition mem_copy (m : mem) (src dst n : Z) : mem := fun x =>
  if (dst <=? x) && (x <? dst + n) then m (src + (x - dst)) else m x.

(** Unaligned little-endian loads and stores of [n] bytes. *)
Definition load (n : nat) (m : mem) (a : Z) : Z := le_combine (mem_read m a n).
Definition store (n : nat) (m : mem) (a v : Z) : mem := mem_write m a (le_split n v).
Abbreviation read_u8 := (fun (m : mem) a => m a).
Abbreviation read_u32 := (load 4).
Abbreviation read_u64 := (load 8).
Abbreviation write_u64 := (store 8).
Abbreviation write_u32 := (store 4).

Global Instance load_proper n : Proper ((≡) ==> (=) ==> (=)) (load n).
Proof.
  intros m1 m2 Hm a ? <-. unfold load, mem_read. f_equal. apply list_fmap_ext. intros. apply Hm.
Qed.
Global Instance store_proper n : Proper ((≡) ==> (=) ==> (=) ==> (≡)) (store n).
Proof.
  intros m1 m2 Hm a ? <- v ? <- x. unfold store, mem_write. by case_match.
Qed.
Global Instance fill_proper : Proper ((≡) ==> (=) ==> (=) ==> (=) ==> (≡)) mem_fill.
Proof. intros m1 m2 Hm a ? <- v ? <- n ? <- x. unfold mem_fill. by case_match. Qed.

Lemma length_mem_read m a n : length (mem_read m a n) = n.
Proof. unfold mem_read. by rewrite length_fmap, length_seq. Qed.
Lemma lookup_mem_read m a n i :
  (i < n)%nat -> mem_read m a n !! i = Some (m (a + Z.of_nat i)).
Proof. intros. unfold mem_read. rewrite list_lookup_fmap, lookup_seq_lt by done. done. Qed.
Lemma mem_read_bytes m a n : mem_wf m -> byte_list (mem_read m a n).
Proof. intros. apply Forall_fmap, Forall_true. intros. apply H. Qed.
Lemma mem_read_ext m1 m2 a n :
  (forall x, a <= x < a + Z.of_nat n -> m1 x = m2 x) -> mem_read m1 a n = mem_read m2 a n.
Proof.
  intros H. apply list_fmap_ext. intros ? i [-> ?]%lookup_seq. apply H. lia.
Qed.
Lemma mem_read_write m a bs : mem_read (mem_write m a bs) a (length bs) = bs.
Proof.
  apply list_eq. intros i. destruct (decide (i < length bs)%nat) as [Hi|Hi].
  - rewrite lookup_mem_read by done. unfold mem_write.
    rewrite (proj2 (Z.leb_le _ _)), (proj2 (Z.ltb_lt _ _)) by lia. simpl.
    rewrite Z.add_simpl_l, Nat2Z.id.
    destruct (lookup_lt_is_Some_2 bs i Hi) as [b Hb].
    by rewrite (list_lookup_total_correct _ _ _ Hb), Hb.
  - rewrite !lookup_ge_None_2; [done|lia|]. rewrite length_mem_read. lia.
Qed.

Lemma store_frame n m a v x :
  ~ (a <= x < a + Z.of_nat n) -> store n m a v x = m x.
Proof.
  intros. unfold store, mem_write. rewrite length_le_split.
  destruct (Z.leb_spec a x), (Z.ltb_spec x (a + Z.of_nat n)); simpl; done || lia.
Qed.
Lemma load_ext n m1 m2 a :
  (forall x, a <= x < a + Z.of_nat n -> m1 x = m2 x) -> load n m1 a = load n m2 a.
Proof. intros. unfold load. f_equal. by apply mem_read_ext. Qed.
Lemma load_store_same n m a v : load n (store n m a v) a = v mod 2 ^ (8 * Z.of_nat n).
Proof.
  unfold load, store. rewrite <- (length_le_split n v) at 2.
  rewrite mem_read_write. apply le_combine_split.
Qed.
Lemma load_store_disj n k m a b v :
  a + Z.of_nat n <= b \/ b + Z.of_nat k <= a -> load n (store k m b v) a = load n m a.
Proof. intros. apply load_ext. intros. apply store_frame. lia. Qed.
Lemma load_bound n m a : mem_wf m -> 0 <= load n m a < 2 ^ (8 * Z.of_nat n).
Proof.
  intros. unfold load. rewrite <- (length_mem_read m a n) at 3.
  apply le_combine_bound. by apply mem_read_bytes.
Qed.
Lemma store_wf n m a v : mem_wf m -> mem_wf (store n m a v).
Proof.
  intros Hm x. unfold store, mem_write. case_match; [|apply Hm].
  to_prop. rewrite length_le_split in *. pose proof (le_split_bytes n v) as Hb.
  rewrite Forall_lookup_total in Hb. apply Hb. rewrite length_le_split. lia.
Qed.
Lemma fill_wf m a n v : mem_wf m -> in_u 8 v -> mem_wf (mem_fill m a n v).
Proof. intros Hm Hv x. unfold mem_fill. case_match; [done|apply Hm]. Qed.
Lemma fill_frame m a n v x : ~ (a <= x < a + n) -> mem_fill m a n v x = m x.
Proof.
  intros. unfold mem_fill. destruct (Z.leb_spec a x), (Z.ltb_spec x (a + n)); simpl; done || lia.
Qed.
Lemma load_fill_disj n m a b k v :
  a + Z.of_nat n <= b \/ b + k <= a -> load n (mem_fill m b k v) a = load n m a.
Proof. intros. apply load_ext. intros. apply fill_frame. lia. Qed.
Lemma load_fill_zero n m a b k :
  b <= a -> a + Z.of_nat n <= b + k -> load n (mem_fill m b k 0) a = 0.
Proof.
  intros. unfold load. assert (mem_read (mem_fill m b k 0) a n = replicate n 0) as ->.
  { apply list_eq. intros i. destruct (decide (i < n)%nat).
    - rewrite lookup_mem_read, lookup_replicate_2 by done. unfold mem_fill.
      by rewrite (proj2 (Z.leb_le _ _)), (proj2 (Z.ltb_lt _ _)) by lia.
    - rewrite !lookup_ge_None_2; [done| |]; rewrite ?length_replicate, ?length_mem_read; lia. }
  clear. induction n; cbn [replicate le_combine]; lia.
Qed.
#[export] Hint Resolve store_wf fill_wf : macha.
