(* ===== verification/Multiboot.v ===== *)
(** * Boot information, [multiboot.rs]

    The Multiboot structure is read from physical memory at the address the
    boot loader left in [ebx].  [memory_map] is an iterator over variable-size
    entries; [collect] is the [for] loop over it. *)
From S2P Require Import Prelude Bytes PhysMem.

Definition MAGIC : Z := 0x2BADB002.

Record MultibootInfo := mk_info { addr : Z }.

Definition info_u32 (m : mem) (info : MultibootInfo) (offset : Z) : Z :=
  read_u32 m (addr info + offset).
Definition info_u64 (m : mem) (info : MultibootInfo) (offset : Z) : Z :=
  read_u64 m (addr info + offset).
Definition info_u8 (m : mem) (info : MultibootInfo) (offset : Z) : Z :=
  read_u8 m (addr info + offset).

Definition flags (m : mem) (info : MultibootInfo) : Z := info_u32 m info 0.

Definition memory_lower_kb (m : mem) (info : MultibootInfo) : option Z :=
  if is_set (flags m info) 1 then Some (info_u32 m info 4) else None.
Definition memory_upper_kb (m : mem) (info : MultibootInfo) : option Z :=
  if is_set (flags m info) 1 then Some (info_u32 m info 8) else None.

(** The bytes up to the first NUL at or after [a]; [None] when [fuel] bytes
    hold no NUL. *)
Fixpoint cstr (fuel : nat) (m : mem) (a : Z) : option (list Z) :=
  match fuel with
  | O => None
  | S fuel => if read_u8 m a =? 0 then Some [] else cons (read_u8 m a) <$> cstr fuel m (a + 1)
  end.

Definition cmdline (fuel : nat) (m : mem) (info : MultibootInfo) : option (option (list Z)) :=
  if negb (is_set (flags m info) (Z.shiftl 1 2)) then Some None
  else Some <$> cstr fuel m (info_u32 m info 16).
Definition boot_loader_name (fuel : nat) (m : mem) (info : MultibootInfo)
    : option (option (list Z)) :=
  if negb (is_set (flags m info) (Z.shiftl 1 9)) then Some None
  else Some <$> cstr fuel m (info_u32 m info 64).

Record FramebufferInfo := mk_framebuffer {
  fb_addr : Z; fb_pitch : Z; fb_width : Z; fb_height : Z; fb_bpp : Z
}.
Definition framebuffer (m : mem) (info : MultibootInfo) : option FramebufferInfo :=
  if negb (is_set (flags m info) (Z.shiftl 1 12)) then None
  else
    let addr := info_u64 m info 88 in
    let pitch := info_u32 m info 96 in
    let width := info_u32 m info 100 in
    let height := info_u32 m info 104 in
    let bpp := info_u8 m info 108 in
    if (addr =? 0) || (width =? 0) || (height =? 0) || (bpp =? 0) then None
    else Some (mk_framebuffer addr pitch width height bpp).

Record MemoryRegion := mk_region { base : Z; length_ : Z; region_type : Z }.

Record MemoryMapIter := mk_iter { current : Z; end_ : Z }.
Definition iter_empty : MemoryMapIter := mk_iter 0 0.

Definition memory_map (m : mem) (info : MultibootInfo) : MemoryMapIter :=
  if negb (is_set (flags m info) (Z.shiftl 1 6)) then iter_empty
  else
    let length := info_u32 m info 44 in
    let start := info_u32 m info 48 in
    mk_iter start (start + length).

Definition next (m : mem) (it : MemoryMapIter) : option (MemoryRegion * MemoryMapIter) :=
  if end_ it <=? current it then None
  else
    let size := read_u32 m (current it) in
    let base := read_u64 m (current it + 4) in
    let length := read_u64 m (current it + 12) in
    let region_type := read_u32 m (current it + 20) in
    Some (mk_region base length region_type, mk_iter (current it + size + 4) (end_ it)).

(** [for region in it], with a bound on the number of entries; [None] when the
    bound is too small. *)
Fixpoint collect (fuel : nat) (m : mem) (it : MemoryMapIter) : option (list MemoryRegion) :=
  match next m it with
  | None => Some []
  | Some (r, it') =>
      match fuel with O => None | S fuel => cons r <$> collect fuel m it' end
  end.

(** ** The layout the boot loader writes

    An entry is a size field, which does not count itself, and a body at least
    20 bytes long. *)
Inductive mmap_at (m : mem) : Z -> Z -> list MemoryRegion -> Prop :=
| mmap_end a : mmap_at m a a []
| mmap_entry a e size r rs :
    20 <= size -> read_u32 m a = size ->
    read_u64 m (a + 4) = base r -> read_u64 m (a + 12) = length_ r ->
    read_u32 m (a + 20) = region_type r ->
    mmap_at m (a + size + 4) e rs -> mmap_at m a e (r :: rs).

Lemma mmap_at_le m a e rs : mmap_at m a e rs -> a <= e.
Proof. induction 1; lia. Qed.

Lemma collect_mmap m a e rs fuel :
  mmap_at m a e rs -> (length rs <= fuel)%nat -> collect fuel m (mk_iter a e) = Some rs.
Proof.
  intros H. revert fuel. induction H as [a|a e size r rs Hs H1 H2 H3 H4 Hm IH]; intros fuel Hf.
  - destruct fuel; simpl; unfold next; simpl; by rewrite Z.leb_refl.
  - destruct fuel as [|fuel]; [simpl in Hf; lia|]. apply mmap_at_le in Hm.
    simpl. unfold next; simpl. rewrite (proj2 (Z.leb_gt e a)) by lia.
    rewrite H1, H2, H3, H4, IH by (simpl in Hf; lia). simpl. by destruct r.
Qed.

(** the memory-map iterator is correct and its loop terminates.  With a
    well-formed map in memory, [memory_map] followed by the [for] loop yields
    exactly the regions the boot loader wrote, in order, whatever the sizes of
    the entries; and on any memory contents at all, well-formed or not, the
    loop ends within one step per four bytes of the map. *)
Theorem memory_map_collects m info :
  mem_wf m ->
  (forall rs fuel,
     is_set (flags m info) (Z.shiftl 1 6) = true ->
     mmap_at m (info_u32 m info 48) (info_u32 m info 48 + info_u32 m info 44) rs ->
     (length rs <= fuel)%nat ->
     collect fuel m (memory_map m info) = Some rs) /\
  (forall it fuel, end_ it - current it <= 4 * Z.of_nat fuel ->
     is_Some (collect fuel m it)).
Proof.
  intros Hm. split.
  - intros rs fuel Hf Hmm Hfuel. unfold memory_map. rewrite Hf. by apply collect_mmap.
  - intros it fuel. revert it. induction fuel as [|fuel IH]; intros it Hle; simpl; unfold next.
    + rewrite (proj2 (Z.leb_le _ _)) by lia. by eexists.
    + destruct (end_ it <=? current it) eqn:He; [by eexists|]. to_prop. apply fmap_is_Some, IH. simpl.
      pose proof (load_bound 4 m (current it) Hm). lia.
Qed.

(** A two-entry map at address 64 described by an information block at 0. *)
Definition example_mem : mem :=
  mem_write (mem_write (mem_write (fun _ => 0) 0 (le_split 4 64)) 44 (le_split 4 52 ++ le_split 4 64))
    64 (le_split 4 20 ++ le_split 8 0 ++ le_split 8 0x9FC00 ++ le_split 4 1 ++
        le_split 4 24 ++ le_split 8 0x100000 ++ le_split 8 0x7EE0000 ++ le_split 4 1 ++ le_split 4 0).
Example memory_map_collects_witness :
  mem_wf example_mem /\
  is_set (flags example_mem (mk_info 0)) (Z.shiftl 1 6) = true /\
  collect 2 example_mem (memory_map example_mem (mk_info 0)) =
    Some [mk_region 0 0x9FC00 1; mk_region 0x100000 0x7EE0000 1].
Proof.
  assert (mem_wf example_mem) as Hwf.
  { intros x. unfold example_mem, mem_write.
    repeat case_match; [| | |unfold in_u; lia]; to_prop;
      (apply Forall_lookup_total_1; [|lia]); repeat constructor; vm_compute; intuition congruence. }
  split; [done|]. split; [vm_compute; reflexivity|].
  apply (proj1 (memory_map_collects example_mem (mk_info 0) Hwf)); [vm_compute; reflexivity| |simpl; lia].
  replace (info_u32 example_mem (mk_info 0) 48) with 64 by (vm_compute; reflexivity).
  replace (64 + _) with 116 by (vm_compute; reflexivity).
  apply (mmap_entry _ _ _ 20); [lia|vm_compute; reflexivity..|].
  apply (mmap_entry _ _ _ 24); [lia|vm_compute; reflexivity..|]. apply mmap_end.
Defined.
