(* ===== verification/Pmm.v ===== *)
(** * The physical memory manager, [pmm.rs]

    A bitmap with one bit per 4 KiB frame, [1] meaning in use.  Every public
    operation takes the module's spin lock for its whole body, so each is one
    step of the model (see [Sync.v]). *)
From S2P Require Import Prelude Bytes PhysMem Multiboot.

Definition FRAME_SIZE : Z := 4096.
Definition MAX_PHYS_MEM : Z := 256 * 1024 * 1024.
Definition FRAME_COUNT : Z := MAX_PHYS_MEM / FRAME_SIZE.
Definition BITMAP_BYTES : Z := FRAME_COUNT / 8.
Definition LOW_RESERVED_END : Z := 64 * 1024 * 1024.

Record pmm := mk_pmm { BITMAP : list Z; LAST_USABLE_FRAME : Z }.

Definition boot_state : pmm := mk_pmm (replicate (Z.to_nat BITMAP_BYTES) 0xFF) 0.

Definition align_up (value align : Z) : Z :=
  Z.land (wrap 64 (value + align - 1)) (unot 64 (align - 1)).
Definition align_down (value align : Z) : Z := Z.land value (unot 64 (align - 1)).

(** [BITMAP[i] = f(BITMAP[i])]; an index outside the array panics. *)
Definition bitmap_update (i : Z) (f : Z -> Z) : ST pmm unit := fun s =>
  match BITMAP s !! Z.to_nat i with
  | Some b => Ret tt (mk_pmm (<[Z.to_nat i := f b]> (BITMAP s)) (LAST_USABLE_FRAME s))
  | None => Panic
  end.

Definition set_frame (frame : Z) : ST pmm unit :=
  bitmap_update (frame / 8) (fun b => Z.lor b (Z.shiftl 1 (frame mod 8))).
Definition clear_frame (frame : Z) : ST pmm unit :=
  bitmap_update (frame / 8) (fun b => Z.land b (unot 8 (Z.shiftl 1 (frame mod 8)))).
Definition frame_is_free (frame : Z) : ST pmm bool := fun s =>
  match BITMAP s !! Z.to_nat (frame / 8) with
  | Some b => Ret (Z.land b (Z.shiftl 1 (frame mod 8)) =? 0) s
  | None => Panic
  end.

(** [for f in start..start + n { op(f) }] *)
Fixpoint for_frames (op : Z -> ST pmm unit) (n : nat) (start : Z) : ST pmm unit :=
  match n with
  | O => mret tt
  | S n => op start;; for_frames op n (start + 1)
  end.

(** The [while] loop of [mark_reserved]; running out of [fuel] is a panic, and
    the specification shows it does not happen. *)
Fixpoint reserve_while (fuel : nat) (frame end_ : Z) : ST pmm unit :=
  if frame * FRAME_SIZE <? end_ then
    match fuel with
    | O => panic
    | S fuel => set_frame frame;; reserve_while fuel (frame + 1) end_
    end
  else mret tt.

Definition mark_reserved (base len : Z) : ST pmm unit :=
  if len =? 0 then mret tt
  else
    let start := align_down base FRAME_SIZE in
    let end_ := Z.min (align_up (saturating_add 64 base len) FRAME_SIZE) MAX_PHYS_MEM in
    reserve_while (Z.to_nat FRAME_COUNT) (start / FRAME_SIZE) end_.

(** One iteration of the region loop of [init]: the new [last_frame]. *)
Definition init_region (region : MemoryRegion) (last_frame : Z) : ST pmm Z :=
  if negb (region_type region =? 1) then mret last_frame
  else if base region <? 1024 * 1024 then mret last_frame
  else
    let start := base region in
    let end_ := wrap 64 (base region + length_ region) in
    let start_frame := align_up start FRAME_SIZE / FRAME_SIZE in
    let end_frame := Z.min (align_down end_ FRAME_SIZE) MAX_PHYS_MEM / FRAME_SIZE in
    let last_frame := if last_frame <? end_frame then end_frame - 1 else last_frame in
    for_frames clear_frame (Z.to_nat (end_frame - start_frame)) start_frame;;
    mret last_frame.
Fixpoint init_regions (regions : list MemoryRegion) (last_frame : Z) : ST pmm Z :=
  match regions with
  | [] => mret last_frame
  | r :: rs => last ← init_region r last_frame; init_regions rs last
  end.

(** [regions] is what the loop over [info.memory_map()] yields; the kernel's
    extent comes from the linker symbols. *)
Definition init (regions : list MemoryRegion) (kernel_start kernel_end : Z) : ST pmm unit :=
  last_frame ← init_regions regions 0;
  modify (fun s => mk_pmm (BITMAP s) last_frame);;
  mark_reserved kernel_start (wrap 64 (kernel_end - kernel_start));;
  mark_reserved 0 LOW_RESERVED_END.

(** The scan of [frame_alloc] over [n] frames from [frame]. *)
Fixpoint alloc_scan (n : nat) (frame : Z) : ST pmm (option Z) :=
  match n with
  | O => mret None
  | S n =>
      free ← frame_is_free frame;
      if free : bool then set_frame frame;; mret (Some (frame * FRAME_SIZE))
      else alloc_scan n (frame + 1)
  end.
Definition frame_alloc : ST pmm (option Z) := fun s =>
  alloc_scan (Z.to_nat (LAST_USABLE_FRAME s + 1)) 0 s.

(** The scan of [alloc_contiguous] with its two loop variables. *)
Fixpoint run_scan (count : Z) (n : nat) (frame run_start run_len : Z) : ST pmm (option Z) :=
  match n with
  | O => mret None
  | S n =>
      free ← frame_is_free frame;
      if free : bool then
        let run_start := if run_len =? 0 then frame else run_start in
        let run_len := run_len + 1 in
        if run_len =? count then
          for_frames set_frame (Z.to_nat count) run_start;;
          mret (Some (run_start * FRAME_SIZE))
        else run_scan count n (frame + 1) run_start run_len
      else run_scan count n (frame + 1) run_start 0
  end.
Definition alloc_contiguous (count : Z) : ST pmm (option Z) := fun s =>
  let last := LAST_USABLE_FRAME s in
  if (count =? 0) || (last <? count - 1) then Ret None s
  else run_scan count (Z.to_nat (last + 1)) 0 0 0 s.

Definition frame_free (phys : Z) : ST pmm unit :=
  if negb (phys mod FRAME_SIZE =? 0) || (MAX_PHYS_MEM <=? phys) then mret tt
  else clear_frame (phys / FRAME_SIZE).

Fixpoint count_from (n : nat) (frame free : Z) : ST pmm Z :=
  match n with
  | O => mret free
  | S n => b ← frame_is_free frame; count_from n (frame + 1) (if b : bool then free + 1 else free)
  end.
Definition count_free : ST pmm Z := fun s =>
  count_from (Z.to_nat (LAST_USABLE_FRAME s + 1)) 0 0 s.
Definition free_frames : ST pmm Z := count_free.
Definition used_frames : ST pmm Z := fun s =>
  let total := LAST_USABLE_FRAME s + 1 in
  (n ← count_free; mret (total - n)) s.
Definition total_frames : ST pmm Z := fun s => Ret (LAST_USABLE_FRAME s + 1) s.

(** ** Invariant *)
Definition bitmap_wf (s : pmm) : Prop :=
  length (BITMAP s) = Z.to_nat BITMAP_BYTES /\ byte_list (BITMAP s).
Definition pmm_wf (s : pmm) : Prop := bitmap_wf s /\ 0 <= LAST_USABLE_FRAME s < FRAME_COUNT.

(** Frame [f] is marked in use. *)
Definition used (s : pmm) (f : Z) : bool :=
  Z.testbit (BITMAP s !!! Z.to_nat (f / 8)) (f mod 8).
Definition frame_ok (f : Z) : Prop := 0 <= f < FRAME_COUNT.

Ltac pmm_unfold :=
  unfold frame_ok in *;
  change FRAME_COUNT with 65536 in *; change BITMAP_BYTES with 8192 in *;
  change MAX_PHYS_MEM with 268435456 in *; change FRAME_SIZE with 4096 in *;
  change LOW_RESERVED_END with 67108864 in *.
Ltac pmm_lia := pmm_unfold; zlia.

Lemma bitmap_lookup s f :
  bitmap_wf s -> frame_ok f ->
  exists b, BITMAP s !! Z.to_nat (f / 8) = Some b /\ in_u 8 b /\
    forall i, 0 <= i < 8 -> Z.testbit b i = used s (8 * (f / 8) + i).
Proof.
  intros [Hl Hb] Hf.
  destruct (lookup_lt_is_Some_2 (BITMAP s) (Z.to_nat (f / 8))) as [b Hbl].
  { rewrite Hl. pmm_lia. }
  exists b. split_and!; [done|by eapply Forall_lookup_1|].
  intros i Hi. unfold used. replace ((8 * (f / 8) + i) / 8) with (f / 8) by zlia.
  replace ((8 * (f / 8) + i) mod 8) with i by zlia.
  by rewrite (list_lookup_total_correct _ _ _ Hbl).
Qed.

(** A byte update that acts on one bit acts on one frame. *)
Lemma bitmap_update_spec s f g h :
  bitmap_wf s -> frame_ok f ->
  (forall b, in_u 8 b -> in_u 8 (g b)) ->
  (forall b i, in_u 8 b -> 0 <= i < 8 ->
     Z.testbit (g b) i = if i =? f mod 8 then h else Z.testbit b i) ->
  exists s', bitmap_update (f / 8) g s = Ret tt s' /\ bitmap_wf s' /\
    LAST_USABLE_FRAME s' = LAST_USABLE_FRAME s /\
    forall x, 0 <= x -> used s' x = if x =? f then h else used s x.
Proof.
  intros Hs Hf Hg Hbit. destruct (bitmap_lookup s f Hs Hf) as (b & Hb & Hb8 & _).
  unfold bitmap_update. rewrite Hb. eexists; split_and!; [done| |done|].
  { destruct Hs as [Hl HF]. split; simpl; [by rewrite length_insert|].
    apply Forall_insert; [done|by apply Hg]. }
  intros x Hx. unfold used; simpl. destruct (decide (x / 8 = f / 8)) as [He|He].
  - rewrite He, list_lookup_total_insert_eq by (apply lookup_lt_is_Some; eauto).
    rewrite (list_lookup_total_correct _ _ _ Hb), Hbit by (done || zlia).
    destruct (Z.eqb_spec (x mod 8) (f mod 8)), (Z.eqb_spec x f); try done; zlia.
  - rewrite list_lookup_total_insert_ne by (pmm_lia).
    destruct (Z.eqb_spec x f); [zlia|done].
Qed.

Lemma set_frame_spec s f :
  bitmap_wf s -> frame_ok f ->
  exists s', set_frame f s = Ret tt s' /\ bitmap_wf s' /\
    LAST_USABLE_FRAME s' = LAST_USABLE_FRAME s /\
    forall x, 0 <= x -> used s' x = (x =? f) || used s x.
Proof.
  intros Hs Hf. destruct (bitmap_update_spec s f
    (fun b => Z.lor b (Z.shiftl 1 (f mod 8))) true Hs Hf) as (s' & ? & ? & ? & Hu).
  - intros b Hb. apply lor_in_u; [lia|done|apply shiftl1_in_u; zlia].
  - intros b i Hb Hi. rewrite set_bit_testbit by zlia. by case_match.
  - exists s'. split_and!; done.
Qed.
Lemma clear_frame_spec s f :
  bitmap_wf s -> frame_ok f ->
  exists s', clear_frame f s = Ret tt s' /\ bitmap_wf s' /\
    LAST_USABLE_FRAME s' = LAST_USABLE_FRAME s /\
    forall x, 0 <= x -> used s' x = negb (x =? f) && used s x.
Proof.
  intros Hs Hf. destruct (bitmap_update_spec s f
    (fun b => Z.land b (unot 8 (Z.shiftl 1 (f mod 8)))) false Hs Hf) as (s' & ? & ? & ? & Hu).
  - intros b Hb. apply land_in_u; [lia|done|].
    apply unot_in_u, shiftl1_in_u. zlia.
  - intros b i Hb Hi. rewrite clear_bit_testbit by zlia. by case_match.
  - exists s'. split_and!; try done. intros x Hx. rewrite Hu by done. by case_match.
Qed.
Lemma frame_is_free_spec s f :
  bitmap_wf s -> frame_ok f -> frame_is_free f s = Ret (negb (used s f)) s.
Proof.
  intros Hs Hf. destruct (bitmap_lookup s f Hs Hf) as (b & Hb & _ & Hu).
  unfold frame_is_free. rewrite Hb. f_equal.
  rewrite <- (negb_involutive (_ =? 0)). change (negb (_ =? 0)) with (is_set b (Z.shiftl 1 (f mod 8))).
  rewrite is_set_bit, Hu by zlia. do 2 f_equal. zlia.
Qed.

(** ** The loops *)

(** [for_frames op] over a range inside the bitmap, for an [op] that gives one
    frame the state [h]. *)
Lemma for_frames_spec op h n start s :
  (forall s f, bitmap_wf s -> frame_ok f ->
     exists s', op f s = Ret tt s' /\ bitmap_wf s' /\ LAST_USABLE_FRAME s' = LAST_USABLE_FRAME s /\
       forall x, 0 <= x -> used s' x = if x =? f then h else used s x) ->
  bitmap_wf s -> 0 <= start -> start + Z.of_nat n <= FRAME_COUNT ->
  exists s', for_frames op n start s = Ret tt s' /\ bitmap_wf s' /\
    LAST_USABLE_FRAME s' = LAST_USABLE_FRAME s /\
    forall x, 0 <= x -> used s' x =
      if (start <=? x) && (x <? start + Z.of_nat n) then h else used s x.
Proof.
  intros Hop. revert start s. induction n as [|n IH]; intros start s Hs H0 Hn.
  { exists s. split_and!; try done. intros x Hx. case_match eqn:E; [|done]. to_prop; lia. }
  destruct (Hop s start) as (s1 & H1 & Hs1 & Hl1 & Hu1); [done|pmm_lia|].
  destruct (IH (start + 1) s1) as (s2 & H2 & Hs2 & Hl2 & Hu2); [done|lia|lia|].
  exists s2. simpl. unfold mbind, st_bind. rewrite H1, H2. split_and!; [done..|congruence|].
  intros x Hx. rewrite Hu2, Hu1 by done.
  destruct (Z.eqb_spec x start), (Z.leb_spec (start + 1) x), (Z.leb_spec start x),
    (Z.ltb_spec x (start + 1 + Z.of_nat n)), (Z.ltb_spec x (start + Z.of_nat (S n))); simpl; done || lia.
Qed.
Lemma set_frames_spec n start s :
  bitmap_wf s -> 0 <= start -> start + Z.of_nat n <= FRAME_COUNT ->
  exists s', for_frames set_frame n start s = Ret tt s' /\ bitmap_wf s' /\
    LAST_USABLE_FRAME s' = LAST_USABLE_FRAME s /\
    forall x, 0 <= x -> used s' x =
      if (start <=? x) && (x <? start + Z.of_nat n) then true else used s x.
Proof. apply for_frames_spec. intros. by apply set_frame_spec. Qed.
Lemma clear_frames_spec n start s :
  bitmap_wf s -> 0 <= start -> start + Z.of_nat n <= FRAME_COUNT ->
  exists s', for_frames clear_frame n start s = Ret tt s' /\ bitmap_wf s' /\
    LAST_USABLE_FRAME s' = LAST_USABLE_FRAME s /\
    forall x, 0 <= x -> used s' x =
      if (start <=? x) && (x <? start + Z.of_nat n) then false else used s x.
Proof.
  apply for_frames_spec. intros s0 f Hs Hf.
  destruct (clear_frame_spec s0 f Hs Hf) as (s' & ? & ? & ? & Hu).
  exists s'. split_and!; try done. intros x Hx. rewrite Hu by done. by case_match.
Qed.

Lemma reserve_while_spec fuel frame end_ s :
  bitmap_wf s -> 0 <= frame -> end_ <= MAX_PHYS_MEM ->
  FRAME_COUNT - frame <= Z.of_nat fuel ->
  exists s', reserve_while fuel frame end_ s = Ret tt s' /\ bitmap_wf s' /\
    LAST_USABLE_FRAME s' = LAST_USABLE_FRAME s /\
    forall x, 0 <= x -> used s' x =
      ((frame <=? x) && (x * FRAME_SIZE <? end_)) || used s x.
Proof.
  revert frame s. induction fuel as [|fuel IH]; intros frame s Hs H0 He Hf; simpl.
  { case_match eqn:E; [to_prop; pmm_lia|]. exists s. split_and!; try done.
    intros x Hx. destruct (Z.leb_spec frame x), (Z.ltb_spec (x * FRAME_SIZE) end_); simpl; try done.
    to_prop; pmm_lia. }
  case_match eqn:E; to_prop.
  - destruct (set_frame_spec s frame) as (s1 & H1 & Hs1 & Hl1 & Hu1); [done|pmm_lia|].
    destruct (IH (frame + 1) s1) as (s2 & H2 & Hs2 & Hl2 & Hu2); [done|lia..|].
    exists s2. unfold mbind, st_bind. rewrite H1, H2. split_and!; [done..|congruence|].
    intros x Hx. rewrite Hu2, Hu1 by done.
    destruct (Z.eqb_spec x frame), (Z.leb_spec (frame + 1) x), (Z.leb_spec frame x),
      (Z.ltb_spec (x * FRAME_SIZE) end_); simpl; try done; try lia.
  - exists s. split_and!; try done. intros x Hx.
    destruct (Z.leb_spec frame x), (Z.ltb_spec (x * FRAME_SIZE) end_); simpl; try done. pmm_lia.
Qed.

Lemma pmm_align_up v :
  0 <= v -> v + 4095 < 2 ^ 64 -> align_up v FRAME_SIZE = 4096 * ((v + 4095) / 4096).
Proof.
  intros. unfold align_up, FRAME_SIZE. change 4096 with (2 ^ 12) at 1 2.
  rewrite align_up_spec by lia. change (2 ^ 12) with 4096. do 2 f_equal. lia.
Qed.
Lemma pmm_align_down v : in_u 64 v -> align_down v FRAME_SIZE = 4096 * (v / 4096).
Proof.
  intros. unfold align_down, FRAME_SIZE. change 4096 with (2 ^ 12) at 1.
  by rewrite align_down_spec by (done || lia).
Qed.

(** The byte range [base, base+len) touches frame [f]. *)
Definition touches (base len f : Z) : bool :=
  (base <? (f + 1) * FRAME_SIZE) && (f * FRAME_SIZE <? base + len) && negb (len =? 0).

Lemma mark_reserved_spec base len s :
  bitmap_wf s -> 0 <= base -> 0 <= len -> base + len + 4095 < 2 ^ 64 ->
  exists s', mark_reserved base len s = Ret tt s' /\ bitmap_wf s' /\
    LAST_USABLE_FRAME s' = LAST_USABLE_FRAME s /\
    forall x, frame_ok x -> used s' x = touches base len x || used s x.
Proof.
  intros Hs Hb Hl Hmax. unfold mark_reserved, touches.
  destruct (Z.eqb_spec len 0) as [->|Hne].
  { exists s. split_and!; try done. intros x Hx. by rewrite andb_false_r. }
  replace (saturating_add 64 base len) with (base + len) by (unfold saturating_add; lia).
  rewrite pmm_align_up, pmm_align_down by (unfold in_u; lia).
  destruct (reserve_while_spec (Z.to_nat FRAME_COUNT) (4096 * (base / 4096) / FRAME_SIZE)
    (Z.min (4096 * ((base + len + 4095) / 4096)) MAX_PHYS_MEM) s) as (s' & H1 & Hs' & Hl' & Hu);
    [done|pmm_lia..|].
  exists s'. split_and!; try done. intros x Hx. rewrite Hu by (pmm_lia). f_equal. simpl.
  rewrite andb_true_r.
  destruct (Z.leb_spec (4096 * (base / 4096) / FRAME_SIZE) x), (Z.ltb_spec base ((x + 1) * FRAME_SIZE)),
    (Z.ltb_spec (x * FRAME_SIZE) (Z.min (4096 * ((base + len + 4095) / 4096)) MAX_PHYS_MEM)),
    (Z.ltb_spec (x * FRAME_SIZE) (base + len)); try done; exfalso; pmm_lia.
Qed.

(** ** Initialisation *)

(** Region [r] is usable memory above 1 MiB that contains all of frame [f]. *)
Definition covers (f : Z) (r : MemoryRegion) : bool :=
  (region_type r =? 1) && (1024 * 1024 <=? base r) &&
  (base r <=? f * FRAME_SIZE) && ((f + 1) * FRAME_SIZE <=? base r + length_ r).
Definition region_ok (r : MemoryRegion) : Prop :=
  0 <= base r /\ 0 <= length_ r /\ base r + length_ r + 4095 < 2 ^ 64.

Lemma init_region_spec r last s :
  bitmap_wf s -> region_ok r -> 0 <= last < FRAME_COUNT ->
  exists last' s', init_region r last s = Ret last' s' /\ bitmap_wf s' /\
    last <= last' < FRAME_COUNT /\
    (forall x, frame_ok x -> covers x r = true -> x <= last') /\
    (forall x, frame_ok x -> used s' x = negb (covers x r) && used s x).
Proof.
  intros Hs (Hb & Hl & Hmax) Hlast. unfold init_region.
  destruct (Z.eqb_spec (region_type r) 1) as [Ht|Ht]; simpl; cycle 1.
  { exists last, s. unfold covers. rewrite (proj2 (Z.eqb_neq _ _) Ht). split_and!; done || lia. }
  destruct (Z.ltb_spec (base r) (1024 * 1024)) as [Hlt|Hge]; simpl.
  { exists last, s. unfold covers.
    rewrite (proj2 (Z.leb_gt (1024 * 1024) (base r))), andb_false_r by lia.
    split_and!; done || lia. }
  rewrite wrap_small by (unfold in_u; lia).
  rewrite pmm_align_up, pmm_align_down by (unfold in_u; lia).
  set (sf := 4096 * ((base r + 4095) / 4096) / FRAME_SIZE).
  set (ef := Z.min (4096 * ((base r + length_ r) / 4096)) MAX_PHYS_MEM / FRAME_SIZE).
  assert (forall x, frame_ok x -> covers x r = (sf <=? x) && (x <? ef)) as Hcov.
  { intros x Hx. unfold covers. rewrite (proj2 (Z.eqb_eq _ _) Ht), (proj2 (Z.leb_le _ _) Hge).
    subst sf ef. simpl.
    destruct (Z.leb_spec (base r) (x * FRAME_SIZE)), (Z.leb_spec ((x + 1) * FRAME_SIZE) (base r + length_ r)),
      (Z.leb_spec (4096 * ((base r + 4095) / 4096) / FRAME_SIZE) x),
      (Z.ltb_spec x (Z.min (4096 * ((base r + length_ r) / 4096)) MAX_PHYS_MEM / FRAME_SIZE));
      simpl; try done; exfalso; pmm_lia. }
  assert (ef <= FRAME_COUNT /\ 0 <= sf) as [Hef Hsf] by (subst ef sf; pmm_lia).
  assert (exists s', for_frames clear_frame (Z.to_nat (ef - sf)) sf s = Ret tt s' /\ bitmap_wf s' /\
    forall x, frame_ok x -> used s' x = negb (covers x r) && used s x) as (s' & Hf & Hs' & Hu).
  { destruct (decide (sf <= ef)) as [Hle|Hnle].
    - destruct (clear_frames_spec (Z.to_nat (ef - sf)) sf s) as (s' & ? & ? & _ & Hu); [done|lia..|].
      exists s'. split_and!; try done. intros x Hx. rewrite Hu, Hcov by (pmm_lia).
      replace (sf + Z.of_nat (Z.to_nat (ef - sf))) with ef by lia. by case_match.
    - replace (Z.to_nat (ef - sf)) with 0%nat by lia. exists s. split_and!; try done.
      intros x Hx. rewrite Hcov by done.
      destruct (Z.leb_spec sf x), (Z.ltb_spec x ef); simpl; done || lia. }
  unfold mbind, st_bind. rewrite Hf. eexists _, s'. split_and!; [done|done|..]; try done.
  - case_match; to_prop; lia.
  - case_match; to_prop; lia.
  - intros x Hx. rewrite Hcov by done. intros. to_prop. case_match; to_prop; lia.
Qed.

Lemma init_regions_spec rs last s :
  bitmap_wf s -> Forall region_ok rs -> 0 <= last < FRAME_COUNT ->
  exists last' s', init_regions rs last s = Ret last' s' /\ bitmap_wf s' /\
    last <= last' < FRAME_COUNT /\
    (forall x, frame_ok x -> existsb (covers x) rs = true -> x <= last') /\
    (forall x, frame_ok x -> used s' x = negb (existsb (covers x) rs) && used s x).
Proof.
  intros Hs Hrs. revert last s Hs. induction Hrs as [|r rs Hr _ IH]; intros last s Hs Hlast.
  { exists last, s. split_and!; done || lia. }
  destruct (init_region_spec r last s Hs Hr Hlast) as (l1 & s1 & H1 & Hs1 & Hl1 & Hc1 & Hu1).
  destruct (IH l1 s1 Hs1) as (l2 & s2 & H2 & Hs2 & Hl2 & Hc2 & Hu2); [lia|].
  exists l2, s2. simpl. unfold mbind, st_bind. rewrite H1, H2. split_and!; [done..|lia|lia| |].
  - intros x Hx [Hc|Hc]%orb_true_iff; [|auto]. specialize (Hc1 x Hx Hc). lia.
  - intros x Hx. rewrite Hu2, Hu1 by done. rewrite negb_orb.
    by destruct (covers x r), (existsb (covers x) rs).
Qed.

Lemma boot_used x : frame_ok x -> used boot_state x = true.
Proof.
  intros Hx. unfold used, boot_state. cbn [BITMAP].
  rewrite lookup_total_replicate_2 by (pmm_lia).
  assert (all_below 8 (Z.testbit 0xFF) = true) as Ht by reflexivity.
  apply (all_below_spec 8 _ Ht). zlia.
Qed.
Lemma boot_wf : bitmap_wf boot_state.
Proof.
  split; [apply length_replicate|]. apply Forall_replicate. unfold in_u. lia.
Qed.

Section init.
Context (regions : list MemoryRegion) (kernel_start kernel_end : Z).
Context (Hregions : Forall region_ok regions).
Context (Hkernel : 0 <= kernel_start <= kernel_end) (Hkmax : kernel_end + 4095 < 2 ^ 64).

Lemma init_state_spec :
  exists s, init regions kernel_start kernel_end boot_state = Ret tt s /\ pmm_wf s /\
    (forall x, frame_ok x -> existsb (covers x) regions = true -> x <= LAST_USABLE_FRAME s) /\
    forall x, frame_ok x ->
      used s x = touches 0 LOW_RESERVED_END x ||
                 (touches kernel_start (kernel_end - kernel_start) x || negb (existsb (covers x) regions)).
Proof.
  unfold init.
  destruct (init_regions_spec regions 0 boot_state) as (l & s0 & H0 & Hs0 & Hl & Hc & Hu0);
    [apply boot_wf|done|pmm_lia|].
  set (s1 := mk_pmm (BITMAP s0) l).
  rewrite wrap_small by (unfold in_u; lia).
  destruct (mark_reserved_spec kernel_start (kernel_end - kernel_start) s1)
    as (s2 & H2 & Hs2 & Hl2 & Hu2); [done|lia..|].
  destruct (mark_reserved_spec 0 LOW_RESERVED_END s2) as (s3 & H3 & Hs3 & Hl3 & Hu3);
    [done|pmm_lia..|].
  exists s3. unfold mbind, st_bind, modify. rewrite H0. fold s1. rewrite H2, H3.
  assert (LAST_USABLE_FRAME s3 = l) as Hl' by (by rewrite Hl3, Hl2).
  split_and!; [done|split; [done|lia]|rewrite Hl'; done|].
  intros x Hx. rewrite Hu3, Hu2 by done. do 2 f_equal.
  change (used s1 x) with (used s0 x). rewrite Hu0, boot_used, andb_true_r by done. done.
Qed.
End init.

(** what [init] makes available.  For any memory map whose regions do not
    run past the address space, [init] does not panic, and afterwards a frame
    is free exactly when some usable region above 1 MiB contains all of it, it
    does not overlap the kernel image, and it lies above the 64 MiB low
    reservation; every such frame is within the scanned range. *)
Theorem init_free_iff regions kernel_start kernel_end :
  Forall region_ok regions -> 0 <= kernel_start <= kernel_end -> kernel_end + 4095 < 2 ^ 64 ->
  exists s, init regions kernel_start kernel_end boot_state = Ret tt s /\ pmm_wf s /\
    forall f, frame_ok f ->
      (used s f = false <->
       existsb (covers f) regions = true /\
       (kernel_end <= f * FRAME_SIZE \/ (f + 1) * FRAME_SIZE <= kernel_start \/ kernel_start = kernel_end) /\
       LOW_RESERVED_END <= f * FRAME_SIZE) /\
      (used s f = false -> f <= LAST_USABLE_FRAME s).
Proof.
  intros Hr Hk Hkm. destruct (init_state_spec regions kernel_start kernel_end Hr Hk Hkm)
    as (s & Hi & Hwf & Hc & Hu).
  exists s. split_and!; [done..|]. intros f Hf. rewrite Hu by done. unfold touches.
  specialize (Hc f Hf). destruct (existsb (covers f) regions); simpl; cycle 1.
  { rewrite !orb_true_r. split; [split; [done|]|]; naive_solver. }
  rewrite orb_false_r, !orb_false_iff, !andb_false_iff, !Z.ltb_ge, !negb_false_iff, !Z.eqb_eq.
  split; [|pmm_lia]. split; intros; repeat split; pmm_unfold; lia.
Qed.

Example init_free_iff_witness :
  (Forall region_ok [mk_region 0 0x9FC00 1; mk_region 0x100000 0x7EE0000 1] /\
   0 <= 0x100000 <= 0x200000 /\ 0x200000 + 4095 < 2 ^ 64) /\
  exists s, init [mk_region 0 0x9FC00 1; mk_region 0x100000 0x7EE0000 1] 0x100000 0x200000 boot_state
    = Ret tt s /\ pmm_wf s /\
    forall f, frame_ok f ->
      (used s f = false <->
       existsb (covers f) [mk_region 0 0x9FC00 1; mk_region 0x100000 0x7EE0000 1] = true /\
       (0x200000 <= f * FRAME_SIZE \/ (f + 1) * FRAME_SIZE <= 0x100000 \/ 0x100000 = 0x200000) /\
       LOW_RESERVED_END <= f * FRAME_SIZE) /\
      (used s f = false -> f <= LAST_USABLE_FRAME s).
Proof.
  assert (Forall region_ok [mk_region 0 0x9FC00 1; mk_region 0x100000 0x7EE0000 1]) as HF
    by (repeat constructor; simpl; lia).
  split; [split_and!; [exact HF|lia..]|].
  apply (init_free_iff _ 0x100000 0x200000 HF); lia.
Defined.

(** ** Allocation *)
Lemma alloc_scan_spec n frame s :
  bitmap_wf s -> 0 <= frame -> frame + Z.of_nat n <= FRAME_COUNT ->
  exists r s', alloc_scan n frame s = Ret r s' /\ bitmap_wf s' /\
    LAST_USABLE_FRAME s' = LAST_USABLE_FRAME s /\
    match r with
    | Some p => exists f, p = f * FRAME_SIZE /\ frame <= f < frame + Z.of_nat n /\
        used s f = false /\ (forall g, frame <= g < f -> used s g = true) /\
        (forall x, 0 <= x -> used s' x = (x =? f) || used s x)
    | None => s' = s /\ forall g, frame <= g < frame + Z.of_nat n -> used s g = true
    end.
Proof.
  revert frame s. induction n as [|n IH]; intros frame s Hs H0 Hn.
  { exists None, s. split_and!; try done. intros; lia. }
  simpl. unfold mbind, st_bind. rewrite frame_is_free_spec by (done || pmm_lia).
  destruct (used s frame) eqn:Hu; simpl.
  - destruct (IH (frame + 1) s) as (r & s' & H1 & Hs' & Hl & Hr); [done|lia..|].
    exists r, s'. split_and!; [done..|]. destruct r as [p|].
    + destruct Hr as (f & ? & ? & ? & Hg & ?). exists f. split_and!; [done|lia..|done| |done].
      intros g Hg'. destruct (decide (g = frame)) as [->|]; [done|apply Hg; lia].
    + destruct Hr as [-> Hg]. split; [done|]. intros g Hg'.
      destruct (decide (g = frame)) as [->|]; [done|apply Hg; lia].
  - destruct (set_frame_spec s frame) as (s' & -> & Hs' & Hl & Hu'); [done|pmm_lia|].
    exists (Some (frame * FRAME_SIZE)), s'. split_and!; [done..|].
    exists frame. split_and!; try done; lia.
Qed.

(** The free frame a call hands out, and what happens to the bitmap. *)
Lemma frame_alloc_spec s :
  pmm_wf s ->
  exists r s', frame_alloc s = Ret r s' /\ pmm_wf s' /\
    LAST_USABLE_FRAME s' = LAST_USABLE_FRAME s /\
    match r with
    | Some p => exists f, p = f * FRAME_SIZE /\ 0 <= f <= LAST_USABLE_FRAME s /\
        used s f = false /\ (forall g, 0 <= g < f -> used s g = true) /\
        (forall x, 0 <= x -> used s' x = (x =? f) || used s x)
    | None => s' = s /\ forall g, 0 <= g <= LAST_USABLE_FRAME s -> used s g = true
    end.
Proof.
  intros [Hs Hl]. unfold frame_alloc.
  destruct (alloc_scan_spec (Z.to_nat (LAST_USABLE_FRAME s + 1)) 0 s) as (r & s' & H1 & Hs' & Hl' & Hr);
    [done|lia..|].
  exists r, s'. split_and!; [done|split; [done|lia]|done|]. destruct r as [p|].
  - destruct Hr as (f & ? & ? & ? & ? & ?). exists f. split_and!; done || lia.
  - destruct Hr as [? Hr]. split; [done|]. intros. apply Hr. lia.
Qed.

(** [n] free frames starting at [st]. *)
Definition free_run (s : pmm) (st n : Z) : Prop := forall g, st <= g < st + n -> used s g = false.

Lemma run_scan_spec count n frame rs rl s :
  bitmap_wf s -> 0 < count -> 0 <= frame -> frame + Z.of_nat n <= FRAME_COUNT ->
  0 <= rl < count -> (0 < rl -> rs = frame - rl) -> 0 <= frame - rl ->
  free_run s (frame - rl) rl ->
  (frame - rl = 0 \/ used s (frame - rl - 1) = true) ->
  (forall st, 0 <= st -> st + count <= frame -> ~ free_run s st count) ->
  exists r s', run_scan count n frame rs rl s = Ret r s' /\ bitmap_wf s' /\
    LAST_USABLE_FRAME s' = LAST_USABLE_FRAME s /\
    match r with
    | Some p => exists st, p = st * FRAME_SIZE /\ 0 <= st /\ st + count <= frame + Z.of_nat n /\
        free_run s st count /\ (forall st', 0 <= st' < st -> ~ free_run s st' count) /\
        (forall x, 0 <= x -> used s' x = ((st <=? x) && (x <? st + count)) || used s x)
    | None => s' = s /\ forall st, 0 <= st -> st + count <= frame + Z.of_nat n -> ~ free_run s st count
    end.
Proof.
  revert frame rs rl s. induction n as [|n IH]; intros frame rs rl s Hs Hc H0 Hn Hrl Hrs Hge Hrun Hmax Hno.
  { exists None, s. split_and!; try done. intros st ? ?. apply Hno; lia. }
  simpl. unfold mbind, st_bind. rewrite frame_is_free_spec by (done || pmm_lia).
  destruct (used s frame) eqn:Hu; simpl.
  - destruct (IH (frame + 1) rs 0 s) as (r & s' & H1 & Hs' & Hl & Hr); try done; try lia.
    { intros g Hg; lia. }
    { right. by replace (frame + 1 - 0 - 1) with frame by lia. }
    { intros st ? ? Hfr. destruct (decide (st + count = frame + 1)); [|apply (Hno st); [lia..|done]].
      rewrite (Hfr frame) in Hu by lia. done. }
    exists r, s'. split_and!; [done..|]. replace (frame + Z.of_nat (S n)) with (frame + 1 + Z.of_nat n) by lia. done.
  - set (st := if rl =? 0 then frame else rs).
    assert (st = frame - rl) as Hst by (subst st; case_match; to_prop; lia).
    assert (free_run s (frame - rl) (rl + 1)) as Hrun'.
    { intros g Hg. destruct (decide (g = frame)) as [->|]; [done|apply Hrun; lia]. }
    destruct (Z.eqb_spec (rl + 1) count) as [Heq|Hneq].
    + destruct (set_frames_spec (Z.to_nat count) st s) as (s' & H1 & Hs' & Hl & Hu'); [done|lia..|].
      rewrite H1. eexists _, s'. split_and!; [done..|]. exists st.
      split_and!; [done|lia|lia|by rewrite Hst, <- Heq| |].
      * intros st' Hst' Hfr. destruct Hmax as [|Hmax]; [lia|].
        rewrite (Hfr (frame - rl - 1)) in Hmax; [done|].
        split; [lia|]. destruct (decide (st' + count <= frame)); [|lia].
        exfalso. by apply (Hno st'); [lia..|].
      * intros x Hx. rewrite Hu' by done. rewrite Z2Nat.id by lia. by case_match.
    + destruct (IH (frame + 1) st (rl + 1) s) as (r & s' & H1 & Hs' & Hl & Hr); try done; try lia.
      { by replace (frame + 1 - (rl + 1)) with (frame - rl) by lia. }
      { by replace (frame + 1 - (rl + 1)) with (frame - rl) by lia. }
      { intros st' ? ? Hfr. destruct (decide (st' + count = frame + 1)); [|apply (Hno st'); [lia..|done]].
        destruct Hmax as [|Hmax]; [lia|]. rewrite (Hfr (frame - rl - 1)) in Hmax by lia. done. }
      exists r, s'. split_and!; [done..|].
      replace (frame + Z.of_nat (S n)) with (frame + 1 + Z.of_nat n) by lia. done.
Qed.

Lemma alloc_contiguous_spec count s :
  pmm_wf s -> 0 <= count ->
  exists r s', alloc_contiguous count s = Ret r s' /\ pmm_wf s' /\
    LAST_USABLE_FRAME s' = LAST_USABLE_FRAME s /\
    match r with
    | Some p => exists st, p = st * FRAME_SIZE /\ 0 <= st /\ 0 < count /\
        st + count <= LAST_USABLE_FRAME s + 1 /\
        free_run s st count /\ (forall st', 0 <= st' < st -> ~ free_run s st' count) /\
        (forall x, 0 <= x -> used s' x = ((st <=? x) && (x <? st + count)) || used s x)
    | None => s' = s /\ (count = 0 \/
        forall st, 0 <= st -> st + count <= LAST_USABLE_FRAME s + 1 -> ~ free_run s st count)
    end.
Proof.
  intros [Hs Hl] Hc. unfold alloc_contiguous.
  destruct ((count =? 0) || (LAST_USABLE_FRAME s <? count - 1)) eqn:E.
  { exists None, s. split_and!; try done. apply orb_true_iff in E as [E|E]; to_prop; [by left|].
    right. intros; lia. }
  to_prop. destruct (run_scan_spec count (Z.to_nat (LAST_USABLE_FRAME s + 1)) 0 0 0 s)
    as (r & s' & H1 & Hs' & Hl' & Hr); try done; try lia.
  { intros g Hg; lia. }
  exists r, s'. split_and!; [done|split; [done|lia]|done|]. destruct r as [p|].
  - destruct Hr as (st & ? & ? & ? & ? & ? & ?). exists st. split_and!; done || lia.
  - destruct Hr as [? Hr]. split; [done|]. right. intros. apply Hr; lia.
Qed.

Lemma frame_free_spec phys s :
  pmm_wf s -> 0 <= phys ->
  exists s', frame_free phys s = Ret tt s' /\ pmm_wf s' /\
    LAST_USABLE_FRAME s' = LAST_USABLE_FRAME s /\
    forall x, frame_ok x -> used s' x = negb (x * FRAME_SIZE =? phys) && used s x.
Proof.
  intros [Hs Hl] Hp. unfold frame_free.
  destruct (Z.eqb_spec (phys mod FRAME_SIZE) 0) as [Ha|Ha]; simpl; cycle 1.
  { exists s. split_and!; try done. intros x Hx.
    rewrite (proj2 (Z.eqb_neq _ _)); [done|]. pmm_lia. }
  destruct (Z.leb_spec MAX_PHYS_MEM phys).
  { exists s. split_and!; try done. intros x Hx.
    rewrite (proj2 (Z.eqb_neq _ _)); [done|]. pmm_lia. }
  destruct (clear_frame_spec s (phys / FRAME_SIZE)) as (s' & H1 & Hs' & Hl' & Hu); [done|pmm_lia|].
  exists s'. split_and!; [done|split; [done|lia]|done|]. intros x Hx. rewrite Hu by (pmm_lia).
  destruct (Z.eqb_spec x (phys / FRAME_SIZE)), (Z.eqb_spec (x * FRAME_SIZE) phys); try done; pmm_lia.
Qed.

(** ** Statistics *)
Definition free_count (s : pmm) (n : nat) (start : Z) : Z :=
  Z.of_nat (length (filter (fun f => used s f = false) (seqZ start (Z.of_nat n)))).

Lemma free_count_S s n start :
  free_count s (S n) start = (if used s start then 0 else 1) + free_count s n (start + 1).
Proof.
  unfold free_count. rewrite seqZ_cons by lia. rewrite filter_cons.
  replace (Z.pred (Z.of_nat (S n))) with (Z.of_nat n) by lia.
  replace (Z.succ start) with (start + 1) by lia.
  destruct (used s start) eqn:E; case_decide; try done. simpl length. lia.
Qed.
Lemma count_from_spec n frame free s :
  bitmap_wf s -> 0 <= frame -> frame + Z.of_nat n <= FRAME_COUNT ->
  count_from n frame free s = Ret (free + free_count s n frame) s.
Proof.
  revert frame free. induction n as [|n IH]; intros frame free Hs H0 Hn; simpl.
  { unfold free_count; simpl. unfold mret, st_ret. f_equal. lia. }
  unfold mbind, st_bind. rewrite frame_is_free_spec by (done || pmm_lia).
  rewrite IH, free_count_S by (done || lia). destruct (used s frame); simpl; f_equal; lia.
Qed.
Lemma count_free_spec s :
  pmm_wf s -> count_free s = Ret (free_count s (Z.to_nat (LAST_USABLE_FRAME s + 1)) 0) s.
Proof. intros [Hs Hl]. unfold count_free. rewrite count_from_spec by (done || lia). done. Qed.

Lemma free_count_set s s' n start f :
  (forall x, 0 <= x -> used s' x = (x =? f) || used s x) -> used s f = false ->
  0 <= start <= f -> f < start + Z.of_nat n ->
  free_count s' n start = free_count s n start - 1.
Proof.
  intros Hu Hf. revert start. induction n as [|n IH]; intros start Hst Hn; [lia|].
  rewrite !free_count_S, Hu by lia. destruct (Z.eqb_spec start f) as [->|].
  - rewrite Hf. simpl. assert (free_count s' n (f + 1) = free_count s n (f + 1)); [|lia].
    unfold free_count. do 2 f_equal. apply filter_ext_in. intros x Hx%elem_of_seqZ.
    rewrite Hu, (proj2 (Z.eqb_neq x f)) by lia. done.
  - rewrite IH by lia. simpl. lia.
Qed.

(** ** Ownership

    The frames handed out and not yet given back, beside the bitmap.  Callers
    free only what they own. *)
Definition pages (p n : Z) : list Z := (fun i => p + i * FRAME_SIZE) <$> seqZ 0 n.

Inductive owner_step : pmm * list Z -> pmm * list Z -> Prop :=
| step_alloc s s' p owned :
    frame_alloc s = Ret (Some p) s' -> owner_step (s, owned) (s', p :: owned)
| step_contiguous s s' p count owned :
    0 <= count -> alloc_contiguous count s = Ret (Some p) s' ->
    owner_step (s, owned) (s', pages p count ++ owned)
| step_fail s s' count owned :
    0 <= count -> alloc_contiguous count s = Ret None s' -> owner_step (s, owned) (s', owned)
| step_free s s' p owned :
    p ∈ owned -> frame_free p s = Ret tt s' ->
    owner_step (s, owned) (s', filter (fun q => q <> p) owned).

Definition owner_inv (s0 : pmm) (st : pmm * list Z) : Prop :=
  let '(s, owned) := st in
  pmm_wf s /\ LAST_USABLE_FRAME s = LAST_USABLE_FRAME s0 /\ NoDup owned /\
  (forall p, p ∈ owned -> exists f, p = f * FRAME_SIZE /\ 0 <= f <= LAST_USABLE_FRAME s0 /\
     used s0 f = false) /\
  (forall x, frame_ok x -> used s x = used s0 x || bool_decide (x * FRAME_SIZE ∈ owned)).

Lemma elem_of_pages p n q :
  q ∈ pages p n <-> exists i, q = p + i * FRAME_SIZE /\ 0 <= i < n.
Proof.
  unfold pages. rewrite list_elem_of_fmap. setoid_rewrite elem_of_seqZ.
  split; intros (i & ? & ?); exists i; lia.
Qed.
Lemma NoDup_pages p n : NoDup (pages p n).
Proof.
  apply NoDup_fmap_2_strong; [|apply NoDup_seqZ]. intros. unfold FRAME_SIZE in *. lia.
Qed.

(** Handing out frames that are free keeps the invariant. *)
Lemma owner_inv_alloc s0 s s' owned st n :
  owner_inv s0 (s, owned) -> pmm_wf s' -> LAST_USABLE_FRAME s' = LAST_USABLE_FRAME s ->
  0 <= st -> st + n <= LAST_USABLE_FRAME s + 1 -> free_run s st n ->
  (forall x, 0 <= x -> used s' x = ((st <=? x) && (x <? st + n)) || used s x) ->
  owner_inv s0 (s', pages (st * FRAME_SIZE) n ++ owned).
Proof.
  intros (Hwf & Hl & Hnd & Hown & Hu) Hwf' Hl' H0 Hn Hfree Hu'.
  destruct Hwf as [_ Hlast].
  assert (forall x, st <= x < st + n -> used s0 x = false /\ x * FRAME_SIZE ∉ owned) as Hnew.
  { intros x Hx. specialize (Hfree x Hx). rewrite Hu in Hfree by (pmm_lia).
    apply orb_false_iff in Hfree as [? ?%bool_decide_eq_false]. done. }
  split_and!; [done|congruence| | |].
  - apply NoDup_app. split_and!; [apply NoDup_pages| |done].
    intros q (i & -> & Hi)%elem_of_pages Hq. apply (Hnew (st + i)); [lia|].
    by replace ((st + i) * FRAME_SIZE) with (st * FRAME_SIZE + i * FRAME_SIZE) by lia.
  - intros p [(i & -> & Hi)%elem_of_pages|Hp]%elem_of_app; [|auto].
    exists (st + i). split_and!; [lia|lia|lia|]. apply Hnew. lia.
  - intros x Hx. rewrite Hu', Hu by (pmm_lia).
    assert (bool_decide (x * FRAME_SIZE ∈ pages (st * FRAME_SIZE) n ++ owned) =
      ((st <=? x) && (x <? st + n)) || bool_decide (x * FRAME_SIZE ∈ owned)) as ->.
    { apply eq_true_iff_eq. rewrite orb_true_iff, andb_true_iff, !bool_decide_eq_true.
      rewrite Z.leb_le, Z.ltb_lt, elem_of_app, elem_of_pages. apply or_iff_compat_r.
      split; [intros (i & ? & ?); pmm_lia|intros ?; exists (x - st); pmm_lia]. }
    by destruct (used s0 x), (_ && _), (bool_decide _).
Qed.

Lemma owner_step_inv s0 st st' : owner_inv s0 st -> owner_step st st' -> owner_inv s0 st'.
Proof.
  intros Hinv Hstep. assert (pmm_wf st.1) as Hwf by (destruct st; apply Hinv).
  destruct Hstep as [s s' p owned Ha|s s' p count owned Hc Ha|s s' count owned Hc Ha|s s' p owned Hp Ha];
    simpl in Hwf.
  - destruct (frame_alloc_spec s Hwf) as (r & s1 & Ha' & Hwf' & Hl' & Hr).
    rewrite Ha in Ha'. simplify_eq. destruct Hr as (f & -> & Hf & Hfree & _ & Hu).
    assert ([f * FRAME_SIZE] = pages (f * FRAME_SIZE) 1) as Hpg by (unfold pages; simpl; f_equal; lia).
    change (f * FRAME_SIZE :: owned) with ([f * FRAME_SIZE] ++ owned). rewrite Hpg.
    apply (owner_inv_alloc s0 s); try done; try lia.
    + intros g Hg. by replace g with f by lia.
    + intros x Hx. rewrite Hu by done. f_equal.
      destruct (Z.eqb_spec x f), (Z.leb_spec f x), (Z.ltb_spec x (f + 1)); simpl; done || lia.
  - destruct (alloc_contiguous_spec count s Hwf Hc) as (r & s1 & Ha' & Hwf' & Hl' & Hr).
    rewrite Ha in Ha'. simplify_eq. destruct Hr as (f & -> & ? & ? & ? & ? & _ & ?).
    by apply (owner_inv_alloc s0 s).
  - destruct (alloc_contiguous_spec count s Hwf Hc) as (r & s1 & Ha' & Hwf' & Hl' & Hr).
    rewrite Ha in Ha'. simplify_eq. by destruct Hr as [-> _].
  - destruct Hinv as (_ & Hl & Hnd & Hown & Hu).
    destruct (Hown p Hp) as (f & -> & Hf & Hfree).
    destruct (frame_free_spec (f * FRAME_SIZE) s Hwf) as (s1 & Ha' & Hwf' & Hl' & Hu');
      [unfold FRAME_SIZE; lia|].
    rewrite Ha in Ha'. simplify_eq. split_and!; [done|congruence|by apply NoDup_filter| |].
    + intros q [_ Hq]%list_elem_of_filter. auto.
    + intros x Hx. rewrite Hu', Hu by done.
      destruct (Z.eqb_spec (x * FRAME_SIZE) (f * FRAME_SIZE)) as [He|He]; simpl.
      * rewrite He. assert (x = f) as -> by (pmm_lia). rewrite Hfree, bool_decide_eq_false_2; [done|].
        by intros [? _]%list_elem_of_filter.
      * f_equal. apply bool_decide_ext. rewrite list_elem_of_filter. naive_solver.
Qed.

(** A small memory for the witnesses: frames 4 to 7 are free. *)
Definition small : pmm := mk_pmm (<[0%nat := 0x0F]> (BITMAP boot_state)) 7.
Lemma small_wf : pmm_wf small.
Proof.
  destruct boot_wf as [Hl Hb]. unfold small. split; [split|]; cbn [BITMAP LAST_USABLE_FRAME].
  - by rewrite length_insert.
  - apply Forall_insert; [done|unfold in_u; lia].
  - pmm_lia.
Qed.

(** C9: no frame is ever handed out twice, and none is lost.  Start from any
    well-formed state [s0] and run any sequence of [frame_alloc],
    [alloc_contiguous] and [frame_free] in which callers free only frames they
    own: the frames outstanding are pairwise distinct, each was free in [s0]
    and inside the scanned range, and the bitmap is exactly that of [s0] plus
    the outstanding frames. *)
Theorem ownership_exact s0 s owned :
  pmm_wf s0 -> rtc owner_step (s0, []) (s, owned) ->
  NoDup owned /\
  (forall p, p ∈ owned -> p mod FRAME_SIZE = 0 /\ 0 <= p < MAX_PHYS_MEM /\
     used s0 (p / FRAME_SIZE) = false) /\
  (forall x, frame_ok x ->
     used s x = used s0 x || bool_decide (x * FRAME_SIZE ∈ owned)).
Proof.
  intros Hwf Hr.
  assert (owner_inv s0 (s, owned)) as (_ & _ & Hnd & Hown & Hu).
  { eapply (rtc_ind_r (owner_inv s0)); [|by intros; eapply owner_step_inv|exact Hr].
    split_and!; try done; [constructor|by intros ? ?%not_elem_of_nil|].
    intros x _. by rewrite bool_decide_eq_false_2, orb_false_r by apply not_elem_of_nil. }
  split_and!; [done| |done]. intros p Hp. destruct (Hown p Hp) as (f & -> & Hf & Hfree).
  destruct Hwf as [_ Hl]. split_and!; [pmm_lia|pmm_lia|pmm_lia|].
  by replace (f * FRAME_SIZE / FRAME_SIZE) with f by (pmm_lia).
Qed.

Example ownership_exact_witness :
  (pmm_wf small /\ exists s, rtc owner_step (small, []) (s, [4 * 4096])) /\
  exists s, NoDup [4 * 4096] /\
  (forall p, p ∈ [4 * 4096] -> p mod FRAME_SIZE = 0 /\ 0 <= p < MAX_PHYS_MEM /\
     used small (p / FRAME_SIZE) = false) /\
  (forall x, frame_ok x ->
     used s x = used small x || bool_decide (x * FRAME_SIZE ∈ [4 * 4096])).
Proof.
  set (s1 := mk_pmm (<[0%nat := 0x1F]> (BITMAP small)) 7).
  assert (rtc owner_step (small, []) (s1, [4 * 4096])) as Hr.
  { eapply rtc_l; [|apply rtc_refl]. apply step_alloc. vm_compute. reflexivity. }
  split; [split; [exact small_wf|by exists s1]|]. exists s1.
  apply (ownership_exact small s1 [4 * 4096] small_wf Hr).
Defined.

(** Giving back [n] pages, as the callers' loops do. *)
Fixpoint free_pages (n : nat) (p : Z) : ST pmm unit :=
  match n with
  | O => mret tt
  | S n => frame_free p;; free_pages n (p + FRAME_SIZE)
  end.
Lemma free_pages_spec n st s :
  pmm_wf s -> 0 <= st -> st + Z.of_nat n <= FRAME_COUNT ->
  exists s', free_pages n (st * FRAME_SIZE) s = Ret tt s' /\ pmm_wf s' /\
    LAST_USABLE_FRAME s' = LAST_USABLE_FRAME s /\
    forall x, frame_ok x -> used s' x =
      negb ((st <=? x) && (x <? st + Z.of_nat n)) && used s x.
Proof.
  revert st s. induction n as [|n IH]; intros st s Hs H0 Hn.
  { exists s. split_and!; try done. intros x Hx.
    destruct (Z.leb_spec st x), (Z.ltb_spec x (st + Z.of_nat 0)); simpl; done || lia. }
  destruct (frame_free_spec (st * FRAME_SIZE) s) as (s1 & H1 & Hs1 & Hl1 & Hu1); [done|unfold FRAME_SIZE; lia|].
  destruct (IH (st + 1) s1) as (s2 & H2 & Hs2 & Hl2 & Hu2); [done|lia..|].
  exists s2. simpl. unfold mbind, st_bind. rewrite H1.
  replace (st * FRAME_SIZE + FRAME_SIZE) with ((st + 1) * FRAME_SIZE) by lia. rewrite H2.
  split_and!; [done..|congruence|]. intros x Hx. rewrite Hu2, Hu1 by done.
  destruct (Z.eqb_spec (x * FRAME_SIZE) (st * FRAME_SIZE)), (Z.leb_spec (st + 1) x), (Z.leb_spec st x),
    (Z.ltb_spec x (st + 1 + Z.of_nat n)), (Z.ltb_spec x (st + Z.of_nat (S n))); simpl; done || pmm_lia.
Qed.

(** contiguous allocation is first-fit, complete and undone by freeing.
    [alloc_contiguous] never panics; it fails only when no run of [count] free
    frames exists in the scanned range (or [count] is zero); when it succeeds
    it returns the lowest such run, and freeing the pages one by one afterwards
    restores every bit of the map. *)
Theorem alloc_contiguous_first_fit count s :
  pmm_wf s -> 0 <= count ->
  exists r s', alloc_contiguous count s = Ret r s' /\ pmm_wf s' /\
    match r with
    | None => s' = s /\ (count = 0 \/
        forall st, 0 <= st -> st + count <= LAST_USABLE_FRAME s + 1 -> ~ free_run s st count)
    | Some p => exists st, p = st * FRAME_SIZE /\ 0 <= st /\
        free_run s st count /\ (forall st', 0 <= st' < st -> ~ free_run s st' count) /\
        exists s'', free_pages (Z.to_nat count) p s' = Ret tt s'' /\
          forall x, frame_ok x -> used s'' x = used s x
    end.
Proof.
  intros Hwf Hc. destruct (alloc_contiguous_spec count s Hwf Hc) as (r & s' & Ha & Hwf' & Hl & Hr).
  exists r, s'. split_and!; [done..|]. destruct r as [p|]; [|done].
  destruct Hr as (st & -> & H0 & Hc' & Hle & Hfree & Hmin & Hu). exists st. split_and!; try done.
  destruct (free_pages_spec (Z.to_nat count) st s' Hwf' H0) as (s'' & Hf & _ & _ & Hu').
  { destruct Hwf as [_ ?]. lia. }
  exists s''. split; [done|]. intros x Hx. rewrite Hu', Hu by (pmm_lia).
  rewrite Z2Nat.id by lia. destruct ((st <=? x) && (x <? st + count)) eqn:E; [|done].
  to_prop. simpl. symmetry. apply Hfree. lia.
Qed.

Example alloc_contiguous_first_fit_witness :
  (pmm_wf small /\ 0 <= 3) /\
  exists r s', alloc_contiguous 3 small = Ret r s' /\ pmm_wf s' /\
    match r with
    | None => s' = small /\ (3 = 0 \/
        forall st, 0 <= st -> st + 3 <= LAST_USABLE_FRAME small + 1 -> ~ free_run small st 3)
    | Some p => exists st, p = st * FRAME_SIZE /\ 0 <= st /\
        free_run small st 3 /\ (forall st', 0 <= st' < st -> ~ free_run small st' 3) /\
        exists s'', free_pages (Z.to_nat 3) p s' = Ret tt s'' /\
          forall x, frame_ok x -> used s'' x = used small x
    end.
Proof.
  split; [split; [exact small_wf|lia]|].
  apply (alloc_contiguous_first_fit 3 small small_wf). lia.
Defined.

(** the statistics add up.  [free_frames] is the number of zero bits in
    the scanned range, [used_frames] and [free_frames] sum to [total_frames],
    and a successful [frame_alloc] lowers [free_frames] by exactly one. *)
Theorem statistics_consistent s :
  pmm_wf s ->
  exists n, free_frames s = Ret n s /\ used_frames s = Ret (LAST_USABLE_FRAME s + 1 - n) s /\
    total_frames s = Ret (LAST_USABLE_FRAME s + 1) s /\ 0 <= n <= LAST_USABLE_FRAME s + 1 /\
    match frame_alloc s with
    | Ret (Some _) s' => free_frames s' = Ret (n - 1) s'
    | Ret None s' => n = 0
    | Panic => False
    end.
Proof.
  intros Hwf. unfold free_frames, used_frames. rewrite count_free_spec by done.
  eexists; split_and!; [done| |done|unfold free_count; lia| |].
  - unfold mbind, st_bind. by rewrite count_free_spec.
  - destruct Hwf as [_ ?]. unfold free_count.
    assert (forall l : list Z, (length (filter (fun f => used s f = false) l) <= length l)%nat) as Hle.
    { intros l. apply length_filter. }
    specialize (Hle (seqZ 0 (Z.of_nat (Z.to_nat (LAST_USABLE_FRAME s + 1))))).
    rewrite length_seqZ in Hle. lia.
  - destruct (frame_alloc_spec s Hwf) as (r & s' & -> & Hwf' & Hl & Hr). destruct r as [p|].
    + destruct Hr as (f & -> & Hf & Hfree & _ & Hu). rewrite count_free_spec, Hl by done. f_equal.
      apply (free_count_set _ _ _ _ f); done || lia.
    + destruct Hr as [-> Hall]. unfold free_count. rewrite filter_all_not; [done|].
      apply Forall_forall. intros x Hx%elem_of_seqZ. by rewrite Hall by lia.
Qed.

Example statistics_consistent_witness :
  pmm_wf small /\
  exists n, free_frames small = Ret n small /\ used_frames small = Ret (8 - n) small /\
    total_frames small = Ret 8 small /\ 0 <= n <= 8 /\
    match frame_alloc small with
    | Ret (Some _) s' => free_frames s' = Ret (n - 1) s'
    | Ret None s' => n = 0
    | Panic => False
    end.
Proof. split; [exact small_wf|]. apply (statistics_consistent small small_wf). Defined.
