(* ===== verification/Sync.v ===== *)
(** * The spin lock, [sync.rs]

    A test-and-set lock around a value.  [lock], [try_lock] and the guard's
    [drop] are built from two atomic operations on one flag; the interleaving
    of any number of threads (kernel tasks and interrupt handlers) is a step
    relation whose steps are those atomic operations and the guard's reads and
    writes of the data.  The theorem is what the other components rely on when
    they treat a body run under a lock as one step. *)
From stdpp Require Import functions.
From S2P Require Import Prelude.

Section spin_lock.
Context {T : Type}.

Record SpinLock := mk_lock { locked : bool; data : T }.
Definition new (value : T) : SpinLock := mk_lock false value.

(** [self.locked.swap(true)]: the old value, and the flag set. *)
Definition swap_true (l : SpinLock) : bool * SpinLock := (locked l, mk_lock true (data l)).

(** A thread is outside, in the loop of [lock], or holds a guard; a guard
    carries what the thread last read through it. *)
Inductive thread := Outside | Spinning | Guarded (seen : option T).

(** One iteration of the [while] of [lock]. *)
Definition lock_iteration (l : SpinLock) : thread * SpinLock :=
  let (was_locked, l') := swap_true l in
  if was_locked then (Spinning, l') else (Guarded None, l').
Definition try_lock (l : SpinLock) : option thread * SpinLock :=
  let (was_locked, l') := swap_true l in
  if was_locked then (None, l') else (Some (Guarded None), l').
Definition deref (l : SpinLock) : T := data l.
Definition deref_mut (l : SpinLock) (v : T) : SpinLock := mk_lock (locked l) v.
Definition drop (l : SpinLock) : SpinLock := mk_lock false (data l).

(** The machine, with the updates applied to the data so far as a ghost log,
    newest first. *)
Record machine := mk_machine {
  lock : SpinLock;
  threads : nat -> thread;
  log : list (T -> T)
}.

Inductive step : machine -> machine -> Prop :=
| step_call m t :
    threads m t = Outside ->
    step m (mk_machine (lock m) (<[t := Spinning]> (threads m)) (log m))
| step_spin m t :
    threads m t = Spinning ->
    step m (mk_machine (lock_iteration (lock m)).2
                       (<[t := (lock_iteration (lock m)).1]> (threads m)) (log m))
| step_try m t :
    threads m t = Outside ->
    step m (mk_machine (try_lock (lock m)).2
                       (<[t := default Outside (try_lock (lock m)).1]> (threads m)) (log m))
| step_read m t seen :
    threads m t = Guarded seen ->
    step m (mk_machine (lock m) (<[t := Guarded (Some (deref (lock m)))]> (threads m)) (log m))
| step_write m t seen f :
    threads m t = Guarded (Some seen) ->
    step m (mk_machine (deref_mut (lock m) (f seen))
                       (<[t := Guarded (Some (f seen))]> (threads m)) (f :: log m))
| step_drop m t seen :
    threads m t = Guarded seen ->
    step m (mk_machine (drop (lock m)) (<[t := Outside]> (threads m)) (log m)).

Definition start (v : T) : machine := mk_machine (new v) (fun _ => Outside) [].
Definition reachable (v : T) (m : machine) : Prop := rtc step (start v) m.

Definition holds (m : machine) (t : nat) : Prop := exists seen, threads m t = Guarded seen.
Definition replay (v : T) (fs : list (T -> T)) : T := foldr (fun f x => f x) v fs.

Definition lock_inv (v : T) (m : machine) : Prop :=
  (if locked (lock m) then exists t, holds m t else forall t, ~ holds m t) /\
  (forall t t', holds m t -> holds m t' -> t = t') /\
  (forall t x, threads m t = Guarded (Some x) -> x = data (lock m)) /\
  data (lock m) = replay v (log m).

Lemma holds_insert l l' ts lg lg' t p t' :
  holds (mk_machine l (<[t := p]> ts) lg) t' <->
  (t = t' /\ (exists seen, p = Guarded seen)) \/ (t <> t' /\ holds (mk_machine l' ts lg') t').
Proof.
  unfold holds; simpl. destruct (decide (t = t')) as [->|].
  - rewrite fn_lookup_insert. naive_solver.
  - rewrite fn_lookup_insert_ne by done. naive_solver.
Qed.

(** A thread that neither takes nor gives up the guard. *)
Lemma lock_inv_same v m t p l lg :
  lock_inv v m -> locked l = locked (lock m) ->
  (holds m t <-> exists seen, p = Guarded seen) ->
  data l = replay v lg ->
  (forall x, p = Guarded (Some x) -> x = data l) ->
  (data l = data (lock m) \/ holds m t) ->
  lock_inv v (mk_machine l (<[t := p]> (threads m)) lg).
Proof.
  intros (Hl & Hu & Hx & Hd) Hlk Ht Hd' Hp Hdt.
  assert (forall t', holds (mk_machine l (<[t := p]> (threads m)) lg) t' <-> holds m t') as Hh.
  { intros t'. rewrite (holds_insert _ (lock m) _ _ (log m)). destruct m; simpl.
    destruct (decide (t = t')) as [->|]; naive_solver. }
  split_and!; simpl.
  - rewrite Hlk. destruct (locked (lock m)); setoid_rewrite Hh; done.
  - setoid_rewrite Hh. done.
  - intros t' x. destruct (decide (t = t')) as [->|].
    + rewrite fn_lookup_insert. apply Hp.
    + rewrite fn_lookup_insert_ne by done. intros Hg.
      destruct Hdt as [->|Hh']; [by eapply Hx|]. destruct (Hu t t'); [done|by exists (Some x)|done].
  - done.
Qed.

(** Taking the free lock. *)
Lemma lock_inv_acquire v m t :
  lock_inv v m -> locked (lock m) = false ->
  lock_inv v (mk_machine (mk_lock true (data (lock m))) (<[t := Guarded None]> (threads m)) (log m)).
Proof.
  intros (Hl & Hu & Hx & Hd) Hf. rewrite Hf in Hl.
  assert (forall t', holds (mk_machine (mk_lock true (data (lock m)))
    (<[t := Guarded None]> (threads m)) (log m)) t' <-> t = t') as Hh.
  { intros t'. rewrite (holds_insert _ (lock m) _ _ (log m)). destruct m; simpl.
    specialize (Hl t'). naive_solver. }
  split_and!; simpl.
  - exists t. by apply Hh.
  - setoid_rewrite Hh. congruence.
  - intros t' x. destruct (decide (t = t')) as [->|]; [by rewrite fn_lookup_insert|].
    rewrite fn_lookup_insert_ne by done. apply Hx.
  - done.
Qed.

Lemma step_inv v m m' : lock_inv v m -> step m m' -> lock_inv v m'.
Proof.
  intros Hinv Hs. pose proof Hinv as (Hl & Hu & Hx & Hd).
  assert (forall t, threads m t = Outside \/ threads m t = Spinning ->
    locked (lock m) = true -> forall p lg, p = Outside \/ p = Spinning -> lg = log m ->
    lock_inv v (mk_machine (mk_lock true (data (lock m))) (<[t := p]> (threads m)) lg)) as Hbusy.
  { intros t Ht Hlk p lg Hp ->. apply lock_inv_same; [done..| |done|naive_solver|by left].
    unfold holds. split; intros [? ?]; destruct Ht, Hp; congruence. }
  destruct Hs as [m t Ht|m t Ht|m t Ht|m t seen Ht|m t seen f Ht|m t seen Ht].
  - apply lock_inv_same; [done..| |done|naive_solver|by left]. unfold holds. split; intros [? ?]; eauto; congruence.
  - unfold lock_iteration, swap_true. destruct (locked (lock m)) eqn:E; simpl.
    + apply Hbusy; auto.
    + by apply lock_inv_acquire.
  - unfold try_lock, swap_true. destruct (locked (lock m)) eqn:E; simpl.
    + apply Hbusy; auto.
    + by apply lock_inv_acquire.
  - apply lock_inv_same; [done..| |done| |by left].
    + unfold holds. split; intros [? ?]; eauto; congruence.
    + intros x. unfold deref. naive_solver.
  - apply lock_inv_same; [done|done| | |naive_solver|right; by eexists].
    + unfold holds. split; intros [? ?]; eauto; congruence.
    + simpl. f_equal. rewrite <- Hd. by eapply Hx.
  - assert (forall t', ~ holds (mk_machine (drop (lock m)) (<[t := Outside]> (threads m)) (log m)) t') as Hn.
    { intros t'. rewrite (holds_insert _ (lock m) _ _ (log m)). destruct m; simpl in *.
      intros [[_ [? ?]]|[Hne Hh]]; [done|]. apply Hne. apply Hu; [by eexists|done]. }
    split_and!; simpl; [done|by intros t1 t2 ?%Hn| |done].
    intros t' x. destruct (decide (t = t')) as [->|]; [by rewrite fn_lookup_insert|].
    rewrite fn_lookup_insert_ne by done. apply Hx.
Qed.

Lemma reachable_inv v m : reachable v m -> lock_inv v m.
Proof.
  intros Hr. eapply (rtc_ind_r (lock_inv v)); [|by intros; eapply step_inv|exact Hr].
  split_and!; simpl; try done; by intros t [? ?] || (intros ? ? [? ?]).
Qed.

(** C15: the lock gives mutual exclusion, its critical sections are
    serialised, and it cannot get stuck.  In every state reachable from a
    fresh lock by any interleaving of [lock], [try_lock], reads, writes and
    drops: at most one thread holds a guard; the flag is set exactly when one
    does; the protected data is the initial value with every update applied
    one after the other, so no update is lost; a free lock is taken by the
    next iteration of any spinning thread, and a held one is freed by its
    holder's [drop]. *)
Theorem spin_lock_serialises v m :
  reachable v m ->
  (forall t t', holds m t -> holds m t' -> t = t') /\
  (locked (lock m) = true <-> exists t, holds m t) /\
  data (lock m) = replay v (log m) /\
  (forall t, threads m t = Spinning -> locked (lock m) = false ->
     exists m', step m m' /\ holds m' t) /\
  (forall t, holds m t -> exists m', step m m' /\ locked (lock m') = false).
Proof.
  intros Hr. destruct (reachable_inv v m Hr) as (Hl & Hu & Hx & Hd). split_and!; [done| |done| |].
  - destruct (locked (lock m)); [done|]. split; [done|]. intros [t Ht]. by destruct (Hl t).
  - intros t Ht Hf. eexists. split; [by apply (step_spin m t)|].
    unfold lock_iteration, swap_true. rewrite Hf. exists None. simpl. by rewrite fn_lookup_insert.
  - intros t [seen Ht]. eexists. split; [by eapply (step_drop m t)|]. done.
Qed.
End spin_lock.
Arguments SpinLock : clear implicits.
Arguments machine : clear implicits.

Example spin_lock_serialises_witness :
  exists m' : machine Z, (reachable 3 m' /\ data (lock m') = 5 /\ locked (lock m') = true) /\
  (forall t t', holds m' t -> holds m' t' -> t = t') /\
  (locked (lock m') = true <-> exists t, holds m' t) /\
  data (lock m') = replay 3 (log m') /\
  (forall t, threads m' t = Spinning -> locked (lock m') = false ->
     exists m'', step m' m'' /\ holds m'' t) /\
  (forall t, holds m' t -> exists m'', step m' m'' /\ locked (lock m'') = false).
Proof.
  assert (exists m' : machine Z, reachable 3 m' /\ data (lock m') = 5 /\ locked (lock m') = true)
    as (m' & Hr & Hd).
  { eexists. split; [|shelve].
    eapply rtc_l; [by apply (step_try (start 3) 0%nat)|].
    eapply rtc_l; [by eapply (step_read _ 0%nat); simpl; rewrite fn_lookup_insert|].
    eapply rtc_l; [by eapply (step_write _ 0%nat _ (Z.add 2)); simpl; rewrite fn_lookup_insert|].
    apply rtc_refl. Unshelve. by vm_compute. }
  exists m'. split; [by split|]. apply (spin_lock_serialises 3 _ Hr).
Defined.
