(* ===== verification/Allocator.v ===== *)
(** * The kernel heap, [allocator.rs]

    A first-fit free list over one contiguous range.  Each block starts with a
    16-byte header ([size], [next]) in the heap memory itself, so the model
    reads and writes headers in [PhysMem.mem]; the two header words are laid
    out in declaration order.  The specification is a tiling of the range by
    blocks that are free or live. *)
From S2P Require Import Prelude Bytes PhysMem Pmm.

Definition MIN_ALIGN : Z := 16.
Definition HEAP_SIZE : Z := 40 * 1024 * 1024.
(** [size_of::<Block>()], and the two fields of the header at [p]. *)
Definition BLOCK_SIZE : Z := 16.
Definition block_size (m : mem) (p : Z) : Z := read_u64 m p.
Definition block_next (m : mem) (p : Z) : Z := read_u64 m (p + 8).
Definition set_size (p v : Z) (m : mem) : mem := write_u64 m p v.
Definition set_next (p v : Z) (m : mem) : mem := write_u64 m (p + 8) v.

Record FreeListAllocator := mk_alloc { head : Z; allocated : Z; total : Z; base : Z }.
Record heap := mk_heap { hmem : mem; hstate : FreeListAllocator }.

Definition new : FreeListAllocator := mk_alloc 0 0 0 0.

Definition init_range (start end_ : Z) : ST heap unit := fun h =>
  let total := wrap 64 (end_ - start) in
  let m := set_size start (wrap 64 (total - BLOCK_SIZE)) (hmem h) in
  Ret tt (mk_heap (set_next start 0 m) (mk_alloc start 0 total start)).

(** The pointer that leads to the block after [previous]: its [next] field, or
    the head of the list when [previous] is null. *)
Definition set_link (previous v : Z) (h : heap) : heap :=
  let st := hstate h in
  if previous =? 0 then mk_heap (hmem h) (mk_alloc v (allocated st) (total st) (base st))
  else mk_heap (set_next previous v (hmem h)) st.
Definition set_allocated (v : Z) (h : heap) : heap :=
  mk_heap (hmem h) (mk_alloc (head (hstate h)) v (total (hstate h)) (base (hstate h))).

(** Splitting the found block, when what is left can hold another one. *)
Definition split_block (size current : Z) (m : mem) : mem :=
  let current_size := block_size m current in
  if wrap 64 (wrap 64 (size + BLOCK_SIZE) + MIN_ALIGN) <=? current_size then
    let remaining := current + BLOCK_SIZE + size in
    let m := set_size remaining (current_size - size - BLOCK_SIZE) m in
    let m := set_next remaining (block_next m current) m in
    let m := set_size current size m in
    set_next current remaining m
  else m.
(** The body of the loop of [alloc] once the block is found. *)
Definition take_block (size previous current : Z) (h : heap) : heap :=
  let m := split_block size current (hmem h) in
  let h := set_link previous (block_next m current) (mk_heap m (hstate h)) in
  set_allocated (wrap 64 (allocated (hstate h) + size)) h.

(** A list with [n] blocks needs [n] iterations, and every block takes at
    least 16 bytes of the range; running out of fuel is a panic, which the
    specifications exclude. *)
Definition fuel (h : heap) : nat := Z.to_nat (total (hstate h) / BLOCK_SIZE).

Fixpoint alloc_walk (n : nat) (size previous current : Z) : ST heap Z := fun h =>
  if current =? 0 then Ret 0 h
  else match n with
  | O => Panic
  | S n =>
      if size <=? block_size (hmem h) current then
        Ret (current + BLOCK_SIZE) (take_block size previous current h)
      else alloc_walk n size current (block_next (hmem h) current) h
  end.
Definition alloc (size : Z) : ST heap Z := fun h =>
  alloc_walk (fuel h) (align_up size MIN_ALIGN) 0 (head (hstate h)) h.

(** The search of [dealloc] for the neighbours of [block] on the list. *)
Fixpoint find_place (n : nat) (m : mem) (block previous current : Z) : option (Z * Z) :=
  if negb (current =? 0) && (current <? block) then
    match n with
    | O => None
    | S n => find_place n m block current (block_next m current)
    end
  else Some (previous, current).
(** Block [a] takes over its neighbour [b]. *)
Definition absorb (a b : Z) (h : heap) : heap :=
  let m := hmem h in
  let m := set_size a (wrap 64 (block_size m a + (BLOCK_SIZE + block_size m b))) m in
  mk_heap (set_next a (block_next m b) m) (hstate h).
Definition adjacent (h : heap) (a b : Z) : bool :=
  wrap 64 (a + BLOCK_SIZE + block_size (hmem h) a) =? b.
Definition dealloc (ptr : Z) : ST heap unit := fun h =>
  let block := ptr - BLOCK_SIZE in
  let h := set_allocated (wrap 64 (allocated (hstate h) - block_size (hmem h) block)) h in
  match find_place (fuel h) (hmem h) block 0 (head (hstate h)) with
  | None => Panic
  | Some (previous, current) =>
      let h := mk_heap (set_next block current (hmem h)) (hstate h) in
      let h := set_link previous block h in
      let h := if negb (current =? 0) && adjacent h block current
               then absorb block current h else h in
      let h := if negb (previous =? 0) && adjacent h previous block
               then absorb previous block h else h in
      Ret tt h
  end.

(** The [GlobalAlloc] entry points, one critical section each. *)
Definition global_alloc (size align : Z) : ST heap Z :=
  if MIN_ALIGN <? align then mret 0 else alloc size.
Definition global_dealloc (ptr : Z) : ST heap unit :=
  if negb (ptr =? 0) then dealloc ptr else mret tt.
Definition free_bytes (h : heap) : Z := wrap 64 (total (hstate h) - allocated (hstate h)).
Definition heap_range (h : heap) : Z * Z :=
  (base (hstate h), wrap 64 (base (hstate h) + total (hstate h))).

(** [init]: the heap is backed by [HEAP_SIZE] contiguous bytes from the
    physical memory manager; the identity map makes physical and virtual
    addresses agree. *)
Definition init : ST (heap * pmm) unit := fun '(h, s) =>
  match alloc_contiguous (HEAP_SIZE / FRAME_SIZE) s with
  | Ret (Some start) s' =>
      match init_range start (start + HEAP_SIZE) h with
      | Ret _ h' => Ret tt (h', s')
      | Panic => Panic
      end
  | _ => Panic
  end.

(** ** The tiling

    A tiling is a list of blocks [(size, free)] laid out one after the other
    from an address. *)
Abbreviation tiling := (list (Z * bool)).
Definition span (c : Z * bool) : Z := BLOCK_SIZE + c.1.
Fixpoint extent (bs : tiling) : Z :=
  match bs with [] => 0 | c :: bs => span c + extent bs end.
(** Address of the first free block, or [tl]; of the last free one, or [d]. *)
Fixpoint first_free (a : Z) (bs : tiling) (tl : Z) : Z :=
  match bs with
  | [] => tl
  | c :: bs => if c.2 : bool then a else first_free (a + span c) bs tl
  end.
Fixpoint last_free (a : Z) (bs : tiling) (d : Z) : Z :=
  match bs with
  | [] => d
  | c :: bs => last_free (a + span c) bs (if c.2 : bool then a else d)
  end.
(** The headers in memory agree with the tiling, and the free ones are linked
    in address order, the last pointing to [tl]. *)
Fixpoint seg (m : mem) (a : Z) (bs : tiling) (tl : Z) : Prop :=
  match bs with
  | [] => True
  | c :: bs =>
      block_size m a = c.1 /\
      (c.2 = true -> block_next m a = first_free (a + span c) bs tl) /\
      seg m (a + span c) bs tl
  end.
Fixpoint header_byte (a : Z) (bs : tiling) (x : Z) : Prop :=
  match bs with
  | [] => False
  | c :: bs => a <= x < a + BLOCK_SIZE \/ header_byte (a + span c) bs x
  end.
(** No two neighbours are both free; [p] is the flag of the block before. *)
Fixpoint coalesced (p : bool) (bs : tiling) : Prop :=
  match bs with
  | [] => True
  | c :: bs => (p = true -> c.2 = false) /\ coalesced c.2 bs
  end.
Definition sizes_ok (bs : tiling) : Prop := Forall (fun c => 0 <= c.1 /\ c.1 mod MIN_ALIGN = 0) bs.

Definition heap_inv (h : heap) (bs : tiling) : Prop :=
  let st := hstate h in
  0 < base st /\ base st mod MIN_ALIGN = 0 /\ base st + total st < 2 ^ 64 /\
  extent bs = total st /\ sizes_ok bs /\ coalesced false bs /\
  seg (hmem h) (base st) bs 0 /\ head st = first_free (base st) bs 0 /\ in_u 64 (allocated st).

(** ** Tilings and headers *)
Lemma extent_app b1 b2 : extent (b1 ++ b2) = extent b1 + extent b2.
Proof. induction b1 as [|c b1 IH]; simpl; lia. Qed.
Lemma first_free_app a b1 b2 tl :
  first_free a (b1 ++ b2) tl = first_free a b1 (first_free (a + extent b1) b2 tl).
Proof.
  revert a. induction b1 as [|[s []] b1 IH]; intros a; simpl; [by rewrite Z.add_0_r|done|].
  rewrite IH. do 2 f_equal. lia.
Qed.
Lemma last_free_app a b1 b2 d :
  last_free a (b1 ++ b2) d = last_free (a + extent b1) b2 (last_free a b1 d).
Proof.
  revert a d. induction b1 as [|c b1 IH]; intros a d; simpl; [by rewrite Z.add_0_r|].
  rewrite IH. f_equal. lia.
Qed.
Lemma seg_app m a b1 b2 tl :
  seg m a (b1 ++ b2) tl <->
  seg m a b1 (first_free (a + extent b1) b2 tl) /\ seg m (a + extent b1) b2 tl.
Proof.
  revert a. induction b1 as [|c b1 IH]; intros a; simpl; [rewrite Z.add_0_r; naive_solver|].
  rewrite IH, first_free_app. replace (a + (span c + extent b1)) with (a + span c + extent b1) by lia.
  naive_solver.
Qed.
Lemma header_byte_app a b1 b2 x :
  header_byte a (b1 ++ b2) x <-> header_byte a b1 x \/ header_byte (a + extent b1) b2 x.
Proof.
  revert a. induction b1 as [|c b1 IH]; intros a; simpl; [rewrite Z.add_0_r; naive_solver|].
  rewrite IH. replace (a + (span c + extent b1)) with (a + span c + extent b1) by lia. naive_solver.
Qed.
Fixpoint last_flag (p : bool) (bs : tiling) : bool :=
  match bs with [] => p | c :: bs => last_flag c.2 bs end.
Lemma last_flag_snoc p bs c : last_flag p (bs ++ [c]) = c.2.
Proof. revert p. induction bs; intros; simpl; auto. Qed.
Lemma coalesced_app p b1 b2 :
  coalesced p (b1 ++ b2) <-> coalesced p b1 /\ coalesced (last_flag p b1) b2.
Proof. revert p. induction b1 as [|c b1 IH]; intros p; simpl; [naive_solver|]. rewrite IH. naive_solver. Qed.
Lemma coalesced_weaken p bs : coalesced p bs -> coalesced false bs.
Proof. destruct bs; simpl; naive_solver. Qed.
Lemma extent_nonneg bs : sizes_ok bs -> BLOCK_SIZE * Z.of_nat (length bs) <= extent bs.
Proof. induction 1 as [|c bs [? ?] _ IH]; simpl; unfold span, BLOCK_SIZE in *; lia. Qed.
Lemma extent_mod bs : sizes_ok bs -> extent bs mod MIN_ALIGN = 0.
Proof.
  induction 1 as [|c bs [? ?] _ IH]; simpl; [done|]. unfold span, BLOCK_SIZE, MIN_ALIGN in *. zlia.
Qed.
Lemma header_byte_range a bs x : sizes_ok bs -> header_byte a bs x -> a <= x < a + extent bs.
Proof.
  intros Hs. revert a. induction Hs as [|c bs [? ?] Hs IH]; intros a; simpl; [done|].
  pose proof (extent_nonneg bs Hs). unfold span, BLOCK_SIZE in *. intros [?|?%IH]; lia.
Qed.
Lemma first_free_range a bs tl :
  sizes_ok bs -> first_free a bs tl = tl \/ a <= first_free a bs tl < a + extent bs.
Proof.
  intros Hs. revert a. induction Hs as [|[s []] bs [? ?] Hs IH]; intros a; simpl; [by left| |].
  - pose proof (extent_nonneg bs Hs). unfold span, BLOCK_SIZE in *; simpl in *; lia.
  - destruct (IH (a + span (s, false))) as [|]; [by left|]. unfold span, BLOCK_SIZE in *; simpl in *; lia.
Qed.

(** Memories that agree on the headers carry the same segments. *)
Lemma seg_frame m1 m2 a bs tl :
  (forall x, header_byte a bs x -> m1 x = m2 x) -> seg m1 a bs tl -> seg m2 a bs tl.
Proof.
  revert a. induction bs as [|c bs IH]; intros a Hx; [done|]. simpl. intros (Hsz & Hn & Hs).
  split_and!.
  - rewrite <- Hsz. apply load_ext. intros. symmetry. apply Hx. left. unfold BLOCK_SIZE. lia.
  - intros Hf. rewrite <- (Hn Hf). apply load_ext. intros. symmetry. apply Hx. left. unfold BLOCK_SIZE. lia.
  - apply IH; [|done]. intros. apply Hx. by right.
Qed.

Lemma set_size_frame m p v x : ~ (p <= x < p + 8) -> set_size p v m x = m x.
Proof. intros. apply store_frame. lia. Qed.
Lemma set_next_frame m p v x : ~ (p + 8 <= x < p + 16) -> set_next p v m x = m x.
Proof. intros. apply store_frame. lia. Qed.
Lemma size_same m p v : in_u 64 v -> block_size (set_size p v m) p = v.
Proof. intros. unfold block_size, set_size. rewrite load_store_same. by apply wrap_small. Qed.
Lemma next_same m p v : in_u 64 v -> block_next (set_next p v m) p = v.
Proof. intros. unfold block_next, set_next. rewrite load_store_same. by apply wrap_small. Qed.
Lemma size_set_next m p q v : q <= p \/ p + 16 <= q ->
  block_size (set_next p v m) q = block_size m q.
Proof. intros. apply load_store_disj. lia. Qed.
Lemma next_set_size m p q v : q + 16 <= p \/ p <= q ->
  block_next (set_size p v m) q = block_next m q.
Proof. intros. apply load_store_disj. lia. Qed.
Lemma size_other m p q v : q + 8 <= p \/ p + 8 <= q -> block_size (set_size p v m) q = block_size m q.
Proof. intros. apply load_store_disj. lia. Qed.
Lemma next_other m p q v : q + 8 <= p \/ p + 8 <= q -> block_next (set_next p v m) q = block_next m q.
Proof. intros. apply load_store_disj. lia. Qed.

(** ** Relinking

    Changing the pointer that leaves a prefix of the tiling: through the last
    free block of the prefix or, when it has none, through the head. *)
Lemma set_link_spec bs t t' h a :
  sizes_ok bs -> 0 < a -> in_u 64 t' ->
  seg (hmem h) a bs t -> head (hstate h) = first_free a bs t ->
  let h' := set_link (last_free a bs 0) t' h in
  seg (hmem h') a bs t' /\ head (hstate h') = first_free a bs t' /\
  allocated (hstate h') = allocated (hstate h) /\ total (hstate h') = total (hstate h) /\
  base (hstate h') = base (hstate h) /\
  forall x, ~ header_byte a bs x -> hmem h' x = hmem h x.
Proof.
  intros Hs Ha Ht'. revert t. induction bs as [|[s f] bs IH] using rev_ind; intros t Hseg Hhd.
  { unfold set_link. simpl in *. naive_solver. }
  apply Forall_app in Hs as [Hs [[Hs1 _] _]%Forall_cons]. simpl in Hs1.
  pose proof (extent_nonneg bs Hs) as Hext.
  apply seg_app in Hseg as [Hseg Hlast]. rewrite first_free_app in Hhd.
  rewrite last_free_app. cbn [last_free snd]. destruct f.
  - set (p := a + extent bs) in *. assert (p <> 0) as Hp by (unfold p, BLOCK_SIZE in *; lia).
    unfold set_link. rewrite (proj2 (Z.eqb_neq p 0)) by done. simpl.
    simpl in Hlast. destruct Hlast as (Hsz & _ & _).
    assert (forall x, x < p -> set_next p t' (hmem h) x = hmem h x) as Hfr.
    { intros. apply set_next_frame. lia. }
    split_and!; try done.
    + apply seg_app. split.
      * apply seg_frame with (hmem h); [|done]. intros x Hx%header_byte_range; [|done].
        symmetry. apply Hfr. unfold p. lia.
      * simpl. split_and!; [|intros _; by apply next_same|done].
        rewrite size_set_next by (left; lia). done.
    + rewrite first_free_app. done.
    + intros x Hx. apply set_next_frame. intros ?. apply Hx. apply header_byte_app. right. simpl.
      left. unfold BLOCK_SIZE, p in *. lia.
  - simpl in Hseg, Hhd, Hlast.
    destruct (IH Hs t Hseg Hhd) as (Hseg' & Hhd' & Hal & Htt & Hb & Hfr). split_and!; try done.
    + apply seg_app. split; [done|]. simpl. split_and!; [|done|done].
      destruct Hlast as (<- & _ & _). apply load_ext. intros x Hx. apply Hfr.
      intros Hh%header_byte_range; [|done]. lia.
    + rewrite first_free_app. done.
    + intros x Hx. apply Hfr. intros Hh. apply Hx, header_byte_app. by left.
Qed.

(** Two neighbouring free blocks become one. *)
Lemma absorb_spec pre s1 s2 post h a :
  let bs := pre ++ (s1, true) :: (s2, true) :: post in
  sizes_ok bs -> 0 < a -> a + extent bs < 2 ^ 64 -> seg (hmem h) a bs 0 ->
  let p := a + extent pre in
  let h' := absorb p (p + BLOCK_SIZE + s1) h in
  let bs' := pre ++ (s1 + BLOCK_SIZE + s2, true) :: post in
  seg (hmem h') a bs' 0 /\ hstate h' = hstate h /\
  first_free a bs' 0 = first_free a bs 0 /\ extent bs' = extent bs /\ sizes_ok bs' /\
  forall x, ~ header_byte a bs x -> hmem h' x = hmem h x.
Proof.
  intros bs Hs Ha Hmax Hseg p h' bs'. pose proof Hs as Hs'.
  apply Forall_app in Hs' as [Hpre [[H1 H1m] [[H2 H2m] Hpost]%Forall_cons]%Forall_cons]; simpl in *.
  pose proof (extent_nonneg _ Hpre). pose proof (extent_nonneg _ Hpost).
  assert (extent bs = extent pre + (BLOCK_SIZE + s1) + (BLOCK_SIZE + s2) + extent post) as Hbs.
  { unfold bs. rewrite extent_app. simpl. unfold span; simpl. lia. }
  assert (extent bs' = extent bs) as Hbs'.
  { rewrite Hbs. unfold bs'. rewrite extent_app. simpl. unfold span; simpl. lia. }
  unfold bs in Hseg. apply seg_app in Hseg as [Hsp Hseg]. fold p in Hseg, Hsp.
  cbn [seg snd fst first_free] in Hseg. unfold span in Hseg; simpl in Hseg.
  destruct Hseg as (Hz1 & _ & Hz2 & Hn2 & Hpo). specialize (Hn2 eq_refl).
  replace (p + (BLOCK_SIZE + s1)) with (p + BLOCK_SIZE + s1) in * by lia.
  set (q := p + BLOCK_SIZE + s1) in *.
  assert (in_u 64 (s1 + BLOCK_SIZE + s2)) as Hu by (unfold in_u, BLOCK_SIZE in *; lia).
  assert (forall x, ~ (p <= x < p + BLOCK_SIZE) -> hmem h' x = hmem h x) as Hfr.
  { intros x Hx. unfold h', absorb. simpl. unfold BLOCK_SIZE in *.
    rewrite set_next_frame, set_size_frame by lia. done. }
  assert (block_next (hmem h) q = first_free (q + (BLOCK_SIZE + s2)) post 0) as Hnx by done.
  assert (in_u 64 (block_next (hmem h) q)) as Hnu.
  { rewrite Hnx. destruct (first_free_range (q + (BLOCK_SIZE + s2)) post 0 Hpost) as [->|];
      unfold in_u, q, p, BLOCK_SIZE in *; lia. }
  split_and!; [|done| |done| |].
  - unfold bs'. apply seg_app. split; [|cbn [seg snd fst]; split_and!].
    + cbn [first_free snd] in *. apply seg_frame with (hmem h); [|done].
      intros x Hx%header_byte_range; [|done]. symmetry. apply Hfr. unfold p. lia.
    + fold p. unfold h', absorb. cbn [hmem]. rewrite size_set_next by (left; lia).
      fold q. rewrite Hz1, Hz2, wrap_small by (unfold in_u, BLOCK_SIZE in *; lia).
      rewrite size_same by (unfold in_u, BLOCK_SIZE in *; lia). lia.
    + intros _. fold p. unfold h', absorb. cbn [hmem]. fold q.
      rewrite (next_set_size (hmem h) p q) by (unfold q, BLOCK_SIZE; lia).
      rewrite next_same by done. rewrite Hnx. f_equal. unfold q, span; simpl. lia.
    + apply seg_frame with (hmem h).
      * intros x Hx%header_byte_range; [|done]. symmetry. apply Hfr. unfold p, span, BLOCK_SIZE in *; simpl in *. lia.
      * replace (a + extent pre + span (s1 + BLOCK_SIZE + s2, true)) with (q + (BLOCK_SIZE + s2)); [done|].
        unfold q, p, span; simpl; lia.
  - unfold bs', bs. by rewrite !first_free_app.
  - unfold bs'. apply Forall_app. split; [done|]. constructor; [|done]. simpl.
    unfold BLOCK_SIZE, MIN_ALIGN in *. split; [lia|zlia].
  - intros x Hx. apply Hfr. intros ?. apply Hx. unfold bs. apply header_byte_app. right. by left.
Qed.

(** ** Splitting and unlinking *)
Lemma split_block_spec pre s post req m a :
  let bs := pre ++ (s, true) :: post in
  sizes_ok bs -> BLOCK_SIZE <= a -> a + extent bs < 2 ^ 64 -> seg m a bs 0 ->
  0 <= req <= s -> req mod MIN_ALIGN = 0 ->
  exists sz rest, let bs' := pre ++ (sz, true) :: rest ++ post in
  seg (split_block req (a + extent pre) m) a bs' 0 /\
  req <= sz < req + 2 * MIN_ALIGN /\ (sz = s \/ sz = req /\ req + BLOCK_SIZE + MIN_ALIGN <= s) /\ sizes_ok bs' /\ extent bs' = extent bs /\
  (rest = [] \/ exists s', rest = [(s', true)]) /\
  forall x, ~ (a + extent pre <= x < a + extent pre + BLOCK_SIZE + s) ->
    split_block req (a + extent pre) m x = m x.
Proof.
  intros bs Hs Ha Hmax Hseg Hreq Hmod. pose proof Hs as Hs'.
  apply Forall_app in Hs' as [Hpre [[H1 H1m] Hpost]%Forall_cons]; simpl in *.
  pose proof (extent_nonneg _ Hpre). pose proof (extent_nonneg _ Hpost).
  set (p := a + extent pre) in *.
  assert (extent bs = extent pre + (BLOCK_SIZE + s) + extent post) as Hbs.
  { unfold bs. rewrite extent_app. simpl. unfold span; simpl. lia. }
  pose proof Hseg as Hseg'. unfold bs in Hseg. apply seg_app in Hseg as [Hsp (Hz & Hn & Hpo)].
  fold p in Hsp, Hz, Hn, Hpo. cbn [fst snd first_free] in *. specialize (Hn eq_refl). unfold span in *; simpl in *.
  unfold split_block. rewrite Hz.
  assert (wrap 64 (wrap 64 (req + BLOCK_SIZE) + MIN_ALIGN) = req + BLOCK_SIZE + MIN_ALIGN) as ->.
  { rewrite (wrap_small 64 (req + BLOCK_SIZE)) by (unfold in_u, BLOCK_SIZE in *; lia).
    apply wrap_small. unfold in_u, BLOCK_SIZE, MIN_ALIGN in *. lia. }
  destruct (Z.leb_spec (req + BLOCK_SIZE + MIN_ALIGN) s) as [Hsplit|Hsmall]; cycle 1.
  { exists s, []. split_and!; try done; unfold BLOCK_SIZE, MIN_ALIGN in *; [lia..|by left|by left]. }
  set (r := p + BLOCK_SIZE + req). set (rs := s - req - BLOCK_SIZE).
  assert (in_u 64 r) by (unfold in_u, r, p, BLOCK_SIZE, MIN_ALIGN in *; lia).
  assert (in_u 64 rs) by (unfold in_u, rs, p, BLOCK_SIZE, MIN_ALIGN in *; lia).
  rewrite next_set_size, Hn by (unfold r, BLOCK_SIZE; lia).
  set (nx := first_free (p + (BLOCK_SIZE + s)) post 0).
  assert (in_u 64 nx) as Hnx.
  { destruct (first_free_range (p + (BLOCK_SIZE + s)) post 0 Hpost) as [E|E]; fold nx in E;
      unfold in_u, p, BLOCK_SIZE in *; lia. }
  set (m' := set_next p r _).
  assert (forall x, ~ (p <= x < p + BLOCK_SIZE + s) -> m' x = m x) as Hfr.
  { intros x Hx. unfold m', r in *. unfold BLOCK_SIZE, MIN_ALIGN in *.
    rewrite set_next_frame, set_size_frame, set_next_frame, set_size_frame by lia. done. }
  exists req, [(rs, true)]. split_and!; [|unfold BLOCK_SIZE, MIN_ALIGN in *; lia..|by right| | |by right; exists rs|done].
  - apply seg_app. fold p. split; [|cbn [seg app fst snd first_free]; split_and!].
    + simpl. apply seg_frame with m; [|done]. intros x Hx%header_byte_range; [|done].
      symmetry. apply Hfr. unfold p. lia.
    + unfold m'. rewrite size_set_next by (left; lia). apply size_same. unfold in_u, p, BLOCK_SIZE, MIN_ALIGN in *; lia.
    + intros _. unfold m'. rewrite next_same by done. unfold r, span; simpl; lia.
    + unfold span; simpl. replace (p + (BLOCK_SIZE + req)) with r by (unfold r; lia). unfold m'.
      rewrite size_set_next, size_other, size_set_next by (unfold r, BLOCK_SIZE in *; lia). by apply size_same.
    + intros _. unfold span; simpl. replace (p + (BLOCK_SIZE + req)) with r by (unfold r; lia). unfold m'.
      rewrite next_other, next_set_size by (unfold r, BLOCK_SIZE in *; lia). rewrite next_same by done.
      unfold nx. f_equal. unfold r, rs, p, BLOCK_SIZE; lia.
    + unfold span; simpl. replace (p + (BLOCK_SIZE + req) + (BLOCK_SIZE + rs)) with (p + (BLOCK_SIZE + s)) by (unfold rs; lia).
      apply seg_frame with m; [|done]. intros x Hx%header_byte_range; [|done]. symmetry. apply Hfr. lia.
  - apply Forall_app. split; [done|]. unfold rs, BLOCK_SIZE, MIN_ALIGN in *.
    constructor; [simpl; lia|]. constructor; [simpl; split; [lia|zlia]|done].
  - rewrite Hbs. rewrite extent_app. simpl. unfold span, rs; simpl. lia.
Qed.

(** Taking a free block off the list, or putting a live one on it. *)
Lemma seg_flip f m1 m2 pre s post a :
  let p := a + extent pre in
  sizes_ok pre -> sizes_ok post -> 0 <= s ->
  seg m1 a (pre ++ (s, negb f) :: post) 0 ->
  seg m2 a pre (first_free p ((s, f) :: post) 0) ->
  (f = true -> block_next m2 p = first_free (p + BLOCK_SIZE + s) post 0) ->
  (forall x, ~ header_byte a pre x -> ~ (p + 8 <= x < p + BLOCK_SIZE) -> m2 x = m1 x) ->
  seg m2 a (pre ++ (s, f) :: post) 0.
Proof.
  intros p Hpre Hpost Hs0 H1 H2 Hn Hfr. apply seg_app in H1 as [_ (Hz & _ & Hpo)].
  pose proof (extent_nonneg _ Hpre). fold p in Hz, Hpo. simpl in Hz.
  apply seg_app. fold p. split; [done|]. simpl. unfold span in *; simpl in *. split_and!.
  - rewrite <- Hz. apply load_ext. intros x Hx. apply Hfr; [|lia].
    intros Hh%header_byte_range; [|done]. unfold p in *. lia.
  - intros ->. rewrite Hn by done. f_equal. lia.
  - apply seg_frame with m1; [|done]. intros x Hx%header_byte_range; [|done]. symmetry.
    apply Hfr; [|lia]. intros Hh%header_byte_range; [|done]. unfold p, BLOCK_SIZE in *. lia.
Qed.

(** ** Live blocks *)
Fixpoint live (a : Z) (bs : tiling) : list (Z * Z) :=
  match bs with
  | [] => []
  | c :: bs => (if c.2 : bool then [] else [(a + BLOCK_SIZE, c.1)]) ++ live (a + span c) bs
  end.
Definition in_block (b : Z * Z) (x : Z) : Prop := b.1 <= x < b.1 + b.2.

Lemma live_app a b1 b2 : live a (b1 ++ b2) = live a b1 ++ live (a + extent b1) b2.
Proof.
  revert a. induction b1 as [|c b1 IH]; intros a; simpl; [by rewrite Z.add_0_r|].
  rewrite IH, <- app_assoc. do 2 f_equal. f_equal. lia.
Qed.
Lemma live_split a bs b :
  b ∈ live a bs -> exists pre s post, bs = pre ++ (s, false) :: post /\ b = (a + extent pre + BLOCK_SIZE, s).
Proof.
  revert a. induction bs as [|[s f] bs IH]; intros a; simpl; [by intros ?%not_elem_of_nil|].
  intros [Hb|Hb]%elem_of_app.
  - destruct f; [by apply not_elem_of_nil in Hb|]. apply list_elem_of_singleton in Hb as ->.
    exists [], s, bs. simpl. split; [done|]. f_equal. lia.
  - destruct (IH _ Hb) as (pre & s' & post & -> & ->). exists ((s, f) :: pre), s', post. simpl.
    split; [done|]. f_equal. lia.
Qed.
Lemma live_range a bs b x :
  sizes_ok bs -> b ∈ live a bs -> in_block b x -> a <= x < a + extent bs /\ ~ header_byte a bs x.
Proof.
  intros Hs (pre & s & post & -> & ->)%live_split [Hx1 Hx2]; simpl in *.
  apply Forall_app in Hs as [Hpre [[H1 _] Hpost]%Forall_cons]; simpl in *.
  pose proof (extent_nonneg _ Hpre). pose proof (extent_nonneg _ Hpost).
  rewrite extent_app, header_byte_app. simpl. unfold span, BLOCK_SIZE in *; simpl in *. split; [lia|].
  intros [?%header_byte_range|[?|?%header_byte_range]]; try done; lia.
Qed.
(** Distinct live blocks are apart by at least a header. *)
Lemma live_disjoint a bs b1 b2 :
  sizes_ok bs -> b1 ∈ live a bs -> b2 ∈ live a bs ->
  b1 = b2 \/ b1.1 + b1.2 + BLOCK_SIZE <= b2.1 \/ b2.1 + b2.2 + BLOCK_SIZE <= b1.1.
Proof.
  intros Hs. revert a. induction Hs as [|[s f] bs [H1 _] Hs IH]; intros a; simpl; [by intros ?%not_elem_of_nil|].
  assert (forall b, b ∈ live (a + span (s, f)) bs -> a + span (s, f) + BLOCK_SIZE <= b.1) as Hlt.
  { intros b (pre & s' & post & -> & ->)%live_split. apply Forall_app in Hs as [Hpre _].
    pose proof (extent_nonneg _ Hpre). simpl. unfold BLOCK_SIZE in *. lia. }
  unfold span in *; simpl in *.
  intros [Hb1|Hb1]%elem_of_app [Hb2|Hb2]%elem_of_app; [| | |by eapply IH];
    (destruct f; [set_solver|]).
  - left. set_solver.
  - right; left. apply list_elem_of_singleton in Hb1 as ->. simpl. specialize (Hlt _ Hb2). lia.
  - right; right. apply list_elem_of_singleton in Hb2 as ->. simpl. specialize (Hlt _ Hb1). lia.
Qed.

(** ** Allocation *)
Abbreviation too_small req := (Forall (fun c : Z * bool => c.2 = true -> c.1 < req)).

Lemma alloc_walk_spec req post : forall pre n h bs,
  heap_inv h bs -> bs = pre ++ post -> (length post <= n)%nat -> too_small req pre ->
  let a := base (hstate h) in
  let run := alloc_walk n req (last_free a pre 0) (first_free (a + extent pre) post 0) h in
  (run = Ret 0 h /\ too_small req bs) \/
  exists pre' s post', bs = pre' ++ (s, true) :: post' /\ req <= s /\ too_small req pre' /\
    run = Ret (a + extent pre' + BLOCK_SIZE)
              (take_block req (last_free a pre' 0) (a + extent pre') h).
Proof.
  induction post as [|[s f] post IH]; intros pre n h bs Hinv Hbs Hn Hsmall.
  { left. rewrite app_nil_r in Hbs. simpl. destruct n; simpl; rewrite Hbs; done. }
  pose proof Hinv as (Hb0 & _ & Hmax & Hext & Hs & _ & Hseg & _).
  rewrite Hbs in Hs. apply Forall_app in Hs as [Hpre [[H1 _] Hpost]%Forall_cons].
  pose proof (extent_nonneg _ Hpre) as Hp.
  assert (forall f', (f' = true -> s < req) -> f' = f -> too_small req (pre ++ [(s, f)])) as Hsm.
  { intros f' Hf' <-. apply Forall_app. split; [done|]. by repeat constructor. }
  assert (bs = (pre ++ [(s, f)]) ++ post) as Hbs' by (by rewrite <- app_assoc).
  assert (extent (pre ++ [(s, f)]) = extent pre + span (s, f)) as Hex by (rewrite extent_app; simpl; lia).
  destruct f; simpl.
  - set (p := base (hstate h) + extent pre) in *.
    assert (p <> 0) as Hp0 by (unfold p, BLOCK_SIZE in *; lia).
    destruct n as [|n]; [simpl in Hn; lia|]. cbn [alloc_walk]. rewrite (proj2 (Z.eqb_neq p 0)) by done.
    rewrite Hbs in Hseg. apply seg_app in Hseg as [_ (Hz & Hnx & _)]. fold p in Hz, Hnx. simpl in Hz.
    rewrite Hz. destruct (Z.leb_spec req s).
    + right. exists pre, s, post. done.
    + rewrite Hnx by done.
      specialize (IH (pre ++ [(s, true)]) n h bs Hinv Hbs'). cbv zeta in IH. rewrite Hex in IH.
      rewrite last_free_app in IH. cbn [last_free snd] in IH. fold p in IH.
      replace (base (hstate h) + (extent pre + span (s, true))) with (p + span (s, true)) in IH by (unfold p; lia).
      apply IH; [simpl in Hn; lia|]. by apply (Hsm true).
  - specialize (IH (pre ++ [(s, false)]) n h bs Hinv Hbs'). cbv zeta in IH. rewrite Hex in IH.
    rewrite last_free_app in IH. cbn [last_free snd] in IH.
    rewrite Z.add_assoc in IH. apply IH; [simpl in Hn; lia|]. by apply (Hsm false).
Qed.

Lemma heap_inv_fuel h bs : heap_inv h bs -> (length bs <= fuel h)%nat.
Proof.
  intros (_ & _ & _ & Hext & Hs & _). pose proof (extent_nonneg bs Hs). unfold fuel, BLOCK_SIZE in *.
  assert (Z.of_nat (length bs) <= total (hstate h) / 16) by (apply Z.div_le_lower_bound; lia). lia.
Qed.

(** Taking a block rewrites only headers and the space of that block. *)
Lemma take_block_spec h pre s post req :
  heap_inv h (pre ++ (s, true) :: post) -> 0 <= req <= s -> req mod MIN_ALIGN = 0 ->
  let a := base (hstate h) in
  let h' := take_block req (last_free a pre 0) (a + extent pre) h in
  exists sz bs', heap_inv h' bs' /\ base (hstate h') = a /\ total (hstate h') = total (hstate h) /\
    req <= sz < req + 2 * MIN_ALIGN /\ (sz = s \/ sz = req /\ req + BLOCK_SIZE + MIN_ALIGN <= s) /\
    live a bs' ≡ₚ (a + extent pre + BLOCK_SIZE, sz) :: live a (pre ++ (s, true) :: post) /\
    allocated (hstate h') = wrap 64 (allocated (hstate h) + req) /\
    forall b x, b ∈ live a (pre ++ (s, true) :: post) -> in_block b x -> hmem h' x = hmem h x.
Proof.
  intros (Hb0 & Hbm & Hmax & Hext & Hs & Hco & Hseg & Hhd & Hal) Hreq Hmod a h'.
  assert (BLOCK_SIZE <= a) as Ha by (unfold a, BLOCK_SIZE, MIN_ALIGN in *; zlia).
  destruct (split_block_spec pre s post req (hmem h) a) as (sz & rest & Hseg1 & Hsz & Hszs & Hs1 & Hext1 & Hrest & Hfr1);
    [done|done|unfold a; lia|done..|].
  set (m1 := split_block req (a + extent pre) (hmem h)) in *. set (p := a + extent pre) in *.
  pose proof Hs1 as Hs1'. apply Forall_app in Hs1' as [Hpre [[Hsz0 Hszm] Hrp]%Forall_cons].
  simpl in Hsz0. pose proof (extent_nonneg _ Hpre). pose proof (extent_nonneg _ Hrp).
  set (t' := first_free (p + BLOCK_SIZE + sz) (rest ++ post) 0).
  assert (block_next m1 p = t') as Hnx.
  { apply seg_app in Hseg1 as [_ (_ & Hn & _)]. fold p in Hn. rewrite Hn by done.
    unfold t'. f_equal. unfold span; simpl; lia. }
  assert (in_u 64 t') as Ht'.
  { unfold t'. rewrite extent_app in Hext1. simpl in Hext1. unfold span in Hext1; simpl in Hext1.
    rewrite Hext in Hext1.
    destruct (first_free_range (p + BLOCK_SIZE + sz) (rest ++ post) 0 Hrp) as [->|];
      unfold in_u, p, a, BLOCK_SIZE in *; lia. }
  pose proof Hseg1 as Hseg1'. apply seg_app in Hseg1 as [Hsp _]. fold p in Hsp.
  assert (head (hstate h) = first_free a pre (first_free p ((sz, true) :: rest ++ post) 0)) as Hhd1.
  { rewrite Hhd. unfold a. by rewrite first_free_app. }
  destruct (set_link_spec pre _ t' (mk_heap m1 (hstate h)) a Hpre ltac:(lia) Ht' Hsp Hhd1)
    as (Hseg2 & Hhd2 & Hal2 & Htt2 & Hba2 & Hfr2).
  exists sz, (pre ++ (sz, false) :: rest ++ post). unfold h', take_block. fold a p m1. rewrite Hnx.
  set (h2 := set_link (last_free a pre 0) t' (mk_heap m1 (hstate h))) in *.
  cbn [hstate hmem set_allocated base total head allocated] in *. rewrite Hba2, Htt2, Hal2. fold a.
  split_and!; try done; try lia.
  - unfold heap_inv. cbn [hstate hmem set_allocated base total head allocated]. rewrite Hba2, Htt2. fold a.
    split_and!; try done.
    + rewrite <- Hext, <- Hext1. by rewrite !extent_app.
    + apply Forall_app. split; [done|]. by constructor.
    + apply coalesced_app in Hco as [Hc1 [Hc2 Hc3]]. apply coalesced_app. split; [done|].
      cbn [coalesced snd] in *. split; [done|]. destruct Hrest as [->|[s' ->]]; [by eapply coalesced_weaken|].
      by split.
    + apply (seg_flip false m1 _ pre sz (rest ++ post) a); [done|done|done|exact Hseg1'| |done|].
      * fold p. cbn [first_free snd]. replace (p + span (sz, false)) with (p + BLOCK_SIZE + sz); [done|].
        unfold span; simpl; lia.
      * intros x Hx _. by apply Hfr2.
    + rewrite first_free_app, Hhd2. cbn [first_free snd]. fold p.
      replace (p + span (sz, false)) with (p + BLOCK_SIZE + sz); [done|]. unfold span; simpl; lia.
    + apply wrap_bound. lia.
  - rewrite !live_app. cbn [live snd fst app]. fold p.
    assert (live (p + span (sz, false)) (rest ++ post) = live (p + span (s, true)) post) as ->.
    { rewrite live_app. rewrite !extent_app in Hext1. simpl in Hext1. rewrite extent_app in Hext1.
      destruct Hrest as [->|[s' ->]]; unfold span in *; simpl in *; f_equal; lia. }
    by rewrite Permutation_middle.
  - intros b x Hb Hx. destruct (live_range _ _ _ _ Hs Hb Hx) as [_ Hh].
    rewrite header_byte_app in Hh. rewrite Hfr2 by naive_solver. simpl. apply Hfr1.
    rewrite live_app in Hb. apply elem_of_app in Hb as [Hb|Hb].
    + destruct (live_range _ _ _ _ Hpre Hb Hx). unfold p. lia.
    + apply Forall_app in Hs as [_ [_ Hpo]%Forall_cons]. cbn [live snd app] in Hb.
      destruct (live_range _ _ _ _ Hpo Hb Hx). unfold p, span in *; simpl in *. lia.
Qed.

(** ** Deallocation *)
Lemma find_place_spec m a s post pre2 : forall pre1 n,
  let bs := pre1 ++ pre2 ++ (s, false) :: post in
  let block := a + extent (pre1 ++ pre2) in
  0 < a -> sizes_ok bs -> seg m a bs 0 -> (length pre2 <= n)%nat ->
  find_place n m block (last_free a pre1 0)
    (first_free (a + extent pre1) (pre2 ++ (s, false) :: post) 0) =
  Some (last_free a (pre1 ++ pre2) 0, first_free (block + span (s, false)) post 0).
Proof.
  induction pre2 as [|[s1 f1] pre2 IH]; intros pre1 n bs block Ha Hs Hseg Hn.
  - unfold block, bs in *. rewrite app_nil_r in *. cbn [app first_free snd] in *.
    set (c := first_free (a + extent pre1 + span (s, false)) post 0).
    assert (negb (c =? 0) && (c <? a + extent pre1) = false) as Hc; [|destruct n; simpl; by rewrite Hc].
    apply Forall_app in Hs as [Hp [[H1 _] Hpost]%Forall_cons].
    destruct (first_free_range (a + extent pre1 + span (s, false)) post 0 Hpost) as [E|E]; fold c in E.
    + by rewrite E.
    + apply andb_false_iff. right. apply Z.ltb_ge. unfold span, BLOCK_SIZE in *; simpl in *. lia.
  - assert (forall X : tiling, pre1 ++ ((s1, f1) :: pre2) ++ X = (pre1 ++ [(s1, f1)]) ++ pre2 ++ X) as Hap.
    { intros X. by rewrite <- app_assoc. }
    unfold bs in Hs, Hseg. rewrite Hap in Hs, Hseg.
    assert (block = a + extent ((pre1 ++ [(s1, f1)]) ++ pre2)) as Hbl.
    { unfold block. do 2 f_equal. rewrite <- app_assoc. done. }
    assert (extent (pre1 ++ [(s1, f1)]) = extent pre1 + span (s1, f1)) as Hex by (rewrite extent_app; simpl; lia).
    specialize (IH (pre1 ++ [(s1, f1)])). cbv zeta in IH. rewrite <- Hbl, Hex in IH.
    rewrite last_free_app in IH. cbn [last_free snd] in IH. rewrite Z.add_assoc in IH.
    replace (pre1 ++ (s1, f1) :: pre2) with ((pre1 ++ [(s1, f1)]) ++ pre2) by (by rewrite <- app_assoc).
    cbn [app first_free snd]. simpl in Hn. destruct f1; [|apply IH; try done; lia].
    destruct n as [|n]; [lia|]. cbn [find_place].
    pose proof Hs as Hs'. apply Forall_app in Hs' as [[Hp [[H1 _] _]%Forall_cons]%Forall_app [Hp2 _]%Forall_app].
    pose proof (extent_nonneg _ Hp). pose proof (extent_nonneg _ Hp2). simpl in H1.
    rewrite (proj2 (Z.eqb_neq _ _)), (proj2 (Z.ltb_lt _ _)); cycle 1.
    { rewrite Hbl, !extent_app. simpl. unfold span, BLOCK_SIZE in *; simpl in *. lia. }
    { unfold BLOCK_SIZE in *. lia. }
    simpl. rewrite <- app_assoc in Hseg. apply seg_app in Hseg as Hseg'. destruct Hseg' as [_ (_ & Hnx & _)].
    rewrite Hnx by done. apply IH; [done..| |lia]. by rewrite <- app_assoc.
Qed.

Lemma link_spec h pre s post a :
  let bs := pre ++ (s, false) :: post in
  let p := a + extent pre in
  let current := first_free (p + BLOCK_SIZE + s) post 0 in
  let h' := set_link (last_free a pre 0) p (mk_heap (set_next p current (hmem h)) (hstate h)) in
  let bs' := pre ++ (s, true) :: post in
  sizes_ok bs -> 0 < a -> a + extent bs < 2 ^ 64 -> seg (hmem h) a bs 0 ->
  head (hstate h) = first_free a bs 0 ->
  seg (hmem h') a bs' 0 /\ head (hstate h') = first_free a bs' 0 /\
  allocated (hstate h') = allocated (hstate h) /\ total (hstate h') = total (hstate h) /\
  base (hstate h') = base (hstate h) /\
  forall x, ~ header_byte a bs x -> hmem h' x = hmem h x.
Proof.
  intros bs p current h' bs' Hs Ha Hmax Hseg Hhd. pose proof Hs as Hs'.
  apply Forall_app in Hs' as [Hpre [[H1 _] Hpost]%Forall_cons]. simpl in H1.
  pose proof (extent_nonneg _ Hpre). pose proof (extent_nonneg _ Hpost).
  assert (extent bs = extent pre + (BLOCK_SIZE + s) + extent post) as Hbs.
  { unfold bs. rewrite extent_app. simpl. unfold span; simpl. lia. }
  set (m1 := set_next p current (hmem h)) in *.
  assert (forall x, ~ (p + 8 <= x < p + BLOCK_SIZE) -> m1 x = hmem h x) as Hm1 by (apply set_next_frame).
  assert (in_u 64 current) as Hcu.
  { unfold current. destruct (first_free_range (p + BLOCK_SIZE + s) post 0 Hpost) as [->|];
      unfold in_u, p, BLOCK_SIZE in *; lia. }
  assert (seg m1 a pre (first_free p ((s, false) :: post) 0)) as Hsp.
  { apply seg_app in Hseg as [Hsp _]. apply seg_frame with (hmem h); [|done].
    intros x Hx%header_byte_range; [|done]. symmetry. apply Hm1. unfold p. lia. }
  destruct (set_link_spec pre _ p (mk_heap m1 (hstate h)) a Hpre Ha ltac:(unfold in_u, p, BLOCK_SIZE in *; lia) Hsp)
    as (Hseg2 & Hhd2 & Hal2 & Htt2 & Hba2 & Hfr2).
  { simpl. rewrite Hhd. unfold bs. by rewrite first_free_app. }
  fold h' in Hseg2, Hhd2, Hal2, Htt2, Hba2, Hfr2. simpl in Hal2, Htt2, Hba2, Hfr2. split_and!; try done.
  - apply (seg_flip true (hmem h)); try done.
    + intros _. fold p. fold current.
      rewrite <- (next_same (hmem h) p current Hcu). apply load_ext. intros x Hx. rewrite Hfr2; [done|].
      intros Hh%header_byte_range; [|done]. unfold p in *. lia.
    + intros x Hx1 Hx2. rewrite Hfr2 by done. by apply Hm1.
  - unfold bs'. rewrite first_free_app. done.
  - intros x Hx. unfold bs in Hx. rewrite header_byte_app in Hx. simpl in Hx. fold p in Hx.
    rewrite Hfr2 by naive_solver. apply Hm1. unfold BLOCK_SIZE in *. intros ?. apply Hx. right; left. lia.
Qed.

Lemma absorb_next_spec h pre s post a :
  let bs := pre ++ (s, true) :: post in
  let p := a + extent pre in
  let current := first_free (p + BLOCK_SIZE + s) post 0 in
  let h' := if negb (current =? 0) && adjacent h p current then absorb p current h else h in
  sizes_ok bs -> 0 < a -> a + extent bs < 2 ^ 64 -> seg (hmem h) a bs 0 -> coalesced false post ->
  exists s' post', let bs' := pre ++ (s', true) :: post' in
    seg (hmem h') a bs' 0 /\ hstate h' = hstate h /\ first_free a bs' 0 = first_free a bs 0 /\
    extent bs' = extent bs /\ sizes_ok bs' /\ coalesced true post' /\ live a bs' = live a bs /\
    forall x, ~ header_byte a bs x -> hmem h' x = hmem h x.
Proof.
  intros bs p current h' Hs Ha Hmax Hseg Hco. pose proof Hs as Hs'.
  apply Forall_app in Hs' as [Hpre [[H1 _] Hpost]%Forall_cons]. simpl in H1.
  pose proof (extent_nonneg _ Hpre). pose proof (extent_nonneg _ Hpost).
  assert (extent bs = extent pre + (BLOCK_SIZE + s) + extent post) as Hbs.
  { unfold bs. rewrite extent_app. simpl. unfold span; simpl. lia. }
  assert (adjacent h p current = (p + BLOCK_SIZE + s =? current)) as Hadj.
  { unfold adjacent. apply seg_app in Hseg as [_ [Hz _]]. fold p in Hz. rewrite Hz. simpl.
    rewrite wrap_small; [done|]. unfold in_u, p, BLOCK_SIZE in *. lia. }
  destruct post as [|[s1 []] post].
  - exists s, []. unfold h', current; simpl. done.
  - assert (h' = absorb p (p + BLOCK_SIZE + s) h) as Hh'.
    { unfold h'. rewrite Hadj. unfold current; simpl. rewrite Z.eqb_refl, (proj2 (Z.eqb_neq _ _)); [done|].
      unfold p, BLOCK_SIZE in *; lia. }
    destruct (absorb_spec pre s s1 post h a Hs Ha Hmax Hseg) as (? & ? & ? & ? & ? & ?).
    exists (s + BLOCK_SIZE + s1), post. rewrite Hh'. simpl in Hco. split_and!; try done; [naive_solver|].
    unfold bs. rewrite !live_app. simpl. do 2 f_equal. unfold span; simpl; lia.
  - exists s, ((s1, false) :: post). assert (h' = h) as ->; [|naive_solver].
    unfold h'. rewrite Hadj, (proj2 (Z.eqb_neq _ current)), andb_false_r; [done|].
    apply Forall_cons in Hpost as [[? _] Hpost]. unfold current; simpl in *.
    destruct (first_free_range (p + BLOCK_SIZE + s + span (s1, false)) post 0 Hpost) as [->|];
      unfold p, span, BLOCK_SIZE in *; simpl in *; lia.
Qed.

Lemma last_free_split a bs :
  last_free a bs 0 = 0 \/
  exists b1 s b2, bs = b1 ++ (s, true) :: b2 /\ last_free a bs 0 = a + extent b1.
Proof.
  induction bs as [|[s []] bs IH] using rev_ind; [by left| |]; rewrite last_free_app; simpl.
  - right. exists bs, s, []. done.
  - destruct IH as [|(b1 & s' & b2 & -> & ?)]; [by left|right].
    exists b1, s', (b2 ++ [(s, false)]). by rewrite <- app_assoc.
Qed.

Lemma absorb_prev_spec h pre s post a :
  let bs := pre ++ (s, true) :: post in
  let p := a + extent pre in
  let previous := last_free a pre 0 in
  let h' := if negb (previous =? 0) && adjacent h previous p then absorb previous p h else h in
  sizes_ok bs -> 0 < a -> a + extent bs < 2 ^ 64 -> seg (hmem h) a bs 0 ->
  coalesced false pre -> coalesced true post ->
  exists bs', seg (hmem h') a bs' 0 /\ hstate h' = hstate h /\ first_free a bs' 0 = first_free a bs 0 /\
    extent bs' = extent bs /\ sizes_ok bs' /\ coalesced false bs' /\ live a bs' = live a bs /\
    forall x, ~ header_byte a bs x -> hmem h' x = hmem h x.
Proof.
  intros bs p previous h' Hs Ha Hmax Hseg Hc1 Hc2.
  assert (forall q sq b1 b2, pre = b1 ++ (sq, true) :: b2 -> q = a + extent b1 ->
    adjacent h q p = (extent b2 =? 0)) as Hadj.
  { intros q sq b1 b2 -> ->. unfold bs in Hseg. rewrite <- app_assoc in Hseg.
    apply seg_app in Hseg as [_ [Hz _]]. unfold adjacent. rewrite Hz. simpl.
    unfold bs in Hs, Hmax. apply Forall_app in Hs as [Hs [[Hs0 _] Hpo]%Forall_cons].
    apply Forall_app in Hs as [Hs [[? _] Hb2]%Forall_cons].
    rewrite !extent_app in Hmax. pose proof (extent_nonneg _ Hs). pose proof (extent_nonneg _ Hb2).
    pose proof (extent_nonneg _ Hpo). unfold p. rewrite extent_app.
    unfold span in *; simpl in *; unfold span, BLOCK_SIZE in *; simpl in *.
    rewrite wrap_small by (unfold in_u; lia). apply eq_true_iff_eq. rewrite !Z.eqb_eq. lia. }
  destruct pre as [|[s0 []] pre _] using rev_ind.
  - exists bs. unfold h'; simpl. repeat (split; [done|]). done.
  - assert (previous = a + extent pre) as Hpv by (unfold previous; rewrite last_free_app; done).
    pose proof Hs as Hs'. apply Forall_app in Hs' as [Hp _]. apply Forall_app in Hp as [Hp [[Hs0 _] _]%Forall_cons].
    pose proof (extent_nonneg _ Hp). simpl in Hs0.
    assert (h' = absorb (a + extent pre) (a + extent pre + BLOCK_SIZE + s0) h) as ->.
    { unfold h'. rewrite (Hadj _ s0 pre []) by done. simpl. rewrite Hpv, (proj2 (Z.eqb_neq _ _)) by (unfold BLOCK_SIZE in *; lia).
      simpl. f_equal. unfold p. rewrite extent_app. simpl. unfold span; simpl. lia. }
    unfold bs in *. rewrite <- app_assoc in Hs, Hmax, Hseg |- *. cbn [app] in *.
    destruct (absorb_spec pre s0 s post h a Hs Ha Hmax Hseg) as (? & ? & ? & ? & ? & ?).
    exists (pre ++ (s0 + BLOCK_SIZE + s, true) :: post). split_and!; try done.
    + apply coalesced_app in Hc1 as [? [Hf _]]. apply coalesced_app. done.
    + rewrite !live_app. simpl. do 2 f_equal. unfold span; simpl; lia.
  - exists bs. assert (h' = h) as ->; [|split_and!; try done].
    + unfold h'. destruct (negb (previous =? 0)) eqn:E; [|done]. simpl. to_prop.
      assert (previous = last_free a pre 0) as Hpv by (unfold previous; rewrite last_free_app; done).
      destruct (last_free_split a pre) as [|(b1 & sq & b2 & -> & Hq)]; [congruence|].
      rewrite (Hadj previous sq b1 (b2 ++ [(s0, false)])); [|by rewrite <- app_assoc|by rewrite Hpv].
      rewrite (proj2 (Z.eqb_neq _ _)); [done|].
      apply Forall_app in Hs as [Hp _]. apply Forall_app in Hp as [Hp [[Hs0 _] _]%Forall_cons].
      apply Forall_app in Hp as [_ [_ Hb2]%Forall_cons]. pose proof (extent_nonneg _ Hb2).
      rewrite extent_app. simpl in *. unfold span, BLOCK_SIZE in *; simpl in *. lia.
    + unfold bs. apply coalesced_app. split; [done|]. by rewrite last_flag_snoc.
Qed.

(** ** The two operations on a well-formed heap *)
Lemma align_up16 size :
  0 <= size < 2 ^ 63 ->
  size <= align_up size MIN_ALIGN < size + MIN_ALIGN /\ align_up size MIN_ALIGN mod MIN_ALIGN = 0.
Proof.
  intros. unfold align_up, MIN_ALIGN. change 16 with (2 ^ 4).
  rewrite align_up_spec by lia. change (2 ^ 4) with 16. zlia.
Qed.

Lemma alloc_spec h bs size :
  heap_inv h bs -> 0 <= size < 2 ^ 63 ->
  let a := base (hstate h) in
  let req := align_up size MIN_ALIGN in
  (alloc size h = Ret 0 h /\ too_small req bs) \/
  exists p sz h' bs', alloc size h = Ret p h' /\ heap_inv h' bs' /\
    base (hstate h') = a /\ total (hstate h') = total (hstate h) /\
    req <= sz < req + 2 * MIN_ALIGN /\ live a bs' ≡ₚ (p, sz) :: live a bs /\
    allocated (hstate h') = wrap 64 (allocated (hstate h) + req) /\
    (forall b x, b ∈ live a bs -> in_block b x -> hmem h' x = hmem h x) /\
    exists pre s post, bs = pre ++ (s, true) :: post /\ too_small req pre /\ p = a + extent pre + BLOCK_SIZE /\
      (sz = s \/ sz = req /\ req + BLOCK_SIZE + MIN_ALIGN <= s).
Proof.
  intros Hinv Hsize a req. destruct (align_up16 size Hsize) as [Hreq Hmod].
  pose proof Hinv as (_ & _ & _ & _ & _ & _ & _ & Hhd & _).
  destruct (alloc_walk_spec req bs [] (fuel h) h bs Hinv eq_refl) as [[Hr Hs]|(pre & s & post & -> & Hle & Hsm & Hr)];
    [by apply (heap_inv_fuel h)|done| |].
  - left. split; [|done]. unfold alloc. simpl in Hr. by rewrite Hhd, <- (Z.add_0_r (base _)) at 1.
  - simpl in Hr. right.
    destruct (take_block_spec h pre s post req Hinv ltac:(lia) Hmod)
      as (sz & bs' & Hinv' & Hb & Ht & Hsz & Hszs & Hl & Hal & Hfr).
    eexists _, sz, _, bs'. split; [|split; [exact Hinv'|]].
    { unfold alloc. rewrite Hhd. rewrite Z.add_0_r in Hr. exact Hr. }
    split_and!; try done; try lia. by exists pre, s, post.
Qed.

Lemma dealloc_spec h bs p sz :
  heap_inv h bs -> (p, sz) ∈ live (base (hstate h)) bs ->
  exists h' bs', dealloc p h = Ret tt h' /\ heap_inv h' bs' /\
    base (hstate h') = base (hstate h) /\ total (hstate h') = total (hstate h) /\
    live (base (hstate h)) bs ≡ₚ (p, sz) :: live (base (hstate h)) bs' /\
    allocated (hstate h') = wrap 64 (allocated (hstate h) - sz) /\
    forall b x, b ∈ live (base (hstate h)) bs' -> in_block b x -> hmem h' x = hmem h x.
Proof.
  intros Hinv Hp. pose proof (heap_inv_fuel _ _ Hinv) as Hfuel.
  destruct Hinv as (Hb0 & Hbm & Hmax & Hext & Hs & Hco & Hseg & Hhd & Hal).
  set (a := base (hstate h)) in *. apply live_split in Hp as (pre & s & post & -> & [= -> ->]).
  set (p := a + extent pre) in *.
  set (h1 := set_allocated (wrap 64 (allocated (hstate h) - s)) h).
  pose proof (find_place_spec (hmem h) a s post pre [] (fuel h) Hb0 Hs Hseg) as Hfind.
  cbn [app extent last_free] in Hfind. rewrite Z.add_0_r in Hfind. fold p in Hfind.
  destruct (link_spec h1 pre s post a Hs Hb0 ltac:(lia) Hseg Hhd) as (Hseg2 & Hhd2 & Hal2 & Htt2 & Hba2 & Hfr2).
  fold p in Hseg2, Hhd2, Hal2, Htt2, Hba2, Hfr2.
  set (current := first_free (p + BLOCK_SIZE + s) post 0) in *.
  set (h2 := set_link (last_free a pre 0) p _) in *.
  assert (sizes_ok (pre ++ (s, true) :: post)) as Hs2.
  { apply Forall_app in Hs as [? [? ?]%Forall_cons]. apply Forall_app. split; [done|]. by constructor. }
  assert (extent (pre ++ (s, true) :: post) = extent (pre ++ (s, false) :: post)) as He2.
  { rewrite !extent_app. done. }
  apply coalesced_app in Hco as [Hc1 [_ Hc2]].
  destruct (absorb_next_spec h2 pre s post a Hs2 Hb0 ltac:(lia) Hseg2 Hc2)
    as (s3 & post3 & Hseg3 & Hst3 & Hff3 & He3 & Hs3 & Hc3 & Hl3 & Hfr3).
  fold p in Hseg3, Hst3, Hfr3. fold current in Hseg3, Hst3, Hfr3.
  set (h3 := if negb (current =? 0) && adjacent h2 p current then _ else _) in *.
  destruct (absorb_prev_spec h3 pre s3 post3 a Hs3 Hb0 ltac:(lia) Hseg3 Hc1 Hc3)
    as (bs4 & Hseg4 & Hst4 & Hff4 & He4 & Hs4 & Hc4 & Hl4 & Hfr4).
  fold p in Hseg4, Hst4, Hfr4.
  set (h4 := if negb (last_free a pre 0 =? 0) && adjacent h3 (last_free a pre 0) p then _ else _) in *.
  exists h4, bs4. split; [|split].
  - unfold dealloc. replace (p + BLOCK_SIZE - BLOCK_SIZE) with p by lia.
    assert (block_size (hmem h) p = s) as ->.
    { apply seg_app in Hseg as [_ [Hz _]]. exact Hz. }
    change (fuel (set_allocated _ h)) with (fuel h). change (hmem (set_allocated _ h)) with (hmem h).
    change (head (hstate (set_allocated _ h))) with (head (hstate h)). rewrite Hhd, Hfind.
    + replace (p + span (s, false)) with (p + BLOCK_SIZE + s) by (unfold span; simpl; lia). done.
    + rewrite length_app in Hfuel. lia.
  - unfold heap_inv. rewrite Hst4, Hst3, Hba2, Htt2, Hal2. fold a.
    refine (conj Hb0 (conj Hbm (conj Hmax (conj _ (conj Hs4 (conj Hc4 (conj Hseg4 (conj _ _)))))))).
    + simpl. lia.
    + etrans; [exact Hhd2|]. symmetry. etrans; [exact Hff4|exact Hff3].
    + apply wrap_bound. lia.
  - rewrite Hst4, Hst3, Hba2, Htt2, Hal2. split_and!; try done.
    + rewrite Hl4, Hl3, !live_app. simpl. fold p. by rewrite Permutation_middle.
    + intros b x Hb Hx. assert (b ∈ live a (pre ++ (s3, true) :: post3)) as Hb3 by congruence.
      assert (b ∈ live a (pre ++ (s, true) :: post)) as Hb2 by congruence.
      destruct (live_range _ _ _ _ Hs3 Hb3 Hx) as [_ Hh3].
      destruct (live_range _ _ _ _ Hs2 Hb2 Hx) as [_ Hh2].
      rewrite Hfr4, Hfr3, Hfr2 by (done || (rewrite header_byte_app in Hh2 |- *; exact Hh2)). done.
Qed.

Lemma init_range_spec start end_ h :
  0 < start -> start mod MIN_ALIGN = 0 -> start + BLOCK_SIZE <= end_ < 2 ^ 64 ->
  (end_ - start) mod MIN_ALIGN = 0 ->
  exists h', init_range start end_ h = Ret tt h' /\
    heap_inv h' [(end_ - start - BLOCK_SIZE, true)] /\
    base (hstate h') = start /\ total (hstate h') = end_ - start /\ allocated (hstate h') = 0.
Proof.
  intros H0 Hm Hle Hm2. unfold init_range. unfold BLOCK_SIZE, MIN_ALIGN in *.
  rewrite (wrap_small 64 (end_ - start)) by (unfold in_u; lia).
  rewrite (wrap_small 64 (_ - 16)) by (unfold in_u; lia).
  eexists. split; [done|]. split; [|done]. unfold heap_inv. cbn [hmem hstate base total head allocated].
  unfold MIN_ALIGN. refine (conj H0 (conj Hm (conj _ (conj _ (conj _ (conj _ (conj _ (conj _ _)))))))).
  - lia.
  - cbn [extent]. unfold span, BLOCK_SIZE; cbn [fst]. lia.
  - constructor; [|done]. cbn [fst]; unfold MIN_ALIGN. split; [lia|zlia].
  - done.
  - cbn [seg fst snd]. split_and!; [| |done].
    + rewrite size_set_next, size_same by (unfold in_u; lia). done.
    + intros _. cbn [first_free]. apply (next_same _ start 0). unfold in_u; lia.
  - done.
  - unfold in_u; lia.
Qed.

(** ** Runs of the heap

    The blocks the clients own, with the size each asked for.  A client may
    write any byte of a block it owns. *)
Inductive heap_step : heap * list (Z * Z) -> heap * list (Z * Z) -> Prop :=
| step_alloc h h' p size align owned :
    0 < size < 2 ^ 63 -> global_alloc size align h = Ret p h' ->
    heap_step (h, owned) (h', (if p =? 0 then [] else [(p, size)]) ++ owned)
| step_dealloc h h' p size o1 o2 :
    global_dealloc p h = Ret tt h' -> heap_step (h, o1 ++ (p, size) :: o2) (h', o1 ++ o2)
| step_write h b x v owned :
    b ∈ owned -> in_block b x ->
    heap_step (h, owned)
              (mk_heap (fun y => if y =? x then v else hmem h y) (hstate h), owned).

Definition fits (b : Z * Z) (c : Z * Z) : Prop := b.1 = c.1 /\ 0 < b.2 <= c.2.
Definition run_inv (a t : Z) (st : heap * list (Z * Z)) : Prop :=
  let '(h, owned) := st in
  base (hstate h) = a /\ total (hstate h) = t /\
  exists bs blocks, heap_inv h bs /\ live a bs ≡ₚ blocks /\ Forall2 fits owned blocks.

Lemma live_shape h bs b :
  heap_inv h bs -> b ∈ live (base (hstate h)) bs ->
  b.1 mod MIN_ALIGN = 0 /\ base (hstate h) + BLOCK_SIZE <= b.1 /\ 0 <= b.2 /\
  b.1 + b.2 <= base (hstate h) + total (hstate h).
Proof.
  intros (H0 & Hm & _ & Hext & Hs & _) (pre & s & post & -> & ->)%live_split. simpl.
  apply Forall_app in Hs as [Hpre [[H1 _] Hpost]%Forall_cons]. simpl in H1.
  pose proof (extent_nonneg _ Hpre). pose proof (extent_nonneg _ Hpost). pose proof (extent_mod _ Hpre).
  rewrite extent_app in Hext. simpl in Hext. unfold span, BLOCK_SIZE, MIN_ALIGN in *; simpl in *.
  split_and!; [zlia|lia..].
Qed.
Lemma seg_write m a bs tl x v :
  ~ header_byte a bs x -> seg m a bs tl -> seg (fun y => if y =? x then v else m y) a bs tl.
Proof.
  intros Hx. apply seg_frame. intros y Hy. destruct (Z.eqb_spec y x) as [->|]; [done|done].
Qed.

Lemma heap_step_inv a t st st' : run_inv a t st -> heap_step st st' -> run_inv a t st'.
Proof.
  intros Hinv Hs. destruct Hs as [h h' p size align owned Hsz Hr|h h' p size o1 o2 Hr|h b x v owned Hb Hx];
    destruct Hinv as (Hba & Htt & bs & blocks & Hinv & Hl & Hf).
  - unfold global_alloc in Hr. destruct (MIN_ALIGN <? align); [unfold mret, st_ret in Hr; simplify_eq; simpl; eauto 10|].
    destruct (alloc_spec h bs size Hinv ltac:(lia))
      as [[Hr' _]|(p' & sz & h2 & bs' & Hr' & Hinv' & Hb' & Ht' & Hsz' & Hl' & _ & _ & Hp)];
      rewrite Hr in Hr'; simplify_eq; [simpl; eauto 10|].
    destruct (align_up16 size ltac:(lia)) as [? _].
    assert ((p', sz) ∈ live (base (hstate h2)) bs') as Hel by (rewrite Hb', Hl'; by left).
    destruct (live_shape h2 bs' _ Hinv' Hel) as (_ & Hge & _). simpl in Hge. rewrite Hb' in Hge.
    assert (0 < base (hstate h)) by apply Hinv.
    rewrite (proj2 (Z.eqb_neq p' 0)) by (unfold BLOCK_SIZE in *; lia). split_and!; [congruence..|].
    exists bs', ((p', sz) :: blocks). split_and!; [done|by rewrite Hl', Hl|].
    constructor; [split; simpl; lia|done].
  - apply Forall2_app_inv_l in Hf as (k1 & k2' & Hf1 & Hf2 & ->).
    apply Forall2_cons_inv_l in Hf2 as ([q sz] & k2 & [Hq Hsz] & Hf2 & ->). simpl in Hq, Hsz. subst q.
    assert ((p, sz) ∈ live (base (hstate h)) bs) as Hel.
    { rewrite Hba, Hl. apply elem_of_app. right. by left. }
    destruct (live_shape h bs _ Hinv Hel) as (_ & Hge & _). simpl in Hge.
    assert (0 < base (hstate h)) by apply Hinv.
    unfold global_dealloc in Hr. rewrite (proj2 (Z.eqb_neq p 0)) in Hr by (unfold BLOCK_SIZE in *; lia). simpl in Hr.
    destruct (dealloc_spec h bs p sz Hinv Hel) as (h2 & bs' & Hr' & Hinv' & Hb' & Ht' & Hl' & _).
    rewrite Hr in Hr'. simplify_eq. split_and!; [congruence..|]. exists bs', (k1 ++ k2).
    split_and!; [done| |by apply Forall2_app].
    rewrite Hl', <- Permutation_middle in Hl. by apply Permutation_cons_inv in Hl.
  - split_and!; [done..|]. exists bs, blocks. split_and!; [|done|done].
    apply list_elem_of_lookup in Hb as [i Hi].
    destruct (Forall2_lookup_l _ _ _ _ _ Hf Hi) as (c & Hc & Hfst & Hsnd).
    assert (c ∈ live (base (hstate h)) bs) as Hel by (rewrite Hba, Hl; by eapply list_elem_of_lookup_2).
    pose proof Hinv as (_ & _ & _ & _ & Hs & _).
    destruct (live_range _ _ _ x Hs Hel) as [_ Hh]; [unfold in_block in *; lia|].
    unfold heap_inv in *. cbn [hmem hstate]. rewrite <- Hba in *. pose proof (seg_write (hmem h) _ _ 0 _ v Hh).
    naive_solver.
Qed.

Lemma heap_run_inv start end_ h0 h1 h owned :
  0 < start -> start mod MIN_ALIGN = 0 -> start + BLOCK_SIZE <= end_ < 2 ^ 64 ->
  (end_ - start) mod MIN_ALIGN = 0 -> init_range start end_ h0 = Ret tt h1 ->
  rtc heap_step (h1, []) (h, owned) -> run_inv start (end_ - start) (h, owned).
Proof.
  intros H0 Hm Hle Hm2 Hi Hr.
  destruct (init_range_spec start end_ h0 H0 Hm Hle Hm2) as (h2 & Hi2 & Hinv & Hb & Ht & _).
  rewrite Hi in Hi2. simplify_eq.
  eapply (rtc_ind_r (run_inv (base (hstate h2)) (end_ - base (hstate h2)))); [| |exact Hr].
  - split_and!; [done..|]. eexists _, []. split_and!; [exact Hinv|by simpl|constructor].
  - intros; by eapply heap_step_inv.
Qed.

Lemma live_NoDup a bs : sizes_ok bs -> NoDup (live a bs).
Proof.
  intros Hs. revert a. induction Hs as [|[s f] bs [H1 _] Hs IH]; intros a; simpl; [constructor|].
  destruct f; simpl; [done|]. constructor; [|done].
  intros (pre & s' & post & -> & [= Heq _])%live_split. apply Forall_app in Hs as [Hpre _].
  pose proof (extent_nonneg _ Hpre). unfold span, BLOCK_SIZE in *; simpl in *. lia.
Qed.
Lemma fits_in_block b c x : fits b c -> in_block b x -> in_block c x.
Proof. unfold fits, in_block. lia. Qed.

(** What an owned block is in the tiling. *)
Lemma owned_block a t h owned :
  run_inv a t (h, owned) ->
  exists bs, heap_inv h bs /\ NoDup (live a bs) /\
    (forall i b, owned !! i = Some b -> exists c, fits b c /\ c ∈ live a bs /\
       forall j b' c', owned !! j = Some b' -> j <> i -> fits b' c' -> c' ∈ live a bs -> c' <> c).
Proof.
  intros (Hb & Ht & bs & blocks & Hinv & Hl & Hf). exists bs.
  assert (NoDup (live a bs)) as Hnd by (apply live_NoDup, Hinv).
  assert (NoDup blocks) as Hndb by (by rewrite <- Hl). split_and!; [done..|].
  intros i b Hi. destruct (Forall2_lookup_l _ _ _ _ _ Hf Hi) as (c & Hc & Hfit).
  exists c. split_and!; [done|rewrite Hl; by eapply list_elem_of_lookup_2|].
  intros j b' c' Hj Hne Hfit' Hc' ->. destruct (Forall2_lookup_l _ _ _ _ _ Hf Hj) as (c2 & Hc2 & Hfit2).
  assert (c2 ∈ live a bs) as Hel2 by (rewrite Hl; by eapply list_elem_of_lookup_2).
  assert (sizes_ok bs) as Hs by apply Hinv.
  destruct (live_disjoint a bs c c2 Hs Hc' Hel2) as [->|Hd].
  - apply Hne. by eapply NoDup_lookup.
  - unfold fits, BLOCK_SIZE in *. lia.
Qed.

Section heap_runs.
Context (start end_ : Z) (h0 h1 h : heap) (owned : list (Z * Z)).
Context (Hstart : 0 < start) (Halign : start mod MIN_ALIGN = 0)
        (Hend : start + BLOCK_SIZE <= end_ < 2 ^ 64) (Hsize : (end_ - start) mod MIN_ALIGN = 0)
        (Hinit : init_range start end_ h0 = Ret tt h1) (Hrun : rtc heap_step (h1, []) (h, owned)).

(** C5: memory safety of the heap.  After any run of allocations,
    deallocations of owned blocks and writes by clients into the blocks they
    own, starting from a fresh range: every owned block is 16-byte aligned and
    inside the range, two owned blocks never overlap, and neither [alloc] nor
    [dealloc] of an owned block panics, hands out memory a client owns or
    changes a byte of any block that stays owned. *)
Theorem heap_safe :
  (forall b, b ∈ owned -> b.1 mod MIN_ALIGN = 0 /\ start + BLOCK_SIZE <= b.1 /\ b.1 + b.2 <= end_) /\
  (forall i j b c, owned !! i = Some b -> owned !! j = Some c -> i <> j ->
     b.1 + b.2 <= c.1 \/ c.1 + c.2 <= b.1) /\
  (forall size, 0 < size < 2 ^ 63 -> exists p h', alloc size h = Ret p h' /\
     (p = 0 \/ forall b, b ∈ owned -> p + size <= b.1 \/ b.1 + b.2 <= p) /\
     forall b x, b ∈ owned -> in_block b x -> hmem h' x = hmem h x) /\
  (forall i b, owned !! i = Some b -> exists h', dealloc b.1 h = Ret tt h' /\
     forall j c x, owned !! j = Some c -> j <> i -> in_block c x -> hmem h' x = hmem h x).
Proof.
  pose proof (heap_run_inv start end_ h0 h1 h owned Hstart Halign Hend Hsize Hinit Hrun) as Hri.
  pose proof Hri as (Hb & Ht & _).
  destruct (owned_block _ _ _ _ Hri) as (bs & Hinv & Hnd & Hown).
  assert (sizes_ok bs) as Hs by apply Hinv. split_and!.
  - intros b [i Hi]%list_elem_of_lookup. destruct (Hown i b Hi) as (c & [Hf1 Hf2] & Hc & _).
    rewrite <- Hb in Hc. destruct (live_shape h bs c Hinv Hc) as (? & ? & ? & ?). rewrite Hf1. split_and!; lia.
  - intros i j b c Hi Hj Hne. destruct (Hown i b Hi) as (b' & Hfb & Hb' & _).
    destruct (Hown j c Hj) as (c' & Hfc & Hc' & Hne'). specialize (Hne' i b b' Hi Hne Hfb Hb').
    destruct (live_disjoint _ _ b' c' Hs Hb' Hc') as [->|]; [done|]. unfold fits, BLOCK_SIZE in *. lia.
  - intros size Hsz. destruct (alloc_spec h bs size Hinv ltac:(lia))
      as [[Hr _]|(p & sz & h' & bs' & Hr & Hinv' & Hb' & _ & Hsz' & Hl' & _ & Hfr & _)].
    { exists 0, h. split_and!; [done|by left|done]. }
    exists p, h'. split; [done|]. rewrite Hb in Hl', Hfr.
    destruct (align_up16 size ltac:(lia)) as [? _].
    assert (NoDup ((p, sz) :: live start bs)) as Hnd'.
    { rewrite <- Hl'. apply live_NoDup, Hinv'. }
    apply NoDup_cons in Hnd' as [Hnew _]. split.
    + right. intros b [i Hi]%list_elem_of_lookup. destruct (Hown i b Hi) as (c & Hfit & Hc & _).
      destruct (live_disjoint start bs' (p, sz) c) as [<-|]; [apply Hinv'|rewrite Hl'; by left|rewrite Hl'; by right|done|].
      unfold fits, BLOCK_SIZE in *; simpl in *. lia.
    + intros b x [i Hi]%list_elem_of_lookup Hx. destruct (Hown i b Hi) as (c & Hfit & Hc & _).
      eapply Hfr; [done|]. by eapply fits_in_block.
  - intros i b Hi. destruct (Hown i b Hi) as ([q sz] & Hfit & Hc & Hne). rewrite <- Hb in Hc.
    destruct (dealloc_spec h bs q sz Hinv Hc) as (h' & bs' & Hr & _ & _ & _ & Hl' & _ & Hfr).
    exists h'. assert (b.1 = q) as -> by apply Hfit. split; [done|]. rewrite Hb in *.
    intros j c x Hj Hji Hx. destruct (Hown j c Hj) as (c' & Hfit' & Hc' & _).
    specialize (Hne j c c' Hj Hji Hfit' Hc'). rewrite Hl' in Hc'. apply elem_of_cons in Hc' as [->|Hc']; [done|].
    eapply Hfr; [done|]. by eapply fits_in_block.
Qed.

(** C18: no space is ever lost.  When every owned block has been given back,
    whatever the order, the range is one free block again: any request of at
    most its size (less one header) succeeds, at the start of the range. *)
Theorem heap_fully_coalesces :
  owned = [] ->
  block_size (hmem h) start = end_ - start - BLOCK_SIZE /\ head (hstate h) = start /\
  forall size, 0 < size < 2 ^ 63 -> size <= end_ - start - BLOCK_SIZE ->
    exists h', alloc size h = Ret (start + BLOCK_SIZE) h'.
Proof.
  intros Hnil.
  destruct (heap_run_inv start end_ h0 h1 h owned Hstart Halign Hend Hsize Hinit Hrun)
    as (Hb & Ht & bs & blocks & Hinv & Hl & Hf).
  rewrite Hnil in Hf. apply Forall2_nil_inv_l in Hf as ->.
  pose proof Hinv as (_ & _ & _ & Hext & Hs & Hco & Hseg & Hhd & _).
  assert (bs = [(end_ - start - BLOCK_SIZE, true)]) as ->.
  { apply Permutation_nil_r in Hl. destruct bs as [|[s []] bs].
    - simpl in Hext. unfold BLOCK_SIZE in *. lia.
    - destruct bs as [|[s' []] bs]; [|simpl in Hco; naive_solver|done].
      simpl in Hext. unfold span in Hext; simpl in Hext. repeat f_equal. lia.
    - done. }
  rewrite Hb in Hseg, Hhd. simpl in Hseg, Hhd. split; [apply Hseg|split; [done|]]. intros size Hsz Hle.
  destruct (align_up16 size ltac:(lia)) as [Hal Hal2].
  assert (align_up size MIN_ALIGN <= end_ - start - BLOCK_SIZE) as Hfit.
  { apply Forall_cons in Hs as [[_ Hm] _]. simpl in Hm. unfold MIN_ALIGN in *. zlia. }
  destruct (alloc_spec h _ size Hinv ltac:(lia))
    as [[_ Hsm]|(p & sz & h' & bs' & Hr & _ & _ & _ & _ & _ & _ & _ & pre & s & post & Hbs & _ & -> & _)].
  { apply Forall_cons in Hsm as [Hsm _]. simpl in Hsm. specialize (Hsm eq_refl). lia. }
  exists h'. rewrite Hr. destruct pre as [|c pre]; [simpl; f_equal; lia|].
  apply (f_equal length) in Hbs. simpl in Hbs. rewrite length_app in Hbs. simpl in Hbs. lia.
Qed.
End heap_runs.

(** A heap of 256 bytes for the witnesses. *)
Definition blank : heap := mk_heap (fun _ => 0) new.
Definition demo : heap := ret_state blank (init_range 4096 4352 blank).
Definition demo1 : heap := ret_state blank (alloc 20 demo).
Definition demo2 : heap := ret_state blank (alloc 40 demo1).
Lemma global_small size p h h' : alloc size h = Ret p h' -> global_alloc size 8 h = Ret p h'.
Proof. done. Qed.
Lemma demo_steps : rtc heap_step (demo, []) (demo2, [(4160, 40); (4112, 20)]).
Proof.
  eapply rtc_l; [|eapply rtc_l; [|apply rtc_refl]].
  - apply (step_alloc demo demo1 4112 20 8 []); [lia|]. apply global_small. unfold demo1 at 1.
    apply (ret_intro blank (alloc 20 demo) 4112). vm_compute. reflexivity.
  - apply (step_alloc demo1 demo2 4160 40 8 [(4112, 20)]); [lia|]. apply global_small. unfold demo2 at 1.
    apply (ret_intro blank (alloc 40 demo1) 4160). vm_compute. reflexivity.
Qed.

Example heap_safe_witness :
  (init_range 4096 4352 blank = Ret tt demo /\ rtc heap_step (demo, []) (demo2, [(4160, 40); (4112, 20)])) /\
  (exists p h', alloc 30 demo2 = Ret p h' /\ (p = 0 \/ forall b, b ∈ [(4160, 40); (4112, 20)] -> p + 30 <= b.1 \/ b.1 + b.2 <= p)).
Proof.
  assert (init_range 4096 4352 blank = Ret tt demo) as Hi by reflexivity.
  split; [split; [exact Hi|exact demo_steps]|].
  destruct (heap_safe 4096 4352 _ demo demo2 [(4160, 40); (4112, 20)] ltac:(lia) eq_refl
    ltac:(unfold BLOCK_SIZE; lia) eq_refl Hi) as (_ & _ & Ha & _).
  { exact demo_steps. }
  destruct (Ha 30 ltac:(lia)) as (p & h' & ? & ? & _). exists p, h'. split; assumption.
Defined.
Example heap_fully_coalesces_witness :
  (init_range 4096 4352 blank = Ret tt demo /\ rtc heap_step (demo, []) (demo, [])) /\
  block_size (hmem demo) 4096 = 240 /\ head (hstate demo) = 4096.
Proof.
  assert (init_range 4096 4352 blank = Ret tt demo) as Hi by reflexivity.
  split; [split; [exact Hi|apply rtc_refl]|].
  destruct (heap_fully_coalesces 4096 4352 _ demo demo [] ltac:(lia) eq_refl
    ltac:(unfold BLOCK_SIZE; lia) eq_refl Hi (rtc_refl _ _) eq_refl) as (? & ? & _). by split.
Defined.

(** C26: the byte counter drifts.  On a fresh range, allocate a size that
    leaves exactly one header's worth behind (so the block is not split) and
    give it back: nothing is allocated, but [allocated] has gone below zero and
    wrapped, and [free_bytes] exceeds [total]. *)
Theorem allocated_counter_drifts start end_ h0 h1 :
  0 < start -> start mod MIN_ALIGN = 0 -> start + 4 * BLOCK_SIZE <= end_ < 2 ^ 63 ->
  (end_ - start) mod MIN_ALIGN = 0 -> init_range start end_ h0 = Ret tt h1 ->
  exists h2 h3, alloc (end_ - start - 2 * BLOCK_SIZE) h1 = Ret (start + BLOCK_SIZE) h2 /\
    dealloc (start + BLOCK_SIZE) h2 = Ret tt h3 /\
    allocated (hstate h3) = 2 ^ 64 - MIN_ALIGN /\ free_bytes h3 = total (hstate h3) + MIN_ALIGN.
Proof.
  intros H0 Hm Hle Hm2 Hi.
  destruct (init_range_spec start end_ h0 H0 Hm ltac:(unfold BLOCK_SIZE in *; lia) Hm2)
    as (h1' & Hi' & Hinv & Hb & Ht & Hal). rewrite Hi in Hi'. injection Hi' as <-.
  set (T := end_ - start) in *.
  assert (align_up (T - 2 * BLOCK_SIZE) MIN_ALIGN = T - 2 * BLOCK_SIZE) as Hau.
  { destruct (align_up16 (T - 2 * BLOCK_SIZE)) as [? ?]; unfold T, BLOCK_SIZE, MIN_ALIGN in *; [lia|zlia]. }
  destruct (alloc_spec h1 _ (T - 2 * BLOCK_SIZE) Hinv ltac:(unfold T, BLOCK_SIZE in *; lia))
    as [[_ Hsm]|(p & sz & h2 & bs' & Hr & Hinv2 & Hb2 & Ht2 & _ & Hl & Hal2 & _ & pre & s & post & Hbs & _ & -> & Hsz)].
  { apply Forall_cons in Hsm as [Hsm _]. simpl in Hsm. rewrite Hau in Hsm. specialize (Hsm eq_refl).
    unfold BLOCK_SIZE in *. lia. }
  destruct pre as [|c pre]; [|apply (f_equal length) in Hbs; simpl in Hbs; rewrite length_app in Hbs; simpl in Hbs; lia].
  injection Hbs as <- <-. rewrite Hau, Hb in *. simpl in Hr, Hl. rewrite Z.add_0_r in Hr, Hl.
  assert (sz = T - BLOCK_SIZE) as ->.
  { destruct Hsz as [|[_ ?]]; unfold BLOCK_SIZE, MIN_ALIGN in *; lia. }
  destruct (dealloc_spec h2 bs' (start + BLOCK_SIZE) (T - BLOCK_SIZE) Hinv2) as (h3 & bs3 & Hd & _ & Hb3 & Ht3 & _ & Hal3 & _).
  { rewrite Hb2, Hl. by left. }
  exists h2, h3. split_and!; [done|done| |]; unfold free_bytes; rewrite Hal3, ?Ht3, ?Ht2, Hal2, Hal, ?Ht;
    unfold wrap, MIN_ALIGN, BLOCK_SIZE in *; rewrite (Z.mod_small (0 + _)) by lia;
    replace (0 + (T - 2 * 16) - (T - 16)) with (-16) by lia; [done|].
  change (-16 mod 2 ^ 64) with (2 ^ 64 - 16).
  replace (T - (2 ^ 64 - 16)) with (T + 16 + (-1) * 2 ^ 64) by lia.
  rewrite Z_mod_plus_full. apply Z.mod_small. unfold T in *. lia.
Qed.

Example allocated_counter_drifts_witness :
  init_range 4096 4352 blank = Ret tt demo /\
  exists h2 h3, alloc 224 demo = Ret 4112 h2 /\ dealloc 4112 h2 = Ret tt h3 /\
    allocated (hstate h3) = 2 ^ 64 - 16 /\ free_bytes h3 = total (hstate h3) + 16.
Proof.
  assert (init_range 4096 4352 blank = Ret tt demo) as Hi by reflexivity. split; [exact Hi|].
  apply (allocated_counter_drifts 4096 4352 blank demo); [lia|done|unfold BLOCK_SIZE; lia|done|exact Hi].
Defined.
