(* ===== verification/Paging.v ===== *)
(** * Page tables, [paging.rs]

    The kernel edits the four-level page tables it and its processes run on as
    ordinary memory.  The model does the same, on a machine made of physical
    memory and the frame bitmap; the specification is the translation the
    hardware's page walk reads off those tables. *)
From S2P Require Import Prelude Bytes PhysMem Pmm.

Record machine := mk_machine { ram : mem; frames : pmm }.

Definition IDENTITY_MAP_END : Z := 4 * 1024 * 1024 * 1024.
Definition PAGE_SIZE : Z := 4096.
Definition PAGE_PRESENT : Z := 1.
Definition PAGE_WRITABLE : Z := 2.
Definition PAGE_USER : Z := 4.
Definition PAGE_NX : Z := Z.shiftl 1 63.
Definition PRESENT_MASK : Z := Z.lor 0xFFF PAGE_NX.
Definition PS_BIT : Z := Z.shiftl 1 7.
Definition ADDR_MASK : Z := 0x000FFFFFFFFFF000.

Definition is_identity_mapped (addr len : Z) : bool :=
  match checked_add 64 addr len with
  | Some end_ => end_ <=? IDENTITY_MAP_END
  | None => false
  end.
Definition table_base (entry : Z) : Z := Z.land entry ADDR_MASK.

(** Table edits run on the machine and the caller's list of allocated frames. *)
Definition VM : Type -> Type := ST (machine * list Z).
(** [( p as *mut u64).add(i)] *)
Definition entry_ptr (table i : Z) : Z := table + 8 * i.
Definition read_entry (p : Z) : VM Z := fun s => Ret (read_u64 (ram s.1) p) s.
Definition write_ram (f : mem -> mem) : VM unit :=
  modify (fun s => (mk_machine (f (ram s.1)) (frames s.1), s.2)).
Definition write_entry (p v : Z) : VM unit := write_ram (fun m => write_u64 m p v).
Definition frame_alloc_vm : VM (option Z) := fun s =>
  match frame_alloc (frames s.1) with
  | Ret r fs => Ret r (mk_machine (ram s.1) fs, s.2)
  | Panic => Panic
  end.
(** [if let Some(frames) = allocated_frames { frames.push(frame) }] *)
Definition push_frame (track : bool) (frame : Z) : VM unit :=
  modify (fun s => (s.1, if track then s.2 ++ [frame] else s.2)).

(** [if entry_flags & PAGE_USER != 0 && e & PAGE_USER == 0 { *p |= PAGE_USER }] *)
Definition promote (entry_flags p : Z) : VM unit :=
  e ← read_entry p;
  if is_set entry_flags PAGE_USER && negb (is_set e PAGE_USER)
  then write_entry p (Z.lor e PAGE_USER) else mret tt.

(** The loop that fills the page table of a split entry. *)
Fixpoint fill_split (n : nat) (pt i phys_base page_flags : Z) : VM unit :=
  match n with
  | O => mret tt
  | S n =>
      write_entry (entry_ptr pt i) (Z.lor (wrap 64 (phys_base + i * PAGE_SIZE)) page_flags);;
      fill_split n pt (i + 1) phys_base page_flags
  end.

#[local] Arguments fill_split : simpl never.
#[local] Arguments Z.shiftl : simpl never.
#[local] Arguments Z.sub : simpl never.

(** The page-directory level of [pt_entry_ptr_in]. *)
Definition pd_step (entry_flags : Z) (track : bool) (virt pd_base : Z) : VM (option Z) :=
  let pd_idx := Z.land (Z.shiftr virt 21) 0x1FF in
  let pt_idx := Z.land (Z.shiftr virt 12) 0x1FF in
  pde ← read_entry (entry_ptr pd_base pd_idx);
  if negb (is_set pde PAGE_PRESENT) then
    f ← frame_alloc_vm;
    match f with
    | None => mret None
    | Some frame =>
        write_ram (fun m => mem_fill m frame FRAME_SIZE 0);;
        push_frame track frame;;
        write_entry (entry_ptr pd_base pd_idx) (Z.lor (Z.lor frame entry_flags) PAGE_PRESENT);;
        mret (Some (entry_ptr frame pt_idx))
    end
  else if is_set pde PS_BIT then
    f ← frame_alloc_vm;
    match f with
    | None => mret None
    | Some frame =>
        push_frame track frame;;
        let phys_base := Z.land pde (unot 64 (Z.shiftl 1 21 - 1)) in
        let page_flags := Z.land (Z.land pde PRESENT_MASK) (unot 64 PS_BIT) in
        fill_split 512 frame 0 phys_base page_flags;;
        write_entry (entry_ptr pd_base pd_idx)
          (Z.lor (Z.lor frame (Z.land (Z.land pde PRESENT_MASK) (unot 64 PS_BIT)))
                 (Z.land entry_flags PAGE_USER));;
        mret (Some (entry_ptr frame pt_idx))
    end
  else
    promote entry_flags (entry_ptr pd_base pd_idx);;
    mret (Some (entry_ptr (table_base pde) pt_idx)).

Definition pt_entry_ptr_in (pml4_base virt entry_flags : Z) (track : bool) : VM (option Z) :=
  let pml4_idx := Z.land (Z.shiftr virt 39) 0x1FF in
  let pdpt_idx := Z.land (Z.shiftr virt 30) 0x1FF in
  pml4e ← read_entry (entry_ptr pml4_base pml4_idx);
  if negb (is_set pml4e PAGE_PRESENT) then mret None else
  promote entry_flags (entry_ptr pml4_base pml4_idx);;
  pdpte ← read_entry (entry_ptr (table_base pml4e) pdpt_idx);
  if negb (is_set pdpte PAGE_PRESENT) || is_set pdpte PS_BIT then mret None else
  promote entry_flags (entry_ptr (table_base pml4e) pdpt_idx);;
  pd_step entry_flags track virt (table_base pdpte).

(** The range test shared by [map_range_in] and [unmap_range_in]. *)
Definition bad_range (virt len : Z) : bool :=
  negb (virt mod PAGE_SIZE =? 0) || negb (len mod PAGE_SIZE =? 0) || (len =? 0) ||
  (match checked_add 64 virt len with None => true | Some _ => false end) ||
  (IDENTITY_MAP_END <? wrap 64 (virt + len)).
Definition leaf_entry (p flags : Z) : Z := Z.lor (Z.lor p (Z.land flags PRESENT_MASK)) PAGE_PRESENT.

(** The [while v < end] loops, one page per iteration. *)
Fixpoint map_pages (n : nat) (pml4_base v p flags : Z) : VM bool :=
  match n with
  | O => mret true
  | S n =>
      entry ← pt_entry_ptr_in pml4_base v (Z.land flags PRESENT_MASK) true;
      match entry with
      | None => mret false
      | Some entry =>
          write_entry entry (leaf_entry p flags);;
          map_pages n pml4_base (v + PAGE_SIZE) (p + PAGE_SIZE) flags
      end
  end.
Definition map_range_in (pml4_base virt phys len flags : Z) : VM bool :=
  if bad_range virt len || negb (phys mod PAGE_SIZE =? 0) then mret false
  else map_pages (Z.to_nat (len / PAGE_SIZE)) pml4_base virt phys flags.

Fixpoint unmap_pages (n : nat) (pml4_base v : Z) : VM unit :=
  match n with
  | O => mret tt
  | S n =>
      entry ← pt_entry_ptr_in pml4_base v 0 false;
      (match entry with Some entry => write_entry entry 0 | None => mret tt end);;
      unmap_pages n pml4_base (v + PAGE_SIZE)
  end.
Definition unmap_range_in (pml4_base virt len : Z) : VM bool :=
  if bad_range virt len then mret false
  else unmap_pages (Z.to_nat (len / PAGE_SIZE)) pml4_base virt;; mret true.

(** [kernel_pml4] is the address of the boot map, a linker symbol. *)
Definition map_page (kernel_pml4 virt phys flags : Z) : VM bool :=
  if (IDENTITY_MAP_END <=? virt) || (IDENTITY_MAP_END <=? phys) ||
     negb (virt mod PAGE_SIZE =? 0) || negb (phys mod PAGE_SIZE =? 0) then mret false
  else
    entry ← pt_entry_ptr_in kernel_pml4 virt (Z.land flags PRESENT_MASK) false;
    match entry with
    | None => mret false
    | Some entry => write_entry entry (leaf_entry phys flags);; mret true
    end.
Definition unmap_page (kernel_pml4 virt : Z) : VM bool :=
  if (IDENTITY_MAP_END <=? virt) || negb (virt mod PAGE_SIZE =? 0) then mret false
  else
    entry ← pt_entry_ptr_in kernel_pml4 virt (Z.lor PAGE_PRESENT PAGE_WRITABLE) false;
    match entry with
    | None => mret false
    | Some entry => write_entry entry 0;; mret true
    end.

(** ** The hardware's page walk

    [walk] gives the physical address a virtual one translates to and the
    entries passed through, the leaf last. *)
Definition index (level v : Z) : Z := v / 2 ^ level mod 512.
Definition entry_at (m : mem) (table i : Z) : Z := read_u64 m (entry_ptr table i).

Definition walk (m : mem) (pml4 v : Z) : option (Z * list Z) :=
  let e4 := entry_at m pml4 (index 39 v) in
  if negb (is_set e4 PAGE_PRESENT) then None else
  let e3 := entry_at m (table_base e4) (index 30 v) in
  if negb (is_set e3 PAGE_PRESENT) then None else
  if is_set e3 PS_BIT then Some (table_base e3 / 2 ^ 30 * 2 ^ 30 + v mod 2 ^ 30, [e4; e3]) else
  let e2 := entry_at m (table_base e3) (index 21 v) in
  if negb (is_set e2 PAGE_PRESENT) then None else
  if is_set e2 PS_BIT then Some (table_base e2 / 2 ^ 21 * 2 ^ 21 + v mod 2 ^ 21, [e4; e3; e2]) else
  let e1 := entry_at m (table_base e2) (index 12 v) in
  if negb (is_set e1 PAGE_PRESENT) then None else
  Some (table_base e1 + v mod 4096, [e4; e3; e2; e1]).

(** Writable, user and no-execute bits of an entry. *)
Definition PERM_MASK : Z := Z.lor (Z.lor PAGE_WRITABLE PAGE_USER) PAGE_NX.
Definition perms (e : Z) : Z := Z.land e PERM_MASK.
(** The translation and the permissions of the page's own entry. *)
Definition translate (m : mem) (pml4 v : Z) : option (Z * Z) :=
  '(phys, path) ← walk m pml4 v; Some (phys, perms (default 0 (last path))).
(** Ring 3 can reach the page: every entry on the path has the user bit. *)
Definition user_path (m : mem) (pml4 v : Z) : bool :=
  match walk m pml4 v with
  | Some (_, path) => forallb (fun e => is_set e PAGE_USER) path
  | None => false
  end.

(** ** Entries as a two-dimensional array *)
Definition aligned (t : Z) : Prop := t mod 4096 = 0.
Definition set_entry (m : mem) (t i v : Z) : mem := write_u64 m (entry_ptr t i) v.
Definition slot (i : Z) : Prop := 0 <= i < 512.

Lemma index_slot l v : slot (index l v).
Proof. apply Z.mod_pos_bound. lia. Qed.
Lemma index_bits l v : 0 <= v -> 0 <= l -> Z.land (Z.shiftr v l) 0x1FF = index l v.
Proof.
  intros. change 0x1FF with (Z.ones 9). rewrite Z.land_ones, Z.shiftr_div_pow2 by lia. done.
Qed.
Lemma entry_apart t t' i i' :
  aligned t -> aligned t' -> slot i -> slot i' -> (t', i') <> (t, i) ->
  entry_ptr t' i' + 8 <= entry_ptr t i \/ entry_ptr t i + 8 <= entry_ptr t' i'.
Proof.
  unfold aligned, slot, entry_ptr. intros.
  destruct (decide (t = t')) as [->|]; [|zlia].
  assert (i <> i') by congruence. lia.
Qed.
Lemma entry_at_set m t i v t' i' :
  aligned t -> aligned t' -> slot i -> slot i' ->
  entry_at (set_entry m t i v) t' i' = if decide ((t', i') = (t, i)) then wrap 64 v else entry_at m t' i'.
Proof.
  intros. unfold entry_at, set_entry. case_decide as E.
  - injection E as -> ->. apply load_store_same.
  - apply load_store_disj. by apply (entry_apart t t' i i').
Qed.
Lemma set_entry_frame m t i v x :
  slot i -> ~ (t <= x < t + 4096) -> set_entry m t i v x = m x.
Proof. intros Hi Hx. apply store_frame. unfold entry_ptr, slot in *. lia. Qed.
Lemma entry_at_ext m1 m2 t i :
  slot i -> (forall x, t <= x < t + 4096 -> m1 x = m2 x) -> entry_at m1 t i = entry_at m2 t i.
Proof. intros Hi Hx. apply load_ext. intros x Hx'. apply Hx. unfold entry_ptr, slot in *. lia. Qed.
Lemma entry_at_bound m t i : mem_wf m -> in_u 64 (entry_at m t i).
Proof. apply load_bound. Qed.
Lemma page_apart t t' x : aligned t -> aligned t' -> t <> t' -> t <= x < t + 4096 -> ~ (t' <= x < t' + 4096).
Proof. unfold aligned. intros. zlia. Qed.

(** ** Bits of an entry *)
Lemma is_set_testbit x k : 0 <= k -> is_set x (2 ^ k) = Z.testbit x k.
Proof. intros. rewrite <- (Z.shiftl_1_l k). by apply is_set_bit. Qed.
Lemma present_bit e : is_set e PAGE_PRESENT = Z.testbit e 0.
Proof. apply (is_set_testbit e 0). lia. Qed.
Lemma user_bit e : is_set e PAGE_USER = Z.testbit e 2.
Proof. apply (is_set_testbit e 2). lia. Qed.
Lemma ps_bit e : is_set e PS_BIT = Z.testbit e 7.
Proof. apply (is_set_bit e 7). lia. Qed.

Lemma testbit_ones_at n i : 0 <= n -> 0 <= i -> Z.testbit (Z.ones n) i = (i <? n).
Proof.
  intros. destruct (Z.ltb_spec i n); [apply Z.ones_spec_low; lia|apply Z.ones_spec_high; lia].
Qed.
Lemma addr_mask_bit i : 0 <= i -> Z.testbit ADDR_MASK i = (12 <=? i) && (i <? 52).
Proof.
  intros. change ADDR_MASK with (Z.shiftl (Z.ones 40) 12). rewrite Z.shiftl_spec by lia.
  destruct (Z.leb_spec 12 i).
  - rewrite testbit_ones_at by lia. destruct (Z.ltb_spec (i - 12) 40), (Z.ltb_spec i 52); done || lia.
  - rewrite Z.testbit_neg_r by lia. done.
Qed.
Lemma present_mask_bit i : 0 <= i -> Z.testbit PRESENT_MASK i = (i <? 12) || (i =? 63).
Proof.
  intros. unfold PRESENT_MASK, PAGE_NX. change 0xFFF with (Z.ones 12).
  rewrite Z.lor_spec, shiftl1_testbit, testbit_ones_at by lia. done.
Qed.
Lemma perm_mask_bit i : 0 <= i -> Z.testbit PERM_MASK i = (i =? 1) || (i =? 2) || (i =? 63).
Proof.
  intros. unfold PERM_MASK, PAGE_NX. change PAGE_WRITABLE with (Z.shiftl 1 1).
  change PAGE_USER with (Z.shiftl 1 2). by rewrite !Z.lor_spec, !shiftl1_testbit by lia.
Qed.
Lemma pow2_bit k i : 0 <= k -> 0 <= i -> Z.testbit (2 ^ k) i = (i =? k).
Proof. intros. rewrite <- (Z.shiftl_1_l k). by apply shiftl1_testbit. Qed.
Lemma aligned_bit a i : aligned a -> 0 <= i < 12 -> Z.testbit a i = false.
Proof.
  unfold aligned. intros Ha Hi. rewrite <- (Z.mod_pow2_bits_low a 12) by lia.
  change (2 ^ 12) with 4096. rewrite Ha. apply Z.bits_0.
Qed.
Lemma aligned_of_bits a : (forall i, 0 <= i < 12 -> Z.testbit a i = false) -> aligned a.
Proof.
  intros H. unfold aligned. change 4096 with (2 ^ 12). apply Z.bits_inj'. intros i Hi.
  rewrite Z.bits_0. destruct (decide (i < 12)); [rewrite Z.mod_pow2_bits_low by lia; apply H; lia|].
  apply Z.mod_pow2_bits_high. lia.
Qed.
Lemma table_base_aligned e : aligned (table_base e).
Proof.
  apply aligned_of_bits. intros i Hi. unfold table_base. rewrite Z.land_spec, addr_mask_bit by lia.
  rewrite (proj2 (Z.leb_gt 12 i)) by lia. apply andb_false_r.
Qed.
Lemma table_base_nonneg e : 0 <= table_base e.
Proof. apply Z.land_nonneg. right. unfold ADDR_MASK. lia. Qed.

(** Close an equation between 64-bit words bit by bit. *)
Ltac bits :=
  apply Z.bits_inj'; intros bit Hbit;
  rewrite ?Z.land_spec, ?Z.lor_spec, ?addr_mask_bit, ?present_mask_bit, ?perm_mask_bit, ?pow2_bit by lia.

(** An entry made of an address and attribute bits gives both back. *)
Lemma table_base_lor a fl :
  aligned a -> in_u 52 a -> (forall i, 12 <= i < 52 -> Z.testbit fl i = false) ->
  table_base (Z.lor a fl) = a.
Proof.
  intros Ha Hu Hf. unfold table_base. bits.
  destruct (Z.leb_spec 12 bit), (Z.ltb_spec bit 52); simpl; rewrite ?andb_true_r, ?andb_false_r.
  - rewrite Hf by lia. apply orb_false_r.
  - symmetry. apply (testbit_high 52); [done|lia].
  - symmetry. apply aligned_bit; [done|lia].
  - lia.
Qed.
Lemma attr_bit fl i : 12 <= i < 52 -> Z.testbit (Z.land fl PRESENT_MASK) i = false.
Proof.
  intros. rewrite Z.land_spec, present_mask_bit by lia.
  rewrite (proj2 (Z.ltb_ge i 12)), (proj2 (Z.eqb_neq i 63)) by lia. apply andb_false_r.
Qed.

Lemma land_eq_bit x y i : Z.land x y = x -> 0 <= i -> Z.testbit y i = false -> Z.testbit x i = false.
Proof. intros <- ? Hy. by rewrite Z.land_spec, Hy, andb_false_r. Qed.

(** ** Virtual addresses *)
Definition low (v : Z) : Prop := 0 <= v < IDENTITY_MAP_END.
Definition region (v : Z) : Z := v / 2 ^ 21.
Lemma region_low v : low v -> 0 <= region v < 2048.
Proof. unfold low, region, IDENTITY_MAP_END. intros. zlia. Qed.
Lemma index39 v : low v -> index 39 v = 0.
Proof. unfold low, index, IDENTITY_MAP_END. intros. change (2 ^ 39) with 549755813888. zlia. Qed.
Lemma index30 v : low v -> index 30 v = region v / 512.
Proof.
  unfold low, index, region, IDENTITY_MAP_END. intros. change (2 ^ 30) with 1073741824.
  change (2 ^ 21) with 2097152. zlia.
Qed.
Lemma index21 v : index 21 v = region v mod 512.
Proof. done. Qed.
Lemma region_slot v : low v -> 0 <= region v / 512 < 4.
Proof. intros Hv%region_low. zlia. Qed.

Definition leaf_value (e v : Z) : option (Z * Z) :=
  if negb (is_set e PAGE_PRESENT) then None else Some (table_base e + v mod 4096, perms e).
Definition page (v : Z) : Z := v / 4096.
Lemma same_page v v' :
  region v = region v' -> index 12 v = index 12 v' -> page v = page v'.
Proof. unfold region, index, page. change (2 ^ 21) with 2097152. change (2 ^ 12) with 4096. intros. zlia. Qed.
Lemma page_region v v' : page v = page v' -> region v = region v' /\ index 12 v = index 12 v'.
Proof.
  unfold region, index, page. change (2 ^ 21) with 2097152. change (2 ^ 12) with 4096. intros.
  split; [zlia|]. by f_equal.
Qed.

(** ** A well-formed address space

    Of the tables reachable below [IDENTITY_MAP_END]: one PML4 [P], one
    directory-pointer table [D], four page directories [PD k], and the page
    tables [PD] points to, all in distinct pages that the frame allocator will
    not hand out. *)
Section space.
Context (P D : Z) (PD : Z -> Z).

Definition pd_entry (m : mem) (j : Z) : Z := entry_at m (PD (j / 512)) (j mod 512).
(** The page table of the 2 MiB region [j], if it has one. *)
Definition pt_of (m : mem) (j : Z) : option Z :=
  let e := pd_entry m j in
  if is_set e PAGE_PRESENT && negb (is_set e PS_BIT) then Some (table_base e) else None.

Inductive table_id := T4 | T3 | T2 (k : Z) | T1 (j : Z).
Global Instance table_id_eq : EqDecision table_id.
Proof. solve_decision. Defined.
Definition table (m : mem) (id : table_id) : option Z :=
  match id with
  | T4 => Some P
  | T3 => Some D
  | T2 k => if (0 <=? k) && (k <? 4) then Some (PD k) else None
  | T1 j => if (0 <=? j) && (j <? 2048) then pt_of m j else None
  end.

Record space_wf (m : mem) (s : pmm) : Prop := {
  wf_mem : mem_wf m;
  wf_pmm : pmm_wf s;
  wf_e4 : is_set (entry_at m P 0) PAGE_PRESENT = true /\ table_base (entry_at m P 0) = D;
  wf_e3 : forall k, 0 <= k < 4 ->
    is_set (entry_at m D k) PAGE_PRESENT = true /\ is_set (entry_at m D k) PS_BIT = false /\
    table_base (entry_at m D k) = PD k;
  wf_table : forall id t, table m id = Some t ->
    aligned t /\ 0 <= t /\ (frame_ok (t / 4096) -> used s (t / 4096) = true);
  wf_inj : forall id1 id2 t, table m id1 = Some t -> table m id2 = Some t -> id1 = id2
}.

Lemma table_T2 m k : 0 <= k < 4 -> table m (T2 k) = Some (PD k).
Proof. intros. simpl. by rewrite (proj2 (Z.leb_le 0 k)), (proj2 (Z.ltb_lt k 4)) by lia. Qed.
Lemma table_T1 m j : 0 <= j < 2048 -> table m (T1 j) = pt_of m j.
Proof. intros. simpl. by rewrite (proj2 (Z.leb_le 0 j)), (proj2 (Z.ltb_lt j 2048)) by lia. Qed.

(** In such a space the walk depends on the page directory entry only. *)
Definition leaf_of (m : mem) (v : Z) : option (Z * Z) :=
  let e2 := pd_entry m (region v) in
  if negb (is_set e2 PAGE_PRESENT) then None else
  if is_set e2 PS_BIT then Some (table_base e2 / 2 ^ 21 * 2 ^ 21 + v mod 2 ^ 21, perms e2) else
  let e1 := entry_at m (table_base e2) (index 12 v) in
  if negb (is_set e1 PAGE_PRESENT) then None else Some (table_base e1 + v mod 4096, perms e1).
Definition dir_user (m : mem) (v : Z) : bool :=
  is_set (entry_at m P 0) PAGE_USER && is_set (entry_at m D (region v / 512)) PAGE_USER &&
  is_set (pd_entry m (region v)) PAGE_USER && is_set (pd_entry m (region v)) PAGE_PRESENT.

Lemma translate_low m s v : space_wf m s -> low v -> translate m P v = leaf_of m v.
Proof.
  intros Hwf Hv. destruct (wf_e4 _ _ Hwf) as [H4 H4b].
  destruct (wf_e3 _ _ Hwf _ (region_slot v Hv)) as (H3 & H3s & H3b).
  unfold translate, walk. rewrite index39, index30, index21, H4, H4b, H3, H3s, H3b by done. simpl.
  unfold leaf_of, pd_entry. break_match; done.
Qed.
Lemma user_path_low m s v p e :
  space_wf m s -> low v -> translate m P v = Some (p, e) -> is_set e PAGE_USER = true ->
  dir_user m v = true -> user_path m P v = true.
Proof.
  intros Hwf Hv. destruct (wf_e4 _ _ Hwf) as [H4 H4b].
  destruct (wf_e3 _ _ Hwf _ (region_slot v Hv)) as (H3 & H3s & H3b).
  unfold translate, user_path, walk. rewrite index39, index30, index21, H4, H4b, H3, H3s, H3b by done. simpl.
  unfold dir_user, pd_entry. intros Ht Hu Hd. rewrite !andb_true_iff in Hd. destruct Hd as [[[Ha Hb] H2] _].
  assert (forall x, is_set (perms x) PAGE_USER = is_set x PAGE_USER) as Hp.
  { intros x. rewrite !user_bit. unfold perms. rewrite Z.land_spec, perm_mask_bit by lia. apply andb_true_r. }
  simpl. break_match; simplify_eq/=; rewrite ?Hp in Hu; rewrite ?Ha, ?Hb, ?H2, ?Hu; done.
Qed.

(** ** Extensions of a space

    What every edit short of writing a leaf does: the space stays well formed
    and translates as before, user bits are only added, memory changes only in
    table pages, and the frames taken were free and are now tables. *)
Definition took (s s' : pmm) (fs : list Z) : Prop :=
  LAST_USABLE_FRAME s' = LAST_USABLE_FRAME s /\
  (forall x, frame_ok x -> used s' x = used s x || bool_decide (x * FRAME_SIZE ∈ fs)) /\
  (forall f, f ∈ fs -> exists x, frame_ok x /\ f = x * FRAME_SIZE /\ used s x = false) /\
  NoDup fs.

Record extends (m : mem) (s : pmm) (m' : mem) (s' : pmm) (fs : list Z) : Prop := {
  ext_wf : space_wf m' s';
  ext_leaf : forall v, low v -> leaf_of m' v = leaf_of m v;
  ext_user : forall v, low v -> dir_user m v = true -> dir_user m' v = true;
  ext_table : forall id t, table m id = Some t -> table m' id = Some t;
  ext_frame : forall x, (forall id t, table m' id = Some t -> ~ (t <= x < t + 4096)) -> m' x = m x;
  ext_took : took s s' fs
}.

Lemma took_refl s : took s s [].
Proof.
  split_and!; [done| |by intros ? ?%not_elem_of_nil|constructor]. intros.
  rewrite bool_decide_eq_false_2, orb_false_r; [done|]. apply not_elem_of_nil.
Qed.
Lemma took_trans s1 s2 s3 fs1 fs2 : took s1 s2 fs1 -> took s2 s3 fs2 -> took s1 s3 (fs1 ++ fs2).
Proof.
  intros (L1 & U1 & F1 & N1) (L2 & U2 & F2 & N2).
  assert (forall f, f ∈ fs2 -> exists x, frame_ok x /\ f = x * FRAME_SIZE /\ used s1 x = false /\ f ∉ fs1) as Hf2.
  { intros f Hf. destruct (F2 f Hf) as (x & Hx & -> & Hu). exists x. rewrite U1 in Hu by done.
    apply orb_false_iff in Hu as [? ?%bool_decide_eq_false]. done. }
  split_and!; [congruence| | |].
  - intros x Hx. rewrite U2, U1 by done. rewrite <- orb_assoc. f_equal.
    apply eq_true_iff_eq. rewrite orb_true_iff, !bool_decide_eq_true, elem_of_app. done.
  - intros f [Hf|Hf]%elem_of_app; [auto|]. destruct (Hf2 f Hf) as (x & ? & ? & ? & _). by exists x.
  - apply NoDup_app. split_and!; [done| |done]. intros f H1 H2. by destruct (Hf2 f H2) as (x & _ & _ & _ & ?).
Qed.
Lemma extends_refl m s : space_wf m s -> extends m s m s [].
Proof. intros. split; auto using took_refl. Qed.
Lemma extends_trans m1 s1 m2 s2 m3 s3 fs1 fs2 :
  extends m1 s1 m2 s2 fs1 -> extends m2 s2 m3 s3 fs2 -> extends m1 s1 m3 s3 (fs1 ++ fs2).
Proof.
  intros [] []. split; eauto using took_trans.
  - intros v Hv. rewrite ext_leaf1 by done. auto.
  - intros x Hx. rewrite ext_frame1 by done. eauto.
Qed.

(** A directory entry rewritten without changing where it points. *)
Lemma extends_dir m s id t i e' :
  space_wf m s -> table m id = Some t -> (forall j, id <> T1 j) -> slot i ->
  let e := entry_at m t i in
  in_u 64 e' -> is_set e' PAGE_PRESENT = is_set e PAGE_PRESENT -> is_set e' PS_BIT = is_set e PS_BIT ->
  table_base e' = table_base e -> (is_set e PAGE_USER = true -> is_set e' PAGE_USER = true) ->
  ((exists k, id = T2 k) -> is_set e PS_BIT = false) ->
  extends m s (set_entry m t i e') s [].
Proof.
  intros Hwf Ht Hid Hi e He' Hpr Hps Htb Hus Hleaf. set (m' := set_entry m t i e').
  destruct (wf_table _ _ Hwf _ _ Ht) as (Hal & _).
  assert (forall id' t' i', table m id' = Some t' -> slot i' -> id' <> id \/ i' <> i ->
    entry_at m' t' i' = entry_at m t' i') as Hother.
  { intros id' t' i' Ht' Hi' Hne. destruct (wf_table _ _ Hwf _ _ Ht') as (Hal' & _).
    unfold m'. rewrite entry_at_set by done. rewrite decide_False; [done|]. intros [= -> ->].
    destruct Hne as [Hne|]; [|done]. by eapply Hne, (wf_inj _ _ Hwf). }
  assert (forall id' t' i', table m id' = Some t' -> (forall j, id' <> T1 j) -> slot i' ->
    is_set (entry_at m' t' i') PAGE_PRESENT = is_set (entry_at m t' i') PAGE_PRESENT /\
    is_set (entry_at m' t' i') PS_BIT = is_set (entry_at m t' i') PS_BIT /\
    table_base (entry_at m' t' i') = table_base (entry_at m t' i') /\
    (is_set (entry_at m t' i') PAGE_USER = true -> is_set (entry_at m' t' i') PAGE_USER = true)) as Hdir.
  { intros id' t' i' Ht' Hid' Hi'. destruct (wf_table _ _ Hwf _ _ Ht') as (Hal' & _).
    unfold m'. rewrite entry_at_set by done. case_decide as E; [|done]. injection E as -> ->.
    rewrite wrap_small by done. done. }
  assert (forall j, 0 <= j < 2048 -> table m (T2 (j / 512)) = Some (PD (j / 512))) as HT2.
  { intros. apply table_T2. zlia. }
  assert (forall j, slot (j mod 512)) as Hsl by (intros; unfold slot; zlia).
  assert (forall j, 0 <= j < 2048 -> pt_of m' j = pt_of m j) as Hpt.
  { intros j Hj. unfold pt_of, pd_entry.
    destruct (Hdir _ _ (j mod 512) (HT2 j Hj)) as (-> & -> & -> & _); done. }
  assert (forall id', table m' id' = table m id') as Htable.
  { intros [| |k|j]; try done. simpl. destruct ((0 <=? j) && (j <? 2048)) eqn:E; [|done]. to_prop. apply Hpt. lia. }
  split.
  - split.
    + apply store_wf. apply Hwf.
    + apply Hwf.
    + destruct (Hdir T4 P 0) as (-> & _ & -> & _); [done..|unfold slot; lia|]. apply Hwf.
    + intros k Hk. destruct (Hdir T3 D k) as (-> & -> & -> & _); [done..|unfold slot; lia|]. by apply Hwf.
    + intros id' t' Ht'. rewrite Htable in Ht'. by eapply wf_table.
    + intros id1 id2 t'. rewrite !Htable. by eapply wf_inj.
  - intros v Hv. pose proof (region_low v Hv) as Hr. unfold leaf_of.
    destruct (Hdir _ _ (region v mod 512) (HT2 _ Hr)) as (Hp2 & Hs2 & Hb2 & _); [done..|].
    unfold pd_entry in *. rewrite Hp2, Hs2, Hb2. set (o := entry_at m (PD (region v / 512)) (region v mod 512)) in *.
    destruct (negb (is_set o PAGE_PRESENT)) eqn:Ep; [done|]. destruct (is_set o PS_BIT) eqn:Es.
    + do 3 f_equal. apply (Hother (T2 (region v / 512))); [by apply HT2|done|].
      destruct (decide (id = T2 (region v / 512))) as [->|]; [|by left; congruence]. right. intros Hii.
      rewrite (HT2 _ Hr) in Ht. injection Ht as <-. subst i. unfold e in Hleaf. fold o in Hleaf. rewrite Es in Hleaf. naive_solver.
    + rewrite (Hother (T1 (region v))); [done| |apply index_slot|left; auto].
      rewrite table_T1 by done. unfold pt_of, pd_entry. fold o. rewrite Es.
      destruct (is_set o PAGE_PRESENT); done.
  - intros v Hv. pose proof (region_low v Hv) as Hr. unfold dir_user, pd_entry.
    destruct (Hdir _ _ (region v mod 512) (HT2 _ Hr)) as (-> & _ & _ & Hu2); [done..|].
    destruct (Hdir T4 P 0) as (_ & _ & _ & Hu4); [done..|unfold slot; lia|].
    destruct (Hdir T3 D (region v / 512)) as (_ & _ & _ & Hu3); [done..|pose proof (region_slot v Hv); unfold slot; lia|].
    rewrite !andb_true_iff. naive_solver.
  - intros id' t'. by rewrite Htable.
  - intros x Hx. unfold m'. apply set_entry_frame; [done|]. apply (Hx id). by rewrite Htable.
  - apply took_refl.
Qed.

Lemma fresh_not_table m s s' f id t :
  space_wf m s -> took s s' [f] -> table m id = Some t -> t <> f.
Proof.
  intros Hwf (_ & _ & Hf & _) Ht ->. destruct (Hf f) as (x & Hx & -> & Hu); [by left|].
  destruct (wf_table _ _ Hwf _ _ Ht) as (_ & _ & Hused).
  replace (x * FRAME_SIZE / 4096) with x in Hused by (unfold FRAME_SIZE; zlia).
  rewrite Hused in Hu by done. done.
Qed.

(** A fresh page becomes the page table of a region that had none. *)
Section new_table.
Context (m m1 : mem) (s s' : pmm) (j f e' : Z).
Context (Hwf : space_wf m s) (Hj : 0 <= j < 2048) (Hnone : pt_of m j = None).
Context (Htook : took s s' [f]) (Hpmm : pmm_wf s').
Context (Hm1 : forall x, ~ (f <= x < f + 4096) -> m1 x = m x) (Hm1wf : mem_wf m1).
Context (He' : in_u 64 e') (Hpr : is_set e' PAGE_PRESENT = true) (Hps : is_set e' PS_BIT = false)
        (Htb : table_base e' = f).
Context (Hleaf : forall v, low v -> region v = j ->
  leaf_value (entry_at m1 f (index 12 v)) v = leaf_of m v).
Context (Huser : is_set (pd_entry m j) PAGE_PRESENT = true ->
  is_set (pd_entry m j) PAGE_USER = true -> is_set e' PAGE_USER = true).

Lemma fresh_shape : aligned f /\ 0 <= f /\ frame_ok (f / 4096) /\ used s' (f / 4096) = true.
Proof.
  destruct Htook as (_ & Hu & Hf & _). destruct (Hf f) as (x & Hx & -> & _); [by left|].
  unfold aligned, FRAME_SIZE in *. replace (x * 4096 / 4096) with x by zlia. unfold frame_ok in *.
  split_and!; [zlia|lia|lia..|]. rewrite Hu by done. rewrite bool_decide_eq_true_2 by (by left). apply orb_true_r.
Qed.

Let m2 := set_entry m1 (PD (j / 512)) (j mod 512) e'.
Lemma new_table_entry id t i :
  table m id = Some t -> slot i ->
  entry_at m2 t i = if decide (id = T2 (j / 512) /\ i = j mod 512) then e' else entry_at m t i.
Proof.
  intros Ht Hi. destruct (wf_table _ _ Hwf _ _ Ht) as (Hal & _).
  assert (table m (T2 (j / 512)) = Some (PD (j / 512))) as HT2 by (apply table_T2; zlia).
  destruct (wf_table _ _ Hwf _ _ HT2) as (HalD & _).
  unfold m2. rewrite entry_at_set by (done || (unfold slot; zlia)).
  destruct (decide (id = T2 (j / 512) /\ i = j mod 512)) as [[-> ->]|Hne].
  - rewrite HT2 in Ht. injection Ht as <-. rewrite decide_True by done. by apply wrap_small.
  - rewrite decide_False.
    + apply entry_at_ext; [done|]. intros x Hx. apply Hm1. apply (page_apart t f); [done| | |done].
      * apply fresh_shape.
      * by eapply fresh_not_table.
    + intros [= -> ->]. apply Hne. split; [|done]. by eapply (wf_inj _ _ Hwf).
Qed.
Lemma new_table_pd i :
  0 <= i < 2048 -> pd_entry m2 i = if decide (i = j) then e' else pd_entry m i.
Proof.
  intros Hi. unfold pd_entry.
  assert (table m (T2 (i / 512)) = Some (PD (i / 512))) as HT2 by (apply table_T2; zlia).
  rewrite (new_table_entry _ _ _ HT2) by (unfold slot; zlia).
  destruct (decide (i = j)) as [->|]; [by rewrite decide_True|]. rewrite decide_False; [done|].
  intros [[= H1] H2]. zlia.
Qed.
Lemma new_table_pt i : 0 <= i < 2048 -> pt_of m2 i = if decide (i = j) then Some f else pt_of m i.
Proof.
  intros Hi. unfold pt_of. rewrite new_table_pd by done. case_decide; [|done]. by rewrite Hpr, Hps, Htb.
Qed.
Lemma new_table_table id : table m2 id = if decide (id = T1 j) then Some f else table m id.
Proof.
  destruct id as [| |k|i]; try done. simpl. destruct ((0 <=? i) && (i <? 2048)) eqn:E.
  - to_prop. rewrite new_table_pt by lia. repeat case_decide; congruence.
  - rewrite decide_False; [done|]. intros [= ->].
    rewrite (proj2 (Z.leb_le 0 j)), (proj2 (Z.ltb_lt j 2048)) in E by lia. done.
Qed.
Lemma new_table_frame f' : frame_ok f' -> used s f' = true -> used s' f' = true.
Proof. intros Hf Hu. destruct Htook as (_ & -> & _); [by rewrite Hu|done]. Qed.

Lemma extends_new_table : extends m s m2 s' [f] /\ pt_of m2 j = Some f.
Proof.
  destruct fresh_shape as (Hal & H0 & Hok & Hfu).
  split; [|by rewrite new_table_pt, decide_True].
  assert (forall id t, table m id = Some t -> table m2 id = Some t) as Hmono.
  { intros id t Ht. rewrite new_table_table. case_decide as E; [|done]. subst id.
    rewrite table_T1, Hnone in Ht by done. done. }
  split; [|..|done].
  - split.
    + apply store_wf, Hm1wf.
    + done.
    + rewrite (new_table_entry T4) by (done || unfold slot; lia). rewrite decide_False by naive_solver. apply Hwf.
    + intros k Hk. rewrite (new_table_entry T3) by (done || unfold slot; lia).
      rewrite decide_False by naive_solver. by apply Hwf.
    + intros id t. rewrite new_table_table. case_decide; [by intros [= <-]|]. intros Ht.
      destruct (wf_table _ _ Hwf _ _ Ht) as (? & ? & ?). eauto using new_table_frame.
    + intros id1 id2 t. rewrite !new_table_table. repeat case_decide; subst; try done.
      * intros [= <-] Ht. by destruct (fresh_not_table _ _ _ _ _ _ Hwf Htook Ht).
      * intros Ht [= <-]. by destruct (fresh_not_table _ _ _ _ _ _ Hwf Htook Ht).
      * apply (wf_inj _ _ Hwf).
  - intros v Hv. pose proof (region_low v Hv). unfold leaf_of at 1. rewrite new_table_pd by done.
    destruct (decide (region v = j)) as [E|E].
    + rewrite Hpr, Hps, Htb. simpl. rewrite <- (Hleaf v Hv E). unfold leaf_value.
      assert (entry_at m2 f (index 12 v) = entry_at m1 f (index 12 v)) as ->; [|done].
      unfold m2. assert (table m (T2 (j / 512)) = Some (PD (j / 512))) as HT2 by (apply table_T2; zlia).
      destruct (wf_table _ _ Hwf _ _ HT2) as (HalD & _).
      rewrite entry_at_set by (done || apply index_slot || (unfold slot; zlia)).
      rewrite decide_False; [done|]. intros [= HH _]. by destruct (fresh_not_table _ _ _ _ _ _ Hwf Htook HT2).
    + unfold leaf_of. destruct (negb (is_set (pd_entry m (region v)) PAGE_PRESENT)) eqn:E1; [done|].
      destruct (is_set (pd_entry m (region v)) PS_BIT) eqn:E2; [done|].
      assert (table m (T1 (region v)) = Some (table_base (pd_entry m (region v)))) as Ht.
      { rewrite table_T1 by done. unfold pt_of. rewrite E2. to_prop. by rewrite E1. }
      rewrite (new_table_entry _ _ _ Ht) by apply index_slot. rewrite decide_False by naive_solver. done.
  - intros v Hv. pose proof (region_low v Hv). pose proof (region_slot v Hv).
    unfold dir_user. rewrite new_table_pd by done.
    rewrite (new_table_entry T4 P 0), (new_table_entry T3 D) by (done || (unfold slot; lia)).
    rewrite !(decide_False (P := _ = T2 _ /\ _)) by naive_solver.
    case_decide as E; [|done]. rewrite E. rewrite !andb_true_iff. naive_solver.
  - intros id t. apply Hmono.
  - intros x Hx. unfold m2. rewrite set_entry_frame.
    + apply Hm1. apply (Hx (T1 j)). by rewrite new_table_table, decide_True.
    + unfold slot; zlia.
    + apply (Hx (T2 (j / 512))). apply Hmono, table_T2. zlia.
Qed.
End new_table.

(** Writing a page-table entry changes the translation of its page only. *)
Lemma set_leaf m s v t e :
  space_wf m s -> low v -> pt_of m (region v) = Some t -> in_u 64 e ->
  let m' := set_entry m t (index 12 v) e in
  space_wf m' s /\
  (forall v', low v' -> leaf_of m' v' = if decide (page v' = page v) then leaf_value e v' else leaf_of m v') /\
  (forall v', low v' -> dir_user m' v' = dir_user m v') /\
  (forall id, table m' id = table m id) /\
  (forall x, ~ (t <= x < t + 4096) -> m' x = m x).
Proof.
  intros Hwf Hv Hpt He m'. pose proof (region_low v Hv) as Hr.
  assert (table m (T1 (region v)) = Some t) as Ht by (by rewrite table_T1).
  destruct (wf_table _ _ Hwf _ _ Ht) as (Hal & _).
  assert (forall id t' i, table m id = Some t' -> slot i ->
    entry_at m' t' i = if decide (id = T1 (region v) /\ i = index 12 v) then e else entry_at m t' i) as Hent.
  { intros id t' i Ht' Hi. destruct (wf_table _ _ Hwf _ _ Ht') as (Hal' & _).
    unfold m'. rewrite entry_at_set by (done || apply index_slot).
    destruct (decide (id = T1 (region v) /\ i = index 12 v)) as [[-> ->]|Hne].
    - rewrite Ht in Ht'. injection Ht' as <-. rewrite decide_True by done. by apply wrap_small.
    - rewrite decide_False; [done|]. intros [= -> ->]. apply Hne. split; [|done]. by eapply (wf_inj _ _ Hwf). }
  assert (forall i, 0 <= i < 2048 -> pd_entry m' i = pd_entry m i) as Hpd.
  { intros i Hi. unfold pd_entry. rewrite (Hent (T2 (i / 512))) by (apply table_T2; zlia) || (unfold slot; zlia).
    rewrite decide_False by naive_solver. done. }
  assert (forall id, table m' id = table m id) as Htable.
  { intros [| |k|i]; try done. simpl. destruct ((0 <=? i) && (i <? 2048)) eqn:E; [|done]. to_prop.
    unfold pt_of. by rewrite Hpd by lia. }
  split_and!; [|intros v' Hv'|intros v' Hv'|done|].
  - split.
    + apply store_wf, Hwf.
    + apply Hwf.
    + rewrite (Hent T4) by (done || unfold slot; lia). rewrite decide_False by naive_solver. apply Hwf.
    + intros k Hk. rewrite (Hent T3) by (done || unfold slot; lia). rewrite decide_False by naive_solver. by apply Hwf.
    + intros id t'. rewrite Htable. by apply wf_table.
    + intros id1 id2 t'. rewrite !Htable. by apply (wf_inj _ _ Hwf).
  - pose proof (region_low v' Hv'). unfold leaf_of. rewrite Hpd by done.
    destruct (decide (region v' = region v)) as [E|E].
    + rewrite E. unfold pt_of in Hpt. destruct (is_set (pd_entry m (region v)) PAGE_PRESENT); [|done].
      destruct (is_set (pd_entry m (region v)) PS_BIT); [done|]. simpl in *. injection Hpt as ->.
      rewrite (Hent (T1 (region v)) t _ Ht) by apply index_slot.
      destruct (decide (page v' = page v)) as [Ep|Ep].
      * apply page_region in Ep as [_ ->]. rewrite decide_True by done. done.
      * rewrite decide_False; [done|]. intros [_ Ei]. apply Ep, same_page; done.
    + rewrite (decide_False (P := page v' = page v)) by (intros [? _]%page_region; done).
      destruct (negb (is_set (pd_entry m (region v')) PAGE_PRESENT)) eqn:E1; [done|].
      destruct (is_set (pd_entry m (region v')) PS_BIT) eqn:E2; [done|].
      rewrite (Hent (T1 (region v'))); [rewrite decide_False; [done|naive_solver]| |apply index_slot].
      rewrite table_T1 by done. unfold pt_of. rewrite E2. to_prop. by rewrite E1.
  - pose proof (region_low v' Hv'). pose proof (region_slot v' Hv'). unfold dir_user. rewrite Hpd by done.
    rewrite (Hent T4 P 0), (Hent T3 D) by (done || (unfold slot; lia)).
    rewrite !(decide_False (P := _ = T1 _ /\ _)) by naive_solver. done.
  - intros x Hx. apply set_entry_frame; [apply index_slot|done].
Qed.
End space.

(** ** The edits themselves *)
Lemma lor_add a b : Z.land a b = 0 -> a + b = Z.lor a b.
Proof. intros H. rewrite Z.add_nocarry_lxor by done. by apply Z.lxor_lor. Qed.
Lemma high_low_bit a b i : (* [a] a multiple of 2 MiB, [b] below 2 MiB *)
  a mod 2 ^ 21 = 0 -> 0 <= b < 2 ^ 21 -> 0 <= i ->
  Z.testbit (a + b) i = if i <? 21 then Z.testbit b i else Z.testbit a i.
Proof.
  intros Ha Hb Hi.
  assert (forall k, 0 <= k < 21 -> Z.testbit a k = false) as Hal.
  { intros k Hk. rewrite <- (Z.mod_pow2_bits_low a 21) by lia. by rewrite Ha, Z.bits_0. }
  assert (forall k, 21 <= k -> Z.testbit b k = false) as Hbh by (intros; apply (testbit_high 21); [done|lia]).
  rewrite lor_add.
  - rewrite Z.lor_spec. destruct (Z.ltb_spec i 21); [by rewrite Hal by lia|]. by rewrite Hbh, orb_false_r by lia.
  - apply Z.bits_inj'. intros k Hk. rewrite Z.land_spec, Z.bits_0.
    destruct (decide (k < 21)); [by rewrite Hal by lia|]. rewrite Hbh by lia. apply andb_false_r.
Qed.
Lemma floor_bit x k i : 0 <= k -> 0 <= i -> Z.testbit (x / 2 ^ k * 2 ^ k) i = (k <=? i) && Z.testbit x i.
Proof.
  intros. rewrite <- Z.shiftr_div_pow2, <- Z.shiftl_mul_pow2, Z.shiftl_spec by lia.
  destruct (Z.leb_spec k i); [|by rewrite Z.testbit_neg_r by lia].
  rewrite Z.shiftr_spec by lia. simpl. f_equal. lia.
Qed.

Section split.
Context (pde : Z) (Hu : in_u 64 pde) (Hpres : is_set pde PAGE_PRESENT = true).
Let phys_base := Z.land pde (unot 64 (Z.shiftl 1 21 - 1)).
Let page_flags := Z.land (Z.land pde PRESENT_MASK) (unot 64 PS_BIT).
Definition split_entry (i : Z) : Z := Z.lor (wrap 64 (phys_base + i * PAGE_SIZE)) page_flags.

Lemma phys_base_floor : phys_base = pde / 2 ^ 21 * 2 ^ 21.
Proof. unfold phys_base. change (Z.shiftl 1 21 - 1) with (2 ^ 21 - 1). apply land_unot_pow2; [done|lia]. Qed.
Lemma page_flags_bit i :
  0 <= i < 64 -> Z.testbit page_flags i = ((i <? 12) || (i =? 63)) && negb (i =? 7) && Z.testbit pde i.
Proof.
  intros Hi. unfold page_flags. rewrite !Z.land_spec, present_mask_bit by lia.
  rewrite unot_testbit by (done || (apply shiftl1_in_u; lia)).
  unfold PS_BIT. rewrite shiftl1_testbit by lia.
  by destruct (Z.testbit pde i), (_ || _), (negb _).
Qed.
Lemma split_entry_bit i b :
  slot i -> 0 <= b < 64 ->
  Z.testbit (split_entry i) b =
    if b <? 12 then negb (b =? 7) && Z.testbit pde b
    else if b <? 21 then Z.testbit (i * 4096) b else Z.testbit pde b.
Proof.
  unfold slot, split_entry, PAGE_SIZE. intros Hi Hb.
  assert (0 <= pde / 2 ^ 21 < 2 ^ 43) as Hq.
  { unfold in_u in Hu. change (2 ^ 21) with 2097152. change (2 ^ 43) with 8796093022208. 
    change (2 ^ 64) with 18446744073709551616 in Hu. zlia. }
  rewrite wrap_small; cycle 1.
  { rewrite phys_base_floor. unfold in_u. change (2 ^ 21) with 2097152 in *.
    change (2 ^ 43) with 8796093022208 in *. change (2 ^ 64) with 18446744073709551616. lia. }
  rewrite Z.lor_spec, page_flags_bit, phys_base_floor by lia.
  rewrite high_low_bit by (rewrite ?Z_mod_mult; lia). rewrite floor_bit by lia.
  assert (b < 12 -> Z.testbit (i * 4096) b = false) as Hlow.
  { intros. apply aligned_bit; [|lia]. unfold aligned. apply Z_mod_mult. }
  destruct (Z.ltb_spec b 12), (Z.ltb_spec b 21), (Z.leb_spec 21 b), (Z.eqb_spec b 63), (Z.eqb_spec b 7);
    try lia; simpl; rewrite ?Hlow by lia; rewrite ?orb_false_r; try done.
  by destruct (Z.testbit pde b).
Qed.
Lemma split_entry_in_u i : slot i -> in_u 64 (split_entry i).
Proof.
  intros Hi. unfold split_entry. apply lor_in_u; [lia|apply wrap_bound; lia|].
  apply land_in_u; [lia|apply land_in_u; [lia|done|]|].
  - unfold PRESENT_MASK. apply Z.lor_nonneg. split; [lia|]. unfold PAGE_NX. apply Z.shiftl_nonneg. lia.
  - apply unot_in_u, shiftl1_in_u. lia.
Qed.
(** A split entry translates as the 2 MiB entry did. *)
Lemma split_leaf v :
  leaf_value (split_entry (index 12 v)) v =
  Some (table_base pde / 2 ^ 21 * 2 ^ 21 + v mod 2 ^ 21, perms pde).
Proof.
  set (i := index 12 v). assert (slot i) as Hi by apply index_slot. unfold leaf_value.
  rewrite present_bit in Hpres |- *. rewrite split_entry_bit by (done || lia). rewrite Hpres. simpl.
  assert (table_base (split_entry i) = table_base pde / 2 ^ 21 * 2 ^ 21 + i * 4096) as ->.
  { unfold slot in Hi. apply Z.bits_inj'. intros b Hb.
    rewrite high_low_bit by (rewrite ?Z_mod_mult; lia). rewrite floor_bit by lia.
    unfold table_base. rewrite !Z.land_spec, addr_mask_bit by lia.
    destruct (Z.leb_spec 12 b), (Z.ltb_spec b 52); simpl; rewrite ?andb_false_r, ?andb_true_r.
    - rewrite split_entry_bit by (done || lia).
      destruct (Z.ltb_spec b 12), (Z.ltb_spec b 21), (Z.leb_spec 21 b); simpl; done || lia.
    - destruct (Z.ltb_spec b 21); [lia|done].
    - destruct (Z.ltb_spec b 21); [|lia]. symmetry. apply aligned_bit; [|lia]. unfold aligned. apply Z_mod_mult.
    - lia. }
  assert (perms (split_entry i) = perms pde) as ->.
  { unfold perms. bits. destruct (decide (bit < 64)).
    - rewrite split_entry_bit by (done || lia).
      destruct (Z.eqb_spec bit 1), (Z.eqb_spec bit 2), (Z.eqb_spec bit 63); subst; try done.
      by rewrite !andb_false_r.
    - rewrite (testbit_high 64 pde), (testbit_high 64 (split_entry i)) by (done || lia || by apply split_entry_in_u). done. }
  do 2 f_equal. unfold i, index. change (2 ^ 12) with 4096. change (2 ^ 21) with 2097152. zlia.
Qed.
End split.

(** The directory entry of a fresh page table. *)
Definition flags_ok (fl : Z) : Prop := in_u 64 fl /\ Z.land fl PRESENT_MASK = fl /\ is_set fl PS_BIT = false.
Lemma flags_ok_bit fl i : flags_ok fl -> 12 <= i < 52 -> Z.testbit fl i = false.
Proof. intros (_ & <- & _) Hi. by apply attr_bit. Qed.
Lemma dir_entry_shape f fl :
  aligned f -> in_u 52 f -> in_u 64 fl ->
  (forall i, 12 <= i < 52 -> Z.testbit fl i = false) -> is_set fl PS_BIT = false ->
  let e := Z.lor (Z.lor f fl) PAGE_PRESENT in
  in_u 64 e /\ is_set e PAGE_PRESENT = true /\ is_set e PS_BIT = false /\ table_base e = f /\
  is_set e PAGE_USER = is_set fl PAGE_USER /\ perms e = perms fl.
Proof.
  intros Hal Hf Hfl Hbits Hps e.
  assert (in_u 64 f) as Hf64.
  { unfold in_u in *. assert (2 ^ 52 < 2 ^ 64) by (apply Z.pow_lt_mono_r; lia). lia. }
  assert (in_u 64 e) as Hu.
  { unfold e. apply lor_in_u; [lia|by apply lor_in_u; [lia|..]|unfold in_u, PAGE_PRESENT; lia]. }
  rewrite !ps_bit, !present_bit, !user_bit in *. unfold e in *. change PAGE_PRESENT with (2 ^ 0).
  rewrite !Z.lor_spec, !(pow2_bit 0) by lia. rewrite Hps, !(aligned_bit f) by (done || lia). simpl.
  rewrite orb_false_r, !orb_true_r. split_and!; try done.
  - change 1 with (2 ^ 0). rewrite <- Z.lor_assoc. apply table_base_lor; [done|done|].
    intros i Hi. rewrite Z.lor_spec, pow2_bit, Hbits by lia. rewrite (proj2 (Z.eqb_neq i 0)) by lia. done.
  - unfold perms. bits.
    destruct (decide (bit < 12)).
    + rewrite (aligned_bit f) by (done || lia). simpl.
      destruct (Z.eqb_spec bit 0) as [->|]; simpl; [by rewrite !andb_false_r|by rewrite orb_false_r].
    + rewrite (proj2 (Z.eqb_neq bit 0)), orb_false_r by lia.
      destruct (Z.eqb_spec bit 63) as [->|].
      * by rewrite (testbit_high 52 f) by (done || lia).
      * rewrite (proj2 (Z.eqb_neq bit 1)), (proj2 (Z.eqb_neq bit 2)) by lia. simpl. by rewrite !andb_false_r.
Qed.

Lemma frame_alloc_vm_spec m s L :
  pmm_wf s ->
  exists r s', frame_alloc_vm (mk_machine m s, L) = Ret r (mk_machine m s', L) /\ pmm_wf s' /\
    match r with
    | Some f => took s s' [f]
    | None => s' = s /\ forall x, 0 <= x <= LAST_USABLE_FRAME s -> used s x = true
    end.
Proof.
  intros Hs. destruct (frame_alloc_spec s Hs) as (r & s' & Ha & Hs' & Hl & Hr).
  exists r, s'. unfold frame_alloc_vm; simpl. rewrite Ha. split_and!; [done|done|].
  destruct r as [p|]; [|done]. destruct Hr as (f & -> & Hf & Hfree & _ & Hu).
  destruct Hs as [_ Hlast]. split_and!; [done| | |].
  - intros x [Hx0 Hx]. rewrite Hu by done. rewrite orb_comm. f_equal. apply eq_true_iff_eq.
    rewrite Z.eqb_eq, bool_decide_eq_true, list_elem_of_singleton. unfold FRAME_SIZE. lia.
  - intros g ->%list_elem_of_singleton. exists f. split_and!; [unfold frame_ok; lia|lia|done..].
  - apply NoDup_singleton.
Qed.

Lemma fill_split_spec n pt pb pf L : forall i m s,
  aligned pt -> 0 <= i -> i + Z.of_nat n <= 512 -> mem_wf m ->
  exists m', fill_split n pt i pb pf (mk_machine m s, L) = Ret tt (mk_machine m' s, L) /\ mem_wf m' /\
    (forall x, ~ (pt <= x < pt + 4096) -> m' x = m x) /\
    (forall k, 0 <= k < i -> entry_at m' pt k = entry_at m pt k) /\
    (forall k, i <= k < i + Z.of_nat n ->
       entry_at m' pt k = wrap 64 (Z.lor (wrap 64 (pb + k * PAGE_SIZE)) pf)).
Proof.
  induction n as [|n IH]; intros i m s Hal H0 Hn Hm.
  { exists m. split_and!; try done. lia. }
  set (e := Z.lor (wrap 64 (pb + i * PAGE_SIZE)) pf).
  destruct (IH (i + 1) (set_entry m pt i e) s Hal) as (m' & Hr & Hwf & Hfr & Hlow & Hnew); [lia|lia|by apply store_wf|].
  exists m'. cbn [fill_split]. unfold mbind, st_bind, write_entry, write_ram, modify. simpl.
  split_and!; [exact Hr|done| | |].
  - intros x Hx. rewrite Hfr by done. apply set_entry_frame; [unfold slot; lia|done].
  - intros k Hk. rewrite Hlow by lia. rewrite entry_at_set by (done || unfold slot; lia).
    rewrite decide_False; [done|]. intros [= ->]. lia.
  - intros k Hk. destruct (decide (k = i)) as [->|].
    + rewrite Hlow by lia. rewrite entry_at_set by (done || unfold slot; lia). by rewrite decide_True.
    + apply Hnew. lia.
Qed.

Section edits.
Context (P D : Z) (PD : Z -> Z).

Lemma promote_spec m s L fl id t i :
  space_wf P D PD m s -> table P D PD m id = Some t -> (forall j, id <> T1 j) -> slot i ->
  ((exists k, id = T2 k) -> is_set (entry_at m t i) PS_BIT = false) ->
  exists m', promote fl (entry_ptr t i) (mk_machine m s, L) = Ret tt (mk_machine m' s, L) /\
    extends P D PD m s m' s [] /\
    (is_set fl PAGE_USER = true -> is_set (entry_at m' t i) PAGE_USER = true) /\
    (is_set (entry_at m t i) PAGE_USER = true -> is_set (entry_at m' t i) PAGE_USER = true) /\
    (forall id' t' i', table P D PD m id' = Some t' -> slot i' -> (id', i') <> (id, i) ->
       entry_at m' t' i' = entry_at m t' i').
Proof.
  intros Hwf Ht Hid Hi Hps. set (e := entry_at m t i) in *.
  assert (in_u 64 e) as He by (apply entry_at_bound, Hwf).
  unfold promote, mbind, st_bind, read_entry. simpl. change (read_u64 m (entry_ptr t i)) with e.
  destruct (is_set fl PAGE_USER && negb (is_set e PAGE_USER)) eqn:E; cycle 1.
  { exists m. split_and!; [done|by apply extends_refl| |done|done]. intros Hu. rewrite Hu in E. simpl in E. by to_prop. }
  exists (set_entry m t i (Z.lor e PAGE_USER)). split; [done|].
  assert (forall b, 0 <= b -> b <> 2 -> Z.testbit (Z.lor e PAGE_USER) b = Z.testbit e b) as Hbit.
  { intros b Hb Hne. change PAGE_USER with (2 ^ 2). rewrite Z.lor_spec, pow2_bit by lia.
    rewrite (proj2 (Z.eqb_neq b 2)) by done. apply orb_false_r. }
  assert (in_u 64 (Z.lor e PAGE_USER)) as Hu by (apply lor_in_u; [lia|done|unfold in_u, PAGE_USER; lia]).
  assert (is_set (Z.lor e PAGE_USER) PAGE_USER = true) as Hus.
  { rewrite user_bit. change PAGE_USER with (2 ^ 2). rewrite Z.lor_spec, pow2_bit by lia. apply orb_true_r. }
  destruct (wf_table _ _ _ _ _ Hwf _ _ Ht) as (Hal & _).
  assert (entry_at (set_entry m t i (Z.lor e PAGE_USER)) t i = Z.lor e PAGE_USER) as Hsame.
  { rewrite entry_at_set by done. rewrite decide_True by done. by apply wrap_small. }
  split_and!.
  - apply (extends_dir P D PD m s id); try done.
    + rewrite !present_bit. apply Hbit; lia.
    + rewrite !ps_bit. apply Hbit; lia.
    + unfold table_base. apply Z.bits_inj'. intros b Hb. rewrite !Z.land_spec, addr_mask_bit by lia.
      destruct (decide (b = 2)) as [->|]; [by rewrite !andb_false_r|]. by rewrite Hbit.
  - by rewrite Hsame.
  - by rewrite Hsame.
  - intros id' t' i' Ht' Hi' Hne. destruct (wf_table _ _ _ _ _ Hwf _ _ Ht') as (Hal' & _).
    rewrite entry_at_set by done. rewrite decide_False; [done|]. intros [= -> ->]. apply Hne. f_equal.
    by eapply (wf_inj _ _ _ _ _ Hwf).
Qed.

Abbreviation tracked track fs := (if track then fs else []).
Lemma track_nil (track : bool) (L : list Z) : L = L ++ tracked track [].
Proof. destruct track; by rewrite app_nil_r. Qed.

(** What a step that looks for the page table of [v] gives. *)
Definition found (m : mem) (s : pmm) (L : list Z) (fl : Z) (track : bool) (v : Z)
    (o : outcome (machine * list Z) (option Z)) : Prop :=
  exists r m' s' fs, o = Ret r (mk_machine m' s', L ++ tracked track fs) /\
    extends P D PD m s m' s' fs /\ (length fs <= 1)%nat /\
    (forall id t i, table P D PD m id = Some t -> slot i -> id = T4 \/ id = T3 ->
       entry_at m' t i = entry_at m t i) /\
    match r with
    | Some p => exists t, pt_of PD m' (region v) = Some t /\ p = entry_ptr t (index 12 v) /\
        (is_set fl PAGE_USER = true -> is_set (pd_entry PD m' (region v)) PAGE_USER = true)
    | None => forall x, 0 <= x <= LAST_USABLE_FRAME s -> used s x = true
    end.

Section pd_step.
Context (m : mem) (s : pmm) (L : list Z) (fl v : Z) (track : bool).
Context (Hwf : space_wf P D PD m s) (Hv : low v) (Hfl : flags_ok fl).
Let j := region v.
Let pde := pd_entry PD m j.
Lemma pd_facts :
  0 <= j < 2048 /\ table P D PD m (T2 (j / 512)) = Some (PD (j / 512)) /\ slot (j mod 512) /\ in_u 64 pde.
Proof.
  pose proof (region_low v Hv) as Hj. fold j in Hj.
  split; [lia|]. split; [apply table_T2; zlia|]. split; [unfold slot; zlia|]. apply entry_at_bound, Hwf.
Qed.

(** Both ways of making a fresh page table. *)
Lemma pd_fresh m1 s' f e' :
  pt_of PD m j = None -> took s s' [f] -> pmm_wf s' ->
  (forall x, ~ (f <= x < f + 4096) -> m1 x = m x) -> mem_wf m1 ->
  in_u 64 e' -> is_set e' PAGE_PRESENT = true -> is_set e' PS_BIT = false -> table_base e' = f ->
  (forall v', low v' -> region v' = j -> leaf_value (entry_at m1 f (index 12 v')) v' = leaf_of PD m v') ->
  (is_set pde PAGE_PRESENT = true -> is_set pde PAGE_USER = true -> is_set e' PAGE_USER = true) ->
  (is_set fl PAGE_USER = true -> is_set e' PAGE_USER = true) ->
  found m s L fl track v
    (Ret (Some (entry_ptr f (Z.land (Z.shiftr v 12) 0x1FF)))
         (mk_machine (set_entry m1 (PD (j / 512)) (j mod 512) e') s', L ++ tracked track [f])).
Proof.
  intros Hnone Htook Hs' Hm1 Hm1wf He' Hp Hps Htb Hleaf Hu1 Hu2. destruct pd_facts as (Hj & _ & _ & _).
  destruct (extends_new_table P D PD m m1 s s' j f e') as [Hext Hpt]; try done.
  exists (Some (entry_ptr f (index 12 v))), (set_entry m1 (PD (j / 512)) (j mod 512) e'), s', [f].
  split_and!; [|done|simpl; lia| |].
  - rewrite index_bits by (unfold low in Hv; lia). done.
  - intros id t i Ht Hi Hid.
    rewrite (new_table_entry P D PD m m1 s s' j f e' Hwf Hj Htook Hm1 He' Htb Hleaf id) by done.
    rewrite decide_False; [done|]. destruct Hid; naive_solver.
  - exists f. split_and!; [done|done|]. intros Hu.
    rewrite (new_table_pd P D PD m m1 s s' j f e') by done. rewrite decide_True by done. auto.
Qed.

Lemma took_aligned s' f : took s s' [f] -> aligned f /\ in_u 52 f.
Proof.
  intros (_ & _ & Hf & _). destruct (Hf f) as (x & Hx & -> & _); [by left|].
  unfold aligned, in_u, frame_ok, FRAME_COUNT, FRAME_SIZE, MAX_PHYS_MEM, FRAME_SIZE in *. split; [zlia|].
  change (256 * 1024 * 1024 / 4096) with 65536 in Hx. lia.
Qed.

(** The entry that replaces a split one. *)
Lemma split_dir_shape s' f :
  took s s' [f] -> is_set pde PAGE_PRESENT = true ->
  let e := Z.lor (Z.lor f (Z.land (Z.land pde PRESENT_MASK) (unot 64 PS_BIT))) (Z.land fl PAGE_USER) in
  in_u 64 e /\ is_set e PAGE_PRESENT = true /\ is_set e PS_BIT = false /\ table_base e = f /\
  is_set e PAGE_USER = is_set pde PAGE_USER || is_set fl PAGE_USER.
Proof.
  intros Ht Hp e. destruct (took_aligned s' f Ht) as [Hal H52]. destruct pd_facts as (_ & _ & _ & Hu).
  destruct Hfl as (Hfu & _ & _).
  set (pf := Z.land (Z.land pde PRESENT_MASK) (unot 64 PS_BIT)) in *.
  assert (forall i, 0 <= i < 64 -> Z.testbit pf i = ((i <? 12) || (i =? 63)) && negb (i =? 7) && Z.testbit pde i)
    as Hpf by (intros i Hi; by apply page_flags_bit).
  assert (forall i, 0 <= i -> i <> 2 -> Z.testbit (Z.land fl PAGE_USER) i = false) as Hus.
  { intros i Hi Hne. change PAGE_USER with (2 ^ 2). rewrite Z.land_spec, pow2_bit by lia.
    rewrite (proj2 (Z.eqb_neq i 2)) by done. apply andb_false_r. }
  assert (Z.testbit (Z.land fl PAGE_USER) 2 = Z.testbit fl 2) as Hus2.
  { change PAGE_USER with (2 ^ 2). rewrite Z.land_spec, pow2_bit by lia. apply andb_true_r. }
  rewrite present_bit in Hp.
  assert (Z.testbit pf 0 = true) as Hpf0 by (by rewrite Hpf, Hp by lia).
  assert (e = Z.lor (Z.lor f (Z.lor pf (Z.land fl PAGE_USER))) PAGE_PRESENT) as ->.
  { unfold e. apply Z.bits_inj'. intros i Hi. change PAGE_PRESENT with (2 ^ 0).
    rewrite !(Z.lor_spec _ _ i), pow2_bit by lia. destruct (Z.eqb_spec i 0) as [->|].
    - by rewrite Hpf0, !orb_true_r.
    - by rewrite orb_false_r, orb_assoc. }
  assert (in_u 64 pf) as Hpu.
  { apply land_in_u; [lia| |apply unot_in_u, shiftl1_in_u; lia]. apply land_in_u; [lia|done|].
    unfold PRESENT_MASK, PAGE_NX. apply Z.lor_nonneg. split; [lia|]. apply Z.shiftl_nonneg. lia. }
  destruct (dir_entry_shape f (Z.lor pf (Z.land fl PAGE_USER)) Hal H52) as (H1 & H2 & H3 & H4 & H5 & _).
  - apply lor_in_u; [lia|done|]. apply land_in_u; [lia|done|unfold PAGE_USER; lia].
  - intros i Hi. rewrite Z.lor_spec, Hpf, Hus by lia.
    rewrite (proj2 (Z.ltb_ge i 12)), (proj2 (Z.eqb_neq i 63)) by lia. done.
  - rewrite ps_bit, Z.lor_spec, Hpf, Hus by lia. done.
  - split_and!; try done; try apply H1. by rewrite H5, !user_bit, Z.lor_spec, Hpf, Hus2 by lia.
Qed.

Lemma pd_step_spec : found m s L fl track v (pd_step fl track v (PD (j / 512)) (mk_machine m s, L)).
Proof.
  destruct pd_facts as (Hj & HT & Hsl & Hu). pose proof Hfl as (Hfu & Hfm & Hfp).
  assert (forall f, (if track then L ++ [f] else L) = L ++ tracked track [f]) as Htr.
  { intros f. destruct track; by rewrite ?app_nil_r. }
  unfold pd_step. rewrite (index_bits 21) by (unfold low in Hv; lia). rewrite index21. fold j.
  unfold mbind, st_bind, read_entry. cbn [fst ram]. change (read_u64 m _) with pde.
  destruct (is_set pde PAGE_PRESENT) eqn:Ep; [destruct (is_set pde PS_BIT) eqn:Es|]; cbn [negb].
  - destruct (frame_alloc_vm_spec m s L (wf_pmm _ _ _ _ _ Hwf)) as (r & s' & -> & Hs' & Hr).
    destruct r as [f|]; cycle 1.
    { destruct Hr as [-> Hall]. exists None, m, s, []. rewrite <- track_nil.
      split_and!; [done|by apply extends_refl|simpl; lia|done|done]. }
    destruct (took_aligned s' f Hr) as [Hal H52]. unfold push_frame, modify. cbn [fst snd ram frames]. rewrite Htr.
    destruct (fill_split_spec 512 f (Z.land pde (unot 64 (Z.shiftl 1 21 - 1)))
      (Z.land (Z.land pde PRESENT_MASK) (unot 64 PS_BIT)) (L ++ tracked track [f]) 0 m s')
      as (m1 & Hfill & Hm1wf & Hm1 & _ & Hent); [done|lia|lia|apply Hwf|].
    rewrite Hfill. unfold write_entry, write_ram, modify. cbn [fst snd ram frames].
    destruct (split_dir_shape s' f Hr Ep) as (H1 & H2 & H3 & H4 & H5).
    apply pd_fresh; try done.
    + unfold pt_of. fold pde. by rewrite Es, andb_false_r.
    + intros v' Hv' Hreg. rewrite Hent by (pose proof (index_slot 12 v'); unfold slot in *; lia).
      change (wrap 64 (Z.lor _ _)) with (wrap 64 (split_entry pde (index 12 v'))).
      rewrite wrap_small by (apply split_entry_in_u; first [apply index_slot|done]).
      rewrite split_leaf by done. unfold leaf_of. rewrite Hreg. fold pde. by rewrite Ep, Es.
    + intros _ Hp. by rewrite H5, Hp.
    + intros Hp. by rewrite H5, Hp, orb_true_r.
  - destruct (promote_spec m s L fl (T2 (j / 512)) (PD (j / 512)) (j mod 512)) as (m' & -> & Hext & Hu1 & Hu2 & Hot);
      [done..|].
    exists (Some (entry_ptr (table_base pde) (index 12 v))), m', s, []. rewrite <- track_nil.
    split_and!; [by rewrite index_bits by (unfold low in Hv; lia)|done|simpl; lia| |].
    + intros id t i Ht Hi Hid. apply (Hot id); [done..|]. destruct Hid; naive_solver.
    + exists (table_base pde). split_and!; [|done|done].
      assert (table P D PD m (T1 j) = Some (table_base pde)) as Ht.
      { rewrite table_T1 by done. unfold pt_of. fold pde. by rewrite Ep, Es. }
      apply (ext_table _ _ _ _ _ _ _ _ Hext) in Ht. by rewrite table_T1 in Ht.
  - destruct (frame_alloc_vm_spec m s L (wf_pmm _ _ _ _ _ Hwf)) as (r & s' & -> & Hs' & Hr).
    destruct r as [f|]; cycle 1.
    { destruct Hr as [-> Hall]. exists None, m, s, []. rewrite <- track_nil.
      split_and!; [done|by apply extends_refl|simpl; lia|done|done]. }
    destruct (took_aligned s' f Hr) as [Hal H52].
    unfold push_frame, write_entry, write_ram, modify. simpl. rewrite Htr.
    destruct (dir_entry_shape f fl Hal H52 Hfu ltac:(intros; by apply flags_ok_bit) Hfp) as (H1 & H2 & H3 & H4 & H5 & _).
    apply (pd_fresh (mem_fill m f FRAME_SIZE 0)); try done.
    + unfold pt_of. fold pde. by rewrite Ep.
    + intros x Hx. apply fill_frame. done.
    + apply fill_wf; [apply Hwf|unfold in_u; lia].
    + intros v' Hv' Hreg. assert (entry_at (mem_fill m f FRAME_SIZE 0) f (index 12 v') = 0) as ->.
      { apply load_fill_zero; unfold entry_ptr, FRAME_SIZE; pose proof (index_slot 12 v') as Hi; unfold slot in Hi; lia. }
      unfold leaf_of. rewrite Hreg. fold pde. by rewrite Ep.
    + by rewrite Ep.
    + by rewrite H5.
Qed.
End pd_step.

Lemma pt_entry_spec m s L fl v track :
  space_wf P D PD m s -> low v -> flags_ok fl ->
  exists r m' s' fs,
    pt_entry_ptr_in P v fl track (mk_machine m s, L) = Ret r (mk_machine m' s', L ++ tracked track fs) /\
    extends P D PD m s m' s' fs /\ (length fs <= 1)%nat /\
    match r with
    | Some p => exists t, pt_of PD m' (region v) = Some t /\ p = entry_ptr t (index 12 v) /\
        (is_set fl PAGE_USER = true -> dir_user P D PD m' v = true)
    | None => forall x, 0 <= x <= LAST_USABLE_FRAME s -> used s x = true
    end.
Proof.
  intros Hwf Hv Hfl. pose proof (region_slot v Hv) as Hr.
  unfold pt_entry_ptr_in. rewrite (index_bits 39), (index_bits 30) by (unfold low in Hv; lia).
  rewrite index39, index30 by done.
  destruct (wf_e4 _ _ _ _ _ Hwf) as [H4 H4b]. destruct (wf_e3 _ _ _ _ _ Hwf _ Hr) as (H3 & H3s & H3b).
  unfold mbind, st_bind, read_entry. cbn [fst ram].
  change (read_u64 m (entry_ptr P 0)) with (entry_at m P 0). rewrite H4, H4b. cbn [negb].
  destruct (promote_spec m s L fl T4 P 0) as (m1 & -> & Hext1 & Hu1 & _ & Hot1);
    [done..|unfold slot; lia|by intros [? ?]|].
  pose proof (ext_wf _ _ _ _ _ _ _ _ Hext1) as Hwf1. cbn [fst ram].
  assert (entry_at m1 D (region v / 512) = entry_at m D (region v / 512)) as He3.
  { apply (Hot1 T3); [done|unfold slot; lia|done]. }
  change (read_u64 m1 _) with (entry_at m1 D (region v / 512)). rewrite He3, H3, H3s, H3b. cbn [negb orb].
  destruct (promote_spec m1 s L fl T3 D (region v / 512)) as (m2 & -> & Hext2 & Hu2 & _ & Hot2);
    [done..|unfold slot; lia|by intros [? ?]|].
  pose proof (ext_wf _ _ _ _ _ _ _ _ Hext2) as Hwf2.
  destruct (pd_step_spec m2 s L fl v track Hwf2 Hv Hfl) as (r & m' & s' & fs & -> & Hext3 & Hlen & Hot3 & Hres).
  exists r, m', s', fs. split_and!; [done| |done|].
  - apply (extends_trans _ _ _ m s m1 s m' s' [] fs Hext1). by apply (extends_trans _ _ _ m1 s m2 s m' s' [] fs Hext2).
  - destruct r as [p|]; [|done]. destruct Hres as (t & Hpt & -> & Hus). exists t. split_and!; [done..|].
    intros Hu. unfold dir_user.
    rewrite (Hot3 T4 P 0), (Hot3 T3 D) by (done || (unfold slot; lia) || (by left) || by right).
    rewrite (Hot2 T4 P 0) by (done || (unfold slot; lia)).
    rewrite Hu1, Hu2, Hus by done. simpl. unfold pt_of in Hpt.
    by destruct (is_set (pd_entry PD m' (region v)) PAGE_PRESENT).
Qed.

(** ** Ranges of pages *)
Definition attrs_ok (flags : Z) : Prop := in_u 64 flags /\ is_set flags PS_BIT = false.
Lemma attrs_flags flags : attrs_ok flags -> flags_ok (Z.land flags PRESENT_MASK).
Proof.
  intros [Hu Hps]. split_and!.
  - apply land_in_u; [lia|done|]. unfold PRESENT_MASK, PAGE_NX. apply Z.lor_nonneg.
    split; [lia|]. apply Z.shiftl_nonneg. lia.
  - bits. by destruct (Z.testbit flags bit), (_ || _).
  - rewrite ps_bit in *. by rewrite Z.land_spec, Hps.
Qed.
Lemma leaf_entry_value p flags v :
  aligned p -> in_u 52 p -> attrs_ok flags ->
  in_u 64 (leaf_entry p flags) /\ leaf_value (leaf_entry p flags) v = Some (p + v mod 4096, perms flags).
Proof.
  intros Hal Hp Hat. pose proof (attrs_flags _ Hat) as Hfl. pose proof Hfl as (Hu & Hm & Hps).
  destruct (dir_entry_shape p _ Hal Hp Hu ltac:(intros; by apply attr_bit) Hps) as (H1 & H2 & _ & H4 & _ & H6).
  split; [done|]. unfold leaf_value, leaf_entry. rewrite H2, H4, H6. simpl. do 2 f_equal.
  unfold perms. bits. destruct (decide (bit = 1 \/ bit = 2 \/ bit = 63)) as [[->|[->| ->]]|]; try (by rewrite !andb_true_r).
  rewrite (proj2 (Z.eqb_neq bit 1)), (proj2 (Z.eqb_neq bit 2)), (proj2 (Z.eqb_neq bit 63)) by lia.
  by rewrite !andb_false_r.
Qed.

Definition in_pages (v n v' : Z) : bool := (page v <=? page v') && (page v' <? page v + n).
Lemma extends_found m s m1 s1 fs t v e :
  extends P D PD m s m1 s1 fs -> low v -> pt_of PD m1 (region v) = Some t -> in_u 64 e ->
  let m2 := set_entry m1 t (index 12 v) e in
  space_wf P D PD m2 s1 /\
  (forall v', low v' -> leaf_of PD m2 v' =
     if decide (page v' = page v) then leaf_value e v' else leaf_of PD m v') /\
  (forall v', low v' -> dir_user P D PD m v' = true -> dir_user P D PD m2 v' = true) /\
  (forall v', low v' -> dir_user P D PD m1 v' = true -> dir_user P D PD m2 v' = true) /\
  (forall id t', table P D PD m id = Some t' -> table P D PD m2 id = Some t') /\
  (forall x, (forall id t', table P D PD m2 id = Some t' -> ~ (t' <= x < t' + 4096)) -> m2 x = m x).
Proof.
  intros Hext Hv Hpt He m2. pose proof (ext_wf _ _ _ _ _ _ _ _ Hext) as Hwf1.
  destruct (set_leaf P D PD m1 s1 v t e Hwf1 Hv Hpt He) as (Hwf2 & Hleaf & Hus & Htab & Hfr).
  fold m2 in Hwf2, Hleaf, Hus, Htab, Hfr. split_and!; [done| | | | |].
  - intros v' Hv'. rewrite Hleaf by done. case_decide; [done|]. by apply (ext_leaf _ _ _ _ _ _ _ _ Hext).
  - intros v' Hv' Hd. rewrite Hus by done. by apply (ext_user _ _ _ _ _ _ _ _ Hext).
  - intros v' Hv' Hd. by rewrite Hus.
  - intros id t' Ht'. rewrite Htab. by apply (ext_table _ _ _ _ _ _ _ _ Hext).
  - intros x Hx. rewrite Hfr; cycle 1.
    { apply (Hx (T1 (region v))). rewrite Htab, table_T1; [done|by apply region_low]. }
    apply (ext_frame _ _ _ _ _ _ _ _ Hext). intros id t' Ht'. apply (Hx id). by rewrite Htab.
Qed.

(** What a loop over [n] pages from [v] does to a space, [k] of them with
    effect [f] on their leaves. *)
Record mapped (m : mem) (s : pmm) (m' : mem) (s' : pmm) (fs : list Z) (v k : Z)
    (f : Z -> option (Z * Z)) : Prop := {
  mapped_wf : space_wf P D PD m' s';
  mapped_leaf : forall v', low v' -> leaf_of PD m' v' = if in_pages v k v' then f v' else leaf_of PD m v';
  mapped_user : forall v', low v' -> dir_user P D PD m v' = true -> dir_user P D PD m' v' = true;
  mapped_table : forall id t, table P D PD m id = Some t -> table P D PD m' id = Some t;
  mapped_frame : forall x, (forall id t, table P D PD m' id = Some t -> ~ (t <= x < t + 4096)) -> m' x = m x;
  mapped_took : took s s' fs
}.
Lemma in_pages_0 v v' : in_pages v 0 v' = false.
Proof. unfold in_pages. destruct (Z.leb_spec (page v) (page v')), (Z.ltb_spec (page v') (page v + 0)); done || lia. Qed.
Lemma in_pages_S v k v' :
  0 <= k -> in_pages v (k + 1) v' = bool_decide (page v' = page v) || in_pages (v + PAGE_SIZE) k v'.
Proof.
  intros Hk. unfold in_pages. assert (page (v + PAGE_SIZE) = page v + 1) as -> by (unfold page, PAGE_SIZE; zlia).
  apply eq_true_iff_eq. rewrite orb_true_iff, !andb_true_iff, bool_decide_eq_true, !Z.leb_le, !Z.ltb_lt. lia.
Qed.
Lemma mapped_0 m s m' s' fs v f : extends P D PD m s m' s' fs -> mapped m s m' s' fs v 0 f.
Proof.
  intros []. split; try done. intros v' Hv'. rewrite in_pages_0. auto.
Qed.

Lemma map_pages_spec flags n : forall m s L v p,
  space_wf P D PD m s -> attrs_ok flags -> aligned v -> aligned p -> 0 <= v ->
  v + Z.of_nat n * PAGE_SIZE <= IDENTITY_MAP_END -> 0 <= p -> p + Z.of_nat n * PAGE_SIZE <= 2 ^ 52 ->
  exists r m' s' fs k,
    map_pages n P v p flags (mk_machine m s, L) = Ret r (mk_machine m' s', L ++ fs) /\
    mapped m s m' s' fs v k (fun v' => Some (p + (v' - v), perms flags)) /\ 0 <= k <= Z.of_nat n /\
    (is_set flags PAGE_USER = true -> forall v', low v' -> in_pages v k v' = true -> dir_user P D PD m' v' = true) /\
    if r : bool then k = Z.of_nat n
    else forall x, 0 <= x <= LAST_USABLE_FRAME s -> used s' x = true.
Proof.
  induction n as [|n IH]; intros m s L v p Hwf Hat Hv Hp H0 Hn Hp0 Hpn.
  { exists true, m, s, [], 0. rewrite app_nil_r. split_and!; try done; try lia.
    - by apply mapped_0, extends_refl.
    - intros _ v' _. by rewrite in_pages_0. }
  assert (low v) as Hlow by (unfold low, PAGE_SIZE in *; lia).
  destruct (pt_entry_spec m s L _ v true Hwf Hlow (attrs_flags _ Hat)) as (r & m1 & s1 & fs1 & Hr & Hext & _ & Hres).
  cbn [map_pages]. unfold mbind, st_bind. rewrite Hr.
  pose proof (ext_took _ _ _ _ _ _ _ _ Hext) as Htk1.
  destruct r as [q|]; cycle 1.
  { exists false, m1, s1, fs1, 0. split_and!; [done|by apply mapped_0|lia|lia|intros _ v' _; by rewrite in_pages_0|].
    intros x Hx. destruct Htk1 as (_ & Hu & _). rewrite Hu, Hres; [done|lia|].
    destruct (wf_pmm _ _ _ _ _ Hwf) as [_ ?]. unfold frame_ok. lia. }
  destruct Hres as (t & Hpt & -> & Hus).
  assert (in_u 52 p) as Hpu by (unfold in_u, PAGE_SIZE in *; lia).
  destruct (leaf_entry_value p flags v Hp Hpu Hat) as [He _].
  destruct (extends_found m s m1 s1 fs1 t v _ Hext Hlow Hpt He) as (Hwf2 & Hl2 & Hu2 & Hu2' & Ht2 & Hf2).
  set (m2 := set_entry m1 t (index 12 v) (leaf_entry p flags)) in *.
  unfold write_entry, write_ram, modify. cbn [fst snd ram frames].
  change (write_u64 m1 (entry_ptr t (index 12 v)) (leaf_entry p flags)) with m2.
  destruct (IH m2 s1 (L ++ fs1) (v + PAGE_SIZE) (p + PAGE_SIZE)) as (r & m3 & s3 & fs3 & k & Hr3 & Hm3 & Hk & Hus3 & Hres3);
    try done; try (unfold aligned, PAGE_SIZE in *; lia || zlia).
  exists r, m3, s3, (fs1 ++ fs3), (k + 1). rewrite app_assoc. rewrite Hr3. split_and!; try lia; [done| | |].
  - destruct Hm3 as [Hwf3 Hl3 Hu3 Ht3 Hf3 Htk3]. split; [done| | | | |].
    + intros v' Hv'. rewrite Hl3, Hl2, in_pages_S by (done || lia).
      destruct (in_pages (v + PAGE_SIZE) k v') eqn:Ein; [rewrite orb_true_r; do 2 f_equal; lia|].
      rewrite orb_false_r. case_bool_decide as Epg.
      * rewrite decide_True by done.
        rewrite (proj2 (leaf_entry_value p flags v' Hp Hpu Hat)). do 2 f_equal.
        unfold aligned, page in *. zlia.
      * by rewrite decide_False.
    + intros. by apply Hu3, Hu2.
    + auto.
    + intros x Hx. rewrite Hf3 by done. apply Hf2. eauto.
    + by eapply took_trans.
  - intros Hu v' Hv'. rewrite in_pages_S by lia. intros [Hpg%bool_decide_eq_true|Hin]%orb_true_iff; [|by apply Hus3].
    apply (mapped_user _ _ _ _ _ _ _ _ Hm3); [done|]. apply Hu2'; [done|].
    apply page_region in Hpg as [Hreg _]. unfold dir_user in *. rewrite Hreg. apply Hus.
    rewrite user_bit in *. by rewrite Z.land_spec, Hu.
  - destruct r; [lia|]. intros x Hx. apply Hres3. destruct Htk1 as (-> & _). done.
Qed.

Definition exhausted (s : pmm) : Prop := forall x, 0 <= x <= LAST_USABLE_FRAME s -> used s x = true.
Lemma took_exhausted s s' fs : pmm_wf s -> took s s' fs -> exhausted s -> exhausted s'.
Proof.
  intros [_ Hl] (Hl' & Hu & _) He x Hx. rewrite Hl' in Hx. rewrite Hu by (unfold frame_ok; lia). by rewrite He.
Qed.

Lemma unmap_pages_spec n : forall m s L v,
  space_wf P D PD m s -> aligned v -> 0 <= v -> v + Z.of_nat n * PAGE_SIZE <= IDENTITY_MAP_END ->
  exists m' s' fs,
    unmap_pages n P v (mk_machine m s, L) = Ret tt (mk_machine m' s', L) /\
    space_wf P D PD m' s' /\ took s s' fs /\
    (forall v', low v' ->
       if in_pages v (Z.of_nat n) v'
       then leaf_of PD m' v' = None \/ leaf_of PD m' v' = leaf_of PD m v' /\ exhausted s'
       else leaf_of PD m' v' = leaf_of PD m v') /\
    (forall id t, table P D PD m id = Some t -> table P D PD m' id = Some t) /\
    (forall x, (forall id t, table P D PD m' id = Some t -> ~ (t <= x < t + 4096)) -> m' x = m x).
Proof.
  induction n as [|n IH]; intros m s L v Hwf Hv H0 Hn.
  { exists m, s, []. split_and!; try done; [apply took_refl|]. intros v' _. by rewrite in_pages_0. }
  assert (low v) as Hlow by (unfold low, PAGE_SIZE in *; lia).
  assert (flags_ok 0) as Hf0 by (by split_and!).
  destruct (pt_entry_spec m s L 0 v false Hwf Hlow Hf0) as (r & m1 & s1 & fs1 & Hr & Hext & _ & Hres).
  rewrite app_nil_r in Hr. cbn [unmap_pages]. unfold mbind, st_bind. rewrite Hr.
  pose proof (ext_took _ _ _ _ _ _ _ _ Hext) as Htk1. pose proof (ext_wf _ _ _ _ _ _ _ _ Hext) as Hwf1.
  assert (exists m2, (match r with Some e => write_entry e 0 | None => mret tt end) (mk_machine m1 s1, L)
      = Ret tt (mk_machine m2 s1, L) /\ space_wf P D PD m2 s1 /\
    (forall v', low v' -> if bool_decide (page v' = page v)
       then leaf_of PD m2 v' = None \/ leaf_of PD m2 v' = leaf_of PD m v' /\ exhausted s1
       else leaf_of PD m2 v' = leaf_of PD m v') /\
    (forall id t, table P D PD m id = Some t -> table P D PD m2 id = Some t) /\
    (forall x, (forall id t, table P D PD m2 id = Some t -> ~ (t <= x < t + 4096)) -> m2 x = m x))
    as (m2 & -> & Hwf2 & Hl2 & Ht2 & Hfr2).
  { destruct r as [q|].
    - destruct Hres as (t & Hpt & -> & _).
      destruct (extends_found m s m1 s1 fs1 t v 0 Hext Hlow Hpt ltac:(unfold in_u; lia)) as (Hwf2 & Hl2 & _ & _ & Ht2 & Hf2).
      eexists. split; [done|]. split_and!; [done| |done|done]. intros v' Hv'.
      rewrite Hl2 by done. case_bool_decide; [rewrite decide_True by done; by left|by rewrite decide_False].
    - exists m1. split_and!; [done|done| |apply Hext|apply Hext]. intros v' Hv'.
      rewrite (ext_leaf _ _ _ _ _ _ _ _ Hext) by done. case_bool_decide; [|done]. right. split; [done|].
      eapply took_exhausted; [apply Hwf|done|done]. }
  destruct (IH m2 s1 L (v + PAGE_SIZE)) as (m3 & s3 & fs3 & -> & Hwf3 & Htk3 & Hl3 & Ht3 & Hfr3);
    [done|unfold aligned, PAGE_SIZE in *; zlia|unfold PAGE_SIZE; lia|unfold PAGE_SIZE in *; lia|].
  exists m3, s3, (fs1 ++ fs3). split_and!; [done|done|by eapply took_trans| | |].
  - intros v' Hv'. specialize (Hl2 v' Hv'). specialize (Hl3 v' Hv').
    rewrite Nat2Z.inj_succ. unfold Z.succ. rewrite in_pages_S by lia.
    assert (exhausted s1 -> exhausted s3) as Hex by (eapply took_exhausted; [apply Hwf1|done]).
    destruct (in_pages (v + PAGE_SIZE) (Z.of_nat n) v'), (bool_decide (page v' = page v)); simpl; naive_solver congruence.
  - auto.
  - intros x Hx. rewrite Hfr3 by done. eauto.
Qed.

Lemma in_pages_range v n v' :
  aligned v -> in_pages v n v' = ((v <=? v') && (v' <? v + n * PAGE_SIZE)).
Proof.
  unfold aligned, in_pages, page, PAGE_SIZE. intros Hv. apply eq_true_iff_eq.
  rewrite !andb_true_iff, !Z.leb_le, !Z.ltb_lt. zlia.
Qed.
Lemma range_ok virt len :
  0 <= virt -> 0 <= len -> bad_range virt len = false ->
  aligned virt /\ len = Z.of_nat (Z.to_nat (len / PAGE_SIZE)) * PAGE_SIZE /\ 0 < len /\
  virt + len <= IDENTITY_MAP_END.
Proof.
  unfold bad_range, checked_add. intros H0 H1 H. rewrite !orb_false_iff in H.
  destruct H as [[[[Hv Hl] Hz] Hc] He]. to_prop. destruct (Z.ltb_spec (virt + len) (2 ^ 64)); [|done].
  unfold aligned, PAGE_SIZE in *. rewrite wrap_small in He by (unfold in_u; lia). split_and!; [done|zlia|lia|lia].
Qed.


(** C17: [unmap_range_in] removes the range and nothing else.  After it every
    address of a valid range has no translation (a page whose 2 MiB entry could
    not be split for lack of memory is the only exception, and then the
    allocator is empty), every other address translates as before, and memory
    outside the page tables is untouched. *)
Theorem unmap_range_in_unmaps m s L virt len :
  space_wf P D PD m s -> in_u 64 virt -> in_u 64 len ->
  exists m' s' fs,
    unmap_range_in P virt len (mk_machine m s, L) = Ret (negb (bad_range virt len)) (mk_machine m' s', L) /\
    space_wf P D PD m' s' /\ took s s' fs /\
    (bad_range virt len = false -> forall v', virt <= v' < virt + len ->
       translate m' P v' = None \/ translate m' P v' = translate m P v' /\ exhausted s') /\
    (forall v', low v' -> ~ (virt <= v' < virt + len) -> translate m' P v' = translate m P v') /\
    (forall x, (forall id t, table P D PD m' id = Some t -> ~ (t <= x < t + 4096)) -> m' x = m x).
Proof.
  intros Hwf [Hv0 _] [Hl0 _]. unfold unmap_range_in. destruct (bad_range virt len) eqn:E.
  { exists m, s, []. split_and!; try done. apply took_refl. }
  destruct (range_ok virt len Hv0 Hl0 E) as (Hal & Hlen & Hpos & Hmax).
  set (n := Z.to_nat (len / PAGE_SIZE)) in *.
  destruct (unmap_pages_spec n m s L virt Hwf Hal Hv0 ltac:(lia)) as (m' & s' & fs & Hr & Hwf' & Htk & Hl & _ & Hfr).
  exists m', s', fs. unfold mbind, st_bind. rewrite Hr.
  assert (forall v', in_pages virt (Z.of_nat n) v' = ((virt <=? v') && (v' <? virt + len))) as Hin.
  { intros v'. rewrite in_pages_range by done. by rewrite <- Hlen. }
  split_and!; [done|done|done| | |done].
  - intros _ v' Hv'. assert (low v') as Hlow by (unfold low; lia). specialize (Hl v' Hlow). rewrite Hin in Hl.
    rewrite (proj2 (Z.leb_le _ _)), (proj2 (Z.ltb_lt _ _)) in Hl by lia. simpl in Hl.
    by rewrite (translate_low P D PD m' s'), (translate_low P D PD m s) by done.
  - intros v' Hlow Hout. specialize (Hl v' Hlow). rewrite Hin in Hl.
    rewrite (translate_low P D PD m' s'), (translate_low P D PD m s) by done.
    destruct (Z.leb_spec virt v'), (Z.ltb_spec v' (virt + len)); try done. lia.
Qed.

Lemma promote_supervisor fl p st :
  is_set fl PAGE_USER = false -> promote fl p st = Ret tt st.
Proof. intros H. unfold promote, mbind, st_bind, read_entry. by rewrite H. Qed.
(** With a page table in place and no user bit asked for, nothing changes. *)
Lemma pt_entry_present m s L fl v t track :
  space_wf P D PD m s -> low v -> pt_of PD m (region v) = Some t -> is_set fl PAGE_USER = false ->
  pt_entry_ptr_in P v fl track (mk_machine m s, L) = Ret (Some (entry_ptr t (index 12 v))) (mk_machine m s, L).
Proof.
  intros Hwf Hv Hpt Hfl. pose proof (region_slot v Hv) as Hr.
  destruct (wf_e4 _ _ _ _ _ Hwf) as [H4 H4b]. destruct (wf_e3 _ _ _ _ _ Hwf _ Hr) as (H3 & H3s & H3b).
  unfold pt_entry_ptr_in, pd_step. rewrite !index_bits by (unfold low in Hv; lia).
  rewrite index39, index30, index21 by done.
  unfold mbind, st_bind, read_entry. cbn [fst ram]. change (read_u64 m (entry_ptr P 0)) with (entry_at m P 0).
  rewrite H4, H4b. cbn [negb]. rewrite promote_supervisor by done. cbn [fst ram].
  change (read_u64 m (entry_ptr D _)) with (entry_at m D (region v / 512)).
  rewrite H3, H3s, H3b. cbn [negb orb]. rewrite promote_supervisor by done. cbn [fst ram].
  change (read_u64 m _) with (pd_entry PD m (region v)). unfold pt_of in Hpt.
  destruct (is_set (pd_entry PD m (region v)) PAGE_PRESENT); [|done].
  destruct (is_set (pd_entry PD m (region v)) PS_BIT); [done|]. cbn [negb andb] in *. injection Hpt as ->.
  rewrite promote_supervisor by done. done.
Qed.

(** single kernel pages round-trip.  [map_page] on a page-aligned pair
    below 4 GiB fails only when no frame is left for a page table; when it
    succeeds the page translates to the given frame and all others as before,
    and [unmap_page] afterwards succeeds without allocating and leaves that
    page, and only that page, unmapped. *)
Theorem map_page_roundtrip m s L virt phys flags :
  space_wf P D PD m s -> low virt -> aligned virt -> low phys -> aligned phys -> attrs_ok flags ->
  exists r m1 s1, map_page P virt phys flags (mk_machine m s, L) = Ret r (mk_machine m1 s1, L) /\
    space_wf P D PD m1 s1 /\
    (forall v, low v -> translate m1 P v =
       if r && (page v =? page virt) then Some (phys + (v - virt), perms flags) else translate m P v) /\
    if r : bool then
      exists m2, unmap_page P virt (mk_machine m1 s1, L) = Ret true (mk_machine m2 s1, L) /\
        space_wf P D PD m2 s1 /\
        forall v, low v -> translate m2 P v = if page v =? page virt then None else translate m P v
    else exhausted s.
Proof.
  intros Hwf Hv Hval Hp Hpal Hat. unfold map_page.
  rewrite (proj2 (Z.leb_gt _ virt)), (proj2 (Z.leb_gt _ phys)) by (unfold low in *; lia).
  rewrite (proj2 (Z.eqb_eq (virt mod _) 0)), (proj2 (Z.eqb_eq (phys mod _) 0)) by done. cbn [negb orb].
  destruct (pt_entry_spec m s L _ virt false Hwf Hv (attrs_flags _ Hat)) as (r & m1 & s1 & fs1 & Hr & Hext & _ & Hres).
  rewrite app_nil_r in Hr. unfold mbind, st_bind. rewrite Hr.
  pose proof (ext_wf _ _ _ _ _ _ _ _ Hext) as Hwf1.
  destruct r as [q|]; cycle 1.
  { exists false, m1, s1. split_and!; [done|done| |done]. intros v Hlow. simpl.
    rewrite (translate_low P D PD m1 s1), (translate_low P D PD m s) by done. by apply (ext_leaf _ _ _ _ _ _ _ _ Hext). }
  destruct Hres as (t & Hpt & -> & _).
  assert (in_u 52 phys) as Hpu by (unfold low, in_u, IDENTITY_MAP_END in *; lia).
  destruct (leaf_entry_value phys flags virt Hpal Hpu Hat) as [He _].
  destruct (set_leaf P D PD m1 s1 virt t _ Hwf1 Hv Hpt He) as (Hwf2 & Hl2 & _ & Htab2 & _).
  set (m2 := set_entry m1 t (index 12 virt) (leaf_entry phys flags)) in *.
  assert (forall v, low v -> translate m2 P v =
    if page v =? page virt then Some (phys + (v - virt), perms flags) else translate m P v) as Htr.
  { intros v Hlow. rewrite (translate_low P D PD m2 s1), (translate_low P D PD m s) by done. rewrite Hl2 by done.
    destruct (Z.eqb_spec (page v) (page virt)) as [Epg|].
    - rewrite decide_True by done. rewrite (proj2 (leaf_entry_value phys flags v Hpal Hpu Hat)).
      do 2 f_equal. unfold aligned, page in *. zlia.
    - rewrite decide_False by done. by apply (ext_leaf _ _ _ _ _ _ _ _ Hext). }
  exists true, m2, s1. split_and!; [done|done|done|]. unfold unmap_page.
  rewrite (proj2 (Z.leb_gt _ virt)) by (unfold low in *; lia).
  rewrite (proj2 (Z.eqb_eq (virt mod _) 0)) by done. cbn [negb orb].
  assert (pt_of PD m2 (region virt) = Some t) as Hpt2.
  { pose proof (Htab2 (T1 (region virt))) as Ht. by rewrite !table_T1, Hpt in Ht by (by apply region_low). }
  unfold mbind, st_bind. rewrite (pt_entry_present m2 s1 L (Z.lor PAGE_PRESENT PAGE_WRITABLE) virt t false Hwf2 Hv Hpt2 eq_refl).
  destruct (set_leaf P D PD m2 s1 virt t 0 Hwf2 Hv Hpt2 ltac:(unfold in_u; lia)) as (Hwf3 & Hl3 & _).
  exists (set_entry m2 t (index 12 virt) 0). split; [done|]. split; [exact Hwf3|]. intros v Hlow.
  rewrite (translate_low P D PD _ s1 v Hwf3 Hlow). rewrite Hl3 by done. case_decide as Epg.
  - by rewrite (proj2 (Z.eqb_eq _ _) Epg).
  - specialize (Htr v Hlow). rewrite (proj2 (Z.eqb_neq _ _) Epg) in Htr |- *.
    by rewrite <- Htr, (translate_low P D PD m2 s1 v) by done.
Qed.
End edits.

(** ** The boot map

    The tables the boot code builds, in frames 16 to 21: every 2 MiB region
    below 4 GiB mapped to itself, supervisor and writable. *)
Definition boot_entry (t i : Z) : Z :=
  if t =? 16 then (if i =? 0 then 17 * 4096 + 3 else 0)
  else if t =? 17 then (if i <? 4 then (18 + i) * 4096 + 3 else 0)
  else if (18 <=? t) && (t <? 22) then ((t - 18) * 512 + i) * 2 ^ 21 + 0x83
  else 0.
Definition boot_mem : mem := fun x =>
  le_split 8 (boot_entry (x / 4096) (x mod 4096 / 8)) !!! Z.to_nat (x mod 8).
Definition boot_PD (k : Z) : Z := (18 + k) * 4096.

Lemma boot_entry_at t i : 0 <= t -> slot i -> entry_at boot_mem (t * 4096) i = boot_entry t i mod 2 ^ 64.
Proof.
  intros Ht Hi. unfold entry_at, load.
  assert (mem_read boot_mem (entry_ptr (t * 4096) i) 8 = le_split 8 (boot_entry t i)) as ->.
  { apply list_eq. intros n. destruct (decide (n < 8)%nat) as [Hn|Hn].
    - rewrite lookup_mem_read by done. unfold boot_mem, entry_ptr, slot in *.
      assert ((t * 4096 + 8 * i + Z.of_nat n) / 4096 = t) as -> by zlia.
      assert ((t * 4096 + 8 * i + Z.of_nat n) mod 4096 / 8 = i) as -> by zlia.
      assert ((t * 4096 + 8 * i + Z.of_nat n) mod 8 = Z.of_nat n) as -> by zlia.
      rewrite Nat2Z.id. symmetry. apply list_lookup_lookup_total_lt. by rewrite length_le_split.
    - rewrite !lookup_ge_None_2; [done|rewrite length_le_split; lia|rewrite length_mem_read; lia]. }
  apply le_combine_split.
Qed.
Lemma boot_mem_wf : mem_wf boot_mem.
Proof.
  intros x. unfold boot_mem. pose proof (le_split_bytes 8 (boot_entry (x / 4096) (x mod 4096 / 8))) as Hb.
  rewrite Forall_lookup_total in Hb. apply Hb. rewrite length_le_split.
  pose proof (Z.mod_pos_bound x 8). lia.
Qed.
Lemma boot_pd_entry j :
  0 <= j < 2048 -> pd_entry boot_PD boot_mem j = j * 2 ^ 21 + 0x83.
Proof.
  intros Hj. unfold pd_entry, boot_PD. rewrite boot_entry_at by (unfold slot; zlia). unfold boot_entry.
  rewrite (proj2 (Z.eqb_neq _ 16)), (proj2 (Z.eqb_neq _ 17)), (proj2 (Z.leb_le 18 _)), (proj2 (Z.ltb_lt _ 22)) by zlia.
  cbn [andb]. change (2 ^ 21) with 2097152. change (2 ^ 64) with 18446744073709551616. zlia.
Qed.
Lemma boot_pt_of j : 0 <= j < 2048 -> pt_of boot_PD boot_mem j = None.
Proof.
  intros Hj. unfold pt_of. rewrite boot_pd_entry by done.
  assert (is_set (j * 2 ^ 21 + 0x83) PS_BIT = true) as ->; [|by rewrite andb_false_r].
  rewrite ps_bit. by rewrite high_low_bit by (rewrite ?Z_mod_mult; lia).
Qed.
Lemma boot_space_wf : space_wf (16 * 4096) (17 * 4096) boot_PD boot_mem small.
Proof.
  assert (forall id t, table (16 * 4096) (17 * 4096) boot_PD boot_mem id = Some t ->
    match id with T4 => t = 16 * 4096 | T3 => t = 17 * 4096
    | T2 k => 0 <= k < 4 /\ t = (18 + k) * 4096 | T1 _ => False end) as Htab.
  { intros [| |k|j] t; simpl; try congruence.
    - destruct ((0 <=? k) && (k <? 4)) eqn:E; [|done]. to_prop. unfold boot_PD. intros [= <-]. lia.
    - destruct ((0 <=? j) && (j <? 2048)) eqn:E; [|done]. to_prop. by rewrite boot_pt_of by lia. }
  split.
  - apply boot_mem_wf.
  - apply small_wf.
  - rewrite boot_entry_at by (unfold slot; lia). by vm_compute.
  - intros k Hk. rewrite boot_entry_at by (unfold slot; lia).
    assert (k = 0 \/ k = 1 \/ k = 2 \/ k = 3) as [->|[->|[->| ->]]] by lia; by vm_compute.
  - intros id t Ht%Htab. assert (exists f, t = f * 4096 /\ 16 <= f < 22) as (f & -> & Hf).
    { destruct id; [exists 16; lia|exists 17; lia|exists (18 + k); lia|done]. }
    unfold aligned. replace (f * 4096 / 4096) with f by zlia. split_and!; [zlia|lia|]. intros _.
    assert (f = 16 \/ f = 17 \/ f = 18 \/ f = 19 \/ f = 20 \/ f = 21) as Hc by lia.
    repeat destruct Hc as [->|Hc]; try subst; by vm_compute.
  - intros id1 id2 t H1%Htab H2%Htab. destruct id1, id2; try done; try lia. f_equal. lia.
Qed.

Example unmap_range_in_unmaps_witness :
  space_wf (16 * 4096) (17 * 4096) boot_PD boot_mem small /\
  exists m' s', unmap_range_in (16 * 4096) 0x3000000 0x2000 (mk_machine boot_mem small, []) =
      Ret true (mk_machine m' s', []) /\
    translate m' (16 * 4096) 0x3002000 = translate boot_mem (16 * 4096) 0x3002000.
Proof.
  split; [exact boot_space_wf|].
  destruct (unmap_range_in_unmaps (16 * 4096) (17 * 4096) boot_PD boot_mem small [] 0x3000000 0x2000 boot_space_wf)
    as (m' & s' & fs & Hr & _ & _ & _ & Hout & _); [unfold in_u; lia..|].
  exists m', s'. split; [exact Hr|]. apply Hout; [unfold low, IDENTITY_MAP_END; lia|lia].
Defined.
Example map_page_roundtrip_witness :
  space_wf (16 * 4096) (17 * 4096) boot_PD boot_mem small /\
  exists r m1 s1, map_page (16 * 4096) 0x3000000 0x5000 3 (mk_machine boot_mem small, []) =
      Ret r (mk_machine m1 s1, []) /\
    (if r : bool then translate m1 (16 * 4096) 0x3000010 = Some (0x5010, 2) else exhausted small).
Proof.
  split; [exact boot_space_wf|].
  destruct (map_page_roundtrip (16 * 4096) (17 * 4096) boot_PD boot_mem small [] 0x3000000 0x5000 3 boot_space_wf)
    as (r & m1 & s1 & Hr & _ & Htr & Hres);
    [unfold low, IDENTITY_MAP_END; lia|done|unfold low, IDENTITY_MAP_END; lia|done|split; [unfold in_u; lia|done]|].
  exists r, m1, s1. split; [exact Hr|]. destruct r.
  - rewrite (Htr 0x3000010) by (unfold low, IDENTITY_MAP_END; lia). reflexivity.
  - exact Hres.
Defined.

(** When a directory entry is missing, [pt_entry_ptr_in] builds it from the
    page's own flags, no-execute bit included, so the whole 2 MiB region stops
    being executable: with the entry of 0x3000000 cleared, mapping one NX page
    there leaves NX on the directory entry. *)
Definition cleared_mem : mem := set_entry boot_mem (boot_PD 0) 24 0.
Definition nx_mapped : machine * list Z :=
  ret_state (mk_machine cleared_mem small, [])
    (map_range_in (16 * 4096) 0x3000000 0x5000 0x1000 (Z.lor PAGE_NX 7) (mk_machine cleared_mem small, [])).
Theorem nx_reaches_directory :
  ret_val (map_range_in (16 * 4096) 0x3000000 0x5000 0x1000 (Z.lor PAGE_NX 7) (mk_machine cleared_mem small, []))
    = Some true /\
  is_set (entry_at (ram nx_mapped.1) (boot_PD 0) 24) PAGE_NX = true.
Proof. split; vm_compute; reflexivity. Qed.
