(* ===== verification/Shm.v ===== *)
(** * Shared-memory objects, [shm.rs]

    A table of reference-counted objects, each backed by one contiguous run of
    frames.  The references are the file descriptors of all processes; the
    invariant ties the counts, the table and the frame bitmap together. *)
From S2P Require Import Prelude Bytes PhysMem Pmm Paging.

Record SharedMem := mk_shm { phys : Z; pages : Z; size : Z; refcount : Z }.
Record shm := mk_state { vm : machine; TABLE : list (option SharedMem) }.

Definition get (s : shm) (id : Z) : option SharedMem := mjoin (TABLE s !! Z.to_nat id).
Definition set_slot (id : Z) (o : option SharedMem) : ST shm unit :=
  modify (fun s => mk_state (vm s) (<[Z.to_nat id := o]> (TABLE s))).
Definition lift_pmm {A} (f : ST pmm A) : ST shm A := fun s =>
  match f (frames (vm s)) with
  | Ret a fs => Ret a (mk_state (mk_machine (ram (vm s)) fs) (TABLE s))
  | Panic => Panic
  end.
Definition write_mem (f : mem -> mem) : ST shm unit :=
  modify (fun s => mk_state (mk_machine (f (ram (vm s))) (frames (vm s))) (TABLE s)).

(** The first empty slot, or the length of the table. *)
Fixpoint free_slot (t : list (option SharedMem)) (i : nat) : nat :=
  match t with
  | [] => i
  | None :: _ => i
  | Some _ :: t => free_slot t (S i)
  end.
Definition create : ST shm Z := fun s =>
  let i := free_slot (TABLE s) 0 in
  let obj := mk_shm 0 0 0 1 in
  Ret (Z.of_nat i) (mk_state (vm s)
    (if decide (i < length (TABLE s))%nat then <[i := Some obj]> (TABLE s) else TABLE s ++ [Some obj])).

Definition truncate (id new_size : Z) : ST shm bool :=
  s ← get_st;
  match get s id with
  | None => mret false
  | Some obj =>
      let resized := mk_shm (phys obj) (pages obj) new_size (refcount obj) in
      if new_size <=? size obj then set_slot id (Some resized);; mret true else
      let needed_pages := Z.max (div_ceil new_size FRAME_SIZE) 1 in
      if needed_pages <=? pages obj then set_slot id (Some resized);; mret true else
      new ← lift_pmm (alloc_contiguous needed_pages);
      match new with
      | None => mret false
      | Some new_phys =>
          write_mem (fun m => mem_fill m new_phys (needed_pages * FRAME_SIZE) 0);;
          (if 0 <? pages obj then
             write_mem (fun m => mem_copy m (phys obj) new_phys (pages obj * FRAME_SIZE));;
             lift_pmm (free_pages (Z.to_nat (pages obj)) (phys obj))
           else mret tt);;
          set_slot id (Some (mk_shm new_phys needed_pages new_size (refcount obj)));;
          mret true
      end
  end.

Definition size_of (s : shm) (id : Z) : option Z := size <$> get s id.
Definition phys_of (s : shm) (id : Z) : option Z := phys <$> get s id.
Definition pages_of (s : shm) (id : Z) : option Z := pages <$> get s id.

Definition dup (id : Z) : ST shm unit :=
  s ← get_st;
  match get s id with
  | Some obj => set_slot id (Some (mk_shm (phys obj) (pages obj) (size obj) (wrap 64 (refcount obj + 1))))
  | None => mret tt
  end.
Definition close (id : Z) : ST shm unit :=
  s ← get_st;
  match get s id with
  | None => mret tt
  | Some obj =>
      let count := wrap 64 (refcount obj - 1) in
      set_slot id (Some (mk_shm (phys obj) (pages obj) (size obj) count));;
      if count =? 0 then
        lift_pmm (free_pages (Z.to_nat (pages obj)) (phys obj));;
        set_slot id None
      else mret tt
  end.

(** ** The invariant

    [s0] is the bitmap before any object existed; [refs] lists, with
    repetition, the ids the open descriptors refer to. *)
Definition owns (o : SharedMem) (x : Z) : bool :=
  (phys o / FRAME_SIZE <=? x) && (x <? phys o / FRAME_SIZE + pages o).
Definition obj_ok (s0 : pmm) (o : SharedMem) : Prop :=
  0 <= phys o /\ phys o mod FRAME_SIZE = 0 /\ 0 <= pages o /\ 0 <= size o <= pages o * FRAME_SIZE /\
  (forall x, owns o x = true -> frame_ok x /\ used s0 x = false).
Definition count (refs : list Z) (id : Z) : Z := Z.of_nat (length (filter (fun r => r = id) refs)).

Record shm_inv (s0 : pmm) (s : shm) (refs : list Z) : Prop := {
  inv_pmm : pmm_wf (frames (vm s));
  inv_last : LAST_USABLE_FRAME (frames (vm s)) = LAST_USABLE_FRAME s0;
  inv_obj : forall i o, TABLE s !! i = Some (Some o) -> obj_ok s0 o;
  inv_used : forall x, frame_ok x -> used (frames (vm s)) x = true <->
    used s0 x = true \/ exists i o, TABLE s !! i = Some (Some o) /\ owns o x = true;
  inv_apart : forall i j o p x, TABLE s !! i = Some (Some o) -> TABLE s !! j = Some (Some p) ->
    owns o x = true -> owns p x = true -> i = j;
  inv_refs : Z.of_nat (length refs) < 2 ^ 64 /\ forall r, r ∈ refs -> 0 <= r;
  inv_count : forall id, 0 <= id -> match get s id with
    | Some o => refcount o = count refs id /\ 0 < refcount o
    | None => count refs id = 0
    end
}.

(** What a descriptor table may do with the ids it holds. *)
Inductive shm_step : shm * list Z -> shm * list Z -> Prop :=
| step_create s s' id refs :
    create s = Ret id s' -> Z.of_nat (length refs) + 1 < 2 ^ 64 -> shm_step (s, refs) (s', id :: refs)
| step_truncate s s' id n r refs :
    id ∈ refs -> 0 <= n -> truncate id n s = Ret r s' -> shm_step (s, refs) (s', refs)
| step_dup s s' id refs :
    id ∈ refs -> Z.of_nat (length refs) + 1 < 2 ^ 64 -> dup id s = Ret tt s' ->
    shm_step (s, refs) (s', id :: refs)
| step_close s s' id r1 r2 :
    close id s = Ret tt s' -> shm_step (s, r1 ++ id :: r2) (s', r1 ++ r2).

Lemma count_cons r refs id : count (r :: refs) id = (if decide (r = id) then 1 else 0) + count refs id.
Proof. unfold count. rewrite filter_cons. case_decide; simpl; lia. Qed.
Lemma count_app r1 r2 id : count (r1 ++ r2) id = count r1 id + count r2 id.
Proof. unfold count. rewrite filter_app, length_app. lia. Qed.
Lemma count_bound refs id : 0 <= count refs id <= Z.of_nat (length refs).
Proof. unfold count. pose proof (length_filter (fun r => r = id) refs). lia. Qed.
Lemma count_elem refs id : id ∈ refs -> 0 < count refs id.
Proof.
  intros (l1 & l2 & ->)%list_elem_of_split. rewrite count_app, count_cons, decide_True by done.
  pose proof (count_bound l1 id). pose proof (count_bound l2 id). lia.
Qed.

(** The part of the invariant about frames. *)
Record frames_inv (s0 fs : pmm) (t : list (option SharedMem)) : Prop := {
  fi_pmm : pmm_wf fs;
  fi_last : LAST_USABLE_FRAME fs = LAST_USABLE_FRAME s0;
  fi_obj : forall i o, t !! i = Some (Some o) -> obj_ok s0 o;
  fi_used : forall x, frame_ok x -> used fs x = true <->
    used s0 x = true \/ exists i o, t !! i = Some (Some o) /\ owns o x = true;
  fi_apart : forall i j o p x, t !! i = Some (Some o) -> t !! j = Some (Some p) ->
    owns o x = true -> owns p x = true -> i = j
}.
Definition owned_by (o : option SharedMem) (x : Z) : Prop := exists p, o = Some p /\ owns p x = true.

Lemma frames_update s0 fs fs' t i old new :
  frames_inv s0 fs t -> t !! i = Some old -> pmm_wf fs' -> LAST_USABLE_FRAME fs' = LAST_USABLE_FRAME fs ->
  (forall o, new = Some o -> obj_ok s0 o) ->
  (forall x, frame_ok x -> used fs' x = true <-> used fs x = true /\ ~ owned_by old x \/ owned_by new x) ->
  (forall x, owned_by new x -> used fs x = false \/ owned_by old x) ->
  frames_inv s0 fs' (<[i := new]> t).
Proof.
  intros [Hp Hl Ho Hu Ha] Hi Hp' Hl' Hn Hused Hnew.
  assert (i < length t)%nat as Hlt by (by eapply lookup_lt_Some).
  assert (forall j o, <[i := new]> t !! j = Some (Some o) <->
    (j = i /\ new = Some o) \/ (j <> i /\ t !! j = Some (Some o))) as Hlook.
  { intros j o. rewrite list_lookup_insert_Some. naive_solver. }
  assert (forall j o x, t !! j = Some (Some o) -> owns o x = true -> frame_ok x /\ used fs x = true /\ used s0 x = false)
    as Hown.
  { intros j o x Hj Hx. destruct (Ho j o Hj) as (_ & _ & _ & _ & Hf). destruct (Hf x Hx) as [? ?].
    split_and!; try done. rewrite Hu by done. right. by exists j, o. }
  split; [done|congruence| | |].
  - intros j o. rewrite Hlook. naive_solver.
  - intros x Hx. rewrite Hused, Hu by done. setoid_rewrite Hlook. split.
    + intros [[[?|(j & o & Hj & Hox)] Hno]|(o & Hno & Hox)]; [by left| |right; by exists i, o; auto].
      right. exists j, o. split; [|done]. right. split; [|done]. intros ->. apply Hno. exists o. split; [congruence|done].
    + intros [Hs|(j & o & [[-> Hno]|[Hne Hj]] & Hox)].
      * left. split; [by left|]. intros (o & -> & Hox). destruct (Hown i o x Hi Hox) as (_ & _ & ?). congruence.
      * right. by exists o.
      * left. split; [right; by exists j, o|]. intros (p & -> & Hpx). by apply Hne, (Ha j i o p x).
  - intros j k o p x. rewrite !Hlook. intros [[-> Hno]|[Hne Hj]] [[-> Hnp]|[Hne' Hk]] Hox Hpx; [done| | |by eapply Ha].
    + destruct (Hown k p x Hk Hpx) as (_ & Hc & _). exfalso.
      destruct (Hnew x) as [?|(q & -> & Hqx)]; [by exists o|congruence|].
      by apply Hne', (Ha k i p q x).
    + destruct (Hown j o x Hj Hox) as (_ & Hc & _). exfalso.
      destruct (Hnew x) as [?|(q & -> & Hqx)]; [by exists p|congruence|].
      by apply Hne, (Ha j i o q x).
Qed.

Lemma frames_grow s0 fs t : frames_inv s0 fs t -> frames_inv s0 fs (t ++ [None]).
Proof.
  assert (forall i o, (t ++ [None]) !! i = Some (Some o) <-> t !! i = Some (Some o)) as Hlook.
  { intros i o. rewrite lookup_app. destruct (t !! i) eqn:E; [done|].
    destruct (i - length t)%nat as [|k]; simpl; [naive_solver|]. by rewrite lookup_nil. }
  intros [Hp Hl Ho Hu Ha]. split; [done|done| | |].
  - intros i o. rewrite Hlook. apply Ho.
  - intros x Hx. setoid_rewrite Hlook. by apply Hu.
  - intros i j o p x. rewrite !Hlook. apply Ha.
Qed.

(** A change of an object that keeps its frames. *)
Lemma frames_same s0 fs t i o o' :
  frames_inv s0 fs t -> t !! i = Some (Some o) -> phys o' = phys o -> pages o' = pages o ->
  0 <= size o' <= pages o * FRAME_SIZE -> frames_inv s0 fs (<[i := Some o']> t).
Proof.
  intros Hinv Hi Hph Hpg Hsz.
  assert (forall x, owns o' x = owns o x) as Hown by (intros; unfold owns; by rewrite Hph, Hpg).
  eapply frames_update; [done|done|apply Hinv|done| | |].
  - intros ? [= <-]. destruct (fi_obj _ _ _ Hinv i o Hi) as (? & ? & ? & ? & Hf).
    unfold obj_ok. rewrite Hph, Hpg. setoid_rewrite Hown. done.
  - intros x Hx. split.
    + intros Hu. destruct (owns o x) eqn:E; [right; exists o'; by rewrite Hown|left]. split; [done|].
      intros (p & [= <-] & ?). congruence.
    + intros [[? _]|(p & [= <-] & Hp)]; [done|]. rewrite Hown in Hp.
      apply (fi_used _ _ _ Hinv x Hx). right. by exists i, o.
  - intros x (p & [= <-] & Hp). right. exists o. by rewrite <- Hown.
Qed.

(** Giving back the frames of an object. *)
Lemma free_object s0 fs o :
  pmm_wf fs -> obj_ok s0 o ->
  exists fs', free_pages (Z.to_nat (pages o)) (phys o) fs = Ret tt fs' /\ pmm_wf fs' /\
    LAST_USABLE_FRAME fs' = LAST_USABLE_FRAME fs /\
    forall x, frame_ok x -> used fs' x = negb (owns o x) && used fs x.
Proof.
  intros Hfs (Hp0 & Hpm & Hpg & _ & Hf).
  assert (phys o = phys o / FRAME_SIZE * FRAME_SIZE) as Hst by (unfold FRAME_SIZE in *; zlia).
  assert (0 <= phys o / FRAME_SIZE) as H0 by (unfold FRAME_SIZE in *; zlia).
  destruct (decide (pages o = 0)) as [Hz|Hz].
  { exists fs. rewrite Hz. split_and!; try done. intros x Hx. unfold owns. rewrite Hz.
    destruct (Z.leb_spec (phys o / FRAME_SIZE) x), (Z.ltb_spec x (phys o / FRAME_SIZE + 0)); done || lia. }
  destruct (free_pages_spec (Z.to_nat (pages o)) (phys o / FRAME_SIZE) fs) as (fs' & Hr & Hwf & Hl & Hu); [done|done| |].
  { destruct (Hf (phys o / FRAME_SIZE + pages o - 1)) as [[_ Hmax] _]; [|lia].
    unfold owns. by rewrite (proj2 (Z.leb_le _ _)), (proj2 (Z.ltb_lt _ _)) by lia. }
  rewrite <- Hst in Hr. exists fs'. split_and!; [done|done|done|]. intros x Hx. rewrite Hu by done.
  unfold owns. by rewrite Z2Nat.id by done.
Qed.

(** ** Preservation *)
Lemma inv_frames s0 s refs : shm_inv s0 s refs -> frames_inv s0 (frames (vm s)) (TABLE s).
Proof. intros []. by split. Qed.
Lemma get_Some s id o : get s id = Some o <-> TABLE s !! Z.to_nat id = Some (Some o).
Proof. unfold get. destruct (TABLE s !! Z.to_nat id) as [[]|]; simpl; naive_solver. Qed.
Lemma get_insert v t id id' o :
  0 <= id -> 0 <= id' -> (Z.to_nat id < length t)%nat ->
  get (mk_state v (<[Z.to_nat id := o]> t)) id' = if decide (id = id') then o else get (mk_state v t) id'.
Proof.
  intros. unfold get. simpl. case_decide as E; [subst; by rewrite list_lookup_insert_eq|].
  by rewrite list_lookup_insert_ne by lia.
Qed.

(** A change of slot [id] of a table in which it exists. *)
Lemma inv_update s0 v t v' refs refs' id new :
  frames_inv s0 (frames v') (<[Z.to_nat id := new]> t) -> (Z.to_nat id < length t)%nat -> 0 <= id ->
  Z.of_nat (length refs') < 2 ^ 64 -> (forall r, r ∈ refs' -> 0 <= r) ->
  (forall i, 0 <= i -> match get (mk_state v t) i with
     | Some o => refcount o = count refs i /\ 0 < refcount o | None => count refs i = 0 end) ->
  (forall i, i <> id -> count refs' i = count refs i) ->
  match new with Some o => refcount o = count refs' id /\ 0 < refcount o | None => count refs' id = 0 end ->
  shm_inv s0 (mk_state v' (<[Z.to_nat id := new]> t)) refs'.
Proof.
  intros [] Hlt H0 Hlen Hpos Hc Hother Hid. split; simpl; try done. intros i Hi.
  change (get (mk_state v' ?t) i) with (get (mk_state v t) i).
  rewrite get_insert by done. case_decide as E; [by subst|]. rewrite Hother by done. by apply Hc.
Qed.

Lemma free_slot_spec t : forall i,
  let k := free_slot t i in
  (i <= k <= i + length t)%nat /\ (k < i + length t -> t !! (k - i)%nat = Some None)%nat.
Proof.
  induction t as [|[o|] t IH]; intros i; simpl; [lia| |].
  - destruct (IH (S i)) as [Hk Hn]. split; [lia|]. intros Hlt.
    replace (free_slot t (S i) - i)%nat with (S (free_slot t (S i) - S i)) by lia. apply Hn. lia.
  - split; [lia|]. intros _. by replace (i - i)%nat with 0%nat by lia.
Qed.

Lemma create_inv s0 s refs :
  shm_inv s0 s refs -> Z.of_nat (length refs) + 1 < 2 ^ 64 ->
  exists id s', create s = Ret id s' /\ shm_inv s0 s' (id :: refs) /\ get s id = None /\ vm s' = vm s.
Proof.
  intros Hinv Hlen. unfold create. destruct (free_slot_spec (TABLE s) 0) as [Hk Hn].
  set (k := free_slot (TABLE s) 0) in *. rewrite Nat.sub_0_r in Hn. simpl in Hk, Hn.
  set (obj := mk_shm 0 0 0 1).
  assert (exists t, frames_inv s0 (frames (vm s)) t /\ t !! k = Some None /\
    (forall i, get (mk_state (vm s) t) i = get s i) /\
    (if decide (k < length (TABLE s))%nat then <[k := Some obj]> (TABLE s) else TABLE s ++ [Some obj]) = <[k := Some obj]> t)
    as (t & Hfi & Hslot & Hget & ->).
  { case_decide as E.
    - exists (TABLE s). split_and!; [by eapply inv_frames|auto|done|done].
    - assert (k = length (TABLE s)) as -> by lia. exists (TABLE s ++ [None]). split_and!.
      + by eapply frames_grow, inv_frames.
      + by apply list_lookup_middle.
      + intros i. unfold get. simpl. rewrite lookup_app. destruct (TABLE s !! Z.to_nat i) eqn:El; [done|].
        destruct (Z.to_nat i - length (TABLE s))%nat as [|n]; done.
      + rewrite insert_app_r_alt, Nat.sub_diag by lia. done. }
  assert (get s (Z.of_nat k) = None) as Hnone.
  { rewrite <- Hget. unfold get. simpl. by rewrite Nat2Z.id, Hslot. }
  pose proof (inv_count _ _ _ Hinv (Z.of_nat k) ltac:(lia)) as Hc0. rewrite Hnone in Hc0.
  pose proof (inv_refs _ _ _ Hinv) as [Hrl Hrp].
  assert (k < length t)%nat as Hlt by (by eapply lookup_lt_Some).
  eexists _, _. split; [done|]. split_and!; [|done|done].
  pose proof (inv_update s0 (vm s) t (vm s) refs (Z.of_nat k :: refs) (Z.of_nat k) (Some obj)) as Hup.
  rewrite Nat2Z.id in Hup. apply Hup; [|done|lia|simpl; lia| | | |].
  - eapply frames_update; [exact Hfi|done|apply Hfi|done| | |].
    + intros o [= <-]. unfold obj_ok, obj; simpl. split_and!; try done; try lia.
      intros x. unfold owns; simpl. intros Hx. to_prop. lia.
    + intros x Hx. assert (~ owned_by (Some obj) x) as Hno.
      { intros (p & [= <-] & Hp). unfold owns in Hp; simpl in Hp. to_prop. lia. }
      assert (~ owned_by None x) as Hno' by (by intros (p & ? & _)). naive_solver.
    + intros x (p & [= <-] & Hp). unfold owns in Hp; simpl in Hp. to_prop. lia.
  - intros r [->|Hr]%elem_of_cons; [lia|auto].
  - intros i Hi. rewrite Hget. by apply (inv_count _ _ _ Hinv).
  - intros i Hi. rewrite count_cons, decide_False; [done|congruence].
  - rewrite count_cons, decide_True by done. simpl. lia.
Qed.

(** The bytes of an object after a successful [truncate]. *)
Definition resized (m m' : mem) (o o' : SharedMem) (n : Z) : Prop :=
  size o' = n /\ refcount o' = refcount o /\ pages o <= pages o' /\ n <= pages o' * FRAME_SIZE /\
  (forall k, 0 <= k < pages o * FRAME_SIZE -> m' (phys o' + k) = m (phys o + k)) /\
  (forall k, pages o * FRAME_SIZE <= k < pages o' * FRAME_SIZE -> m' (phys o' + k) = 0) /\
  (forall x, owns o' (x / FRAME_SIZE) = false -> m' x = m x).

Lemma live_object s0 s refs id :
  shm_inv s0 s refs -> id ∈ refs ->
  exists o, get s id = Some o /\ TABLE s !! Z.to_nat id = Some (Some o) /\ obj_ok s0 o /\
    0 <= id /\ (Z.to_nat id < length (TABLE s))%nat /\ refcount o = count refs id.
Proof.
  intros Hinv Hid. pose proof (inv_refs _ _ _ Hinv) as [_ Hp]. specialize (Hp id Hid).
  pose proof (inv_count _ _ _ Hinv id Hp) as Hc. pose proof (count_elem refs id Hid).
  destruct (get s id) as [o|] eqn:E; [|lia]. exists o. pose proof E as E'. rewrite get_Some in E'.
  split_and!; try done; [by eapply inv_obj|by eapply lookup_lt_Some|apply Hc].
Qed.
(** Replacing an object by one with the same count. *)
Lemma inv_replace s0 s refs v id o o' :
  shm_inv s0 s refs -> id ∈ refs -> get s id = Some o ->
  frames_inv s0 (frames v) (<[Z.to_nat id := Some o']> (TABLE s)) -> refcount o' = refcount o ->
  shm_inv s0 (mk_state v (<[Z.to_nat id := Some o']> (TABLE s))) refs.
Proof.
  intros Hinv Hid Hg Hfi Hrc. destruct (live_object _ _ _ _ Hinv Hid) as (o2 & Hg2 & _ & _ & H0 & Hlt & Hc).
  rewrite Hg in Hg2. injection Hg2 as <-. pose proof (count_elem refs id Hid). pose proof (inv_refs _ _ _ Hinv) as [Hrl Hrp].
  apply (inv_update s0 (vm s) (TABLE s) v refs refs id); try done.
  - intros i Hi. by apply (inv_count _ _ _ Hinv).
  - rewrite Hrc. lia.
Qed.

Section truncate.
Context (s0 : pmm) (s : shm) (refs : list Z) (id n : Z) (o : SharedMem).
Context (Hinv : shm_inv s0 s refs) (Hid : id ∈ refs) (Hn : 0 <= n) (Hget : get s id = Some o).

Lemma resize_in_place :
  n <= pages o * FRAME_SIZE ->
  let o' := mk_shm (phys o) (pages o) n (refcount o) in
  shm_inv s0 (mk_state (vm s) (<[Z.to_nat id := Some o']> (TABLE s))) refs /\ resized (ram (vm s)) (ram (vm s)) o o' n.
Proof.
  intros Hle o'. pose proof Hget as Ht. rewrite get_Some in Ht. split.
  - eapply inv_replace; try done. eapply frames_same; [by eapply inv_frames|done|done|done|]. simpl. lia.
  - unfold resized; simpl. split_and!; try done; lia.
Qed.

(** The fresh block and the old one do not overlap. *)
Lemma grow_frames fs1 st need :
  pages o < need -> n <= need * FRAME_SIZE ->
  pmm_wf fs1 -> LAST_USABLE_FRAME fs1 = LAST_USABLE_FRAME (frames (vm s)) ->
  0 <= st -> st + need <= LAST_USABLE_FRAME (frames (vm s)) + 1 -> free_run (frames (vm s)) st need ->
  (forall x, 0 <= x -> used fs1 x = ((st <=? x) && (x <? st + need)) || used (frames (vm s)) x) ->
  let o' := mk_shm (st * FRAME_SIZE) need n (refcount o) in
  (forall x, owns o' x = ((st <=? x) && (x <? st + need))) /\
  (forall x, owns o' x = true -> owns o x = false) /\
  exists fs2, free_pages (Z.to_nat (pages o)) (phys o) fs1 = Ret tt fs2 /\
    frames_inv s0 fs2 (<[Z.to_nat id := Some o']> (TABLE s)).
Proof.
  intros Hneed Hsz Hwf1 Hl1 Hst Hmax Hfree Hu1 o'.
  destruct (live_object _ _ _ _ Hinv Hid) as (o2 & Hg2 & Ht & Hok & _). rewrite Hget in Hg2. injection Hg2 as <-.
  pose proof (inv_frames _ _ _ Hinv) as Hfi. pose proof (fi_pmm _ _ _ Hfi) as [_ Hlast].
  assert (forall x, owns o' x = ((st <=? x) && (x <? st + need))) as Hown.
  { intros x. unfold owns, o'; simpl. by replace (st * FRAME_SIZE / FRAME_SIZE) with st by (unfold FRAME_SIZE; zlia). }
  assert (forall x, owns o x = true -> frame_ok x /\ used (frames (vm s)) x = true) as Hold.
  { intros x Hx. destruct Hok as (_ & _ & _ & _ & Hf). destruct (Hf x Hx). split; [done|].
    apply (fi_used _ _ _ Hfi x); [done|]. right. by exists (Z.to_nat id), o. }
  assert (forall x, owns o' x = true -> used (frames (vm s)) x = false /\ frame_ok x) as Hnew.
  { intros x Hx. rewrite Hown in Hx. to_prop. split; [apply Hfree; lia|unfold frame_ok; lia]. }
  split_and!; [done| |].
  { intros x Hx. destruct (owns o x) eqn:E; [|done]. destruct (Hold x E), (Hnew x Hx). congruence. }
  destruct (free_object s0 fs1 o Hwf1 Hok) as (fs2 & Hf & Hwf2 & Hl2 & Hu2). exists fs2. split; [done|].
  eapply frames_update; [done|done|done|congruence| | |].
  - intros ? [= <-]. unfold obj_ok. split_and!; simpl; try (unfold FRAME_SIZE in *; lia || zlia).
    intros x Hx. destruct (Hnew x Hx) as [Huf Hok']. split; [done|].
    destruct (used s0 x) eqn:E; [|done]. assert (used (frames (vm s)) x = true); [|congruence].
    apply (fi_used _ _ _ Hfi x); auto.
  - intros x Hx. rewrite Hu2, Hu1, <- Hown by (done || apply Hx). unfold owned_by. split.
    + intros [Ho Hor]%andb_true_iff. to_prop. apply orb_true_iff in Hor as [?|?].
      * right. by exists o'.
      * left. split; [done|]. intros (p & [= <-] & ?). congruence.
    + intros [[Hu Hno]|(p & [= <-] & Hp)].
      * rewrite Hu, orb_true_r. destruct (owns o x) eqn:E; [|done]. destruct Hno. by exists o.
      * rewrite Hp. destruct (owns o x) eqn:E; [|done]. destruct (Hold x E), (Hnew x Hp). congruence.
  - intros x (p & [= <-] & Hp). left. by apply Hnew.
Qed.

Lemma truncate_spec :
  exists r s', truncate id n s = Ret r s' /\ shm_inv s0 s' refs /\
    if r : bool then exists o', get s' id = Some o' /\ resized (ram (vm s)) (ram (vm s')) o o' n /\
      TABLE s' = <[Z.to_nat id := Some o']> (TABLE s) /\
      (phys o' <> phys o -> forall x, owns o' x = true -> owns o x = false)
    else s' = s.
Proof.
  destruct (live_object _ _ _ _ Hinv Hid) as (o2 & Hg2 & Ht & Hok & H0 & Hlt & _).
  rewrite Hget in Hg2. injection Hg2 as <-.
  assert (forall v x, get (mk_state v (<[Z.to_nat id := x]> (TABLE s))) id = x) as Hself.
  { intros v x. rewrite get_insert by done. by rewrite decide_True. }
  unfold truncate, get_st, mbind, st_bind. rewrite Hget.
  destruct (Z.leb_spec n (size o)).
  { destruct resize_in_place as [? ?]; [destruct Hok; lia|].
    eexists true, _. split; [done|]. split; [done|]. eexists. split_and!; [apply Hself|eassumption|done|done]. }
  set (need := Z.max (div_ceil n FRAME_SIZE) 1).
  assert (n <= need * FRAME_SIZE) as Hneed.
  { unfold need. rewrite div_ceil_spec by (unfold FRAME_SIZE; lia). unfold FRAME_SIZE. zlia. }
  destruct (Z.leb_spec need (pages o)).
  { destruct resize_in_place as [? ?]; [unfold FRAME_SIZE in *; lia|].
    eexists true, _. split; [done|]. split; [done|]. eexists. split_and!; [apply Hself|eassumption|done|done]. }
  destruct (alloc_contiguous_spec need (frames (vm s)) (inv_pmm _ _ _ Hinv) ltac:(lia))
    as (r & fs1 & Ha & Hwf1 & Hl1 & Hr).
  unfold lift_pmm at 1. rewrite Ha. destruct r as [new_phys|]; cycle 1.
  { destruct Hr as [-> _]. exists false, s. split_and!; [by destruct s as [[]]|done|done]. }
  destruct Hr as (st & -> & Hst & _ & Hmax & Hfree & _ & Hu1).
  destruct (grow_frames fs1 st need) as (Hown & Hapart & fs2 & Hf2 & Hfi2); try done.
  set (o' := mk_shm (st * FRAME_SIZE) need n (refcount o)) in *.
  destruct Hok as (Hp0 & Hpm & Hpg & Hsz & _).
  set (m1 := mem_fill (ram (vm s)) (st * FRAME_SIZE) (need * FRAME_SIZE) 0).
  set (m2 := if 0 <? pages o then mem_copy m1 (phys o) (st * FRAME_SIZE) (pages o * FRAME_SIZE) else m1).
  exists true, (mk_state (mk_machine m2 fs2) (<[Z.to_nat id := Some o']> (TABLE s))). split_and!.
  - unfold write_mem, lift_pmm, set_slot, modify, mret, st_ret, m2. simpl.
    destruct (Z.ltb_spec 0 (pages o)); simpl; [by rewrite Hf2|].
    assert (pages o = 0) as Hz by lia. rewrite Hz in Hf2. injection Hf2 as <-. done.
  - by eapply inv_replace.
  - exists o'. split; [apply Hself|]. split; [|split; [done|intros _; exact Hapart]]. unfold resized. simpl.
    assert (forall x, owns o' (x / FRAME_SIZE) = false -> m2 x = ram (vm s) x) as Hout.
    { intros x Hx. rewrite Hown in Hx. unfold m2, m1, mem_copy, mem_fill, FRAME_SIZE in *.
      destruct (Z.leb_spec st (x / 4096)), (Z.ltb_spec (x / 4096) (st + need)); try done;
      destruct (0 <? pages o); destruct (Z.leb_spec (st * 4096) x), (Z.ltb_spec x (st * 4096 + need * 4096)),
        (Z.ltb_spec x (st * 4096 + pages o * 4096)); simpl; done || zlia. }
    split_and!; try done; try lia.
    + intros k Hk. unfold m2. rewrite (proj2 (Z.ltb_lt 0 _)) by (unfold FRAME_SIZE in *; lia).
      unfold mem_copy. rewrite (proj2 (Z.leb_le _ _)), (proj2 (Z.ltb_lt _ _)) by lia. simpl.
      replace (st * FRAME_SIZE + k - st * FRAME_SIZE) with k by lia. unfold m1. apply fill_frame. intros Hin.
      specialize (Hapart ((phys o + k) / FRAME_SIZE)). rewrite Hown in Hapart. unfold owns, FRAME_SIZE in *.
      destruct (Z.leb_spec st ((phys o + k) / 4096)), (Z.ltb_spec ((phys o + k) / 4096) (st + need)); zlia.
    + intros k Hk. unfold m2, mem_copy, m1, mem_fill, FRAME_SIZE in *.
      destruct (0 <? pages o); destruct (Z.leb_spec (st * 4096) (st * 4096 + k)),
        (Z.ltb_spec (st * 4096 + k) (st * 4096 + pages o * 4096)), (Z.ltb_spec (st * 4096 + k) (st * 4096 + need * 4096));
        simpl; done || lia.
Qed.
End truncate.

Lemma dup_spec s0 s refs id :
  shm_inv s0 s refs -> id ∈ refs -> Z.of_nat (length refs) + 1 < 2 ^ 64 ->
  exists s', dup id s = Ret tt s' /\ shm_inv s0 s' (id :: refs) /\ vm s' = vm s.
Proof.
  intros Hinv Hid Hlen. destruct (live_object _ _ _ _ Hinv Hid) as (o & Hg & Ht & Hok & H0 & Hlt & Hc).
  pose proof (inv_refs _ _ _ Hinv) as [Hrl Hrp]. pose proof (count_bound refs id).
  unfold dup, get_st, mbind, st_bind. rewrite Hg.
  eexists. split; [done|]. split; [|done]. rewrite (wrap_small 64 (refcount o + 1)) by (unfold in_u; pose proof (count_elem refs id Hid); lia).
  apply (inv_update s0 (vm s) (TABLE s) (vm s) refs (id :: refs) id); try done.
  - eapply frames_same; [by eapply inv_frames|done|done|done|]. apply Hok.
  - simpl. lia.
  - intros r [->|Hr]%elem_of_cons; auto.
  - intros i Hi. by apply (inv_count _ _ _ Hinv).
  - intros i Hi. by rewrite count_cons, decide_False.
  - rewrite count_cons, decide_True by done. simpl. pose proof (count_elem refs id Hid). lia.
Qed.

(** Closing a reference; the last one gives the frames back. *)
Lemma close_spec s0 s id r1 r2 :
  shm_inv s0 s (r1 ++ id :: r2) ->
  exists s', close id s = Ret tt s' /\ shm_inv s0 s' (r1 ++ r2) /\ ram (vm s') = ram (vm s) /\
    (id ∉ r1 ++ r2 -> get s' id = None).
Proof.
  intros Hinv. assert (id ∈ r1 ++ id :: r2) as Hid by (apply elem_of_app; right; by left).
  destruct (live_object _ _ _ _ Hinv Hid) as (o & Hg & Ht & Hok & H0 & Hlt & Hc).
  pose proof (inv_refs _ _ _ Hinv) as [Hrl Hrp].
  assert (count (r1 ++ id :: r2) id = count (r1 ++ r2) id + 1) as Hcc.
  { rewrite !count_app, count_cons, decide_True by done. lia. }
  pose proof (count_bound (r1 ++ r2) id) as Hcb.
  assert (Z.of_nat (length (r1 ++ r2)) < 2 ^ 64) as Hrl' by (rewrite length_app in *; simpl in *; lia).
  assert (forall r, r ∈ r1 ++ r2 -> 0 <= r) as Hrp' by (intros r Hr; apply Hrp; set_solver).
  assert (forall i, i <> id -> count (r1 ++ r2) i = count (r1 ++ id :: r2) i) as Hother.
  { intros i Hi. rewrite !count_app, count_cons, decide_False; [lia|congruence]. }
  unfold close, get_st, mbind, st_bind. rewrite Hg. unfold set_slot, modify. simpl.
  rewrite wrap_small by (unfold in_u; lia).
  set (o1 := mk_shm (phys o) (pages o) (size o) (refcount o - 1)).
  assert (frames_inv s0 (frames (vm s)) (<[Z.to_nat id := Some o1]> (TABLE s))) as Hfi1.
  { eapply frames_same; [by eapply inv_frames|done|done|done|]. apply Hok. }
  destruct (Z.eqb_spec (refcount o - 1) 0) as [Hz|Hz].
  - destruct (free_object s0 (frames (vm s)) o (inv_pmm _ _ _ Hinv) Hok) as (fs' & Hf & Hwf & Hl & Hu).
    unfold lift_pmm. simpl. rewrite Hf. simpl. rewrite list_insert_insert_eq.
    eexists. split; [done|]. split_and!; [|done|].
    + apply (inv_update s0 (vm s) (TABLE s) _ (r1 ++ id :: r2)); try done.
      * eapply frames_update; [by eapply inv_frames|done|done|done|done| |].
        -- intros x Hx. rewrite Hu by done. unfold owned_by. rewrite andb_true_iff, negb_true_iff. split.
           ++ intros [Ho ?]. left. split; [done|]. intros (p & [= <-] & ?). congruence.
           ++ intros [[? Hno]|(p & ? & _)]; [|done]. split; [|done].
              destruct (owns o x) eqn:E; [|done]. destruct Hno. by exists o.
        -- intros x (p & ? & _). done.
      * intros i Hi. by apply (inv_count _ _ _ Hinv).
      * lia.
    + intros _. unfold get. simpl. by rewrite list_lookup_insert_eq.
  - eexists. split; [done|]. split_and!; [|done|].
    + apply (inv_update s0 (vm s) (TABLE s) _ (r1 ++ id :: r2)); try done.
      * intros i Hi. by apply (inv_count _ _ _ Hinv).
      * simpl. lia.
    + intros Hno. exfalso. apply Hz. enough (count (r1 ++ r2) id = 0) by lia.
      unfold count. rewrite filter_all_not; [done|]. apply Forall_forall. intros x Hx ->. done.
Qed.

Lemma shm_step_inv s0 st st' : shm_inv s0 st.1 st.2 -> shm_step st st' -> shm_inv s0 st'.1 st'.2.
Proof.
  intros Hinv Hs. destruct Hs as [s s' id refs Hr Hl|s s' id n r refs Hid Hn Hr|s s' id refs Hid Hl Hr|s s' id r1 r2 Hr];
    simpl in *.
  - destruct (create_inv s0 s refs Hinv Hl) as (id' & s2 & Hr' & ? & _). by rewrite Hr in Hr'; simplify_eq.
  - destruct (live_object _ _ _ _ Hinv Hid) as (o & Hg & _).
    destruct (truncate_spec s0 s refs id n o Hinv Hid Hn Hg) as (r' & s2 & Hr' & ? & _). by rewrite Hr in Hr'; simplify_eq.
  - destruct (dup_spec s0 s refs id Hinv Hid Hl) as (s2 & Hr' & ? & _). by rewrite Hr in Hr'; simplify_eq.
  - destruct (close_spec s0 s id r1 r2 Hinv) as (s2 & Hr' & ? & _). by rewrite Hr in Hr'; simplify_eq.
Qed.
Definition start (v : machine) : shm := mk_state v [].
Lemma start_inv v : pmm_wf (frames v) -> shm_inv (frames v) (start v) [].
Proof.
  intros Hwf. split; simpl; try done.
  - intros x Hx. split; [by left|]. intros [?|(i & o & Hi & _)]; [done|]. by rewrite lookup_nil in Hi.
  - split; [lia|]. by intros r ?%not_elem_of_nil.
Qed.
Lemma shm_run_inv v s refs :
  pmm_wf (frames v) -> rtc shm_step (start v, []) (s, refs) -> shm_inv (frames v) s refs.
Proof.
  intros Hwf Hr. change (shm_inv (frames v) (s, refs).1 (s, refs).2).
  eapply (rtc_ind_r (fun st => shm_inv (frames v) st.1 st.2)); [|by intros; eapply shm_step_inv|exact Hr].
  by apply start_inv.
Qed.

(** C14: reference counting is exact.  After any run of creations, resizes,
    duplications and closes by holders of descriptors: an object exists exactly
    as long as some descriptor refers to it and its count is the number of
    those; distinct objects never share a frame; a frame is in use exactly when
    it was before or an existing object holds it.  So when every descriptor is
    closed the bitmap is what it was at the start. *)
Theorem references_exact v s refs :
  pmm_wf (frames v) -> rtc shm_step (start v, []) (s, refs) ->
  (forall id, 0 <= id -> (exists o, get s id = Some o) <-> id ∈ refs) /\
  (forall id o, 0 <= id -> get s id = Some o -> refcount o = count refs id) /\
  (forall i j o p x, 0 <= i -> 0 <= j -> get s i = Some o -> get s j = Some p ->
     owns o x = true -> owns p x = true -> i = j) /\
  (forall x, frame_ok x -> used (frames (vm s)) x = true <->
     used (frames v) x = true \/ exists id o, 0 <= id /\ get s id = Some o /\ owns o x = true) /\
  (refs = [] -> forall x, frame_ok x -> used (frames (vm s)) x = used (frames v) x).
Proof.
  intros Hwf Hr. pose proof (shm_run_inv v s refs Hwf Hr) as Hinv.
  assert (forall id, 0 <= id -> (exists o, get s id = Some o) <-> id ∈ refs) as Halive.
  { intros id Hid. pose proof (inv_count _ _ _ Hinv id Hid) as Hc. split.
    - intros [o Ho]. rewrite Ho in Hc. destruct (decide (id ∈ refs)) as [|Hno]; [done|].
      assert (count refs id = 0); [|lia]. unfold count. rewrite filter_all_not; [done|].
      apply Forall_forall. by intros x Hx ->.
    - intros Hin%count_elem. destruct (get s id); [by eexists|lia]. }
  assert (forall x, frame_ok x -> used (frames (vm s)) x = true <->
     used (frames v) x = true \/ exists id o, 0 <= id /\ get s id = Some o /\ owns o x = true) as Hu.
  { intros x Hx. rewrite (inv_used _ _ _ Hinv) by done. split.
    - intros [?|(i & o & Hi & Ho)]; [by left|right]. exists (Z.of_nat i), o. rewrite get_Some, Nat2Z.id. split; [lia|done].
    - intros [?|(i & o & _ & Hi & Ho)]; [by left|right]. rewrite get_Some in Hi. by exists (Z.to_nat i), o. }
  split_and!; [done| | |done|].
  - intros id o Hid Ho. pose proof (inv_count _ _ _ Hinv id Hid) as Hc. rewrite Ho in Hc. apply Hc.
  - intros i j o p x Hi Hj. rewrite !get_Some. intros Ho Hp Hox Hpx.
    assert (Z.to_nat i = Z.to_nat j) by (by eapply (inv_apart _ _ _ Hinv)). lia.
  - intros -> x Hx. apply eq_true_iff_eq. rewrite Hu by done. split; [|by left].
    intros [?|(id & o & Hid & Ho & _)]; [done|]. exfalso. apply (not_elem_of_nil id), Halive; [done|by exists o].
Qed.

(** resizing keeps the contents.  [ftruncate] through any open descriptor
    never panics; when it succeeds the object has the new size with enough
    backing for it, the bytes of the old backing are preserved in place or
    copied, what is added reads as zero, and no other memory changes; when
    memory runs out nothing changes at all.  When the backing moves, though,
    the old frames are given back at once, even if a process still maps them. *)
Theorem truncate_preserves v s refs id n :
  pmm_wf (frames v) -> rtc shm_step (start v, []) (s, refs) -> id ∈ refs -> 0 <= n ->
  exists o r s', get s id = Some o /\ truncate id n s = Ret r s' /\
    if r : bool then
      exists o', get s' id = Some o' /\ resized (ram (vm s)) (ram (vm s')) o o' n /\
        (phys o' <> phys o -> forall x, owns o x = true -> used (frames (vm s')) x = false)
    else s' = s.
Proof.
  intros Hwf Hr Hid Hn. pose proof (shm_run_inv v s refs Hwf Hr) as Hinv.
  destruct (live_object _ _ _ _ Hinv Hid) as (o & Hg & Ht & Hok & H0 & _).
  destruct (truncate_spec _ s refs id n o Hinv Hid Hn Hg) as (r & s' & Hr' & Hinv' & Hres).
  exists o, r, s'. split_and!; [done..|]. destruct r; [|done]. destruct Hres as (o' & Hg' & Hrs & Htab & Hap).
  exists o'. split_and!; [done|exact Hrs|]. intros Hne x Hx.
  destruct Hok as (_ & _ & _ & _ & Hf). destruct (Hf x Hx) as [Hfx Hu0].
  destruct (used (frames (vm s')) x) eqn:E; [exfalso|done].
  apply (inv_used _ _ _ Hinv' x Hfx) in E as [?|(j & p & Hj & Hp)]; [congruence|].
  rewrite Htab, list_lookup_insert_Some in Hj. destruct Hj as [(_ & [= <-] & _)|[Hne' Hj]].
  - specialize (Hap Hne x Hp). congruence.
  - apply Hne'. by eapply (inv_apart _ _ _ Hinv).
Qed.

(** A run for the witnesses: one object, referred to twice. *)
Definition demo_vm : machine := mk_machine (fun _ => 0) small.
Definition demo : shm := mk_state demo_vm [Some (mk_shm 0 0 0 2)].
Lemma demo_run : rtc shm_step (start demo_vm, []) (demo, [0; 0]).
Proof.
  eapply rtc_l; [|eapply rtc_l; [|apply rtc_refl]].
  - apply (step_create (start demo_vm) (mk_state demo_vm [Some (mk_shm 0 0 0 1)]) 0 []); [reflexivity|simpl; lia].
  - apply (step_dup (mk_state demo_vm [Some (mk_shm 0 0 0 1)]) demo 0 [0]); [by left|simpl; lia|reflexivity].
Qed.
Example references_exact_witness :
  (pmm_wf (frames demo_vm) /\ rtc shm_step (start demo_vm, []) (demo, [0; 0])) /\
  ((exists o, get demo 0 = Some o) <-> 0 ∈ [0; 0]).
Proof.
  split; [split; [exact small_wf|exact demo_run]|].
  destruct (references_exact demo_vm demo [0; 0] small_wf demo_run) as (Ha & _). apply (Ha 0). lia.
Defined.
Example truncate_preserves_witness :
  (pmm_wf (frames demo_vm) /\ rtc shm_step (start demo_vm, []) (demo, [0; 0])) /\
  exists o r s', get demo 0 = Some o /\ truncate 0 5000 demo = Ret r s'.
Proof.
  split; [split; [exact small_wf|exact demo_run]|].
  destruct (truncate_preserves demo_vm demo [0; 0] 0 5000 small_wf demo_run) as (o & r & s' & Hg & Hr & _);
    [by left|lia|].
  exists o, r, s'. split; [exact Hg|exact Hr].
Defined.
