(* ===== verification/Socket.v ===== *)
(** * Unix-domain sockets, [socket.rs]

    A table of endpoints and the map from paths to listening endpoints.  File
    descriptors in flight hold references to shared-memory objects, which the
    module takes and drops through [shm::dup] and [shm::close]; the interface
    [FdRefs] is what it relies on, and [Shm.v] provides it. *)
From S2P Require Import Prelude Bytes PhysMem Pmm Paging Shm.

(** ** The reference-counting interface

    [refs_inv s refs]: the counts of [s] are right for the references listed
    (with repetition) in [refs]. *)
Class FdRefs (R : Type) := {
  fd_dup : Z -> ST R unit;
  fd_close : Z -> ST R unit;
  refs_inv : R -> list Z -> Prop;
  refs_perm : forall s r1 r2, r1 ≡ₚ r2 -> refs_inv s r1 -> refs_inv s r2;
  fd_dup_spec : forall s id refs, refs_inv s refs -> id ∈ refs -> Z.of_nat (length refs) + 1 < 2 ^ 64 ->
    exists s', fd_dup id s = Ret tt s' /\ refs_inv s' (id :: refs);
  fd_close_spec : forall s id refs, refs_inv s (id :: refs) ->
    exists s', fd_close id s = Ret tt s' /\ refs_inv s' refs
}.
Global Instance refs_inv_proper {R} `{FdRefs R} s : Proper ((≡ₚ) ==> iff) (refs_inv s).
Proof. intros r1 r2 Hp. split; apply refs_perm; [done|by symmetry]. Qed.

Lemma count_perm r1 r2 id : r1 ≡ₚ r2 -> count r1 id = count r2 id.
Proof. intros Hp. unfold count. by rewrite Hp. Qed.
(** [shm.rs] provides the interface, for any starting bitmap [s0]. *)
#[refine] Global Instance shm_refs (s0 : pmm) : FdRefs shm := {
  fd_dup := Shm.dup; fd_close := Shm.close; refs_inv := shm_inv s0
}.
Proof.
  - intros s r1 r2 Hp [Hpm Hla Hob Hus Hap [Hl Hpos] Hco]. split; try done.
    + split; [by rewrite <- Hp|]. intros r. rewrite <- Hp. apply Hpos.
    + intros id Hid. specialize (Hco id Hid). by rewrite !(count_perm r1 r2) in Hco by done.
  - intros s id refs Hinv Hid Hl. destruct (dup_spec s0 s refs id Hinv Hid Hl) as (s' & ? & ? & _). by exists s'.
  - intros s id refs Hinv. destruct (close_spec s0 s id [] refs Hinv) as (s' & ? & ? & _). by exists s'.
Defined.

(** ** State and operations *)
Inductive Role :=
| Idle
| Bound (path : string)
| Listening
| Connected (peer : Z).
Record Endpoint := mk_endpoint {
  role : Role; inbox : list Z; inbox_fds : list Z; backlog : list Z
}.
Definition new_endpoint : Endpoint := mk_endpoint Idle [] [] [].

Section socket.
Context {R : Type} `{FdRefs R}.

Record state := mk_state { endpoints : list (option Endpoint); listeners : gmap string Z; shared : R }.

Definition endpoint (s : state) (id : Z) : option Endpoint := mjoin (endpoints s !! Z.to_nat id).
Definition put (id : Z) (o : option Endpoint) (s : state) : state :=
  mk_state (<[Z.to_nat id := o]> (endpoints s)) (listeners s) (shared s).
Definition set_role (r : Role) (e : Endpoint) : Endpoint :=
  mk_endpoint r (inbox e) (inbox_fds e) (backlog e).
Definition set_backlog (b : list Z) (e : Endpoint) : Endpoint :=
  mk_endpoint (role e) (inbox e) (inbox_fds e) b.
Definition on_shm (f : ST R unit) : ST state unit := fun s =>
  match f (shared s) with
  | Ret _ r => Ret tt (mk_state (endpoints s) (listeners s) r)
  | Panic => Panic
  end.
Fixpoint for_each (f : Z -> ST state unit) (l : list Z) : ST state unit :=
  match l with [] => mret tt | x :: l => f x;; for_each f l end.

Fixpoint free_slot (t : list (option Endpoint)) (i : nat) : nat :=
  match t with
  | [] => i
  | None :: _ => i
  | Some _ :: t => free_slot t (S i)
  end.
Definition alloc_endpoint (ep : Endpoint) : ST state Z := fun s =>
  let i := free_slot (endpoints s) 0 in
  Ret (Z.of_nat i)
    (mk_state (if decide (i < length (endpoints s))%nat then <[i := Some ep]> (endpoints s)
               else endpoints s ++ [Some ep]) (listeners s) (shared s)).

Definition create : ST state Z := alloc_endpoint new_endpoint.

Definition bind (id : Z) (path : string) : ST state bool := fun s =>
  if decide (is_Some (listeners s !! path)) then Ret false s else
  match endpoint s id with
  | None => Ret false s
  | Some ep =>
      match role ep with
      | Idle => Ret true (put id (Some (set_role (Bound path) ep)) s)
      | _ => Ret false s
      end
  end.

Definition listen (id : Z) : ST state bool := fun s =>
  match endpoint s id with
  | None => Ret false s
  | Some ep =>
      match role ep with
      | Bound path =>
          let s := put id (Some (set_role Listening ep)) s in
          Ret true (mk_state (endpoints s) (<[path := id]> (listeners s)) (shared s))
      | _ => Ret false s
      end
  end.

Definition connect (id : Z) (path : string) : ST state bool := fun s =>
  match listeners s !! path with
  | None => Ret false s
  | Some listener_id =>
      (server_id ← alloc_endpoint (set_role (Connected id) new_endpoint);
       s ← get_st;
       match endpoint s listener_id with
       | None => mret false
       | Some listener =>
           put_st (put listener_id (Some (set_backlog (backlog listener ++ [server_id]) listener)) s);;
           s ← get_st;
           match endpoint s id with
           | None => mret false
           | Some client =>
               put_st (put id (Some (set_role (Connected server_id) client)) s);;
               mret true
           end
       end) s
  end.

Definition accept (listener_id : Z) : ST state (option Z) := fun s =>
  match endpoint s listener_id with
  | None => Ret None s
  | Some ep =>
      match backlog ep with
      | [] => Ret None s
      | x :: b => Ret (Some x) (put listener_id (Some (set_backlog b ep)) s)
      end
  end.

Definition peer_of (s : state) (id : Z) : option Z :=
  ep ← endpoint s id;
  match role ep with Connected peer => Some peer | _ => None end.

Definition send (id : Z) (bytes fds : list Z) : ST state (option Z) := fun s =>
  match peer_of s id with
  | None => Ret None s
  | Some peer_id =>
      (for_each (fun f => on_shm (fd_dup f)) fds;;
       s ← get_st;
       match endpoint s peer_id with
       | None => for_each (fun f => on_shm (fd_close f)) fds;; mret None
       | Some peer =>
           put_st (put peer_id (Some (mk_endpoint (role peer) (inbox peer ++ bytes)
                                        (inbox_fds peer ++ fds) (backlog peer))) s);;
           mret (Some (Z.of_nat (length bytes)))
       end) s
  end.

(** [recv] with a buffer of [n] bytes: the bytes copied into it, and the
    descriptors. *)
Definition recv (id : Z) (n : nat) : ST state (list Z * list Z) := fun s =>
  match endpoint s id with
  | None => Ret ([], []) s
  | Some ep =>
      let k := Nat.min (length (inbox ep)) n in
      Ret (take k (inbox ep), inbox_fds ep)
          (put id (Some (mk_endpoint (role ep) (drop k (inbox ep)) [] (backlog ep))) s)
  end.

Definition has_data (s : state) (id : Z) : bool :=
  match endpoint s id with Some e => negb (bool_decide (inbox e = [])) | None => false end.
Definition has_backlog (s : state) (id : Z) : bool :=
  match endpoint s id with Some e => negb (bool_decide (backlog e = [])) | None => false end.

Definition close (id : Z) : ST state unit := fun s =>
  ((match endpoint s id with
    | Some ep => for_each (fun f => on_shm (fd_close f)) (inbox_fds ep)
    | None => mret tt
    end);;
   modify (fun s => mk_state (if decide (Z.to_nat id < length (endpoints s))%nat
                              then <[Z.to_nat id := None]> (endpoints s) else endpoints s)
                             (filter (fun pl => pl.2 <> id) (listeners s)) (shared s))) s.

(** ** Lookup facts *)
Definition exists_at (s : state) (id : Z) : Prop := is_Some (endpoint s id).
Lemma endpoint_Some s id e : endpoint s id = Some e <-> endpoints s !! Z.to_nat id = Some (Some e).
Proof. unfold endpoint. destruct (endpoints s !! Z.to_nat id) as [[]|]; simpl; naive_solver. Qed.
Lemma endpoint_lt s id : exists_at s id -> (Z.to_nat id < length (endpoints s))%nat.
Proof. intros [e He]. rewrite endpoint_Some in He. by eapply lookup_lt_Some. Qed.
Lemma endpoint_put s id id' o :
  0 <= id -> 0 <= id' -> exists_at s id ->
  endpoint (put id o s) id' = if decide (id = id') then o else endpoint s id'.
Proof.
  intros H0 H0' Hlt%endpoint_lt. unfold endpoint, put. simpl.
  case_decide as E; [subst; by rewrite list_lookup_insert_eq|]. by rewrite list_lookup_insert_ne by lia.
Qed.
Lemma peer_of_eq s id : peer_of s id =
  match endpoint s id with Some e => match role e with Connected p => Some p | _ => None end | None => None end.
Proof. unfold peer_of. by destruct (endpoint s id). Qed.

(** References in flight: the descriptors in all inboxes. *)
Definition flight (o : option Endpoint) : list Z := match o with Some e => inbox_fds e | None => [] end.
Definition in_flight (s : state) : list Z := endpoints s ≫= flight.
Lemma flight_insert (t : list (option Endpoint)) i o o' :
  t !! i = Some o -> flight o ++ (<[i := o']> t ≫= flight) ≡ₚ flight o' ++ (t ≫= flight).
Proof.
  intros Hi. rewrite insert_take_drop by (by eapply lookup_lt_Some).
  rewrite <- (take_drop_middle t i o Hi) at 3. rewrite !bind_app. cbn [mbind list_bind].
  solve_Permutation.
Qed.
(** [alloc_endpoint] fills a free slot. *)
Lemma alloc_endpoint_spec s ep :
  exists id s', alloc_endpoint ep s = Ret id s' /\ 0 <= id /\ endpoint s id = None /\
    (forall id', 0 <= id' -> endpoint s' id' = if decide (id = id') then Some ep else endpoint s id') /\
    listeners s' = listeners s /\ shared s' = shared s /\
    in_flight s' ≡ₚ inbox_fds ep ++ in_flight s.
Proof.
  unfold alloc_endpoint.
  assert (forall t i, let k := free_slot t i in (i <= k <= i + length t)%nat /\
    (k < i + length t -> t !! (k - i)%nat = Some None)%nat) as Hspec.
  { induction t as [|[o|] t IH]; intros i; simpl; [lia| |].
    - destruct (IH (S i)) as [Hk Hn]. split; [lia|]. intros Hlt.
      replace (free_slot t (S i) - i)%nat with (S (free_slot t (S i) - S i)) by lia. apply Hn. lia.
    - split; [lia|]. intros _. by replace (i - i)%nat with 0%nat by lia. }
  destruct (Hspec (endpoints s) 0%nat) as [Hk Hn]. set (k := free_slot (endpoints s) 0) in *.
  rewrite Nat.sub_0_r in Hn. simpl in Hk, Hn.
  eexists _, _. split; [done|]. split; [lia|]. cbn [endpoints listeners shared].
  destruct (decide (k < length (endpoints s))%nat) as [E|E].
  - specialize (Hn E). split_and!; [|intros id' H0|done|done|].
    + unfold endpoint. by rewrite Nat2Z.id, Hn.
    + unfold endpoint at 1. simpl. case_decide as Ei.
      * subst id'. rewrite Nat2Z.id. by rewrite list_lookup_insert_eq.
      * by rewrite list_lookup_insert_ne by lia.
    + unfold in_flight. simpl. apply (flight_insert (endpoints s) k None (Some ep) Hn).
  - assert (k = length (endpoints s)) as Hke by lia. split_and!; [|intros id' H0|done|done|].
    + unfold endpoint. rewrite Nat2Z.id. rewrite lookup_ge_None_2; [done|lia].
    + unfold endpoint. simpl. case_decide as Ei.
      * subst id'. rewrite Nat2Z.id, Hke. by rewrite list_lookup_middle.
      * rewrite lookup_app. destruct (endpoints s !! Z.to_nat id') eqn:El; [done|].
        apply lookup_ge_None_1 in El. rewrite list_lookup_singleton.
        destruct (decide (Z.to_nat id' - length (endpoints s) = 0)%nat); [lia|].
        by destruct (Z.to_nat id' - length (endpoints s))%nat.
    + unfold in_flight. simpl. rewrite bind_app. cbn [mbind list_bind flight]. rewrite app_nil_r. apply Permutation_app_comm.
Qed.

(** ** Operations as one type *)
Inductive op :=
| Create | Bind (id : Z) (path : string) | Listen (id : Z) | Connect (id : Z) (path : string)
| Accept (id : Z) | Send (id : Z) (bytes fds : list Z) | Recv (id : Z) (n : nat) | Close (id : Z).
Definition exec (o : op) : ST state (list Z * list Z) :=
  match o with
  | Create => create;; mret ([], [])
  | Bind id path => bind id path;; mret ([], [])
  | Listen id => listen id;; mret ([], [])
  | Connect id path => connect id path;; mret ([], [])
  | Accept id => accept id;; mret ([], [])
  | Send id bytes fds => send id bytes fds;; mret ([], [])
  | Recv id n => recv id n
  | Close id => close id;; mret ([], [])
  end.
Definition op_id (o : op) : Z :=
  match o with
  | Create => 0 | Bind id _ | Listen id | Connect id _ | Accept id | Send id _ _ | Recv id _ | Close id => id
  end.

Lemma in_flight_put s id o o' :
  endpoints s !! Z.to_nat id = Some o -> flight o ++ in_flight (put id o' s) ≡ₚ flight o' ++ in_flight s.
Proof. apply flight_insert. Qed.
Lemma in_flight_put_same s id e e' :
  endpoint s id = Some e -> inbox_fds e' = inbox_fds e -> in_flight (put id (Some e') s) ≡ₚ in_flight s.
Proof.
  intros He Hf. rewrite endpoint_Some in He. pose proof (in_flight_put s id (Some e) (Some e') He) as Hp.
  simpl in Hp. rewrite Hf in Hp. by apply Permutation_app_inv_l in Hp.
Qed.

Lemma for_each_on_shm f fds : forall s r,
  for_each (fun x => on_shm (f x)) fds s = Ret tt r -> endpoints r = endpoints s /\ listeners r = listeners s.
Proof.
  induction fds as [|x fds IH]; intros s r; simpl; [by intros [= ->]|].
  unfold mbind, st_bind, on_shm. destruct (f x (shared s)); [|done]. by intros ?%IH.
Qed.
Lemma dup_all fds : forall s refs,
  refs_inv (shared s) refs -> (forall f, f ∈ fds -> f ∈ refs) ->
  Z.of_nat (length refs) + Z.of_nat (length fds) < 2 ^ 64 ->
  exists s', for_each (fun f => on_shm (fd_dup f)) fds s = Ret tt s' /\ refs_inv (shared s') (fds ++ refs).
Proof.
  induction fds as [|x fds IH]; intros s refs Hinv Hin Hl; [by exists s|].
  destruct (fd_dup_spec (shared s) x refs Hinv) as (r & Hr & Hinv'); [apply Hin; by left|simpl in Hl; lia|].
  destruct (IH (mk_state (endpoints s) (listeners s) r) (x :: refs) Hinv') as (s' & Hs & Hinv2).
  - intros f Hf. right. apply Hin. by right.
  - simpl in *. lia.
  - exists s'. cbn [for_each]. unfold mbind, st_bind, on_shm at 1. rewrite Hr. split; [done|].
    eapply refs_perm; [|exact Hinv2]. simpl. by rewrite Permutation_middle.
Qed.
Lemma close_all fds : forall s refs,
  refs_inv (shared s) (fds ++ refs) ->
  exists s', for_each (fun f => on_shm (fd_close f)) fds s = Ret tt s' /\ refs_inv (shared s') refs.
Proof.
  induction fds as [|x fds IH]; intros s refs Hinv; [by exists s|].
  destruct (fd_close_spec (shared s) x (fds ++ refs) Hinv) as (r & Hr & Hinv').
  destruct (IH (mk_state (endpoints s) (listeners s) r) refs Hinv') as (s' & Hs & Hinv2).
  exists s'. cbn [for_each]. unfold mbind, st_bind, on_shm at 1. by rewrite Hr.
Qed.
Lemma in_flight_same s s' : endpoints s' = endpoints s -> in_flight s' = in_flight s.
Proof. unfold in_flight. by intros ->. Qed.

(** What a process may ask: ids are [usize], and it passes descriptors it
    holds. *)
Definition op_ok (held : list Z) (s : state) (o : op) : Prop :=
  0 <= op_id o /\
  match o with
  | Send _ _ fds => (forall f, f ∈ fds -> f ∈ held) /\
      Z.of_nat (length held + length (in_flight s) + length fds) < 2 ^ 64
  | _ => True
  end.

Definition inbox_of (s : state) (id : Z) : list Z :=
  match endpoint s id with Some e => inbox e | None => [] end.
(** Rewriting an endpoint in place. *)
Lemma put_spec s id e e' :
  0 <= id -> endpoint s id = Some e -> inbox_fds e' = inbox_fds e ->
  let s' := put id (Some e') s in
  shared s' = shared s /\ listeners s' = listeners s /\ in_flight s' ≡ₚ in_flight s /\
  (forall i, 0 <= i -> (endpoint s' i = None <-> endpoint s i = None)) /\
  (forall i, 0 <= i -> peer_of s' i =
    if decide (i = id) then match role e' with Connected p => Some p | _ => None end else peer_of s i) /\
  forall i, 0 <= i -> inbox_of s' i = if decide (i = id) then inbox e' else inbox_of s i.
Proof.
  intros H0 He Hf s'. split_and!; [done|done|by apply (in_flight_put_same s id e)| | |].
  - intros i Hi. unfold s'. rewrite endpoint_put by (done || by eexists). case_decide; [subst; by rewrite He|done].
  - intros i Hi. rewrite !peer_of_eq. unfold s'. rewrite endpoint_put by (done || by eexists).
    destruct (decide (id = i)) as [->|]; [by rewrite decide_True|]. by rewrite decide_False.
  - intros i Hi. unfold inbox_of, s'. rewrite endpoint_put by (done || by eexists).
    destruct (decide (id = i)) as [->|]; [by rewrite decide_True|]. by rewrite decide_False.
Qed.

Lemma connect_spec s id path :
  (forall l, listeners s !! path = Some l -> 0 <= l) -> 0 <= id ->
  exists r s', connect id path s = Ret r s' /\ shared s' = shared s /\ in_flight s' ≡ₚ in_flight s /\
    listeners s' = listeners s /\ (forall i, 0 <= i -> inbox_of s' i = inbox_of s i) /\
    match listeners s !! path with
    | None => s' = s /\ r = false
    | Some l => exists server, 0 <= server /\ endpoint s server = None /\
        (r = true <-> (l = server \/ exists_at s l) /\ (id = server \/ exists_at s id)) /\
        (forall el, l <> id -> endpoint s l = Some el ->
           endpoint s' l = Some (set_backlog (backlog el ++ [server]) el)) /\
        forall i, 0 <= i ->
          (endpoint s' i = None <-> endpoint s i = None /\ i <> server) /\
          peer_of s' i = if decide (r = true /\ i = id) then Some server
                         else if decide (i = server) then Some id else peer_of s i
    end.
Proof.
  intros Hlpos H0. unfold connect. destruct (listeners s !! path) as [l|] eqn:Hl; [|by exists false, s].
  specialize (Hlpos l eq_refl).
  destruct (alloc_endpoint_spec s (set_role (Connected id) new_endpoint))
    as (server & s1 & Ha & Hs0 & Hnone & He1 & Hl1 & Hsh1 & Hfl1).
  unfold mbind, st_bind at 1. rewrite Ha. unfold get_st, mbind, st_bind. simpl in Hfl1.
  assert (forall i, 0 <= i -> (endpoint s1 i = None <-> endpoint s i = None /\ i <> server)) as Hex1.
  { intros i Hi. rewrite He1 by done. case_decide; subst; naive_solver. }
  assert (forall i, 0 <= i -> peer_of s1 i = if decide (i = server) then Some id else peer_of s i) as Hp1.
  { intros i Hi. rewrite !peer_of_eq, He1 by done. destruct (decide (server = i)) as [->|]; [by rewrite decide_True|].
    by rewrite decide_False. }
  assert (forall i, 0 <= i -> inbox_of s1 i = inbox_of s i) as Hib1.
  { intros i Hi. unfold inbox_of. rewrite He1 by done. case_decide; [|done]. subst. by rewrite Hnone. }
  assert (forall i, 0 <= i -> exists_at s1 i <-> i = server \/ exists_at s i) as Hat1.
  { intros i Hi. unfold exists_at. rewrite He1 by done. case_decide; subst; naive_solver. }
  assert (forall el, endpoint s l = Some el -> endpoint s1 l = Some el) as Hel1.
  { intros el Hx. rewrite He1 by done. rewrite decide_False; [done|]. congruence. }
  destruct (endpoint s1 l) as [el|] eqn:Hel; cycle 1.
  { exists false, s1. split_and!; try done. exists server. split_and!; try done.
    - split; [done|]. intros [Hx _]. apply (Hat1 l Hlpos) in Hx as [? Hx]. congruence.
    - intros el _ Hx. specialize (Hel1 el Hx). done.
    - intros i Hi. rewrite decide_False by naive_solver. auto. }
  destruct (put_spec s1 l el (set_backlog (backlog el ++ [server]) el) Hlpos Hel eq_refl) as (Hsh2 & Hl2 & Hfl2 & Hex2 & Hp2 & Hib2).
  unfold put_st. set (s2 := put l (Some (set_backlog (backlog el ++ [server]) el)) s1) in *.
  assert (forall i, 0 <= i -> peer_of s2 i = peer_of s1 i) as Hp2'.
  { intros i Hi. rewrite Hp2 by done. case_decide; [|done]. subst. by rewrite (peer_of_eq s1), Hel. }
  assert (forall el', endpoint s l = Some el' -> endpoint s2 l = Some (set_backlog (backlog el' ++ [server]) el')) as Hel2.
  { intros el' Hx%Hel1. injection Hx as <-. unfold s2. rewrite endpoint_put by (done || by eexists). by rewrite decide_True. }
  assert (forall i, 0 <= i -> inbox_of s2 i = inbox_of s i) as Hib2'.
  { intros i Hi. rewrite Hib2 by done. case_decide; [|by apply Hib1]. subst i. rewrite <- Hib1 by done.
    unfold inbox_of. by rewrite Hel. }
  assert (exists_at s1 l) as Hatl by (by eexists). apply (Hat1 l Hlpos) in Hatl.
  destruct (endpoint s2 id) as [ec|] eqn:Hec; cycle 1.
  { exists false, s2. split_and!; [done|congruence|by rewrite Hfl2|congruence|done|]. exists server. split_and!; try done.
    - split; [done|]. intros [_ Hx]. apply (Hat1 id H0) in Hx as [? Hx]. apply (Hex2 id H0) in Hec. congruence.
    - intros el' _ Hx. by apply Hel2.
    - intros i Hi. rewrite decide_False by naive_solver. rewrite Hex2, Hp2' by done. auto. }
  destruct (put_spec s2 id ec (set_role (Connected server) ec) H0 Hec eq_refl) as (Hsh3 & Hl3 & Hfl3 & Hex3 & Hp3 & Hib3).
  eexists true, _. split; [done|]. split_and!; [congruence|by rewrite Hfl3, Hfl2|congruence| |].
  { intros i Hi. rewrite Hib3 by done. case_decide; [|by apply Hib2']. subst i. rewrite <- Hib2' by done.
    unfold inbox_of. by rewrite Hec. }
  exists server. split_and!; try done.
  - split; [|done]. intros _. split; [destruct Hatl; auto|]. destruct (endpoint s1 id) eqn:E1.
    + apply (Hat1 id H0). by eexists.
    + apply (Hex2 id H0) in E1. congruence.
  - intros el' Hne Hx. rewrite endpoint_put by (done || by eexists). rewrite decide_False by congruence. by apply Hel2.
  - intros i Hi. rewrite Hex3, Hex2, Hp3 by done. split; [auto|]. simpl.
    destruct (decide (i = id)) as [->|]; [by rewrite decide_True|]. rewrite decide_False by naive_solver.
    rewrite Hp2' by done. auto.
Qed.

(** The paths lead to ids. *)
Definition listeners_ok (s : state) : Prop := forall path l, listeners s !! path = Some l -> 0 <= l.

(** One operation: it does not panic, and the references held by processes and
    in flight stay exactly the ones counted. *)
Lemma exec_refs held s o :
  listeners_ok s -> refs_inv (shared s) (held ++ in_flight s) -> op_ok held s o ->
  exists out s', exec o s = Ret out s' /\ listeners_ok s' /\ refs_inv (shared s') (out.2 ++ held ++ in_flight s').
Proof.
  intros Hlis Hinv [H0 Hok].
  assert (forall s', listeners s' = listeners s -> listeners_ok s') as Hlis_same.
  { intros s' Hl path l. rewrite Hl. apply Hlis. }
  assert (forall s', shared s' = shared s -> in_flight s' ≡ₚ in_flight s ->
    refs_inv (shared s') (held ++ in_flight s')) as Hrefs_same.
  { intros s' -> Hf. by rewrite Hf. }
  unfold exec, mbind, st_bind.
  destruct o as [|id path|id|id path|id|id bytes fds|id n|id]; simpl in H0.
  - destruct (alloc_endpoint_spec s new_endpoint) as (k & s' & Hr & _ & _ & _ & Hl & Hsh & Hf).
    unfold create. rewrite Hr. eexists _, s'. split_and!; [done|by apply Hlis_same|by apply Hrefs_same].
  - unfold bind. case_decide; [by eexists _, s|].
    destruct (endpoint s id) as [e|] eqn:He; [|by eexists _, s].
    destruct (role e); try by eexists _, s.
    destruct (put_spec s id e (set_role (Bound path) e) H0 He eq_refl) as (Hsh & Hl & Hf & _).
    eexists _, _. split_and!; [done|by apply Hlis_same|by apply Hrefs_same].
  - unfold listen. destruct (endpoint s id) as [e|] eqn:He; [|by eexists _, s].
    destruct (role e) as [|path| |]; try by eexists _, s.
    destruct (put_spec s id e (set_role Listening e) H0 He eq_refl) as (Hsh & Hl & Hf & _).
    eexists _, _. split_and!; [done| |by apply Hrefs_same].
    intros path' l. simpl. rewrite lookup_insert_Some. intros [[_ <-]|[_ Hp]]; [done|by eapply Hlis].
  - destruct (connect_spec s id path ltac:(intros; by eapply Hlis) H0) as (r & s' & -> & Hsh & Hf & Hl & _).
    eexists _, s'. split_and!; [done|by apply Hlis_same|by apply Hrefs_same].
  - unfold accept. destruct (endpoint s id) as [e|] eqn:He; [|by eexists _, s].
    destruct (backlog e) as [|x b]; [by eexists _, s|].
    destruct (put_spec s id e (set_backlog b e) H0 He eq_refl) as (Hsh & Hl & Hf & _).
    eexists _, _. split_and!; [done|by apply Hlis_same|by apply Hrefs_same].
  - destruct Hok as [Hheld Hlen]. unfold send. destruct (peer_of s id) as [p|]; [|by eexists _, s].
    unfold get_st, mbind, st_bind.
    destruct (dup_all fds s (held ++ in_flight s) Hinv) as (s1 & Hd & Hinv1).
    { intros f Hf. apply elem_of_app. left. auto. } { rewrite length_app. lia. }
    rewrite Hd. apply for_each_on_shm in Hd as [He1 Hl1]. rewrite <- (in_flight_same _ _ He1) in Hinv1.
    destruct (endpoint s1 p) as [e|] eqn:He.
    + eexists _, _. split; [done|]. split; [by apply Hlis_same|]. simpl. rewrite endpoint_Some in He.
      pose proof (in_flight_put s1 p _ (Some (mk_endpoint (role e) (inbox e ++ bytes) (inbox_fds e ++ fds) (backlog e))) He) as Hp.
      simpl in Hp. rewrite <- app_assoc in Hp. apply Permutation_app_inv_l in Hp. rewrite Hp.
      eapply refs_perm; [|exact Hinv1]. solve_Permutation.
    + destruct (close_all fds s1 (held ++ in_flight s1) Hinv1) as (s2 & Hc & Hinv2).
      rewrite Hc. apply for_each_on_shm in Hc as [He2 Hl2]. eexists _, s2.
      split_and!; [done|apply Hlis_same; congruence|]. simpl. by rewrite (in_flight_same _ _ He2).
  - unfold recv. destruct (endpoint s id) as [e|] eqn:He; [|by eexists _, s].
    eexists _, _. split; [done|]. split; [by apply Hlis_same|]. simpl. rewrite endpoint_Some in He.
    pose proof (in_flight_put s id _ (Some (mk_endpoint (role e)
      (drop (Nat.min (length (inbox e)) n) (inbox e)) [] (backlog e))) He) as Hp.
    simpl in Hp. eapply refs_perm; [|exact Hinv]. rewrite <- Hp. solve_Permutation.
  - unfold close, mbind, st_bind, modify.
    assert (exists s1, (match endpoint s id with Some ep => for_each (fun f => on_shm (fd_close f)) (inbox_fds ep)
      | None => mret tt end) s = Ret tt s1 /\ endpoints s1 = endpoints s /\ listeners s1 = listeners s /\
      exists fl, in_flight s ≡ₚ flight (endpoint s id) ++ fl /\ refs_inv (shared s1) (held ++ fl) /\
        (if decide (Z.to_nat id < length (endpoints s))%nat then <[Z.to_nat id := None]> (endpoints s) else endpoints s)
          ≫= flight ≡ₚ fl) as (s1 & -> & He1 & Hl1 & fl & _ & Hinv1 & Hfl1).
    { destruct (endpoint s id) as [e|] eqn:He.
      - pose proof He as He'. rewrite endpoint_Some in He'. pose proof (in_flight_put s id _ None He') as Hp. simpl in Hp.
        destruct (close_all (inbox_fds e) s (held ++ in_flight (put id None s))) as (s1 & Hc & Hinv1).
        { eapply refs_perm; [|exact Hinv]. rewrite <- Hp. solve_Permutation. }
        exists s1. pose proof (for_each_on_shm _ _ _ _ Hc) as [? ?]. split_and!; try done.
        exists (in_flight (put id None s)). split_and!; [by rewrite Hp|done|].
        rewrite decide_True by (by eapply lookup_lt_Some). done.
      - exists s. split_and!; try done. exists (in_flight s). split_and!; [done|done|].
        case_decide as Hlt; [|done]. destruct (endpoints s !! Z.to_nat id) as [o|] eqn:Eo.
        + assert (o = None) as -> by (unfold endpoint in He; rewrite Eo in He; done).
          pose proof (in_flight_put s id _ None Eo) as Hp. exact Hp.
        + apply lookup_ge_None_1 in Eo. lia. }
    eexists _, _. split; [done|]. split.
    + intros path l. simpl. rewrite map_lookup_filter_Some, Hl1. intros [Hp _]. by eapply Hlis.
    + simpl. unfold in_flight. simpl. rewrite He1. by rewrite Hfl1.
Qed.

(** ** Connected pairs *)
Record pair (a b : Z) (s : state) : Prop := {
  pair_pos : 0 <= a /\ 0 <= b /\ a <> b;
  pair_ab : peer_of s a = Some b;
  pair_ba : peer_of s b = Some a;
  pair_only : forall c, 0 <= c -> c <> a -> c <> b -> peer_of s c <> Some a /\ peer_of s c <> Some b;
  pair_ids : forall c p, 0 <= c -> peer_of s c = Some p -> 0 <= p
}.
(** Neither end is closed or reconnected. *)
Definition keeps (a b : Z) (o : op) : Prop :=
  0 <= op_id o /\
  match o with Close id | Connect id _ => id <> a /\ id <> b | _ => True end.

Lemma pair_same a b s s' :
  (forall i, 0 <= i -> peer_of s' i = peer_of s i) -> pair a b s -> pair a b s'.
Proof.
  intros Hp [Hpos Hab Hba Ho Hn]. split; [done|rewrite Hp; tauto|rewrite Hp; tauto| |].
  - intros c Hc. rewrite Hp by done. auto.
  - intros c p Hc. rewrite Hp by done. by apply Hn.
Qed.
(** Changing something other than the role. *)
Lemma put_quiet a b s id e e' :
  0 <= id -> endpoint s id = Some e -> role e' = role e -> pair a b s -> pair a b (put id (Some e') s).
Proof.
  intros H0 He Hr Hp. eapply pair_same; [|exact Hp]. intros i Hi. rewrite !peer_of_eq.
  rewrite endpoint_put by (done || by eexists). case_decide; [|done]. subst. by rewrite He, Hr.
Qed.
(** A new role that connects to neither end, on another endpoint. *)
Lemma put_other a b s id e e' :
  0 <= id -> endpoint s id = Some e -> (forall p, role e <> Connected p) -> (forall p, role e' <> Connected p) ->
  pair a b s -> pair a b (put id (Some e') s).
Proof.
  intros H0 He Hr Hr' Hp. eapply pair_same; [|exact Hp]. intros i Hi. rewrite !peer_of_eq.
  rewrite endpoint_put by (done || by eexists). case_decide; [|done]. subst. rewrite He.
  destruct (role e), (role e'); naive_solver.
Qed.
Lemma inbox_put s id e e' i :
  0 <= id -> 0 <= i -> endpoint s id = Some e ->
  inbox_of (put id (Some e') s) i = if decide (id = i) then inbox e' else inbox_of s i.
Proof.
  intros H0 Hi He. unfold inbox_of. rewrite endpoint_put by (done || by eexists). by case_decide.
Qed.

(** What one operation does to the bytes waiting at [b]. *)
Definition sent_by (a : Z) (o : op) : list Z :=
  match o with Send id bytes _ => if decide (id = a) then bytes else [] | _ => [] end.
Definition got_by (b : Z) (o : op) (out : list Z * list Z) : list Z :=
  match o with Recv id _ => if decide (id = b) then out.1 else [] | _ => [] end.

Lemma exec_pair a b s o out s' :
  listeners_ok s -> pair a b s -> keeps a b o -> exec o s = Ret out s' ->
  pair a b s' /\ got_by b o out ++ inbox_of s' b = inbox_of s b ++ sent_by a o.
Proof.
  intros Hlis Hp [H0 Hk] Hr. pose proof (pair_pos _ _ _ Hp) as (Ha0 & Hb0 & Hne).
  assert (forall s' : state, s' = s -> pair a b s' /\ [] ++ inbox_of s' b = inbox_of s b ++ []) as Hsame.
  { intros ? ->. by rewrite app_nil_r. }
  unfold exec, mbind, st_bind in Hr.
  destruct o as [|id path|id|id path|id|id bytes fds|id n|id]; simpl in H0, Hk; cbn [got_by sent_by].
  - destruct (alloc_endpoint_spec s new_endpoint) as (k & s1 & Hc & Hk0 & Hnone & He & _).
    unfold create in Hr. rewrite Hc in Hr. injection Hr as <- <-. split.
    + eapply pair_same; [|exact Hp]. intros i Hi. rewrite !peer_of_eq, He by done.
      case_decide; [subst; by rewrite Hnone|done].
    + rewrite app_nil_r. unfold inbox_of. rewrite He by done. case_decide; [subst; by rewrite Hnone|done].
  - unfold bind in Hr. case_decide; [injection Hr as <- <-; auto|].
    destruct (endpoint s id) as [e|] eqn:He; [|injection Hr as <- <-; auto].
    destruct (role e) eqn:Ee; try (injection Hr as <- <-; by auto).
    injection Hr as <- <-. split; [eapply put_other; try done; congruence|].
    rewrite (inbox_put s id e) by done. rewrite app_nil_r. case_decide; [subst|done]. unfold inbox_of. by rewrite He.
  - unfold listen in Hr. destruct (endpoint s id) as [e|] eqn:He; [|injection Hr as <- <-; auto].
    destruct (role e) eqn:Ee; try (injection Hr as <- <-; by auto).
    injection Hr as <- <-. split.
    { eapply (pair_same a b (put id (Some (set_role Listening e)) s)); [done|].
      eapply put_other; try done; congruence. }
    change (inbox_of (mk_state _ _ _) b) with (inbox_of (put id (Some (set_role Listening e)) s) b).
    rewrite (inbox_put s id e) by done. rewrite app_nil_r. case_decide; [subst|done]. unfold inbox_of. by rewrite He.
  - destruct (connect_spec s id path ltac:(intros; by eapply Hlis) H0) as (r & s1 & Hc & _ & _ & _ & Hib & Hm).
    rewrite Hc in Hr. injection Hr as <- <-. rewrite Hib, app_nil_r by done. split; [|done].
    destruct (listeners s !! path); [|by destruct Hm as [-> _]].
    destruct Hm as (server & Hs0 & Hnone & _ & _ & Hi). destruct Hk as [Hka Hkb].
    assert (server <> a /\ server <> b) as [Hsa Hsb].
    { split; intros ->; [pose proof (pair_ab _ _ _ Hp) as Hx|pose proof (pair_ba _ _ _ Hp) as Hx];
        rewrite peer_of_eq, Hnone in Hx; done. }
    split.
    + done.
    + rewrite (proj2 (Hi a Ha0)), !decide_False by (try intros [_ ?]; congruence). apply Hp.
    + rewrite (proj2 (Hi b Hb0)), !decide_False by (try intros [_ ?]; congruence). apply Hp.
    + intros c Hc0 Hca Hcb. rewrite (proj2 (Hi c Hc0)). repeat case_decide; try (by apply Hp); split; congruence.
    + intros c q Hc0. rewrite (proj2 (Hi c Hc0)). repeat case_decide; try (by apply Hp); by intros [= <-].
  - unfold accept in Hr. destruct (endpoint s id) as [e|] eqn:He; [|injection Hr as <- <-; auto].
    destruct (backlog e); [injection Hr as <- <-; auto|]. injection Hr as <- <-.
    split; [by eapply put_quiet|]. rewrite (inbox_put s id e) by done. rewrite app_nil_r.
    case_decide; [subst|done]. unfold inbox_of. by rewrite He.
  - unfold send, get_st, mbind, st_bind in Hr. destruct (peer_of s id) as [p|] eqn:Hpeer; cycle 1.
    { injection Hr as <- <-. assert (id <> a) by (intros ->; rewrite (pair_ab _ _ _ Hp) in Hpeer; done).
      rewrite decide_False by done. auto. }
    destruct (for_each (fun f => on_shm (fd_dup f)) fds s) as [[] s1|] eqn:Hd; [|done].
    apply for_each_on_shm in Hd as [He1 Hl1].
    assert (forall i, endpoint s1 i = endpoint s i) as Hes1 by (intros; unfold endpoint; by rewrite He1).
    assert (forall i, peer_of s1 i = peer_of s i) as Hps1 by (intros; by rewrite !peer_of_eq, Hes1).
    assert (inbox_of s1 b = inbox_of s b) as Hib1 by (unfold inbox_of; by rewrite Hes1).
    assert (p = b <-> id = a) as Hpb.
    { split; [|intros ->; rewrite (pair_ab _ _ _ Hp) in Hpeer; congruence].
      intros ->. destruct (decide (id = a)) as [|Hia]; [done|exfalso].
      destruct (decide (id = b)) as [->|Hib]; [rewrite (pair_ba _ _ _ Hp) in Hpeer; congruence|].
      by destruct (pair_only _ _ _ Hp id H0 Hia Hib). }
    pose proof (pair_ids _ _ _ Hp id p H0 Hpeer) as Hp0.
    destruct (endpoint s1 p) as [e|] eqn:He; rewrite Hes1 in He.
    + injection Hr as <- <-. split.
      * eapply put_quiet; [done|rewrite Hes1; done|done|]. by eapply pair_same; [|exact Hp].
      * rewrite (inbox_put s1 p e) by (done || by rewrite Hes1). rewrite Hib1.
        destruct (decide (p = b)) as [->|Hpn].
        -- rewrite decide_True by tauto. simpl. unfold inbox_of. by rewrite He.
        -- rewrite decide_False by tauto. by rewrite app_nil_r.
    + destruct (for_each (fun f => on_shm (fd_close f)) fds s1) as [[] s2|] eqn:Hc; [|done].
      injection Hr as <- <-. apply for_each_on_shm in Hc as [He2 _].
      assert (forall i, endpoint s2 i = endpoint s i) as Hes2 by (intros; unfold endpoint; by rewrite He2, He1).
      assert (id <> a) as Hia.
      { intros ->. assert (p = b) as -> by tauto. pose proof (pair_ba _ _ _ Hp) as Hx. rewrite peer_of_eq, He in Hx. done. }
      rewrite decide_False by done. rewrite app_nil_r. split; [|unfold inbox_of; by rewrite Hes2].
      eapply pair_same; [|exact Hp]. intros i _. by rewrite !peer_of_eq, Hes2.
  - unfold recv in Hr. destruct (endpoint s id) as [e|] eqn:He; cycle 1.
    { injection Hr as <- <-. simpl. case_decide; auto. }
    injection Hr as <- <-. split; [by eapply put_quiet|]. rewrite (inbox_put s id e) by done. rewrite app_nil_r. simpl.
    case_decide; [|done]. subst. unfold inbox_of. rewrite He. simpl. apply take_drop.
  - unfold close, mbind, st_bind, modify in Hr. destruct Hk as [Hka Hkb].
    destruct ((match endpoint s id with Some ep => for_each (fun f => on_shm (fd_close f)) (inbox_fds ep)
      | None => mret tt end) s) as [[] s1|] eqn:Hc; [|done].
    injection Hr as <- <-. assert (endpoints s1 = endpoints s) as He1.
    { destruct (endpoint s id); [by apply for_each_on_shm in Hc as [? _]|by injection Hc as <-]. }
    set (s2 := mk_state _ _ _).
    assert (forall i, 0 <= i -> i <> id -> endpoint s2 i = endpoint s i) as Hes.
    { intros i Hi Hne'. unfold endpoint, s2. simpl. rewrite He1. case_decide; [|done].
      by rewrite list_lookup_insert_ne by lia. }
    assert (peer_of s2 id = None) as Hid.
    { rewrite peer_of_eq. unfold endpoint, s2. simpl. rewrite He1. case_decide as Hlt.
      - by rewrite list_lookup_insert_eq.
      - rewrite lookup_ge_None_2; [done|lia]. }
    split; [|rewrite app_nil_r; unfold inbox_of; by rewrite Hes by (done || congruence)].
    split; [done|rewrite peer_of_eq, Hes, <- peer_of_eq by (done || congruence); apply Hp..| |].
    + intros c Hc0 Hca Hcb. destruct (decide (c = id)) as [->|]; [by rewrite Hid|].
      rewrite peer_of_eq, Hes, <- peer_of_eq by done. by apply Hp.
    + intros c q Hc0. destruct (decide (c = id)) as [->|]; [by rewrite Hid|].
      rewrite peer_of_eq, Hes, <- peer_of_eq by done. by apply Hp.
Qed.

Lemma exec_listeners s o out s' :
  listeners_ok s -> 0 <= op_id o -> exec o s = Ret out s' -> listeners_ok s'.
Proof.
  intros Hl H0 Hr. assert (forall s' : state, listeners s' = listeners s -> listeners_ok s') as Hsame.
  { intros s2 E p l. rewrite E. apply Hl. }
  destruct o as [|id path|id|id path|id|id bytes fds|id n|id]; unfold exec, mbind, st_bind, mret, st_ret in Hr; simpl in H0.
  - destruct (alloc_endpoint_spec s new_endpoint) as (k & s1 & Hc & _ & _ & _ & E & _).
    unfold create in Hr. rewrite Hc in Hr. injection Hr as <- <-. auto.
  - unfold bind in Hr. repeat case_match; simplify_eq; by apply Hsame.
  - unfold listen in Hr. repeat case_match; simplify_eq; try (by apply Hsame). intros p l. simpl.
    rewrite lookup_insert_Some. intros [[_ <-]|[_ Hp]]; [done|by eapply Hl].
  - destruct (connect_spec s id path ltac:(intros; by eapply Hl) H0) as (r & s1 & Hc & _ & _ & E & _).
    rewrite Hc in Hr. injection Hr as <- <-. auto.
  - unfold accept in Hr. repeat case_match; simplify_eq; by apply Hsame.
  - unfold send, get_st, mbind, st_bind in Hr. destruct (peer_of s id) as [p|]; [|by injection Hr as <- <-].
    destruct (for_each _ fds s) as [[] s1|] eqn:Hd; [|done]. apply for_each_on_shm in Hd as [_ E1].
    destruct (endpoint s1 p); [injection Hr as <- <-; by apply Hsame|].
    destruct (for_each _ fds s1) as [[] s2|] eqn:Hc; [|done]. apply for_each_on_shm in Hc as [_ E2].
    injection Hr as <- <-. apply Hsame. congruence.
  - unfold recv in Hr. repeat case_match; simplify_eq; by apply Hsame.
  - unfold close, mbind, st_bind, modify in Hr.
    destruct ((match endpoint s id with Some ep => for_each (fun f => on_shm (fd_close f)) (inbox_fds ep)
      | None => mret tt end) s) as [[] s1|] eqn:Hc; [|done].
    injection Hr as <- <-. assert (listeners s1 = listeners s) as E.
    { destruct (endpoint s id); [by apply for_each_on_shm in Hc as [_ ?]|by injection Hc as <-]. }
    intros p l. simpl. rewrite map_lookup_filter_Some, E. intros [Hp _]. by eapply Hl.
Qed.

(** ** Runs *)
Definition start (r : R) : state := mk_state [] ∅ r.
Inductive sock_step : state * list Z -> state * list Z -> Prop :=
| step_op s held o out s' :
    op_ok held s o -> exec o s = Ret out s' -> sock_step (s, held) (s', out.2 ++ held)
| step_close_fd s r1 f r2 r' :
    fd_close f (shared s) = Ret tt r' ->
    sock_step (s, r1 ++ f :: r2) (mk_state (endpoints s) (listeners s) r', r1 ++ r2).

(** passing descriptors keeps the reference counts exact.  From an empty
    socket table, after any run of socket operations by processes that pass
    only descriptors they hold, and of closes of descriptors they hold, the
    shared objects' counts are exactly the references held by processes plus
    those in flight in inboxes: [send] takes one reference per descriptor and
    gives it back if the peer is gone, [recv] hands it over, [close] drops the
    unclaimed ones.  No operation panics in such a state. *)
Theorem descriptors_accounted r held0 s held :
  refs_inv r held0 -> rtc sock_step (start r, held0) (s, held) ->
  refs_inv (shared s) (held ++ in_flight s) /\
  forall o, op_ok held s o -> exists out s', exec o s = Ret out s'.
Proof.
  intros Hinv Hr.
  set (good := fun st : state * list Z => listeners_ok st.1 /\ refs_inv (shared st.1) (st.2 ++ in_flight st.1)).
  assert (good (s, held)) as [Hlis Hrefs].
  { refine (rtc_ind_r good (start r, held0) _ _ _ Hr).
    - split; simpl; [by intros ? ? ?|]. by rewrite app_nil_r.
    - intros st st' _ Hstep [Hl Hi]. destruct Hstep as [s1 h1 o out s1' Hok He|s1 r1 f r2 r' Hc]; simpl in *.
      + destruct (exec_refs h1 s1 o Hl Hi Hok) as (out' & s2 & He' & Hl' & Hi'). rewrite He in He'. simplify_eq.
        split; simpl; [done|]. by rewrite <- app_assoc.
      + split; simpl; [done|]. destruct (fd_close_spec (shared s1) f (r1 ++ r2 ++ in_flight s1)) as (r2' & Hc' & Hi').
        * eapply refs_perm; [|exact Hi]. solve_Permutation.
        * rewrite Hc in Hc'. simplify_eq. rewrite <- app_assoc. done. }
  simpl in Hlis, Hrefs. split; [done|]. intros o Hok.
  destruct (exec_refs held s o Hlis Hrefs Hok) as (out & s' & He & _). eauto.
Qed.

(** A run with the bytes sent by [a] and those received by [b]. *)
Inductive stream_step (a b : Z) : state * list Z * list Z -> state * list Z * list Z -> Prop :=
| stream_op s sent got o out s' :
    keeps a b o -> exec o s = Ret out s' ->
    stream_step a b (s, sent, got) (s', sent ++ sent_by a o, got ++ got_by b o out).


(** the handshake builds a connection.  Let no endpoint be connected to
    [id] or to a slot that is free, and let the endpoint listening at [path]
    exist.  Then [connect] by an idle endpoint [id] succeeds, creates the
    server's endpoint, queues it last on the listener's backlog, and leaves the
    two connected to each other with empty inboxes; [accept] takes the
    connections in the order they were made. *)
Theorem handshake s id path l el e :
  listeners_ok s -> 0 <= id -> endpoint s id = Some e -> role e = Idle -> inbox e = [] ->
  listeners s !! path = Some l -> endpoint s l = Some el -> l <> id ->
  (forall c p, 0 <= c -> peer_of s c = Some p -> 0 <= p /\ p <> id /\ endpoint s p <> None) ->
  exists server s', connect id path s = Ret true s' /\ endpoint s server = None /\
    pair id server s' /\ inbox_of s' id = [] /\ inbox_of s' server = [] /\
    (exists el', endpoint s' l = Some el' /\ backlog el' = backlog el ++ [server]) /\
    exists first rest s'', backlog el ++ [server] = first :: rest /\ accept l s' = Ret (Some first) s''.
Proof.
  intros Hlis H0 He Hrole Hin Hl Hel Hne Hdang. pose proof (Hlis path l Hl) as Hl0.
  destruct (connect_spec s id path ltac:(intros; by eapply Hlis) H0) as (r & s' & Hc & _ & _ & _ & Hib & Hm).
  rewrite Hl in Hm. destruct Hm as (server & Hs0 & Hnone & Hr & Hback & Hi). specialize (Hback el Hne Hel).
  assert (r = true) as -> by (apply Hr; split; right; by eexists).
  assert (server <> id) as Hsi by congruence. assert (l <> server) as Hls by congruence.
  exists server, s'. split; [done|]. split; [done|]. split_and!.
  - split.
    + done.
    + rewrite (proj2 (Hi id H0)). by rewrite decide_True.
    + rewrite (proj2 (Hi server Hs0)). by rewrite decide_False, decide_True by naive_solver.
    + intros c Hc0 Hci Hcs. rewrite (proj2 (Hi c Hc0)), !decide_False by naive_solver.
      split; intros Hx; destruct (Hdang c _ Hc0 Hx) as (_ & ? & ?); congruence.
    + intros c p Hc0. rewrite (proj2 (Hi c Hc0)). intros Hx. repeat case_decide; try (by apply (Hdang c)).
      all: by injection Hx as <-.
  - rewrite Hib by done. unfold inbox_of. by rewrite He.
  - rewrite Hib by done. unfold inbox_of. by rewrite Hnone.
  - by eexists.
  - destruct (backlog el ++ [server]) as [|first rest] eqn:Eb; [by destruct (backlog el)|].
    unfold accept. rewrite Hback. cbn [backlog set_backlog]. eauto 10.
Qed.

(** closing an endpoint leaves its peer pointing at the slot.  When the
    slot of a closed endpoint is given to a new, unconnected one, whatever the
    old peer still sends is delivered into the newcomer's inbox. *)
Theorem stale_peer_delivery a b s bytes s1 s2 :
  pair a b s -> close b s = Ret tt s1 -> create s1 = Ret b s2 ->
  exists s3, send a bytes [] s2 = Ret (Some (Z.of_nat (length bytes))) s3 /\
    inbox_of s3 b = bytes /\ peer_of s3 b = None.
Proof.
  intros Hp Hc Hn. destruct (pair_pos _ _ _ Hp) as (Ha0 & Hb0 & Hne).
  assert (endpoint s1 a = endpoint s a) as Hea.
  { unfold close, mbind, st_bind, modify in Hc.
    destruct ((match endpoint s b with Some ep => for_each (fun f => on_shm (fd_close f)) (inbox_fds ep)
      | None => mret tt end) s) as [[] s1'|] eqn:E; [|done].
    injection Hc as <-. assert (endpoints s1' = endpoints s) as He1.
    { destruct (endpoint s b); [by apply for_each_on_shm in E as [? _]|by injection E as <-]. }
    unfold endpoint. simpl. rewrite He1. destruct (decide (Z.to_nat b < length (endpoints s))%nat); [|done]. by rewrite list_lookup_insert_ne by lia. }
  destruct (alloc_endpoint_spec s1 new_endpoint) as (k & s2' & Ha & _ & _ & He & _).
  unfold create in Hn. rewrite Hn in Ha. injection Ha as <- <-.
  assert (peer_of s2 a = Some b) as Hpa.
  { rewrite peer_of_eq, He, decide_False, Hea, <- peer_of_eq by done. apply Hp. }
  assert (endpoint s2 b = Some new_endpoint) as Heb by (by rewrite He, decide_True).
  unfold send. rewrite Hpa. cbn [for_each]. unfold mbind, st_bind, mret, st_ret, get_st, put_st. rewrite Heb.
  eexists. split; [done|]. split.
  - rewrite (inbox_put s2 b new_endpoint) by done. by rewrite decide_True.
  - rewrite peer_of_eq, endpoint_put by (done || by eexists). by rewrite decide_True.
Qed.
End socket.
Arguments state : clear implicits.
Arguments op : clear implicits.

(** ** Witnesses, over the shared-memory objects of [Shm.v] *)
Section witnesses.
#[local] Existing Instance shm_refs.
#[local] Instance demo_refs : FdRefs shm := shm_refs small.
Definition pair_state : state shm :=
  mk_state [Some (mk_endpoint (Connected 1) [] [] []); Some (mk_endpoint (Connected 0) [] [] [])] ∅ Shm.demo.
Lemma pair_state_pair : pair 0 1 pair_state.
Proof.
  assert (forall c p, 0 <= c -> peer_of pair_state c = Some p -> (c = 0 /\ p = 1) \/ (c = 1 /\ p = 0)) as Hc.
  { intros c p Hc. unfold peer_of, endpoint, pair_state. simpl.
    destruct (Z.to_nat c) as [|[|n]] eqn:E; simpl; [intros [= <-]; lia|intros [= <-]; lia|done]. }
  split; [lia|done|done| |].
  - intros c H0 Ha Hb. split; intros Hx; apply Hc in Hx; lia.
  - intros c p H0 Hx. apply Hc in Hx; lia.
Qed.

Definition sent_state : state shm := ret_state pair_state (exec (Send 0 [104; 105] []) pair_state).
Example descriptors_accounted_witness :
  exists s, (refs_inv Shm.demo [0; 0] /\ rtc sock_step (start Shm.demo, [0; 0]) (s, [0; 0])) /\
    refs_inv (shared s) ([0; 0] ++ in_flight s).
Proof.
  assert (refs_inv Shm.demo [0; 0]) as Hi by exact (shm_run_inv demo_vm Shm.demo [0; 0] small_wf Shm.demo_run).
  set (s1 := ret_state (start Shm.demo) (exec Create (start Shm.demo))).
  assert (rtc sock_step (start Shm.demo, [0; 0]) (s1, [0; 0])) as Hr.
  { eapply rtc_l; [|apply rtc_refl]. apply (step_op (start Shm.demo) [0; 0] Create ([], []) s1).
    - split; [simpl; lia|exact I].
    - reflexivity. }
  exists s1. split; [split; [exact Hi|exact Hr]|].
  exact (proj1 (descriptors_accounted Shm.demo [0; 0] s1 [0; 0] Hi Hr)).
Defined.
Definition listening_state : state shm :=
  mk_state [Some new_endpoint; Some (mk_endpoint Listening [] [] [])] {["wayland-0"%string := 1]} Shm.demo.
Example handshake_witness :
  (endpoint listening_state 0 = Some new_endpoint /\ listeners listening_state !! "wayland-0"%string = Some 1) /\
  exists server s', connect 0 "wayland-0" listening_state = Ret true s' /\ pair 0 server s'.
Proof.
  split; [split; reflexivity|].
  destruct (handshake listening_state 0 "wayland-0" 1 (mk_endpoint Listening [] [] []) new_endpoint)
    as (server & s' & Hc & _ & Hp & _); try reflexivity; try lia.
  - intros p l Hl. unfold listening_state in Hl. simpl in Hl. apply lookup_singleton_Some in Hl as [_ <-]. lia.
  - intros c p H0 Hx. exfalso. unfold peer_of, endpoint, listening_state in Hx. simpl in Hx.
    destruct (Z.to_nat c) as [|[|n]]; simpl in Hx; discriminate Hx.
  - exists server, s'. split; [exact Hc|exact Hp].
Defined.
Definition closed_state : state shm := ret_state pair_state (close 1 pair_state).
Example stale_peer_delivery_witness :
  (pair 0 1 pair_state /\ close 1 pair_state = Ret tt closed_state /\
   create closed_state = Ret 1 (ret_state closed_state (create closed_state))) /\
  exists s3, send 0 [7] [] (ret_state closed_state (create closed_state)) = Ret (Some 1) s3 /\ inbox_of s3 1 = [7].
Proof.
  split; [split; [exact pair_state_pair|split; reflexivity]|].
  destruct (stale_peer_delivery 0 1 pair_state [7] closed_state (ret_state closed_state (create closed_state)))
    as (s3 & Hs & Hi & _); [exact pair_state_pair|reflexivity|reflexivity|].
  exists s3. split; [exact Hs|exact Hi].
Defined.
End witnesses.
