(* ===== verification/Elf.v ===== *)
(** * ELF64 executables (src/elf.rs)

    [parse] validates the file header and the program headers of a file given as
    a list of bytes, and returns the loadable segments.  The theorems say that
    whatever it accepts is safe to load (every range lies inside the file) and
    says exactly what the program headers say, and that it accepts every
    well-formed file and reads back the fields it was written from. *)
From S2P Require Import Prelude Bytes Text.

Definition ELF_HEADER_SIZE : Z := 64.
Definition PROGRAM_HEADER_SIZE : Z := 56.
Definition EI_CLASS : nat := 4.
Definition EI_DATA : nat := 5.
Definition ELFCLASS64 : Z := 2.
Definition ELFDATA2LSB : Z := 1.
Definition ET_EXEC : Z := 2.
Definition ET_DYN : Z := 3.
Definition EM_X86_64 : Z := 0x3E.
Definition PT_LOAD : Z := 1.
Definition PT_INTERP : Z := 3.
Definition PF_X : Z := 1.
Definition PF_W : Z := 2.

Record Segment := MkSegment {
  vaddr : Z; file_offset : Z; filesz : Z; memsz : Z; writable : bool; executable : bool }.

Record Program := MkProgram {
  entry : Z; segments : list Segment; is_pie : bool;
  phoff : Z; phentsize : Z; phnum : Z; interp : option str }.

(** ** Reading fields

    [off + n] is [usize] arithmetic, so it wraps; a wrapped range is refused by
    [get]. *)
Definition read_u16 (data : list Z) (off : Z) : result string Z :=
  le_combine <$> ok_or (get_range data off (u64 (off + 2))) "truncated ELF header"%string.
Definition read_u32 (data : list Z) (off : Z) : result string Z :=
  le_combine <$> ok_or (get_range data off (u64 (off + 4))) "truncated ELF header"%string.
Definition read_u64 (data : list Z) (off : Z) : result string Z :=
  le_combine <$> ok_or (get_range data off (u64 (off + 8))) "truncated ELF header"%string.

Definition require (b : bool) (e : string) : result string unit := if b then Ok tt else Err e.

(** ** The body of the program header loop: the header at [off]. *)
Definition parse_phdr (data : list Z) (off : Z) (segs : list Segment) (intp : option str) :
    result string (list Segment * option str) :=
  p_type ← read_u32 data off;
  if p_type =? PT_INTERP then
    p_offset ← read_u64 data (off + 8);
    p_filesz ← read_u64 data (off + 32);
    end_ ← ok_or (checked_add 64 p_offset p_filesz) "interp range overflow"%string;
    bytes ← ok_or (get_range data p_offset end_) "interp data outside file"%string;
    s ← ok_or (from_utf8 bytes) "invalid interp string"%string;
    mret (segs, Some (trim_end_matches (Z.eqb 0) s))
  else if negb (p_type =? PT_LOAD) then mret (segs, intp)
  else
    p_flags ← read_u32 data (off + 4);
    p_offset ← read_u64 data (off + 8);
    p_vaddr ← read_u64 data (off + 16);
    p_filesz ← read_u64 data (off + 32);
    p_memsz ← read_u64 data (off + 40);
    if p_memsz =? 0 then mret (segs, intp) else
    file_end ← ok_or (checked_add 64 p_offset p_filesz) "segment file range overflow"%string;
    _ ← require (file_end <=? Z.of_nat (length data)) "segment data outside file"%string;
    _ ← require (p_filesz <=? p_memsz) "segment filesz exceeds memsz"%string;
    mret (segs ++ [MkSegment p_vaddr p_offset p_filesz p_memsz (is_set p_flags PF_W) (is_set p_flags PF_X)], intp).

(** [for i in 0..phnum], [n] headers left. *)
Fixpoint parse_phdrs (data : list Z) (po pe : Z) (n : nat) (i : Z) (segs : list Segment) (intp : option str) :
    result string (list Segment * option str) :=
  match n with
  | O => Ok (segs, intp)
  | S n =>
      r ← parse_phdr data (u64 (po + u64 (i * pe))) segs intp;
      parse_phdrs data po pe n (i + 1) (fst r) (snd r)
  end.

Definition parse (data : list Z) : result string Program :=
  _ ← require (ELF_HEADER_SIZE <=? Z.of_nat (length data)) "truncated ELF header"%string;
  _ ← require (bool_decide (take 4 data = [0x7F; 69; 76; 70])) "not an ELF file"%string;
  _ ← require (bool_decide (data !! EI_CLASS = Some ELFCLASS64)) "not a 64-bit ELF"%string;
  _ ← require (bool_decide (data !! EI_DATA = Some ELFDATA2LSB)) "not a little-endian ELF"%string;
  e_type ← read_u16 data 16;
  _ ← require ((e_type =? ET_EXEC) || (e_type =? ET_DYN)) "not an executable (ET_EXEC/ET_DYN)"%string;
  let pie := e_type =? ET_DYN in
  e_machine ← read_u16 data 18;
  _ ← require (e_machine =? EM_X86_64) "not an x86_64 ELF"%string;
  ent ← read_u64 data 24;
  po ← read_u64 data 32;
  pe ← read_u16 data 54;
  pn ← read_u16 data 56;
  _ ← require (pe =? PROGRAM_HEADER_SIZE) "unexpected program header size"%string;
  size ← ok_or (if pn * pe <? 2 ^ 64 then Some (pn * pe) else None) "overflow"%string;
  table_end ← ok_or (checked_add 64 po size) "program header table overflow"%string;
  _ ← require (table_end <=? Z.of_nat (length data)) "program header table outside file"%string;
  r ← parse_phdrs data po pe (Z.to_nat pn) 0 [] None;
  _ ← require (match fst r with [] => false | _ => true end) "no loadable segments"%string;
  mret (MkProgram ent (fst r) pie po pe pn (snd r)).

(** ** What the file says

    The value of the [n]-byte little-endian field at [off], and the segment a
    program header describes. *)
Definition field (data : list Z) (off n : nat) : Z := le_combine (take n (drop off data)).
Definition segment_at (data : list Z) (o : nat) : option Segment :=
  if (field data o 4 =? PT_LOAD) && negb (field data (o + 40) 8 =? 0) then
    Some (MkSegment (field data (o + 16) 8) (field data (o + 8) 8)
            (field data (o + 32) 8) (field data (o + 40) 8)
            (Z.testbit (field data (o + 4) 4) 1) (Z.testbit (field data (o + 4) 4) 0))
  else None.
Definition segment_of (data : list Z) (po : Z) (i : nat) : option Segment :=
  segment_at data (Z.to_nat po + 56 * i).

(** Loading [s] reads inside a file of [len] bytes and fits its memory image. *)
Definition loadable (len : Z) (s : Segment) : Prop :=
  0 <= file_offset s /\ 0 <= filesz s /\ file_offset s + filesz s <= len /\
  filesz s <= memsz s /\ 0 < memsz s < 2 ^ 64 /\ in_u 64 (vaddr s).

(** ** Field reads inside the file *)
Section reads.
Context (data : list Z).
Hypothesis data_bytes : byte_list data.
Hypothesis data_small : Z.of_nat (length data) < 2 ^ 63.

Lemma get_field (off : Z) (n : nat) :
  0 <= off -> off + Z.of_nat n <= Z.of_nat (length data) ->
  le_combine <$> ok_or (get_range data off (u64 (off + Z.of_nat n))) "truncated ELF header"%string =
    Ok (field data (Z.to_nat off) n).
Proof.
  intros H0 H1. rewrite wrap_small by (unfold in_u; lia). unfold get_range.
  rewrite (proj2 (Z.leb_le 0 off)), (proj2 (Z.leb_le off _)), (proj2 (Z.leb_le _ _)) by lia.
  cbn [andb ok_or fmap result_fmap]. unfold field. do 3 f_equal. f_equal; lia.
Qed.
Lemma read_u16_ok off : 0 <= off -> off + 2 <= Z.of_nat (length data) ->
  read_u16 data off = Ok (field data (Z.to_nat off) 2).
Proof. apply (get_field off 2). Qed.
Lemma read_u32_ok off : 0 <= off -> off + 4 <= Z.of_nat (length data) ->
  read_u32 data off = Ok (field data (Z.to_nat off) 4).
Proof. apply (get_field off 4). Qed.
Lemma read_u64_ok off : 0 <= off -> off + 8 <= Z.of_nat (length data) ->
  read_u64 data off = Ok (field data (Z.to_nat off) 8).
Proof. apply (get_field off 8). Qed.

Lemma field_bound off n :
  (off + n <= length data)%nat -> 0 <= field data off n < 2 ^ (8 * Z.of_nat n).
Proof.
  intros. unfold field.
  pose proof (le_combine_bound (take n (drop off data))) as Hb.
  rewrite length_take, length_drop, Nat.min_l in Hb by lia.
  apply Hb. by apply Forall_take, Forall_drop.
Qed.
End reads.

Lemma bind_Ok {E A B} (m : result E A) (k : A -> result E B) b :
  (m ≫= k) = Ok b -> exists a, m = Ok a /\ k a = Ok b.
Proof. destruct m; cbn; naive_solver. Qed.
Lemma require_Ok b e u : require b e = Ok u -> b = true.
Proof. by destruct b. Qed.
Lemma ok_or_Ok {E A} (o : option A) (e : E) a : ok_or o e = Ok a -> o = Some a.
Proof. destruct o; cbn; congruence. Qed.

(** Take a successful monadic run apart. *)
Ltac run_ok H :=
  repeat match type of H with
  | (_ ≫= _) = Ok _ => let a := fresh "r" in let E := fresh "E" in apply bind_Ok in H as (a & E & H);
      try (apply require_Ok in E; clear a); try (apply ok_or_Ok in E)
  end.

(** ** Soundness *)
Section soundness.
Context (data : list Z).
Hypothesis data_bytes : byte_list data.
Hypothesis data_small : Z.of_nat (length data) < 2 ^ 63.

Lemma is_set_1 x : is_set x PF_X = Z.testbit x 0.
Proof. by apply (is_set_bit x 0). Qed.
Lemma is_set_2 x : is_set x PF_W = Z.testbit x 1.
Proof. by apply (is_set_bit x 1). Qed.

Lemma parse_phdr_sound off segs intp r :
  0 <= off -> off + 56 <= Z.of_nat (length data) ->
  parse_phdr data off segs intp = Ok r ->
  fst r = segs ++ option_list (segment_at data (Z.to_nat off)) /\
  Forall (loadable (Z.of_nat (length data))) (option_list (segment_at data (Z.to_nat off))).
Proof.
  intros H0 H1 H. unfold parse_phdr in H. unfold segment_at.
  rewrite (read_u32_ok data data_small off) in H by lia. cbn [mbind result_bind] in H.
  case_match eqn:Hi.
  { run_ok H. injection H as <-. apply Z.eqb_eq in Hi. rewrite Hi. cbn. by rewrite app_nil_r. }
  case_match eqn:Hl.
  { injection H as <-. apply negb_true_iff in Hl. rewrite Hl. cbn. by rewrite app_nil_r. }
  apply negb_false_iff in Hl. rewrite Hl.
  rewrite (read_u32_ok data data_small (off + 4)), !(read_u64_ok data data_small) in H by lia.
  rewrite !Z2Nat.inj_add in H by lia. cbn [mbind result_bind] in H.
  change (Z.to_nat 4) with 4%nat in H. change (Z.to_nat 8) with 8%nat in H.
  change (Z.to_nat 16) with 16%nat in H. change (Z.to_nat 32) with 32%nat in H.
  change (Z.to_nat 40) with 40%nat in H.
  case_match eqn:Hm.
  { injection H as <-. cbn. by rewrite app_nil_r. }
  run_ok H. injection H as <-. rewrite is_set_1, is_set_2. cbn [fst andb negb option_list].
  split; [done|]. constructor; [|constructor]. to_prop.
  pose proof (field_bound data data_bytes (Z.to_nat off + 8) 8 ltac:(lia)) as B8.
  pose proof (field_bound data data_bytes (Z.to_nat off + 16) 8 ltac:(lia)) as B16.
  pose proof (field_bound data data_bytes (Z.to_nat off + 32) 8 ltac:(lia)) as B32.
  pose proof (field_bound data data_bytes (Z.to_nat off + 40) 8 ltac:(lia)) as B40.
  change (8 * Z.of_nat 8) with 64 in *.
  unfold checked_add in *. repeat case_match; simplify_eq.
  unfold loadable, in_u. cbn [file_offset filesz memsz vaddr]. lia.
Qed.

Lemma parse_phdrs_sound po n i segs intp r :
  0 <= po -> 0 <= i -> po + (i + Z.of_nat n) * 56 <= Z.of_nat (length data) ->
  parse_phdrs data po 56 n i segs intp = Ok r ->
  fst r = segs ++ omap (segment_of data po) (seq (Z.to_nat i) n) /\
  Forall (loadable (Z.of_nat (length data))) (omap (segment_of data po) (seq (Z.to_nat i) n)).
Proof.
  intros Hpo. revert i segs intp. induction n as [|n IH]; intros i segs intp Hi Hb H.
  { injection H as <-. cbn. by rewrite app_nil_r. }
  cbn [parse_phdrs] in H. apply bind_Ok in H as (r1 & H1 & H).
  rewrite (wrap_small 64 (i * 56)), wrap_small in H1 by (unfold in_u; lia).
  apply parse_phdr_sound in H1 as [E1 F1]; [|lia..].
  apply IH in H as [E2 F2]; [|lia..]. cbn [seq omap list_omap].
  rewrite (Z2Nat.inj_add i 1), Nat.add_1_r in E2, F2 by lia.
  assert (segment_at data (Z.to_nat (po + i * 56)) = segment_of data po (Z.to_nat i)) as Es.
  { unfold segment_of. f_equal. lia. }
  rewrite Es in E1, F1. rewrite E2, E1.
  destruct (segment_of data po (Z.to_nat i)); cbn in *; rewrite <- ?app_assoc; cbn.
  - split; [done|]. inversion F1; by constructor.
  - done.
Qed.
End soundness.

(** C8: Whatever [parse] accepts is safe to load and says what the file says:
    there is at least one segment; every segment's bytes lie inside the file,
    its file image fits its memory image, and its memory image is not empty; the
    segments are the non-empty PT_LOAD program headers in the order of the
    table, with the fields at their ELF64 offsets and the W and X bits of the
    flags; the table lies inside the file; and entry point, kind and table
    position are the fields of the file header. *)
Theorem parse_sound (data : list Z) (p : Program) :
  byte_list data -> Z.of_nat (length data) < 2 ^ 63 -> parse data = Ok p ->
  segments p <> [] /\
  Forall (loadable (Z.of_nat (length data))) (segments p) /\
  segments p = omap (segment_of data (phoff p)) (seq 0 (Z.to_nat (phnum p))) /\
  (0 <= phoff p /\ phentsize p = 56 /\ phoff p + phnum p * 56 <= Z.of_nat (length data)) /\
  (entry p = field data 24 8 /\ phoff p = field data 32 8 /\ phnum p = field data 56 2) /\
  (if is_pie p then field data 16 2 = ET_DYN else field data 16 2 = ET_EXEC).
Proof.
  intros Hd Hs H. unfold parse in H. apply bind_Ok in H as (u & E & H).
  apply require_Ok in E. unfold ELF_HEADER_SIZE in E. apply Z.leb_le in E.
  rewrite !(read_u16_ok data Hs), !(read_u64_ok data Hs) in H by lia.
  run_ok H. injection H as <-. destruct r7 as [segs intp]. cbn [fst snd] in *.
  injection E3 as <-. injection E7 as <-. injection E8 as <-. injection E9 as <-. injection E10 as <-.
  change (Z.to_nat 16) with 16%nat in *. change (Z.to_nat 24) with 24%nat in *.
  change (Z.to_nat 56) with 56%nat in *. change (Z.to_nat 32) with 32%nat in *.
  assert (0 <= field data 56 2 < 2 ^ 16) by (apply (field_bound data Hd 56 2); lia).
  assert (0 <= field data 32 8 < 2 ^ 64) by (apply (field_bound data Hd 32 8); lia).
  to_prop. unfold PROGRAM_HEADER_SIZE in E11. rewrite E11 in *.
  assert (segs <> []) as Hne by (intros ->; discriminate).
  assert (field data 32 8 + field data 56 2 * 56 <= Z.of_nat (length data)).
  { unfold checked_add in E13. repeat case_match; simplify_eq. lia. }
  apply (parse_phdrs_sound data Hd Hs) in E15 as [Es Fs]; [|lia..].
  cbn [app fst] in Es. rewrite <- Es in Fs. cbn [entry segments is_pie phoff phentsize phnum].
  apply orb_true_iff in E4. unfold ET_DYN, ET_EXEC in *.
  split; [done|]. split; [done|]. split; [done|]. split; [lia|]. split; [done|].
  destruct (Z.eqb_spec (field data 16 2) 3); [done|]. destruct E4 as [E4|?]; [|done]. by to_prop.
Qed.

(** ** A writer of executables

    The ELF64 layout of the file header, the program headers directly behind
    it, and the contents. *)
Record Phdr := MkPhdr {
  h_type : Z; h_flags : Z; h_offset : Z; h_vaddr : Z; h_paddr : Z; h_filesz : Z; h_memsz : Z; h_align : Z }.
Definition write_phdr (h : Phdr) : list Z :=
  le_split 4 (h_type h) ++ le_split 4 (h_flags h) ++ le_split 8 (h_offset h) ++ le_split 8 (h_vaddr h) ++
  le_split 8 (h_paddr h) ++ le_split 8 (h_filesz h) ++ le_split 8 (h_memsz h) ++ le_split 8 (h_align h).
Definition write_header (pie : bool) (ent n : Z) : list Z :=
  [0x7F; 69; 76; 70; 2; 1; 1; 0; 0; 0; 0; 0; 0; 0; 0; 0] ++
  le_split 2 (if pie then ET_DYN else ET_EXEC) ++ le_split 2 EM_X86_64 ++ le_split 4 1 ++
  le_split 8 ent ++ le_split 8 64 ++ le_split 8 0 ++ le_split 4 0 ++ le_split 2 64 ++
  le_split 2 56 ++ le_split 2 n ++ le_split 2 0 ++ le_split 2 0 ++ le_split 2 0.
Definition write_file (pie : bool) (ent : Z) (hs : list Phdr) (body : list Z) : list Z :=
  write_header pie ent (Z.of_nat (length hs)) ++ (hs ≫= write_phdr) ++ body.

Definition phdr_fields (h : Phdr) : Prop :=
  in_u 32 (h_type h) /\ in_u 32 (h_flags h) /\ in_u 64 (h_offset h) /\ in_u 64 (h_vaddr h) /\
  in_u 64 (h_filesz h) /\ in_u 64 (h_memsz h).
Definition phdr_segment (h : Phdr) : option Segment :=
  if (h_type h =? PT_LOAD) && negb (h_memsz h =? 0) then
    Some (MkSegment (h_vaddr h) (h_offset h) (h_filesz h) (h_memsz h)
            (Z.testbit (h_flags h) 1) (Z.testbit (h_flags h) 0))
  else None.
(** The path an interpreter header of [file] names. *)
Definition phdr_interp (file : list Z) (h : Phdr) : option str :=
  if h_type h =? PT_INTERP then
    trim_end_matches (Z.eqb 0) <$>
      (get_range file (h_offset h) (h_offset h + h_filesz h) ≫= from_utf8)
  else None.
(** A header [parse] has no reason to refuse. *)
Definition phdr_ok (file : list Z) (h : Phdr) : Prop :=
  phdr_fields h /\
  (h_type h = PT_LOAD -> h_memsz h <> 0 ->
     h_offset h + h_filesz h <= Z.of_nat (length file) /\ h_filesz h <= h_memsz h) /\
  (h_type h = PT_INTERP -> is_Some (phdr_interp file h)).

Lemma length_write_phdr h : length (write_phdr h) = 56%nat.
Proof. reflexivity. Qed.
Lemma length_write_header pie ent n : length (write_header pie ent n) = 64%nat.
Proof. destruct pie; reflexivity. Qed.

Lemma field_within data off len k n :
  (k + n <= len)%nat -> field data (off + k) n = field (take len (drop off data)) k n.
Proof.
  intros. unfold field. f_equal. rewrite skipn_firstn_comm, drop_drop, take_take. f_equal. lia.
Qed.

Section complete.
Context (data : list Z).
Hypothesis data_small : Z.of_nat (length data) < 2 ^ 63.

Lemma phdr_at_fields o h :
  phdr_fields h -> take 56 (drop o data) = write_phdr h ->
  field data o 4 = h_type h /\ field data (o + 4) 4 = h_flags h /\ field data (o + 8) 8 = h_offset h /\
  field data (o + 16) 8 = h_vaddr h /\ field data (o + 32) 8 = h_filesz h /\ field data (o + 40) 8 = h_memsz h.
Proof.
  intros (H1 & H2 & H3 & H4 & H5 & H6) E.
  rewrite <- (Nat.add_0_r o) at 1. rewrite !(field_within data o 56) by lia. rewrite E.
  split; [exact (le_combine_small 4 _ H1)|]. split; [exact (le_combine_small 4 _ H2)|].
  split; [exact (le_combine_small 8 _ H3)|]. split; [exact (le_combine_small 8 _ H4)|].
  split; [exact (le_combine_small 8 _ H5)|]. exact (le_combine_small 8 _ H6).
Qed.

Lemma parse_phdr_complete off segs intp h :
  0 <= off -> off + 56 <= Z.of_nat (length data) ->
  take 56 (drop (Z.to_nat off) data) = write_phdr h -> phdr_ok data h ->
  parse_phdr data off segs intp =
    Ok (segs ++ option_list (phdr_segment h),
        match phdr_interp data h with Some i => Some i | None => intp end).
Proof.
  intros H0 H1 E (Hf & Hl & Hi). pose proof Hf as (F1 & F2 & F3 & F4 & F5 & F6).
  destruct (phdr_at_fields _ h Hf E) as (G1 & G2 & G3 & G4 & G5 & G6).
  unfold parse_phdr.
  rewrite !(read_u32_ok data data_small), !(read_u64_ok data data_small) by lia.
  rewrite !Z2Nat.inj_add by lia.
  change (Z.to_nat 4) with 4%nat. change (Z.to_nat 8) with 8%nat. change (Z.to_nat 16) with 16%nat.
  change (Z.to_nat 32) with 32%nat. change (Z.to_nat 40) with 40%nat.
  rewrite G1, G2, G3, G4, G5, G6. cbn [mbind result_bind].
  unfold phdr_interp, phdr_segment in *. destruct (Z.eqb_spec (h_type h) PT_INTERP) as [HI|HI].
  - destruct (Hi HI) as [i Hi']. apply fmap_Some in Hi' as (s & Hs & ->).
    apply bind_Some in Hs as (bs & Hbs & Hs). rewrite HI. cbn. rewrite app_nil_r.
    assert (checked_add 64 (h_offset h) (h_filesz h) = Some (h_offset h + h_filesz h)) as ->.
    { unfold checked_add, get_range in *. case_match; [|done]. to_prop.
      by rewrite (proj2 (Z.ltb_lt _ _)) by lia. }
    cbn. rewrite Hbs. cbn. by rewrite Hs.
  - destruct (Z.eqb_spec (h_type h) PT_LOAD) as [HL|HL]; cbn [negb andb option_list];
      [|by rewrite app_nil_r].
    destruct (Z.eqb_spec (h_memsz h) 0) as [HM|HM]; cbn [negb option_list]; [by rewrite app_nil_r|].
    destruct (Hl HL HM) as [B1 B2]. unfold checked_add.
    rewrite (proj2 (Z.ltb_lt _ _)) by lia. cbn [ok_or mbind result_bind].
    rewrite (proj2 (Z.leb_le _ _) B1), (proj2 (Z.leb_le _ _) B2). cbn [require mbind result_bind].
    by rewrite is_set_1, is_set_2.
Qed.

(** The interpreter named last, [d] when none is. *)
Definition last_interp (file : list Z) (hs : list Phdr) (d : option str) : option str :=
  match last (omap (phdr_interp file) hs) with Some i => Some i | None => d end.

Lemma parse_phdrs_complete po hs i segs intp :
  0 <= po -> 0 <= i -> po + (i + Z.of_nat (length hs)) * 56 <= Z.of_nat (length data) ->
  take (56 * length hs) (drop (Z.to_nat (po + i * 56)) data) = hs ≫= write_phdr ->
  Forall (phdr_ok data) hs ->
  parse_phdrs data po 56 (length hs) i segs intp =
    Ok (segs ++ omap phdr_segment hs, last_interp data hs intp).
Proof.
  intros Hpo. revert i segs intp. induction hs as [|h hs IH]; intros i segs intp Hi Hb E Hok.
  { cbn. by rewrite app_nil_r. }
  inversion Hok as [|? ? Hh Hhs]; subst. cbn [length] in *. cbn [parse_phdrs].
  rewrite (wrap_small 64 (i * 56)), wrap_small by (unfold in_u; lia).
  set (d := drop (Z.to_nat (po + i * 56)) data) in *.
  assert (take 56 d = write_phdr h) as E1.
  { apply (f_equal (take 56)) in E. rewrite take_take, Nat.min_l in E by lia. exact E. }
  assert (take (56 * length hs) (drop 56 d) = hs ≫= write_phdr) as E2.
  { apply (f_equal (drop 56)) in E. rewrite skipn_firstn_comm in E.
    replace (56 * S (length hs) - 56)%nat with (56 * length hs)%nat in E by lia. exact E. }
  rewrite (parse_phdr_complete _ segs intp h) by (done || lia). cbn [mbind result_bind fst snd].
  rewrite IH; [|lia|lia| |done].
  2:{ rewrite <- E2. unfold d. rewrite drop_drop. do 2 f_equal. lia. }
  f_equal. f_equal.
  - cbn. destruct (phdr_segment h); cbn; [by rewrite <- app_assoc|by rewrite app_nil_r].
  - unfold last_interp. cbn [omap list_omap]. destruct (phdr_interp data h) as [j|]; [|done].
    rewrite last_cons. by destruct (last _).
Qed.
End complete.

(** [parse] accepts every well-formed executable and reads it back: from
    the file written with a given kind, entry point, program headers and
    contents, whose segments and interpreter paths lie inside the file and of
    which at least one segment is not empty, it returns those fields, the
    non-empty PT_LOAD headers as segments in order, and the path of the last
    PT_INTERP header without its trailing NULs. *)
Theorem parse_write (pie : bool) (ent : Z) (hs : list Phdr) (body : list Z) :
  let file := write_file pie ent hs body in
  Z.of_nat (length file) < 2 ^ 63 -> in_u 64 ent -> Z.of_nat (length hs) < 2 ^ 16 ->
  Forall (phdr_ok file) hs -> omap phdr_segment hs <> [] ->
  parse file = Ok (MkProgram ent (omap phdr_segment hs) pie 64 56 (Z.of_nat (length hs))
                     (last_interp file hs None)).
Proof.
  intros file Hs He Hn Hok Hne.
  assert (length (hs ≫= write_phdr) = 56 * length hs)%nat as Hlp.
  { clear. induction hs as [|h hs IH]; [done|]. cbn [mbind list_bind] in *.
    rewrite length_app, IH, length_write_phdr. cbn [length]. lia. }
  assert (64 + Z.of_nat (length hs) * 56 <= Z.of_nat (length file)) as Hlen.
  { unfold file, write_file. rewrite !length_app, length_write_header, Hlp. lia. }
  assert (forall k n, (k + n <= 64)%nat ->
    field file k n = field (write_header pie ent (Z.of_nat (length hs))) k n) as Hf.
  { intros k n Hk. pose proof (field_within file 0 64 k n Hk) as Hw. cbn [Nat.add] in Hw.
    rewrite Hw, drop_0. unfold file, write_file.
    by rewrite take_app_length' by (by rewrite length_write_header). }
  unfold parse. rewrite !(read_u16_ok file Hs), !(read_u64_ok file Hs) by (unfold ELF_HEADER_SIZE; lia).
  unfold ELF_HEADER_SIZE. rewrite (proj2 (Z.leb_le 64 _)) by lia.
  rewrite !Hf by (cbn; lia).
  assert (take 4 file = [127; 69; 76; 70]) as -> by reflexivity.
  assert (file !! EI_CLASS = Some ELFCLASS64) as -> by reflexivity.
  assert (file !! EI_DATA = Some ELFDATA2LSB) as -> by reflexivity.
  assert (field (write_header pie ent (Z.of_nat (length hs))) (Z.to_nat 16) 2 = if pie then ET_DYN else ET_EXEC)
    as -> by (destruct pie; reflexivity).
  assert (field (write_header pie ent (Z.of_nat (length hs))) (Z.to_nat 18) 2 = EM_X86_64) as -> by (destruct pie; reflexivity).
  assert (field (write_header pie ent (Z.of_nat (length hs))) (Z.to_nat 24) 8 = ent) as ->
    by exact (le_combine_small 8 _ He).
  assert (field (write_header pie ent (Z.of_nat (length hs))) (Z.to_nat 32) 8 = 64) as -> by (destruct pie; reflexivity).
  assert (field (write_header pie ent (Z.of_nat (length hs))) (Z.to_nat 54) 2 = 56) as -> by (destruct pie; reflexivity).
  assert (field (write_header pie ent (Z.of_nat (length hs))) (Z.to_nat 56) 2 = Z.of_nat (length hs)) as ->
    by (apply (le_combine_small 2); lia).
  rewrite !bool_decide_true by done. cbn [require mbind result_bind].
  assert ((if pie then ET_DYN else ET_EXEC) =? ET_DYN = pie) as -> by (by destruct pie).
  assert (((if pie then ET_DYN else ET_EXEC) =? ET_EXEC) || pie = true) as -> by (by destruct pie).
  change (EM_X86_64 =? EM_X86_64) with true. change (56 =? PROGRAM_HEADER_SIZE) with true.
  rewrite (proj2 (Z.ltb_lt (Z.of_nat (length hs) * 56) _)) by lia.
  cbn [require mbind result_bind ok_or]. unfold checked_add.
  rewrite (proj2 (Z.ltb_lt (64 + _) _)) by lia. cbn [require mbind result_bind ok_or].
  rewrite (proj2 (Z.leb_le _ _) Hlen), Nat2Z.id. cbn [require mbind result_bind ok_or].
  rewrite (parse_phdrs_complete file Hs 64 hs 0 [] None); [|lia|lia|lia| |done].
  - cbn. by destruct (omap phdr_segment hs).
  - unfold file, write_file. cbn [Z.add]. change (Z.to_nat (64 + 0 * 56)) with 64%nat.
    rewrite drop_app_length' by (by rewrite length_write_header). by rewrite take_app_length' by lia.
Qed.

(** ** Witnesses: a position-independent program with an interpreter. *)
Definition sample_headers : list Phdr :=
  [MkPhdr PT_INTERP 4 232 0 0 5 5 1; MkPhdr PT_LOAD 5 0 0x1000 0 240 4096 4096;
   MkPhdr PT_LOAD 6 0 0 0 0 0 0].
Definition sample_file : list Z :=
  write_file true 0x1010 sample_headers [47; 108; 100; 0; 0; 1; 2; 3].
Definition sample_program : Program :=
  MkProgram 0x1010 [MkSegment 0x1000 0 240 4096 false true] true 64 56 3 (Some [47; 108; 100]).

Lemma parse_sound_witness :
  parse sample_file = Ok sample_program /\
  Forall (loadable (Z.of_nat (length sample_file))) (segments sample_program).
Proof.
  assert (parse sample_file = Ok sample_program) as E by (vm_compute; reflexivity).
  split; [exact E|].
  apply (parse_sound sample_file sample_program); [|vm_compute; reflexivity|exact E].
  apply Forall_forall. intros b Hb. unfold in_u.
  assert (forallb (fun b => (0 <=? b) && (b <? 256)) sample_file = true) as H by (vm_compute; reflexivity).
  rewrite forallb_forall in H. apply list_elem_of_In in Hb. specialize (H b Hb). cbv beta in H. to_prop.
  change (2 ^ 8) with 256. lia.
Defined.

Lemma parse_write_witness : parse sample_file = Ok sample_program.
Proof.
  refine (parse_write true 0x1010 sample_headers [47; 108; 100; 0; 0; 1; 2; 3] _ _ _ _ _).
  - vm_compute. reflexivity.
  - unfold in_u. lia.
  - vm_compute. reflexivity.
  - repeat apply Forall_cons_2; [..|apply Forall_nil_2].
    all: split; [unfold phdr_fields, in_u, PT_INTERP, PT_LOAD; cbn [h_type h_flags h_offset h_vaddr h_filesz h_memsz]; lia|].
    all: split; [intros H1 H2; vm_compute in H1, H2|intros H; vm_compute in H].
    all: try discriminate. all: try (by destruct H2).
    + exists [47; 108; 100]. vm_compute. reflexivity.
    + vm_compute. split; intros H; discriminate H.
  - vm_compute. discriminate.
Defined.
