(* ===== verification/Rtc.v ===== *)
(** * The CMOS clock, [rtc.rs]

    The clock chip is outside the program: its registers over time are an
    argument, one register file per port access.  The specification is the
    chip's own encoding of a wall-clock time in its four modes (binary or BCD,
    24-hour or 12-hour). *)
From S2P Require Import Prelude.

Record DateTime := MkDateTime {
  year : Z; month : Z; day : Z; hour : Z; minute : Z; second : Z }.

Definition REG_SECONDS : Z := 0x00.
Definition REG_MINUTES : Z := 0x02.
Definition REG_HOURS : Z := 0x04.
Definition REG_DAY : Z := 0x07.
Definition REG_MONTH : Z := 0x08.
Definition REG_YEAR : Z := 0x09.
Definition REG_STATUS_A : Z := 0x0A.
Definition REG_STATUS_B : Z := 0x0B.
Definition REG_CENTURY : Z := 0x32.
Definition STATUS_A_UIP : Z := 0x80.
Definition STATUS_B_BINARY : Z := 0x04.
Definition STATUS_B_24H : Z := 0x02.

Definition bcd_to_bin (value : Z) : Z :=
  u8 (Z.land value 0x0F + u8 (Z.shiftr value 4 * 10)).

Section clock.
(** [cmos t i]: the byte the data port returns at the [t]-th access when the
    address latch holds [i] with the NMI mask bit. *)
Context (cmos : nat -> Z -> Z).

Definition read_cmos (reg : Z) : ST nat Z := fun t => Ret (cmos t (Z.lor reg 0x80)) (S t).

(** [while read_cmos(REG_STATUS_A) & STATUS_A_UIP != 0 {}]: whether the loop
    ended within [fuel] reads. *)
Fixpoint wait_update (fuel : nat) : ST nat bool :=
  match fuel with
  | O => mret false
  | S fuel =>
      a ← read_cmos REG_STATUS_A;
      if is_set a STATUS_A_UIP then wait_update fuel else mret true
  end.

(** The hour register: its BCD decoding, then the 12-hour adjustment. *)
Definition decode_hour (binary hour24 : bool) (hour : Z) : Z :=
  let hour := if binary then hour else bcd_to_bin (Z.land hour 0x7F) in
  if hour24 then hour else
  let pm := is_set hour 0x80 in
  let hour := Z.land hour 0x7F in
  if pm && (hour <? 12) then hour + 12
  else if negb pm && (hour =? 12) then 0 else hour.
(** The registers after the wait, decoded. *)
Definition decode (status_b second minute hour day month year century : Z) : DateTime :=
  let binary := is_set status_b STATUS_B_BINARY in
  let hour24 := is_set status_b STATUS_B_24H in
  let dec x := if binary then x else bcd_to_bin x in
  let hour := decode_hour binary hour24 hour in
  let century := dec century in
  let century := if (19 <=? century) && (century <=? 20) then century else 20 in
  MkDateTime (u16 (u16 (century * 100) + dec year)) (dec month) (dec day) hour (dec minute) (dec second).

(** [None] when the update bit is still set after [fuel] reads. *)
Definition now (fuel : nat) : ST nat (option DateTime) :=
  ready ← wait_update fuel;
  if ready : bool then
    status_b ← read_cmos REG_STATUS_B;
    second ← read_cmos REG_SECONDS;
    minute ← read_cmos REG_MINUTES;
    hour ← read_cmos REG_HOURS;
    day ← read_cmos REG_DAY;
    month ← read_cmos REG_MONTH;
    year ← read_cmos REG_YEAR;
    century ← read_cmos REG_CENTURY;
    mret (Some (decode status_b second minute hour day month year century))
  else mret None.

(** ** The chip's encoding *)
Definition bcd (x : Z) : Z := 16 * (x / 10) + x mod 10.
Definition hour12 (h : Z) : Z := if h mod 12 =? 0 then 12 else h mod 12.
Definition encode_num (binary : bool) (x : Z) : Z := if binary then x else bcd x.
Definition encode_hour (binary hour24 : bool) (h : Z) : Z :=
  if hour24 then encode_num binary h
  else encode_num binary (hour12 h) + (if 12 <=? h then 0x80 else 0).
Definition status (binary hour24 : bool) : Z :=
  (if binary then STATUS_B_BINARY else 0) + (if hour24 then STATUS_B_24H else 0).

Definition valid (d : DateTime) : Prop :=
  1900 <= year d < 2100 /\ 1 <= month d <= 12 /\ 1 <= day d <= 31 /\ 0 <= hour d < 24 /\
  0 <= minute d < 60 /\ 0 <= second d < 60.

(** The chip shows [d] at access [t] in the given mode. *)
Definition shows (binary hour24 : bool) (d : DateTime) (t : nat) : Prop :=
  cmos t (Z.lor REG_STATUS_B 0x80) = status binary hour24 /\
  cmos t (Z.lor REG_SECONDS 0x80) = encode_num binary (second d) /\
  cmos t (Z.lor REG_MINUTES 0x80) = encode_num binary (minute d) /\
  cmos t (Z.lor REG_HOURS 0x80) = encode_hour binary hour24 (hour d) /\
  cmos t (Z.lor REG_DAY 0x80) = encode_num binary (day d) /\
  cmos t (Z.lor REG_MONTH 0x80) = encode_num binary (month d) /\
  cmos t (Z.lor REG_YEAR 0x80) = encode_num binary (year d mod 100) /\
  cmos t (Z.lor REG_CENTURY 0x80) = encode_num binary (year d / 100).

Lemma wait_update_ends fuel t n :
  (n < fuel)%nat ->
  (forall i, (i < n)%nat -> is_set (cmos (t + i)%nat (Z.lor REG_STATUS_A 0x80)) STATUS_A_UIP = true) ->
  is_set (cmos (t + n)%nat (Z.lor REG_STATUS_A 0x80)) STATUS_A_UIP = false ->
  wait_update fuel t = Ret true (S (t + n)).
Proof.
  revert t n. induction fuel as [|fuel IH]; intros t n Hn Hb He; [lia|].
  cbn [wait_update]. unfold read_cmos at 1, mbind, st_bind.
  destruct n as [|n].
  - rewrite Nat.add_0_r in He. rewrite He. by rewrite Nat.add_0_r.
  - specialize (Hb 0%nat) as H0. rewrite Nat.add_0_r in H0. rewrite H0 by lia.
    rewrite (IH (S t) n); [f_equal; lia|lia| |].
    + intros i Hi. replace (S t + i)%nat with (t + S i)%nat by lia. apply Hb. lia.
    + replace (S t + n)%nat with (t + S n)%nat by lia. done.
Qed.

Lemma bcd_roundtrip x : 0 <= x < 100 -> bcd_to_bin (bcd x) = x.
Proof.
  intros Hx. apply Z.eqb_eq.
  apply (all_below_spec 100 (fun x => bcd_to_bin (bcd x) =? x)); [vm_compute; reflexivity|lia].
Qed.
Lemma decode_num (binary : bool) x : 0 <= x < 100 -> (if binary then encode_num binary x else bcd_to_bin (encode_num binary x)) = x.
Proof. intros. destruct binary; [done|]. by apply bcd_roundtrip. Qed.

(** The hour [decode] computes from the hour register. *)
Definition seen_hour (binary hour24 : bool) (h : Z) : Z := if binary || hour24 then h else h mod 12.
Lemma decode_encode_hour binary hour24 h :
  0 <= h < 24 -> decode_hour binary hour24 (encode_hour binary hour24 h) = seen_hour binary hour24 h.
Proof.
  intros Hh. apply Z.eqb_eq.
  apply (all_below_spec 24 (fun h =>
    decode_hour binary hour24 (encode_hour binary hour24 h) =? seen_hour binary hour24 h)); [|lia].
  destruct binary, hour24; vm_compute; reflexivity.
Qed.
End clock.

(** Reading the clock returns the time it shows.  When the update flag
    clears within the fuel and the clock then shows [d] in one of its four modes
    for the eight register reads that follow, [now] returns [d] exactly, for
    every date from 1900 to 2099, except in BCD 12-hour mode: there the PM bit is
    dropped, and every afternoon hour comes back as the morning hour twelve
    hours earlier. *)
Theorem now_reads_clock cmos binary hour24 d fuel t n :
  valid d -> (n < fuel)%nat ->
  (forall i, (i < n)%nat -> is_set (cmos (t + i)%nat (Z.lor REG_STATUS_A 0x80)) STATUS_A_UIP = true) ->
  is_set (cmos (t + n)%nat (Z.lor REG_STATUS_A 0x80)) STATUS_A_UIP = false ->
  (forall i, (n < i <= n + 8)%nat -> shows cmos binary hour24 d (t + i)) ->
  now cmos fuel t =
    Ret (Some (MkDateTime (year d) (month d) (day d)
                 (if binary || hour24 then hour d else hour d mod 12) (minute d) (second d)))
        (t + n + 9)%nat.
Proof.
  intros (Hy & Hm & Hd & Hh & Hmi & Hs) Hn Hb He Hr.
  unfold now, mbind, st_bind. rewrite (wait_update_ends cmos fuel t n) by done. unfold read_cmos.
  assert (forall k, (1 <= k <= 8)%nat -> shows cmos binary hour24 d (k + (t + n))) as Hk.
  { intros k ?. replace (k + (t + n))%nat with (t + (n + k))%nat by lia. apply Hr. lia. }
  pose proof (Hk 1%nat ltac:(lia)) as (E1 & _). pose proof (Hk 2%nat ltac:(lia)) as (_ & E2 & _).
  pose proof (Hk 3%nat ltac:(lia)) as (_ & _ & E3 & _). pose proof (Hk 4%nat ltac:(lia)) as (_ & _ & _ & E4 & _).
  pose proof (Hk 5%nat ltac:(lia)) as (_ & _ & _ & _ & E5 & _).
  pose proof (Hk 6%nat ltac:(lia)) as (_ & _ & _ & _ & _ & E6 & _).
  pose proof (Hk 7%nat ltac:(lia)) as (_ & _ & _ & _ & _ & _ & E7 & _).
  pose proof (Hk 8%nat ltac:(lia)) as (_ & _ & _ & _ & _ & _ & _ & E8).
  cbn [Nat.add] in *. rewrite E1, E2, E3, E4, E5, E6, E7, E8. clear -Hy Hm Hd Hh Hmi Hs.
  unfold mret, st_ret. f_equal; [|lia]. f_equal. unfold decode.
  assert (is_set (status binary hour24) STATUS_B_BINARY = binary) as -> by (by destruct binary, hour24).
  assert (is_set (status binary hour24) STATUS_B_24H = hour24) as -> by (by destruct binary, hour24).
  rewrite !decode_num by zlia. rewrite decode_encode_hour by done. unfold seen_hour. f_equal.
  assert ((19 <=? year d / 100) && (year d / 100 <=? 20) = true) as -> by zlia.
  rewrite (wrap_small 16 (_ * _)) by (unfold in_u; change (2 ^ 16) with 65536; zlia).
  rewrite wrap_small by (unfold in_u; change (2 ^ 16) with 65536; zlia). zlia.
Qed.

(** ** Witness: a BCD 12-hour clock at a quarter to six in the afternoon. *)
Definition sample_time : DateTime := MkDateTime 2024 11 30 17 45 9.
Definition sample_clock (t : nat) (i : Z) : Z :=
  if decide (t = 0)%nat then 0x80 else
  match i with
  | 0x8A => 0 | 0x8B => 0 | 0x80 => 0x09 | 0x82 => 0x45 | 0x84 => 0x85
  | 0x87 => 0x30 | 0x88 => 0x11 | 0x89 => 0x24 | 0xB2 => 0x20 | _ => 0
  end.
Lemma now_reads_clock_witness :
  now sample_clock 5 0%nat = Ret (Some (MkDateTime 2024 11 30 5 45 9)) 10%nat.
Proof.
  apply (now_reads_clock sample_clock false false sample_time 5 0 1).
  - unfold valid; simpl. lia.
  - lia.
  - intros i Hi. assert (i = 0%nat) as -> by lia. reflexivity.
  - reflexivity.
  - intros i Hi. unfold shows. assert (0 + i <> 0)%nat as Hne by lia.
    unfold sample_clock. rewrite !(decide_False _ _ Hne). repeat split; reflexivity.
Defined.
