(* ===== verification/Calculator.v ===== *)
(** * The calculator, [calculator.rs]

    The application keeps the number being entered as text.  The abstract
    calculator below keeps it as an integer; the refinement theorem says the
    text never loses anything, and that the division, which traps on overflow
    even in release builds, never does. *)
From S2P Require Import Prelude Text.

Definition BUTTON_SIZE : Z := 60.
Definition DISPLAY_HEIGHT : Z := 60.
Definition BUTTONS : list (string * Z * Z) :=
  [("7"%string, 0, 0); ("8"%string, 1, 0); ("9"%string, 2, 0); ("/"%string, 3, 0);
   ("4"%string, 0, 1); ("5"%string, 1, 1); ("6"%string, 2, 1); ("*"%string, 3, 1);
   ("1"%string, 0, 2); ("2"%string, 1, 2); ("3"%string, 2, 2); ("-"%string, 3, 2);
   ("0"%string, 0, 3); ("C"%string, 1, 3); ("="%string, 2, 3); ("+"%string, 3, 3)].
Definition MAX_DIGITS : Z := 18.

(** Without the pixel buffer, which only [render] uses. *)
Record CalculatorApp := MkApp {
  display : str; accumulator : Z; pending_op : option Z; fresh_entry : bool; error : bool }.
Definition new : CalculatorApp := MkApp (bytes_of "0") 0 None false false.

(** [/] on [i64]: truncation, and a panic on overflow or a zero divisor. *)
Definition checked_quot (a b : Z) : ST CalculatorApp Z :=
  if (b =? 0) || ((a =? - 2 ^ 63) && (b =? -1)) then panic else mret (Z.quot a b).

Definition set_acc (a : Z) : ST CalculatorApp unit :=
  modify (fun s => MkApp (display s) a (pending_op s) (fresh_entry s) (error s)).
(** [self.display = self.accumulator.to_string()] *)
Definition show_acc : ST CalculatorApp unit :=
  modify (fun s => MkApp (int_to_string (accumulator s)) (accumulator s) (pending_op s) (fresh_entry s) (error s)).
Definition set_op (op : option Z) : ST CalculatorApp unit :=
  modify (fun s => MkApp (display s) (accumulator s) op true (error s)).

Definition apply_pending : ST CalculatorApp unit :=
  s ← get_st;
  let operand := default 0 (parse_int 64 (display s)) in
  match pending_op s with
  | None => set_acc operand;; show_acc
  | Some op =>
      if op =? 43 then set_acc (i64 (accumulator s + operand));; show_acc
      else if op =? 45 then set_acc (i64 (accumulator s - operand));; show_acc
      else if op =? 42 then set_acc (i64 (accumulator s * operand));; show_acc
      else if op =? 47 then
        if operand =? 0 then
          modify (fun s => MkApp (bytes_of "Error") (accumulator s) (pending_op s) (fresh_entry s) true)
        else q ← checked_quot (accumulator s) operand; set_acc q;; show_acc
      else show_acc
  end.

Definition is_digit_label (label : string) : bool :=
  match label with String c EmptyString => is_ascii_digit (Z.of_N (Ascii.N_of_ascii c)) | _ => false end.
Definition is_op_label (label : string) : bool :=
  bool_decide (label = "+"%string) || bool_decide (label = "-"%string) ||
  bool_decide (label = "*"%string) || bool_decide (label = "/"%string).

Definition press (label : string) : ST CalculatorApp unit :=
  if is_digit_label label then
    modify (fun s =>
      let s := if error s || fresh_entry s || bool_decide (display s = bytes_of "0")
               then MkApp [] (accumulator s) (pending_op s) false false else s in
      if Z.of_nat (length (as_bytes (display s))) <? MAX_DIGITS
      then MkApp (display s ++ bytes_of label) (accumulator s) (pending_op s) (fresh_entry s) (error s) else s)
  else if bool_decide (label = "C"%string) then
    modify (fun _ => new)
  else if is_op_label label then
    s ← get_st;
    if error s then mret tt
    else apply_pending;; set_op (head (bytes_of label))
  else if bool_decide (label = "="%string) then
    s ← get_st;
    if error s then mret tt
    else apply_pending;; set_op None
  else mret tt.

(** [x] and [y] are [i32] coordinates in the window. *)
Definition handle_click (x y : Z) : ST CalculatorApp unit :=
  if (x <? 0) || (y <? 0) || (y <? DISPLAY_HEIGHT) then mret tt else
  let col := x / BUTTON_SIZE in
  let row := (y - DISPLAY_HEIGHT) / BUTTON_SIZE in
  match find (fun b => (b.1.2 =? col) && (b.2 =? row)) BUTTONS with
  | Some b => press b.1.1
  | None => mret tt
  end.

(** ** The abstract calculator

    Immediate execution on 64-bit integers: [shown] is the number on the
    display, entry stops at eighteen digits, an operator or [=] applies the
    pending one, and a division by zero locks the operators until the next digit
    or C. *)
Inductive key := Digit (d : Z) | Op (op : Z) | Equals | Clear.
Record calc := MkCalc { shown : Z; acc : Z; op : option Z; fresh : bool; err : bool }.
Definition start : calc := MkCalc 0 0 None false false.
(** The pending operator applied to the number shown; [None] divides by zero. *)
Definition result (c : calc) : option Z :=
  match op c with
  | None => Some (shown c)
  | Some 43 => Some (i64 (acc c + shown c))
  | Some 45 => Some (i64 (acc c - shown c))
  | Some 42 => Some (i64 (acc c * shown c))
  | Some 47 => if shown c =? 0 then None else Some (Z.quot (acc c) (shown c))
  | Some _ => Some (acc c)
  end.
Definition finish (c : calc) (o : option Z) : calc :=
  if err c then c else
  match result c with
  | Some v => MkCalc v v o true false
  | None => MkCalc (shown c) (acc c) o true true
  end.
Definition enter (c : calc) (k : key) : calc :=
  match k with
  | Digit d =>
      if err c || fresh c || (shown c =? 0) then MkCalc d (acc c) (op c) false false
      else if shown c <? 10 ^ 17 then MkCalc (shown c * 10 + d) (acc c) (op c) false false else c
  | Op o => finish c (Some o)
  | Equals => finish c None
  | Clear => start
  end.

Definition label_of (k : key) : string :=
  match k with
  | Digit d => String (Ascii.ascii_of_N (Z.to_N (48 + d))) EmptyString
  | Op o => String (Ascii.ascii_of_N (Z.to_N o)) EmptyString
  | Equals => "="%string
  | Clear => "C"%string
  end.
Definition key_ok (k : key) : Prop :=
  match k with
  | Digit d => 0 <= d < 10
  | Op o => o = 43 \/ o = 45 \/ o = 42 \/ o = 47
  | _ => True
  end.
Fixpoint press_all (ks : list key) : ST CalculatorApp unit :=
  match ks with [] => mret tt | k :: ks => press (label_of k);; press_all ks end.

(** What the display says of the abstract state. *)
Definition display_of (c : calc) : str := if err c then bytes_of "Error" else int_to_string (shown c).

(** The representation, with the reason no division overflows: a number that
    was not just computed was typed, so it is not negative. *)
Definition represents (c : calc) (a : CalculatorApp) : Prop :=
  a = MkApp (display_of c) (acc c) (op c) (fresh c) (err c) /\
  - 2 ^ 63 <= acc c < 2 ^ 63 /\
  (shown c = acc c \/ 0 <= shown c < 10 ^ 18) /\
  (err c = false -> fresh c = false -> 0 <= shown c < 10 ^ 18) /\
  (op c = None \/ exists o, op c = Some o /\ (o = 43 \/ o = 45 \/ o = 42 \/ o = 47)).

Lemma i64_bound x : - 2 ^ 63 <= i64 x < 2 ^ 63.
Proof. unfold swrap. pose proof (wrap_bound 64 x ltac:(lia)) as [? ?]. case_match; to_prop; lia. Qed.
Lemma shown_bound c a : represents c a -> - 2 ^ 63 <= shown c < 2 ^ 63.
Proof. intros (_ & ? & H & _). change (10 ^ 18) with 1000000000000000000 in H. lia. Qed.

(** What [apply_pending] leaves, given the abstract result. *)
Lemma apply_pending_spec c a :
  represents c a -> err c = false ->
  apply_pending a = match result c with
    | Some v => Ret tt (MkApp (int_to_string v) v (op c) (fresh c) false)
    | None => Ret tt (MkApp (bytes_of "Error") (acc c) (op c) (fresh c) true)
    end /\ (forall v, result c = Some v -> - 2 ^ 63 <= v < 2 ^ 63).
Proof.
  intros Hr He. pose proof (shown_bound c a Hr) as Hb. destruct Hr as (-> & Ha & Hs & _ & Ho).
  unfold apply_pending, get_st, mbind, st_bind. cbn [display accumulator pending_op fresh_entry error].
  unfold display_of. rewrite He. rewrite parse_int_to_string by (change (64 - 1) with 63; lia).
  cbn [from_option id]. unfold id, result. destruct Ho as [->|(o & -> & [-> | [-> | [-> | ->]]])];
    cbn [Z.eqb Pos.eqb]; try (split; [reflexivity|]).
  - intros v [= <-]. lia.
  - intros v [= <-]. apply i64_bound.
  - intros v [= <-]. apply i64_bound.
  - intros v [= <-]. apply i64_bound.
  - destruct (Z.eqb_spec (shown c) 0) as [E|E]; [rewrite E; split; [reflexivity|done]|].
    assert ((shown c =? 0) || (acc c =? - 2 ^ 63) && (shown c =? -1) = false) as Hq.
    { change (10 ^ 18) with 1000000000000000000 in Hs. lia. }
    unfold checked_quot. cbn [accumulator]. rewrite Hq. split; [reflexivity|].
    intros v [= <-]. assert (Z.abs (acc c ÷ shown c) <= Z.abs (acc c)).
    { rewrite <- Z.quot_abs by done. apply Z.quot_le_upper_bound; nia. }
    destruct (decide (acc c ÷ shown c = 2 ^ 63)) as [Eq|]; [|lia].
    exfalso. assert (shown c = -1 \/ shown c <> -1) as [E1|E1] by lia.
    + change (10 ^ 18) with 1000000000000000000 in Hs. rewrite E1 in *. lia.
    + assert (shown c = 1 \/ 2 <= Z.abs (shown c)) as [E2|E2] by lia.
      * rewrite E2, Z.quot_1_r in Eq. lia.
      * assert (Z.abs (acc c ÷ shown c) < 2 ^ 63); [|lia].
        rewrite <- Z.quot_abs by done. apply Z.quot_lt_upper_bound; lia.
Qed.

Lemma as_bytes_digits s : Forall (fun c => is_ascii_digit c = true) s -> as_bytes s = s.
Proof.
  induction 1 as [|c s Hc _ IH]; [done|]. unfold as_bytes in *. cbn [mbind list_bind]. rewrite IH.
  unfold encode_char, is_ascii_digit in *. by rewrite (proj2 (Z.ltb_lt c _)) by lia.
Qed.
Lemma display_zero v :
  - 2 ^ 63 <= v < 2 ^ 63 -> bool_decide (int_to_string v = bytes_of "0") = (v =? 0).
Proof.
  intros Hv. change (bytes_of "0") with (int_to_string 0). destruct (Z.eqb_spec v 0) as [->|Hne].
  { by apply bool_decide_eq_true. }
  apply bool_decide_eq_false. intros E. apply Hne.
  assert (Some v = Some 0) as [= ->]; [|done].
  rewrite <- (parse_int_to_string 64 v), E by (change (64 - 1) with 63; lia). reflexivity.
Qed.
Lemma digit_cases (P : Z -> Prop) :
  P 0 -> P 1 -> P 2 -> P 3 -> P 4 -> P 5 -> P 6 -> P 7 -> P 8 -> P 9 -> forall d, 0 <= d < 10 -> P d.
Proof.
  intros. assert (d = 0 \/ d = 1 \/ d = 2 \/ d = 3 \/ d = 4 \/ d = 5 \/ d = 6 \/ d = 7 \/ d = 8 \/ d = 9)
    as Hd by lia. by repeat destruct Hd as [-> |Hd]; subst.
Qed.
Lemma digit_label d : 0 <= d < 10 ->
  is_digit_label (label_of (Digit d)) = true /\ bytes_of (label_of (Digit d)) = [digit_char d].
Proof. revert d. apply digit_cases; split; vm_compute; reflexivity. Qed.
Lemma show_digit d : 0 <= d < 10 -> int_to_string d = [digit_char d].
Proof. revert d. apply digit_cases; vm_compute; reflexivity. Qed.

Lemma press_digit c a d :
  represents c a -> 0 <= d < 10 ->
  exists a', press (label_of (Digit d)) a = Ret tt a' /\ represents (enter c (Digit d)) a'.
Proof.
  intros Hr Hd. pose proof (shown_bound c a Hr) as Hb. destruct (digit_label d Hd) as [E1 E2].
  destruct Hr as (-> & Ha & Hs & Ht & Ho). unfold press. rewrite E1, E2.
  unfold modify. cbn [error fresh_entry display accumulator pending_op enter]. unfold display_of.
  assert (represents (MkCalc d (acc c) (op c) false false)
            (MkApp [digit_char d] (acc c) (op c) false false)) as Hfresh.
  { unfold represents, display_of. cbn [err shown acc op fresh]. rewrite show_digit by done.
    change (10 ^ 18) with 1000000000000000000. split; [done|]. repeat (split; [lia|]). done. }
  destruct (err c) eqn:Ee; cbn [orb]; [eexists; split; [reflexivity|exact Hfresh]|].
  destruct (fresh c) eqn:Ef; cbn [orb]; [eexists; split; [reflexivity|exact Hfresh]|].
  rewrite display_zero by lia. destruct (Z.eqb_spec (shown c) 0) as [E0|E0];
    [eexists; split; [reflexivity|exact Hfresh]|].
  cbn [display]. specialize (Ht eq_refl eq_refl).
  assert (int_to_string (shown c) = uint_to_string (shown c)) as Eu.
  { unfold int_to_string. by rewrite (proj2 (Z.ltb_ge _ _)) by lia. }
  rewrite Eu, as_bytes_digits by apply uint_to_string_digits.
  pose proof (length_uint_to_string (shown c) 17) as Hl. change (10 ^ 40) with (10 ^ 22 * 10 ^ 18) in Hl.
  change (10 ^ 18) with 1000000000000000000 in *. specialize (Hl ltac:(lia) ltac:(lia)).
  unfold MAX_DIGITS. destruct (Z.ltb_spec (shown c) (10 ^ 17)) as [Hlt|Hge].
  - rewrite (proj2 (Z.ltb_lt _ _)) by lia. eexists; split; [reflexivity|].
    change (10 ^ 17) with 100000000000000000 in Hlt.
    unfold represents, display_of. cbn [err shown acc op fresh display].
    unfold int_to_string. rewrite (proj2 (Z.ltb_ge _ _)), uint_to_string_snoc by lia.
    change (10 ^ 18) with 1000000000000000000. split; [done|]. repeat (split; [lia|]). done.
  - rewrite (proj2 (Z.ltb_ge _ _)) by lia. eexists; split; [reflexivity|].
    unfold represents, display_of. rewrite Ee, Ef, Eu. change (10 ^ 18) with 1000000000000000000. done.
Qed.

Lemma op_label o : o = 43 \/ o = 45 \/ o = 42 \/ o = 47 ->
  is_digit_label (label_of (Op o)) = false /\ bool_decide (label_of (Op o) = "C"%string) = false /\
  is_op_label (label_of (Op o)) = true /\ head (bytes_of (label_of (Op o))) = Some o.
Proof. intros [-> | [-> | [-> | ->]]]; repeat split; vm_compute; reflexivity. Qed.
Lemma press_finish c a o label :
  represents c a -> label = Op o /\ (o = 43 \/ o = 45 \/ o = 42 \/ o = 47) \/ label = Equals ->
  exists a', press (label_of label) a = Ret tt a' /\ represents (enter c label) a'.
Proof.
  intros Hr Hl.
  assert (exists oo, press (label_of label) a = (if err c then Ret tt a else (apply_pending;; set_op oo) a) /\
    enter c label = finish c oo /\
    (oo = None \/ exists o, oo = Some o /\ (o = 43 \/ o = 45 \/ o = 42 \/ o = 47))) as (oo & E1 & E2 & Hoo).
  { assert (error a = err c) as Herr by (by destruct Hr as [-> _]).
    rewrite <- Herr. destruct Hl as [[-> Ho]| ->].
    - exists (Some o). split; [|split; [done|by right; exists o]].
      destruct (op_label o Ho) as (F1 & F2 & F3 & F4). unfold press. rewrite F1, F2, F3, F4.
      unfold mbind at 1, st_bind at 1, get_st. by destruct (error a).
    - exists None. split; [|split; [done|by left]].
      assert (press (label_of Equals) a = (if error a then mret tt else apply_pending;; set_op None) a)
        as -> by reflexivity. by destruct (error a). }
  rewrite E1, E2. unfold finish. destruct (err c) eqn:Ee; [by exists a|].
  destruct (apply_pending_spec c a Hr Ee) as [Ep Hv]. unfold mbind, st_bind. rewrite Ep.
  destruct Hr as (-> & Ha & Hs & Ht & Ho).
  destruct (result c) as [v|] eqn:Ev; (eexists; split; [reflexivity|]);
    unfold represents, display_of; cbn [err shown acc op fresh display accumulator error].
  - specialize (Hv v eq_refl). split; [done|]. split; [done|]. split; [by left|]. done.
  - done.
Qed.
Lemma press_spec c a k :
  represents c a -> key_ok k ->
  exists a', press (label_of k) a = Ret tt a' /\ represents (enter c k) a'.
Proof.
  intros Hr Hk. destruct k as [d|o| |].
  - by apply press_digit.
  - apply (press_finish c a o); [done|]. by left.
  - apply (press_finish c a 0); [done|]. by right.
  - exists new. split; [done|]. unfold represents. cbn. split; [done|]. split; [lia|]. split; [by left|].
    split; [lia|by left].
Qed.

(** Whatever keys are pressed, the calculator never panics and shows what
    the abstract calculator shows: its decimal text always denotes the number
    entered or the 64-bit wrapped result, entries are limited to eighteen
    digits, and the trapping division is never reached with a zero divisor or
    with an overflowing quotient. *)
Theorem presses_refine (ks : list key) :
  Forall key_ok ks ->
  exists a, press_all ks new = Ret tt a /\ display a = display_of (foldl enter start ks) /\
            error a = err (foldl enter start ks).
Proof.
  intros Hks. cut (forall c a, represents c a ->
    exists a', press_all ks a = Ret tt a' /\ represents (foldl enter c ks) a').
  { intros H. destruct (H start new) as (a & E & -> & _); [|by exists (MkApp
      (display_of (foldl enter start ks)) (acc (foldl enter start ks)) (op (foldl enter start ks))
      (fresh (foldl enter start ks)) (err (foldl enter start ks)))].
    unfold represents. cbn. split; [done|]. split; [lia|]. split; [by left|]. split; [lia|by left]. }
  induction Hks as [|k ks Hk _ IH]; intros c a Hr; [by exists a|].
  cbn [press_all foldl]. unfold mbind, st_bind.
  destruct (press_spec c a k Hr Hk) as (a1 & -> & Hr1). by apply IH.
Qed.

(** Witness: 12 / 0 = shows Error, 7 recovers, and * 6 = shows 42. *)
Definition sample_keys : list key :=
  [Digit 1; Digit 2; Op 47; Digit 0; Equals; Digit 7; Op 42; Clear; Digit 7; Op 42; Digit 6; Equals].
Lemma presses_refine_witness :
  exists a, press_all sample_keys new = Ret tt a /\ display a = bytes_of "42" /\ error a = false.
Proof.
  destruct (presses_refine sample_keys) as (a & E & Hd & He).
  - repeat apply Forall_cons_2; [..|apply Forall_nil_2]; simpl; lia.
  - exists a. split; [exact E|]. split; [rewrite Hd|rewrite He]; vm_compute; reflexivity.
Defined.
