(* ===== verification/Disk.v ===== *)
(** * Block devices

    What the file system relies on of [AtaDevice::read_sectors] and
    [write_sectors] (src/ata.rs) with a count of one: the hardware behind the
    ports is outside the program, so the device is an interface.  [RamDisk] is
    an instance, a list of sectors. *)
From S2P Require Import Prelude Bytes.

Definition SECTOR : nat := 512.
Abbreviation sector_ok bs := (byte_list bs /\ length bs = SECTOR).

Class BlockDevice (D : Type) := {
  (** A failed write may have changed the device. *)
  read_sector : D -> Z -> result string (list Z);
  write_sector : D -> Z -> list Z -> result string unit * D;
  (** The number of sectors; every transfer inside it succeeds. *)
  capacity : D -> Z;
  read_sector_ok : forall d lba, 0 <= lba < capacity d ->
    exists bs, read_sector d lba = Ok bs /\ sector_ok bs;
  read_sector_shape : forall d lba bs, read_sector d lba = Ok bs -> sector_ok bs;
  write_sector_ok : forall d lba bs, 0 <= lba < capacity d -> sector_ok bs ->
    exists d', write_sector d lba bs = (Ok tt, d') /\ capacity d' = capacity d /\
      read_sector d' lba = Ok bs /\
      (forall l, l <> lba -> read_sector d' l = read_sector d l)
}.

(** ** The interface has an instance *)
Record RamDisk := MkRamDisk { sectors : list (list Z) }.
Definition ram_read (d : RamDisk) (lba : Z) : result string (list Z) :=
  match (if 0 <=? lba then sectors d !! Z.to_nat lba else None) with
  | Some bs =>
      if forallb (fun b => (0 <=? b) && (b <? 256)) bs && bool_decide (length bs = SECTOR)
      then Ok bs else Ok (replicate SECTOR 0)
  | None => Err "no such sector"%string
  end.
Definition ram_write (d : RamDisk) (lba : Z) (bs : list Z) : result string unit * RamDisk :=
  if (0 <=? lba) && (lba <? Z.of_nat (length (sectors d)))
  then (Ok tt, MkRamDisk (<[Z.to_nat lba := bs]> (sectors d))) else (Err "no such sector"%string, d).

Lemma forallb_bytes bs : forallb (fun b => (0 <=? b) && (b <? 256)) bs = true <-> byte_list bs.
Proof.
  rewrite forallb_forall, Forall_forall. unfold in_u. change (2 ^ 8) with 256.
  split; intros H b Hb; [apply list_elem_of_In in Hb; specialize (H b Hb); cbv beta in H; to_prop; lia|].
  apply list_elem_of_In in Hb. specialize (H b Hb). lia.
Qed.
Lemma zero_sector_ok : sector_ok (replicate SECTOR 0).
Proof. split; [|apply length_replicate]. apply Forall_replicate. unfold in_u. lia. Qed.

#[refine] Global Instance ram_disk : BlockDevice RamDisk := {
  read_sector := ram_read; write_sector := ram_write; capacity d := Z.of_nat (length (sectors d))
}.
Proof.
  - intros d lba Hl. unfold ram_read. rewrite (proj2 (Z.leb_le 0 lba)) by lia.
    destruct (lookup_lt_is_Some_2 (sectors d) (Z.to_nat lba)) as [bs Hbs]; [lia|]. rewrite Hbs.
    destruct (forallb _ bs && bool_decide (length bs = SECTOR)) eqn:E; [exists bs|eexists; split; [done|apply zero_sector_ok]].
    to_prop. split; [done|]. split; [by apply forallb_bytes|done].
  - intros d lba bs H. unfold ram_read in H. case_match eqn:Ex; [|done]. clear Ex. rename l into x.
    destruct (forallb _ x && bool_decide (length x = SECTOR)) eqn:E; simplify_eq; [|apply zero_sector_ok].
    to_prop. split; [by apply forallb_bytes|done].
  - intros d lba bs Hl [Hb Hlen]. unfold ram_write. cbn [sectors].
    rewrite (proj2 (Z.leb_le 0 lba)), (proj2 (Z.ltb_lt lba _)) by lia. eexists. split; [reflexivity|]. cbn [sectors].
    rewrite length_insert. split; [done|]. split.
    + unfold ram_read. cbn [sectors]. rewrite (proj2 (Z.leb_le 0 lba)) by lia.
      rewrite list_lookup_insert_eq by lia.
      by rewrite (proj2 (forallb_bytes bs) Hb), bool_decide_true by done.
    + intros l Hne. unfold ram_read. cbn [sectors]. destruct (Z.leb_spec 0 l); [|done].
      by rewrite list_lookup_insert_ne by lia.
Defined.
