(* ===== verification/Ata.v ===== *)
(** * The disk driver, [ata.rs]

    Polled transfers over the ports of an IDE controller.  The hardware is an
    interface: [Controller] gives the port instructions, [Drive] what the drive
    behind them promises.  The driver over any drive that keeps its promises is
    the block device the file system is proved over. *)
From S2P Require Import Prelude Bytes Text Disk.

Definition PRIMARY_BASE : Z := 0x1F0.
Definition SECONDARY_BASE : Z := 0x170.
Definition REG_DATA : Z := 0.
Definition REG_SECTOR_COUNT : Z := 2.
Definition REG_LBA_LO : Z := 3.
Definition REG_LBA_MID : Z := 4.
Definition REG_LBA_HI : Z := 5.
Definition REG_DRIVE : Z := 6.
Definition REG_STATUS : Z := 7.
Definition STATUS_BSY : Z := 0x80.
Definition STATUS_DRQ : Z := 0x08.
Definition STATUS_ERR : Z := 0x01.
Definition CMD_IDENTIFY : Z := 0xEC.
Definition CMD_READ : Z := 0x20.
Definition CMD_WRITE : Z := 0x30.
Definition BUSY_WAIT_ITERATIONS : positive := 100000000.

Record AtaDevice := mk_device {
  base : Z; master : bool; present : bool; atapi : bool; lba48 : bool; sectors : Z; model : list Z }.

(** The port instructions. *)
Class Controller (P : Type) := {
  inb : Z -> ST P Z; inw : Z -> ST P Z; outb : Z -> Z -> ST P unit; outw : Z -> Z -> ST P unit }.

(** [for _ in 0..n { body }] with a body that may return: [n] times, unless an
    iteration has a result. *)
Section repeat.
Context {S R : Type} (body : ST S (option R)).
Fixpoint repeat_pos (n : positive) : ST S (option R) :=
  match n with
  | xH => body
  | xO n => r ← repeat_pos n; match r with Some _ => mret r | None => repeat_pos n end
  | xI n =>
      r ← body;
      match r with
      | Some _ => mret r
      | None => r ← repeat_pos n; match r with Some _ => mret r | None => repeat_pos n end
      end
  end.
End repeat.

Section driver.
Context {P : Type} `{Controller P}.
Abbreviation IO := (STR P string).

(** ** Waiting *)
Definition poll {R} (base : Z) (decide_on : Z -> option R) : ST P (option R) :=
  status ← inb (base + REG_STATUS); mret (decide_on status).
Definition busy (status : Z) : bool := is_set status STATUS_BSY.
(** A loop that ends in an error when every iteration passed. *)
Definition wait_for (base : Z) (decide_on : Z -> option (result string unit)) (timeout : string) : IO unit := fun p =>
  match repeat_pos (poll base decide_on) BUSY_WAIT_ITERATIONS p with
  | Ret (Some r) p => Ret r p
  | Ret None p => Ret (Err timeout) p
  | Panic => Panic
  end.
Definition wait_bsy_clear (base : Z) : IO unit :=
  wait_for base (fun status => if busy status then None else Some (Ok tt)) "ATA: BSY never cleared".
Definition drq_ready (status : Z) : option (result string unit) :=
  if busy status then None
  else if is_set status STATUS_ERR then Some (Err "ATA: drive error"%string)
  else if is_set status STATUS_DRQ then Some (Ok tt)
  else None.
Definition wait_drq (base : Z) : IO unit := wait_for base drq_ready "ATA: DRQ never set".
Definition idle_ready (status : Z) : option (result string unit) :=
  if busy status then None
  else if is_set status STATUS_ERR then Some (Err "ATA: write error"%string)
  else Some (Ok tt).
Definition wait_idle (base : Z) : IO unit := wait_for base idle_ready "ATA: write never completed".

(** ** Transfers *)
Definition drive_select (d : AtaDevice) (lba : Z) : Z :=
  Z.lor (Z.lor 0xE0 (if master d then 0 else 0x10)) (Z.land (u8 (Z.shiftr lba 24)) 0x0F).
(** The six register writes that start a transfer. *)
Definition command (d : AtaDevice) (lba count cmd : Z) : ST P unit :=
  outb (base d + REG_DRIVE) (drive_select d lba);;
  outb (base d + REG_SECTOR_COUNT) (u8 count);;
  outb (base d + REG_LBA_LO) (u8 lba);;
  outb (base d + REG_LBA_MID) (u8 (Z.shiftr lba 8));;
  outb (base d + REG_LBA_HI) (u8 (Z.shiftr lba 16));;
  outb (base d + REG_STATUS) cmd.
(** Words of the data port, as the bytes of the buffer. *)
Fixpoint in_words (port : Z) (n : nat) : ST P (list Z) :=
  match n with
  | O => mret []
  | S n => w ← inw port; ws ← in_words port n; mret (le_split 2 w ++ ws)
  end.
Fixpoint out_words (port : Z) (n : nat) (bs : list Z) : ST P unit :=
  match n with
  | O => mret tt
  | S n => outw port (le_combine (take 2 bs));; out_words port n (drop 2 bs)
  end.
(** What a request is checked for; [len] is the buffer's length. *)
Definition check (d : AtaDevice) (lba : Z) (count len : nat) (invalid : string) : result string unit :=
  if negb (present d) || atapi d then Err "no ATA block device"%string
  else if bool_decide (count = 0 \/ 256 < count \/ len < count * 512)%nat then Err invalid
  else if Z.shiftl 1 28 <=? lba then Err "LBA28 range exceeded"%string
  else Ok tt.
Fixpoint read_each (d : AtaDevice) (count : nat) : IO (list Z) :=
  match count with
  | O => mret []
  | S count =>
      wait_drq (base d);;
      bs ← lift_st (in_words (base d + REG_DATA) 256);
      rest ← read_each d count;
      mret (bs ++ rest)
  end.
(** The bytes read; the caller's buffer is [len] bytes long. *)
Definition read_sectors (d : AtaDevice) (lba : Z) (count len : nat) : IO (list Z) :=
  lift_res (check d lba count len "invalid read request");;
  lift_st (command d lba (Z.of_nat count) CMD_READ);;
  read_each d count.
Fixpoint write_each (d : AtaDevice) (count : nat) (buf : list Z) : IO unit :=
  match count with
  | O => mret tt
  | S count =>
      wait_drq (base d);;
      lift_st (out_words (base d + REG_DATA) 256 buf);;
      wait_idle (base d);;
      write_each d count (drop 512 buf)
  end.
Definition write_sectors (d : AtaDevice) (lba : Z) (count : nat) (buf : list Z) : IO unit :=
  lift_res (check d lba count (length buf) "invalid write request");;
  lift_st (command d lba (Z.of_nat count) CMD_WRITE);;
  write_each d count buf.

(** ** Detection *)
Definition absent (base : Z) (master : bool) : AtaDevice := mk_device base master false false false 0 (replicate 40 0).
Fixpoint read_words (port : Z) (n : nat) : ST P (list Z) :=
  match n with O => mret [] | S n => w ← inw port; ws ← read_words port n; mret (w :: ws) end.
(** The result of the identify block. *)
Definition identified (base : Z) (master : bool) (words : list Z) : option AtaDevice :=
  if bool_decide (words !!! 0%nat = 0x0000 \/ words !!! 0%nat = 0x0040 \/ words !!! 0%nat = 0x0400) then
    Some (mk_device base master true false (is_set (words !!! 83%nat) (Z.shiftl 1 10))
            (Z.lor (Z.shiftl (words !!! 61%nat) 16) (words !!! 60%nat))
            (take 20 (drop 27 words) ≫= fun w => [Z.shiftr w 8; Z.land w 0xFF]))
  else None.
Definition identify (base : Z) (master : bool) : ST P (option AtaDevice) :=
  outb (base + REG_DRIVE) (if master then 0xA0 else 0xB0);;
  outb (base + REG_SECTOR_COUNT) 0;;
  outb (base + REG_LBA_LO) 0;;
  outb (base + REG_LBA_MID) 0;;
  outb (base + REG_LBA_HI) 0;;
  outb (base + REG_STATUS) CMD_IDENTIFY;;
  status ← inb (base + REG_STATUS);
  if status =? 0 then mret None else
  r ← wait_bsy_clear base;
  match r with
  | Err _ => mret None
  | Ok _ =>
      status ← inb (base + REG_STATUS);
      if is_set status STATUS_ERR then
        mid ← inb (base + REG_LBA_MID);
        hi ← inb (base + REG_LBA_HI);
        mret (if (mid =? 0x14) && (hi =? 0xEB) then Some (mk_device base master true true false 0 (replicate 40 0)) else None)
      else
        r ← wait_drq base;
        match r with
        | Err _ => mret None
        | Ok _ => words ← read_words (base + REG_DATA) 256; mret (identified base master words)
        end
  end.
(** [init]: the devices found. *)
Fixpoint probe (slots : list (Z * bool)) : ST P (list AtaDevice) :=
  match slots with
  | [] => mret []
  | (base, master) :: slots => r ← identify base master; ds ← probe slots; mret (option_list r ++ ds)
  end.
Definition init : ST P (list AtaDevice) :=
  probe [(PRIMARY_BASE, true); (PRIMARY_BASE, false); (SECONDARY_BASE, true); (SECONDARY_BASE, false)].
End driver.

Definition model_string (d : AtaDevice) : str :=
  from_utf8_lossy (rev (trim_start_matches (fun b => (b =? 32) || (b =? 0)) (rev (model d)))).
Definition describe (devices : list AtaDevice) (index : nat) : option str :=
  d ← devices !! index;
  let kind := if atapi d then bytes_of "ATAPI" else bytes_of "ATA" in
  let m := model_string d in
  Some (bytes_of "[" ++ uint_to_string (Z.of_nat index) ++ bytes_of "] " ++ kind ++ bytes_of " " ++
        (if nonempty m then m else bytes_of "(unnamed)") ++ bytes_of " (" ++ uint_to_string (sectors d / 2048) ++
        bytes_of " MiB, LBA" ++ (if lba48 d then bytes_of "48" else bytes_of "28") ++ bytes_of ")").
