(* ===== verification/AtaFacts.v ===== *)
(** * The disk driver over a drive

    What an ATA drive promises for polled transfers ([Drive]), the driver's
    routines over it, the block device they make ([ata_block_device]), and a
    simulated drive that keeps the promises. *)
From S2P Require Import Prelude Bytes Text Disk Ata.

(** ** The drive *)
(** Words left in the sector under way and the sectors behind it; the sector
    being written, the words received for it and the sectors left. *)
Inductive phase :=
| Idle | Failed
| DataIn (words : list Z) (rest : list (list Z))
| DataOut (lba : nat) (words : list Z) (left : nat).
Record View := mk_view {
  disk : list (list Z); count_reg : Z; lo_reg : Z; mid_reg : Z; hi_reg : Z; drive_reg : Z;
  stage : phase; polls : nat }.
Definition set_reg (r x : Z) (v : View) : View :=
  mk_view (disk v) (if r =? REG_SECTOR_COUNT then x else count_reg v) (if r =? REG_LBA_LO then x else lo_reg v)
    (if r =? REG_LBA_MID then x else mid_reg v) (if r =? REG_LBA_HI then x else hi_reg v)
    (if r =? REG_DRIVE then x else drive_reg v) (stage v) (polls v).
Definition at_stage (s : phase) (k : nat) (v : View) : View :=
  mk_view (disk v) (count_reg v) (lo_reg v) (mid_reg v) (hi_reg v) (drive_reg v) s k.
Definition with_disk (d : list (list Z)) (v : View) : View :=
  mk_view d (count_reg v) (lo_reg v) (mid_reg v) (hi_reg v) (drive_reg v) (stage v) (polls v).
Definition ready (v : View) : Prop := (stage v = Idle \/ stage v = Failed) /\ polls v = O.
(** LBA28 addressing: the drive register's low nibble on top. *)
Definition address (v : View) : nat :=
  Z.to_nat (Z.land (drive_reg v) 0x0F * 2 ^ 24 + hi_reg v * 2 ^ 16 + mid_reg v * 2 ^ 8 + lo_reg v).
Definition transfer_count (v : View) : nat := if count_reg v =? 0 then 256%nat else Z.to_nat (count_reg v).
Fixpoint words_of (bs : list Z) (n : nat) : list Z :=
  match n with O => [] | S n => le_combine (take 2 bs) :: words_of (drop 2 bs) n end.
Definition bytes_of_words (ws : list Z) : list Z := ws ≫= le_split 2.
Definition sector_words (bs : list Z) : list Z := words_of bs 256.
(** The next stage after a word was taken or given, [k] busy polls long. *)
Definition next_in (ws : list Z) (rest : list (list Z)) (k : nat) (v : View) : View :=
  match ws, rest with
  | [], [] => at_stage Idle 0 v
  | [], bs :: rest => at_stage (DataIn (sector_words bs) rest) k v
  | _, _ => at_stage (DataIn ws rest) 0 v
  end.
Definition next_out (lba : nat) (ws : list Z) (left k : nat) (v : View) : View :=
  if decide (length ws = 256%nat) then
    at_stage (if decide (left = 1%nat) then Idle else DataOut (S lba) [] (left - 1)) k
      (with_disk (<[lba := bytes_of_words ws]> (disk v)) v)
  else at_stage (DataOut lba ws left) 0 v.

(** Every wait is shorter than the driver's patience. *)
Definition LIMIT : nat := Z.to_nat 1000000.
Class Drive (P : Type) `{Controller P} (base : Z) (master : bool) := {
  shows : View -> P -> Prop;
  write_reg : forall v p r x, shows v p -> ready v -> r ∈ [REG_SECTOR_COUNT; REG_LBA_LO; REG_LBA_MID; REG_LBA_HI; REG_DRIVE] ->
    in_u 8 x -> wp (outb (base + r) x) (fun _ => shows (set_reg r x v)) p;
  start_read : forall v p, shows v p -> ready v -> Z.land (drive_reg v) 0xF0 = Z.lor 0xE0 (if master then 0 else 0x10) ->
    (address v + transfer_count v <= length (disk v))%nat ->
    wp (outb (base + REG_STATUS) CMD_READ) (fun _ p' => exists bs rest k, (k < LIMIT)%nat /\
      take (transfer_count v) (drop (address v) (disk v)) = bs :: rest /\
      shows (at_stage (DataIn (sector_words bs) rest) k v) p') p;
  start_write : forall v p, shows v p -> ready v -> Z.land (drive_reg v) 0xF0 = Z.lor 0xE0 (if master then 0 else 0x10) ->
    (address v + transfer_count v <= length (disk v))%nat ->
    wp (outb (base + REG_STATUS) CMD_WRITE) (fun _ p' => exists k, (k < LIMIT)%nat /\
      shows (at_stage (DataOut (address v) [] (transfer_count v)) k v) p') p;
  start_beyond : forall v p cmd, shows v p -> ready v -> Z.land (drive_reg v) 0xF0 = Z.lor 0xE0 (if master then 0 else 0x10) ->
    cmd = CMD_READ \/ cmd = CMD_WRITE -> (length (disk v) <= address v)%nat ->
    wp (outb (base + REG_STATUS) cmd) (fun _ p' => exists k, (k < LIMIT)%nat /\ shows (at_stage Failed k v) p') p;
  status_busy : forall v p k, shows v p -> polls v = S k ->
    wp (inb (base + REG_STATUS)) (fun s p' => busy s = true /\ shows (at_stage (stage v) k v) p') p;
  status_done : forall v p, shows v p -> polls v = O ->
    wp (inb (base + REG_STATUS)) (fun s p' => busy s = false /\ is_set s STATUS_ERR = match stage v with Failed => true | _ => false end /\
      is_set s STATUS_DRQ = match stage v with DataIn _ _ | DataOut _ _ _ => true | _ => false end /\ shows v p') p;
  data_in : forall v p w ws rest, shows v p -> stage v = DataIn (w :: ws) rest -> polls v = O ->
    wp (inw (base + REG_DATA)) (fun w' p' => w' = w /\ exists k, (k < LIMIT)%nat /\ shows (next_in ws rest k v) p') p;
  data_out : forall v p lba ws left w, shows v p -> stage v = DataOut lba ws left -> polls v = O -> in_u 16 w ->
    wp (outw (base + REG_DATA) w) (fun _ p' => exists k, (k < LIMIT)%nat /\ shows (next_out lba (ws ++ [w]) left k v) p') p
}.

(** ** Waiting *)
Lemma repeat_spec {S R} (body : ST S (option R)) (Inv : nat -> S -> Prop) (x : R) (Fin : S -> Prop) :
  (forall k s, Inv (Datatypes.S k) s -> wp body (fun r s' => r = None /\ Inv k s') s) ->
  (forall s, Inv O s -> wp body (fun r s' => r = Some x /\ Fin s') s) ->
  forall n k s, Inv k s -> wp (repeat_pos body n) (fun r s' =>
    if decide (k < Pos.to_nat n)%nat then r = Some x /\ Fin s' else r = None /\ Inv (k - Pos.to_nat n)%nat s') s.
Proof.
  intros Hb H0. assert (forall k s, Inv k s -> wp body (fun r s' =>
    if decide (k < 1)%nat then r = Some x /\ Fin s' else r = None /\ Inv (k - 1)%nat s') s) as H1.
  { intros [|k] s Hi; [by apply H0|]. eapply wp_conseq; [by apply Hb|]. intros r s' Hr. case_decide; [lia|].
    by replace (Datatypes.S k - 1)%nat with k by lia. }
  assert (forall (m1 m2 : ST S (option R)) (a b : nat), 
    (forall k s, Inv k s -> wp m1 (fun r s' => if decide (k < a)%nat then r = Some x /\ Fin s' else r = None /\ Inv (k - a)%nat s') s) ->
    (forall k s, Inv k s -> wp m2 (fun r s' => if decide (k < b)%nat then r = Some x /\ Fin s' else r = None /\ Inv (k - b)%nat s') s) ->
    forall k s, Inv k s -> wp (r ← m1; match r with Some _ => mret r | None => m2 end)
      (fun r s' => if decide (k < a + b)%nat then r = Some x /\ Fin s' else r = None /\ Inv (k - (a + b))%nat s') s) as Hseq.
  { intros m1 m2 a b Hm1 Hm2 k s Hi. wp_step. eapply wp_conseq; [by apply Hm1|]. intros r s'. case_decide.
    - intros [-> ?]. apply wp_ret. by rewrite decide_True by lia.
    - intros [-> Hi']. eapply wp_conseq; [by apply Hm2|]. intros r' s''.
      destruct (decide (k - a < b)%nat); [by rewrite decide_True by lia|]. rewrite decide_False by lia.
      by replace (k - (a + b))%nat with (k - a - b)%nat by lia. }
  induction n as [n IH|n IH|]; intros k s Hi.
  - rewrite Pos2Nat.inj_xI. replace (Datatypes.S (2 * Pos.to_nat n)) with (1 + (Pos.to_nat n + Pos.to_nat n))%nat by lia.
    cbn [repeat_pos]. by apply Hseq; [|apply Hseq|].
  - rewrite Pos2Nat.inj_xO. replace (2 * Pos.to_nat n)%nat with (Pos.to_nat n + Pos.to_nat n)%nat by lia.
    cbn [repeat_pos]. by apply Hseq.
  - by apply H1.
Qed.

Section driver.
Context {P : Type} `{Drive P base0 master0}.
Lemma wait_spec (on : Z -> option (result string unit)) timeout v k p r :
  shows (at_stage (stage v) k v) p -> (k < LIMIT)%nat ->
  (forall s, busy s = true -> on s = None) ->
  (forall s, busy s = false -> is_set s STATUS_ERR = match stage v with Failed => true | _ => false end ->
    is_set s STATUS_DRQ = match stage v with DataIn _ _ | DataOut _ _ _ => true | _ => false end -> on s = Some r) ->
  wp (wait_for base0 on timeout) (fun r' p' => r' = r /\ shows (at_stage (stage v) 0 v) p') p.
Proof.
  intros Hs Hk Hbusy Hdone. unfold wait_for.
  assert (k < Pos.to_nat BUSY_WAIT_ITERATIONS)%nat as Hlim by (apply Nat2Z.inj_lt; rewrite positive_nat_Z; unfold LIMIT, BUSY_WAIT_ITERATIONS in *; lia).
  pose proof (repeat_spec (poll base0 on) (fun k p => shows (at_stage (stage v) k v) p) r (fun p => shows (at_stage (stage v) 0 v) p)) as Hrep.
  assert (forall k p, shows (at_stage (stage v) (S k) v) p ->
    wp (poll base0 on) (fun o p' => o = None /\ shows (at_stage (stage v) k v) p') p) as Hb.
  { intros k' q Hq. unfold poll. wp_step. eapply wp_conseq; [by eapply status_busy|]. intros s q' [Hs1 Hs2].
    apply wp_ret. split; [by apply Hbusy|done]. }
  assert (forall p, shows (at_stage (stage v) 0 v) p ->
    wp (poll base0 on) (fun o p' => o = Some r /\ shows (at_stage (stage v) 0 v) p') p) as Hz.
  { intros q Hq. unfold poll. wp_step. eapply wp_conseq; [by eapply status_done|]. intros s q' (Hs1 & Hs2 & Hs3 & Hs4).
    apply wp_ret. split; [by apply Hdone|done]. }
  destruct (wp_elim _ _ _ (Hrep Hb Hz BUSY_WAIT_ITERATIONS k p Hs)) as (o & p' & E & Ho).
  rewrite decide_True in Ho by done. destruct Ho as [-> Ho]. eapply wp_intro; [by rewrite E|]. done.
Qed.

(** ** Issuing a command *)
Definition addressed (d : AtaDevice) (lba count : Z) (v : View) : View :=
  mk_view (disk v) (u8 count) (u8 lba) (u8 (Z.shiftr lba 8)) (u8 (Z.shiftr lba 16)) (drive_select d lba) (stage v) (polls v).
Definition selector (master : bool) : Z := Z.lor 0xE0 (if master then 0 else 0x10).
Lemma drive_bits m n : 0 <= n < 16 ->
  in_u 8 (Z.lor (selector m) n) /\ Z.land (Z.lor (selector m) n) 0xF0 = selector m /\ Z.land (Z.lor (selector m) n) 0x0F = n.
Proof.
  intros Hn. assert (exists k, n = Z.of_nat k /\ (k < 16)%nat) as (k & -> & Hk) by (exists (Z.to_nat n); lia).
  unfold in_u. destruct m; do 16 (destruct k as [|k]; [by vm_compute|]); lia.
Qed.
Lemma select_bits d lba :
  in_u 8 (drive_select d lba) /\ Z.land (drive_select d lba) 0xF0 = selector (master d) /\
  Z.land (drive_select d lba) 0x0F = lba / 2 ^ 24 mod 16.
Proof.
  unfold drive_select. fold (selector (master d)). change 0x0F with (Z.ones 4). rewrite !Z.land_ones by lia.
  rewrite <- (Z.land_ones (Z.lor _ _)) by lia. change (Z.ones 4) with 0x0F. change (2 ^ 4) with 16.
  assert (u8 (Z.shiftr lba 24) mod 16 = lba / 2 ^ 24 mod 16) as ->.
  { unfold wrap. rewrite Z.shiftr_div_pow2 by lia. change (2 ^ 8) with 256. generalize (lba / 2 ^ 24). intros y. zlia. }
  apply drive_bits. apply Z.mod_pos_bound. lia.
Qed.
Lemma addressed_address d lba count v : 0 <= lba < 2 ^ 28 -> address (addressed d lba count v) = Z.to_nat lba.
Proof.
  intros Hl. unfold address, addressed. cbn [drive_reg hi_reg mid_reg lo_reg].
  rewrite (proj2 (proj2 (select_bits d lba))). unfold wrap. rewrite !Z.shiftr_div_pow2 by lia. f_equal. zlia.
Qed.
Lemma addressed_count d lba count v : (1 <= count <= 256)%nat -> transfer_count (addressed d lba (Z.of_nat count) v) = count.
Proof.
  intros Hc. unfold transfer_count, addressed. cbn [count_reg]. destruct (decide (count = 256%nat)) as [->|]; [done|].
  rewrite wrap_small by (unfold in_u; lia). rewrite (proj2 (Z.eqb_neq _ _)) by lia. lia.
Qed.
Lemma command_spec d lba count cmd v p Q :
  base d = base0 -> shows v p -> ready v -> 
  (forall p', shows (addressed d lba count v) p' -> wp (outb (base0 + REG_STATUS) cmd) Q p') ->
  wp (command d lba count cmd) Q p.
Proof.
  intros Eb Hs Hr Hc. unfold command. rewrite Eb.
  assert (forall v, ready v -> forall r x, ready (set_reg r x v)) as Hready by done.
  wp_step. eapply wp_conseq; [apply (write_reg v); [done|done|set_solver|apply select_bits]|]. intros [] p1 H1.
  wp_step. eapply wp_conseq; [eapply write_reg; [exact H1|by apply Hready|set_solver|apply wrap_bound; lia]|]. intros [] p2 H2.
  wp_step. eapply wp_conseq; [eapply write_reg; [exact H2|by repeat apply Hready|set_solver|apply wrap_bound; lia]|]. intros [] p3 H3.
  wp_step. eapply wp_conseq; [eapply write_reg; [exact H3|by repeat apply Hready|set_solver|apply wrap_bound; lia]|]. intros [] p4 H4.
  wp_step. eapply wp_conseq; [eapply write_reg; [exact H4|by repeat apply Hready|set_solver|apply wrap_bound; lia]|]. intros [] p5 H5.
  apply Hc. exact H5.
Qed.

(** ** Moving words *)
Lemma length_words_of bs n : length (words_of bs n) = n.
Proof. revert bs. induction n as [|n IH]; intros bs; [done|]. cbn [words_of length]. by rewrite IH. Qed.
Lemma words_back bs n : byte_list bs -> length bs = (2 * n)%nat -> bytes_of_words (words_of bs n) = bs.
Proof.
  unfold bytes_of_words. revert bs. induction n as [|n IH]; intros bs Hb Hl; [by destruct bs|].
  cbn [words_of mbind list_bind]. rewrite IH; [|by apply Forall_drop|rewrite length_drop; lia].
  assert (length (take 2 bs) = 2%nat) as Hl2 by (rewrite length_take; lia).
  rewrite <- Hl2 at 1. rewrite le_split_combine by by apply Forall_take. apply take_drop.
Qed.
Lemma sector_words_back bs : sector_ok bs -> bytes_of_words (sector_words bs) = bs.
Proof. intros [Hb Hl]. by apply words_back. Qed.
Lemma words_in_range bs n : byte_list bs -> Forall (in_u 16) (words_of bs n).
Proof.
  revert bs. induction n as [|n IH]; intros bs Hb; [done|]. cbn [words_of]. constructor; [|by apply IH, Forall_drop].
  pose proof (le_combine_bound (take 2 bs) ltac:(by apply Forall_take)) as Hc. unfold in_u.
  assert (2 ^ (8 * Z.of_nat (length (take 2 bs))) <= 2 ^ 16) by (apply Z.pow_le_mono_r; [lia|]; rewrite length_take; lia). lia.
Qed.
Lemma in_words_spec v ws rest p :
  ws <> [] -> shows (at_stage (DataIn ws rest) 0 v) p ->
  wp (in_words (base0 + REG_DATA) (length ws)) (fun bs p' => bs = bytes_of_words ws /\
    exists k, (k < LIMIT)%nat /\ shows (next_in [] rest k v) p') p.
Proof.
  revert p. induction ws as [|w ws IH]; intros p Hn Hs; [done|]. cbn [length in_words].
  wp_step. eapply wp_conseq; [by eapply data_in|]. intros w' p1 (-> & k & Hk & Hs1). wp_step.
  destruct ws as [|w2 ws].
  - apply wp_ret. apply wp_ret. split; [done|]. exists k. split; [done|]. destruct rest; exact Hs1.
  - eapply wp_conseq; [apply IH; [done|exact Hs1]|]. intros bs p2 (-> & Hs2). by apply wp_ret.
Qed.
Lemma read_one d v b rest k n p Q :
  base d = base0 -> shows (at_stage (DataIn (sector_words b) rest) k v) p -> (k < LIMIT)%nat -> sector_ok b ->
  (forall k' p', (k' < LIMIT)%nat -> shows (next_in [] rest k' v) p' ->
     wp (read_each d n) (fun r => Q (match r with Ok bs => Ok (b ++ bs) | Err e => Err e end)) p') ->
  wp (read_each d (S n)) Q p.
Proof.
  intros Eb Hs Hk Hb HQ. cbn [read_each]. unfold mbind, str_bind, wp at 1. rewrite Eb.
  destruct (wp_elim _ _ _ (wait_spec drq_ready "ATA: DRQ never set" (at_stage (DataIn (sector_words b) rest) k v) k p (Ok tt) Hs Hk
    ltac:(intros s Hbs; unfold drq_ready; by rewrite Hbs) ltac:(intros s Hbs He Hd; unfold drq_ready; cbn [stage at_stage] in *; by rewrite Hbs, He, Hd)))
    as (r & p1 & E & -> & Hs1). unfold wait_drq. rewrite E. unfold lift_st.
  assert (length (sector_words b) = 256%nat) as Hl by apply length_words_of.
  assert (sector_words b <> []) as Hn by (intros Hn; by rewrite Hn in Hl).
  pose proof (in_words_spec v (sector_words b) rest p1 Hn Hs1) as Hin. rewrite Hl in Hin.
  destruct (wp_elim _ _ _ Hin) as (bs & p2 & E2 & -> & k2 & Hk2 & Hs2). rewrite E2, (sector_words_back b Hb).
  specialize (HQ k2 p2 Hk2 Hs2). unfold wp in HQ. destruct (read_each d n p2) as [[|]|]; exact HQ.
Qed.
Lemma read_each_spec d v b rest k p :
  base d = base0 -> shows (at_stage (DataIn (sector_words b) rest) k v) p -> (k < LIMIT)%nat ->
  Forall (fun bs => sector_ok bs) (b :: rest) ->
  wp (read_each d (length (b :: rest))) (fun r p' => r = Ok (concat (b :: rest)) /\ shows (at_stage Idle 0 v) p') p.
Proof.
  intros Eb. revert b k p. induction rest as [|b2 rest IH]; intros b k p Hs Hk Hok; apply Forall_cons in Hok as [Hb Hok];
    (eapply (read_one d v b); [done|exact Hs|done|done|]); intros k2 p2 Hk2 Hs2.
  - apply wp_ret. done.
  - eapply wp_conseq; [by apply (IH b2 k2)|]. by intros r p3 [-> ?].
Qed.
(** A request the drive cannot address. *)
Lemma failed_wait d v k p :
  base d = base0 -> shows (at_stage Failed k v) p -> (k < LIMIT)%nat ->
  wp (wait_drq (base d)) (fun r p' => r = Err "ATA: drive error"%string /\ shows (at_stage Failed 0 v) p') p.
Proof.
  intros -> Hs Hk. apply (wait_spec drq_ready "ATA: DRQ never set" (at_stage Failed k v) k); try done.
  - intros s Hbs. unfold drq_ready. by rewrite Hbs.
  - intros s Hbs He _. unfold drq_ready. cbn [stage at_stage] in *. by rewrite Hbs, He.
Qed.

(** ** Writing words *)
Lemma out_words_spec v lba left : forall n ws bs p,
  (length ws + n = 256)%nat -> n <> O -> byte_list bs -> (2 * n <= length bs)%nat ->
  shows (at_stage (DataOut lba ws left) 0 v) p ->
  wp (out_words (base0 + REG_DATA) n bs) (fun _ p' => exists k, (k < LIMIT)%nat /\
    shows (next_out lba (ws ++ words_of bs n) left k v) p') p.
Proof.
  induction n as [|n IH]; intros ws bs p Hn Hnz Hb Hl Hs; [done|]. cbn [out_words words_of].
  wp_step. eapply wp_conseq; [eapply data_out; [exact Hs|done|done|]|].
  { pose proof (words_in_range bs 1 Hb) as Hw. by apply Forall_cons in Hw as [? _]. }
  intros [] p1 (k & Hk & Hs1). unfold next_out in Hs1 at 1. cbn [disk at_stage] in Hs1. destruct n as [|n].
  - apply wp_ret. exists k. split; [done|]. exact Hs1.
  - rewrite decide_False in Hs1 by (rewrite length_app; simpl; lia).
    eapply wp_conseq; [apply (IH (ws ++ [le_combine (take 2 bs)])); [rewrite length_app; simpl; lia|done|by apply Forall_drop|rewrite length_drop; lia|exact Hs1]|].
    intros [] p2 (k2 & Hk2 & Hs2). exists k2. split; [done|]. by rewrite <- app_assoc in Hs2.
Qed.

(** The sectors after a write of [n] sectors from [buf]. *)
Fixpoint store (lba n : nat) (buf : list Z) (dsk : list (list Z)) : list (list Z) :=
  match n with O => dsk | S n => store (S lba) n (drop 512 buf) (<[lba := take 512 buf]> dsk) end.
Lemma words_of_take n bs : words_of (take (2 * n) bs) n = words_of bs n.
Proof.
  revert bs. induction n as [|n IH]; intros bs; [done|]. cbn [words_of]. rewrite take_take, Nat.min_l by lia.
  f_equal. rewrite <- (IH (drop 2 bs)). f_equal. replace (2 * S n)%nat with (2 + 2 * n)%nat by lia. by rewrite <- take_drop_commute.
Qed.
Lemma received_bytes buf : byte_list buf -> (512 <= length buf)%nat -> bytes_of_words (words_of buf 256) = take 512 buf.
Proof.
  intros Hb Hl. rewrite <- (words_of_take 256). change (2 * 256)%nat with 512%nat. apply words_back; [by apply Forall_take|].
  rewrite length_take. lia.
Qed.
Lemma write_each_spec d : base d = base0 -> forall left lba v buf k p,
  (1 <= left)%nat -> (k < LIMIT)%nat -> byte_list buf -> (left * 512 <= length buf)%nat ->
  shows (at_stage (DataOut lba [] left) k v) p ->
  wp (write_each d left buf) (fun r p' => r = Ok tt /\
    shows (at_stage Idle 0 (with_disk (store lba left buf (disk v)) v)) p') p.
Proof.
  intros Eb. induction left as [|left IH]; intros lba v buf k p Hle Hk Hb Hl Hs; [lia|].
  cbn [write_each store]. unfold mbind, str_bind, wp at 1. rewrite Eb.
  destruct (wp_elim _ _ _ (wait_spec drq_ready "ATA: DRQ never set" (at_stage (DataOut lba [] (S left)) k v) k p (Ok tt) Hs Hk
    ltac:(intros s Hbs; unfold drq_ready; by rewrite Hbs) ltac:(intros s Hbs He Hd; unfold drq_ready; cbn [stage at_stage] in *; by rewrite Hbs, He, Hd)))
    as (r & p1 & E & -> & Hs1). unfold wait_drq. rewrite E. unfold lift_st.
  destruct (wp_elim _ _ _ (out_words_spec v lba (S left) 256 [] buf p1 eq_refl ltac:(done) Hb ltac:(lia) Hs1))
    as ([] & p2 & E2 & k2 & Hk2 & Hs2). rewrite E2. cbn [Datatypes.app] in Hs2.
  unfold next_out in Hs2. rewrite length_words_of, decide_True, received_bytes in Hs2 by (done || lia). set (st := if decide _ then _ else _) in Hs2.
  destruct (wp_elim _ _ _ (wait_spec idle_ready "ATA: write never completed" (at_stage st k2 (with_disk (<[lba := take 512 buf]> (disk v)) v)) k2 p2 (Ok tt) Hs2 Hk2
    ltac:(intros s Hbs; unfold idle_ready; by rewrite Hbs) ltac:(intros s Hbs He Hd; unfold idle_ready; cbn [stage at_stage] in *;
      rewrite Hbs, He; unfold st; by case_decide))) as (r & p3 & E3 & -> & Hs3). unfold wait_idle. rewrite E3. clear E E2 E3 Hs1 Hs2.
  unfold st in Hs3. destruct (decide (S left = 1%nat)) as [E1|E1].
  - assert (left = O) as -> by lia. unfold mret, str_ret. split; [done|]. exact Hs3.
  - rewrite Nat.sub_1_r in Hs3. cbn [Nat.pred] in Hs3.
    pose proof (IH (S lba) (with_disk (<[lba := take 512 buf]> (disk v)) v) (drop 512 buf) 0%nat p3) as HI.
    apply HI; [lia|unfold LIMIT; lia|by apply Forall_drop|rewrite length_drop; lia|exact Hs3].
Qed.

(** ** Requests *)
Definition dev_ok (d : AtaDevice) : Prop := base d = base0 /\ master d = master0 /\ present d = true /\ atapi d = false.
Definition idle_on (dsk : list (list Z)) (p : P) : Prop :=
  exists v, shows v p /\ ready v /\ disk v = dsk /\ Forall (fun bs => sector_ok bs) dsk.
Lemma check_ok d lba count len invalid :
  dev_ok d -> (1 <= count <= 256)%nat -> (count * 512 <= len)%nat -> lba < 2 ^ 28 -> check d lba count len invalid = Ok tt.
Proof.
  intros (_ & _ & Hp & Ha) Hc Hl Hlba. unfold check. rewrite Hp, Ha, bool_decide_false by lia.
  change (Z.shiftl 1 28) with (2 ^ 28). by rewrite (proj2 (Z.leb_gt _ _)).
Qed.
Lemma read_sectors_in d lba count len dsk p :
  dev_ok d -> idle_on dsk p -> (1 <= count <= 256)%nat -> (count * 512 <= len)%nat -> 0 <= lba < 2 ^ 28 ->
  (Z.to_nat lba + count <= length dsk)%nat ->
  wp (read_sectors d lba count len) (fun r p' => r = Ok (concat (take count (drop (Z.to_nat lba) dsk))) /\ idle_on dsk p') p.
Proof.
  intros Hd (v & Hs & Hr & <- & Hok) Hc Hl Hlba Hin. unfold read_sectors, mbind, str_bind, lift_res, wp.
  rewrite check_ok by (done || lia). unfold lift_st. pose proof Hd as (Eb & Em & _).
  pose proof (command_spec d lba (Z.of_nat count) CMD_READ v p (fun _ p' => exists bs rest k, (k < LIMIT)%nat /\
      take count (drop (Z.to_nat lba) (disk v)) = bs :: rest /\
      shows (at_stage (DataIn (sector_words bs) rest) k (addressed d lba (Z.of_nat count) v)) p') Eb Hs Hr) as Hcmd.
  destruct (wp_elim _ _ _ (Hcmd ltac:(intros p' Hs';
    pose proof (start_read (addressed d lba (Z.of_nat count) v) p' Hs' Hr) as Hst; rewrite addressed_address, addressed_count in Hst by lia;
    apply Hst; [unfold addressed; cbn [drive_reg]; rewrite <- Em; apply select_bits|done])))
    as ([] & p1 & E1 & bs & rest & k & Hk & Et & Hs1). rewrite E1.
  assert (length (bs :: rest) = count) as Hlen by (rewrite <- Et, length_take, length_drop; lia).
  assert (Forall (fun bs => sector_ok bs) (bs :: rest)) as Hbs by (rewrite <- Et; by apply Forall_take, Forall_drop).
  pose proof (read_each_spec d _ bs rest k p1 Eb Hs1 Hk Hbs) as Hread. rewrite Hlen in Hread.
  destruct (wp_elim _ _ _ Hread) as (r & p2 & E2 & -> & Hs2). rewrite E2, Et. split; [done|].
  eexists. split; [exact Hs2|]. split; [by split; [left|]|done].
Qed.
Lemma store_ok lba n buf dsk :
  byte_list buf -> (n * 512 <= length buf)%nat -> Forall (fun bs => sector_ok bs) dsk ->
  Forall (fun bs => sector_ok bs) (store lba n buf dsk) /\ length (store lba n buf dsk) = length dsk.
Proof.
  revert lba buf dsk. induction n as [|n IH]; intros lba buf dsk Hb Hl Hd; [done|]. cbn [store].
  destruct (IH (S lba) (drop 512 buf) (<[lba := take 512 buf]> dsk)) as [H1 H2]; [by apply Forall_drop|rewrite length_drop; lia| |].
  - apply Forall_insert; [done|]. split; [by apply Forall_take|rewrite length_take; unfold SECTOR; lia].
  - split; [done|]. by rewrite H2, length_insert.
Qed.
Lemma write_sectors_in d lba count buf dsk p :
  dev_ok d -> idle_on dsk p -> (1 <= count <= 256)%nat -> byte_list buf -> (count * 512 <= length buf)%nat -> 0 <= lba < 2 ^ 28 ->
  (Z.to_nat lba + count <= length dsk)%nat ->
  wp (write_sectors d lba count buf) (fun r p' => r = Ok tt /\ idle_on (store (Z.to_nat lba) count buf dsk) p') p.
Proof.
  intros Hd (v & Hs & Hr & <- & Hok) Hc Hb Hl Hlba Hin. unfold write_sectors, mbind, str_bind, lift_res, wp.
  rewrite check_ok by (done || lia). unfold lift_st. pose proof Hd as (Eb & Em & _).
  pose proof (command_spec d lba (Z.of_nat count) CMD_WRITE v p (fun _ p' => exists k, (k < LIMIT)%nat /\
      shows (at_stage (DataOut (Z.to_nat lba) [] count) k (addressed d lba (Z.of_nat count) v)) p') Eb Hs Hr) as Hcmd.
  destruct (wp_elim _ _ _ (Hcmd ltac:(intros p' Hs';
    pose proof (start_write (addressed d lba (Z.of_nat count) v) p' Hs' Hr) as Hst; rewrite addressed_address, addressed_count in Hst by lia;
    apply Hst; [unfold addressed; cbn [drive_reg]; rewrite <- Em; apply select_bits|done])))
    as ([] & p1 & E1 & k & Hk & Hs1). rewrite E1.
  destruct (wp_elim _ _ _ (write_each_spec d Eb count (Z.to_nat lba) _ buf k p1 ltac:(lia) Hk Hb Hl Hs1)) as (r & p2 & E2 & -> & Hs2).
  rewrite E2. split; [done|]. eexists. split; [exact Hs2|]. split; [by split; [left|]|]. split; [done|]. by apply store_ok.
Qed.
(** Behind the end of the disk both requests fail and change nothing. *)
Lemma beyond_started d lba count cmd dsk p :
  dev_ok d -> idle_on dsk p -> 0 <= lba < 2 ^ 28 -> (length dsk <= Z.to_nat lba)%nat -> cmd = CMD_READ \/ cmd = CMD_WRITE ->
  wp (mbind (M := ST P) (fun _ => wait_drq (base d)) (command d lba (Z.of_nat count) cmd)) (fun r p' => r = Err "ATA: drive error"%string /\ idle_on dsk p') p.
Proof.
  intros Hd (v & Hs & Hr & <- & Hok) Hlba Hin Hcmd. pose proof Hd as (Eb & Em & _). wp_step.
  apply (command_spec d lba (Z.of_nat count) cmd v p); try done. intros p' Hs'.
  pose proof (start_beyond (addressed d lba (Z.of_nat count) v) p' cmd Hs' Hr) as Hst. rewrite addressed_address in Hst by lia.
  eapply wp_conseq; [apply Hst; [unfold addressed; cbn [drive_reg]; rewrite <- Em; apply select_bits|done|done]|].
  intros [] p1 (k & Hk & Hs1). eapply wp_conseq; [eapply failed_wait; [exact Eb|exact Hs1|done]|]. intros r p2 [-> Hs2]. split; [done|].
  eexists. split; [exact Hs2|]. split; [by split; [right|]|done].
Qed.
Lemma read_sectors_beyond d lba count len dsk p :
  dev_ok d -> idle_on dsk p -> (1 <= count <= 256)%nat -> (count * 512 <= len)%nat -> 0 <= lba < 2 ^ 28 -> (length dsk <= Z.to_nat lba)%nat ->
  wp (read_sectors d lba count len) (fun r p' => r = Err "ATA: drive error"%string /\ idle_on dsk p') p.
Proof.
  intros Hd Hi Hc Hl Hlba Hin. unfold read_sectors, mbind, str_bind, lift_res, wp. rewrite check_ok by (done || lia). unfold lift_st.
  destruct (wp_elim _ _ _ (beyond_started d lba count CMD_READ dsk p Hd Hi Hlba Hin ltac:(by left))) as (r & p1 & E & -> & Hi1).
  unfold mbind, st_bind in E. destruct (command d lba (Z.of_nat count) CMD_READ p) as [[] p0|]; [|done].
  destruct count as [|count]; [lia|]. cbn [read_each]. unfold mbind, str_bind. by rewrite E.
Qed.
Lemma write_sectors_beyond d lba count buf dsk p :
  dev_ok d -> idle_on dsk p -> (1 <= count <= 256)%nat -> (count * 512 <= length buf)%nat -> 0 <= lba < 2 ^ 28 -> (length dsk <= Z.to_nat lba)%nat ->
  wp (write_sectors d lba count buf) (fun r p' => r = Err "ATA: drive error"%string /\ idle_on dsk p') p.
Proof.
  intros Hd Hi Hc Hl Hlba Hin. unfold write_sectors, mbind, str_bind, lift_res, wp. rewrite check_ok by (done || lia). unfold lift_st.
  destruct (wp_elim _ _ _ (beyond_started d lba count CMD_WRITE dsk p Hd Hi Hlba Hin ltac:(by right))) as (r & p1 & E & -> & Hi1).
  unfold mbind, st_bind in E. destruct (command d lba (Z.of_nat count) CMD_WRITE p) as [[] p0|]; [|done].
  destruct count as [|count]; [lia|]. cbn [write_each]. unfold mbind, str_bind. by rewrite E.
Qed.
Lemma refused d lba count len dsk p (invalid : string) e :
  idle_on dsk p -> check d lba count len invalid = Err e ->
  (invalid = "invalid read request"%string -> read_sectors d lba count len p = Ret (Err e) p) /\
  (forall buf, length buf = len -> invalid = "invalid write request"%string -> write_sectors d lba count buf p = Ret (Err e) p).
Proof.
  intros Hi Hc. split; [intros -> |intros buf <- ->]; unfold read_sectors, write_sectors, mbind, str_bind, lift_res; by rewrite Hc.
Qed.

(** ** The specification: a list of sectors *)
Inductive request := Read (lba : Z) (count len : nat) | Write (lba : Z) (count : nat) (buf : list Z).
Definition answer : Type := result string (list Z).
Definition spec_request (d : AtaDevice) (r : request) (dsk : list (list Z)) : answer * list (list Z) :=
  match r with
  | Read lba count len =>
      match check d lba count len "invalid read request" with
      | Err e => (Err e, dsk)
      | Ok _ =>
          if decide (length dsk <= Z.to_nat lba)%nat then (Err "ATA: drive error"%string, dsk)
          else (Ok (concat (take count (drop (Z.to_nat lba) dsk))), dsk)
      end
  | Write lba count buf =>
      match check d lba count (length buf) "invalid write request" with
      | Err e => (Err e, dsk)
      | Ok _ =>
          if decide (length dsk <= Z.to_nat lba)%nat then (Err "ATA: drive error"%string, dsk)
          else (Ok [], store (Z.to_nat lba) count buf dsk)
      end
  end.
Fixpoint spec_requests (d : AtaDevice) (rs : list request) (dsk : list (list Z)) : list answer * list (list Z) :=
  match rs with
  | [] => ([], dsk)
  | r :: rs => let '(a, dsk) := spec_request d r dsk in let '(l, dsk) := spec_requests d rs dsk in (a :: l, dsk)
  end.
(** No transfer crosses the end of the disk. *)
Definition request_ok (n : nat) (r : request) : Prop :=
  match r with
  | Read lba count _ => 0 <= lba /\ (Z.to_nat lba + count <= n \/ n <= Z.to_nat lba)%nat
  | Write lba count buf => 0 <= lba /\ byte_list buf /\ (Z.to_nat lba + count <= n \/ n <= Z.to_nat lba)%nat
  end.

Definition serve (d : AtaDevice) (r : request) : ST P answer :=
  match r with
  | Read lba count len => read_sectors d lba count len
  | Write lba count buf =>
      r ← (write_sectors d lba count buf : ST P (result string unit));
      mret (match r with Ok _ => Ok [] | Err e => Err e end)
  end.
Fixpoint serve_all (d : AtaDevice) (rs : list request) : ST P (list answer) :=
  match rs with [] => mret [] | r :: rs => a ← serve d r; l ← serve_all d rs; mret (a :: l) end.

Lemma check_inv d lba count len invalid :
  check d lba count len invalid = Ok tt -> (1 <= count <= 256)%nat /\ (count * 512 <= len)%nat /\ lba < 2 ^ 28.
Proof.
  unfold check. repeat case_match; try done. to_prop. change (Z.shiftl 1 28) with (2 ^ 28) in *. intros _. split_and!; lia.
Qed.
Lemma serve_refines d r dsk p :
  dev_ok d -> idle_on dsk p -> request_ok (length dsk) r ->
  wp (serve d r) (fun a p' => a = fst (spec_request d r dsk) /\ idle_on (snd (spec_request d r dsk)) p' /\
    length (snd (spec_request d r dsk)) = length dsk) p.
Proof.
  intros Hd Hi Hr. destruct r as [lba count len|lba count buf]; cbn [serve spec_request request_ok] in *.
  - destruct Hr as [Hl Hin]. destruct (check d lba count len _) as [[]|e] eqn:Ec.
    + apply check_inv in Ec as (Hc & Hlen & Hlba). case_decide; cbn [fst snd].
      * eapply wp_conseq; [eapply read_sectors_beyond; try done; lia|]. by intros a p' [-> ?].
      * eapply wp_conseq; [eapply read_sectors_in; try done; lia|]. by intros a p' [-> ?].
    + eapply wp_intro; [eapply refused; done|]. done.
  - destruct Hr as (Hl & Hb & Hin). destruct (check d lba count (length buf) _) as [[]|e] eqn:Ec; wp_step.
    + apply check_inv in Ec as (Hc & Hlen & Hlba). case_decide; cbn [fst snd].
      * eapply wp_conseq; [eapply write_sectors_beyond; try done; lia|]. by intros a p' [-> ?].
      * eapply wp_conseq; [eapply write_sectors_in; try done; lia|]. intros a p' [-> ?]. apply wp_ret. split; [done|].
        split; [done|]. destruct Hi as (v & _ & _ & _ & Hok). by apply store_ok.
    + destruct (refused d lba count (length buf) dsk p _ e Hi Ec) as [_ Hw]. eapply wp_intro; [by apply Hw|]. by apply wp_ret.
Qed.

(** ** The block device *)
Variable dev : AtaDevice.
Hypothesis Hdev : dev_ok dev.
(** A controller at rest with known contents. *)
Record AtaDisk := mk_ata_disk { port : P; contents : list (list Z); at_rest : idle_on contents port }.
Definition ata_read (dk : AtaDisk) (lba : Z) : result string (list Z) :=
  if decide (0 <= lba) then
    match read_sectors dev lba 1 512 (port dk) with Ret r _ => r | Panic => Err EmptyString end
  else Err EmptyString.
Definition ata_after (dk : AtaDisk) (lba : Z) (bs : list Z) : P :=
  match write_sectors dev lba 1 bs (port dk) with Ret _ p => p | Panic => port dk end.
Lemma one_sector_ok n lba bs : 0 <= lba -> sector_ok bs -> request_ok n (Write lba 1 bs).
Proof. intros Hl [Hb _]. cbn [request_ok]. split; [done|]. split; [done|lia]. Qed.
Lemma after_at_rest dk lba bs :
  0 <= lba -> sector_ok bs -> idle_on (snd (spec_request dev (Write lba 1 bs) (contents dk))) (ata_after dk lba bs).
Proof.
  intros Hl Hbs. destruct (wp_elim _ _ _ (serve_refines dev (Write lba 1 bs) (contents dk) (port dk) Hdev (at_rest dk)
    (one_sector_ok _ lba bs Hl Hbs))) as (a & p' & E & _ & Hi & _). unfold ata_after. cbn [serve] in E. unfold mbind, st_bind in E.
  destruct (write_sectors dev lba 1 bs (port dk)) as [r p1|]; [|done]. injection E as _ ->. exact Hi.
Qed.
Definition ata_write (dk : AtaDisk) (lba : Z) (bs : list Z) : result string unit * AtaDisk :=
  match decide (0 <= lba), decide (sector_ok bs) with
  | left Hl, left Hbs =>
      (match write_sectors dev lba 1 bs (port dk) with Ret r _ => r | Panic => Err EmptyString end,
       mk_ata_disk (ata_after dk lba bs) (snd (spec_request dev (Write lba 1 bs) (contents dk))) (after_at_rest dk lba bs Hl Hbs))
  | _, _ => (Err EmptyString, dk)
  end.
Lemma ata_read_spec dk lba :
  ata_read dk lba = if decide (0 <= lba) then fst (spec_request dev (Read lba 1 512) (contents dk)) else Err EmptyString.
Proof.
  unfold ata_read. case_decide as Hl; [|done].
  assert (request_ok (length (contents dk)) (Read lba 1 512)) as Hr by (cbn [request_ok]; split; [done|lia]).
  destruct (wp_elim _ _ _ (serve_refines dev _ (contents dk) (port dk) Hdev (at_rest dk) Hr)) as (a & p' & E & -> & _).
  cbn [serve] in E. by rewrite E.
Qed.
Lemma contents_ok dk : Forall (fun bs => sector_ok bs) (contents dk).
Proof. by destruct (at_rest dk) as (v & _ & _ & _ & ?). Qed.
Lemma spec_read_in (dsk : list (list Z)) lba bs :
  0 <= lba < 2 ^ 28 -> dsk !! Z.to_nat lba = Some bs -> fst (spec_request dev (Read lba 1 512) dsk) = Ok bs.
Proof.
  intros Hl Hbs. cbn [spec_request]. rewrite check_ok by (done || lia). apply lookup_lt_Some in Hbs as Hlt.
  rewrite decide_False by lia. cbn [fst]. rewrite (drop_S _ _ _ Hbs). cbn [take concat]. by rewrite take_0, app_nil_r.
Qed.
Lemma spec_write_in (dsk : list (list Z)) lba bs :
  0 <= lba < 2 ^ 28 -> (Z.to_nat lba < length dsk)%nat -> sector_ok bs ->
  spec_request dev (Write lba 1 bs) dsk = (Ok [], <[Z.to_nat lba := bs]> dsk).
Proof.
  intros Hl Hlt [Hb Hlen]. cbn [spec_request]. rewrite check_ok by (done || unfold SECTOR in *; lia). rewrite decide_False by lia.
  cbn [store]. by rewrite take_ge by (unfold SECTOR in *; lia).
Qed.
Lemma spec_read_shape (dsk : list (list Z)) lba bs :
  0 <= lba -> Forall (fun bs => sector_ok bs) dsk -> fst (spec_request dev (Read lba 1 512) dsk) = Ok bs ->
  exists b, dsk !! Z.to_nat lba = Some b /\ bs = b.
Proof.
  intros Hl Hok. cbn [spec_request]. destruct (check dev lba 1 512 _) as [[]|]; [|done]. case_decide as Hlt; [done|]. cbn [fst].
  destruct (lookup_lt_is_Some_2 dsk (Z.to_nat lba)) as [b Hb]; [lia|]. rewrite (drop_S _ _ _ Hb). cbn [take concat].
  rewrite take_0. intros [= <-]. exists b. by rewrite app_nil_r.
Qed.
(** The driver is a block device: what the file system assumes of it holds. *)
#[refine] Definition ata_block_device : BlockDevice AtaDisk := {|
  read_sector := ata_read; write_sector := ata_write;
  capacity dk := Z.min (Z.of_nat (length (contents dk))) (2 ^ 28) |}.
Proof.
  - intros dk lba Hl. destruct (lookup_lt_is_Some_2 (contents dk) (Z.to_nat lba)) as [bs Hbs]; [lia|]. exists bs.
    rewrite ata_read_spec, decide_True by lia. split; [apply spec_read_in; [lia|done]|].
    exact (proj1 (Forall_lookup _ _) (contents_ok dk) _ _ Hbs).
  - intros dk lba bs. rewrite ata_read_spec. case_decide as Hl; [|done]. intros E.
    destruct (spec_read_shape _ _ _ Hl (contents_ok dk) E) as (b & Hb & ->). exact (proj1 (Forall_lookup _ _) (contents_ok dk) _ _ Hb).
  - intros dk lba bs Hl Hbs. unfold ata_write. destruct (decide (0 <= lba)) as [H0'|]; [|lia]. destruct (decide (sector_ok bs)) as [Hbs'|]; [|done].
    eexists. split; [|split; [|split]].
    + f_equal. destruct (wp_elim _ _ _ (serve_refines dev (Write lba 1 bs) (contents dk) (port dk) Hdev (at_rest dk)
        (one_sector_ok _ lba bs H0' Hbs'))) as (a & p' & E & Ea & _). rewrite spec_write_in in Ea by (done || lia). cbn [fst] in Ea.
      cbn [serve] in E. unfold mbind, st_bind in E. destruct (write_sectors dev lba 1 bs (port dk)) as [r p1|]; [|done].
      injection E as <- _. by destruct r as [[]|].
    + cbn [contents]. rewrite spec_write_in by (done || lia). cbn [snd]. by rewrite length_insert.
    + rewrite ata_read_spec, decide_True by done. cbn [contents]. rewrite spec_write_in by (done || lia).
      apply spec_read_in; [lia|]. apply list_lookup_insert_eq. lia.
    + intros l Hne. rewrite !ata_read_spec. case_decide; [|done]. cbn [contents]. rewrite spec_write_in by (done || lia). cbn [snd spec_request].
      rewrite length_insert. assert (Z.to_nat l <> Z.to_nat lba) as Hn by lia.
      destruct (check dev l 1 512 _); [|done]. case_decide; [done|]. cbn [fst]. do 2 f_equal.
      apply list_eq. intros i. destruct i as [|i]; [|by rewrite !lookup_take_ge by lia].
      rewrite !lookup_take_lt, !lookup_drop, Nat.add_0_r by lia. by rewrite list_lookup_insert_ne by done.
Defined.
End driver.

(** C30: The disk driver carries out its requests.  Over any ATA drive that
    answers within the driver's patience, every sequence of reads and writes of
    1 to 256 sectors gets the answers of a plain list of sectors: a read the
    bytes of its sectors, a write success and its bytes stored, a request behind
    the end or one that is malformed its error, with nothing changed; and the
    drive is at rest after each. *)
Theorem driver_serves_requests {P} `{Drive P base0 master0} d dsk p rs :
  dev_ok (base0 := base0) (master0 := master0) d -> idle_on dsk p -> Forall (request_ok (length dsk)) rs ->
  exists p', serve_all d rs p = Ret (fst (spec_requests d rs dsk)) p' /\ idle_on (snd (spec_requests d rs dsk)) p'.
Proof.
  intros Hd. revert dsk p. induction rs as [|r rs IH]; intros dsk p Hi Hr; [by exists p|]. apply Forall_cons in Hr as [Hr Hrs].
  destruct (wp_elim _ _ _ (serve_refines d r dsk p Hd Hi Hr)) as (a & p1 & E & -> & Hi1 & Hl).
  cbn [serve_all spec_requests]. unfold mbind, st_bind. rewrite E. destruct (spec_request d r dsk) as [a dsk1]. cbn [fst snd] in *.
  rewrite <- Hl in Hrs. destruct (IH dsk1 p1 Hi1 Hrs) as (p2 & E2 & Hi2). rewrite E2. exists p2.
  by destruct (spec_requests d rs dsk1).
Qed.

(** ** A drive that keeps its promises: the primary master *)
Definition DELAY : nat := 3.
Definition status_value (s : phase) : Z := match s with Idle => 0x40 | Failed => 0x41 | _ => 0x48 end.
Definition sim_inb (q : Z) : ST View Z := fun v =>
  if q =? PRIMARY_BASE + REG_STATUS then
    match polls v with S k => Ret 0x80 (at_stage (stage v) k v) | O => Ret (status_value (stage v)) v end
  else Ret 0 v.
Definition sim_inw (q : Z) : ST View Z := fun v =>
  match stage v with
  | DataIn (w :: ws) rest => Ret w (next_in ws rest DELAY v)
  | _ => Ret 0 v
  end.
Definition sim_outw (q w : Z) : ST View unit := fun v =>
  match stage v with
  | DataOut lba ws n => Ret tt (next_out lba (ws ++ [w]) n DELAY v)
  | _ => Ret tt v
  end.
Definition sim_outb (q x : Z) : ST View unit := fun v =>
  if q =? PRIMARY_BASE + REG_STATUS then
    match take (transfer_count v) (drop (address v) (disk v)) with
    | bs :: rest =>
        Ret tt (at_stage (if x =? CMD_READ then DataIn (sector_words bs) rest
                          else DataOut (address v) [] (transfer_count v)) DELAY v)
    | [] => Ret tt (at_stage Failed DELAY v)
    end
  else Ret tt (set_reg (q - PRIMARY_BASE) x v).
Global Instance sim_controller : Controller View := {| inb := sim_inb; inw := sim_inw; outb := sim_outb; outw := sim_outw |}.
Lemma transfer_count_pos v : in_u 8 (count_reg v) -> (0 < transfer_count v)%nat.
Proof. unfold transfer_count, in_u. destruct (Z.eqb_spec (count_reg v) 0); lia. Qed.
Definition sim_shows (v q : View) : Prop := q = v /\ in_u 8 (count_reg v).
#[refine] Global Instance sim_drive : Drive View PRIMARY_BASE true := {| shows := sim_shows |}.
Proof.
  - intros v p r x [-> Hc] Hr Hin Hx. unfold wp, outb, sim_controller, sim_outb.
    assert (PRIMARY_BASE + r =? PRIMARY_BASE + REG_STATUS = false) as ->.
    { apply Z.eqb_neq. rewrite !elem_of_cons, elem_of_nil in Hin. unfold REG_STATUS, REG_SECTOR_COUNT, REG_LBA_LO, REG_LBA_MID, REG_LBA_HI, REG_DRIVE in *. lia. }
    replace (PRIMARY_BASE + r - PRIMARY_BASE) with r by lia. split; [done|]. cbn [count_reg set_reg]. by case_match.
  - intros v p [-> Hc] Hr Hs Hl. unfold wp, outb, sim_controller, sim_outb. rewrite Z.eqb_refl. pose proof (transfer_count_pos v Hc).
    destruct (take _ _) as [|bs rest] eqn:E; [apply (f_equal length) in E; rewrite length_take, length_drop in E; simpl in E; lia|].
    exists bs, rest, DELAY. split; [unfold DELAY, LIMIT; lia|]. done.
  - intros v p [-> Hc] Hr Hs Hl. unfold wp, outb, sim_controller, sim_outb. rewrite Z.eqb_refl. pose proof (transfer_count_pos v Hc).
    destruct (take _ _) as [|bs rest] eqn:E; [apply (f_equal length) in E; rewrite length_take, length_drop in E; simpl in E; lia|].
    exists DELAY. split; [unfold DELAY, LIMIT; lia|]. done.
  - intros v p cmd [-> Hc] Hr Hs Hcmd Hl. unfold wp, outb, sim_controller, sim_outb. rewrite Z.eqb_refl.
    rewrite drop_ge, take_nil by done. exists DELAY. split; [unfold DELAY, LIMIT; lia|]. done.
  - intros v p k [-> Hc] Hp. unfold wp, inb, sim_controller, sim_inb. rewrite Z.eqb_refl, Hp. done.
  - intros v p [-> Hc] Hp. unfold wp, inb, sim_controller, sim_inb. rewrite Z.eqb_refl, Hp. unfold status_value. by destruct (stage v).
  - intros v p w ws rest [-> Hc] Hs Hp. unfold wp, inw, sim_controller, sim_inw. rewrite Hs. split; [done|].
    exists DELAY. split; [unfold DELAY, LIMIT; lia|]. split; [done|]. by destruct ws, rest.
  - intros v p lba ws left w [-> Hc] Hs Hp Hw. unfold wp, outw, sim_controller, sim_outw. rewrite Hs.
    exists DELAY. split; [unfold DELAY, LIMIT; lia|]. split; [done|]. unfold next_out. by case_decide.
Defined.
Definition sim_disk : list (list Z) := replicate 4 (replicate 512 7).
Definition sim_view : View := mk_view sim_disk 0 0 0 0 0 Idle 0.
Definition sim_device : AtaDevice := mk_device PRIMARY_BASE true true false false 4 (replicate 40 32).
Lemma sim_idle : idle_on (P := View) sim_disk sim_view.
Proof.
  exists sim_view. split; [by split|]. split; [by split; [left|]|]. split; [done|].
  apply Forall_replicate. split; [|done]. apply Forall_replicate. unfold in_u. lia.
Qed.
Lemma driver_serves_requests_witness :
  exists p', serve_all sim_device [Write 1 2 (replicate 1024 9); Read 2 1 512; Read 9 1 512; Read 0 0 512] sim_view =
    Ret [Ok []; Ok (replicate 512 9); Err "ATA: drive error"%string; Err "invalid read request"%string] p'.
Proof.
  destruct (driver_serves_requests sim_device sim_disk sim_view [Write 1 2 (replicate 1024 9); Read 2 1 512; Read 9 1 512; Read 0 0 512])
    as (p' & E & _).
  - by split_and!.
  - apply sim_idle.
  - change (length sim_disk) with 4%nat. rewrite !Forall_cons. cbn [request_ok]. split_and!; try lia; [|by constructor].
    apply Forall_replicate. unfold in_u. lia.
  - exists p'. rewrite E. vm_compute. reflexivity.
Defined.
