(* ===== verification/Fat.v ===== *)
(** * The FAT32 file system: data and operations, [fat.rs]

    The driver keeps the file allocation table in memory, walks and edits
    cluster chains there, reads and writes directory and data sectors on the
    block device, and writes the changed table sectors back at the end of each
    operation.  Every function of the module is here; loops carry the source's
    own guard as fuel. *)
From S2P Require Import Prelude Bytes Text Disk Rtc.

Inductive FatError :=
| NoDisk | Io (e : string) | InvalidVolume | NotFound | NotDir | AlreadyExists | NotEmpty
| InvalidName | OutOfSpace | Corrupt.

Definition EOF_MARK : Z := 0x0FFFFFFF.
Definition CLUSTER_MASK : Z := 0x0FFFFFFF.
Definition CHAIN_GUARD : Z := 1000000.
Definition MAX_NAME : Z := 128.

Record DirEntry := MkDirEntry {
  name : str; is_dir : bool; size : Z; first_cluster : Z; location : Z * Z }.

(** ** Names *)
Definition len_utf8 (s : str) : Z := Z.of_nat (length (as_bytes s)).
Definition validate_name (n : str) : result FatError unit :=
  if negb (nonempty n) || (MAX_NAME <? len_utf8 n) || bool_decide (head n = Some 46) ||
     existsb (fun c => is_ascii_control c || (c =? 47)) n
  then Err InvalidName else Ok tt.
Definition is_sfn_char (b : Z) : bool :=
  is_ascii_alphanumeric b || existsb (Z.eqb b) (bytes_of "$%'-_@~`!(){}^#&").
(** The two filtering loops of [make_sfn]: the first [n] acceptable bytes,
    upper case, space padded. *)
Definition sfn_field (n : nat) (bs : list Z) : list Z :=
  let kept := take n (to_ascii_uppercase <$> filter (fun b => is_sfn_char b = true) bs) in
  kept ++ replicate (n - length kept) 32.
(** [name.rfind('.')] splits the name. *)
Fixpoint rsplit_dot (s : str) : option (str * str) :=
  match s with
  | [] => None
  | c :: s =>
      match rsplit_dot s with
      | Some (a, b) => Some (c :: a, b)
      | None => if c =? 46 then Some ([], s) else None
      end
  end.
Definition make_sfn (n : str) : list Z :=
  let (stem, ext) := default (n, []) (rsplit_dot n) in
  sfn_field 8 (as_bytes stem) ++ sfn_field 3 (as_bytes ext).
Definition sfn_checksum (sfn : list Z) : Z :=
  foldl (fun sum b => u8 (Z.lor (u8 (Z.shiftl (Z.land sum 1) 7)) (Z.shiftr sum 1) + b)) 0 sfn.

Definition le16 (v : Z) : list Z := [v mod 256; v / 256].
(** The thirteen characters of a long-name entry at 1, 14 and 28. *)
Definition lfn_entry_bytes (seq : Z) (part : list Z) (is_last : bool) (checksum : Z) : list Z :=
  [Z.lor seq (if is_last then 0x40 else 0)] ++ (take 5 part ≫= le16) ++ [0x0F; 0; checksum] ++
  (take 6 (drop 5 part) ≫= le16) ++ [0; 0] ++ (drop 11 part ≫= le16).
(** The [i]-th chunk of thirteen characters, padded with 0xFFFF, the last one
    terminated by 0 when it has room. *)
Definition lfn_part (chars : list Z) (i : nat) (is_last : bool) : list Z :=
  let chunk := take 13 (drop (i * 13) chars) in
  let n := length chunk in
  if is_last && (n <? 13)%nat then chunk ++ 0 :: replicate (12 - n) 0xFFFF
  else chunk ++ replicate (13 - n) 0xFFFF.
Definition lfn_chars (n : str) : list Z := u16 <$> n.
Definition lfn_count (n : str) : nat := Z.to_nat (div_ceil (Z.of_nat (length n)) 13).
Definition lfn_entries (n : str) (checksum : Z) : list (list Z) :=
  (fun i => lfn_entry_bytes (u8 (Z.of_nat i + 1)) (lfn_part (lfn_chars n) i (i =? lfn_count n - 1)%nat)
              (i =? lfn_count n - 1)%nat checksum) <$> rev (seq 0 (lfn_count n)).

Definition fat_datetime (dt : DateTime) : Z * Z :=
  let yr := Z.min (saturating_sub (year dt) 1980) 127 in
  (Z.lor (Z.lor (u16 (Z.shiftl yr 9)) (Z.shiftl (Z.land (month dt) 0x0F) 5)) (Z.land (day dt) 0x1F),
   Z.lor (Z.lor (Z.shiftl (Z.land (hour dt) 0x1F) 11) (Z.shiftl (Z.land (minute dt) 0x3F) 5))
         (Z.land (second dt / 2) 0x1F)).
Definition sfn_entry (n : str) (cluster sz : Z) (dir : bool) (now : DateTime) : list Z :=
  let (date, time) := fat_datetime now in
  make_sfn n ++ [if dir then 0x10 else 0x20; 0; 0] ++ le_split 2 time ++ le_split 2 date ++
  le_split 2 date ++ le_split 2 (u16 (Z.shiftr cluster 16)) ++ le_split 2 time ++ le_split 2 date ++
  le_split 2 (Z.land cluster 0xFFFF) ++ le_split 4 sz.
Definition dir_entries (n : str) (cluster sz : Z) (dir : bool) (now : DateTime) : list (list Z) :=
  lfn_entries n (sfn_checksum (make_sfn n)) ++ [sfn_entry n cluster sz dir now].

Definition name_matches (entry_name needle : str) : bool := eq_ignore_ascii_case entry_name needle.
(** [position(|b| b == b' ').unwrap_or(len)] gives the prefix without spaces. *)
Fixpoint until_space (bs : list Z) : list Z :=
  match bs with [] => [] | b :: bs => if b =? 32 then [] else b :: until_space bs end.
Definition sfn_name (sfn : list Z) : str :=
  let stem := until_space (take 8 sfn) in
  let ext := until_space (drop 8 sfn) in
  from_utf8_lossy stem ++ (match ext with [] => [] | _ => 46 :: from_utf8_lossy ext end).
Fixpoint assemble_chars (cs : list Z) : str :=
  match cs with
  | [] => []
  | c :: cs => if (c =? 0) || (c =? 0xFFFF) then [] else (if c <? 0x80 then c else 63) :: assemble_chars cs
  end.
Definition assemble_lfn (parts : list (list Z)) : str := assemble_chars (concat parts).

(** ** Directory slots *)
Definition byte_at (bs : list Z) (i : nat) : Z := bs !!! i.
Definition word_at (bs : list Z) (i : nat) : Z := le_combine (take 2 (drop i bs)).
(** The name characters of a long-name slot. *)
Definition slot_part (slot : list Z) : list Z :=
  (word_at slot <$> [1; 3; 5; 7; 9]%nat) ++ (word_at slot <$> [14; 16; 18; 20; 22; 24]%nat) ++
  (word_at slot <$> [28; 30]%nat).
Inductive slot_outcome :=
| EndOfDirectory
| Continue (lfn_parts : list (list Z)) (entry : option DirEntry).
(** The body of the [while offset < 512] loop of [read_dir]. *)
Definition read_slot (slot : list Z) (loc : Z * Z) (lfn_parts : list (list Z)) : slot_outcome :=
  let first := byte_at slot 0 in
  if first =? 0x00 then EndOfDirectory
  else if first =? 0xE5 then Continue [] None
  else
    let attr := byte_at slot 0x0B in
    if attr =? 0x0F then Continue (slot_part slot :: lfn_parts) None
    else
      let n := match lfn_parts with [] => sfn_name (take 11 slot) | _ => assemble_lfn lfn_parts end in
      let cluster := Z.lor (Z.shiftl (word_at slot 0x14) 16) (word_at slot 0x1A) in
      let sz := le_combine (take 4 (drop 0x1C slot)) in
      let keep := nonempty n && negb (bool_decide (n = [46])) && negb (bool_decide (n = [46; 46])) in
      Continue [] (if keep then Some (MkDirEntry n (is_set attr 0x10) sz cluster loc) else None).
Definition slot_at (sector : list Z) (i : nat) : list Z := take 32 (drop (32 * i) sector).
Definition free_slot (sector : list Z) (i : nat) : bool :=
  (byte_at (slot_at sector i) 0 =? 0x00) || (byte_at (slot_at sector i) 0 =? 0xE5).

(** ** The mounted volume *)
Section fat.
Context {D : Type} `{BlockDevice D}.
(** The reading of the clock ([rtc::now]) when the machine is in a given state. *)
Context (rtc_now : D -> DateTime).

Record Fat32 := MkFat32 {
  device : D;
  sectors_per_cluster : Z;
  reserved_sectors : Z;
  fat_count : Z;
  fat_size_sectors : Z;
  root_cluster : Z;
  first_data_sector : Z;
  total_sectors : Z;
  fat : list Z;
  fat_dirty : list bool;
  free_clusters : Z
}.
Definition with_device (d : D) (s : Fat32) : Fat32 :=
  MkFat32 d (sectors_per_cluster s) (reserved_sectors s) (fat_count s) (fat_size_sectors s)
    (root_cluster s) (first_data_sector s) (total_sectors s) (fat s) (fat_dirty s) (free_clusters s).
Definition with_fat (f : list Z) (dirty : list bool) (s : Fat32) : Fat32 :=
  MkFat32 (device s) (sectors_per_cluster s) (reserved_sectors s) (fat_count s) (fat_size_sectors s)
    (root_cluster s) (first_data_sector s) (total_sectors s) f dirty (free_clusters s).
Definition with_free (n : Z) (s : Fat32) : Fat32 :=
  MkFat32 (device s) (sectors_per_cluster s) (reserved_sectors s) (fat_count s) (fat_size_sectors s)
    (root_cluster s) (first_data_sector s) (total_sectors s) (fat s) (fat_dirty s) n.

Definition FS : Type -> Type := STR Fat32 FatError.

(** [self.device.read_sectors(lba, 1, &mut sector).map_err(FatError::Io)?] *)
Definition dev_read (lba : Z) : FS (list Z) := fun s => Ret (map_err Io (read_sector (device s) lba)) s.
Definition dev_write (lba : Z) (bs : list Z) : FS unit := fun s =>
  let (r, d) := write_sector (device s) lba bs in Ret (map_err Io r) (with_device d s).

Definition is_power_of_two (x : Z) : bool := negb (x =? 0) && (x =? 2 ^ Z.log2 x).
(** The FAT read sector by sector, [n] sectors left. *)
Fixpoint load_fat (d : D) (n : nat) (lba : Z) : result string (list Z) :=
  match n with
  | O => Ok []
  | S n =>
      buf ← read_sector d lba;
      rest ← load_fat d n (u32 (lba + 1));
      mret (((fun j => le_combine (take 4 (drop (4 * j) buf))) <$> seq 0 128) ++ rest)
  end.
Definition open (d : D) : result FatError Fat32 :=
  sector ← map_err Io (read_sector d 0);
  let field o n := le_combine (take n (drop o sector)) in
  let bytes_per_sector := field 0x0B%nat 2%nat in
  let spc := byte_at sector 0x0D in
  let reserved := field 0x0E%nat 2%nat in
  let count := byte_at sector 0x10 in
  let total := field 0x20%nat 4%nat in
  let fat_size := field 0x24%nat 4%nat in
  let root := field 0x2C%nat 4%nat in
  if negb (bytes_per_sector =? 512) || (spc =? 0) || negb (is_power_of_two spc) ||
     negb (byte_at sector 0x1FE =? 0x55) || negb (byte_at sector 0x1FF =? 0xAA) ||
     (fat_size =? 0) || (root <? 2) || (total =? 0)
  then Err InvalidVolume
  else
    let first_data := u32 (reserved + u32 (count * fat_size)) in
    table ← map_err Io (load_fat d (Z.to_nat fat_size) reserved);
    mret (MkFat32 d spc reserved count fat_size root first_data total table
            (replicate (Z.to_nat fat_size) false) 0).

Definition cluster_to_sector (s : Fat32) (cluster : Z) : Z :=
  u32 (first_data_sector s + u32 (u32 (cluster - 2) * sectors_per_cluster s)).
Definition sector_of (cluster i : Z) : FS Z := fun s => Ret (Ok (cluster_to_sector s cluster + i)) s.
(** [self.fat[cluster as usize] & CLUSTER_MASK]: a panic outside the table. *)
Definition next_cluster (cluster : Z) : FS Z := fun s =>
  match fat s !! Z.to_nat cluster with
  | Some v => Ret (Ok (Z.land v CLUSTER_MASK)) s
  | None => Panic
  end.
Definition is_eof (cluster : Z) : bool := EOF_MARK <=? cluster.
Definition spc : FS Z := fun s => Ret (Ok (sectors_per_cluster s)) s.

(** ** Directories *)
(** The slots of one sector from slot [i] on, [n] left; [true] at the end mark. *)
Fixpoint read_dir_slots (n : nat) (sector : list Z) (cluster base : Z) (i : nat)
    (lfn_parts : list (list Z)) (out : list DirEntry) : bool * list (list Z) * list DirEntry :=
  match n with
  | O => (false, lfn_parts, out)
  | S n =>
      match read_slot (slot_at sector i) (cluster, base + 32 * Z.of_nat i) lfn_parts with
      | EndOfDirectory => (true, lfn_parts, out)
      | Continue lfn e => read_dir_slots n sector cluster base (S i) lfn (out ++ option_list e)
      end
  end.
(** [for s in 0..self.sectors_per_cluster], [n] sectors left. *)
Fixpoint read_dir_sectors (n : nat) (cluster i : Z) (lfn_parts : list (list Z)) (out : list DirEntry) :
    FS (bool * list (list Z) * list DirEntry) :=
  match n with
  | O => mret (false, lfn_parts, out)
  | S n =>
      lba ← sector_of cluster i;
      sector ← dev_read lba;
      let '(ended, lfn, out) := read_dir_slots 16 sector cluster (i * 512) 0 lfn_parts out in
      if ended : bool then mret (true, lfn, out)
      else read_dir_sectors n cluster (i + 1) lfn out
  end.
Fixpoint read_dir_loop (fuel : nat) (current guard : Z) (lfn_parts : list (list Z)) (out : list DirEntry) :
    FS (list DirEntry) :=
  match fuel with
  | O => throw Corrupt
  | S fuel =>
      n ← spc;
      r ← read_dir_sectors (Z.to_nat n) current 0 lfn_parts out;
      let '(ended, lfn, out) := r in
      if ended : bool then mret out else
      next ← next_cluster current;
      if is_eof next then mret out
      else if (next <? 2) || (CHAIN_GUARD <? guard + 1) then throw Corrupt
      else read_dir_loop fuel next (guard + 1) lfn out
  end.
(** The guard ends the loop before this many iterations. *)
Definition CHAIN_FUEL : nat := Z.to_nat (CHAIN_GUARD + 2).
Definition read_dir (cluster : Z) : FS (list DirEntry) := read_dir_loop CHAIN_FUEL cluster 0 [] [].

(** ** File contents *)
(** The sectors of one cluster, [n] left; the bytes and what remains. *)
Fixpoint read_file_sectors (n : nat) (cluster i : Z) (remaining : Z) (data : list Z) : FS (list Z * Z) :=
  match n with
  | O => mret (data, remaining)
  | S n =>
      lba ← sector_of cluster i;
      sector ← dev_read lba;
      let k := Z.min remaining 512 in
      let data := data ++ take (Z.to_nat k) sector in
      if remaining - k =? 0 then mret (data, 0)
      else read_file_sectors n cluster (i + 1) (remaining - k) data
  end.
Fixpoint read_file_loop (fuel : nat) (cluster guard remaining : Z) (data : list Z) : FS (list Z) :=
  if remaining <=? 0 then mret data else
  match fuel with
  | O => throw Corrupt
  | S fuel =>
      if (cluster <? 2) || (CHAIN_GUARD <? guard) then throw Corrupt else
      n ← spc;
      r ← read_file_sectors (Z.to_nat n) cluster 0 remaining data;
      next ← next_cluster cluster;
      if (0 <? snd r) && is_eof next then throw Corrupt
      else read_file_loop fuel next (guard + 1) (snd r) (fst r)
  end.
Definition read_file_data (first_cluster size : Z) : FS (list Z) :=
  if size =? 0 then mret [] else read_file_loop CHAIN_FUEL first_cluster 0 size [].

(** ** Paths *)
Definition components (path : str) : list str := filter (fun c => nonempty c = true) (split_on (Z.eqb 47) path).
Fixpoint walk_dirs (parts : list str) (cluster : Z) : FS Z :=
  match parts with
  | [] => mret cluster
  | comp :: parts =>
      entries ← read_dir cluster;
      match find (fun e => is_dir e && name_matches (name e) comp) entries with
      | Some dir => walk_dirs parts (first_cluster dir)
      | None => throw NotFound
      end
  end.
Definition root : FS Z := fun s => Ret (Ok (root_cluster s)) s.
Definition resolve_parent (path : str) : FS (Z * str) :=
  match rev (components path) with
  | [] => throw InvalidName
  | n :: parts =>
      if MAX_NAME <? len_utf8 n then throw InvalidName else
      r ← root;
      cluster ← walk_dirs (rev parts) r;
      mret (cluster, n)
  end.
(** Errors of [read_dir] are swallowed by [.ok()?]. *)
Definition find_dir_entry (parent : Z) (n : str) : FS (option DirEntry) := fun s =>
  match read_dir parent s with
  | Ret (Ok entries) s => Ret (Ok (find (fun e => name_matches (name e) n) entries)) s
  | Ret (Err _) s => Ret (Ok None) s
  | Panic => Panic
  end.

Definition scan_free_clusters (s : Fat32) : Fat32 :=
  with_free (Z.of_nat (length (filter (fun e => Z.land e CLUSTER_MASK = 0) (drop 2 (fat s))))) s.

(** ** Cluster chains *)
Definition set_cluster (cluster value : Z) : FS unit := fun s =>
  if decide (Z.to_nat cluster < length (fat s) /\ Z.to_nat cluster / 128 < length (fat_dirty s))%nat
  then Ret (Ok tt) (with_fat (<[Z.to_nat cluster := value]> (fat s))
                             (<[(Z.to_nat cluster / 128)%nat := true]> (fat_dirty s)) s)
  else Panic.
Definition set_free (f : Z -> Z) : FS unit := fun s => Ret (Ok tt) (with_free (f (free_clusters s)) s).
(** The first free entry from [i] on. *)
Fixpoint scan_free (entries : list Z) (i : Z) : option Z :=
  match entries with
  | [] => None
  | e :: entries => if Z.land e CLUSTER_MASK =? 0 then Some i else scan_free entries (i + 1)
  end.
Definition alloc_cluster : FS Z := fun s =>
  match scan_free (drop 2 (fat s)) 2 with
  | Some cluster =>
      (set_cluster cluster EOF_MARK;; set_free (fun n => saturating_sub n 1);; mret cluster) s
  | None => Ret (Err OutOfSpace) s
  end.
Fixpoint free_chain_loop (fuel : nat) (cluster guard : Z) : FS unit :=
  if is_eof cluster then mret tt else
  match fuel with
  | O => throw Corrupt
  | S fuel =>
      if (cluster <? 2) || (CHAIN_GUARD <? guard) then throw Corrupt else
      next ← next_cluster cluster;
      set_cluster cluster 0;;
      set_free (fun n => u32 (n + 1));;
      free_chain_loop fuel next (guard + 1)
  end.
Definition free_chain (cluster : Z) : FS unit := free_chain_loop CHAIN_FUEL cluster 0.

Definition volume : FS Fat32 := fun s => Ret (Ok s) s.
Definition update (f : Fat32 -> Fat32) : FS unit := fun s => Ret (Ok tt) (f s).
(** The bytes of the [i]-th table sector. *)
Definition fat_sector (table : list Z) (i : nat) : list Z :=
  take 128 (drop (i * 128) table) ≫= le_split 4.
Fixpoint flush_fat_loop (n i : nat) : FS unit :=
  match n with
  | O => mret tt
  | S n =>
      s ← volume;
      (if default false (fat_dirty s !! i) then
         dev_write (u32 (reserved_sectors s + Z.of_nat i)) (fat_sector (fat s) i);;
         update (fun s => with_fat (fat s) (<[i := false]> (fat_dirty s)) s)
       else mret tt);;
      flush_fat_loop n (S i)
  end.
Definition flush_fat : FS unit := fun s => flush_fat_loop (length (fat_dirty s)) 0 s.

Definition cluster_bytes (s : Fat32) : Z := sectors_per_cluster s * 512.

(** ** Directory entries *)
(** [sector[o] = v] *)
Definition set_byte (o : nat) (v : Z) (sector : list Z) : list Z := <[o := v]> sector.
(** The [while back >= 32] loop: long-name slots before slot [k]. *)
Fixpoint delete_lfn (k : nat) (sector : list Z) : list Z :=
  match k with
  | O => sector
  | S k =>
      if byte_at sector (32 * k + 0x0B) =? 0x0F
      then delete_lfn k (set_byte (32 * k) 0xE5 sector) else sector
  end.
Definition delete_entry_at (cluster offset : Z) : FS unit :=
  lba ← sector_of cluster (offset / 512);
  let slot_offset := Z.to_nat (offset mod 512) in
  sector ← dev_read lba;
  dev_write lba (delete_lfn (slot_offset / 32) (set_byte slot_offset 0xE5 sector)).

(** The slots of a sector from [i] on: the start of the first run of [slots]
    free ones, given the length of the run that ends before [i].  The offset
    returned is the one within the sector, whichever sector of the cluster it
    was found in. *)
Fixpoint find_run (n : nat) (sector : list Z) (i run slots : nat) : option nat :=
  match n with
  | O => None
  | S n =>
      let run := if free_slot sector i then S run else O in
      if decide (run = slots) then Some (S i - slots)%nat
      else find_run n sector (S i) run slots
  end.
Fixpoint find_free_sectors (n : nat) (cluster i : Z) (slots : nat) : FS (option (Z * Z)) :=
  match n with
  | O => mret None
  | S n =>
      lba ← sector_of cluster i;
      sector ← dev_read lba;
      match find_run 16 sector 0 0 slots with
      | Some k => mret (Some (cluster, 32 * Z.of_nat k))
      | None => find_free_sectors n cluster (i + 1) slots
      end
  end.

Fixpoint find_free_loop (fuel : nat) (current guard : Z) (slots : nat) : FS (option (Z * Z)) :=
  match fuel with
  | O => throw Corrupt
  | S fuel =>
      n ← spc;
      place ← find_free_sectors (Z.to_nat n) current 0 slots;
      match place with
      | Some p => mret (Some p)
      | None =>
          next ← next_cluster current;
          if is_eof next then mret None
          else if CHAIN_GUARD <? guard + 1 then throw Corrupt
          else find_free_loop fuel next (guard + 1) slots
      end
  end.
Definition find_free_run (parent : Z) (slots : nat) : FS (option (Z * Z)) :=
  find_free_loop CHAIN_FUEL parent 0 slots.

Fixpoint last_cluster (fuel : nat) (current guard : Z) : FS Z :=
  match fuel with
  | O => throw Corrupt
  | S fuel =>
      next ← next_cluster current;
      if is_eof next then mret current
      else if CHAIN_GUARD <? guard + 1 then throw Corrupt
      else last_cluster fuel next (guard + 1)
  end.
Fixpoint zero_sectors (n : nat) (cluster i : Z) : FS unit :=
  match n with
  | O => mret tt
  | S n =>
      lba ← sector_of cluster i;
      dev_write lba (replicate SECTOR 0);;
      zero_sectors n cluster (i + 1)
  end.
Definition extend_dir (parent : Z) : FS Z :=
  new_cluster ← alloc_cluster;
  current ← last_cluster CHAIN_FUEL parent 0;
  set_cluster current new_cluster;;
  n ← spc;
  zero_sectors (Z.to_nat n) new_cluster 0;;
  mret new_cluster.

(** [sector[a..].copy_from_slice]: the entries over the slots from [k] on. *)
Definition place_entries (sector : list Z) (offset : nat) (entries : list (list Z)) : option (list Z) :=
  splice sector offset (concat entries).
Definition write_dir_entries (parent : Z) (n : str) (cluster sz : Z) (dir : bool) : FS unit :=
  s ← volume;
  let entries := dir_entries n cluster sz dir (rtc_now (device s)) in
  run ← find_free_run parent (length entries);
  place ← match run with
          | Some place => mret place
          | None => c ← extend_dir parent; mret (c, 0)
          end;
  lba ← sector_of (fst place) (snd place / 512);
  sector ← dev_read lba;
  match place_entries sector (Z.to_nat (snd place mod 512)) entries with
  | Some sector => dev_write lba sector
  | None => fun _ => Panic
  end.

(** ** Whole operations *)
Fixpoint alloc_clusters (n : nat) : FS (list Z) :=
  match n with
  | O => mret []
  | S n => c ← alloc_cluster; cs ← alloc_clusters n; mret (c :: cs)
  end.
(** The links of a new chain, the last one the end mark. *)
Fixpoint link_clusters (cs : list Z) : FS unit :=
  match cs with
  | [] => mret tt
  | [c] => set_cluster c EOF_MARK
  | c :: (c' :: _) as cs => set_cluster c c';; link_clusters cs
  end.
(** The contents into the sectors of one cluster; what remains of them. *)
Fixpoint write_sectors (n : nat) (cluster i : Z) (content : list Z) : FS (list Z) :=
  match n with
  | O => mret content
  | S n =>
      let chunk := take 512 content in
      lba ← sector_of cluster i;
      dev_write lba (chunk ++ replicate (512 - length chunk) 0);;
      match drop 512 content with
      | [] => mret []
      | rest => write_sectors n cluster (i + 1) rest
      end
  end.
Fixpoint write_clusters (cs : list Z) (content : list Z) : FS unit :=
  match cs with
  | [] => mret tt
  | c :: cs =>
      n ← spc;
      rest ← write_sectors (Z.to_nat n) c 0 content;
      match rest with [] => mret tt | _ => write_clusters cs rest end
  end.

Definition write_file_impl (path : str) (content : list Z) : FS unit :=
  r ← resolve_parent path;
  let (parent, n) := r : Z * str in
  lift_res (validate_name n);;
  existing ← find_dir_entry parent n;
  match existing with
  | Some e =>
      if is_dir e then throw NotDir else
      delete_entry_at (fst (location e)) (snd (location e));;
      (if negb (first_cluster e =? 0) then free_chain (first_cluster e) else mret tt)
  | None => mret tt
  end;;
  s ← volume;
  let needed := Z.to_nat (div_ceil (Z.of_nat (length content)) (cluster_bytes s)) in
  cs ← alloc_clusters needed;
  link_clusters cs;;
  write_clusters cs content;;
  write_dir_entries parent n (default 0 (head cs)) (u32 (Z.of_nat (length content))) false;;
  flush_fat.

(** The sector a new directory starts with. *)
Definition dot_entry (n : list Z) (cluster : Z) : list Z :=
  n ++ [0x10] ++ replicate 8 0 ++ le_split 2 (u16 (Z.shiftr cluster 16)) ++ replicate 4 0 ++
  le_split 2 (Z.land cluster 0xFFFF) ++ replicate 4 0.
Definition dot_sector (cluster parent : Z) : list Z :=
  dot_entry (bytes_of ".          ") cluster ++ dot_entry (bytes_of "..         ") parent ++ replicate 448 0.
Definition make_dir_impl (path : str) : FS unit :=
  r ← resolve_parent path;
  let (parent, n) := r : Z * str in
  lift_res (validate_name n);;
  existing ← find_dir_entry parent n;
  match existing with
  | Some _ => throw AlreadyExists
  | None =>
      cluster ← alloc_cluster;
      set_cluster cluster EOF_MARK;;
      lba ← sector_of cluster 0;
      dev_write lba (dot_sector cluster parent);;
      write_dir_entries parent n cluster 0 true;;
      flush_fat
  end.

Definition remove_impl (path : str) : FS unit :=
  r ← resolve_parent path;
  let (parent, n) := r : Z * str in
  found ← find_dir_entry parent n;
  match found with
  | None => throw NotFound
  | Some e =>
      (if is_dir e then
         contents ← read_dir (first_cluster e);
         match contents with [] => mret tt | _ => throw NotEmpty end
       else mret tt);;
      delete_entry_at (fst (location e)) (snd (location e));;
      (if negb (first_cluster e =? 0) then free_chain (first_cluster e) else mret tt);;
      flush_fat
  end.

Definition rename_impl (path new_name : str) : FS unit :=
  r ← resolve_parent path;
  let (parent, n) := r : Z * str in
  lift_res (validate_name new_name);;
  if bool_decide (n = new_name) then mret tt else
  found ← find_dir_entry parent n;
  match found with
  | None => throw NotFound
  | Some e =>
      clash ← find_dir_entry parent new_name;
      match clash with
      | Some _ => throw AlreadyExists
      | None =>
          delete_entry_at (fst (location e)) (snd (location e));;
          write_dir_entries parent new_name (first_cluster e) (size e) (is_dir e);;
          flush_fat
      end
  end.

(** ** The module's interface, on [MOUNTED] *)
Definition VOL : Type -> Type := STR (option Fat32) FatError.
Definition mounted_fat {A} (f : FS A) : VOL A := fun v =>
  match v with
  | None => Ret (Err NoDisk) None
  | Some s => match f s with Ret r s' => Ret r (Some s') | Panic => Panic end
  end.
Definition mounted (v : option Fat32) : bool := match v with Some _ => true | None => false end.
(** [ata] is [ata::device(0)] without the absent and the ATAPI ones. *)
Definition mount (ata : option D) : VOL unit := fun v =>
  match ata with
  | None => Ret (Err NoDisk) v
  | Some d =>
      match open d with
      | Ok s => Ret (Ok tt) (Some (scan_free_clusters s))
      | Err e => Ret (Err e) v
      end
  end.

Record VolumeInfo := MkVolumeInfo {
  vi_total_sectors : Z; vi_sectors_per_cluster : Z; vi_fat_sectors : Z; vi_free_clusters : Z; vi_root_cluster : Z }.
Definition info (v : option Fat32) : option VolumeInfo :=
  (fun s => MkVolumeInfo (total_sectors s) (sectors_per_cluster s) (fat_size_sectors s)
              (free_clusters s) (root_cluster s)) <$> v.

Definition list_dir_impl (path : str) : FS (list DirEntry) :=
  r ← root; cluster ← walk_dirs (components path) r; read_dir cluster.
Definition list_dir (path : str) : VOL (list DirEntry) := mounted_fat (list_dir_impl path).
Definition read_file_impl (path : str) : FS (list Z) :=
  r ← resolve_parent path;
  let (parent, n) := r : Z * str in
  entries ← read_dir parent;
  match find (fun e => negb (is_dir e) && name_matches (name e) n) entries with
  | Some e => read_file_data (first_cluster e) (size e)
  | None => throw NotFound
  end.
Definition read_file (path : str) : VOL (list Z) := mounted_fat (read_file_impl path).
Definition write_file (path : str) (content : list Z) : VOL unit := mounted_fat (write_file_impl path content).
Definition make_dir (path : str) : VOL unit := mounted_fat (make_dir_impl path).
Definition remove (path : str) : VOL unit := mounted_fat (remove_impl path).
Definition rename (path new_name : str) : VOL unit := mounted_fat (rename_impl path new_name).
Definition is_dir_impl (path : str) : FS bool :=
  if bool_decide (path = [47]) then mret true else
  r ← resolve_parent path;
  let (parent, n) := r : Z * str in
  found ← find_dir_entry parent n;
  match found with Some e => mret (is_dir e) | None => throw NotFound end.
Definition path_is_dir (path : str) : VOL bool := mounted_fat (is_dir_impl path).

Definition move_file (src dst : str) : VOL unit :=
  if bool_decide (src = dst) then mret tt else
  dir ← path_is_dir src;
  if dir : bool then
    contents ← list_dir src;
    match contents with
    | [] => make_dir dst;; remove src
    | _ => throw NotEmpty
    end
  else
    data ← read_file src;
    write_file dst data;;
    remove src.
End fat.
Arguments Fat32 : clear implicits.
