(* ===== verification/FatChain.v ===== *)
(** * FAT32: cluster chains and the sectors behind them

    The geometry of a volume, the chains of its table, and what the loops over
    clusters and sectors read and write. *)
From S2P Require Import Prelude Bytes Text Disk Rtc Fat.

Section chains.
Context {D : Type} `{BlockDevice D}.
Abbreviation Fat32 := (Fat32 D).
Implicit Types (s : Fat32) (c l : Z) (cs : list Z).

Lemma fs_bind_ok {A B} (m : FS A) (k : A -> FS B) (s : Fat32) a (s' : Fat32) :
  m s = Ret (Ok a) s' -> (m ≫= k) s = k a s'.
Proof. apply str_bind_ok. Qed.

(** ** Geometry

    The table describes the clusters of the data region, which lies behind the
    table on the device. *)
Definition clusters s : Z := Z.of_nat (length (fat s)).
Record volume_wf s : Prop := {
  wf_spc : 1 <= sectors_per_cluster s;
  wf_table : length (fat s) = (128 * length (fat_dirty s))%nat;
  wf_some : 0 < clusters s;
  wf_entries : Forall (in_u 32) (fat s);
  wf_reserved : 1 <= reserved_sectors s;
  wf_region : reserved_sectors s + Z.of_nat (length (fat_dirty s)) <= first_data_sector s;
  wf_device : first_data_sector s + (clusters s - 2) * sectors_per_cluster s <= capacity (device s);
  wf_lba : capacity (device s) < 2 ^ 32;
  wf_eof : clusters s <= EOF_MARK
}.
Definition in_table s c : Prop := 2 <= c < clusters s.
(** The first sector of a cluster. *)
Definition base s c : Z := first_data_sector s + (c - 2) * sectors_per_cluster s.

Lemma base_bound s c i :
  volume_wf s -> in_table s c -> 0 <= i < sectors_per_cluster s ->
  first_data_sector s <= base s c + i < first_data_sector s + (clusters s - 2) * sectors_per_cluster s.
Proof. intros [] [? ?] ?. unfold base. nia. Qed.
Lemma cluster_to_sector_base s c :
  volume_wf s -> in_table s c -> cluster_to_sector s c = base s c.
Proof.
  intros Hwf Hc. pose proof Hwf as []. pose proof (base_bound s c 0 Hwf Hc ltac:(lia)) as Hb. destruct Hc.
  unfold cluster_to_sector, base in *.
  assert ((c - 2) * 1 <= (c - 2) * sectors_per_cluster s) by nia.
  rewrite (wrap_small 32 (c - 2)) by (unfold in_u; lia).
  rewrite (wrap_small 32 (_ * _)) by (unfold in_u; lia).
  apply wrap_small. unfold in_u. lia.
Qed.
Lemma base_inj s c c' i i' :
  volume_wf s -> in_table s c -> in_table s c' -> 0 <= i < sectors_per_cluster s -> 0 <= i' < sectors_per_cluster s ->
  base s c + i = base s c' + i' -> c = c' /\ i = i'.
Proof. intros [] [? ?] [? ?] ? ? ?. unfold base in *. assert (c = c') by nia. subst. split; [done|lia]. Qed.

(** The contents of a sector, [[]] where the device has none. *)
Definition sector s l : list Z := match read_sector (device s) l with Ok b => b | Err _ => [] end.
Lemma dev_read_ok s l : 0 <= l < capacity (device s) ->
  dev_read l s = Ret (Ok (sector s l)) s /\ sector_ok (sector s l).
Proof.
  intros Hl. unfold dev_read, sector. destruct (read_sector_ok (device s) l Hl) as (bs & E & Hb). by rewrite E.
Qed.

Lemma sector_of_run s c i :
  volume_wf s -> in_table s c -> sector_of c i s = Ret (Ok (base s c + i)) s.
Proof. intros. unfold sector_of. by rewrite cluster_to_sector_base. Qed.
Lemma spc_run s : spc s = Ret (Ok (sectors_per_cluster s)) s.
Proof. reflexivity. Qed.
Lemma volume_run s : volume s = Ret (Ok s) s.
Proof. reflexivity. Qed.
Lemma cluster_sector_ok s c i :
  volume_wf s -> in_table s c -> 0 <= i < sectors_per_cluster s ->
  dev_read (base s c + i) s = Ret (Ok (sector s (base s c + i))) s /\ sector_ok (sector s (base s c + i)).
Proof.
  intros Hwf Hc Hi. apply dev_read_ok. pose proof (base_bound s c i Hwf Hc Hi). destruct Hwf. lia.
Qed.

(** ** Chains *)
Definition link s c : Z := Z.land (fat s !!! Z.to_nat c) CLUSTER_MASK.
Lemma next_cluster_run s c : in_table s c -> next_cluster c s = Ret (Ok (link s c)) s.
Proof.
  intros [? ?]. unfold next_cluster, link, clusters in *.
  destruct (lookup_lt_is_Some_2 (fat s) (Z.to_nat c)) as [v E]; [lia|].
  by rewrite E, (list_lookup_total_correct _ _ _ E).
Qed.
(** [chain s cs]: [cs] is a chain of the table, from its first cluster to the end mark. *)
Fixpoint chain s cs : Prop :=
  match cs with
  | [] => False
  | [c] => in_table s c /\ is_eof (link s c) = true
  | c :: (c' :: _) as cs' => in_table s c /\ link s c = c' /\ is_eof c' = false /\ chain s cs'
  end.
Lemma chain_in_table s cs : chain s cs -> Forall (in_table s) cs.
Proof.
  induction cs as [|c [|c' cs] IH]; [done| |].
  - intros [? _]. by apply Forall_cons_2, Forall_nil_2.
  - intros (? & _ & _ & Hc). constructor; [done|]. by apply IH.
Qed.
Lemma chain_cons s c cs :
  chain s (c :: cs) -> in_table s c /\
  match cs with [] => is_eof (link s c) = true | c' :: _ => link s c = c' /\ is_eof c' = false /\ chain s cs end.
Proof. destruct cs; naive_solver. Qed.

(** The contents of a cluster. *)
Definition cluster_sectors s c : list (list Z) :=
  (fun i => sector s (base s c + Z.of_nat i)) <$> seq 0 (Z.to_nat (sectors_per_cluster s)).
Definition chain_bytes s cs : list Z := cs ≫= fun c => concat (cluster_sectors s c).
Lemma cluster_sectors_ok s c : volume_wf s -> in_table s c ->
  Forall (fun b => sector_ok b) (cluster_sectors s c).
Proof.
  intros Hwf Hc. apply Forall_fmap, Forall_forall. intros i Hi%list_elem_of_In%in_seq.
  apply cluster_sector_ok; [done|done|lia].
Qed.
Lemma length_concat_sectors (ss : list (list Z)) :
  Forall (fun b => sector_ok b) ss -> length (concat ss) = (SECTOR * length ss)%nat.
Proof.
  induction 1 as [|b ss [_ Hb] _ IH]; [done|]. cbn [concat length]. rewrite length_app, Hb, IH. lia.
Qed.
Lemma length_cluster s c : volume_wf s -> in_table s c ->
  length (concat (cluster_sectors s c)) = (SECTOR * Z.to_nat (sectors_per_cluster s))%nat.
Proof.
  intros. rewrite length_concat_sectors by by apply cluster_sectors_ok.
  unfold cluster_sectors. by rewrite length_fmap, length_seq.
Qed.
Lemma length_chain_bytes s cs : volume_wf s -> Forall (in_table s) cs ->
  length (chain_bytes s cs) = (length cs * (SECTOR * Z.to_nat (sectors_per_cluster s)))%nat.
Proof.
  intros Hwf. induction 1 as [|c cs Hc _ IH]; [done|].
  unfold chain_bytes in *. cbn [mbind list_bind length]. rewrite length_app, IH, length_cluster by done. lia.
Qed.

(** ** Reading a file along its chain *)
Definition sectors_from s c (i n : nat) : list (list Z) :=
  (fun j => sector s (base s c + Z.of_nat j)) <$> seq i n.

Lemma read_file_sectors_run s c n : forall i rem data,
  volume_wf s -> in_table s c -> (i + n <= Z.to_nat (sectors_per_cluster s))%nat -> 0 < rem ->
  read_file_sectors n c (Z.of_nat i) rem data s =
    Ret (Ok (data ++ take (Z.to_nat rem) (concat (sectors_from s c i n)),
             Z.max 0 (rem - 512 * Z.of_nat n))) s.
Proof.
  induction n as [|n IH]; intros i rem data Hwf Hc Hi Hrem.
  { cbn. rewrite take_nil, app_nil_r. unfold mret, str_ret. do 3 f_equal. lia. }
  cbn [read_file_sectors].
  rewrite (fs_bind_ok _ _ _ _ _ (sector_of_run s c _ Hwf Hc)).
  destruct (cluster_sector_ok s c (Z.of_nat i) Hwf Hc ltac:(lia)) as [Er [_ Hlen]].
  rewrite (fs_bind_ok _ _ _ _ _ Er).
  set (b := sector s (base s c + Z.of_nat i)) in *. unfold SECTOR in Hlen.
  assert (sectors_from s c i (S n) = b :: sectors_from s c (S i) n) as -> by reflexivity. cbn [concat].
  destruct (Z.eqb_spec (rem - rem `min` 512) 0) as [E|E].
  - unfold mret, str_ret. rewrite take_app_le by lia. do 3 f_equal; [do 2 f_equal; lia|lia].
  - replace (Z.of_nat i + 1) with (Z.of_nat (S i)) by lia.
    rewrite IH by (done || lia). rewrite take_app, <- app_assoc, Hlen.
    do 3 f_equal; [|lia]. do 2 f_equal; [rewrite !take_ge by lia; done|f_equal; lia].
Qed.

Lemma read_file_loop_run s cs : forall fuel c guard rem data,
  volume_wf s -> chain s (c :: cs) -> 0 <= rem -> 0 <= guard ->
  guard + Z.of_nat (length cs) <= CHAIN_GUARD -> (length cs < fuel)%nat ->
  rem <= 512 * sectors_per_cluster s * Z.of_nat (S (length cs)) ->
  read_file_loop fuel c guard rem data s =
    Ret (Ok (data ++ take (Z.to_nat rem) (chain_bytes s (c :: cs)))) s.
Proof.
  induction cs as [|c' cs IH]; intros fuel c guard rem data Hwf Hch Hrem Hg Hguard Hfuel Hle;
    (destruct fuel as [|fuel]; [cbn in *; lia|]); cbn [read_file_loop];
    (destruct (Z.leb_spec rem 0);
      [assert (rem = 0) as -> by lia; cbn; rewrite app_nil_r; reflexivity|]);
    destruct (chain_cons _ _ _ Hch) as [Hc Hn]; cbn [length] in *;
    (rewrite (proj2 (Z.ltb_ge c 2)), (proj2 (Z.ltb_ge CHAIN_GUARD guard)) by (unfold in_table in *; lia));
    cbn [orb]; pose proof (wf_spc s Hwf);
    (rewrite (fs_bind_ok _ _ _ _ _ (spc_run s)));
    (rewrite (fs_bind_ok _ _ _ _ _ (read_file_sectors_run s c (Z.to_nat (sectors_per_cluster s)) 0 rem data Hwf Hc ltac:(lia) ltac:(lia))));
    (rewrite (fs_bind_ok _ _ _ _ _ (next_cluster_run s c Hc))); cbn [fst snd];
    unfold chain_bytes; cbn [mbind list_bind];
    change (sectors_from s c 0 (Z.to_nat (sectors_per_cluster s))) with (cluster_sectors s c);
    pose proof (length_cluster s c Hwf Hc) as Hlc; unfold SECTOR in Hlc.
  - rewrite (proj2 (Z.ltb_ge 0 _)) by lia. cbn [andb]. rewrite app_nil_r.
    destruct fuel; cbn [read_file_loop]; rewrite (proj2 (Z.leb_le _ 0)) by lia; reflexivity.
  - destruct Hn as (-> & He & Hch'). rewrite He, andb_false_r.
    rewrite (IH fuel c' (guard + 1)) by (done || lia). rewrite take_app, <- app_assoc, Hlc.
    unfold chain_bytes. cbn [mbind list_bind]. do 6 f_equal; lia.
Qed.

(** The file of a given size along a chain long enough. *)
Theorem read_file_data_run s c cs size :
  volume_wf s -> chain s (c :: cs) -> Z.of_nat (length cs) <= CHAIN_GUARD ->
  0 <= size <= Z.of_nat (length (chain_bytes s (c :: cs))) ->
  read_file_data c size s = Ret (Ok (take (Z.to_nat size) (chain_bytes s (c :: cs)))) s.
Proof.
  intros Hwf Hch Hg Hs. unfold read_file_data. destruct (Z.eqb_spec size 0) as [->|]; [reflexivity|].
  rewrite length_chain_bytes in Hs by (done || by apply chain_in_table). unfold SECTOR in Hs.
  pose proof (wf_spc s Hwf). cbn [length] in Hs.
  apply (read_file_loop_run s cs CHAIN_FUEL c 0 size []); [done|done|lia|lia|lia| |nia].
  unfold CHAIN_FUEL. lia.
Qed.

(** ** What an operation leaves alone

    [evolves s s']: the geometry is the same, the volume is still well formed,
    and a table whose clean sectors agree with the device still does. *)
Record same_geometry s s' : Prop := {
  sg_spc : sectors_per_cluster s' = sectors_per_cluster s;
  sg_reserved : reserved_sectors s' = reserved_sectors s;
  sg_count : fat_count s' = fat_count s;
  sg_size : fat_size_sectors s' = fat_size_sectors s;
  sg_root : root_cluster s' = root_cluster s;
  sg_first : first_data_sector s' = first_data_sector s;
  sg_total : total_sectors s' = total_sectors s;
  sg_fat : length (fat s') = length (fat s);
  sg_dirty : length (fat_dirty s') = length (fat_dirty s);
  sg_capacity : capacity (device s') = capacity (device s)
}.
Definition clean_sector s i : Prop := sector s (reserved_sectors s + Z.of_nat i) = fat_sector (fat s) i.
Definition synced s : Prop := forall i, fat_dirty s !! i = Some false -> clean_sector s i.
Record evolves s s' : Prop := {
  ev_geometry : same_geometry s s';
  ev_wf : volume_wf s';
  ev_synced : synced s -> synced s'
}.

Lemma same_geometry_refl s : same_geometry s s.
Proof. by split. Qed.
Lemma same_geometry_trans s1 s2 s3 : same_geometry s1 s2 -> same_geometry s2 s3 -> same_geometry s1 s3.
Proof. intros [] []. split; congruence. Qed.
Lemma evolves_refl s : volume_wf s -> evolves s s.
Proof. intros. split; [apply same_geometry_refl|done|done]. Qed.
Lemma evolves_trans s1 s2 s3 : evolves s1 s2 -> evolves s2 s3 -> evolves s1 s3.
Proof. intros [] []. split; [by eapply same_geometry_trans|done|auto]. Qed.
Lemma wf_geometry s s' : volume_wf s -> same_geometry s s' -> Forall (in_u 32) (fat s') -> volume_wf s'.
Proof. intros [] [] ?. unfold clusters in *. split; unfold clusters; congruence || done || lia. Qed.
Lemma base_geometry s s' c : same_geometry s s' -> base s' c = base s c.
Proof. intros []. unfold base. congruence. Qed.
Lemma clusters_geometry s s' : same_geometry s s' -> clusters s' = clusters s.
Proof. intros []. unfold clusters. congruence. Qed.
Lemma in_table_geometry s s' c : same_geometry s s' -> in_table s' c <-> in_table s c.
Proof. intros Hg. unfold in_table. by rewrite (clusters_geometry s s' Hg). Qed.

(** A chain depends on the links of its clusters only, its contents on their
    sectors. *)
Lemma chain_ext s s' cs :
  same_geometry s s' -> (forall c, c ∈ cs -> link s' c = link s c) -> chain s cs -> chain s' cs.
Proof.
  intros Hg. induction cs as [|c cs IH]; [done|]. intros Hl Hc.
  assert (link s' c = link s c) as E by (apply Hl; left).
  assert (in_table s' c <-> in_table s c) by by apply in_table_geometry.
  destruct cs as [|c' cs]; cbn [chain] in *; rewrite E; [naive_solver|].
  destruct Hc as (? & ? & ? & ?). split; [tauto|]. split; [done|]. split; [done|].
  apply IH; [|done]. intros x Hx. apply Hl. by right.
Qed.
Lemma cluster_sectors_ext s s' c :
  same_geometry s s' -> (forall i, 0 <= i < sectors_per_cluster s -> sector s' (base s c + i) = sector s (base s c + i)) ->
  cluster_sectors s' c = cluster_sectors s c.
Proof.
  intros Hg Hs. unfold cluster_sectors. rewrite (base_geometry s s' c Hg), (sg_spc _ _ Hg).
  apply list_fmap_ext. intros ? i [-> ?]%lookup_seq. apply Hs. lia.
Qed.
Lemma chain_bytes_ext s s' cs :
  (forall c, c ∈ cs -> cluster_sectors s' c = cluster_sectors s c) -> chain_bytes s' cs = chain_bytes s cs.
Proof.
  intros Hs. unfold chain_bytes. induction cs as [|c cs IH]; [done|]. cbn [mbind list_bind].
  rewrite (Hs c) by left. f_equal. apply IH. intros x Hx. apply Hs. by right.
Qed.

(** ** Editing the table *)
Definition put_link c v s : Fat32 :=
  with_fat (<[Z.to_nat c := v]> (fat s)) (<[(Z.to_nat c / 128)%nat := true]> (fat_dirty s)) s.
Lemma set_cluster_run s c v : volume_wf s -> in_table s c -> set_cluster c v s = Ret (Ok tt) (put_link c v s).
Proof.
  intros [] [? ?]. unfold set_cluster, clusters in *. rewrite decide_True; [done|]. split; [lia|].
  apply Nat.Div0.div_lt_upper_bound. lia.
Qed.
Lemma link_put s c v c' : in_table s c -> 0 <= c' ->
  link (put_link c v s) c' = if decide (c' = c) then Z.land v CLUSTER_MASK else link s c'.
Proof.
  intros [? ?] ?. unfold link, put_link, clusters in *. cbn [fat with_fat]. case_decide.
  - subst. rewrite list_lookup_total_insert_eq by lia. done.
  - rewrite list_lookup_total_insert_ne by lia. done.
Qed.
Lemma fat_sector_insert (table : list Z) (c : nat) (v : Z) (i : nat) :
  (i <> c / 128)%nat -> fat_sector (<[c := v]> table) i = fat_sector table i.
Proof.
  intros Hi. unfold fat_sector. f_equal. apply list_eq. intros j.
  destruct (decide (j < 128)%nat); [|rewrite !lookup_take_ge by lia; done].
  rewrite !lookup_take_lt, !lookup_drop by lia. apply list_lookup_insert_ne.
  intros ->. apply Hi. apply (Nat.div_unique _ _ _ j); lia.
Qed.
Lemma put_link_evolves s c v :
  volume_wf s -> in_table s c -> in_u 32 v -> evolves s (put_link c v s).
Proof.
  intros Hwf Hc Hv. assert (same_geometry s (put_link c v s)) as Hg.
  { split; try done; unfold put_link; cbn [fat fat_dirty with_fat]; apply length_insert. }
  split; [done| |].
  - apply (wf_geometry s); [done|done|]. unfold put_link. cbn [fat with_fat].
    apply Forall_insert; [apply Hwf|done].
  - intros Hs i Hi. unfold put_link, clean_sector in *. cbn [fat fat_dirty with_fat reserved_sectors] in *.
    destruct (decide (i = Z.to_nat c / 128)%nat) as [->|Hne].
    + apply list_lookup_insert_Some in Hi as [(_ & ? & _)|[? _]]; done.
    + rewrite list_lookup_insert_ne in Hi by done. rewrite fat_sector_insert by done. by apply Hs.
Qed.
Lemma with_free_evolves s n : volume_wf s -> evolves s (with_free n s).
Proof. intros Hwf. split; [by split| |done]. by destruct Hwf; split. Qed.

(** ** Allocation *)
Definition is_free s c : Prop := in_table s c /\ link s c = 0.
Definition count_free (table : list Z) : nat := length (filter (fun e => Z.land e CLUSTER_MASK = 0) (drop 2 table)).
Lemma scan_free_spec es : forall i,
  match scan_free es i with
  | Some c => i <= c < i + Z.of_nat (length es) /\ Z.land (es !!! Z.to_nat (c - i)) CLUSTER_MASK = 0
  | None => filter (fun e => Z.land e CLUSTER_MASK = 0) es = []
  end.
Proof.
  induction es as [|e es IH]; intros i; [done|]. cbn [scan_free length].
  destruct (Z.eqb_spec (Z.land e CLUSTER_MASK) 0) as [E|E].
  - split; [lia|]. by rewrite Z.sub_diag.
  - specialize (IH (i + 1)). case_match; [|by rewrite filter_cons_False].
    destruct IH as [? Hl]. split; [lia|].
    replace (Z.to_nat (z - i)) with (S (Z.to_nat (z - (i + 1)))) by lia. done.
Qed.
Lemma filter_insert_drop (P : Z -> Prop) `{!forall x, Decision (P x)} (l : list Z) (c : nat) (v : Z) :
  (2 <= c < length l)%nat -> P (l !!! c) -> ~ P v ->
  length (filter P (drop 2 l)) = S (length (filter P (drop 2 (<[c := v]> l)))).
Proof.
  intros Hc Hp Hv. rewrite drop_insert_ge by lia.
  destruct (lookup_lt_is_Some_2 l c) as [x Hx]; [lia|]. rewrite (list_lookup_total_correct _ _ _ Hx) in Hp.
  assert (drop 2 l !! (c - 2)%nat = Some x) as Hd by (rewrite lookup_drop; rewrite <- Hx; f_equal; lia).
  rewrite <- (take_drop_middle _ _ _ Hd) at 1. rewrite insert_take_drop by (by eapply lookup_lt_Some).
  rewrite !filter_app, !filter_cons_True, filter_cons_False by done. rewrite !length_app. cbn [length]. lia.
Qed.
Lemma alloc_cluster_run s : volume_wf s -> (0 < count_free (fat s))%nat ->
  exists c s', alloc_cluster s = Ret (Ok c) s' /\ is_free s c /\ device s' = device s /\ evolves s s' /\
    (forall c', 0 <= c' -> link s' c' = if decide (c' = c) then EOF_MARK else link s c') /\
    count_free (fat s) = S (count_free (fat s')).
Proof.
  intros Hwf Hn. unfold alloc_cluster. pose proof (scan_free_spec (drop 2 (fat s)) 2) as Hs.
  destruct (scan_free _ _) as [c|]; [|unfold count_free in Hn; rewrite Hs in Hn; cbn in Hn; lia].
  destruct Hs as [Hc Hf]. rewrite length_drop in Hc.
  assert (in_table s c) as Ht by (unfold in_table, clusters; pose proof (wf_some s Hwf); unfold clusters in *; lia).
  rewrite lookup_total_drop in Hf. replace (2 + Z.to_nat (c - 2))%nat with (Z.to_nat c) in Hf by lia.
  assert (in_u 32 EOF_MARK) as He by (unfold in_u, EOF_MARK; lia).
  exists c. eexists. split.
  { rewrite (fs_bind_ok _ _ _ _ _ (set_cluster_run s c EOF_MARK Hwf Ht)). reflexivity. }
  split; [by split|]. split; [done|]. split.
  { eapply evolves_trans; [by apply (put_link_evolves s c EOF_MARK)|]. apply with_free_evolves.
    by apply put_link_evolves. }
  split.
  - intros c' ?. exact (link_put s c EOF_MARK c' Ht ltac:(done)).
  - unfold count_free. apply filter_insert_drop; [unfold in_table, clusters in *; lia|done|done].
Qed.

Lemma alloc_clusters_run n : forall s, volume_wf s -> (n <= count_free (fat s))%nat ->
  exists cs s', alloc_clusters n s = Ret (Ok cs) s' /\ length cs = n /\ NoDup cs /\ Forall (is_free s) cs /\
    device s' = device s /\ evolves s s' /\
    (forall c', 0 <= c' -> link s' c' = if decide (c' ∈ cs) then EOF_MARK else link s c').
Proof.
  induction n as [|n IH]; intros s Hwf Hn.
  { exists [], s. split; [done|]. split; [done|]. split; [constructor|]. split; [constructor|].
    split; [done|]. split; [by apply evolves_refl|]. intros c' _.
    by rewrite decide_False by apply not_elem_of_nil. }
  destruct (alloc_cluster_run s Hwf ltac:(lia)) as (c & s1 & E1 & Hfree & Hd1 & Hev1 & Hl1 & Hc1).
  destruct (IH s1) as (cs & s' & E2 & Hlen & Hnd & Hf2 & Hd2 & Hev2 & Hl2); [apply Hev1|lia|].
  assert (0 <= c) as Hc0 by (destruct Hfree as [[? _] _]; lia).
  assert (c ∉ cs) as Hni.
  { intros Hin. rewrite Forall_forall in Hf2. destruct (Hf2 c Hin) as [_ Hz].
    rewrite Hl1, decide_True in Hz by done. discriminate. }
  exists (c :: cs), s'. split; [cbn [alloc_clusters]; rewrite (fs_bind_ok _ _ _ _ _ E1);
    rewrite (fs_bind_ok _ _ _ _ _ E2); reflexivity|].
  split; [cbn; lia|]. split; [by constructor|]. split.
  - constructor; [done|]. eapply Forall_impl; [exact Hf2|]. intros x [Hx Hz]. cbv beta in *.
    apply (in_table_geometry s) in Hx; [|apply Hev1]. split; [done|].
    rewrite Hl1 in Hz by (destruct Hx; lia). by case_decide.
  - split; [congruence|]. split; [by eapply evolves_trans|]. intros c' ?.
    rewrite Hl2, Hl1 by done. destruct (decide (c' = c)) as [->|].
    + rewrite (decide_False (P := c ∈ cs)) by done. by rewrite decide_True by left.
    + destruct (decide (c' ∈ cs)); [rewrite decide_True by (by right); done|].
      by rewrite decide_False by (rewrite elem_of_cons; tauto).
Qed.

Lemma land_cluster v : 0 <= v < 2 ^ 28 -> Z.land v CLUSTER_MASK = v.
Proof.
  intros. change CLUSTER_MASK with (Z.ones 28). rewrite Z.land_ones by lia. by apply Z.mod_small.
Qed.
Lemma in_table_value s c : volume_wf s -> in_table s c -> in_u 32 c /\ Z.land c CLUSTER_MASK = c /\ is_eof c = false.
Proof.
  intros [] [? ?]. unfold in_u, EOF_MARK, is_eof in *. split; [lia|]. split; [apply land_cluster; lia|].
  apply Z.leb_gt. unfold EOF_MARK. lia.
Qed.
Lemma link_clusters_run cs : forall s, volume_wf s -> cs <> [] -> NoDup cs -> Forall (in_table s) cs ->
  exists s', link_clusters cs s = Ret (Ok tt) s' /\ device s' = device s /\ evolves s s' /\ chain s' cs /\
    (forall c', 0 <= c' -> c' ∉ cs -> link s' c' = link s c').
Proof.
  induction cs as [|c [|c' cs] IH]; intros s Hwf Hne Hnd Ht; [done| |].
  - inversion Ht as [|? ? Hc _]; subst. exists (put_link c EOF_MARK s).
    assert (0 <= c) by (destruct Hc; lia).
    assert (evolves s (put_link c EOF_MARK s)) as Hev.
    { apply put_link_evolves; [done|done|]. unfold in_u, EOF_MARK. lia. }
    split; [by apply set_cluster_run|]. split; [done|]. split; [done|]. split.
    + split; [by apply (in_table_geometry s); [apply Hev|]|]. by rewrite link_put, decide_True by done.
    + intros x ? Hx. rewrite link_put, decide_False by (done || by intros ->; apply Hx; left). done.
  - inversion Ht as [|? ? Hc Ht']; inversion Ht' as [|? ? Hc' _]; inversion Hnd as [|? ? Hni Hnd']; subst.
    destruct (in_table_value s c' Hwf Hc') as (Hu & Hm & He). assert (0 <= c) by (destruct Hc; lia).
    pose proof (put_link_evolves s c c' Hwf Hc Hu) as Hev.
    destruct (IH (put_link c c' s)) as (s' & E & Hd & Hev' & Hch & Hl); [apply Hev|done|done| |].
    { eapply Forall_impl; [exact Ht'|]. intros x. by apply in_table_geometry, Hev. }
    exists s'. split.
    { change (link_clusters (c :: c' :: cs) s) with ((set_cluster c c';; link_clusters (c' :: cs)) s).
      by rewrite (fs_bind_ok _ _ _ _ _ (set_cluster_run s c c' Hwf Hc)). }
    split; [done|]. split; [by eapply evolves_trans|]. split.
    + split; [by apply (in_table_geometry s); [eapply same_geometry_trans; [apply Hev|apply Hev']|]|].
      split; [|done]. by rewrite Hl, link_put, decide_True by done.
    + intros x ? Hx. rewrite Hl by (done || by intros ?; apply Hx; right).
      rewrite link_put, decide_False by (done || by intros ->; apply Hx; left). done.
Qed.

(** ** Writing sectors *)
Definition same_tables s s' : Prop := fat s' = fat s /\ fat_dirty s' = fat_dirty s.
(** [l] is not a sector of a cluster of [cs]. *)
Definition outside s cs l : Prop :=
  forall c i, c ∈ cs -> 0 <= i < sectors_per_cluster s -> l <> base s c + i.

Lemma dev_write_run s l bs :
  volume_wf s -> 0 <= l < capacity (device s) -> sector_ok bs ->
  exists s', dev_write l bs s = Ret (Ok tt) s' /\ same_geometry s s' /\ same_tables s s' /\ volume_wf s' /\
    sector s' l = bs /\ forall l', l' <> l -> sector s' l' = sector s l'.
Proof.
  intros Hwf Hl Hb. destruct (write_sector_ok (device s) l bs Hl Hb) as (d & E & Hcap & Hr & Ho).
  assert (same_geometry s (with_device d s)) as Hg by by split.
  exists (with_device d s). split; [unfold dev_write; by rewrite E|].
  split; [done|]. split; [done|]. split; [apply (wf_geometry s); [done|done|apply Hwf]|].
  unfold sector. cbn [device with_device]. rewrite Hr. split; [done|]. intros l' Hne. by rewrite Ho.
Qed.
Lemma data_write_run s l bs :
  volume_wf s -> first_data_sector s <= l < capacity (device s) -> sector_ok bs ->
  exists s', dev_write l bs s = Ret (Ok tt) s' /\ evolves s s' /\ same_tables s s' /\
    sector s' l = bs /\ forall l', l' <> l -> sector s' l' = sector s l'.
Proof.
  intros Hwf Hl Hb. pose proof (wf_region s Hwf). pose proof (wf_reserved s Hwf).
  destruct (dev_write_run s l bs) as (s' & E & Hg & Ht & Hwf' & Hr & Ho); [done|lia|done|].
  exists s'. split; [done|]. split; [|by split].
  split; [done|done|]. intros Hs i Hi. destruct Ht as [Hf Hd]. unfold clean_sector in *.
  rewrite Hd in Hi. pose proof (lookup_lt_Some _ _ _ Hi). rewrite (sg_reserved _ _ Hg), Ho, Hf by lia. by apply Hs.
Qed.
Lemma cluster_write_run s c i bs :
  volume_wf s -> in_table s c -> 0 <= i < sectors_per_cluster s -> sector_ok bs ->
  exists s', dev_write (base s c + i) bs s = Ret (Ok tt) s' /\ evolves s s' /\ same_tables s s' /\
    sector s' (base s c + i) = bs /\ forall l', l' <> base s c + i -> sector s' l' = sector s l'.
Proof.
  intros Hwf Hc Hi Hb. apply data_write_run; [done| |done].
  pose proof (base_bound s c i Hwf Hc Hi). destruct Hwf. lia.
Qed.

Lemma pad_sector_ok chunk : byte_list chunk -> (length chunk <= 512)%nat ->
  sector_ok (chunk ++ replicate (512 - length chunk) 0).
Proof.
  intros Hb Hl. split.
  - apply Forall_app. split; [done|]. apply Forall_replicate. unfold in_u. lia.
  - rewrite length_app, length_replicate. unfold SECTOR. lia.
Qed.
Lemma sectors_from_ext s s' c i n :
  same_geometry s s' -> (forall j, (i <= j < i + n)%nat -> sector s' (base s c + Z.of_nat j) = sector s (base s c + Z.of_nat j)) ->
  sectors_from s' c i n = sectors_from s c i n.
Proof.
  intros Hg Hs. unfold sectors_from. rewrite (base_geometry s s' c Hg). apply list_fmap_ext.
  intros ? j [-> ?]%lookup_seq. apply Hs. lia.
Qed.
Lemma write_sectors_run n : forall s c i content,
  volume_wf s -> in_table s c -> (i + n <= Z.to_nat (sectors_per_cluster s))%nat ->
  byte_list content -> content <> [] ->
  exists s', write_sectors n c (Z.of_nat i) content s = Ret (Ok (drop (512 * n) content)) s' /\
    evolves s s' /\ same_tables s s' /\
    take (length content) (concat (sectors_from s' c i n)) = take (512 * n) content /\
    forall l, (forall j, (i <= j < i + n)%nat -> l <> base s c + Z.of_nat j) -> sector s' l = sector s l.
Proof.
  induction n as [|n IH]; intros s c i content Hwf Hc Hi Hb Hne.
  { exists s. split; [done|]. split; [by apply evolves_refl|]. split; [done|]. split; [|done].
    cbn [sectors_from]. unfold sectors_from. cbn. by rewrite take_nil, take_0. }
  cbn [write_sectors]. rewrite (fs_bind_ok _ _ _ _ _ (sector_of_run s c _ Hwf Hc)).
  assert (sector_ok (take 512 content ++ replicate (512 - length (take 512 content)) 0)) as Hpad.
  { apply pad_sector_ok; [by apply Forall_take|]. rewrite length_take. lia. }
  destruct (cluster_write_run s c (Z.of_nat i) _ Hwf Hc ltac:(lia) Hpad) as (s1 & E1 & Hev1 & Ht1 & Hs1 & Ho1).
  rewrite (fs_bind_ok _ _ _ _ _ E1). pose proof (ev_geometry _ _ Hev1) as Hg1.
  rewrite <- (base_geometry s s1 c Hg1) in Hs1.
  assert (forall s2, sectors_from s2 c i (S n) = sector s2 (base s2 c + Z.of_nat i) :: sectors_from s2 c (S i) n)
    as Hsf by reflexivity.
  destruct (drop 512 content) as [|b rest] eqn:Ed.
  - assert (length content <= 512)%nat as Hle.
    { apply (f_equal length) in Ed. rewrite length_drop in Ed. cbn in Ed. lia. }
    exists s1. split; [rewrite drop_ge by lia; done|]. split; [done|]. split; [done|]. split.
    + rewrite Hsf, Hs1. cbn [concat]. rewrite <- app_assoc, (take_ge content 512) by lia.
      rewrite take_app_length. by rewrite take_ge by lia.
    + intros l Hl. apply Ho1. apply Hl. lia.
  - rewrite <- Ed. assert (512 < length content)%nat as Hlt.
    { apply (f_equal length) in Ed. rewrite length_drop in Ed. cbn in Ed. lia. }
    destruct (IH s1 c (S i) (drop 512 content)) as (s' & E & Hev & Ht & Hcont & Ho);
      [apply Hev1|by apply (in_table_geometry s)|rewrite (sg_spc _ _ Hg1); lia|by apply Forall_drop|by rewrite Ed|].
    exists s'. replace (Z.of_nat i + 1) with (Z.of_nat (S i)) by lia.
    split; [rewrite E, drop_drop; do 3 f_equal; lia|]. split; [by eapply evolves_trans|].
    split; [by destruct Ht, Ht1; split; congruence|].
    rewrite (base_geometry s s1 c Hg1) in Ho, Hs1. split.
    + rewrite Hsf. cbn [concat]. rewrite (base_geometry s1 s' c (ev_geometry _ _ Hev)), (base_geometry s s1 c Hg1).
      rewrite Ho, Hs1 by (intros; lia). rewrite length_take, Nat.min_l, Nat.sub_diag by lia.
      cbn [replicate]. rewrite app_nil_r, take_app_ge by (rewrite length_take; lia).
      rewrite length_take, Nat.min_l by lia. rewrite length_drop in Hcont. rewrite Hcont.
      replace (512 * S n)%nat with (512 + 512 * n)%nat by lia. by rewrite take_take_drop.
    + intros l Hl. rewrite Ho by (intros; apply Hl; lia). apply Ho1. apply Hl. lia.
Qed.

Lemma write_clusters_run cs : forall s content,
  volume_wf s -> NoDup cs -> Forall (in_table s) cs -> byte_list content ->
  (length content <= length cs * (512 * Z.to_nat (sectors_per_cluster s)))%nat -> (cs = [] \/ content <> []) ->
  exists s', write_clusters cs content s = Ret (Ok tt) s' /\ evolves s s' /\ same_tables s s' /\
    take (length content) (chain_bytes s' cs) = content /\
    forall l, outside s cs l -> sector s' l = sector s l.
Proof.
  induction cs as [|c cs IH]; intros s content Hwf Hnd Ht Hb Hlen Hne.
  { destruct content; [|cbn in Hlen; lia]. exists s. split; [done|]. split; [by apply evolves_refl|]. done. }
  destruct Hne as [|Hne]; [done|]. inversion Ht as [|? ? Hc Ht']; inversion Hnd as [|? ? Hni Hnd']; subst.
  cbn [write_clusters]. pose proof (wf_spc s Hwf).
  rewrite (fs_bind_ok _ _ _ _ _ (spc_run s)).
  destruct (write_sectors_run (Z.to_nat (sectors_per_cluster s)) s c 0 content Hwf Hc ltac:(lia) Hb Hne)
    as (s1 & E1 & Hev1 & Ht1 & Hc1 & Ho1).
  rewrite (fs_bind_ok _ _ _ _ _ E1). pose proof (ev_geometry _ _ Hev1) as Hg1.
  set (n := Z.to_nat (sectors_per_cluster s)) in *.
  assert (sectors_from s1 c 0 n = cluster_sectors s1 c) as Hcs by (unfold cluster_sectors; by rewrite (sg_spc _ _ Hg1)).
  rewrite Hcs in Hc1.
  assert (length (concat (cluster_sectors s1 c)) = 512 * n)%nat as Hlc.
  { rewrite length_cluster by (apply Hev1 || by apply (in_table_geometry s)). by rewrite (sg_spc _ _ Hg1). }
  assert (forall l, outside s (c :: cs) l -> sector s1 l = sector s l) as Ho1'.
  { intros l Hl. apply Ho1. intros j ?. apply Hl; [left|lia]. }
  destruct (drop (512 * n) content) as [|b rest] eqn:Ed.
  - assert (length content <= 512 * n)%nat as Hle.
    { apply (f_equal length) in Ed. rewrite length_drop in Ed. cbn in Ed. lia. }
    exists s1. split; [done|]. split; [done|]. split; [done|]. split; [|done].
    unfold chain_bytes. cbn [mbind list_bind]. rewrite take_app_le by lia. rewrite Hc1. by rewrite take_ge by lia.
  - rewrite <- Ed. assert (512 * n < length content)%nat as Hlt.
    { apply (f_equal length) in Ed. rewrite length_drop in Ed. cbn in Ed. lia. }
    destruct (IH s1 (drop (512 * n) content)) as (s' & E & Hev & Ht2 & Hcont & Ho).
    { apply Hev1. } { done. }
    { eapply Forall_impl; [exact Ht'|]. intros x. by apply in_table_geometry. }
    { by apply Forall_drop. }
    { rewrite length_drop, (sg_spc _ _ Hg1). fold n. cbn [length] in Hlen. lia. }
    { right. by rewrite Ed. }
    exists s'. split; [exact E|]. split; [by eapply evolves_trans|].
    split; [by destruct Ht1, Ht2; split; congruence|]. split.
    + unfold chain_bytes in *. cbn [mbind list_bind].
      assert (cluster_sectors s' c = cluster_sectors s1 c) as Hsame.
      { apply cluster_sectors_ext; [apply Hev|]. intros i Hi. apply Ho. intros c2 i2 Hc2 Hi2 Heq.
        apply base_inj in Heq as [-> _]; try done; [apply Hev1|by apply (in_table_geometry s)|].
        apply (in_table_geometry s); [done|]. by rewrite Forall_forall in Ht'; apply Ht'. }
      rewrite Hsame, take_app_ge by lia. rewrite Hlc. rewrite length_drop in Hcont. rewrite Hcont.
      rewrite take_ge in Hc1 by lia. rewrite Hc1. apply take_drop.
    + intros l Hl. rewrite Ho; [by apply Ho1'|]. intros c2 i2 Hc2 Hi2.
      rewrite (base_geometry s s1 c2 Hg1). rewrite (sg_spc _ _ Hg1) in Hi2. apply Hl; [by right|done].
Qed.

(** ** Flushing the table *)
Lemma fat_sector_ok s i : volume_wf s -> (i < length (fat_dirty s))%nat -> sector_ok (fat_sector (fat s) i).
Proof.
  intros Hwf Hi. unfold fat_sector. set (es := take 128 (drop (i * 128) (fat s))).
  assert (length es = 128%nat) as Hl.
  { unfold es. rewrite length_take, length_drop, (wf_table s Hwf). lia. }
  split.
  - clear. induction es; [constructor|]. cbn [mbind list_bind]. apply Forall_app. split; [apply le_split_bytes|done].
  - assert (length (es ≫= le_split 4) = 4 * length es)%nat as ->; [|rewrite Hl; reflexivity].
    clear. induction es as [|e es IH]; [done|]. cbn [mbind list_bind] in *.
    rewrite length_app, IH, length_le_split. cbn [length]. lia.
Qed.
Definition set_clean i s : Fat32 := with_fat (fat s) (<[i := false]> (fat_dirty s)) s.
Lemma flush_loop_run n : forall s i,
  volume_wf s -> synced s -> (i + n = length (fat_dirty s))%nat ->
  exists s', flush_fat_loop n i s = Ret (Ok tt) s' /\ same_geometry s s' /\ volume_wf s' /\ fat s' = fat s /\
    synced s' /\ (forall j, (i <= j < i + n)%nat -> fat_dirty s' !! j = Some false) /\
    (forall j, (j < i)%nat -> fat_dirty s' !! j = fat_dirty s !! j) /\
    (forall l, ~ (reserved_sectors s + Z.of_nat i <= l < reserved_sectors s + Z.of_nat (i + n)) ->
       sector s' l = sector s l).
Proof.
  induction n as [|n IH]; intros s i Hwf Hs Hn.
  { exists s. split; [done|]. split; [apply same_geometry_refl|]. repeat (split; [done|]).
    split; [lia|]. done. }
  cbn [flush_fat_loop]. rewrite (fs_bind_ok _ _ _ _ _ (volume_run s)).
  destruct (lookup_lt_is_Some_2 (fat_dirty s) i) as [d Hd]; [lia|]. rewrite Hd. cbn [from_option id].
  pose proof (wf_region s Hwf). pose proof (wf_reserved s Hwf). pose proof (wf_lba s Hwf). pose proof (wf_device s Hwf).
  pose proof (wf_table s Hwf). pose proof (wf_spc s Hwf).
  destruct d.
  - assert (0 <= (clusters s - 2) * sectors_per_cluster s) by (unfold clusters; nia).
    rewrite wrap_small by (unfold in_u; lia).
    destruct (dev_write_run s (reserved_sectors s + Z.of_nat i) (fat_sector (fat s) i))
      as (s1 & E1 & Hg1 & [Hf1 Hd1] & Hwf1 & Hs1 & Ho1); [done|lia|apply fat_sector_ok; [done|lia]|].
    assert (same_geometry s (set_clean i s1)) as Hg2.
    { destruct Hg1. split; try done. cbn [fat_dirty set_clean with_fat]. rewrite length_insert. congruence. }
    assert (synced (set_clean i s1)) as Hs2.
    { intros j Hj. unfold clean_sector, set_clean in *. cbn [fat_dirty fat with_fat reserved_sectors] in *.
      rewrite (sg_reserved _ _ Hg1), Hf1. change (sector _ ?l = _) with (sector s1 l = fat_sector (fat s) j).
      destruct (decide (j = i)) as [->|Hne]; [done|]. rewrite Ho1 by lia.
      rewrite list_lookup_insert_ne, Hd1 in Hj by done. by apply Hs. }
    destruct (IH (set_clean i s1) (S i)) as (s' & E & Hg & Hwf' & Hf & Hs' & Hcl & Hlt & Ho).
    { apply (wf_geometry s); [done|done|]. cbn [fat set_clean with_fat]. rewrite Hf1. apply Hwf. }
    { done. } { cbn [fat_dirty set_clean with_fat]. rewrite length_insert, Hd1. lia. }
    exists s'. split.
    { rewrite <- E. rewrite (fs_bind_ok _ _ s tt (set_clean i s1)); [done|].
      by rewrite (fs_bind_ok _ _ _ _ _ E1). }
    split; [by eapply same_geometry_trans|]. split; [done|]. split; [by rewrite Hf|]. split; [done|].
    assert (length (fat_dirty s1) = length (fat_dirty s)) as Hdl by by rewrite Hd1.
    split; [|split].
    + intros j Hj. destruct (decide (j = i)) as [->|]; [|apply Hcl; lia].
      rewrite Hlt by lia. cbn [fat_dirty set_clean with_fat]. by rewrite list_lookup_insert_eq by lia.
    + intros j Hj. rewrite Hlt by lia. cbn [fat_dirty set_clean with_fat].
      by rewrite list_lookup_insert_ne, Hd1 by lia.
    + intros l Hl. rewrite Ho by (cbn [reserved_sectors set_clean with_fat]; rewrite (sg_reserved _ _ Hg1); lia).
      apply Ho1. lia.
  - destruct (IH s (S i)) as (s' & E & Hg & Hwf' & Hf & Hs' & Hcl & Hlt & Ho); [done|done|lia|].
    exists s'. split; [exact E|]. split; [done|]. split; [done|]. split; [done|]. split; [done|].
    split; [|split].
    + intros j Hj. destruct (decide (j = i)) as [->|]; [by rewrite Hlt by lia|apply Hcl; lia].
    + intros j Hj. apply Hlt. lia.
    + intros l Hl. apply Ho. lia.
Qed.
(** Every table sector on the device is the one in memory. *)
Definition flushed s : Prop := synced s /\ forall i, (i < length (fat_dirty s))%nat -> fat_dirty s !! i = Some false.
Lemma flush_fat_run s : volume_wf s -> synced s ->
  exists s', flush_fat s = Ret (Ok tt) s' /\ same_geometry s s' /\ volume_wf s' /\ fat s' = fat s /\ flushed s' /\
    (forall l, ~ (reserved_sectors s <= l < reserved_sectors s + Z.of_nat (length (fat_dirty s))) ->
       sector s' l = sector s l).
Proof.
  intros Hwf Hs. destruct (flush_loop_run (length (fat_dirty s)) s 0 Hwf Hs) as
    (s' & E & Hg & Hwf' & Hf & Hs' & Hcl & _ & Ho); [lia|].
  exists s'. split; [exact E|]. split; [done|]. split; [done|]. split; [done|]. split.
  - split; [done|]. intros i Hi. apply Hcl. rewrite (sg_dirty _ _ Hg) in Hi. lia.
  - intros l Hl. apply Ho. rewrite Z.add_0_r. done.
Qed.

(** A chain is determined by its first cluster, so it has no loop. *)
Lemma chain_det s c a : forall b, chain s (c :: a) -> chain s (c :: b) -> a = b.
Proof.
  revert c. induction a as [|x a IH]; intros c b Ha Hb;
    destruct (chain_cons _ _ _ Ha) as [_ Ea], (chain_cons _ _ _ Hb) as [_ Eb];
    destruct b as [|y b]; [done| | |].
  - destruct Eb as (E & Ey & _). congruence.
  - destruct Ea as (E & Ex & _). congruence.
  - destruct Ea as (<- & _ & Ha'), Eb as (<- & _ & Hb'). f_equal. by eapply IH.
Qed.
Lemma chain_suffix s a c b : chain s (a ++ c :: b) -> chain s (c :: b).
Proof.
  induction a as [|x a IH]; [done|]. cbn [app]. intros Hch. apply chain_cons in Hch as [_ Hch].
  destruct (a ++ c :: b) as [|y l] eqn:E; [by destruct a|]. apply IH. apply Hch.
Qed.
Lemma chain_NoDup s cs : chain s cs -> NoDup cs.
Proof.
  intros Hch. apply NoDup_alt. intros i j x Hi Hj.
  assert (forall i, cs !! i = Some x -> chain s (x :: drop (S i) cs)) as Hs.
  { intros k Hk. apply (chain_suffix s (take k cs)). by rewrite take_drop_middle. }
  pose proof (chain_det s x _ _ (Hs i Hi) (Hs j Hj)) as E. apply (f_equal length) in E.
  rewrite !length_drop in E. apply lookup_lt_Some in Hi, Hj. lia.
Qed.
End chains.
