(* ===== verification/FatDir.v ===== *)
(** * FAT32: directories

    A directory is the sequence of 32-byte slots of its chain, each with its
    location.  [scan] reads slots; [read_dir] is [scan] over the chain, and the
    entries [write_dir_entries] places scan back to the entry they were made
    from. *)
From S2P Require Import Prelude Bytes Text Disk Rtc Fat FatChain.

(** ** Scanning slots *)
Abbreviation slots := (list ((Z * Z) * list Z)).
(** Whether the end mark was met, the pending long-name parts, the entries. *)
Fixpoint scan (ls : slots) (lfn : list (list Z)) : bool * list (list Z) * list DirEntry :=
  match ls with
  | [] => (false, lfn, [])
  | (loc, sl) :: ls =>
      match read_slot sl loc lfn with
      | EndOfDirectory => (true, lfn, [])
      | Continue lfn e => let '(b, l, es) := scan ls lfn in (b, l, option_list e ++ es)
      end
  end.
Definition entries_of (ls : slots) : list DirEntry := (scan ls []).2.

Lemma scan_app l1 l2 lfn :
  scan (l1 ++ l2) lfn =
    let '(b, l, es) := scan l1 lfn in
    if b : bool then (true, l, es) else let '(b', l', es') := scan l2 l in (b', l', es ++ es').
Proof.
  revert lfn. induction l1 as [|[loc sl] l1 IH]; intros lfn; cbn [app scan].
  { by destruct (scan l2 lfn) as [[? ?] ?]. }
  destruct (read_slot sl loc lfn) as [|lfn' e]; [done|]. rewrite IH.
  destruct (scan l1 lfn') as [[b l] es]. destruct b; [done|].
  destruct (scan l2 l) as [[b' l'] es']. by rewrite app_assoc.
Qed.
(** No slot is the end mark. *)
Definition open_ended (ls : slots) : bool := forallb (fun p => negb (byte_at p.2 0 =? 0)) ls.
Lemma scan_open ls lfn : open_ended ls = true -> (scan ls lfn).1.1 = false.
Proof.
  revert lfn. induction ls as [|[loc sl] ls IH]; intros lfn; [done|]. cbn [open_ended forallb scan].
  intros H. apply andb_true_iff in H as [H1 H2]. apply negb_true_iff in H1. cbn [snd] in H1.
  assert (exists l e, read_slot sl loc lfn = Continue l e) as (l & e & ->).
  { unfold read_slot. rewrite H1. repeat case_match; eauto. }
  specialize (IH l H2). by destruct (scan ls l) as [[? ?] ?].
Qed.

(** ** The entries written for a name *)
Definition ascii_name (n : str) : Prop := Forall (fun c => 0 < c < 128) n.
Lemma as_bytes_ascii n : ascii_name n -> as_bytes n = n.
Proof.
  induction 1 as [|c n Hc _ IH]; [done|]. unfold as_bytes in *. cbn [mbind list_bind]. rewrite IH.
  unfold encode_char. by rewrite (proj2 (Z.ltb_lt c _)) by lia.
Qed.

Lemma lfn_slot seq part is_last checksum loc lfn :
  length part = 13%nat -> Forall (in_u 16) part -> 1 <= seq <= 11 ->
  read_slot (lfn_entry_bytes seq part is_last checksum) loc lfn = Continue (part :: lfn) None.
Proof.
  intros Hl Hp Hs. unfold read_slot.
  assert (byte_at (lfn_entry_bytes seq part is_last checksum) 0 = Z.lor seq (if is_last then 0x40 else 0)) as -> by done.
  assert ((Z.lor seq (if is_last then 0x40 else 0) =? 0) = false /\
          (Z.lor seq (if is_last then 0x40 else 0) =? 0xE5) = false) as [-> ->].
  { assert (seq = 1 \/ seq = 2 \/ seq = 3 \/ seq = 4 \/ seq = 5 \/ seq = 6 \/ seq = 7 \/ seq = 8 \/ seq = 9 \/
      seq = 10 \/ seq = 11) as Hc by lia. by repeat destruct Hc as [-> |Hc]; subst; destruct is_last. }
  do 13 (destruct part as [|? part]; [discriminate Hl|]). destruct part; [|discriminate Hl]. clear Hl.
  change (byte_at _ 0x0B) with 0x0F. change (0x0F =? 0x0F) with true. cbv iota.
  repeat match goal with H : Forall _ (_ :: _) |- _ => inversion H; subst; clear H end.
  unfold slot_part, word_at. cbn. unfold in_u in *. change (2 ^ 16) with 65536 in *.
  repeat f_equal; zlia.
Qed.
Lemma lfn_part_shape chars i b : (Forall (in_u 16) chars) -> length (lfn_part chars i b) = 13%nat /\ Forall (in_u 16) (lfn_part chars i b).
Proof.
  intros Hc. unfold lfn_part. set (chunk := take 13 (drop (i * 13) chars)).
  assert (length chunk <= 13)%nat by (unfold chunk; rewrite length_take; lia).
  assert (Forall (in_u 16) chunk) by by apply Forall_take, Forall_drop.
  assert (forall n, Forall (in_u 16) (replicate n 0xFFFF)) as Hr.
  { intros n. apply Forall_replicate. unfold in_u. lia. }
  assert (in_u 16 0) by (unfold in_u; lia).
  case_match; (split; [rewrite length_app; cbn [length]; rewrite length_replicate|]).
  - to_prop. apply Nat.ltb_lt in H3. lia.
  - apply Forall_app; split; [done|]. by constructor.
  - lia.
  - by apply Forall_app.
Qed.

Lemma assemble_app a b : ascii_name a -> assemble_chars (a ++ b) = a ++ assemble_chars b.
Proof.
  induction 1 as [|c a Hc _ IH]; [done|]. cbn [app assemble_chars]. rewrite IH.
  rewrite (proj2 (Z.eqb_neq c 0)), (proj2 (Z.eqb_neq c 0xFFFF)), (proj2 (Z.ltb_lt c 0x80)) by lia. done.
Qed.
(** The parts of a name of [cnt] chunks put together again. *)
Lemma assemble_parts cnt : forall chars,
  ascii_name chars -> (13 * cnt < length chars <= 13 * S cnt)%nat ->
  assemble_chars (concat ((fun i => lfn_part chars i (i =? cnt)%nat) <$> seq 0 (S cnt))) = chars.
Proof.
  induction cnt as [|cnt IH]; intros chars Hc Hl.
  - cbn [seq fmap list_fmap concat]. rewrite app_nil_r. unfold lfn_part. rewrite drop_0, take_ge by lia.
    cbn [Nat.eqb andb]. case_match.
    + rewrite assemble_app by done. cbn. by rewrite app_nil_r.
    + apply Nat.ltb_ge in H. replace (13 - length chars)%nat with 0%nat by lia.
      rewrite assemble_app by done. cbn. by rewrite app_nil_r.
  - assert (forall i, lfn_part chars (S i) (S i =? S cnt)%nat = lfn_part (drop 13 chars) i (i =? cnt)%nat) as Hs.
    { intros i. unfold lfn_part. rewrite drop_drop. replace (13 + i * 13)%nat with (S i * 13)%nat by lia. done. }
    rewrite <- cons_seq. cbn [fmap list_fmap concat]. rewrite <- fmap_S_seq.
    assert (lfn_part chars 0 (0 =? S cnt)%nat = take 13 chars) as ->.
    { unfold lfn_part. cbn [Nat.mul Nat.eqb andb]. rewrite drop_0, length_take, Nat.min_l, Nat.sub_diag by lia.
      apply app_nil_r. }
    rewrite assemble_app by by apply Forall_take.
    assert (((fun i => lfn_part chars i (i =? S cnt)%nat) <$> (S <$> seq 0 (S cnt))) =
            (fun i => lfn_part (drop 13 chars) i (i =? cnt)%nat) <$> seq 0 (S cnt)) as Hm.
    { rewrite <- list_fmap_compose. apply list_fmap_ext. intros ? i _. apply Hs. }
    change (list_fmap nat (list Z)) with (@fmap list _ nat (list Z)).
    change (list_fmap nat nat S) with (fmap (M := list) S). rewrite Hm.
    rewrite IH; [apply take_drop|by apply Forall_drop|]. rewrite length_drop. lia.
Qed.

Lemma scan_lfn_parts (f : nat -> list Z) (part : nat -> list Z) (ks : list nat) : forall locs lfn,
  length locs = length ks ->
  (forall i loc lfn, i ∈ ks -> read_slot (f i) loc lfn = Continue (part i :: lfn) None) ->
  scan (zip locs (f <$> ks)) lfn = (false, rev (part <$> ks) ++ lfn, []).
Proof.
  induction ks as [|i ks IH]; intros locs lfn Hl Hr; (destruct locs as [|loc locs]; [try done|try done]).
  cbn [fmap list_fmap zip zip_with scan rev]. rewrite Hr by left. cbn [option_list app].
  change (list_fmap nat (list Z) f ks) with (f <$> ks). change (zip_with pair locs (f <$> ks)) with (zip locs (f <$> ks)).
  rewrite IH; [|by injection Hl|intros; apply Hr; by right].
  change (list_fmap nat (list Z) part ks) with (part <$> ks). by rewrite <- app_assoc.
Qed.

Definition good_name (n : str) : Prop := ascii_name n /\ validate_name n = Ok tt.
Lemma good_name_facts n : good_name n -> n <> [] /\ (length n <= 128)%nat /\ head n <> Some 46.
Proof.
  intros [Ha Hv]. unfold validate_name in Hv. case_match eqn:E; [done|].
  apply orb_false_iff in E as [E _]. apply orb_false_iff in E as [E E3]. apply orb_false_iff in E as [E1 E2].
  apply negb_false_iff in E1. apply bool_decide_eq_false in E3. apply Z.ltb_ge in E2.
  unfold len_utf8, MAX_NAME in E2. rewrite as_bytes_ascii in E2 by done. split; [by destruct n|]. split; [lia|done].
Qed.
Lemma lfn_count_spec n : n <> [] -> exists k, lfn_count n = S k /\ (13 * k < length n <= 13 * S k)%nat.
Proof.
  intros Hne. unfold lfn_count. rewrite div_ceil_spec by lia.
  assert (0 < length n)%nat by (destruct n; [done|cbn; lia]).
  exists (Z.to_nat ((Z.of_nat (length n) + 13 - 1) / 13 - 1)). split; zlia.
Qed.
Lemma lfn_chars_ascii n : ascii_name n -> lfn_chars n = n.
Proof.
  induction 1 as [|c n Hc _ IH]; [done|]. unfold lfn_chars in *. cbn [fmap list_fmap]. f_equal; [|exact IH].
  apply wrap_small. unfold in_u. lia.
Qed.
Lemma ascii_in_u16 n : ascii_name n -> Forall (in_u 16) n.
Proof. intros H. eapply Forall_impl; [exact H|]. intros c Hc. cbv beta in Hc. unfold in_u. lia. Qed.

Lemma scan_lfn_entries n chk locs :
  good_name n -> length locs = lfn_count n ->
  exists parts, scan (zip locs (lfn_entries n chk)) [] = (false, parts, []) /\ parts <> [] /\ assemble_lfn parts = n.
Proof.
  intros Hg Hl. destruct (good_name_facts n Hg) as (Hne & Hlen & _). destruct Hg as [Ha _].
  destruct (lfn_count_spec n Hne) as (k & Ek & Hk). unfold lfn_entries.
  rewrite (scan_lfn_parts _ (fun i => lfn_part (lfn_chars n) i (i =? lfn_count n - 1)%nat)).
  - rewrite app_nil_r. eexists. split; [done|]. rewrite map_rev, rev_involutive, Ek.
    replace (S k - 1)%nat with k by lia. rewrite lfn_chars_ascii by done.
    split; [by rewrite <- cons_seq|]. by apply assemble_parts.
  - by rewrite length_rev, length_seq.
  - intros i loc lfn Hi. rewrite elem_of_reverse, elem_of_seq in Hi || (apply list_elem_of_In, in_rev, in_seq in Hi).
    assert (1 <= u8 (Z.of_nat i + 1) <= 11) by (rewrite wrap_small by (unfold in_u; lia); lia).
    destruct (lfn_part_shape (lfn_chars n) i (i =? lfn_count n - 1)%nat) as [? ?].
    { rewrite lfn_chars_ascii by done. by apply ascii_in_u16. }
    by apply lfn_slot.
Qed.

Lemma is_sfn_char_bound b : is_sfn_char b = true -> 33 <= b <= 126.
Proof.
  unfold is_sfn_char, is_ascii_alphanumeric, is_ascii_alphabetic, is_ascii_lower, is_ascii_upper, is_ascii_digit.
  intros H. apply orb_true_iff in H as [H|H]; [lia|]. apply existsb_exists in H as (x & Hx & E).
  apply Z.eqb_eq in E. subst x. vm_compute in Hx. lia.
Qed.
Lemma sfn_field_shape n bs : length (sfn_field n bs) = n /\ Forall (fun b => 32 <= b <= 126) (sfn_field n bs).
Proof.
  unfold sfn_field. set (kept := take n _). assert (length kept <= n)%nat by (unfold kept; rewrite length_take; lia).
  split; [rewrite length_app, length_replicate; lia|]. apply Forall_app. split.
  - apply Forall_take, Forall_fmap, Forall_forall. intros b Hb. apply list_elem_of_filter in Hb as [Hb _].
    apply is_sfn_char_bound in Hb. unfold compose, to_ascii_uppercase, is_ascii_lower. case_match; lia.
  - apply Forall_replicate. lia.
Qed.
Lemma make_sfn_shape n : length (make_sfn n) = 11%nat /\ Forall (fun b => 32 <= b <= 126) (make_sfn n).
Proof.
  unfold make_sfn. destruct (default _ _) as [stem ext].
  destruct (sfn_field_shape 8 (as_bytes stem)) as [L1 F1], (sfn_field_shape 3 (as_bytes ext)) as [L2 F2].
  split; [rewrite length_app; lia|by apply Forall_app].
Qed.
Lemma join_halves c : in_u 32 c ->
  Z.lor (Z.shiftl (u16 (Z.shiftr c 16)) 16) (Z.land c 0xFFFF) = c.
Proof.
  intros [H0 H1]. rewrite wrap_small.
  - change 0xFFFF with (Z.ones 16). rewrite <- Z.ldiff_ones_r by lia. apply Z.lor_ldiff_and.
  - rewrite Z.shiftr_div_pow2 by lia. unfold in_u. change (2 ^ 16) with 65536. change (2 ^ 32) with 4294967296 in H1. zlia.
Qed.

Lemma sfn_slot n c sz dir now loc parts :
  good_name n -> in_u 32 c -> in_u 32 sz -> parts <> [] -> assemble_lfn parts = n ->
  read_slot (sfn_entry n c sz dir now) loc parts = Continue [] (Some (MkDirEntry n dir sz c loc)).
Proof.
  intros Hg Hc Hs Hp Ha. destruct (good_name_facts n Hg) as (Hne & _ & Hdot).
  destruct (make_sfn_shape n) as [Hl Hf]. unfold read_slot, sfn_entry. destruct (fat_datetime now) as [date time].
  destruct (make_sfn n) as [|b0 sfn]; [discriminate Hl|].
  assert (32 <= b0 <= 126) as Hb0 by (by inversion Hf). clear Hf.
  do 10 (destruct sfn as [|? sfn]; [discriminate Hl|]). destruct sfn; [|discriminate Hl]. clear Hl.
  set (slot := _ ++ _). assert (byte_at slot 0 = b0) as -> by reflexivity.
  rewrite (proj2 (Z.eqb_neq b0 0)), (proj2 (Z.eqb_neq b0 0xE5)) by lia.
  assert (byte_at slot 0x0B = if dir then 0x10 else 0x20) as -> by reflexivity.
  assert (word_at slot 0x14 = u16 (Z.shiftr c 16)) as ->.
  { exact (le_combine_small 2 _ (wrap_bound 16 _ ltac:(lia))). }
  assert (word_at slot 0x1A = Z.land c 0xFFFF) as ->.
  { apply (le_combine_small 2). change 0xFFFF with (Z.ones 16). rewrite Z.land_ones by lia.
    apply Z.mod_pos_bound. lia. }
  assert (le_combine (take 4 (drop 0x1C slot)) = sz) as -> by exact (le_combine_small 4 _ Hs).
  rewrite join_halves by done. assert ((if dir then 0x10 else 0x20) =? 0x0F = false) as -> by by destruct dir.
  assert (is_set (if dir then 0x10 else 0x20) 0x10 = dir) as -> by by destruct dir.
  destruct parts as [|part parts]; [done|]. rewrite Ha.
  assert (nonempty n = true) as -> by by destruct n.
  rewrite !bool_decide_false by (intros ->; by apply Hdot). reflexivity.
Qed.

(** What [write_dir_entries] places reads back as the entry it was made from. *)
Lemma scan_dir_entries n c sz dir now locs loc :
  good_name n -> in_u 32 c -> in_u 32 sz -> length locs = lfn_count n ->
  scan (zip (locs ++ [loc]) (dir_entries n c sz dir now)) [] = (false, [], [MkDirEntry n dir sz c loc]).
Proof.
  intros Hg Hc Hs Hl. unfold dir_entries.
  destruct (scan_lfn_entries n (sfn_checksum (make_sfn n)) locs Hg Hl) as (parts & E & Hp & Ha).
  rewrite zip_with_app by (unfold lfn_entries; rewrite length_fmap, length_rev, length_seq; done).
  rewrite scan_app, E. cbn [zip_with scan].
  by rewrite (sfn_slot n c sz dir now loc parts Hg Hc Hs Hp Ha).
Qed.
Lemma le16_bytes c : in_u 16 c -> byte_list (le16 c).
Proof. unfold in_u, le16. change (2 ^ 16) with 65536. intros. repeat constructor; zlia. Qed.
Lemma lfn_entry_shape seq part is_last checksum :
  length part = 13%nat -> Forall (in_u 16) part -> 1 <= seq <= 11 -> in_u 8 checksum ->
  length (lfn_entry_bytes seq part is_last checksum) = 32%nat /\
  byte_list (lfn_entry_bytes seq part is_last checksum).
Proof.
  intros Hl Hp Hs Hc. split.
  - do 13 (destruct part as [|? part]; [discriminate Hl|]). destruct part; [|discriminate Hl]. reflexivity.
  - assert (forall l, Forall (in_u 16) l -> byte_list (l ≫= le16)) as Hb.
    { induction 1; [constructor|]. cbn [mbind list_bind]. apply Forall_app. split; [by apply le16_bytes|done]. }
    assert (in_u 8 (Z.lor seq (if is_last then 64 else 0))) as Hfirst.
    { apply lor_in_u; [lia| |]; unfold in_u; change (2 ^ 8) with 256; destruct is_last; lia. }
    assert (in_u 8 0 /\ in_u 8 0x0F) as [H0 H15] by (unfold in_u; lia).
    unfold lfn_entry_bytes. repeat (apply Forall_app; split); repeat (constructor; try done).
    all: apply Hb; auto using Forall_take, Forall_drop.
Qed.
Lemma sfn_checksum_byte sfn : in_u 8 (sfn_checksum sfn).
Proof.
  unfold sfn_checksum. assert (in_u 8 0) as H0 by (unfold in_u; lia). revert H0. generalize 0.
  induction sfn as [|b sfn IH]; intros acc Ha; [done|]. cbn [foldl]. apply IH. apply wrap_bound. lia.
Qed.
Lemma dir_entries_shape n c sz dir now : good_name n -> 
  length (dir_entries n c sz dir now) = S (lfn_count n) /\
  (1 <= lfn_count n <= 10)%nat /\
  Forall (fun e => length e = 32%nat /\ byte_list e) (dir_entries n c sz dir now).
Proof.
  intros Hg. destruct (good_name_facts n Hg) as (Hne & Hlen & _).
  destruct (lfn_count_spec n Hne) as (k & Ek & Hk). unfold dir_entries.
  split; [|split; [lia|]].
  - unfold lfn_entries. rewrite length_app, length_fmap, length_rev, length_seq. cbn [length]. lia.
  - apply Forall_app. split; [|apply Forall_cons_2; [|constructor]].
    + apply Forall_fmap, Forall_forall. intros i Hi. apply list_elem_of_In, in_rev, in_seq in Hi.
      destruct (lfn_part_shape (lfn_chars n) i (i =? lfn_count n - 1)%nat) as [? ?].
      { destruct Hg as [Hg _]. rewrite lfn_chars_ascii by done. by apply ascii_in_u16. }
      apply lfn_entry_shape; [done|done| |apply sfn_checksum_byte].
      rewrite wrap_small by (unfold in_u; lia). lia.
    + destruct (make_sfn_shape n) as [Hl Hf]. unfold sfn_entry. destruct (fat_datetime now) as [date time]. split.
      * rewrite !length_app, Hl, !length_le_split. reflexivity.
      * assert (in_u 8 0 /\ in_u 8 0x10 /\ in_u 8 0x20) as (? & ? & ?) by (unfold in_u; lia).
        apply Forall_app; split; [eapply Forall_impl; [exact Hf|]; intros b Hb; cbv beta in Hb; unfold in_u; lia|].
        apply Forall_app; split; [by destruct dir; repeat constructor|].
        repeat (apply Forall_app; split); apply le_split_bytes.
Qed.

(** ** Directories on the volume *)
Section directory.
Context {D : Type} `{BlockDevice D}.
Abbreviation Fat32 := (Fat32 D).
Implicit Types (s : Fat32) (c : Z) (cs : list Z).

Definition sector_slots s c (i : nat) : slots :=
  (fun k => ((c, Z.of_nat i * 512 + 32 * Z.of_nat k), slot_at (sector s (base s c + Z.of_nat i)) k)) <$> seq 0 16.
Definition cluster_slots s c : slots := seq 0 (Z.to_nat (sectors_per_cluster s)) ≫= sector_slots s c.
Definition dir_slots s cs : slots := cs ≫= cluster_slots s.

Lemma dir_slots_cons s c cs : dir_slots s (c :: cs) = cluster_slots s c ++ dir_slots s cs.
Proof. reflexivity. Qed.

Lemma read_dir_slots_scan n sec c i : forall k lfn out,
  read_dir_slots n sec c (Z.of_nat i * 512) k lfn out =
    let '(b, l, es) := scan ((fun k => ((c, Z.of_nat i * 512 + 32 * Z.of_nat k), slot_at sec k)) <$> seq k n) lfn in
    (b, l, out ++ es).
Proof.
  induction n as [|n IH]; intros k lfn out; [by cbn; rewrite app_nil_r|].
  cbn [read_dir_slots seq fmap list_fmap scan]. case_match; [by rewrite app_nil_r|]. rewrite IH.
  change (list_fmap nat) with (fun B (f : nat -> B) => @fmap list _ nat B f). cbv beta.
  destruct (scan _ _) as [[? ?] ?]. by rewrite app_assoc.
Qed.

Lemma read_dir_sectors_run s c n : forall i lfn out,
  volume_wf s -> in_table s c -> (i + n <= Z.to_nat (sectors_per_cluster s))%nat ->
  read_dir_sectors n c (Z.of_nat i) lfn out s =
    let '(b, l, es) := scan (seq i n ≫= sector_slots s c) lfn in Ret (Ok (b, l, out ++ es)) s.
Proof.
  induction n as [|n IH]; intros i lfn out Hwf Hc Hi; [by cbn; rewrite app_nil_r|].
  cbn [read_dir_sectors seq mbind list_bind].
  rewrite (fs_bind_ok _ _ _ _ _ (sector_of_run s c _ Hwf Hc)).
  destruct (cluster_sector_ok s c (Z.of_nat i) Hwf Hc ltac:(lia)) as [Er _].
  rewrite (fs_bind_ok _ _ _ _ _ Er), read_dir_slots_scan, scan_app.
  change ((fun k => _) <$> seq 0 16) with (sector_slots s c i).
  destruct (scan (sector_slots s c i) lfn) as [[b l] es]. destruct b; [done|].
  replace (Z.of_nat i + 1) with (Z.of_nat (S i)) by lia. rewrite IH by (done || lia).
  destruct (scan _ l) as [[? ?] ?]. by rewrite app_assoc.
Qed.

Lemma read_dir_loop_run s cs : forall fuel c guard lfn out,
  volume_wf s -> chain s (c :: cs) -> 0 <= guard -> guard + Z.of_nat (length cs) <= CHAIN_GUARD ->
  (length cs < fuel)%nat ->
  read_dir_loop fuel c guard lfn out s = Ret (Ok (out ++ (scan (dir_slots s (c :: cs)) lfn).2)) s.
Proof.
  induction cs as [|c' cs IH]; intros fuel c guard lfn out Hwf Hch Hg Hgl Hf;
    (destruct fuel as [|fuel]; [cbn in Hf; lia|]); cbn [read_dir_loop];
    destruct (chain_cons _ _ _ Hch) as [Hc Hn];
    rewrite (fs_bind_ok _ _ _ _ _ (spc_run s));
    pose proof (read_dir_sectors_run s c (Z.to_nat (sectors_per_cluster s)) 0 lfn out Hwf Hc ltac:(lia)) as Er;
    rewrite dir_slots_cons, scan_app; change (seq 0 _ ≫= _) with (cluster_slots s c) in Er;
    destruct (scan (cluster_slots s c) lfn) as [[b l] es];
    rewrite (fs_bind_ok _ _ _ _ _ Er); (destruct b; [reflexivity|]);
    rewrite (fs_bind_ok _ _ _ _ _ (next_cluster_run s c Hc)).
  - rewrite Hn. cbn. by rewrite app_nil_r.
  - destruct Hn as (-> & He & Hch'). rewrite He. cbn [length] in *.
    destruct (chain_cons _ _ _ Hch') as [[? _] _].
    rewrite (proj2 (Z.ltb_ge c' 2)), (proj2 (Z.ltb_ge CHAIN_GUARD _)) by lia. cbn [orb].
    rewrite (IH fuel c' (guard + 1)) by (done || lia).
    destruct (scan _ l) as [[? ?] ?]. cbn [snd]. by rewrite app_assoc.
Qed.
Lemma read_dir_run s c cs :
  volume_wf s -> chain s (c :: cs) -> Z.of_nat (length cs) <= CHAIN_GUARD ->
  read_dir c s = Ret (Ok (entries_of (dir_slots s (c :: cs)))) s.
Proof.
  intros. unfold read_dir. rewrite (read_dir_loop_run s cs CHAIN_FUEL c 0 [] []); [done|done|done|lia|lia|].
  unfold CHAIN_FUEL. lia.
Qed.
Lemma find_dir_entry_run s c cs n :
  volume_wf s -> chain s (c :: cs) -> Z.of_nat (length cs) <= CHAIN_GUARD ->
  find_dir_entry c n s =
    Ret (Ok (find (fun e => name_matches (name e) n) (entries_of (dir_slots s (c :: cs))))) s.
Proof. intros. unfold find_dir_entry. by rewrite (read_dir_run s c cs). Qed.

(** ** Finding room *)
Definition no_run s k c : Prop :=
  forall i, 0 <= i < sectors_per_cluster s -> find_run 16 (sector s (base s c + i)) 0 0 k = None.

Lemma find_free_sectors_none s c k n : forall i,
  volume_wf s -> in_table s c -> 0 <= i -> i + Z.of_nat n <= sectors_per_cluster s -> no_run s k c ->
  find_free_sectors n c i k s = Ret (Ok None) s.
Proof.
  induction n as [|n IH]; intros i Hwf Hc Hi Hn Hno; [done|]. cbn [find_free_sectors].
  rewrite (fs_bind_ok _ _ _ _ _ (sector_of_run s c _ Hwf Hc)).
  destruct (cluster_sector_ok s c i Hwf Hc ltac:(lia)) as [Er _].
  rewrite (fs_bind_ok _ _ _ _ _ Er), Hno by lia. apply IH; done || lia.
Qed.
(** The first room of [k] slots is at slot [j] of the first sector of [c]. *)
Lemma find_free_loop_run s k c j pcs1 : forall pcs2 fuel x guard,
  volume_wf s -> chain s (pcs1 ++ c :: pcs2) -> head (pcs1 ++ [c]) = Some x ->
  Forall (no_run s k) pcs1 -> find_run 16 (sector s (base s c)) 0 0 k = Some j ->
  0 <= guard -> guard + Z.of_nat (length pcs1) <= CHAIN_GUARD -> (length pcs1 < fuel)%nat ->
  find_free_loop fuel x guard k s = Ret (Ok (Some (c, 32 * Z.of_nat j))) s.
Proof.
  induction pcs1 as [|c1 pcs1 IH]; intros pcs2 fuel x guard Hwf Hch Hx Hno Hj Hg Hgl Hf;
    (destruct fuel as [|fuel]; [cbn in Hf; lia|]); cbn [find_free_loop app head] in *; injection Hx as <-;
    destruct (chain_cons _ _ _ Hch) as [Hc Hn]; rewrite (fs_bind_ok _ _ _ _ _ (spc_run s));
    pose proof (wf_spc s Hwf).
  - assert (exists n, Z.to_nat (sectors_per_cluster s) = S n) as [n ->] by (exists (Z.to_nat (sectors_per_cluster s) - 1)%nat; lia).
    assert (find_free_sectors (S n) c 0 k s = Ret (Ok (Some (c, 32 * Z.of_nat j))) s) as E.
    { cbn [find_free_sectors]. rewrite (fs_bind_ok _ _ _ _ _ (sector_of_run s c _ Hwf Hc)).
      destruct (cluster_sector_ok s c 0 Hwf Hc ltac:(lia)) as [Er _].
      rewrite (fs_bind_ok _ _ _ _ _ Er), Z.add_0_r, Hj. reflexivity. }
    by rewrite (fs_bind_ok _ _ _ _ _ E).
  - inversion Hno as [|? ? Hno1 Hno2]; subst. cbn [length] in *.
    rewrite (fs_bind_ok _ _ _ _ _ (find_free_sectors_none s c1 k (Z.to_nat (sectors_per_cluster s)) 0 Hwf Hc ltac:(lia) ltac:(lia) Hno1)).
    rewrite (fs_bind_ok _ _ _ _ _ (next_cluster_run s c1 Hc)).
    destruct (pcs1 ++ c :: pcs2) as [|c' rest] eqn:Er; [by destruct pcs1|].
    destruct Hn as (-> & He & Hch'). rewrite He, (proj2 (Z.ltb_ge CHAIN_GUARD _)) by lia.
    rewrite <- Er in Hch'. apply (IH pcs2); try done; try lia.
    by destruct pcs1; cbn [app head] in *; simplify_eq.
Qed.

(** ** Placing entries in a sector *)
Lemma find_run_spec n sec k : forall i run,
  (1 <= k)%nat -> (run < k)%nat -> (run <= i)%nat ->
  (forall x, (i - run <= x < i)%nat -> free_slot sec x = true) ->
  forall j, find_run n sec i run k = Some j ->
  (j + k <= i + n)%nat /\ (forall x, (j <= x < j + k)%nat -> free_slot sec x = true).
Proof.
  induction n as [|n IH]; intros i run Hk Hr Hi Hfree j; [done|]. cbn [find_run].
  destruct (free_slot sec i) eqn:Ef.
  - destruct (decide (S run = k)) as [<-|Hne].
    + intros [= <-]. split; [lia|]. intros x Hx. destruct (decide (x = i)) as [->|]; [done|]. apply Hfree. lia.
    + intros E. apply IH in E; [|lia|lia|lia|].
      * destruct E. split; [lia|done].
      * intros x Hx. destruct (decide (x = i)) as [->|]; [done|]. apply Hfree. lia.
  - rewrite decide_False by lia. intros E. apply IH in E; [|lia|lia|lia|intros; lia].
    destruct E. split; [lia|done].
Qed.

Lemma length_concat32 (es : list (list Z)) :
  Forall (fun e => length e = 32%nat /\ byte_list e) es -> length (concat es) = (32 * length es)%nat.
Proof. induction 1 as [|e es [He _] _ IH]; [done|]. cbn [concat length]. rewrite length_app, He, IH. lia. Qed.
Lemma concat_slot (es : list (list Z)) : forall x,
  Forall (fun e => length e = 32%nat /\ byte_list e) es -> (x < length es)%nat ->
  take 32 (drop (32 * x) (concat es)) = es !!! x.
Proof.
  induction es as [|e es IH]; intros x Hf Hx; [cbn in Hx; lia|].
  inversion Hf as [|? ? [He _] Hf']; subst. cbn [concat]. destruct x as [|x].
  - rewrite Nat.mul_0_r, drop_0, take_app_length' by done. done.
  - rewrite drop_app_ge by lia. rewrite He. replace (32 * S x - 32)%nat with (32 * x)%nat by lia.
    rewrite IH by (done || cbn in Hx; lia). done.
Qed.
Lemma place_slots sec j es :
  sector_ok sec -> Forall (fun e => length e = 32%nat /\ byte_list e) es -> (j + length es <= 16)%nat ->
  exists sec', place_entries sec (32 * j) es = Some sec' /\ sector_ok sec' /\
    forall x, (x < 16)%nat ->
      slot_at sec' x = if decide (j <= x < j + length es)%nat then es !!! (x - j)%nat else slot_at sec x.
Proof.
  intros [Hb Hl] Hes Hj. unfold place_entries, SECTOR in *. pose proof (length_concat32 es Hes) as Hlc.
  assert (byte_list (concat es)) as Hbc by (clear -Hes; induction Hes as [|e es [_ He] _ IH]; [constructor|by apply Forall_app]).
  destruct (splice sec (32 * j) (concat es)) as [sec'|] eqn:E; [|unfold splice in E; case_decide; [done|lia]].
  exists sec'. split; [done|]. split; [split; [exact (splice_bytes _ _ _ _ Hb Hbc E)|by rewrite (length_splice _ _ _ _ E)]|].
  intros x Hx. unfold slot_at. case_decide as Hd.
  - rewrite <- (concat_slot es) by (done || lia). apply list_eq. intros i.
    destruct (decide (i < 32)%nat); [|by rewrite !lookup_take_ge by lia].
    rewrite !lookup_take_lt, !lookup_drop, (splice_lookup _ _ _ _ _ E), decide_True by lia. f_equal. lia.
  - apply list_eq. intros i. destruct (decide (i < 32)%nat); [|by rewrite !lookup_take_ge by lia].
    rewrite !lookup_take_lt, !lookup_drop, (splice_lookup _ _ _ _ _ E), decide_False by lia. done.
Qed.
End directory.
