(* ===== verification/FatFile.v ===== *)
(** * FAT32: writing and reading back

    The round trip of a whole file: a file written into a directory with room
    is found there again with its contents, and nothing else changes.  And the
    cases where the driver does not have it: what [find_free_run] returns in a
    cluster of several sectors, and entries placed behind the end mark. *)
From S2P Require Import Prelude Bytes Text Disk Rtc Fat FatChain FatDir.

Section file.
Context {D : Type} `{BlockDevice D} (rtc_now : D -> DateTime).
Abbreviation Fat32 := (Fat32 D).
Implicit Types (s : Fat32) (c : Z) (cs : list Z).

(** ** Room for [k] slots

    The first free run is at slot [j] of the first sector of cluster [c] of the
    directory; no end mark and no unfinished long name lies before it, and
    nothing becomes visible behind it. *)
Definition rest_slots s c : slots := seq 1 (Z.to_nat (sectors_per_cluster s) - 1) ≫= sector_slots s c.
Definition pre_slots s pcs1 c j : slots := dir_slots s pcs1 ++ take j (sector_slots s c 0).
Definition run_slots s c k j : slots := take k (drop j (sector_slots s c 0)).
Definition post_slots s c pcs2 k j : slots := drop (j + k) (sector_slots s c 0) ++ rest_slots s c ++ dir_slots s pcs2.
Record room s pcs1 c pcs2 k j : Prop := {
  rm_chain : chain s (pcs1 ++ c :: pcs2);
  rm_length : Z.of_nat (length (pcs1 ++ c :: pcs2)) <= CHAIN_GUARD;
  rm_size : (1 <= k)%nat;
  rm_first : Forall (no_run s k) pcs1;
  rm_run : find_run 16 (sector s (base s c)) 0 0 k = Some j;
  rm_open : open_ended (pre_slots s pcs1 c j) = true;
  rm_ready : (scan (pre_slots s pcs1 c j) []).1.2 = [];
  rm_rest : entries_of (run_slots s c k j ++ post_slots s c pcs2 k j) = entries_of (post_slots s c pcs2 k j)
}.

Lemma cluster_slots_split s c : 1 <= sectors_per_cluster s ->
  cluster_slots s c = sector_slots s c 0 ++ rest_slots s c.
Proof.
  intros Hspc. unfold cluster_slots, rest_slots.
  destruct (Z.to_nat (sectors_per_cluster s)) as [|n] eqn:E; [lia|].
  rewrite <- cons_seq, Nat.sub_succ, Nat.sub_0_r. reflexivity.
Qed.
Lemma dir_slots_app s cs1 cs2 : dir_slots s (cs1 ++ cs2) = dir_slots s cs1 ++ dir_slots s cs2.
Proof. unfold dir_slots. apply bind_app. Qed.
Lemma dir_slots_room s pcs1 c pcs2 k j : volume_wf s ->
  dir_slots s (pcs1 ++ c :: pcs2) = pre_slots s pcs1 c j ++ run_slots s c k j ++ post_slots s c pcs2 k j.
Proof.
  intros Hwf. rewrite dir_slots_app, dir_slots_cons, cluster_slots_split by apply Hwf.
  unfold pre_slots, run_slots, post_slots. rewrite <- !app_assoc. f_equal. rewrite !app_assoc. do 2 f_equal.
  rewrite <- app_assoc, <- drop_drop, take_drop. by rewrite take_drop.
Qed.
(** The entries before and behind the room. *)
Lemma entries_room s pcs1 c pcs2 k j : volume_wf s -> room s pcs1 c pcs2 k j ->
  entries_of (dir_slots s (pcs1 ++ c :: pcs2)) =
    entries_of (pre_slots s pcs1 c j) ++ entries_of (post_slots s c pcs2 k j).
Proof.
  intros Hwf []. rewrite (dir_slots_room s pcs1 c pcs2 k j) by done. unfold entries_of at 1. rewrite scan_app.
  pose proof (scan_open _ [] rm_open0). unfold entries_of in *. destruct (scan (pre_slots _ _ _ _) []) as [[b l] es].
  cbn [fst snd] in *. subst. rewrite <- rm_rest0. by destruct (scan (_ ++ _) []) as [[? ?] ?].
Qed.

Lemma sector_slots_ext s s' c i :
  same_geometry s s' -> sector s' (base s c + Z.of_nat i) = sector s (base s c + Z.of_nat i) ->
  sector_slots s' c i = sector_slots s c i.
Proof. intros Hg Hs. unfold sector_slots. rewrite (base_geometry s s' c Hg). by rewrite Hs. Qed.
Definition same_sectors s s' c : Prop :=
  forall i, 0 <= i < sectors_per_cluster s -> sector s' (base s c + i) = sector s (base s c + i).
Lemma cluster_slots_ext s s' c : same_geometry s s' -> same_sectors s s' c -> cluster_slots s' c = cluster_slots s c.
Proof.
  intros Hg Hs. unfold cluster_slots. rewrite (sg_spc _ _ Hg).
  assert (forall i, i ∈ seq 0 (Z.to_nat (sectors_per_cluster s)) -> sector_slots s' c i = sector_slots s c i) as Hi.
  { intros i Hi%elem_of_seq. apply sector_slots_ext; [done|]. apply Hs. lia. }
  induction (seq 0 _) as [|i l IH]; [done|]. cbn [mbind list_bind]. rewrite Hi by left.
  f_equal. apply IH. intros. apply Hi. by right.
Qed.
Lemma dir_slots_ext s s' cs :
  same_geometry s s' -> (forall c, c ∈ cs -> same_sectors s s' c) -> dir_slots s' cs = dir_slots s cs.
Proof.
  intros Hg Hs. induction cs as [|c cs IH]; [done|]. rewrite !dir_slots_cons. f_equal.
  - apply cluster_slots_ext; [done|]. apply Hs. left.
  - apply IH. intros. apply Hs. by right.
Qed.
(** Room depends on the directory only. *)
Lemma room_slots_ext s s' pcs1 c pcs2 k j :
  1 <= sectors_per_cluster s -> same_geometry s s' -> (forall x, x ∈ pcs1 ++ c :: pcs2 -> same_sectors s s' x) ->
  pre_slots s' pcs1 c j = pre_slots s pcs1 c j /\ run_slots s' c k j = run_slots s c k j /\
  post_slots s' c pcs2 k j = post_slots s c pcs2 k j.
Proof.
  intros Hspc Hg Hs. assert (c ∈ pcs1 ++ c :: pcs2) as Hc by (apply elem_of_app; right; left).
  assert (dir_slots s' pcs1 = dir_slots s pcs1) as E1.
  { apply dir_slots_ext; [done|]. intros. apply Hs. apply elem_of_app. by left. }
  assert (dir_slots s' pcs2 = dir_slots s pcs2) as E2.
  { apply dir_slots_ext; [done|]. intros. apply Hs. apply elem_of_app. right. by right. }
  assert (sector_slots s' c 0 = sector_slots s c 0) as E3.
  { apply sector_slots_ext; [done|]. apply Hs; [done|lia]. }
  assert (rest_slots s' c = rest_slots s c) as E4.
  { pose proof (cluster_slots_ext s s' c Hg ltac:(by apply Hs)) as E.
    rewrite !cluster_slots_split, E3 in E by (try rewrite (sg_spc _ _ Hg); done).
    by apply app_inv_head in E. }
  unfold pre_slots, post_slots, run_slots. by rewrite E1, E2, E3, E4.
Qed.
Lemma room_ext s s' pcs1 c pcs2 k j :
  volume_wf s -> same_geometry s s' -> (forall x, x ∈ pcs1 ++ c :: pcs2 -> link s' x = link s x /\ same_sectors s s' x) ->
  room s pcs1 c pcs2 k j -> room s' pcs1 c pcs2 k j.
Proof.
  intros Hwf Hg Hs []. pose proof (wf_spc s Hwf) as Hspc.
  destruct (room_slots_ext s s' pcs1 c pcs2 k j Hspc Hg) as (E1 & E2 & E3); [intros; by apply Hs|].
  split; rewrite ?E1, ?E2, ?E3; try done.
  - apply (chain_ext s); [done| |done]. intros x Hx. by apply Hs.
  - rewrite Forall_forall in *. intros x Hx i Hi. rewrite (sg_spc _ _ Hg) in Hi.
    assert (x ∈ pcs1 ++ c :: pcs2) as Hx' by (apply elem_of_app; by left).
    rewrite (base_geometry s s' x Hg). destruct (Hs x Hx') as [_ ->]; [|done]. by apply rm_first0.
  - rewrite (base_geometry s s' c Hg). destruct (Hs c) as [_ Hc]; [apply elem_of_app; right; left|].
    specialize (Hc 0 ltac:(lia)). rewrite Z.add_0_r in Hc. by rewrite Hc.
Qed.

(** ** Placing the entries of a name *)
Definition slot_loc c (x : nat) : Z * Z := (c, Z.of_nat 0 * 512 + 32 * Z.of_nat x).
Lemma zip_seq (es : list (list Z)) c : forall j,
  (fun x => (slot_loc c x, es !!! (x - j)%nat)) <$> seq j (length es) = zip (slot_loc c <$> seq j (length es)) es.
Proof.
  induction es as [|e es IH]; intros j; [done|]. cbn [length seq fmap list_fmap zip zip_with].
  rewrite Nat.sub_diag. f_equal.
  change (list_fmap nat _ ?f ?l) with (f <$> l) in *. rewrite <- (IH (S j)). apply list_fmap_ext.
  intros ? x [-> ?]%lookup_seq. f_equal. replace (S j + i - j)%nat with (S (S j + i - S j)) by lia. done.
Qed.
Lemma placed_slots s s' c j es sec' :
  base s' c = base s c -> (j + length es <= 16)%nat -> sector s' (base s c) = sec' ->
  (forall x, (x < 16)%nat -> slot_at sec' x =
     if decide (j <= x < j + length es)%nat then es !!! (x - j)%nat else slot_at (sector s (base s c)) x) ->
  sector_slots s' c 0 = take j (sector_slots s c 0) ++ zip (slot_loc c <$> seq j (length es)) es ++
                        drop (j + length es) (sector_slots s c 0).
Proof.
  intros Hb Hj Hs Hx. unfold sector_slots. rewrite Hb. change (Z.of_nat 0) with 0 at 2 4 6. rewrite !Z.add_0_r, Hs.
  set (f := fun k => ((c, Z.of_nat 0 * 512 + 32 * Z.of_nat k), slot_at sec' k)).
  set (g := fun k => ((c, Z.of_nat 0 * 512 + 32 * Z.of_nat k), slot_at (sector s (base s c)) k)).
  assert (seq 0 16 = seq 0 j ++ seq j (length es) ++ seq (j + length es) (16 - (j + length es))) as E.
  { replace 16%nat with (j + (length es + (16 - (j + length es))))%nat at 1 by lia. by rewrite !seq_app. }
  rewrite E, !fmap_app. rewrite take_app_length' by by rewrite length_fmap, length_seq.
  rewrite <- zip_seq.
  rewrite (drop_app_ge (g <$> seq 0 j)) by (rewrite length_fmap, length_seq; lia).
  rewrite length_fmap, length_seq. replace (j + length es - j)%nat with (length es) by lia.
  rewrite drop_app_length' by by rewrite length_fmap, length_seq.
  f_equal; [|f_equal]; apply list_fmap_ext; intros ? x [-> ?]%lookup_seq; unfold f, g, slot_loc; f_equal;
    rewrite Hx by lia; by (rewrite decide_False by lia) || (rewrite decide_True by lia).
Qed.

Lemma write_dir_entries_run s pcs1 c pcs2 j r n cl sz dir :
  volume_wf s -> good_name n -> in_u 32 cl -> in_u 32 sz ->
  room s pcs1 c pcs2 (S (lfn_count n)) j -> head (pcs1 ++ [c]) = Some r ->
  exists s', write_dir_entries rtc_now r n cl sz dir s = Ret (Ok tt) s' /\ evolves s s' /\ same_tables s s' /\
    (forall l, l <> base s c -> sector s' l = sector s l) /\
    entries_of (dir_slots s' (pcs1 ++ c :: pcs2)) =
      entries_of (pre_slots s pcs1 c j) ++
      MkDirEntry n dir sz cl (slot_loc c (j + lfn_count n)) ::
      entries_of (post_slots s c pcs2 (S (lfn_count n)) j).
Proof.
  intros Hwf Hn Hcl Hsz Hroom Hr. pose proof Hroom as [].
  destruct (dir_entries_shape n cl sz dir (rtc_now (device s)) Hn) as (Hlen & Hcnt & Hshape).
  set (es := dir_entries n cl sz dir (rtc_now (device s))) in *.
  destruct (find_run_spec 16 _ (S (lfn_count n)) 0 0 ltac:(lia) ltac:(lia) ltac:(lia) ltac:(intros; lia) j rm_run0) as [Hj _].
  assert (in_table s c) as Hc.
  { pose proof (chain_in_table s _ rm_chain0) as Ht. rewrite Forall_forall in Ht. apply Ht, elem_of_app. right. left. }
  pose proof (wf_spc s Hwf) as Hspc.
  destruct (cluster_sector_ok s c 0 Hwf Hc ltac:(lia)) as [Er Hok]. rewrite Z.add_0_r in Er, Hok.
  destruct (place_slots _ j es Hok Hshape ltac:(rewrite Hlen; lia)) as (sec' & Ep & Hok' & Hslots).
  destruct (cluster_write_run s c 0 sec' Hwf Hc ltac:(lia) Hok') as (s' & Ew & Hev & Ht & Hs' & Ho).
  rewrite Z.add_0_r in Ew, Hs', Ho. exists s'. split.
  { unfold write_dir_entries. rewrite (fs_bind_ok _ _ _ _ _ (volume_run s)). fold es. cbv zeta. rewrite Hlen.
    rewrite (fs_bind_ok (find_free_run r (S (lfn_count n))) _ s (Some (c, 32 * Z.of_nat j)) s).
    2:{ rewrite length_app in rm_length0. cbn [length] in rm_length0.
        apply (find_free_loop_run s _ c j pcs1 pcs2); try done; unfold CHAIN_FUEL; lia. }
    rewrite (fs_bind_ok _ _ s (c, 32 * Z.of_nat j) s) by reflexivity. cbn [fst snd].
    assert (32 * Z.of_nat j / 512 = 0) as -> by zlia.
    assert (Z.to_nat ((32 * Z.of_nat j) mod 512) = (32 * j)%nat) as -> by zlia.
    rewrite (fs_bind_ok _ _ _ _ _ (sector_of_run s c 0 Hwf Hc)), Z.add_0_r.
    rewrite (fs_bind_ok _ _ _ _ _ Er), Ep. exact Ew. }
  split; [done|]. split; [done|]. split; [done|].
  pose proof (ev_geometry _ _ Hev) as Hg.
  pose proof (chain_NoDup s _ rm_chain0) as Hnd.
  pose proof (chain_in_table s _ rm_chain0) as Hin. rewrite Forall_forall in Hin.
  assert (forall x i, x ∈ pcs1 ++ c :: pcs2 -> 0 <= i < sectors_per_cluster s -> x <> c \/ i <> 0 ->
            sector s' (base s x + i) = sector s (base s x + i)) as Hsame.
  { intros x i Hx Hi Hne. apply Ho. rewrite <- (Z.add_0_r (base s c)). intros E.
    apply base_inj in E as [-> ->]; try done; [by destruct Hne|by apply Hin|lia]. }
  apply NoDup_app in Hnd as (Hnd1 & Hdisj & Hnd2). inversion Hnd2 as [|? ? Hc2 Hnd3]; subst.
  assert (dir_slots s' pcs1 = dir_slots s pcs1) as E1.
  { apply dir_slots_ext; [done|]. intros x Hx i Hi. apply Hsame; [apply elem_of_app; by left|done|].
    left. intros ->. apply (Hdisj c Hx). left. }
  assert (dir_slots s' pcs2 = dir_slots s pcs2) as E2.
  { apply dir_slots_ext; [done|]. intros x Hx i Hi. apply Hsame; [apply elem_of_app; right; by right|done|].
    left. by intros ->. }
  assert (rest_slots s' c = rest_slots s c) as E3.
  { unfold rest_slots. rewrite (sg_spc _ _ Hg).
    assert (forall i, i ∈ seq 1 (Z.to_nat (sectors_per_cluster s) - 1) -> sector_slots s' c i = sector_slots s c i) as Hi.
    { intros i Hi%elem_of_seq. apply sector_slots_ext; [done|]. apply Hsame; [apply elem_of_app; right; left|lia|lia]. }
    induction (seq 1 _) as [|i l IH]; [done|]. cbn [mbind list_bind]. rewrite Hi by left.
    f_equal. apply IH. intros. apply Hi. by right. }
  rewrite dir_slots_app, dir_slots_cons, cluster_slots_split, E1, E2, E3 by (rewrite (sg_spc _ _ Hg); done).
  rewrite (placed_slots s s' c j es (sector s' (base s c))); [|by apply base_geometry|lia|done|exact Hslots].
  rewrite Hlen. replace (_ ++ _) with (pre_slots s pcs1 c j ++
    (zip (slot_loc c <$> seq j (S (lfn_count n))) es ++ post_slots s c pcs2 (S (lfn_count n)) j))
    by (unfold pre_slots, post_slots; rewrite <- !app_assoc; done).
  unfold entries_of at 1. rewrite scan_app. pose proof (scan_open _ [] rm_open0) as Ho1.
  unfold entries_of. destruct (scan (pre_slots _ _ _ _) []) as [[b l] es1]. cbn [fst snd] in *. subst b l.
  rewrite scan_app, <- Nat.add_1_r, seq_app, fmap_app. cbn [seq fmap list_fmap].
  unfold es. rewrite (scan_dir_entries n cl sz dir _ _ _ Hn Hcl Hsz) by by rewrite length_fmap, length_seq.
  by destruct (scan (post_slots _ _ _ _ _) []) as [[? ?] ?].
Qed.

(** ** Storing the contents in fresh clusters *)
Lemma store_run s content :
  volume_wf s -> byte_list content ->
  (Z.to_nat (div_ceil (Z.of_nat (length content)) (cluster_bytes s)) <= count_free (fat s))%nat ->
  exists cs s1 s2 s3,
    alloc_clusters (Z.to_nat (div_ceil (Z.of_nat (length content)) (cluster_bytes s))) s = Ret (Ok cs) s1 /\
    link_clusters cs s1 = Ret (Ok tt) s2 /\ write_clusters cs content s2 = Ret (Ok tt) s3 /\
    evolves s s3 /\ Forall (is_free s) cs /\
    length cs = Z.to_nat (div_ceil (Z.of_nat (length content)) (cluster_bytes s)) /\
    (cs = [] <-> content = []) /\ (cs <> [] -> chain s3 cs) /\ take (length content) (chain_bytes s3 cs) = content /\
    (forall x, 0 <= x -> x ∉ cs -> link s3 x = link s x) /\
    (forall l, outside s cs l -> sector s3 l = sector s l).
Proof.
  intros Hwf Hb Hn. set (needed := Z.to_nat _) in *. pose proof (wf_spc s Hwf).
  assert (length content <= needed * (512 * Z.to_nat (sectors_per_cluster s)))%nat as Hfit.
  { unfold needed, cluster_bytes. rewrite div_ceil_spec by lia.
    set (b := sectors_per_cluster s * 512). assert (0 < b) by (unfold b; lia).
    pose proof (Z.div_mod (Z.of_nat (length content) + b - 1) b ltac:(lia)).
    pose proof (Z.mod_pos_bound (Z.of_nat (length content) + b - 1) b ltac:(lia)).
    assert (0 <= (Z.of_nat (length content) + b - 1) / b) by (apply Z.div_pos; lia).
    apply Nat2Z.inj_le. rewrite Nat2Z.inj_mul, Z2Nat.id by done. unfold b in *. nia. }
  assert (needed = 0%nat <-> content = []) as Hz.
  { split; [intros E; rewrite E in Hfit; by destruct content; [|cbn in Hfit; lia]|].
    intros ->. unfold needed, cluster_bytes. rewrite div_ceil_spec by lia. cbn [length].
    rewrite Z.div_small by lia. done. }
  destruct (alloc_clusters_run needed s Hwf Hn) as (cs & s1 & E1 & Hlen & Hnd & Hfree & Hd1 & Hev1 & Hl1).
  assert (cs = [] <-> content = []) as Hcs by (rewrite <- Hz, <- Hlen; destruct cs; cbn; split; congruence || lia).
  pose proof (ev_geometry _ _ Hev1) as Hg1.
  assert (Forall (in_table s) cs) as Hin by (eapply Forall_impl; [exact Hfree|]; by intros x [? _]).
  assert (forall x, x ∈ cs -> 0 <= x) as Hpos.
  { rewrite Forall_forall in Hin. intros x Hx. destruct (Hin x Hx). lia. }
  assert (exists s2, link_clusters cs s1 = Ret (Ok tt) s2 /\ device s2 = device s1 /\ evolves s1 s2 /\
    (cs <> [] -> chain s2 cs) /\ (forall x, 0 <= x -> x ∉ cs -> link s2 x = link s1 x))
    as (s2 & E2 & Hd2 & Hev2 & Hch2 & Hl2).
  { destruct cs as [|c0 cs].
    - exists s1. split; [done|]. split; [done|]. split; [apply evolves_refl, Hev1|done].
    - destruct (link_clusters_run (c0 :: cs) s1) as (s2 & E2 & Hd2 & Hev2 & Hch2 & Hl2); [apply Hev1|done|done| |].
      + eapply Forall_impl; [exact Hin|]. intros x. by apply in_table_geometry.
      + by exists s2. }
  assert (evolves s s2) as Hev12 by by eapply evolves_trans. pose proof (ev_geometry _ _ Hev12) as Hg2.
  destruct (write_clusters_run cs s2 content) as (s3 & E3 & Hev3 & [Hf3 _] & Hcont & Ho3).
  { apply Hev2. } { done. } { eapply Forall_impl; [exact Hin|]. intros x. by apply in_table_geometry. }
  { done. } { rewrite (sg_spc _ _ Hg2), Hlen. done. } { destruct cs; [by left|right; naive_solver]. }
  exists cs, s1, s2, s3. split; [done|]. split; [done|]. split; [done|]. split; [by eapply evolves_trans|].
  split; [done|]. split; [done|]. split; [done|].
  assert (forall x, link s3 x = link s2 x) as Hl3 by (intros x; unfold link; by rewrite Hf3).
  split; [|split; [done|split]].
  - intros Hne. apply (chain_ext s2); [apply Hev3|done|by apply Hch2].
  - intros x Hx Hni. rewrite Hl3, Hl2, Hl1, decide_False by done. done.
  - intros l Hl. rewrite Ho3.
    + unfold sector. by rewrite Hd2, Hd1.
    + intros x i Hx Hi. rewrite (base_geometry s s2 x Hg2). rewrite (sg_spc _ _ Hg2) in Hi. by apply Hl.
Qed.

(** A free cluster is on no chain. *)
Lemma chain_not_free s cs x : volume_wf s -> chain s cs -> x ∈ cs -> link s x <> 0.
Proof.
  intros Hwf. induction cs as [|c cs IH]; intros Hch Hx; [by apply elem_of_nil in Hx|].
  destruct (chain_cons _ _ _ Hch) as [Hc Hn]. apply elem_of_cons in Hx as [->|Hx].
  - destruct cs as [|c' cs]; [intros E; by rewrite E in Hn|].
    destruct Hn as (-> & _ & Hch'). destruct (chain_cons _ _ _ Hch') as [[? _] _]. lia.
  - destruct cs as [|c' cs]; [by apply elem_of_nil in Hx|]. by apply IH; [apply Hn|].
Qed.
Lemma outside_chain s cs c i :
  volume_wf s -> Forall (in_table s) cs -> in_table s c -> c ∉ cs -> 0 <= i < sectors_per_cluster s ->
  outside s cs (base s c + i).
Proof.
  intros Hwf Ht Hc Hni Hi x k Hx Hk E. rewrite Forall_forall in Ht.
  apply base_inj in E as [-> _]; try done. by apply Ht.
Qed.

Lemma resolve_root s path n :
  components path = [n] -> len_utf8 n <= MAX_NAME -> resolve_parent path s = Ret (Ok (root_cluster s, n)) s.
Proof.
  intros Hp Hn. unfold resolve_parent. rewrite Hp. cbn [rev app]. by rewrite (proj2 (Z.ltb_ge _ _)) by done.
Qed.

(** [s'] still has every file and directory of [s] whose chain avoids [pcs]. *)
Definition keeps s s' (pcs : list Z) : Prop :=
  forall ds, chain s ds -> (forall x, x ∈ ds -> x ∉ pcs) -> chain s' ds /\ chain_bytes s' ds = chain_bytes s ds.

Lemma name_matches_refl n : name_matches n n = true.
Proof. by apply bool_decide_eq_true. Qed.

(** ** Writing a new file

    The hypotheses of the operation on a name that is not in the root directory
    yet. *)
Record can_write s path n (content : list Z) pcs1 c pcs2 j : Prop := {
  cw_wf : volume_wf s;
  cw_synced : synced s;
  cw_path : components path = [n];
  cw_name : good_name n;
  cw_room : room s pcs1 c pcs2 (S (lfn_count n)) j;
  cw_root : head (pcs1 ++ [c]) = Some (root_cluster s);
  cw_new : Forall (fun e => name_matches (name e) n = false) (entries_of (dir_slots s (pcs1 ++ c :: pcs2)));
  cw_bytes : byte_list content;
  cw_size : Z.of_nat (length content) < 2 ^ 32;
  cw_free : (Z.to_nat (div_ceil (Z.of_nat (length content)) (cluster_bytes s)) <= count_free (fat s))%nat;
  cw_guard : div_ceil (Z.of_nat (length content)) (cluster_bytes s) <= CHAIN_GUARD
}.
(** Its result: a chain [cs] with the contents, one more entry, and nothing else
    changed. *)
Record written s s' n (content : list Z) pcs1 c pcs2 j cs : Prop := {
  wr_geometry : same_geometry s s';
  wr_wf : volume_wf s';
  wr_flushed : flushed s';
  wr_empty : cs = [] <-> content = [];
  wr_chain : cs <> [] -> chain s' cs;
  wr_content : take (length content) (chain_bytes s' cs) = content;
  wr_length : length cs = Z.to_nat (div_ceil (Z.of_nat (length content)) (cluster_bytes s));
  wr_dir : chain s' (pcs1 ++ c :: pcs2);
  wr_entries : entries_of (dir_slots s' (pcs1 ++ c :: pcs2)) =
    entries_of (pre_slots s pcs1 c j) ++
    MkDirEntry n false (Z.of_nat (length content)) (default 0 (head cs)) (slot_loc c (j + lfn_count n)) ::
    entries_of (post_slots s c pcs2 (S (lfn_count n)) j);
  wr_keeps : keeps s s' (pcs1 ++ c :: pcs2);
  wr_boot : sector s' 0 = sector s 0
}.

Lemma good_name_length n : good_name n -> len_utf8 n <= MAX_NAME.
Proof.
  intros Hn. destruct (good_name_facts n Hn) as (_ & Hl & _). destruct Hn as [Ha _]. unfold len_utf8, MAX_NAME.
  rewrite as_bytes_ascii by done. lia.
Qed.
(** The root directory as a chain that starts at the root cluster. *)
Lemma root_chain s pcs1 c pcs2 k j :
  room s pcs1 c pcs2 k j -> head (pcs1 ++ [c]) = Some (root_cluster s) ->
  exists rest, pcs1 ++ c :: pcs2 = root_cluster s :: rest /\ chain s (root_cluster s :: rest) /\
    Z.of_nat (length rest) <= CHAIN_GUARD.
Proof.
  intros [Hch Hle _ _ _ _ _ _] Hroot. assert (exists rest, pcs1 ++ c :: pcs2 = root_cluster s :: rest) as [rest E].
  { destruct pcs1; cbn in *; simplify_eq; eauto. }
  exists rest. rewrite E in *. split; [done|]. split; [done|]. cbn in Hle. lia.
Qed.
Lemma find_new (A : list DirEntry) n :
  Forall (fun e => name_matches (name e) n = false) A -> find (fun e => name_matches (name e) n) A = None.
Proof. induction 1 as [|e es He _ IH]; [done|]. cbn [find]. by rewrite He. Qed.
(** Nothing of an existing chain is on the clusters of the new file. *)
Lemma store_keeps s s3 cs ds x :
  volume_wf s -> Forall (is_free s) cs -> (forall x, 0 <= x -> x ∉ cs -> link s3 x = link s x) ->
  (forall l, outside s cs l -> sector s3 l = sector s l) -> chain s ds -> x ∈ ds ->
  x ∉ cs /\ in_table s x /\ link s3 x = link s x /\ same_sectors s s3 x.
Proof.
  intros Hwf Hf Hl Ho Hds Hx. rewrite Forall_forall in Hf.
  pose proof (chain_in_table s ds Hds) as Hin. rewrite Forall_forall in Hin. pose proof (Hin x Hx) as [? ?].
  assert (x ∉ cs) as Hni. { intros Hc. apply Hf in Hc as [_ Hz]. by eapply chain_not_free. }
  split; [done|]. split; [done|]. split; [apply Hl; [lia|done]|].
  intros i Hi. apply Ho. apply outside_chain; try done. apply Forall_forall. intros y Hy. by apply Hf.
Qed.

(** The directory write and the flush, after the contents are in place. *)
Section after.
Context (s s3 s4 s5 : Fat32) (n : str) (content : list Z) (pcs1 : list Z) (c : Z) (pcs2 : list Z) (j : nat) (cs : list Z).
Hypothesis Hwf : volume_wf s.
Hypothesis Hroom : room s pcs1 c pcs2 (S (lfn_count n)) j.
Hypothesis Hev3 : evolves s s3.
Hypothesis Hcsf : Forall (is_free s) cs.
Hypothesis Hcl : length cs = Z.to_nat (div_ceil (Z.of_nat (length content)) (cluster_bytes s)).
Hypothesis Hcs : cs = [] <-> content = [].
Hypothesis Hch3 : cs <> [] -> chain s3 cs.
Hypothesis Hcont3 : take (length content) (chain_bytes s3 cs) = content.
Hypothesis Hl3 : forall x, 0 <= x -> x ∉ cs -> link s3 x = link s x.
Hypothesis Ho3 : forall l, outside s cs l -> sector s3 l = sector s l.
Hypothesis Hev4 : evolves s3 s4.
Hypothesis Ht4 : same_tables s3 s4.
Hypothesis Ho4 : forall l, l <> base s3 c -> sector s4 l = sector s3 l.
Hypothesis Hent4 : entries_of (dir_slots s4 (pcs1 ++ c :: pcs2)) =
  entries_of (pre_slots s3 pcs1 c j) ++
  MkDirEntry n false (Z.of_nat (length content)) (default 0 (head cs)) (slot_loc c (j + lfn_count n)) ::
  entries_of (post_slots s3 c pcs2 (S (lfn_count n)) j).
Hypothesis Hg5 : same_geometry s4 s5.
Hypothesis Hwf5 : volume_wf s5.
Hypothesis Hf5 : fat s5 = fat s4.
Hypothesis Hfl5 : flushed s5.
Hypothesis Ho5 : forall l, ~ (reserved_sectors s4 <= l < reserved_sectors s4 + Z.of_nat (length (fat_dirty s4))) ->
  sector s5 l = sector s4 l.

Let Hg3 : same_geometry s s3 := ev_geometry _ _ Hev3.
Let Hg4 : same_geometry s3 s4 := ev_geometry _ _ Hev4.
Let Hg04 : same_geometry s s4 := same_geometry_trans _ _ _ Hg3 Hg4.
Let Hg05 : same_geometry s s5 := same_geometry_trans _ _ _ Hg04 Hg5.

Lemma after_in_table x : x ∈ pcs1 ++ c :: pcs2 -> in_table s x.
Proof.
  pose proof (chain_in_table s _ (rm_chain _ _ _ _ _ _ Hroom)) as Ht. rewrite Forall_forall in Ht. apply Ht.
Qed.
Lemma after_links x : link s5 x = link s3 x.
Proof. destruct Ht4 as [Hf4 _]. unfold link. by rewrite Hf5, Hf4. Qed.
(** The flush does not touch the data region, nor the directory write another
    cluster. *)
Lemma after_flush x i : in_table s x -> 0 <= i < sectors_per_cluster s ->
  sector s5 (base s x + i) = sector s4 (base s x + i).
Proof.
  intros Hx Hi. apply Ho5. pose proof (base_bound s x i Hwf Hx Hi). pose proof (wf_region s Hwf).
  rewrite (sg_reserved _ _ Hg04), (sg_dirty _ _ Hg04). lia.
Qed.
Lemma after_data x : in_table s x -> x <> c -> cluster_sectors s5 x = cluster_sectors s3 x.
Proof.
  intros Hx Hne. pose proof (wf_spc s Hwf).
  assert (in_table s c) as Hc by (apply after_in_table, elem_of_app; right; left).
  apply cluster_sectors_ext; [by eapply same_geometry_trans|]. intros i Hi.
  rewrite (sg_spc _ _ Hg3) in Hi. rewrite (base_geometry s s3 x Hg3), after_flush by done. apply Ho4.
  rewrite (base_geometry s s3 c Hg3), <- (Z.add_0_r (base s c)). intros E.
  apply base_inj in E as [-> _]; try done. lia.
Qed.
Lemma after_keeps : keeps s s5 (pcs1 ++ c :: pcs2).
Proof.
  intros ds Hds Hdis. pose proof (fun x => store_keeps s s3 cs ds x Hwf Hcsf Hl3 Ho3 Hds) as Hk. split.
  - apply (chain_ext s); [done| |done]. intros x Hx. rewrite after_links. by apply Hk.
  - rewrite (chain_bytes_ext s3 s5).
    + apply chain_bytes_ext. intros x Hx. apply cluster_sectors_ext; [done|]. by apply Hk.
    + intros x Hx. apply after_data; [by apply Hk|]. intros ->. apply (Hdis c Hx), elem_of_app. right. left.
Qed.
Lemma after_entries : entries_of (dir_slots s5 (pcs1 ++ c :: pcs2)) =
  entries_of (pre_slots s pcs1 c j) ++
  MkDirEntry n false (Z.of_nat (length content)) (default 0 (head cs)) (slot_loc c (j + lfn_count n)) ::
  entries_of (post_slots s c pcs2 (S (lfn_count n)) j).
Proof.
  rewrite (dir_slots_ext s4 s5); [|done|].
  - rewrite Hent4.
    destruct (room_slots_ext s s3 pcs1 c pcs2 (S (lfn_count n)) j (wf_spc s Hwf) Hg3) as (-> & _ & ->); [|done].
    intros x Hx. by apply (store_keeps s s3 cs _ x Hwf Hcsf Hl3 Ho3 (rm_chain _ _ _ _ _ _ Hroom)).
  - intros x Hx i Hi. rewrite (sg_spc _ _ Hg04) in Hi. rewrite (base_geometry s s4 x Hg04).
    apply after_flush; [by apply after_in_table|done].
Qed.
Lemma written_after : written s s5 n content pcs1 c pcs2 j cs.
Proof.
  pose proof (rm_chain _ _ _ _ _ _ Hroom) as Hpch. pose proof (wf_spc s Hwf).
  pose proof (fun x => store_keeps s s3 cs _ x Hwf Hcsf Hl3 Ho3 Hpch) as Hk.
  assert (c ∈ pcs1 ++ c :: pcs2) as Hcin by (apply elem_of_app; right; left).
  pose proof Hcsf as Hcsf'. rewrite Forall_forall in Hcsf'.
  split; try done.
  - intros Hne. apply (chain_ext s3); [by eapply same_geometry_trans|by intros; apply after_links|by apply Hch3].
  - rewrite (chain_bytes_ext s3 s5 cs); [done|]. intros x Hx. apply after_data; [by apply Hcsf'|].
    intros ->. by destruct (Hk c Hcin).
  - apply (chain_ext s); [done| |done]. intros x Hx. rewrite after_links. by apply Hk.
  - apply after_entries.
  - apply after_keeps.
  - pose proof (wf_region s Hwf). pose proof (wf_reserved s Hwf).
    rewrite Ho5 by (rewrite (sg_reserved _ _ Hg04); lia).
    pose proof (base_bound s c 0 Hwf (after_in_table c Hcin) ltac:(lia)).
    rewrite Ho4 by (rewrite (base_geometry s s3 c Hg3); lia).
    apply Ho3. intros x i Hx Hi. destruct (Hcsf' x Hx) as [Hxt _]. pose proof (base_bound s x i Hwf Hxt Hi). lia.
Qed.
End after.

Lemma write_new_run s path n content pcs1 c pcs2 j :
  can_write s path n content pcs1 c pcs2 j ->
  exists s' cs, write_file_impl rtc_now path content s = Ret (Ok tt) s' /\ written s s' n content pcs1 c pcs2 j cs.
Proof.
  intros [Hwf Hsync Hp Hn Hroom Hroot Hnew Hb Hsize Hfree _].
  set (pcs := pcs1 ++ c :: pcs2) in *.
  destruct (store_run s content Hwf Hb Hfree) as
    (cs & s1 & s2 & s3 & E1 & E2 & E3 & Hev3 & Hcsf & Hcl & Hcs & Hch3 & Hcont3 & Hl3 & Ho3).
  pose proof (ev_geometry _ _ Hev3) as Hg3.
  pose proof (fun ds x => store_keeps s s3 cs ds x Hwf Hcsf Hl3 Ho3) as Hkeep3. rewrite Forall_forall in Hcsf.
  pose proof (rm_chain _ _ _ _ _ _ Hroom) as Hpch. fold pcs in Hpch.
  assert (room s3 pcs1 c pcs2 (S (lfn_count n)) j) as Hroom3.
  { apply (room_ext s); try done. intros x Hx. destruct (Hkeep3 pcs x Hpch Hx) as (_ & _ & ? & ?). done. }
  assert (in_u 32 (default 0 (head cs))) as Hfirst.
  { destruct cs as [|c0 cs]; [unfold in_u; cbn; lia|]. cbn [head from_option id].
    destruct (Hcsf c0) as [Hc0 _]; [left|]. by apply (in_table_value s). }
  destruct (write_dir_entries_run s3 pcs1 c pcs2 j (root_cluster s) n (default 0 (head cs))
    (Z.of_nat (length content)) false) as (s4 & E4 & Hev4 & Ht4 & Ho4 & Hent4);
    [apply Hev3|done|done|unfold in_u; lia|done|done|].
  destruct (flush_fat_run s4) as (s5 & E5 & Hg5 & Hwf5 & Hf5 & Hfl5 & Ho5).
  { apply Hev4. } { by apply Hev4, Hev3. }
  exists s5, cs. split.
  - unfold write_file_impl. rewrite (fs_bind_ok _ _ _ _ _ (resolve_root s path n Hp (good_name_length n Hn))). cbv iota.
    rewrite (fs_bind_ok _ _ s tt s) by (unfold lift_res; by destruct Hn as [_ ->]).
    destruct (root_chain s pcs1 c pcs2 _ j Hroom Hroot) as (rest & Epcs & Hch & Hle). fold pcs in Epcs. rewrite Epcs in Hnew.
    rewrite (fs_bind_ok _ _ _ _ _ (find_dir_entry_run s (root_cluster s) rest n Hwf Hch Hle)), find_new by done.
    rewrite (fs_bind_ok _ _ s tt s) by reflexivity. rewrite (fs_bind_ok _ _ _ _ _ (volume_run s)).
    rewrite (fs_bind_ok _ _ _ _ _ E1), (fs_bind_ok _ _ _ _ _ E2), (fs_bind_ok _ _ _ _ _ E3).
    rewrite (wrap_small 32) by (unfold in_u; lia). by rewrite (fs_bind_ok _ _ _ _ _ E4).
  - eapply (written_after s s3 s4 s5); try eassumption. by apply Forall_forall.
Qed.

(** ** Reading back *)
Lemma read_back_run s path n content pcs cs A B loc :
  volume_wf s -> components path = [n] -> len_utf8 n <= MAX_NAME ->
  chain s pcs -> head pcs = Some (root_cluster s) -> Z.of_nat (length pcs) <= CHAIN_GUARD ->
  entries_of (dir_slots s pcs) = A ++ MkDirEntry n false (Z.of_nat (length content)) (default 0 (head cs)) loc :: B ->
  Forall (fun e => name_matches (name e) n = false) A ->
  (cs = [] <-> content = []) -> (cs <> [] -> chain s cs) -> take (length content) (chain_bytes s cs) = content ->
  Z.of_nat (length cs) <= CHAIN_GUARD ->
  read_file_impl path s = Ret (Ok content) s.
Proof.
  intros Hwf Hp Hn Hch Hroot Hlen Hent HA Hz Hcs Hcont Hcl. unfold read_file_impl.
  rewrite (fs_bind_ok _ _ _ _ _ (resolve_root s path n Hp Hn)). cbv iota.
  destruct pcs as [|r pcs]; [done|]. injection Hroot as ->. cbn [length] in Hlen.
  rewrite (fs_bind_ok _ _ _ _ _ (read_dir_run s _ pcs Hwf Hch ltac:(lia))), Hent.
  assert (find (fun e => negb (is_dir e) && name_matches (name e) n)
    (A ++ MkDirEntry n false (Z.of_nat (length content)) (default 0 (head cs)) loc :: B) =
    Some (MkDirEntry n false (Z.of_nat (length content)) (default 0 (head cs)) loc)) as ->.
  { clear -HA. induction HA as [|e es He _ IH]; cbn [app find].
    - cbn [is_dir name negb andb]. by rewrite name_matches_refl.
    - by rewrite He, andb_false_r. }
  cbn [first_cluster size]. destruct cs as [|c0 cs].
  - destruct Hz as [Hz _]. by rewrite Hz by done.
  - cbn [head from_option id]. specialize (Hcs ltac:(done)). cbn [length] in Hcl.
    rewrite (read_file_data_run s c0 cs) by (done || lia || (split; [lia|]; apply (f_equal length) in Hcont;
      rewrite length_take in Hcont; lia)).
    by rewrite Nat2Z.id, Hcont.
Qed.

(** ** The table on the device *)
Lemma decode_sector (es : list Z) : Forall (in_u 32) es -> forall m, (m <= length es)%nat ->
  (fun j => le_combine (take 4 (drop (4 * j) (es ≫= le_split 4)))) <$> seq 0 m = take m es.
Proof.
  induction 1 as [|e es He _ IH]; intros m Hm; [by destruct m; [|cbn in Hm; lia]|].
  destruct m as [|m]; [done|]. rewrite <- cons_seq. cbn [fmap list_fmap take]. f_equal.
  - cbn [mbind list_bind]. rewrite Nat.mul_0_r, drop_0, take_app_length' by by rewrite length_le_split.
    by apply (le_combine_small 4).
  - rewrite <- IH by (cbn in Hm; lia). rewrite <- fmap_S_seq.
    change (list_fmap nat _ ?f ?l) with (f <$> l). rewrite <- list_fmap_compose.
    apply list_fmap_ext. intros ? j _. unfold compose. cbn [mbind list_bind].
    rewrite drop_app_ge by (rewrite length_le_split; lia). rewrite length_le_split. do 3 f_equal. lia.
Qed.
Lemma load_fat_run s n : forall i,
  volume_wf s -> flushed s -> (i + n = length (fat_dirty s))%nat ->
  load_fat (device s) n (u32 (reserved_sectors s + Z.of_nat i)) = Ok (drop (i * 128) (fat s)).
Proof.
  induction n as [|n IH]; intros i Hwf Hfl Hi.
  { rewrite drop_ge by (rewrite (wf_table s Hwf); lia). done. }
  pose proof (wf_region s Hwf). pose proof (wf_reserved s Hwf). pose proof (wf_device s Hwf).
  pose proof (wf_lba s Hwf). pose proof (wf_spc s Hwf). pose proof (wf_table s Hwf) as Ht.
  assert (0 <= (clusters s - 2) * sectors_per_cluster s) by (apply Z.mul_nonneg_nonneg; unfold clusters; lia).
  cbn [load_fat]. rewrite (wrap_small 32 (reserved_sectors s + Z.of_nat i)) by (unfold in_u; lia).
  destruct Hfl as [Hs Hcl]. pose proof (Hs i (Hcl i ltac:(lia))) as Hsec. unfold clean_sector, sector in Hsec.
  destruct (read_sector_ok (device s) (reserved_sectors s + Z.of_nat i)) as (b & Eb & _); [lia|].
  rewrite Eb in *. subst b. cbn [mbind result_bind].
  replace (reserved_sectors s + Z.of_nat i + 1) with (reserved_sectors s + Z.of_nat (S i)) by lia.
  rewrite IH by (done || lia). cbn [mbind result_bind]. unfold mret, result_ret. f_equal. unfold fat_sector.
  rewrite decode_sector.
  - rewrite take_take, Nat.min_id. rewrite <- (take_drop 128 (drop (i * 128) (fat s))) at 2. f_equal.
    rewrite drop_drop. f_equal. lia.
  - apply Forall_take, Forall_drop, Hwf.
  - rewrite length_take, length_drop. lia.
Qed.
(** The boot sector of the device is the one the volume was mounted from. *)
Definition described s : Prop := exists d0 s0, open d0 = Ok s0 /\ read_sector (device s) 0 = read_sector d0 0 /\
  sectors_per_cluster s = sectors_per_cluster s0 /\ reserved_sectors s = reserved_sectors s0 /\
  fat_count s = fat_count s0 /\ fat_size_sectors s = fat_size_sectors s0 /\ root_cluster s = root_cluster s0 /\
  first_data_sector s = first_data_sector s0 /\ total_sectors s = total_sectors s0 /\
  length (fat_dirty s) = length (fat_dirty s0).
Lemma described_keeps s s' : described s -> same_geometry s s' ->
  read_sector (device s') 0 = read_sector (device s) 0 -> described s'.
Proof.
  intros (d0 & s0 & Ho & Hr & E) [] Hr'. exists d0, s0. split; [done|]. split; [congruence|].
  destruct_and? E. repeat split; congruence.
Qed.
Lemma remount_run s : volume_wf s -> flushed s -> described s ->
  exists s', open (device s) = Ok s' /\ device s' = device s /\ fat s' = fat s /\ same_geometry s s'.
Proof.
  intros Hwf Hfl (d0 & s0 & Ho & Hr & E). unfold open in *. rewrite Hr.
  destruct (read_sector d0 0) as [bs|e] eqn:E0; [|done]. cbn [map_err mbind result_bind] in *.
  case_match; [done|].
  destruct (load_fat d0 _ _) as [t|] eqn:Et; [|done]. cbn [map_err mbind result_bind] in Ho.
  injection Ho as <-. cbn in E. destruct E as (E1 & E2 & E3 & E4 & E5 & E6 & E7 & E8).
  rewrite length_replicate in E8.
  pose proof (load_fat_run s (length (fat_dirty s)) 0 Hwf Hfl ltac:(lia)) as Hl.
  rewrite Z.add_0_r in Hl. pose proof (wf_reserved s Hwf). pose proof (wf_region s Hwf). pose proof (wf_device s Hwf).
  pose proof (wf_lba s Hwf). pose proof (wf_spc s Hwf). pose proof (wf_table s Hwf).
  assert (0 <= (clusters s - 2) * sectors_per_cluster s) by
    (pose proof (wf_some s Hwf); unfold clusters in *; apply Z.mul_nonneg_nonneg; lia).
  rewrite wrap_small in Hl by (unfold in_u; lia). rewrite <- E2, <- E8, Hl. cbn [map_err mbind result_bind].
  eexists. split; [reflexivity|]. split; [done|]. split; [done|].
  split; cbn; try done; try congruence. by rewrite length_replicate.
Qed.

(** Mounting the device of a volume with the same boot sector gives the volume
    back. *)
Lemma remount_reads s s' path n content pcs1 c pcs2 j cs :
  can_write s path n content pcs1 c pcs2 j -> written s s' n content pcs1 c pcs2 j cs ->
  forall t, (forall l, sector t l = sector s' l) -> (forall x, link t x = link s' x) -> same_geometry s' t ->
  volume_wf t -> read_file_impl path t = Ret (Ok content) t.
Proof.
  intros [Hwf Hsync Hp Hn Hroom Hroot Hnew Hb Hsize Hfree Hguard] [] t Hs Hl Hg Hwft.
  rewrite (entries_room s pcs1 c pcs2 _ j Hwf Hroom) in Hnew. apply Forall_app in Hnew as [HA _].
  pose proof (rm_length _ _ _ _ _ _ Hroom) as Hple.
  assert (0 <= div_ceil (Z.of_nat (length content)) (cluster_bytes s)).
  { pose proof (wf_spc s Hwf). unfold cluster_bytes. rewrite div_ceil_spec by lia. apply Z.div_pos; lia. }
  eapply (read_back_run t path n content (pcs1 ++ c :: pcs2) cs); try done.
  - by apply good_name_length.
  - by apply (chain_ext s').
  - rewrite (sg_root _ _ Hg), (sg_root _ _ wr_geometry0), <- Hroot. by destruct pcs1.
  - rewrite (dir_slots_ext s' t); [exact wr_entries0|done|]. intros x _ i _. apply Hs.
  - intros Hne. apply (chain_ext s'); [done|done|by apply wr_chain0].
  - rewrite (chain_bytes_ext s' t); [done|]. intros x _. by apply cluster_sectors_ext.
  - rewrite wr_length0. lia.
Qed.
Lemma boot_sector_kept s s' : volume_wf s -> same_geometry s s' -> sector s' 0 = sector s 0 ->
  read_sector (device s') 0 = read_sector (device s) 0.
Proof.
  intros Hwf Hg Hsec. pose proof (wf_region s Hwf). pose proof (wf_reserved s Hwf). pose proof (wf_device s Hwf).
  pose proof (wf_spc s Hwf). pose proof (wf_some s Hwf). pose proof (wf_table s Hwf).
  assert (0 <= (clusters s - 2) * sectors_per_cluster s) by (unfold clusters in *; apply Z.mul_nonneg_nonneg; lia).
  unfold sector in Hsec.
  destruct (read_sector_ok (device s) 0) as (b & E & _); [lia|].
  destruct (read_sector_ok (device s') 0) as (b' & E' & _); [rewrite (sg_capacity _ _ Hg); lia|].
  rewrite E, E' in *. congruence.
Qed.

(** A file written in the root directory, read from the volume or from the disk
    mounted again. *)
Lemma write_read_back s path n content pcs1 c pcs2 j :
  can_write s path n content pcs1 c pcs2 j ->
  exists s', write_file rtc_now path content (Some s) = Ret (Ok tt) (Some s') /\
    forall s'', s'' = s' \/ (described s /\ mount (Some (device s')) None = Ret (Ok tt) (Some s'')) ->
      read_file path (Some s'') = Ret (Ok content) (Some s'').
Proof.
  intros Hcan. destruct (write_new_run s path n content pcs1 c pcs2 j Hcan) as (s' & cs & Ew & Hwr).
  pose proof (remount_reads s s' path n content pcs1 c pcs2 j cs Hcan Hwr) as Hread.
  destruct Hcan as [Hwf _ _ _ _ _ _ _ _ _ _]. destruct Hwr as [Hg Hwf' Hfl _ _ _ _ _ _ _ Hboot].
  exists s'. split; [unfold write_file, mounted_fat; by rewrite Ew|]. intros s'' [->|[Hdes Hm]].
  - unfold read_file, mounted_fat. by rewrite (Hread s') by (done || apply same_geometry_refl).
  - pose proof (boot_sector_kept s s' Hwf Hg Hboot) as Hr0.
    destruct (remount_run s' Hwf' Hfl (described_keeps s s' Hdes Hg Hr0)) as (s2 & Eo & Hd2 & Hf2 & Hg2).
    unfold mount in Hm. rewrite Eo in Hm. injection Hm as <-.
    assert (same_geometry s' (scan_free_clusters s2)) as Hg3 by by destruct Hg2; split.
    unfold read_file, mounted_fat. rewrite (Hread (scan_free_clusters s2)); [done| | |done|].
    + intros l. unfold sector. cbn [device scan_free_clusters with_free]. by rewrite Hd2.
    + intros x. unfold link. cbn [fat scan_free_clusters with_free]. by rewrite Hf2.
    + apply (wf_geometry s'); [done|done|]. cbn [fat scan_free_clusters with_free]. rewrite Hf2. apply Hwf'.
Qed.

(** C1: What is written is read back, now and after a reboot, and nothing else
    changes.  On a well-formed volume whose clean table sectors agree with the
    device, whose root directory has room for a new name and whose free clusters
    hold the contents ([can_write]), [write_file] succeeds; [read_file] then
    returns exactly the contents, also from the volume mounted afresh from the
    device; the directory lists one more entry, the new one; the volume stays
    well formed with the whole table on the device; and every other chain, hence
    every other file, keeps its clusters and its bytes. *)
Theorem write_file_roundtrip s path n content pcs1 c pcs2 j :
  can_write s path n content pcs1 c pcs2 j ->
  exists s', write_file rtc_now path content (Some s) = Ret (Ok tt) (Some s') /\
    read_file path (Some s') = Ret (Ok content) (Some s') /\
    (described s -> exists s'', mount (Some (device s')) None = Ret (Ok tt) (Some s'') /\
       read_file path (Some s'') = Ret (Ok content) (Some s'')) /\
    volume_wf s' /\ flushed s' /\
    (exists A e B, read_dir (root_cluster s) s = Ret (Ok (A ++ B)) s /\
       read_dir (root_cluster s) s' = Ret (Ok (A ++ e :: B)) s' /\ name e = n) /\
    keeps s s' (pcs1 ++ c :: pcs2).
Proof.
  intros Hcan. destruct (write_new_run s path n content pcs1 c pcs2 j Hcan) as (s' & cs & Ew & Hwr).
  pose proof (remount_reads s s' path n content pcs1 c pcs2 j cs Hcan Hwr) as Hread.
  pose proof Hcan as [Hwf _ _ _ Hroom Hroot _ _ _ _ _]. pose proof Hwr as [Hg Hwf' Hfl _ _ _ _ Hdir Hent Hkeep Hboot].
  exists s'. split; [unfold write_file, mounted_fat; by rewrite Ew|].
  split; [|split; [|split; [done|split; [done|split; [|done]]]]].
  - unfold read_file, mounted_fat. by rewrite (Hread s') by (done || apply same_geometry_refl).
  - intros Hdes. pose proof (boot_sector_kept s s' Hwf Hg Hboot) as Hr0.
    destruct (remount_run s' Hwf' Hfl (described_keeps s s' Hdes Hg Hr0)) as (s2 & Eo & Hd2 & Hf2 & Hg2).
    exists (scan_free_clusters s2). unfold mount. rewrite Eo. split; [done|].
    assert (same_geometry s' (scan_free_clusters s2)) as Hg3 by by destruct Hg2; split.
    unfold read_file, mounted_fat. rewrite (Hread (scan_free_clusters s2)); [done| | |done|].
    + intros l. unfold sector. cbn [device scan_free_clusters with_free]. by rewrite Hd2.
    + intros x. unfold link. cbn [fat scan_free_clusters with_free]. by rewrite Hf2.
    + apply (wf_geometry s'); [done|done|]. cbn [fat scan_free_clusters with_free]. rewrite Hf2. apply Hwf'.
  - destruct (root_chain s pcs1 c pcs2 _ j Hroom Hroot) as (rest & Ep & Hch & Hle).
    pose proof (entries_room s pcs1 c pcs2 _ j Hwf Hroom) as Hold. rewrite Ep in Hold, Hdir, Hent.
    eexists _, _, _. split; [|split].
    + rewrite (read_dir_run s (root_cluster s) rest Hwf Hch Hle), Hold. reflexivity.
    + rewrite (read_dir_run s' (root_cluster s) rest Hwf' Hdir Hle), Hent. reflexivity.
    + reflexivity.
Qed.
End file.

(** ** A small volume

    One table sector, [per] sectors per cluster, the root directory in cluster
    2, on a disk of [n] sectors behind the table. *)
Definition boot_sector (per total : Z) : list Z :=
  replicate 11 0 ++ le_split 2 512 ++ [per] ++ le_split 2 1 ++ [1] ++ replicate 15 0 ++ le_split 4 total ++
  le_split 4 1 ++ replicate 4 0 ++ le_split 4 2 ++ replicate 462 0 ++ [0x55; 0xAA].
Definition fat_image : list Z :=
  le_split 4 0x0FFFFFF8 ++ le_split 4 EOF_MARK ++ le_split 4 EOF_MARK ++ replicate 500 0.
Definition sample_disk (per : Z) (n : nat) : RamDisk :=
  MkRamDisk (boot_sector per (2 + Z.of_nat n) :: fat_image :: replicate n (replicate 512 0)).
Definition sample_now (d : RamDisk) : DateTime := MkDateTime 2024 5 6 7 8 9.
Definition sample_mounted (per : Z) (n : nat) : option (Fat32 RamDisk) :=
  match open (sample_disk per n) with Ok s => Some (scan_free_clusters s) | Err _ => None end.
Definition write_named (f : string) : STR (option (Fat32 RamDisk)) FatError unit :=
  write_file sample_now (bytes_of f) (bytes_of f).
Fixpoint write_all (fs : list string) : STR (option (Fat32 RamDisk)) FatError unit :=
  match fs with [] => mret tt | f :: fs => write_named f;; write_all fs end.
Definition eight_files : list string :=
  ["/f1"; "/f2"; "/f3"; "/f4"; "/f5"; "/f6"; "/f7"; "/f8"]%string.

(** In a directory whose clusters have two sectors, the ninth file destroys
    the first: eight short names fill the first sector, [find_free_run] finds
    room in the second one but returns the offset within it, and the new entry
    is written over the first sector.  Writing all nine files succeeds, and
    reading the first one afterwards fails. *)
Theorem ninth_file_destroys_first :
  ret_val ((write_all eight_files;; read_file (bytes_of "/f1")) (sample_mounted 2 252)) = Some (Ok (bytes_of "/f1")) /\
  ret_val ((write_all eight_files;; write_named "/f9") (sample_mounted 2 252)) = Some (Ok tt) /\
  ret_val ((write_all eight_files;; write_named "/f9";; read_file (bytes_of "/f1")) (sample_mounted 2 252)) =
    Some (Err NotFound).
Proof. vm_compute. auto. Qed.

(** A file written behind the end mark is lost.  With one sector per cluster
    and fifteen of the sixteen slots of the root directory in use, the two slots
    of a new short name do not fit the first sector; they go to the next one
    although the last slot of the first still is the end mark.  [write_file]
    succeeds and [read_file] does not find the file. *)
Theorem file_behind_end_mark_lost :
  let fs := ["/f1"; "/f2"; "/f3"; "/f4"; "/f5"; "/f6"; "/f7 long enough"]%string in
  ret_val ((write_all fs;; write_named "/f8") (sample_mounted 1 126)) = Some (Ok tt) /\
  ret_val ((write_all fs;; write_named "/f8";; read_file (bytes_of "/f8")) (sample_mounted 1 126)) =
    Some (Err NotFound).
Proof. vm_compute. auto. Qed.

(** The table may describe more clusters than the volume has; the allocator
    hands them out. *)
Theorem alloc_beyond_volume :
  exists s c s', open (sample_disk 1 2) = Ok s /\
    (alloc_cluster;; alloc_cluster) s = Ret (Ok c) s' /\ total_sectors s <= cluster_to_sector s c.
Proof.
  destruct (open (sample_disk 1 2)) as [s|] eqn:E; [|vm_compute in E; discriminate].
  exists s, 4. eexists. split; [done|]. vm_compute in E. injection E as <-. split; [reflexivity|].
  vm_compute. discriminate.
Qed.

(** ** Witness of the round trip *)
Definition empty_volume : Fat32 RamDisk :=
  MkFat32 (MkRamDisk []) 1 1 1 1 2 2 1 [] [] 0.
Definition sample_volume : Fat32 RamDisk := default empty_volume (sample_mounted 1 126).
Lemma sample_volume_wf : volume_wf sample_volume.
Proof.
  assert (sectors_per_cluster sample_volume = 1) as E1 by (vm_compute; reflexivity).
  assert (length (fat sample_volume) = 128%nat) as E2 by (vm_compute; reflexivity).
  assert (length (fat_dirty sample_volume) = 1%nat) as E3 by (vm_compute; reflexivity).
  assert (reserved_sectors sample_volume = 1) as E4 by (vm_compute; reflexivity).
  assert (first_data_sector sample_volume = 2) as E5 by (vm_compute; reflexivity).
  assert (capacity (device sample_volume) = 128) as E6 by (vm_compute; reflexivity).
  split; unfold clusters, EOF_MARK; rewrite ?E1, ?E2, ?E3, ?E4, ?E5, ?E6; try lia.
  assert (forallb (fun v => (0 <=? v) && (v <? 4294967296)) (fat sample_volume) = true) as Hb by (vm_compute; reflexivity).
  apply Forall_forall. intros v Hv. rewrite forallb_forall in Hb. apply list_elem_of_In in Hv.
  specialize (Hb v Hv). cbv beta in Hb. to_prop. unfold in_u. lia.
Qed.
Lemma sample_volume_synced : synced sample_volume.
Proof.
  intros i Hi. assert (i < length (fat_dirty sample_volume))%nat as Hl by by eapply lookup_lt_Some.
  assert (length (fat_dirty sample_volume) = 1%nat) as E by (vm_compute; reflexivity).
  assert (i = 0%nat) as -> by lia. vm_compute. reflexivity.
Qed.
Definition sample_name : str := bytes_of "notes.txt".
Lemma sample_name_good : good_name sample_name.
Proof.
  split; [|vm_compute; reflexivity]. unfold ascii_name. apply Forall_forall. intros c Hc.
  assert (forallb (fun c => (0 <? c) && (c <? 128)) sample_name = true) as Hb by (vm_compute; reflexivity).
  rewrite forallb_forall in Hb. apply list_elem_of_In in Hc. specialize (Hb c Hc). cbv beta in Hb. to_prop. lia.
Qed.
Lemma sample_room : room sample_volume [] 2 [] (S (lfn_count sample_name)) 0.
Proof.
  split.
  - split; [split; vm_compute; [intros E; discriminate E|reflexivity]|vm_compute; reflexivity].
  - vm_compute. intros E; discriminate E.
  - vm_compute. lia.
  - constructor.
  - vm_compute. reflexivity.
  - reflexivity.
  - reflexivity.
  - vm_compute. reflexivity.
Qed.
Lemma sample_can_write content : byte_list content -> Z.of_nat (length content) <= 60000 ->
  can_write sample_volume (bytes_of "/notes.txt") sample_name content [] 2 [] 0.
Proof.
  intros Hb Hl.
  assert (cluster_bytes sample_volume = 512) as E1 by (vm_compute; reflexivity).
  assert (count_free (fat sample_volume) = 125%nat) as E2 by (vm_compute; reflexivity).
  assert (div_ceil (Z.of_nat (length content)) 512 <= 118) as Hd by (rewrite div_ceil_spec by lia; zlia).
  split; [exact sample_volume_wf|exact sample_volume_synced|vm_compute; reflexivity|exact sample_name_good
    |exact sample_room|vm_compute; reflexivity| |done|lia|rewrite E1, E2; lia|rewrite E1; unfold CHAIN_GUARD; lia].
  assert (entries_of (dir_slots sample_volume ([] ++ [2])) = []) as E by (vm_compute; reflexivity).
  rewrite E. constructor.
Qed.
Lemma write_file_roundtrip_witness :
  exists s', write_file sample_now (bytes_of "/notes.txt") (replicate 600 7) (Some sample_volume) = Ret (Ok tt) (Some s') /\
    read_file (bytes_of "/notes.txt") (Some s') = Ret (Ok (replicate 600 7)) (Some s').
Proof.
  destruct (write_file_roundtrip sample_now sample_volume (bytes_of "/notes.txt") sample_name (replicate 600 7) [] 2 [] 0)
    as (s' & Ew & Er & _); [|exists s'; split; [exact Ew|exact Er]].
  apply sample_can_write; [|rewrite length_replicate; lia]. apply Forall_replicate. unfold in_u. lia.
Defined.
