(* ===== verification/Vfs.v ===== *)
(** * Open files, [vfs.rs]

    A handle is a private copy of a file's contents with a cursor.  Reading,
    writing and seeking work on the copy; [flush] writes it back through the
    file system when it was modified, and dropping the handle flushes it. *)
From S2P Require Import Prelude Bytes Text Disk Rtc Fat FatChain FatDir FatFile.

Inductive VfsError :=
| VNoDisk | VNotFound | VNotDir | VIsDir | VAlreadyExists | VNotEmpty | VInvalidName
| VOutOfSpace | VCorrupt | VIo.
Definition vfs_error (e : FatError) : VfsError :=
  match e with
  | NoDisk => VNoDisk
  | NotFound => VNotFound
  | NotDir => VNotDir
  | AlreadyExists => VAlreadyExists
  | NotEmpty => VNotEmpty
  | InvalidName => VInvalidName
  | OutOfSpace => VOutOfSpace
  | Corrupt => VCorrupt
  | InvalidVolume | Io _ => VIo
  end.

Inductive SeekFrom := Start (p : Z) | Current (p : Z) | End (p : Z).
Record Stat := MkStat { st_size : Z; st_is_dir : bool; ino : Z }.

(** FNV-1a over the bytes of the path. *)
Definition fnv_step (hash byte : Z) : Z := u64 (Z.lxor hash byte * 0x100000001B3).
Definition path_hash (path : str) : Z :=
  let hash := foldl fnv_step 0xcbf29ce484222325 (as_bytes path) in
  if hash =? 0 then 1 else hash.

Definition O_WRONLY : Z := Z.shiftl 1 0.
Definition O_RDWR : Z := Z.shiftl 1 1.
Definition O_CREAT : Z := Z.shiftl 1 2.
Definition O_TRUNC : Z := Z.shiftl 1 3.
Definition O_APPEND : Z := Z.shiftl 1 4.

Record FileHandle := MkHandle {
  path : str; data : list Z; cursor : Z; dirty : bool; writable : bool; dir_handle : bool }.

(** The largest [Vec<u8>]: [resize] beyond it panics. *)
Definition ISIZE_MAX : Z := 2 ^ 63 - 1.

(** ** Operations on the copy *)
(** [read] with a buffer of [n] bytes gives the bytes copied into it.  The
    slice [self.data[self.cursor..self.cursor + n]] is out of range when the
    cursor is behind the end, also for [n = 0]. *)
Definition read (n : Z) : ST FileHandle (list Z) := fun h =>
  if dir_handle h then Ret [] h else
  let avail := saturating_sub (Z.of_nat (length (data h))) (cursor h) in
  let n := Z.min avail n in
  if Z.of_nat (length (data h)) <? cursor h + n then Panic else
  Ret (take (Z.to_nat n) (drop (Z.to_nat (cursor h)) (data h)))
      (MkHandle (path h) (data h) (cursor h + n) (dirty h) (writable h) (dir_handle h)).

Definition resize (n : nat) (l : list Z) : list Z := take n (l ++ replicate (n - length l) 0).
Definition write (buf : list Z) : STR FileHandle VfsError Z := fun h =>
  if dir_handle h || negb (writable h) then Ret (Err VIsDir) h else
  let stop := u64 (cursor h + Z.of_nat (length buf)) in
  if ISIZE_MAX <? stop then Panic else
  let grown := if Z.of_nat (length (data h)) <? stop then resize (Z.to_nat stop) (data h) else data h in
  if stop <? cursor h then Panic else
  match splice grown (Z.to_nat (cursor h)) buf with
  | Some d => Ret (Ok (Z.of_nat (length buf))) (MkHandle (path h) d stop true (writable h) (dir_handle h))
  | None => Panic
  end.

Definition seek (pos : SeekFrom) : ST FileHandle Z := fun h =>
  let base := match pos with
              | Start p => i64 p
              | Current p => i64 (i64 (cursor h) + p)
              | End p => i64 (i64 (Z.of_nat (length (data h))) + p)
              end in
  let c := Z.max base 0 in
  Ret c (MkHandle (path h) (data h) c (dirty h) (writable h) (dir_handle h)).

Definition stat (h : FileHandle) : Stat :=
  MkStat (Z.of_nat (length (data h))) (dir_handle h) (path_hash (path h)).

(** ** Opening and flushing, on the mounted volume *)
Section vfs.
Context {D : Type} `{BlockDevice D} (rtc_now : D -> DateTime).
Local Abbreviation Volume := (option (Fat32 D)).

Definition open_dir (p : str) : FileHandle := MkHandle p [] 0 false false true.
Definition open_file (p : str) (flags : Z) (bytes : list Z) : FileHandle :=
  MkHandle p bytes (if is_set flags O_APPEND then Z.of_nat (length bytes) else 0) false
    (is_set flags (Z.lor O_WRONLY O_RDWR)) false.
Definition open (p : str) (flags : Z) : STR Volume VfsError FileHandle := fun v =>
  match path_is_dir p v with
  | Panic => Panic
  | Ret (Ok true) v => Ret (Ok (open_dir p)) v
  | Ret _ v =>
      match read_file p v with
      | Panic => Panic
      | Ret (Ok bytes) v => Ret (Ok (open_file p flags (if is_set flags O_TRUNC then [] else bytes))) v
      | Ret (Err NotFound) v =>
          if is_set flags O_CREAT then Ret (Ok (open_file p flags [])) v else Ret (Err VNotFound) v
      | Ret (Err e) v => Ret (Err (vfs_error e)) v
      end
  end.

Definition flush : STR (FileHandle * Volume) VfsError unit := fun '(h, v) =>
  if dirty h then
    match write_file rtc_now (path h) (data h) v with
    | Panic => Panic
    | Ret (Ok _) v => Ret (Ok tt) (MkHandle (path h) (data h) (cursor h) false (writable h) (dir_handle h), v)
    | Ret (Err e) v => Ret (Err (vfs_error e)) (h, v)
    end
  else Ret (Ok tt) (h, v).
(** [Drop]: the error of the flush is lost. *)
Definition drop_handle (h : FileHandle) : ST Volume unit := fun v =>
  match flush (h, v) with
  | Panic => Panic
  | Ret _ (_, v) => Ret tt v
  end.
End vfs.

(** ** The abstract file

    What a handle promises: a size, a byte at every offset (zero from the size
    on) and an offset, as POSIX describes [read], [write] and [lseek]. *)
Record File := MkFile { f_size : Z; f_byte : Z -> Z; f_offset : Z }.
Inductive op := Read (n : Z) | Write (buf : list Z) | Seek (pos : SeekFrom).
Inductive reply := Bytes (bs : list Z) | Count (r : result VfsError Z) | Position (p : Z).

Definition nth_byte (l : list Z) (i : Z) : Z := default 0 (l !! Z.to_nat i).
Definition overwrite (f : Z -> Z) (off : Z) (buf : list Z) (i : Z) : Z :=
  if (off <=? i) && (i <? off + Z.of_nat (length buf)) then nth_byte buf (i - off) else f i.
Definition target (f : File) (pos : SeekFrom) : Z :=
  match pos with Start p => p | Current p => f_offset f + p | End p => f_size f + p end.
Definition spec_step (w : bool) (o : op) (f : File) : reply * File :=
  match o with
  | Read n =>
      let k := Z.max 0 (Z.min n (f_size f - f_offset f)) in
      (Bytes (f_byte f <$> seqZ (f_offset f) k), MkFile (f_size f) (f_byte f) (f_offset f + k))
  | Write buf =>
      if w then
        let stop := f_offset f + Z.of_nat (length buf) in
        (Count (Ok (Z.of_nat (length buf))),
         MkFile (match buf with [] => f_size f | _ => Z.max (f_size f) stop end)
           (overwrite (f_byte f) (f_offset f) buf) stop)
      else (Count (Err VIsDir), f)
  | Seek pos => let p := Z.max 0 (target f pos) in (Position p, MkFile (f_size f) (f_byte f) p)
  end.
Fixpoint spec_run (w : bool) (ops : list op) (f : File) : list reply * File :=
  match ops with
  | [] => ([], f)
  | o :: ops =>
      let (r, f) := spec_step w o f in
      let (rs, f) := spec_run w ops f in (r :: rs, f)
  end.

(** What the code leaves out: reading, or writing nothing, with the offset
    behind the end, and positions beyond 63 bits. *)
Definition handled (o : op) (f : File) : bool :=
  match o with
  | Read n => (0 <=? n) && (f_offset f <=? f_size f)
  | Write buf => (f_offset f + Z.of_nat (length buf) <=? ISIZE_MAX) && (nonempty buf || (f_offset f <=? f_size f))
  | Seek pos => (- 2 ^ 63 <=? target f pos) && (target f pos <? 2 ^ 63)
  end.
Fixpoint all_handled (w : bool) (ops : list op) (f : File) : bool :=
  match ops with
  | [] => true
  | o :: ops => handled o f && all_handled w ops (snd (spec_step w o f))
  end.

Definition step (o : op) : ST FileHandle reply :=
  match o with
  | Read n => bs ← read n; mret (Bytes bs)
  | Write buf => r ← (write buf : ST FileHandle _); mret (Count r)
  | Seek pos => p ← seek pos; mret (Position p)
  end.
Fixpoint run (ops : list op) : ST FileHandle (list reply) :=
  match ops with
  | [] => mret []
  | o :: ops => r ← step o; rs ← run ops; mret (r :: rs)
  end.

Record represents (h : FileHandle) (f : File) : Prop := {
  rp_file : dir_handle h = false;
  rp_size : f_size f = Z.of_nat (length (data h));
  rp_limit : f_size f <= ISIZE_MAX;
  rp_byte : forall i, 0 <= i -> f_byte f i = nth_byte (data h) i;
  rp_offset : f_offset f = cursor h;
  rp_cursor : 0 <= cursor h < 2 ^ 63
}.
Definition is_write (o : op) : bool := match o with Write _ => true | _ => false end.

(** ** Simulation *)
Lemma i64_small x : - 2 ^ 63 <= x < 2 ^ 63 -> i64 x = x.
Proof.
  intros Hx. unfold swrap, wrap. pose proof (Z.mod_pos_bound x (2 ^ 64) ltac:(lia)).
  destruct (Z.ltb_spec (x mod 2 ^ 64) (2 ^ (64 - 1))); zlia.
Qed.
Lemma nth_byte_resize (l : list Z) n i : 0 <= i < Z.of_nat n -> nth_byte (resize n l) i = nth_byte l i.
Proof.
  intros Hi. unfold resize, nth_byte. rewrite lookup_take_lt by lia.
  destruct (decide (Z.to_nat i < length l)%nat); [by rewrite lookup_app_l|].
  rewrite lookup_app_r, lookup_replicate_2 by lia. by rewrite (lookup_ge_None_2 l) by lia.
Qed.
Lemma length_resize (l : list Z) n : length (resize n l) = n.
Proof. unfold resize. rewrite length_take, length_app, length_replicate. lia. Qed.
Lemma nth_byte_range (l : list Z) (a k : nat) : (a + k <= length l)%nat ->
  take k (drop a l) = nth_byte l <$> seqZ (Z.of_nat a) (Z.of_nat k).
Proof.
  intros Hl. apply list_eq_same_length with k; rewrite ?length_fmap, ?length_seqZ, ?length_take, ?length_drop; try lia.
  intros i x y Hi. rewrite lookup_take_lt, lookup_drop, list_lookup_fmap, lookup_seqZ_lt by lia. cbn [fmap option_fmap option_map].
  intros Hx Hy. injection Hy as <-. unfold nth_byte. replace (Z.to_nat _) with (a + i)%nat by lia. by rewrite Hx.
Qed.
Lemma nth_byte_splice (l buf l' : list Z) a i : splice l a buf = Some l' -> 0 <= i ->
  nth_byte l' i = overwrite (nth_byte l) (Z.of_nat a) buf i.
Proof.
  intros Hs Hi. unfold nth_byte at 1, overwrite. rewrite (splice_lookup _ _ _ _ _ Hs).
  repeat case_decide; destruct (Z.leb_spec (Z.of_nat a) i), (Z.ltb_spec i (Z.of_nat a + Z.of_nat (length buf)));
    cbn [andb]; try lia; [|done..].
  unfold nth_byte. by replace (Z.to_nat (i - Z.of_nat a)) with (Z.to_nat i - a)%nat by lia.
Qed.
Lemma read_represents h f n : represents h f -> handled (Read n) f = true ->
  exists h', step (Read n) h = Ret (fst (spec_step (writable h) (Read n) f)) h' /\
    represents h' (snd (spec_step (writable h) (Read n) f)) /\ path h' = path h /\ writable h' = writable h /\
    dirty h' = dirty h.
Proof.
  intros [Hf Hs Hm Hb Ho Hc] Hh. unfold ISIZE_MAX in Hm. cbn in Hh. to_prop. cbn [step spec_step fst snd].
  unfold mbind, st_bind, read. rewrite Hf. unfold saturating_sub.
  set (k := Z.max 0 (Z.min n (f_size f - f_offset f))).
  assert (Z.min (Z.max 0 (Z.of_nat (length (data h)) - cursor h)) n = k) as -> by lia.
  rewrite (proj2 (Z.ltb_ge _ _)) by lia.
  assert (take (Z.to_nat k) (drop (Z.to_nat (cursor h)) (data h)) = f_byte f <$> seqZ (f_offset f) k) as ->.
  { rewrite nth_byte_range by lia. rewrite !Z2Nat.id, Ho by lia.
    apply list_fmap_ext. intros i x Hx. apply lookup_seqZ in Hx. rewrite Hb; [done|lia]. }
  eexists. split; [reflexivity|]. split; [|done]. by split; unfold ISIZE_MAX; cbn; try lia.
Qed.
Lemma write_represents h f buf : represents h f -> handled (Write buf) f = true ->
  exists h', step (Write buf) h = Ret (fst (spec_step (writable h) (Write buf) f)) h' /\
    represents h' (snd (spec_step (writable h) (Write buf) f)) /\ path h' = path h /\ writable h' = writable h /\
    dirty h' = dirty h || writable h.
Proof.
  intros Hr Hh. pose proof Hr as [Hf Hs Hm Hb Ho Hc]. cbn [handled] in Hh. apply andb_true_iff in Hh as [Hl He].
  to_prop. unfold ISIZE_MAX in *. cbn [step spec_step]. unfold mbind, st_bind, write. rewrite Hf. cbn [orb].
  destruct (writable h) eqn:Ew; cbn [negb fst snd];
    [|eexists; split; [reflexivity|]; split; [done|]; by rewrite orb_false_r].
  rewrite (wrap_small 64 (cursor h + _)) by (unfold in_u; lia). unfold ISIZE_MAX.
  rewrite (proj2 (Z.ltb_ge (2 ^ 63 - 1) _)), (proj2 (Z.ltb_ge _ (cursor h))) by lia.
  set (stop := cursor h + Z.of_nat (length buf)).
  set (grown := if Z.of_nat (length (data h)) <? stop then _ else _).
  assert (Z.of_nat (length grown) = Z.max (f_size f) stop) as Hg.
  { unfold grown. case_match; to_prop; rewrite ?length_resize; lia. }
  assert (forall i, 0 <= i -> nth_byte grown i = nth_byte (data h) i) as Hgb.
  { intros i Hi. unfold grown. case_match; [|done]. destruct (decide (i < stop)); [apply nth_byte_resize; lia|].
    to_prop. unfold nth_byte. rewrite !lookup_ge_None_2; [done|lia|rewrite length_resize; lia]. }
  destruct (splice grown (Z.to_nat (cursor h)) buf) as [d|] eqn:Ed;
    [|unfold splice in Ed; case_decide; [done|lia]].
  pose proof (length_splice _ _ _ _ Ed) as Hd. rewrite orb_true_r.
  eexists. split; [unfold mret, st_ret; reflexivity|]. split; [|done].
  split; cbn [f_size f_byte f_offset data cursor dir_handle writable path]; try (done || lia).
  - rewrite Hd, Hg. destruct buf; cbn in *; to_prop; lia.
  - unfold ISIZE_MAX. destruct buf; cbn in *; lia.
  - intros i Hi. rewrite (nth_byte_splice _ _ _ _ _ Ed) by done. unfold overwrite. rewrite Z2Nat.id, Ho by lia.
    by rewrite Hb, Hgb.
Qed.
Lemma seek_represents h f pos : represents h f -> handled (Seek pos) f = true ->
  exists h', step (Seek pos) h = Ret (fst (spec_step (writable h) (Seek pos) f)) h' /\
    represents h' (snd (spec_step (writable h) (Seek pos) f)) /\ path h' = path h /\ writable h' = writable h /\
    dirty h' = dirty h.
Proof.
  intros [Hf Hs Hm Hb Ho Hc] Hh. unfold ISIZE_MAX in *. cbn [handled] in Hh. to_prop. cbn [step spec_step fst snd].
  unfold mbind, st_bind, seek.
  set (base := match pos with Start p => _ | Current p => _ | End p => _ end).
  assert (base = target f pos) as ->.
  { unfold base. destruct pos; cbn [target] in *; rewrite ?(i64_small (cursor h)), ?(i64_small (Z.of_nat _)) by lia;
      rewrite i64_small; lia. }
  eexists. split; [unfold mret, st_ret; rewrite Z.max_comm; reflexivity|]. split; [|done].
  split; cbn; try (done || lia).
Qed.
Lemma step_represents h f o : represents h f -> handled o f = true ->
  exists h', step o h = Ret (fst (spec_step (writable h) o f)) h' /\
    represents h' (snd (spec_step (writable h) o f)) /\ path h' = path h /\ writable h' = writable h /\
    dirty h' = dirty h || writable h && is_write o.
Proof.
  intros Hr Hh. destruct o; cbn [is_write]; rewrite ?andb_true_r, ?andb_false_r, ?orb_false_r.
  - by apply read_represents. - by apply write_represents. - by apply seek_represents.
Qed.

Lemma run_represents ops : forall h f, represents h f -> all_handled (writable h) ops f = true ->
  exists h', run ops h = Ret (fst (spec_run (writable h) ops f)) h' /\
    represents h' (snd (spec_run (writable h) ops f)) /\ path h' = path h /\
    dirty h' = dirty h || writable h && existsb is_write ops.
Proof.
  induction ops as [|o ops IH]; intros h f Hr Ha.
  { exists h. cbn [existsb]. by rewrite andb_false_r, orb_false_r. }
  cbn [all_handled] in Ha. to_prop. destruct (step_represents h f o Hr) as (h1 & E1 & Hr1 & Hp1 & Hw1 & Hd1); [done|].
  cbn [run spec_run existsb]. rewrite (st_bind_ret _ _ _ _ _ E1).
  destruct (spec_step (writable h) o f) as [r f1]. cbn [fst snd] in *.
  destruct (IH h1 f1 Hr1) as (h2 & E2 & Hr2 & Hp2 & Hd2); [by rewrite Hw1|]. rewrite Hw1 in *.
  rewrite (st_bind_ret _ _ _ _ _ E2). destruct (spec_run (writable h) ops f1) as [rs f2]. cbn [fst snd] in *.
  exists h2. split; [done|]. split; [done|]. split; [congruence|]. rewrite Hd2, Hd1.
  by rewrite andb_orb_distrib_r, orb_assoc.
Qed.

(** C7: A handle implements the abstract file.  Any sequence of reads, writes
    and seeks that stays within what the code handles gives, reply by reply, what
    the abstract file gives, and ends in a handle that represents its final
    state; the handle is modified exactly when it was or a write was accepted.
    Behind the end of the file the code departs from it: a read there, which has
    nothing to return, panics. *)
Theorem handle_refines_file h f ops :
  represents h f ->
  (all_handled (writable h) ops f = true ->
   exists h', run ops h = Ret (fst (spec_run (writable h) ops f)) h' /\
     represents h' (snd (spec_run (writable h) ops f)) /\ path h' = path h /\
     dirty h' = dirty h || writable h && existsb is_write ops) /\
  (forall n, f_size f < f_offset f -> 0 <= n -> fst (spec_step (writable h) (Read n) f) = Bytes [] /\ step (Read n) h = Panic).
Proof.
  intros Hr. split; [by apply run_represents|].
  intros n Hlt Hn. destruct Hr as [Hf Hs Hm Hb Ho Hc]. split.
  - cbn [spec_step fst]. by replace (Z.max 0 _) with 0 by lia.
  - cbn [step]. unfold mbind, st_bind, read. rewrite Hf. unfold saturating_sub.
    rewrite (proj2 (Z.ltb_lt _ _)); [done|lia].
Qed.
Lemma handle_refines_file_witness :
  let h := MkHandle (bytes_of "/f") (bytes_of "hello") 0 false true false in
  let ops := [Read 2; Write (bytes_of "y"); Seek (End 2); Write (bytes_of "!"); Seek (Start 0); Read 99] in
  exists h', run ops h =
    Ret [Bytes (bytes_of "he"); Count (Ok 1); Position 7; Count (Ok 1); Position 0;
         Bytes (bytes_of "heylo" ++ [0; 0] ++ bytes_of "!")] h' /\ dirty h' = true.
Proof.
  destruct (handle_refines_file (MkHandle (bytes_of "/f") (bytes_of "hello") 0 false true false)
    (MkFile 5 (nth_byte (bytes_of "hello")) 0)
    [Read 2; Write (bytes_of "y"); Seek (End 2); Write (bytes_of "!"); Seek (Start 0); Read 99]) as [Hrun _].
  - split; cbn; try done; unfold ISIZE_MAX; lia.
  - destruct Hrun as (h' & E & _ & _ & Hd); [vm_compute; reflexivity|]. exists h'. split; [|exact Hd].
    rewrite E. vm_compute. reflexivity.
Defined.

(** ** Looking does not change the volume *)
Definition readonly {S A} (m : ST S A) : Prop := forall s r s', m s = Ret r s' -> s' = s.
Create HintDb readonly.
#[export] Hint Constants Opaque : readonly.
Lemma readonly_bind {S E A B} (m : STR S E A) (k : A -> STR S E B) :
  readonly m -> (forall a, readonly (k a)) -> readonly (m ≫= k : STR S E B).
Proof.
  intros Hm Hk s r s'. unfold mbind, str_bind. destruct (m s) as [[a|e] s1|] eqn:E1; intros E2; [| |done].
  - apply Hm in E1 as ->. by eapply Hk.
  - injection E2 as <- <-. by eapply Hm.
Qed.
Lemma readonly_ret {S E A} (a : A) : readonly (mret a : STR S E A).
Proof. by intros s ? ? [= _ <-]. Qed.
Lemma readonly_throw {S E A} (e : E) : readonly (throw e : STR S E A).
Proof. by intros s ? ? [= _ <-]. Qed.
#[export] Hint Resolve readonly_ret readonly_throw : readonly.
(** Split a computation into its parts. *)
Ltac readonly :=
  repeat first [solve [auto with readonly] | apply readonly_bind; [|intros] | case_match].

Section readonly.
Context {D : Type} `{BlockDevice D}.
Lemma readonly_dev_read lba : readonly (dev_read lba : FS (list Z)).
Proof. by intros s ? ? [= _ <-]. Qed.
Lemma readonly_sector_of c i : readonly (sector_of (D := D) c i).
Proof. by intros s ? ? [= _ <-]. Qed.
Lemma readonly_spc : readonly (spc (D := D)).
Proof. by intros s ? ? [= _ <-]. Qed.
Lemma readonly_root : readonly (root (D := D)).
Proof. by intros s ? ? [= _ <-]. Qed.
Lemma readonly_next_cluster c : readonly (next_cluster (D := D) c).
Proof. intros s r s'. unfold next_cluster. destruct (_ !! _); [|done]. by intros [= _ <-]. Qed.
Hint Resolve readonly_dev_read readonly_sector_of readonly_spc readonly_root readonly_next_cluster : readonly.
Lemma readonly_read_dir_sectors n : forall c i lfn out, readonly (read_dir_sectors (D := D) n c i lfn out).
Proof. induction n as [|n IH]; intros; cbn [read_dir_sectors]; readonly. Qed.
Hint Resolve readonly_read_dir_sectors : readonly.
Lemma readonly_read_dir c : readonly (read_dir c : FS (list DirEntry)).
Proof.
  unfold read_dir. generalize CHAIN_FUEL 0 (@nil (list Z)) (@nil DirEntry). intros fuel. revert c.
  induction fuel as [|fuel IH]; intros; cbn [read_dir_loop]; readonly.
Qed.
Lemma readonly_read_file_sectors n : forall c i rem data, readonly (read_file_sectors (D := D) n c i rem data).
Proof. induction n as [|n IH]; intros; cbn [read_file_sectors]; readonly. Qed.
Hint Resolve readonly_read_dir readonly_read_file_sectors : readonly.
Lemma readonly_read_file_data c sz : readonly (read_file_data c sz : FS (list Z)).
Proof.
  unfold read_file_data. case_match eqn:E; [readonly|]. clear E. generalize CHAIN_FUEL 0 (@nil Z). intros fuel. revert c sz.
  induction fuel as [|fuel IH]; intros; cbn [read_file_loop]; readonly.
Qed.
Lemma readonly_walk_dirs parts : forall c, readonly (walk_dirs parts c : FS Z).
Proof. induction parts as [|p parts IH]; intros; cbn [walk_dirs]; readonly. Qed.
Hint Resolve readonly_read_file_data readonly_walk_dirs : readonly.
Lemma readonly_resolve_parent p : readonly (resolve_parent p : FS (D := D) (Z * str)).
Proof. unfold resolve_parent. readonly. Qed.
Lemma readonly_find_dir_entry c n : readonly (find_dir_entry c n : FS (option DirEntry)).
Proof.
  intros s r s'. unfold find_dir_entry. destruct (read_dir c s) as [[es|e] s1|] eqn:E; intros E'; [| |done];
    injection E' as <- <-; by eapply readonly_read_dir.
Qed.
Hint Resolve readonly_resolve_parent readonly_find_dir_entry : readonly.
Lemma readonly_mounted_fat {A} (f : FS (D := D) A) : readonly f -> readonly (mounted_fat f : VOL (D := D) A).
Proof.
  intros Hf v r v'. unfold mounted_fat. destruct v as [s|]; [|by intros [= _ <-]].
  destruct (f s) as [a s1|] eqn:E; [|done]. intros [= _ <-]. f_equal. by eapply Hf.
Qed.
Lemma readonly_read_file p : readonly (read_file p : VOL (D := D) (list Z)).
Proof. apply readonly_mounted_fat. unfold read_file_impl. readonly. Qed.
Lemma readonly_path_is_dir p : readonly (path_is_dir p : VOL (D := D) bool).
Proof. apply readonly_mounted_fat. unfold is_dir_impl. readonly. Qed.
Lemma readonly_open p flags : readonly (open p flags : STR (option (Fat32 D)) VfsError FileHandle).
Proof.
  intros v r v'. unfold open. destruct (path_is_dir p v) as [r1 v1|] eqn:E1; [|done].
  apply readonly_path_is_dir in E1 as ->. destruct r1 as [[]|]; try by intros [= _ <-].
  all: destruct (read_file p v) as [r2 v2|] eqn:E2; [|done]; apply readonly_read_file in E2 as ->;
    repeat case_match; by intros [= _ <-].
Qed.
End readonly.

(** ** Closing *)
Section closing.
Context {D : Type} `{BlockDevice D} (rtc_now : D -> DateTime).
Local Abbreviation Volume := (option (Fat32 D)).

Lemma open_clean p flags (v : Volume) h v' : open p flags v = Ret (Ok h) v' -> dirty h = false.
Proof. unfold open. intros E. by repeat case_match; simplify_eq. Qed.

(** Opening and closing a file without writing to it never changes the
    volume, whatever the flags.  So [O_CREAT] alone does not create the file and
    [O_TRUNC] alone does not truncate it: the handle shows an empty file, and
    once it is dropped the path is as absent, or as long, as before. *)
Theorem open_close_unchanged p flags (v : Volume) h v' :
  open p flags v = Ret (Ok h) v' ->
  v' = v /\ drop_handle rtc_now h v' = Ret tt v /\
  (dir_handle h = false -> is_set flags O_TRUNC = true \/ read_file p v = Ret (Err NotFound) v -> data h = []) /\
  (forall r, read_file p v = Ret r v -> forall v2, drop_handle rtc_now h v' = Ret tt v2 -> read_file p v2 = Ret r v2).
Proof.
  intros E. pose proof (readonly_open _ _ _ _ _ E) as ->.
  assert (drop_handle rtc_now h v = Ret tt v) as Ed by (unfold drop_handle, flush; by rewrite (open_clean _ _ _ _ _ E)).
  split; [done|]. split; [done|]. split.
  - unfold open in E. destruct (path_is_dir p v) as [r1 v1|] eqn:E1; [|done].
    pose proof (readonly_path_is_dir _ _ _ _ E1) as ->.
    intros Hd [Ht|Hn]; [|rewrite Hn in E]; repeat case_match; by simplify_eq/=.
  - intros r Hr v2. rewrite Ed. by intros [= <-].
Qed.
(** Looking a name of the root directory up, when it is there and when not. *)
Lemma is_dir_root (s : Fat32 D) p n rest : components p = [n] -> len_utf8 n <= MAX_NAME ->
  volume_wf s -> chain s (root_cluster s :: rest) -> Z.of_nat (length rest) <= CHAIN_GUARD ->
  path_is_dir p (Some s) =
    Ret (match find (fun e => name_matches (name e) n) (entries_of (dir_slots s (root_cluster s :: rest))) with
         | Some e => Ok (is_dir e) | None => Err NotFound end) (Some s).
Proof.
  intros Hp Hn Hwf Hch Hl. unfold path_is_dir, mounted_fat, is_dir_impl.
  rewrite bool_decide_false by (intros ->; by vm_compute in Hp).
  rewrite (fs_bind_ok _ _ _ _ _ (resolve_root s p n Hp Hn)). cbv iota.
  rewrite (fs_bind_ok _ _ _ _ _ (find_dir_entry_run s (root_cluster s) rest n Hwf Hch Hl)).
  by destruct (find _ _).
Qed.
Lemma read_absent (s : Fat32 D) p n rest : components p = [n] -> len_utf8 n <= MAX_NAME ->
  volume_wf s -> chain s (root_cluster s :: rest) -> Z.of_nat (length rest) <= CHAIN_GUARD ->
  Forall (fun e => name_matches (name e) n = false) (entries_of (dir_slots s (root_cluster s :: rest))) ->
  read_file p (Some s) = Ret (Err NotFound) (Some s).
Proof.
  intros Hp Hn Hwf Hch Hl Hnew. unfold read_file, mounted_fat, read_file_impl.
  rewrite (fs_bind_ok _ _ _ _ _ (resolve_root s p n Hp Hn)). cbv iota.
  rewrite (fs_bind_ok _ _ _ _ _ (read_dir_run s _ rest Hwf Hch Hl)).
  induction Hnew as [|e es He _ IH]; [done|]. cbn [find]. by rewrite He, andb_false_r.
Qed.

Definition new_file : File := MkFile 0 (fun _ => 0) 0.
Definition contents (f : File) : list Z := f_byte f <$> seqZ 0 (f_size f).
Lemma represents_contents h f : represents h f -> contents f = data h.
Proof.
  intros [_ Hs _ Hb _ _]. unfold contents. rewrite Hs.
  transitivity (take (length (data h)) (drop 0 (data h))); [|by rewrite drop_0, firstn_all].
  rewrite nth_byte_range by lia.
  apply list_fmap_ext. intros i x Hx. apply lookup_seqZ in Hx. apply Hb. lia.
Qed.
Lemma open_new (s : Fat32 D) p n flags content pcs1 c pcs2 j :
  can_write s p n content pcs1 c pcs2 j -> is_set flags O_CREAT = true ->
  open p flags (Some s) = Ret (Ok (open_file p flags [])) (Some s).
Proof.
  intros [Hwf _ Hp Hn Hroom Hroot Hnew _ _ _ _] Hc.
  destruct (root_chain s pcs1 c pcs2 _ j Hroom Hroot) as (rest & Ep & Hch & Hle). rewrite Ep in Hnew.
  pose proof (good_name_length n Hn). unfold open.
  rewrite (is_dir_root s p n rest), find_new by done.
  by rewrite (read_absent s p n rest), Hc by done.
Qed.
Lemma open_written (s s' : Fat32 D) p n content pcs1 c pcs2 j cs flags :
  can_write s p n content pcs1 c pcs2 j -> written s s' n content pcs1 c pcs2 j cs ->
  is_set flags O_TRUNC = false ->
  open p flags (Some s') = Ret (Ok (open_file p flags content)) (Some s').
Proof.
  intros Hcan Hwr Ht. pose proof Hcan as [Hwf _ Hp Hn Hroom Hroot Hnew _ _ _ _].
  pose proof Hwr as [Hg Hwf' _ _ _ _ _ Hdir Hent _ _]. pose proof (good_name_length n Hn).
  destruct (root_chain s pcs1 c pcs2 _ j Hroom Hroot) as (rest & Ep & Hch & Hle). rewrite <- (sg_root _ _ Hg) in Ep.
  assert (Forall (fun e => name_matches (name e) n = false) (entries_of (pre_slots s pcs1 c j))) as HA.
  { rewrite (entries_room s pcs1 c pcs2 _ j Hwf Hroom) in Hnew. by apply Forall_app in Hnew as [? _]. }
  unfold open. rewrite (is_dir_root s' p n rest), <- Ep, Hent by (done || congruence).
  assert (forall A B e, Forall (fun e => name_matches (name e) n = false) A -> name e = n -> is_dir e = false ->
    find (fun e => name_matches (name e) n) (A ++ e :: B) = Some e) as Hfind.
  { intros A B e HA' He _. induction HA' as [|x A Hx _ IH]; cbn [app find]; [by rewrite He, name_matches_refl|].
    by rewrite Hx. }
  rewrite Hfind by done. cbn [is_dir].
  unfold read_file, mounted_fat.
  rewrite (remount_reads s s' p n content pcs1 c pcs2 j cs) by (done || apply same_geometry_refl). by rewrite Ht.
Qed.

End closing.
Lemma open_close_unchanged_witness :
  exists h, open (bytes_of "/notes.txt") (Z.lor O_RDWR O_CREAT) (Some sample_volume) = Ret (Ok h) (Some sample_volume) /\
    drop_handle sample_now h (Some sample_volume) = Ret tt (Some sample_volume).
Proof.
  pose proof (open_new sample_volume _ _ (Z.lor O_RDWR O_CREAT) [] _ _ _ _
    (sample_can_write [] ltac:(constructor) ltac:(cbn; lia)) ltac:(reflexivity)) as E.
  eexists. split; [exact E|].
  destruct (open_close_unchanged sample_now _ _ _ _ _ E) as (_ & Ed & _). exact Ed.
Defined.
Definition sample_ops : list op :=
  [Write (bytes_of "hello"); Seek (Start 1); Read 3; Seek (End 2); Write (bytes_of "!")].
