(* ===== verification/Session.v ===== *)
(** * The desktop session file, [session.rs], and the home directory, [users.rs]

    Windows and remembered geometries are written to a line-based text file and
    read back at boot, skipping what does not parse. *)
From S2P Require Import Prelude Bytes Text Disk Rtc Fat.

(** ** [users.rs] *)
Definition USER : str := bytes_of "macha".
Definition USERS_DIR : str := bytes_of "/users".
Definition home_of (user : str) : str := USERS_DIR ++ bytes_of "/" ++ user.
Definition home : str := home_of USER.
Definition desktop : str := home ++ bytes_of "/Desktop".
Definition documents : str := home ++ bytes_of "/Documents".

(** ** [session.rs] *)
Record SessionWindow := MkSessionWindow {
  app : str; win_x : Z; win_y : Z; cols : Z; rows : Z; minimized : bool; maximized : bool }.
Record SessionData := MkSessionData { windows : list SessionWindow; remembered : list SessionWindow }.
Definition empty_session : SessionData := MkSessionData [] [].
Definition SESSION_PATH : str := bytes_of "/system/desktop.session".

(** [b as u8], formatted *)
Definition bool_field (b : bool) : str := uint_to_string (if b then 1 else 0).
(** The fields of a format string separated by single spaces. *)
Fixpoint spaced (ws : list str) : str :=
  match ws with
  | [] => []
  | [w] => w
  | w :: ws => w ++ 32 :: spaced ws
  end.
Definition geometry (w : SessionWindow) : list str :=
  [app w; int_to_string (win_x w); int_to_string (win_y w); uint_to_string (cols w); uint_to_string (rows w)].
Definition window_line (w : SessionWindow) : str :=
  spaced (bytes_of "window" :: geometry w ++ [bool_field (minimized w); bool_field (maximized w)]).
Definition remembered_line (w : SessionWindow) : str :=
  spaced (bytes_of "remembered" :: geometry w ++ [bool_field (maximized w)]).
Definition header : str := bytes_of "# MachaOS desktop session".
Definition serialize (data : SessionData) : str :=
  (header ++ [10]) ++ (windows data ≫= (fun w => window_line w ++ [10])) ++
  (remembered data ≫= (fun w => remembered_line w ++ [10])).

Definition parse_bool (value : str) : bool :=
  bool_decide (value = bytes_of "1") || bool_decide (value = bytes_of "true").
(** [parts.next()?] *)
Definition next (parts : list str) : option (str * list str) :=
  match parts with [] => None | w :: ws => Some (w, ws) end.
Definition parse_entry (parts : list str) (window : bool) : option SessionWindow :=
  '(app, parts) ← next parts;
  '(w, parts) ← next parts; x ← parse_int 32 w;
  '(w, parts) ← next parts; y ← parse_int 32 w;
  '(w, parts) ← next parts; cols ← parse_uint 64 w;
  '(w, parts) ← next parts; rows ← parse_uint 64 w;
  if window then
    '(w, parts) ← next parts;
    let minimized := parse_bool w in
    '(w, parts) ← next parts;
    Some (MkSessionWindow app x y cols rows minimized (parse_bool w))
  else
    '(w, parts) ← next parts;
    Some (MkSessionWindow app x y cols rows false (parse_bool w)).
(** The body of the loop over the lines. *)
Definition parse_line (data : SessionData) (line : str) : SessionData :=
  let line := trim line in
  if negb (nonempty line) || bool_decide (head line = Some 35) then data else
  match split_whitespace line with
  | [] => data
  | kind :: parts =>
      if bool_decide (kind = bytes_of "window") then
        match parse_entry parts true with
        | None => data
        | Some e => MkSessionData (windows data ++ [e]) (remembered data)
        end
      else if bool_decide (kind = bytes_of "remembered") then
        match parse_entry parts false with
        | None => data
        | Some e => MkSessionData (windows data) (remembered data ++ [e])
        end
      else data
  end.
Definition parse (text : str) : SessionData := foldl parse_line empty_session (lines text).

Section disk.
Context {D : Type} `{BlockDevice D} (rtc_now : D -> DateTime).
Definition save_to_disk (data : SessionData) : ST (option (Fat32 D)) bool := fun v =>
  match write_file rtc_now SESSION_PATH (as_bytes (serialize data)) v with
  | Ret (Ok _) v => Ret true v
  | Ret (Err _) v => Ret false v
  | Panic => Panic
  end.
Definition load_from_disk : ST (option (Fat32 D)) SessionData := fun v =>
  match read_file SESSION_PATH v with
  | Ret (Ok bytes) v => Ret (parse (default [] (from_utf8 bytes))) v
  | Ret (Err _) v => Ret empty_session v
  | Panic => Panic
  end.
End disk.

(** ** Facts *)
Definition word (w : str) : Prop := w <> [] /\ Forall (fun c => is_whitespace c = false) w.

Lemma split_spaced ws : ws <> [] -> Forall word ws -> split_whitespace (spaced ws) = ws.
Proof.
  intros Hne Hw. unfold split_whitespace. induction Hw as [|w ws [Hn Hc] Hws IH]; [done|].
  assert (nonempty w = true) as Hw by (by destruct w). destruct ws as [|w' ws].
  - cbn [spaced]. rewrite split_on_none by done. by rewrite filter_cons_True.
  - change (spaced (w :: w' :: ws)) with (w ++ 32 :: spaced (w' :: ws)). rewrite split_on_app_sep by done.
    rewrite filter_cons_True by done. by rewrite IH.
Qed.
(** Lines written one after another are read back, unless one ends in a carriage
    return. *)
Lemma lines_of (ls : list str) : Forall (fun l => 10 ∉ l /\ last l <> Some 13) ls ->
  lines (ls ≫= (fun l => l ++ [10])) = ls.
Proof.
  unfold lines. induction 1 as [|l ls [Hl Hc] _ IH]; [done|]. cbn [mbind list_bind]. rewrite <- app_assoc. cbn [Datatypes.app].
  rewrite split_on_app_sep; [| |done].
  2: { apply Forall_forall. intros c Hx. apply Z.eqb_neq. by intros <-. }
  assert (strip_cr l = l) as Hs.
  { unfold strip_cr. rewrite <- head_reverse in Hc. unfold reverse in Hc. rewrite <- rev_alt in Hc. destruct (rev l) as [|c r]; [done|].
    cbn [head] in Hc. destruct (decide (c = 13)) as [->|]; [done|]. by repeat case_match. }
  fold (mbind (M := list) (fun l : str => l ++ [10]) ls). set (rest := split_on _ _) in *.
  destruct rest as [|p ps] eqn:E; [|cbn [strip_endings] in *; by rewrite Hs, IH].
  exfalso. revert E. unfold rest. destruct (ls ≫= _) as [|c s]; [done|]. cbn [split_on]. repeat case_match; done.
Qed.
Lemma trim_start_id s c s' : s = c :: s' -> is_whitespace c = false -> trim_start_matches is_whitespace s = s.
Proof. intros -> Hc. cbn [trim_start_matches]. by rewrite Hc. Qed.
Lemma trim_id s c d : head s = Some c -> last s = Some d -> is_whitespace c = false -> is_whitespace d = false ->
  trim s = s.
Proof.
  intros Hh Hl Hc Hd. unfold trim, trim_end_matches. destruct s as [|x s']; [done|]. injection Hh as ->.
  rewrite (trim_start_id _ c s' eq_refl Hc). rewrite <- head_reverse in Hl. unfold reverse in Hl. rewrite <- rev_alt in Hl.
  destruct (rev (c :: s')) as [|y r] eqn:E; [done|]. injection Hl as ->.
  rewrite (trim_start_id _ d r eq_refl Hd), <- E. apply rev_involutive.
Qed.
Lemma word_head w : word w -> exists c, head w = Some c /\ is_whitespace c = false.
Proof. intros [Hn Hc]. destruct w as [|c w]; [done|]. exists c. by inversion Hc. Qed.
Lemma word_last w : word w -> exists c, last w = Some c /\ is_whitespace c = false.
Proof.
  intros [Hn Hc]. destruct (last w) as [c|] eqn:E; [|by apply last_None in E].
  exists c. split; [done|]. rewrite Forall_forall in Hc. apply Hc. by apply last_Some_elem_of.
Qed.
Lemma spaced_ends w ws : Forall word (w :: ws) ->
  head (spaced (w :: ws)) = head w /\ (exists d, last (spaced (w :: ws)) = Some d /\ is_whitespace d = false).
Proof.
  revert w. induction ws as [|w' ws IH]; intros w Hw; inversion_clear Hw as [|? ? Hw1 Hws].
  - split; [done|]. by apply word_last.
  - change (spaced (w :: w' :: ws)) with (w ++ 32 :: spaced (w' :: ws)). split; [by destruct Hw1, w|].
    destruct (IH w' Hws) as [_ (d & Hd & Hdw)]. exists d. split; [|done].
    rewrite last_app, last_cons, Hd. done.
Qed.
(** The characters of the words, and spaces. *)
Lemma spaced_no ws c : is_whitespace c = true -> c <> 32 -> Forall word ws -> c ∉ spaced ws.
Proof.
  intros Hc H32. induction 1 as [|w ws Hw Hws IH]; [by apply not_elem_of_nil|].
  assert (c ∉ w) as Hn. { intros Hx. destruct Hw as [_ Hw]. rewrite Forall_forall in Hw. specialize (Hw c Hx). congruence. }
  destruct ws as [|w' ws]; [done|]. change (spaced (w :: w' :: ws)) with (w ++ 32 :: spaced (w' :: ws)).
  rewrite not_elem_of_app, not_elem_of_cons. done.
Qed.
Lemma line_plain w ws : Forall word (w :: ws) -> 10 ∉ spaced (w :: ws) /\ last (spaced (w :: ws)) <> Some 13.
Proof.
  intros Hw. split; [by apply spaced_no|]. destruct (spaced_ends w ws Hw) as [_ (d & -> & Hd)]. by intros [= ->].
Qed.
Lemma parse_line_words data kind parts : Forall word (kind :: parts) -> head kind <> Some 35 ->
  parse_line data (spaced (kind :: parts)) =
    if bool_decide (kind = bytes_of "window") then
      match parse_entry parts true with
      | None => data | Some e => MkSessionData (windows data ++ [e]) (remembered data) end
    else if bool_decide (kind = bytes_of "remembered") then
      match parse_entry parts false with
      | None => data | Some e => MkSessionData (windows data) (remembered data ++ [e]) end
    else data.
Proof.
  intros Hw Hk. unfold parse_line. destruct (spaced_ends kind parts Hw) as [Hh (d & Hl & Hd)].
  assert (word kind) as Hkw by by inversion Hw. destruct (word_head kind Hkw) as (c & Hc & Hcw).
  rewrite (trim_id _ c d) by (congruence || done).
  rewrite (bool_decide_false (head _ = _)) by congruence. rewrite split_spaced by done.
  rewrite Hc in Hh. by destruct (spaced (kind :: parts)).
Qed.

Definition window_ok (w : SessionWindow) : Prop :=
  word (app w) /\ - 2 ^ 31 <= win_x w < 2 ^ 31 /\ - 2 ^ 31 <= win_y w < 2 ^ 31 /\ in_u 64 (cols w) /\ in_u 64 (rows w).
Definition session_ok (d : SessionData) : Prop :=
  Forall window_ok (windows d) /\ Forall (fun w => window_ok w /\ minimized w = false) (remembered d).

Lemma digits_word v : word (uint_to_string v).
Proof.
  split; [apply uint_to_string_nonempty|]. eapply Forall_impl; [apply uint_to_string_digits|].
  intros c. unfold is_ascii_digit, is_whitespace. lia.
Qed.
Lemma int_word v : word (int_to_string v).
Proof.
  unfold int_to_string. case_match; [|apply digits_word]. split; [done|]. constructor; [done|apply digits_word].
Qed.
Lemma geometry_words w : window_ok w -> Forall word (geometry w).
Proof. intros (Ha & _). repeat constructor; try apply Ha; apply int_word || apply digits_word. Qed.
Lemma bool_word b : word (bool_field b).
Proof. apply digits_word. Qed.
Lemma parse_bool_field b : parse_bool (bool_field b) = b.
Proof. by destruct b; vm_compute. Qed.
Lemma parse_geometry w rest window : window_ok w ->
  parse_entry (geometry w ++ rest) window =
    (if window then
       '(m, parts) ← next rest; '(x, parts) ← next parts;
       Some (MkSessionWindow (app w) (win_x w) (win_y w) (cols w) (rows w) (parse_bool m) (parse_bool x))
     else '(x, parts) ← next rest;
       Some (MkSessionWindow (app w) (win_x w) (win_y w) (cols w) (rows w) false (parse_bool x))).
Proof.
  intros (_ & Hx & Hy & Hc & Hr). unfold in_u in *. unfold geometry, parse_entry. cbn [Datatypes.app next mbind option_bind].
  rewrite !parse_int_to_string by lia. cbn [mbind option_bind]. rewrite !parse_uint_to_string by lia. done.
Qed.

Lemma literal_word s : nonempty (bytes_of s) && forallb (fun c => negb (is_whitespace c)) (bytes_of s) = true ->
  word (bytes_of s).
Proof.
  intros H. to_prop. split; [by intros E; rewrite E in *|]. apply Forall_forall. intros c Hc.
  rewrite forallb_forall in *. apply list_elem_of_In in Hc. apply negb_true_iff. auto.
Qed.
Lemma window_words w : window_ok w ->
  Forall word (bytes_of "window" :: geometry w ++ [bool_field (minimized w); bool_field (maximized w)]).
Proof.
  intros Hw. constructor; [by apply literal_word|]. apply Forall_app. split; [by apply geometry_words|].
  repeat constructor; apply bool_word.
Qed.
Lemma remembered_words w : window_ok w ->
  Forall word (bytes_of "remembered" :: geometry w ++ [bool_field (maximized w)]).
Proof.
  intros Hw. constructor; [by apply literal_word|]. apply Forall_app. split; [by apply geometry_words|].
  repeat constructor; apply bool_word.
Qed.
Lemma parse_windows ws : forall data, Forall window_ok ws ->
  foldl parse_line data (window_line <$> ws) = MkSessionData (windows data ++ ws) (remembered data).
Proof.
  induction ws as [|w ws IH]; intros data Hw; inversion_clear Hw as [|? ? Hw1 Hws]; cbn [fmap list_fmap foldl].
  { rewrite app_nil_r. by destruct data. }
  assert (parse_line data (window_line w) = MkSessionData (windows data ++ [w]) (remembered data)) as ->.
  { unfold window_line. rewrite parse_line_words by (done || by apply window_words).
    rewrite bool_decide_true, parse_geometry by done. cbn [next mbind option_bind]. rewrite !parse_bool_field. by destruct w. }
  change (list_fmap _ _ ?f ?l) with (f <$> l). rewrite IH by done. cbn [windows remembered]. by rewrite <- app_assoc.
Qed.
Lemma parse_remembered ws : forall data, Forall (fun w => window_ok w /\ minimized w = false) ws ->
  foldl parse_line data (remembered_line <$> ws) = MkSessionData (windows data) (remembered data ++ ws).
Proof.
  induction ws as [|w ws IH]; intros data Hw; inversion_clear Hw as [|? ? [Hw1 Hm] Hws]; cbn [fmap list_fmap foldl].
  { rewrite app_nil_r. by destruct data. }
  assert (parse_line data (remembered_line w) = MkSessionData (windows data) (remembered data ++ [w])) as ->.
  { unfold remembered_line. rewrite parse_line_words by (done || by apply remembered_words).
    rewrite bool_decide_false, bool_decide_true, parse_geometry by done. cbn [next mbind option_bind].
    rewrite parse_bool_field. destruct w. cbn in *. by subst. }
  change (list_fmap _ _ ?f ?l) with (f <$> l). rewrite IH by done. cbn [windows remembered]. by rewrite <- app_assoc.
Qed.
Lemma serialize_lines d : serialize d =
  (header :: (window_line <$> windows d) ++ (remembered_line <$> remembered d)) ≫= (fun l => l ++ [10]).
Proof. unfold serialize. cbn [mbind list_bind]. by rewrite bind_app, !list_fmap_bind. Qed.

Lemma not_elem_of_header : 10 ∉ header.
Proof. by apply (bool_decide_unpack _); vm_compute. Qed.

Section session.
Context {D : Type} `{BlockDevice D}.
(** Parsing the serialised session gives the session back, whatever windows
    it has, as long as their names are words and their numbers fit the fields;
    lines that are empty, comments or of another kind do not matter, wherever
    they are inserted.  Hence a session file that holds the bytes of a saved
    session loads as that session, and a missing one as the empty session. *)
Theorem session_roundtrip d :
  session_ok d ->
  parse (serialize d) = d /\
  (forall before junk after data, trim junk = [] \/ head (trim junk) = Some 35 ->
    foldl parse_line data (before ++ junk :: after) = foldl parse_line data (before ++ after)) /\
  (Forall (fun c => is_scalar c = true) (serialize d) -> forall v v' : option (Fat32 D),
    (read_file SESSION_PATH v = Ret (Ok (as_bytes (serialize d))) v' -> load_from_disk v = Ret d v') /\
    (read_file SESSION_PATH v = Ret (Err NotFound) v' -> load_from_disk v = Ret empty_session v')).
Proof.
  intros [Hw Hr].
  assert (parse (serialize d) = d) as Hp.
  { unfold parse. rewrite serialize_lines, lines_of.
    - cbn [foldl]. change (parse_line empty_session header) with empty_session.
      rewrite foldl_app, parse_windows, parse_remembered by done. by destruct d.
    - constructor; [split; [apply not_elem_of_header|done]|]. apply Forall_app. split; apply Forall_fmap.
      + eapply Forall_impl; [exact Hw|]. intros w Hok. by apply line_plain, window_words.
      + eapply Forall_impl; [exact Hr|]. intros w [Hok _]. by apply line_plain, remembered_words. }
  split; [done|]. split.
  - intros before junk after data Hj. rewrite !foldl_app. cbn [foldl]. f_equal. unfold parse_line.
    destruct Hj as [->|Hh]; [done|]. by rewrite (bool_decide_true _ Hh), orb_true_r.
  - intros Hs v v'. unfold load_from_disk. split; intros ->; [|done].
    rewrite from_utf8_encode by done. cbn [from_option id]. by rewrite Hp.
Qed.
End session.
Definition sample_session : SessionData :=
  MkSessionData [MkSessionWindow (bytes_of "terminal") 100 (-80) 80 24 false true]
    [MkSessionWindow (bytes_of "notepad") 0 2147483647 0 18446744073709551615 false true].
Lemma session_roundtrip_witness : parse (serialize sample_session) = sample_session.
Proof.
  destruct (session_roundtrip (D := RamDisk) sample_session) as [Hp _]; [|exact Hp].
  split; repeat constructor; cbn; try lia; try (unfold in_u; lia); done || (intros E; discriminate E).
Defined.
