(* ===== verification/Process.v ===== *)
(** * Processes, [process.rs]: data, address space, memory operations

    A process owns a page-table root, the frames behind its tables and pages,
    the list of its mappings and its descriptor table.  Its memory operations
    run on the machine (physical memory and the frame bitmap) and the process
    itself; building and loading an address space may also fail with a message.
    Scheduling and the operations that go through a process id are in [Task.v]
    and [Spawn.v]. *)
From S2P Require Import Prelude Bytes Text PhysMem Pmm Paging Disk Rtc Fat Vfs Shm Socket Elf.

Definition FIRST_FILE_FD : nat := 3.
Definition PROC_RESULT_VIRT : Z := 0x2FF0000.
Definition MIN_SEGMENT_VADDR : Z := 2 * 1024 * 1024.
Definition PIE_LOAD_BASE : Z := 0x20000000.
Definition INTERP_LOAD_BASE : Z := 0x38000000.
Definition USER_STACK_TOP : Z := 0x10000000.
Definition USER_STACK_PAGES : Z := 8.
Definition USER_STACK_BASE : Z := USER_STACK_TOP - USER_STACK_PAGES * PAGE_SIZE.
Definition USER_STACK_MAX_PAGES : Z := 256.
Definition USER_STACK_LOW_LIMIT : Z := USER_STACK_TOP - USER_STACK_MAX_PAGES * PAGE_SIZE.
Definition USER_EXIT_STUB_VIRT : Z := USER_STACK_TOP.
Definition MMAP_BASE : Z := 0x40000000.
Definition MMAP_CEILING : Z := 0xC0000000.
Definition SYS_EXIT : Z := 1.

Record Mapping := MkMapping { m_vaddr : Z; m_phys : Z; m_len : Z; shm_id : option Z }.
Inductive FdEntry :=
| File (f : FileHandle)
| ShmFd (id cursor : Z)
| SocketFd (id : Z).
Inductive ExitInfo := Normal | PageFault (cr2 : Z) | Exception (vector : Z).
Inductive ProcessState := Running | Exited.
Inductive Abi := Native | Linux.
Global Instance ProcessState_eq_dec : EqDecision ProcessState.
Proof. solve_decision. Defined.

Record Process := MkProcess {
  p_entry : Z;
  user_rsp : Z;
  p_frames : list Z;
  mappings : list Mapping;
  p_state : ProcessState;
  exit_info : option ExitInfo;
  p_inbox : option (list Z);
  fds : list (option FdEntry);
  stack_low : Z;
  stack_phys_base : Z;
  abi : Abi;
  heap_start : Z;
  heap_end : Z;
  mmap_next : Z;
  fs_base : Z
}.

(** Assignments to fields. *)
Definition set_p_entry (v : Z) (p : Process) : Process :=
  MkProcess v (user_rsp p) (p_frames p) (mappings p) (p_state p) (exit_info p) (p_inbox p) (fds p)
    (stack_low p) (stack_phys_base p) (abi p) (heap_start p) (heap_end p) (mmap_next p) (fs_base p).
Definition set_user_rsp (v : Z) (p : Process) : Process :=
  MkProcess (p_entry p) v (p_frames p) (mappings p) (p_state p) (exit_info p) (p_inbox p) (fds p)
    (stack_low p) (stack_phys_base p) (abi p) (heap_start p) (heap_end p) (mmap_next p) (fs_base p).
Definition set_frames (v : list Z) (p : Process) : Process :=
  MkProcess (p_entry p) (user_rsp p) v (mappings p) (p_state p) (exit_info p) (p_inbox p) (fds p)
    (stack_low p) (stack_phys_base p) (abi p) (heap_start p) (heap_end p) (mmap_next p) (fs_base p).
Definition set_mappings (v : list Mapping) (p : Process) : Process :=
  MkProcess (p_entry p) (user_rsp p) (p_frames p) v (p_state p) (exit_info p) (p_inbox p) (fds p)
    (stack_low p) (stack_phys_base p) (abi p) (heap_start p) (heap_end p) (mmap_next p) (fs_base p).
Definition set_exit (st : ProcessState) (i : option ExitInfo) (p : Process) : Process :=
  MkProcess (p_entry p) (user_rsp p) (p_frames p) (mappings p) st i (p_inbox p) (fds p)
    (stack_low p) (stack_phys_base p) (abi p) (heap_start p) (heap_end p) (mmap_next p) (fs_base p).
Definition set_inbox (v : option (list Z)) (p : Process) : Process :=
  MkProcess (p_entry p) (user_rsp p) (p_frames p) (mappings p) (p_state p) (exit_info p) v (fds p)
    (stack_low p) (stack_phys_base p) (abi p) (heap_start p) (heap_end p) (mmap_next p) (fs_base p).
Definition set_fds (v : list (option FdEntry)) (p : Process) : Process :=
  MkProcess (p_entry p) (user_rsp p) (p_frames p) (mappings p) (p_state p) (exit_info p) (p_inbox p) v
    (stack_low p) (stack_phys_base p) (abi p) (heap_start p) (heap_end p) (mmap_next p) (fs_base p).
Definition set_stack_low (v : Z) (p : Process) : Process :=
  MkProcess (p_entry p) (user_rsp p) (p_frames p) (mappings p) (p_state p) (exit_info p) (p_inbox p) (fds p)
    v (stack_phys_base p) (abi p) (heap_start p) (heap_end p) (mmap_next p) (fs_base p).
Definition set_stack_phys (v : Z) (p : Process) : Process :=
  MkProcess (p_entry p) (user_rsp p) (p_frames p) (mappings p) (p_state p) (exit_info p) (p_inbox p) (fds p)
    (stack_low p) v (abi p) (heap_start p) (heap_end p) (mmap_next p) (fs_base p).
Definition set_heap_end (v : Z) (p : Process) : Process :=
  MkProcess (p_entry p) (user_rsp p) (p_frames p) (mappings p) (p_state p) (exit_info p) (p_inbox p) (fds p)
    (stack_low p) (stack_phys_base p) (abi p) (heap_start p) v (mmap_next p) (fs_base p).
Definition set_mmap_next (v : Z) (p : Process) : Process :=
  MkProcess (p_entry p) (user_rsp p) (p_frames p) (mappings p) (p_state p) (exit_info p) (p_inbox p) (fds p)
    (stack_low p) (stack_phys_base p) (abi p) (heap_start p) (heap_end p) v (fs_base p).
Definition set_fs_base (v : Z) (p : Process) : Process :=
  MkProcess (p_entry p) (user_rsp p) (p_frames p) (mappings p) (p_state p) (exit_info p) (p_inbox p) (fds p)
    (stack_low p) (stack_phys_base p) (abi p) (heap_start p) (heap_end p) (mmap_next p) v.

(** ** State *)
Definition is_exited (p : Process) : bool := bool_decide (p_state p = Exited).
Definition state_label (p : Process) : string :=
  match p_state p with Running => "running" | Exited => "exited" end.
Definition mark_exited (info : ExitInfo) (p : Process) : Process :=
  if decide (p_state p = Running) then set_exit Exited (Some info) p else p.

(** ** Descriptors *)
(** The first empty slot from [i] on. *)
Fixpoint free_fd (slots : list (option FdEntry)) (i : nat) : option nat :=
  match slots with
  | [] => None
  | None :: _ => Some i
  | Some _ :: slots => free_fd slots (S i)
  end.
Definition alloc_fd (entry : FdEntry) (p : Process) : nat * Process :=
  match free_fd (drop FIRST_FILE_FD (fds p)) FIRST_FILE_FD with
  | Some i => (i, set_fds (<[i := Some entry]> (fds p)) p)
  | None => (length (fds p), set_fds (fds p ++ [Some entry]) p)
  end.
Definition fd_ref (fd : Z) (p : Process) : option FdEntry :=
  if fd <? 0 then None else mjoin (fds p !! Z.to_nat fd).

Section fds.
Context {D : Type} `{BlockDevice D} (rtc_now : D -> DateTime).
(** What a descriptor may refer to outside the process. *)
Record kernel := MkKernel { volume : option (Fat32 D); sockets : Socket.state shm }.
(** The counts are the ones of [Shm.v]; the frames they guard do not matter here. *)
Definition shm_close (id : Z) : ST kernel unit := fun k =>
  match Shm.close id (shared (sockets k)) with
  | Ret _ s => Ret tt (MkKernel (volume k) (Socket.mk_state (endpoints (sockets k)) (listeners (sockets k)) s))
  | Panic => Panic
  end.
Definition socket_close (id : Z) : ST kernel unit := fun k =>
  match @Socket.close shm (shm_refs boot_state) id (sockets k) with
  | Ret _ s => Ret tt (MkKernel (volume k) s)
  | Panic => Panic
  end.
(** [Drop for FdEntry], then the handle's own [Drop]. *)
Definition drop_fd (e : FdEntry) : ST kernel unit := fun k =>
  match e with
  | ShmFd id _ => shm_close id k
  | SocketFd id => socket_close id k
  | File f =>
      match drop_handle rtc_now f (volume k) with
      | Ret _ v => Ret tt (MkKernel v (sockets k))
      | Panic => Panic
      end
  end.
Definition close_fd (fd : Z) : ST (kernel * Process) bool := fun '(k, p) =>
  if fd <? Z.of_nat FIRST_FILE_FD then Ret false (k, p) else
  match fds p !! Z.to_nat fd with
  | Some (Some e) =>
      match drop_fd e k with
      | Ret _ k => Ret true (k, set_fds (<[Z.to_nat fd := None]> (fds p)) p)
      | Panic => Panic
      end
  | _ => Ret false (k, p)
  end.
(** Dropping the table drops every entry, in order. *)
Fixpoint drop_fds (slots : list (option FdEntry)) : ST kernel unit :=
  match slots with
  | [] => mret tt
  | None :: slots => drop_fds slots
  | Some e :: slots => drop_fd e;; drop_fds slots
  end.
End fds.

(** ** Memory operations *)
Definition PM : Type -> Type := ST (machine * Process).
(** Run a page-table edit that records the frames it takes in the process. *)
Definition on_vm {A} (f : VM A) : PM A := fun '(v, p) =>
  match f (v, p_frames p) with
  | Ret a (v, fs) => Ret a (v, set_frames fs p)
  | Panic => Panic
  end.
Definition on_pmm {A} (f : ST pmm A) : PM A := fun '(v, p) =>
  match f (frames v) with
  | Ret a fs => Ret a (mk_machine (ram v) fs, p)
  | Panic => Panic
  end.
Definition on_ram (f : mem -> mem) : PM unit := modify (fun '(v, p) => (mk_machine (f (ram v)) (frames v), p)).
Definition on_proc (f : Process -> Process) : PM unit := modify (fun '(v, p) => (v, f p)).
Definition self : PM Process := fun s => Ret (snd s) s.
(** [for i in 0..pages { self.frames.push(phys + i * FRAME_SIZE) }] *)
Definition push_frames (phys pages : Z) : PM unit :=
  on_proc (fun p => set_frames (p_frames p ++ Pmm.pages phys pages) p).
Definition push_mapping (m : Mapping) : PM unit := on_proc (fun p => set_mappings (mappings p ++ [m]) p).

Definition align_up (value align : Z) : Z := Z.land (u64 (value + align - 1)) (unot 64 (align - 1)).
Definition page_down (v : Z) : Z := Z.land v (unot 64 (PAGE_SIZE - 1)).
Definition RW_USER : Z := Z.lor (Z.lor (Z.lor PAGE_PRESENT PAGE_WRITABLE) PAGE_USER) PAGE_NX.
(** The flags of a [prot] pair. *)
Definition prot_flags (writable executable : bool) : Z :=
  let flags := Z.lor PAGE_PRESENT PAGE_USER in
  let flags := if writable then Z.lor flags PAGE_WRITABLE else flags in
  if executable then flags else Z.lor flags PAGE_NX.

Definition init_stack_backing : PM (result string unit) :=
  r ← on_pmm (alloc_contiguous USER_STACK_MAX_PAGES);
  match r with
  | None => mret (Err "out of memory"%string)
  | Some phys =>
      push_frames phys USER_STACK_MAX_PAGES;;
      on_ram (fun m => mem_fill m phys (USER_STACK_MAX_PAGES * FRAME_SIZE) 0);;
      on_proc (set_stack_phys phys);;
      push_mapping (MkMapping USER_STACK_LOW_LIMIT phys (USER_STACK_MAX_PAGES * PAGE_SIZE) None);;
      mret (Ok tt)
  end.
Definition stack_phys_for (p : Process) (vaddr : Z) : Z :=
  u64 (stack_phys_base p + u64 (vaddr - USER_STACK_LOW_LIMIT)).
Definition try_grow_stack (pml4 fault_addr : Z) : PM bool :=
  p ← self;
  if (stack_low p <=? fault_addr) || (fault_addr <? USER_STACK_LOW_LIMIT) then mret false else
  let new_low := page_down fault_addr in
  let grow_len := u64 (stack_low p - new_low) in
  ok ← on_vm (map_range_in pml4 new_low (stack_phys_for p new_low) grow_len RW_USER);
  if ok : bool then on_proc (set_stack_low new_low);; mret true else mret false.

Definition covers (vaddr stop : Z) (m : Mapping) : bool :=
  (m_vaddr m <=? vaddr) && (stop <=? u64 (m_vaddr m + m_len m)).
Definition translate_in (ms : list Mapping) (vaddr len : Z) : option Z :=
  stop ← checked_add 64 vaddr len;
  m ← find (covers vaddr stop) ms;
  Some (u64 (m_phys m + (vaddr - m_vaddr m))).
Definition translate_local (p : Process) (vaddr len : Z) : option Z := translate_in (mappings p) vaddr len.

Definition brk (pml4 requested : Z) : PM Z :=
  p ← self;
  if requested <? heap_start p then mret (heap_end p) else
  let old_mapped := align_up (Z.max (heap_end p) (heap_start p) - heap_start p) PAGE_SIZE in
  let new_mapped := align_up (requested - heap_start p) PAGE_SIZE in
  if old_mapped <? new_mapped then
    let grow_len := new_mapped - old_mapped in
    let pages := grow_len / PAGE_SIZE in
    r ← on_pmm (alloc_contiguous pages);
    match r with
    | None => mret (heap_end p)
    | Some phys =>
        push_frames phys pages;;
        on_ram (fun m => mem_fill m phys grow_len 0);;
        let map_at := u64 (heap_start p + old_mapped) in
        ok ← on_vm (map_range_in pml4 map_at phys grow_len RW_USER);
        if negb ok then mret (heap_end p) else
        push_mapping (MkMapping map_at phys grow_len None);;
        on_proc (set_heap_end requested);;
        mret requested
    end
  else on_proc (set_heap_end requested);; mret requested.

(** Where an [mmap] goes: a [MAP_FIXED] address, or the next of the arena. *)
Definition mmap_addr (p : Process) (at_ : option Z) (len : Z) : option Z :=
  match at_ with
  | Some a => Some (page_down a)
  | None =>
      stop ← checked_add 64 (mmap_next p) len;
      if MMAP_CEILING <? stop then None else Some (mmap_next p)
  end.
(** The end of both [mmap] operations: the page table, the mapping, the arena. *)
Definition mmap_install (pml4 : Z) (at_ : option Z) (addr phys len flags : Z) (id : option Z) : PM (option Z) :=
  ok ← on_vm (map_range_in pml4 addr phys len flags);
  if negb ok then mret None else
  push_mapping (MkMapping addr phys len id);;
  match at_ with Some _ => mret tt | None => on_proc (set_mmap_next (u64 (addr + len))) end;;
  mret (Some addr).
Definition mmap_with_content (pml4 : Z) (at_ : option Z) (len : Z) (writable executable : bool)
    (content : option (list Z)) : PM (option Z) :=
  p ← self;
  let len := align_up (Z.max len 1) PAGE_SIZE in
  match mmap_addr p at_ len with
  | None => mret None
  | Some addr =>
      let pages := len / PAGE_SIZE in
      r ← on_pmm (alloc_contiguous pages);
      match r with
      | None => mret None
      | Some phys =>
          push_frames phys pages;;
          on_ram (fun m => mem_fill m phys len 0);;
          match content with
          | Some data => on_ram (fun m => mem_write m phys (take (Z.to_nat len) data))
          | None => mret tt
          end;;
          mmap_install pml4 at_ addr phys len (prot_flags writable executable) None
      end
  end.
Definition mmap_anon (pml4 : Z) (at_ : option Z) (len : Z) (writable executable : bool) : PM (option Z) :=
  mmap_with_content pml4 at_ len writable executable None.
Definition mmap_file (pml4 : Z) (at_ : option Z) (len : Z) (writable executable : bool) (content : list Z) :
    PM (option Z) :=
  mmap_with_content pml4 at_ len writable executable (Some content).
(** [t] is the table of shared objects, which the operation only reads. *)
Definition mmap_shared (t : shm) (pml4 : Z) (at_ : option Z) (id : Z) (writable executable : bool) : PM (option Z) :=
  p ← self;
  match Shm.phys_of t id, Shm.pages_of t id with
  | Some phys, Some pages =>
      let len := u64 (pages * PAGE_SIZE) in
      if len =? 0 then mret None else
      match mmap_addr p at_ len with
      | None => mret None
      | Some addr => mmap_install pml4 at_ addr phys len (prot_flags writable executable) (Some id)
      end
  | _, _ => mret None
  end.

(** A mapping inside [[start, stop)] goes; the frames it owns are freed. *)
Definition munmap_one (pml4 : Z) (m : Mapping) : PM unit :=
  on_vm (unmap_range_in pml4 (m_vaddr m) (m_len m));;
  match shm_id m with
  | Some _ => mret tt
  | None =>
      on_pmm (free_pages (Z.to_nat (m_len m / PAGE_SIZE)) (m_phys m));;
      on_proc (fun p => set_frames (filter (fun f => f < m_phys m \/ u64 (m_phys m + m_len m) <= f) (p_frames p)) p)
  end.
Fixpoint munmap_loop (pml4 start stop : Z) (ms kept : list Mapping) : PM unit :=
  match ms with
  | [] => on_proc (set_mappings kept)
  | m :: ms =>
      if (start <=? m_vaddr m) && (u64 (m_vaddr m + m_len m) <=? stop)
      then munmap_one pml4 m;; munmap_loop pml4 start stop ms kept
      else munmap_loop pml4 start stop ms (kept ++ [m])
  end.
Definition munmap (pml4 addr len : Z) : PM bool :=
  p ← self;
  let len := align_up (Z.max len 1) PAGE_SIZE in
  let start := page_down addr in
  munmap_loop pml4 start (u64 (start + len)) (mappings p) [];;
  mret true.

(** [n] pages left of the [while v < start + len] loop. *)
Fixpoint mprotect_loop (n : nat) (pml4 v flags : Z) : PM bool :=
  match n with
  | O => mret true
  | S n =>
      p ← self;
      match translate_local p v PAGE_SIZE with
      | None => mret false
      | Some phys =>
          ok ← on_vm (map_range_in pml4 v phys PAGE_SIZE flags);
          if ok : bool then mprotect_loop n pml4 (v + PAGE_SIZE) flags else mret false
      end
  end.
Definition mprotect (pml4 addr len : Z) (writable executable : bool) : PM bool :=
  let len := align_up (Z.max len 1) PAGE_SIZE in
  let start := page_down addr in
  mprotect_loop (Z.to_nat ((u64 (start + len) - start) / PAGE_SIZE)) pml4 start (prot_flags writable executable).

(** ** Building an address space *)
Definition PE : Type -> Type := STR (machine * Process) string.
Definition do_ {A} (f : PM A) : PE A := lift_st f.

Definition alloc_frame : PE Z :=
  r ← do_ (on_pmm frame_alloc);
  match r with
  | None => throw "out of memory"%string
  | Some frame =>
      do_ (on_ram (fun m => mem_fill m frame FRAME_SIZE 0));;
      do_ (on_proc (fun p => set_frames (p_frames p ++ [frame]) p));;
      mret frame
  end.
Definition read_word (a : Z) : PE Z := fun s => Ret (Ok (load 8 (ram s.1) a)) s.
Definition write_word (a v : Z) : PE unit := do_ (on_ram (fun m => write_u64 m a v)).
(** [copy_nonoverlapping] of a whole table *)
Definition copy_table (src dst : Z) : PE unit := do_ (on_ram (fun m => mem_copy m src dst (512 * 8))).
Definition LOW_MASK : Z := 0xFFF.

(** The entries of one page directory from [j] on, [n] left. *)
Fixpoint copy_pd (n : nat) (kernel_pd pd j : Z) : PE unit :=
  match n with
  | O => mret tt
  | S n =>
      pde ← read_word (entry_ptr kernel_pd j);
      (if negb (is_set pde PAGE_PRESENT) then mret tt
       else if is_set pde PS_BIT then write_word (entry_ptr pd j) pde
       else
         pt ← alloc_frame;
         copy_table (Z.land pde (unot 64 LOW_MASK)) pt;;
         write_word (entry_ptr pd j) (Z.lor pt (Z.land pde LOW_MASK)));;
      copy_pd n kernel_pd pd (j + 1)
  end.
(** The entries of the page-directory-pointer table from [i] on. *)
Fixpoint copy_pdpt (n : nat) (kernel_pdpt pdpt i : Z) : PE unit :=
  match n with
  | O => mret tt
  | S n =>
      entry ← read_word (entry_ptr kernel_pdpt i);
      (if negb (is_set entry PAGE_PRESENT) then mret tt
       else if is_set entry PS_BIT then throw "unexpected 1 GiB page in boot map"%string
       else
         pd ← alloc_frame;
         copy_pd 512 (Z.land entry (unot 64 LOW_MASK)) pd 0;;
         write_word (entry_ptr pdpt i) (Z.lor pd (Z.land entry LOW_MASK)));;
      copy_pdpt n kernel_pdpt pdpt (i + 1)
  end.
Definition build_address_space (kernel_pml4 : Z) : PE Z :=
  pml4 ← alloc_frame;
  pdpt ← alloc_frame;
  copy_table kernel_pml4 pml4;;
  write_word (entry_ptr pml4 0) (Z.lor (Z.lor pdpt PAGE_PRESENT) PAGE_WRITABLE);;
  e ← read_word (entry_ptr kernel_pml4 0);
  copy_pdpt 512 (Z.land e (unot 64 LOW_MASK)) pdpt 0;;
  mret pml4.

(** ** Loading segments *)
Definition apply_bias (base : Z) (program : Program) : Program :=
  MkProgram (u64 (entry program + base))
    ((fun s => MkSegment (u64 (vaddr s + base)) (file_offset s) (filesz s) (memsz s) (writable s) (executable s))
       <$> segments program)
    (is_pie program) (phoff program) (phentsize program) (phnum program) (interp program).
Definition apply_pie_bias (program : Program) : Program :=
  if is_pie program then apply_bias PIE_LOAD_BASE program else program.

(** One iteration of the loop; [heap] is [allocator::heap_range()]. *)
Definition validate_segment (heap : Z * Z) (segment : Segment) : result string unit :=
  let start := vaddr segment in
  stop ← ok_or (checked_add 64 start (memsz segment)) "segment range overflow"%string;
  if stop <=? start then Err "empty segment"%string
  else if start <? MIN_SEGMENT_VADDR then Err "segment below 2 MiB"%string
  else if (start <? u64 (snd heap + 1024 * 1024)) && (saturating_sub (fst heap) (1024 * 1024) <? stop)
  then Err "segment overlaps kernel heap"%string
  else if IDENTITY_MAP_END <? stop then Err "segment beyond 4 GiB"%string
  else if (start <? USER_EXIT_STUB_VIRT + PAGE_SIZE) && (USER_STACK_LOW_LIMIT <? stop)
  then Err "segment overlaps the reserved process stack region"%string
  else Ok tt.
Fixpoint validate_segments (heap : Z * Z) (segs : list Segment) : result string unit :=
  match segs with
  | [] => Ok tt
  | s :: segs => validate_segment heap s;; validate_segments heap segs
  end.

(** [Iterator::min] and [Iterator::max] *)
Definition list_min (l : list Z) : option Z := match l with [] => None | x :: l => Some (foldl Z.min x l) end.
Definition list_max (l : list Z) : option Z := match l with [] => None | x :: l => Some (foldl Z.max x l) end.
Definition segment_end (s : Segment) : Z := u64 (vaddr s + memsz s).
Definition overlaps (page_vaddr : Z) (s : Segment) : bool :=
  (vaddr s <? u64 (page_vaddr + PAGE_SIZE)) && (page_vaddr <? segment_end s).
Definition page_flags (segs : list Segment) (page_vaddr : Z) : Z :=
  prot_flags (existsb (fun s => writable s && overlaps page_vaddr s) segs)
             (existsb (fun s => executable s && overlaps page_vaddr s) segs).
(** The mapping loop from page [i] on, [n] pages left. *)
Fixpoint map_segment_pages (n : nat) (pml4 start phys i : Z) (segs : list Segment) : PE unit :=
  match n with
  | O => mret tt
  | S n =>
      let page_vaddr := u64 (start + i * PAGE_SIZE) in
      ok ← do_ (on_vm (map_range_in pml4 page_vaddr (phys + i * FRAME_SIZE) PAGE_SIZE (page_flags segs page_vaddr)));
      if negb ok then throw "failed to map segment"%string
      else map_segment_pages n pml4 start phys (i + 1) segs
  end.
(** The copying loop; [elf::parse] has checked that the file has the bytes. *)
Fixpoint copy_segments (start phys : Z) (data : list Z) (segs : list Segment) (m : mem) : mem :=
  match segs with
  | [] => m
  | s :: segs =>
      let bytes := take (Z.to_nat (filesz s)) (drop (Z.to_nat (file_offset s)) data) in
      copy_segments start phys data segs
        (if filesz s =? 0 then m else mem_write m (u64 (phys + u64 (vaddr s - start))) bytes)
  end.
Definition load_segments (pml4 : Z) (segs : list Segment) (data : list Z) : PE unit :=
  match list_min (page_down ∘ vaddr <$> segs), list_max ((fun s => align_up (segment_end s) PAGE_SIZE) <$> segs) with
  | Some start, Some stop =>
      let len := u64 (stop - start) in
      let pages := len / PAGE_SIZE in
      r ← do_ (on_pmm (alloc_contiguous pages));
      match r with
      | None => throw "out of memory"%string
      | Some phys =>
          do_ (push_frames phys pages);;
          map_segment_pages (Z.to_nat pages) pml4 start phys 0 segs;;
          do_ (on_ram (fun m => copy_segments start phys data segs (mem_fill m phys len 0)));;
          do_ (push_mapping (MkMapping start phys len None))
      end
  | _, _ => mret tt
  end.

(** ** Initial stacks *)
Definition exit_stub : list Z := [0xB8; SYS_EXIT; 0; 0; 0; 0x0F; 0x05; 0xEB; 0xFE].
Definition setup_user_stack (pml4 : Z) : PE unit :=
  (init_stack_backing : PE unit);;
  p ← do_ self;
  let stack_len := USER_STACK_PAGES * PAGE_SIZE in
  let stack_phys := stack_phys_for p USER_STACK_BASE in
  ok ← do_ (on_vm (map_range_in pml4 USER_STACK_BASE stack_phys stack_len RW_USER));
  if negb ok then throw "failed to map user stack"%string else
  stub_phys ← alloc_frame;
  do_ (on_ram (fun m => mem_write m stub_phys exit_stub));;
  ok ← do_ (on_vm (map_range_in pml4 USER_EXIT_STUB_VIRT stub_phys PAGE_SIZE (Z.lor PAGE_PRESENT PAGE_USER)));
  if negb ok then throw "failed to map exit trampoline"%string else
  do_ (push_mapping (MkMapping USER_EXIT_STUB_VIRT stub_phys PAGE_SIZE None));;
  let initial_rsp := USER_STACK_TOP - 8 in
  do_ (on_ram (fun m => write_u64 m (u64 (stack_phys + (initial_rsp - USER_STACK_BASE))) USER_EXIT_STUB_VIRT));;
  do_ (on_proc (set_user_rsp initial_rsp)).

(** ** The Linux initial stack *)
Definition AT_NULL : Z := 0.
Definition AT_PHDR : Z := 3.
Definition AT_PHENT : Z := 4.
Definition AT_PHNUM : Z := 5.
Definition AT_PAGESZ : Z := 6.
Definition AT_BASE : Z := 7.
Definition AT_FLAGS : Z := 8.
Definition AT_ENTRY : Z := 9.
Definition AT_UID : Z := 11.
Definition AT_EUID : Z := 12.
Definition AT_GID : Z := 13.
Definition AT_EGID : Z := 14.
Definition AT_HWCAP : Z := 16.
Definition AT_CLKTCK : Z := 17.
Definition AT_SECURE : Z := 23.
Definition AT_RANDOM : Z := 25.
Definition AT_HWCAP2 : Z := 26.
Definition AT_EXECFN : Z := 31.

(** The strings of a list one after another from offset [off], and where each
    starts. *)
Fixpoint push_cstrs (strings : list str) (off : Z) : list Z * list Z :=
  match strings with
  | [] => ([], [])
  | s :: strings =>
      let bytes := as_bytes s ++ [0] in
      let (offs, rest) := push_cstrs strings (off + Z.of_nat (length bytes)) in
      (off :: offs, bytes ++ rest)
  end.
Definition phdr_len (program : Program) : Z := phentsize program * phnum program.
Definition holds_phdrs (program : Program) (s : Segment) : bool :=
  (file_offset s <=? phoff program) &&
  (u64 (phoff program + phdr_len program) <=? u64 (file_offset s + filesz s)).
Definition phdr_in_segment (program : Program) : option Z :=
  s ← find (holds_phdrs program) (segments program);
  Some (u64 (vaddr s + (phoff program - file_offset s))).
Definition random_bytes (ticks : Z) (program : Program) : list Z :=
  let seed := Z.lxor ticks (entry program) in
  (fun i => u8 (Z.shiftr (u64 (u64 (seed * 0x9E3779B97F4A7C15) + i)) 33)) <$> seqZ 0 16.
Definition auxv_pairs (program : Program) (at_base phdr random : Z) (execfn : option Z) : list (Z * Z) :=
  [(AT_PHENT, phentsize program); (AT_PHNUM, phnum program); (AT_PAGESZ, PAGE_SIZE); (AT_BASE, at_base);
   (AT_FLAGS, 0); (AT_ENTRY, entry program); (AT_UID, 0); (AT_EUID, 0); (AT_GID, 0); (AT_EGID, 0);
   (AT_HWCAP, 0); (AT_HWCAP2, 0); (AT_CLKTCK, 100); (AT_SECURE, 0); (AT_PHDR, phdr); (AT_RANDOM, random)] ++
  match execfn with Some v => [(AT_EXECFN, v)] | None => [] end ++ [(AT_NULL, 0)].

(** What goes on the stack: the address of the table, the table's words, and the
    bytes behind it. *)
Record StackLayout := MkLayout { final_rsp : Z; words : list Z; blob : list Z }.
Definition linux_stack_layout (ticks : Z) (elf_bytes : list Z) (program : Program) (at_base : Z)
    (argv envp : list str) : result string StackLayout :=
  let (argv_offsets, argv_data) := push_cstrs argv 0 in
  let (envp_offsets, envp_data) := push_cstrs envp (Z.of_nat (length argv_data)) in
  let strings := argv_data ++ envp_data in
  let strings_len := Z.of_nat (length strings) in
  phdrs ← match phdr_in_segment program with
          | Some _ => Ok []
          | None => ok_or (get_range elf_bytes (phoff program) (u64 (phoff program + phdr_len program)))
                      "program header table outside file"%string
          end;
  let random_off := strings_len + Z.of_nat (length phdrs) in
  let data := strings ++ phdrs ++ random_bytes ticks program in
  let pairs := 17 + match argv with [] => 0 | _ => 1 end in
  let table_words := 1 + (Z.of_nat (length argv) + 1) + (Z.of_nat (length envp) + 1) + pairs * 2 in
  let table_len := table_words * 8 in
  let total_len := table_len + Z.of_nat (length data) in
  if USER_STACK_TOP <? total_len then Err "linux stack layout too large"%string else
  let rsp := Z.land (USER_STACK_TOP - total_len) (unot 64 0xF) in
  let data_vaddr := rsp + table_len in
  let phdr := match phdr_in_segment program with Some a => a | None => data_vaddr + strings_len end in
  let aux := auxv_pairs program at_base phdr (data_vaddr + random_off)
               (match argv with [] => None | _ => Some (data_vaddr + 0) end) in
  let table := [Z.of_nat (length argv)] ++ ((fun off => data_vaddr + off) <$> argv_offsets) ++ [0] ++
               ((fun off => data_vaddr + off) <$> envp_offsets) ++ [0] ++ (aux ≫= (fun tv => [fst tv; snd tv])) in
  mret (MkLayout rsp table data).
Definition setup_linux_stack (pml4 ticks : Z) (elf_bytes : list Z) (program : Program) (at_base : Z)
    (argv envp : list str) : PE Z :=
  l ← lift_res (linux_stack_layout ticks elf_bytes program at_base argv envp);
  let table := words l ≫= le_split 8 in
  let data_vaddr := final_rsp l + Z.of_nat (length table) in
  let region_start := page_down (final_rsp l) in
  if region_start <? USER_STACK_LOW_LIMIT then throw "linux stack layout too large"%string else
  let region_len := align_up (USER_STACK_TOP - region_start) PAGE_SIZE in
  (init_stack_backing : PE unit);;
  p ← do_ self;
  let phys := stack_phys_for p region_start in
  do_ (on_ram (fun m => mem_write m (u64 (phys + (final_rsp l - region_start))) table));;
  do_ (on_ram (fun m => mem_write m (u64 (phys + (data_vaddr - region_start))) (blob l)));;
  ok ← do_ (on_vm (map_range_in pml4 region_start phys region_len RW_USER));
  if negb ok then throw "failed to map linux-style stack"%string else
  do_ (on_proc (set_stack_low region_start));;
  mret (final_rsp l).

(** ** Freeing *)
Fixpoint free_frames_of (fs : list Z) : ST pmm unit :=
  match fs with
  | [] => mret tt
  | f :: fs => frame_free f;; free_frames_of fs
  end.
Definition new_process (e : Z) (a : Abi) (heap : Z) : Process :=
  MkProcess e 0 [] [] Running None None (replicate FIRST_FILE_FD None) USER_STACK_BASE 0 a heap heap MMAP_BASE 0.
