(* ===== verification/Task.v ===== *)
(** * Tasks and the scheduler, [task.rs]

    The task table, the index of the running task and the processor state a
    switch touches: the callee-saved registers, the stack pointer, CR3, the
    FS base and the stack for entries from ring 3.  [context_switch] is the
    assembly routine, push by push. *)
From S2P Require Import Prelude Bytes PhysMem Pmm Paging Process.

(** ** Registers and [context_switch] *)
Record Regs := MkRegs {
  rbx : Z; rbp : Z; r12 : Z; r13 : Z; r14 : Z; r15 : Z; rdi : Z; rsp : Z; rip : Z }.
Definition ASM : Type -> Type := ST (mem * Regs).
Definition with_rsp (v : Z) (r : Regs) : Regs :=
  MkRegs (rbx r) (rbp r) (r12 r) (r13 r) (r14 r) (r15 r) (rdi r) v (rip r).
(** [push] of a register's value, and [pop] into the register [set] writes. *)
Definition push (get : Regs -> Z) : ASM unit := fun '(m, r) =>
  let sp := u64 (rsp r - 8) in Ret tt (write_u64 m sp (get r), with_rsp sp r).
Definition pop (set : Z -> Regs -> Regs) : ASM unit := fun '(m, r) =>
  Ret tt (m, with_rsp (u64 (rsp r + 8)) (set (read_u64 m (rsp r)) r)).
Definition set_rbx v r := MkRegs v (rbp r) (r12 r) (r13 r) (r14 r) (r15 r) (rdi r) (rsp r) (rip r).
Definition set_rbp v r := MkRegs (rbx r) v (r12 r) (r13 r) (r14 r) (r15 r) (rdi r) (rsp r) (rip r).
Definition set_r12 v r := MkRegs (rbx r) (rbp r) v (r13 r) (r14 r) (r15 r) (rdi r) (rsp r) (rip r).
Definition set_r13 v r := MkRegs (rbx r) (rbp r) (r12 r) v (r14 r) (r15 r) (rdi r) (rsp r) (rip r).
Definition set_r14 v r := MkRegs (rbx r) (rbp r) (r12 r) (r13 r) v (r15 r) (rdi r) (rsp r) (rip r).
Definition set_r15 v r := MkRegs (rbx r) (rbp r) (r12 r) (r13 r) (r14 r) v (rdi r) (rsp r) (rip r).
Definition set_rdi v r := MkRegs (rbx r) (rbp r) (r12 r) (r13 r) (r14 r) (r15 r) v (rsp r) (rip r).
Definition set_rip v r := MkRegs (rbx r) (rbp r) (r12 r) (r13 r) (r14 r) (r15 r) (rdi r) (rsp r) v.

(** The half that leaves a task, giving the value stored through [old_rsp], and
    the half that enters one. *)
Definition get_rsp : ASM Z := fun s => Ret (rsp s.2) s.
Definition switch_out : ASM Z :=
  push rbx;; push rbp;; push r12;; push r13;; push r14;; push r15;; get_rsp.
Definition switch_in (new_rsp : Z) : ASM unit :=
  modify (fun '(m, r) => (m, with_rsp new_rsp r));;
  pop set_r15;; pop set_r14;; pop set_r13;; pop set_r12;; pop set_rbp;; pop set_rbx;;
  pop set_rip.
Definition context_switch (new_rsp : Z) : ASM Z :=
  old ← switch_out; switch_in new_rsp;; mret old.
(** [task_trampoline] up to the entry of the task: [return_address] is the one
    its [call] pushes. *)
Definition task_trampoline (return_address : Z) : ASM unit :=
  pop set_rdi;; push (fun _ => return_address);;
  modify (fun '(m, r) => (m, set_rip (rdi r) r)).

(** ** The table *)
Record Task := MkTask {
  context_rsp : Z;
  stack : option Z;  (** where the stack allocation starts *)
  t_name : string;
  cr3 : Z;
  kernel_stack_top : Z;
  ring3_kernel_rsp : Z;
  process : option Process }.
Definition set_context (v : Z) (t : Task) : Task :=
  MkTask v (stack t) (t_name t) (cr3 t) (kernel_stack_top t) (ring3_kernel_rsp t) (process t).
Definition set_process (v : option Process) (t : Task) : Task :=
  MkTask (context_rsp t) (stack t) (t_name t) (cr3 t) (kernel_stack_top t) (ring3_kernel_rsp t) v.
Definition set_ring3 (v : Z) (t : Task) : Task :=
  MkTask (context_rsp t) (stack t) (t_name t) (cr3 t) (kernel_stack_top t) v (process t).
Definition task_exited (t : Task) : bool :=
  match process t with Some p => is_exited p | None => false end.

Definition STACK_SIZE : Z := 16 * 1024.
Definition QUANTUM_TICKS : Z := 5.
Definition RING3_PARK_RESERVE : Z := 1024.

(** What of the machine the scheduler sees. *)
Record Cpu := MkCpu { cpu_regs : Regs; cpu_cr3 : Z; FS_BASE : Z; tss_rsp0 : Z }.
Record Sched := MkSched {
  memory : mem; TASKS : list Task; CURRENT : nat; TICKS : Z; cpu : Cpu }.
Definition set_tasks (ts : list Task) (s : Sched) : Sched := MkSched (memory s) ts (CURRENT s) (TICKS s) (cpu s).
Definition set_current (c : nat) (s : Sched) : Sched := MkSched (memory s) (TASKS s) c (TICKS s) (cpu s).
Definition set_cpu (c : Cpu) (s : Sched) : Sched := MkSched (memory s) (TASKS s) (CURRENT s) (TICKS s) c.
(** [tasks[i]]: an index outside the table panics. *)
Definition task_at (i : nat) : ST Sched Task := fun s => unwrap (TASKS s !! i) s.
Definition alter_task (i : nat) (f : Task -> Task) : ST Sched unit := fun s =>
  match TASKS s !! i with
  | Some t => Ret tt (set_tasks (<[i := f t]> (TASKS s)) s)
  | None => Panic
  end.
Definition current : ST Sched nat := fun s => Ret (CURRENT s) s.

(** [push_task]: [base] is the address of the stack the heap provides and
    [trampoline] that of [task_trampoline].  Interrupts are off meanwhile. *)
Definition fabricate_frame (x trampoline entry : Z) (m : mem) : mem :=
  let m := foldl (fun m i => write_u64 m (x + 8 * i) 0) m [0; 1; 2; 3; 4; 5] in
  write_u64 (write_u64 m (x + 8 * 6) trampoline) (x + 8 * 7) entry.
Definition push_task (base trampoline entry : Z) (name : string) (pml4 : Z) (p : option Process) : ST Sched nat := fun s =>
  let stack_top := base + STACK_SIZE in
  let a := Z.land stack_top (unot 64 0xF) in
  let x := a - 64 in
  let m := fabricate_frame x trampoline entry (mem_fill (memory s) base STACK_SIZE 0) in
  Ret (length (TASKS s))
    (MkSched m (TASKS s ++ [MkTask x (Some base) name pml4 stack_top 0 p]) (CURRENT s) (TICKS s) (cpu s)).

(** The search over [step in 1..count], [n] steps left. *)
Fixpoint find_next (n : nat) (ts : list Task) (cur step : nat) : option nat :=
  match n with
  | O => None
  | S n =>
      let candidate := ((cur + step) mod length ts)%nat in
      match ts !! candidate with
      | Some t => if task_exited t then find_next n ts cur (S step) else Some candidate
      | None => None
      end
  end.
Definition save_fs_base (i : nat) : ST Sched unit := fun s =>
  alter_task i (fun t => set_process (Process.set_fs_base (FS_BASE (cpu s)) <$> process t) t) s.
(** [wrmsr] when the task is a process *)
Definition load_fs_base (t : Task) : ST Sched unit :=
  modify (fun s => set_cpu (MkCpu (cpu_regs (cpu s)) (cpu_cr3 (cpu s))
    (match process t with Some p => fs_base p | None => FS_BASE (cpu s) end) (tss_rsp0 (cpu s))) s).
(** The call of [context_switch]: the old stack pointer goes to task [cur]. *)
Definition run_switch (cur : nat) (t : Task) : ST Sched unit := fun s =>
  match context_switch (context_rsp t) (memory s, cpu_regs (cpu s)) with
  | Panic => Panic
  | Ret old (m, r) =>
      alter_task cur (set_context old)
        (MkSched m (TASKS s) (CURRENT s) (TICKS s)
           (MkCpu r (cpu_cr3 (cpu s)) (FS_BASE (cpu s)) (tss_rsp0 (cpu s))))
  end.
(** The switch itself, from the saving of the FS base on. *)
Definition switch_to (cur next : nat) : ST Sched unit :=
  save_fs_base cur;;
  modify (set_current next);;
  t ← task_at next;
  load_fs_base t;;
  modify (fun s => set_cpu (MkCpu (cpu_regs (cpu s)) (cr3 t) (FS_BASE (cpu s))
                              (u64 (kernel_stack_top t - RING3_PARK_RESERVE))) s);;
  run_switch cur t.
Definition scheduler_tick : ST Sched unit := fun s =>
  if negb (TICKS s mod QUANTUM_TICKS =? 0) then Ret tt s else
  let count := length (TASKS s) in
  if (count <? 2)%nat then Ret tt s else
  match find_next (count - 1) (TASKS s) (CURRENT s) 1 with
  | None => Ret tt s
  | Some next => switch_to (CURRENT s) next s
  end.
(** [interrupts::timer]: the interrupt controller has no state here. *)
Definition timer : ST Sched unit :=
  modify (fun s => MkSched (memory s) (TASKS s) (CURRENT s) (u64 (TICKS s + 1)) (cpu s));;
  scheduler_tick.

(** [init] with the addresses of the three counter tasks; [stacks] are the
    stacks the heap gives them. *)
Definition init (kernel_pml4 boot_stack_top trampoline : Z) (counters : list (Z * Z * string)) : ST Sched unit :=
  modify (fun s => set_tasks (TASKS s ++ [MkTask 0 None "main" kernel_pml4 boot_stack_top 0 None]) s);;
  (fix go (cs : list (Z * Z * string)) : ST Sched unit :=
     match cs with
     | [] => mret tt
     | (base, entry, name) :: cs => push_task base trampoline entry name kernel_pml4 None;; go cs
     end) counters.
Definition spawn_process (base trampoline entry : Z) (name : string) (pml4 : Z) (p : Process) : ST Sched nat :=
  push_task base trampoline entry name pml4 (Some p).

Definition task_count (s : Sched) : nat := length (TASKS s).
Definition task_name (i : nat) : ST Sched string := t ← task_at i; mret (t_name t).
Definition process_state_label (i : nat) : ST Sched (option string) :=
  t ← task_at i; mret (state_label <$> process t).
Definition process_of (s : Sched) (pid : nat) : option Process := t ← TASKS s !! pid; process t.
Definition current_is_process (s : Sched) : bool :=
  match process_of s (CURRENT s) with Some _ => true | None => false end.
Definition current_pid (s : Sched) : nat := CURRENT s.
(** [expect]: a task that is not a process panics. *)
Definition current_process : ST Sched Process := c ← current; t ← task_at c; unwrap (process t).
Definition current_process_entry : ST Sched Z := p ← current_process; mret (p_entry p).
Definition current_process_user_rsp : ST Sched Z := p ← current_process; mret (user_rsp p).
Definition current_process_abi : ST Sched (option Abi) := c ← current; t ← task_at c; mret (abi <$> process t).
Definition current_process_cr3 : ST Sched (option Z) :=
  c ← current; t ← task_at c; mret ((fun _ => cr3 t) <$> process t).
(** [with_current_process_mut(f)] for an [f] that changes only the process. *)
Definition with_current_process {A} (f : Process -> A * Process) : ST Sched (option A) :=
  c ← current;
  t ← task_at c;
  match process t with
  | None => mret None
  | Some p => let (a, p) := f p in alter_task c (set_process (Some p));; mret (Some a)
  end.
Definition set_current_ring3_return_rsp (rsp : Z) : ST Sched unit := c ← current; alter_task c (set_ring3 rsp).
Definition current_ring3_return_rsp : ST Sched Z := c ← current; t ← task_at c; mret (ring3_kernel_rsp t).
(** [unwrap] of the exit information: [None] in an exited process panics. *)
Definition process_exit_status (pid : nat) : ST Sched (option ExitInfo) := fun s =>
  match process_of s pid with
  | None => Ret None s
  | Some p =>
      if bool_decide (p_state p <> Exited) then Ret None s
      else match exit_info p with Some i => Ret (Some i) s | None => Panic end
  end.
Definition process_mappings (s : Sched) (pid : nat) : option (list Mapping) := mappings <$> process_of s pid.
Definition deliver_message (pid : nat) (bytes : list Z) : ST Sched bool := fun s =>
  match process_of s pid with
  | None => Ret false s
  | Some p =>
      if is_exited p then Ret false s
      else (alter_task pid (set_process (Some (Process.set_inbox (Some bytes) p)));; mret true) s
  end.
Definition take_current_message : ST Sched (option (list Z)) :=
  r ← with_current_process (fun p => (p_inbox p, Process.set_inbox None p)); mret (mjoin r).
Definition mark_current_exited (info : ExitInfo) : ST Sched unit :=
  with_current_process (fun p => (tt, mark_exited info p));; mret tt.
(** [Vec::swap_remove] *)
Definition swap_remove {A} (i : nat) (l : list A) : list A :=
  match last l with
  | Some x => take (length l - 1) (<[i := x]> l)
  | None => l
  end.
Definition remove_process (pid : nat) : ST Sched (option Process) := fun s =>
  match TASKS s !! pid with
  | None => Ret None s
  | Some t =>
      if decide (CURRENT s = pid) then Ret None s else
      let ts := swap_remove pid (TASKS s) in
      let c := if decide (CURRENT s = length ts) then pid
               else if decide (pid < CURRENT s)%nat then (CURRENT s - 1)%nat else CURRENT s in
      Ret (process t) (set_current c (set_tasks ts s))
  end.

(** ** What a switch does *)
Definition regs_ok (r : Regs) : Prop :=
  in_u 64 (rbx r) /\ in_u 64 (rbp r) /\ in_u 64 (r12 r) /\ in_u 64 (r13 r) /\ in_u 64 (r14 r) /\ in_u 64 (r15 r).
(** The seven words a task that is not running has on its stack. *)
Definition FRAME : Z := 56.
Definition frame_at (m : mem) (sp : Z) (r : Regs) : Prop :=
  read_u64 m sp = r15 r /\ read_u64 m (sp + 8) = r14 r /\ read_u64 m (sp + 16) = r13 r /\
  read_u64 m (sp + 24) = r12 r /\ read_u64 m (sp + 32) = rbp r /\ read_u64 m (sp + 40) = rbx r /\
  read_u64 m (sp + 48) = rip r.
Definition stack_ok (sp : Z) : Prop := 48 <= sp /\ sp + 8 < 2 ^ 64.

Lemma frame_at_ext m m' sp r : (forall a, sp <= a < sp + FRAME -> m' a = m a) -> frame_at m sp r -> frame_at m' sp r.
Proof.
  unfold frame_at, FRAME. intros Hm.
  assert (forall k, 0 <= k <= 48 -> read_u64 m' (sp + k) = read_u64 m (sp + k)) as Hl.
  { intros k Hk. apply load_ext. intros x Hx. apply Hm. lia. }
  pose proof (Hl 0 ltac:(lia)) as H0. rewrite !Z.add_0_r in H0. rewrite H0, !Hl by lia. done.
Qed.
Lemma switch_out_run m r : stack_ok (rsp r) -> regs_ok r -> exists m',
  switch_out (m, r) = Ret (rsp r - 48) (m', with_rsp (rsp r - 48) r) /\
  (forall a, ~ (rsp r - 48 <= a < rsp r) -> m' a = m a) /\
  frame_at m' (rsp r - 48) (set_rip (read_u64 m (rsp r)) r).
Proof.
  intros [Hlo Hhi] (H1 & H2 & H3 & H4 & H5 & H6).
  unfold switch_out, push, get_rsp, mbind, st_bind. cbn [rsp with_rsp rbx rbp r12 r13 r14 r15 snd].
  set (sp := rsp r) in *.
  rewrite (wrap_small 64 (sp - 8)) by (unfold in_u; lia). rewrite (wrap_small 64 (sp - 8 - 8)) by (unfold in_u; lia).
  rewrite (wrap_small 64 (sp - 8 - 8 - 8)) by (unfold in_u; lia).
  rewrite (wrap_small 64 (sp - 8 - 8 - 8 - 8)) by (unfold in_u; lia).
  rewrite (wrap_small 64 (sp - 8 - 8 - 8 - 8 - 8)) by (unfold in_u; lia).
  rewrite (wrap_small 64 (sp - 8 - 8 - 8 - 8 - 8 - 8)) by (unfold in_u; lia).
  replace (sp - 8 - 8) with (sp - 16) by lia. replace (sp - 16 - 8) with (sp - 24) by lia.
  replace (sp - 24 - 8) with (sp - 32) by lia. replace (sp - 32 - 8) with (sp - 40) by lia.
  replace (sp - 40 - 8) with (sp - 48) by lia.
  eexists. split; [reflexivity|]. split.
  - intros a Ha. rewrite !store_frame by lia. done.
  - unfold frame_at. cbn [rbx rbp r12 r13 r14 r15 rip set_rip].
    assert (forall a m b v, a + 8 <= b \/ b + 8 <= a -> load 8 (store 8 m b v) a = load 8 m a) as Hd
      by (intros; by apply load_store_disj).
    assert (forall m a v, in_u 64 v -> load 8 (store 8 m a v) a = v) as Hs.
    { intros. rewrite load_store_same. apply Z.mod_small. done. }
    replace (sp - 48 + 8) with (sp - 40) by lia. replace (sp - 48 + 16) with (sp - 32) by lia.
    replace (sp - 48 + 24) with (sp - 24) by lia. replace (sp - 48 + 32) with (sp - 16) by lia.
    replace (sp - 48 + 40) with (sp - 8) by lia. replace (sp - 48 + 48) with sp by lia.
    repeat split; rewrite ?Hd by lia; (reflexivity || by apply Hs).
Qed.
Lemma switch_in_mem sp m r : exists r', switch_in sp (m, r) = Ret tt (m, r').
Proof. eexists. reflexivity. Qed.
Lemma switch_in_run sp m r f : 0 <= sp -> sp + FRAME < 2 ^ 64 -> frame_at m sp f ->
  switch_in sp (m, r) =
    Ret tt (m, MkRegs (rbx f) (rbp f) (r12 f) (r13 f) (r14 f) (r15 f) (rdi r) (sp + FRAME) (rip f)).
Proof.
  unfold FRAME. intros Hlo Hhi (H1 & H2 & H3 & H4 & H5 & H6 & H7).
  unfold switch_in, pop, modify, mbind, st_bind. cbn -[load wrap Z.add].
  rewrite (wrap_small 64 (sp + 8)) by (unfold in_u; lia). rewrite (wrap_small 64 (sp + 8 + 8)) by (unfold in_u; lia).
  rewrite (wrap_small 64 (sp + 8 + 8 + 8)) by (unfold in_u; lia).
  rewrite (wrap_small 64 (sp + 8 + 8 + 8 + 8)) by (unfold in_u; lia).
  rewrite (wrap_small 64 (sp + 8 + 8 + 8 + 8 + 8)) by (unfold in_u; lia).
  rewrite (wrap_small 64 (sp + 8 + 8 + 8 + 8 + 8 + 8)) by (unfold in_u; lia).
  rewrite (wrap_small 64 (sp + 8 + 8 + 8 + 8 + 8 + 8 + 8)) by (unfold in_u; lia).
  replace (sp + 8 + 8) with (sp + 16) by lia. replace (sp + 16 + 8) with (sp + 24) by lia.
  replace (sp + 24 + 8) with (sp + 32) by lia. replace (sp + 32 + 8) with (sp + 40) by lia.
  replace (sp + 40 + 8) with (sp + 48) by lia. replace (sp + 48 + 8) with (sp + 56) by lia.
  by rewrite H1, H2, H3, H4, H5, H6, H7.
Qed.

(** ** The search for the next task *)
Lemma find_next_spec ts cur : (0 < length ts)%nat -> forall n step,
  match find_next n ts cur step with
  | Some c => exists k t, (step <= k < step + n)%nat /\ c = ((cur + k) mod length ts)%nat /\
      ts !! c = Some t /\ task_exited t = false /\
      forall j, (step <= j < k)%nat -> exists u, ts !! ((cur + j) mod length ts)%nat = Some u /\ task_exited u = true
  | None => forall j, (step <= j < step + n)%nat ->
      exists u, ts !! ((cur + j) mod length ts)%nat = Some u /\ task_exited u = true
  end.
Proof.
  intros Hl n. induction n as [|n IH]; intros step; cbn [find_next]; [intros; lia|].
  destruct (lookup_lt_is_Some_2 ts ((cur + step) mod length ts)) as [t Ht]; [apply Nat.mod_upper_bound; lia|].
  rewrite Ht. destruct (task_exited t) eqn:Ex.
  - specialize (IH (S step)). destruct (find_next n ts cur (S step)) as [c|].
    + destruct IH as (k & u & Hk & -> & Hu & Hx & Hb). exists k, u. split; [lia|]. do 3 (split; [done|]).
      intros j Hj. destruct (decide (j = step)) as [->|]; [by exists t|]. apply Hb. lia.
    + intros j Hj. destruct (decide (j = step)) as [->|]; [by exists t|]. apply IH. lia.
  - exists step, t. split; [lia|]. do 3 (split; [done|]). intros; lia.
Qed.
Lemma mod_step_ne (a k n : nat) : (a < n)%nat -> (0 < k < n)%nat -> ((a + k) mod n)%nat <> a.
Proof.
  intros Ha Hk E. destruct (decide (a + k < n)%nat).
  - rewrite Nat.mod_small in E by done. lia.
  - replace (a + k)%nat with (a + k - n + 1 * n)%nat in E by lia.
    rewrite Nat.Div0.mod_add, Nat.mod_small in E by lia. lia.
Qed.

Definition ticked (s : Sched) : Sched := MkSched (memory s) (TASKS s) (CURRENT s) (u64 (TICKS s + 1)) (cpu s).
(** Whether the next timer interrupt may switch, and to which task. *)
Definition next_task (s : Sched) : option nat :=
  if negb (u64 (TICKS s + 1) mod QUANTUM_TICKS =? 0) || (length (TASKS s) <? 2)%nat then None
  else find_next (length (TASKS s) - 1) (TASKS s) (CURRENT s) 1.
Lemma timer_cases s :
  timer s = match next_task s with Some next => switch_to (CURRENT s) next (ticked s) | None => Ret tt (ticked s) end.
Proof.
  unfold timer, next_task, mbind, st_bind, modify. unfold scheduler_tick. cbn [TICKS TASKS CURRENT].
  destruct (negb _); [done|]. cbn [orb]. destruct (_ <? _)%nat; [done|]. done.
Qed.
Lemma next_task_other s next : (CURRENT s < length (TASKS s))%nat -> next_task s = Some next ->
  next <> CURRENT s /\ exists t, TASKS s !! next = Some t /\ task_exited t = false.
Proof.
  unfold next_task. intros Hc. destruct (_ || _) eqn:E; [done|]. intros Hn.
  apply orb_false_iff in E as [_ E]. apply Nat.ltb_ge in E.
  pose proof (find_next_spec (TASKS s) (CURRENT s) ltac:(lia) (length (TASKS s) - 1) 1) as Hf. rewrite Hn in Hf.
  destruct Hf as (k & t & Hk & -> & Ht & Hx & _). split; [|by exists t]. apply mod_step_ne; lia.
Qed.

(** What task [c] looks like once it has been switched out of [s]. *)
Definition parked (s : Sched) (t : Task) : Task :=
  set_context (rsp (cpu_regs (cpu s)) - 48)
    (set_process (Process.set_fs_base (FS_BASE (cpu s)) <$> process t) t).
Definition saved_regs (s : Sched) : Regs :=
  set_rip (read_u64 (memory s) (rsp (cpu_regs (cpu s)))) (cpu_regs (cpu s)).
Definition fs_for (t : Task) (old : Z) : Z := match process t with Some p => fs_base p | None => old end.
Lemma switch_to_run s next tc tn :
  next <> CURRENT s -> TASKS s !! CURRENT s = Some tc -> TASKS s !! next = Some tn ->
  stack_ok (rsp (cpu_regs (cpu s))) -> regs_ok (cpu_regs (cpu s)) ->
  exists m' r', switch_to (CURRENT s) next s =
      Ret tt (MkSched m' (<[CURRENT s := parked s tc]> (TASKS s)) next (TICKS s)
                (MkCpu r' (cr3 tn) (fs_for tn (FS_BASE (cpu s))) (u64 (kernel_stack_top tn - RING3_PARK_RESERVE)))) /\
    (forall a, ~ (rsp (cpu_regs (cpu s)) - 48 <= a < rsp (cpu_regs (cpu s))) -> m' a = memory s a) /\
    frame_at m' (rsp (cpu_regs (cpu s)) - 48) (saved_regs s) /\
    switch_in (context_rsp tn) (m', with_rsp (rsp (cpu_regs (cpu s)) - 48) (cpu_regs (cpu s))) = Ret tt (m', r').
Proof.
  intros Hne Hc Hn Hst Hr.
  destruct (switch_out_run (memory s) (cpu_regs (cpu s)) Hst Hr) as (m' & Eo & Hm & Hf).
  destruct (switch_in_mem (context_rsp tn) m' (with_rsp (rsp (cpu_regs (cpu s)) - 48) (cpu_regs (cpu s)))) as (r' & Ei).
  exists m', r'. split; [|done].
  unfold switch_to, save_fs_base, alter_task, mbind, st_bind, modify, set_current, task_at, unwrap. rewrite Hc.
  cbn [TASKS set_tasks]. rewrite list_lookup_insert_ne, Hn by done. unfold load_fs_base, modify, run_switch.
  unfold context_switch, mbind, st_bind, mret, st_ret.
  unfold set_cpu, set_tasks. cbn [memory TASKS CURRENT TICKS cpu cpu_regs cpu_cr3 FS_BASE tss_rsp0]. rewrite Eo, Ei.
  unfold alter_task. cbn [TASKS]. rewrite list_lookup_insert_eq by by eapply lookup_lt_Some.
  unfold set_tasks. cbn [memory TASKS CURRENT TICKS cpu FS_BASE]. rewrite list_insert_insert_eq. done.
Qed.

(** ** What happens while a task is not running *)
Definition apart (a1 l1 a2 l2 : Z) : Prop := a1 + l1 <= a2 \/ a2 + l2 <= a1.
(** The running task, not [i], takes a timer interrupt on a stack that does not
    overlap the frame of [i], or does anything that leaves task [i], its frame
    and the index of the running task alone. *)
Inductive elsewhere (i : nat) : Sched -> Sched -> Prop :=
| else_timer s s' t :
    CURRENT s <> i -> TASKS s !! i = Some t -> (CURRENT s < length (TASKS s))%nat ->
    stack_ok (rsp (cpu_regs (cpu s))) -> regs_ok (cpu_regs (cpu s)) ->
    apart (rsp (cpu_regs (cpu s)) - 48) 48 (context_rsp t) FRAME ->
    timer s = Ret tt s' -> elsewhere i s s'
| else_run s s' t :
    CURRENT s <> i -> CURRENT s' = CURRENT s -> TASKS s !! i = Some t -> TASKS s' !! i = Some t ->
    (forall a, context_rsp t <= a < context_rsp t + FRAME -> memory s' a = memory s a) -> elsewhere i s s'.

(** [s] is where [s0] was interrupted, from the point of view of its task. *)
Record resumed (s0 s : Sched) (t : Task) : Prop := {
  re_current : CURRENT s = CURRENT s0;
  re_rbx : rbx (cpu_regs (cpu s)) = rbx (cpu_regs (cpu s0));
  re_rbp : rbp (cpu_regs (cpu s)) = rbp (cpu_regs (cpu s0));
  re_r12 : r12 (cpu_regs (cpu s)) = r12 (cpu_regs (cpu s0));
  re_r13 : r13 (cpu_regs (cpu s)) = r13 (cpu_regs (cpu s0));
  re_r14 : r14 (cpu_regs (cpu s)) = r14 (cpu_regs (cpu s0));
  re_r15 : r15 (cpu_regs (cpu s)) = r15 (cpu_regs (cpu s0));
  re_rsp : rsp (cpu_regs (cpu s)) = rsp (cpu_regs (cpu s0)) + 8;
  re_rip : rip (cpu_regs (cpu s)) = read_u64 (memory s0) (rsp (cpu_regs (cpu s0)));
  re_cr3 : cpu_cr3 (cpu s) = cr3 t;
  re_rsp0 : tss_rsp0 (cpu s) = u64 (kernel_stack_top t - RING3_PARK_RESERVE);
  re_fs : is_Some (process t) -> FS_BASE (cpu s) = FS_BASE (cpu s0)
}.
Definition waiting (i : nat) (s0 s : Sched) (t : Task) : Prop :=
  TASKS s !! i = Some (parked s0 t) /\
  (CURRENT s <> i -> frame_at (memory s) (rsp (cpu_regs (cpu s0)) - 48) (saved_regs s0)) /\
  (CURRENT s = i -> resumed s0 s t).
Lemma elsewhere_waiting i s0 s s' t :
  CURRENT s0 = i -> stack_ok (rsp (cpu_regs (cpu s0))) ->
  waiting i s0 s t -> elsewhere i s s' -> waiting i s0 s' t.
Proof.
  intros H0 [Hlo0 Hhi0] (Ht & Hf & _) He. destruct He as [s s' t' Hne Ht' Hc Hst Hr Hap Htm|s s' t' Hne Hcur Ht' Hts Hm].
  - rewrite Ht in Ht'. injection Ht' as <-. cbn [parked context_rsp set_context] in Hap. unfold apart, FRAME in Hap.
    rewrite timer_cases in Htm. specialize (Hf Hne). destruct (next_task s) as [next|] eqn:En.
    2: { injection Htm as <-. split; [done|]. split; [done|]. cbn [ticked CURRENT]. done. }
    destruct (next_task_other s next Hc En) as (Hnn & tn & Htn & _).
    destruct (lookup_lt_is_Some_2 (TASKS s) (CURRENT s) Hc) as [tc Htc].
    destruct (switch_to_run (ticked s) next tc tn Hnn Htc Htn Hst Hr) as (m' & r' & E & Hm' & _ & Ei).
    change (CURRENT (ticked s)) with (CURRENT s) in E. rewrite E in Htm. injection Htm as <-. cbn [ticked cpu memory TASKS CURRENT] in *.
    assert (frame_at m' (rsp (cpu_regs (cpu s0)) - 48) (saved_regs s0)) as Hf'.
    { apply (frame_at_ext (memory s)); [|done]. unfold FRAME. intros a Ha. apply Hm'. lia. }
    split; [cbn [TASKS]; by rewrite list_lookup_insert_ne|]. split; [done|]. cbn [CURRENT]. intros ->. rewrite Ht in Htn.
    injection Htn as <-. cbn [parked set_context context_rsp cr3 set_process kernel_stack_top] in *.
    rewrite (switch_in_run (rsp (cpu_regs (cpu s0)) - 48) m' (with_rsp (rsp (cpu_regs (cpu s)) - 48) (cpu_regs (cpu s))) (saved_regs s0) ltac:(lia) ltac:(unfold FRAME; lia) Hf') in Ei. injection Ei as <-.
    split; cbn; try done; [unfold FRAME; lia|]. intros [p Hp]. unfold fs_for, parked. cbn. by rewrite Hp.
  - rewrite Ht in Ht'. injection Ht' as <-. split; [done|]. split; [|by rewrite Hcur].
    intros _. apply (frame_at_ext (memory s)); [|by apply Hf]. exact Hm.
Qed.


(** ** Fairness *)
(** How many steps of the round robin from [cur] to [i]. *)
Definition dist (n cur i : nat) : nat := if decide (cur <= i)%nat then (i - cur)%nat else (i + n - cur)%nat.
Lemma mod_step (a k n : nat) : (a < n)%nat -> (k < n)%nat ->
  ((a + k) mod n)%nat = if decide (a + k < n)%nat then (a + k)%nat else (a + k - n)%nat.
Proof.
  intros Ha Hk. case_decide; [by apply Nat.mod_small|].
  replace (a + k)%nat with (a + k - n + 1 * n)%nat at 1 by lia. rewrite Nat.Div0.mod_add. apply Nat.mod_small. lia.
Qed.
Definition runnable (i : nat) (s : Sched) : Prop := exists t, TASKS s !! i = Some t /\ task_exited t = false.
(** Between two interrupts the tasks may do anything that keeps the table's
    length, the running task, the clock and [i] runnable. *)
Definition undisturbed (i : nat) (s s' : Sched) : Prop :=
  length (TASKS s') = length (TASKS s) /\ CURRENT s' = CURRENT s /\ TICKS s' = TICKS s /\ runnable i s'.
(** A run with [k] timer interrupts during which task [i] never has the
    processor. *)
Inductive passed_over (i : nat) : nat -> Sched -> Sched -> Prop :=
| po_refl s : CURRENT s <> i -> passed_over i 0 s s
| po_run k s s1 s2 : CURRENT s <> i -> undisturbed i s s1 -> passed_over i k s1 s2 -> passed_over i k s s2
| po_timer k s s1 s2 : CURRENT s <> i -> stack_ok (rsp (cpu_regs (cpu s))) -> regs_ok (cpu_regs (cpu s)) ->
    timer s = Ret tt s1 -> passed_over i k s1 s2 -> passed_over i (S k) s s2.

(** Interrupts before the next one that switches, and before [i] must run. *)
Definition until_switch (s : Sched) : Z := 4 - TICKS s mod 5.
Definition until_run (i : nat) (s : Sched) : Z :=
  5 * (Z.of_nat (dist (length (TASKS s)) (CURRENT s) i) - 1) + until_switch s + 1.
Lemma timer_total s :
  (CURRENT s < length (TASKS s))%nat -> stack_ok (rsp (cpu_regs (cpu s))) -> regs_ok (cpu_regs (cpu s)) ->
  exists s', timer s = Ret tt s' /\ TICKS s' = u64 (TICKS s + 1) /\ length (TASKS s') = length (TASKS s) /\
    CURRENT s' = default (CURRENT s) (next_task s) /\ (CURRENT s' < length (TASKS s'))%nat /\
    (forall j t, j <> CURRENT s -> TASKS s !! j = Some t -> TASKS s' !! j = Some t).
Proof.
  intros Hc Hst Hr. rewrite timer_cases. destruct (next_task s) as [next|] eqn:En; [|by exists (ticked s)].
  destruct (next_task_other s next Hc En) as (Hnn & tn & Htn & _).
  destruct (lookup_lt_is_Some_2 (TASKS s) (CURRENT s) Hc) as [tc Htc].
  destruct (switch_to_run (ticked s) next tc tn Hnn Htc Htn Hst Hr) as (m' & r' & E & _).
  change (CURRENT (ticked s)) with (CURRENT s) in E. rewrite E. eexists. split; [reflexivity|].
  cbn [TICKS TASKS CURRENT ticked default]. rewrite length_insert. do 3 (split; [done|]).
  split; [by eapply lookup_lt_Some|]. intros j t Hj Ht. by rewrite list_lookup_insert_ne.
Qed.
Lemma next_task_closer i s :
  (CURRENT s < length (TASKS s))%nat -> runnable i s -> CURRENT s <> i -> u64 (TICKS s + 1) mod 5 = 0 ->
  exists next, next_task s = Some next /\
    (dist (length (TASKS s)) next i < dist (length (TASKS s)) (CURRENT s) i)%nat.
Proof.
  intros Hc (t & Ht & Hx) Hne Htick. pose proof (lookup_lt_Some _ _ _ Ht) as Hi. unfold next_task, QUANTUM_TICKS.
  rewrite (proj2 (Z.eqb_eq _ _) Htick), (proj2 (Nat.ltb_ge _ 2)) by lia. cbn [negb orb].
  pose proof (find_next_spec (TASKS s) (CURRENT s) ltac:(lia) (length (TASKS s) - 1) 1) as Hf.
  set (n := length (TASKS s)) in *. set (d := dist n (CURRENT s) i).
  assert (0 < d < n)%nat as Hd by (unfold d, dist; case_decide; lia).
  assert (((CURRENT s + d) mod n)%nat = i) as Hdi.
  { rewrite mod_step by lia. unfold d, dist. repeat case_decide; lia. }
  destruct (find_next _ _ _ _) as [c|].
  - destruct Hf as (k & u & Hk & -> & Hu & Hxu & Hskip).
    destruct (decide (d < k)%nat).
    { destruct (Hskip d) as (v & Hv & Hxv); [lia|]. rewrite Hdi, Ht in Hv. congruence. }
    eexists. split; [reflexivity|]. rewrite mod_step by lia. unfold d, dist in *. repeat case_decide; lia.
  - exfalso. destruct (Hf d) as (v & Hv & Hxv); [lia|]. rewrite Hdi, Ht in Hv. congruence.
Qed.

(** C16: No task starves.  While task [i] is runnable, the timer never panics, and
    in any run in which it does not get the processor there are fewer than
    [QUANTUM_TICKS] times (the number of tasks less one) timer interrupts,
    whatever the other tasks do in between: fork bombs aside (the table's length
    is fixed), a task waits at most 50 ms for every other task. *)
Theorem scheduler_fair i k s s' :
  (CURRENT s < length (TASKS s))%nat -> runnable i s -> 0 <= TICKS s -> TICKS s + Z.of_nat k < 2 ^ 64 ->
  passed_over i k s s' ->
  Z.of_nat k < QUANTUM_TICKS * (Z.of_nat (length (TASKS s)) - 1) /\
  (stack_ok (rsp (cpu_regs (cpu s'))) -> regs_ok (cpu_regs (cpu s')) -> exists s'', timer s' = Ret tt s'').
Proof.
  intros Hc Hi H0 Hk Hpo.
  assert (Z.of_nat k < until_run i s /\ (CURRENT s' < length (TASKS s'))%nat) as [Hlt Hc'].
  { induction Hpo as [s Hne|k s s1 s2 Hne (Hl & Hcu & Hti & Hi1) _ IH|k s s1 s2 Hne Hst Hr Htm Hpo IH].
    - split; [|done]. unfold until_run, until_switch, dist. pose proof (Z.mod_pos_bound (TICKS s) 5 ltac:(lia)).
      destruct Hi as (t & Ht%lookup_lt_Some & _). case_decide; lia.
    - assert (until_run i s1 = until_run i s) as <- by (unfold until_run, until_switch; by rewrite Hl, Hcu, Hti).
      apply IH; [by rewrite Hl, Hcu|done|lia|lia].
    - destruct (timer_total s Hc Hst Hr) as (s1' & E & Hti & Hl & Hcu & Hc1 & Hkeep). rewrite Htm in E. injection E as <-.
      rewrite wrap_small in Hti by (unfold in_u; lia).
      assert (runnable i s1) as Hi1. { destruct Hi as (t & Ht & Hx). exists t. split; [by apply Hkeep|done]. }
      specialize (IH Hc1 Hi1 ltac:(lia) ltac:(lia)). destruct IH as [IH ?]. split; [|done].
      unfold until_run, until_switch in *. rewrite Hl, Hti in IH.
      destruct (decide ((TICKS s + 1) mod 5 = 0)) as [Hz|Hz].
      + destruct (next_task_closer i s Hc Hi Hne) as (next & En & Hd); [rewrite wrap_small by (unfold in_u; lia); done|].
        rewrite En in Hcu. cbn in Hcu. rewrite Hcu in IH. zlia.
      + assert (next_task s = None) as En.
        { unfold next_task, QUANTUM_TICKS. rewrite wrap_small by (unfold in_u; lia). by rewrite (proj2 (Z.eqb_neq _ _) Hz). }
        rewrite En in Hcu. cbn in Hcu. rewrite Hcu in IH. zlia. }
  split.
  - unfold until_run, until_switch, dist, QUANTUM_TICKS in *. pose proof (Z.mod_pos_bound (TICKS s) 5 ltac:(lia)).
    destruct Hi as (t & Ht%lookup_lt_Some & _). case_decide; lia.
  - intros Hst Hr. destruct (timer_total s' Hc' Hst Hr) as (s'' & E & _). by exists s''.
Qed.

(** ** Removing a process *)
Lemma length_swap_remove {A} i (l : list A) : (i < length l)%nat -> length (swap_remove i l) = (length l - 1)%nat.
Proof.
  intros Hi. unfold swap_remove. destruct (last l) eqn:E; [|by apply last_None in E as ->].
  rewrite length_take, length_insert. lia.
Qed.
Lemma lookup_swap_remove {A} i (l : list A) j : (i < length l)%nat -> (j < length l - 1)%nat ->
  swap_remove i l !! j = if decide (j = i) then last l else l !! j.
Proof.
  intros Hi Hj. unfold swap_remove. destruct (last l) as [x|] eqn:E; [|apply last_None in E as ->; cbn in Hi; lia].
  rewrite lookup_take_lt by lia. case_decide as Hd; [subst; by rewrite list_lookup_insert_eq by lia|].
  by rewrite list_lookup_insert_ne.
Qed.

(** Removing a process loses track of the running task.  [remove_process]
    gives the process of any other task and fills its slot with the last task;
    every other task keeps its index.  [CURRENT] names the running task
    afterwards when it was the last one or comes before the removed one; but
    when it lies between the two, where nothing has moved, [CURRENT] is
    decremented and names another task, whose saved stack pointer the next
    switch overwrites. *)
Theorem remove_process_current pid s t :
  TASKS s !! pid = Some t -> CURRENT s <> pid -> (CURRENT s < length (TASKS s))%nat ->
  exists s', remove_process pid s = Ret (process t) s' /\
    length (TASKS s') = (length (TASKS s) - 1)%nat /\
    (forall j, (j < length (TASKS s) - 1)%nat -> j <> pid -> TASKS s' !! j = TASKS s !! j) /\
    ((pid < length (TASKS s) - 1)%nat -> TASKS s' !! pid = last (TASKS s)) /\
    if decide (pid < CURRENT s < length (TASKS s) - 1)%nat
    then CURRENT s' = (CURRENT s - 1)%nat /\ TASKS s' !! CURRENT s = TASKS s !! CURRENT s
    else TASKS s' !! CURRENT s' = TASKS s !! CURRENT s.
Proof.
  intros Ht Hne Hc. pose proof (lookup_lt_Some _ _ _ Ht) as Hp. unfold remove_process. rewrite Ht.
  rewrite decide_False by done. eexists. split; [reflexivity|]. cbn [TASKS set_current set_tasks CURRENT].
  rewrite length_swap_remove by done. split; [done|].
  assert (forall j, (j < length (TASKS s) - 1)%nat ->
    swap_remove pid (TASKS s) !! j = if decide (j = pid) then last (TASKS s) else TASKS s !! j) as Hl
    by (intros; by apply lookup_swap_remove).
  split; [intros j Hj Hjp; by rewrite Hl, decide_False by done|].
  split; [intros Hpl; by rewrite Hl, decide_True by done|].
  destruct (decide (CURRENT s = length (TASKS s) - 1)%nat) as [E|E].
  - rewrite decide_False by lia. rewrite Hl, decide_True by lia. by rewrite last_lookup, E, Nat.sub_1_r.
  - case_decide as Hb.
    + rewrite decide_True by lia. split; [done|]. by rewrite Hl, decide_False by lia.
    + rewrite decide_False by lia. by rewrite Hl, decide_False by lia.
Qed.

(** ** Witnesses *)
Definition sample_regs : Regs := MkRegs 1 2 3 4 5 6 7 0x9000 0x100000.
Definition sample_task (sp : Z) : Task := MkTask sp None "task" 0x10000 (sp + 0x800) 0 None.
Definition sample_sched (n : nat) : Sched :=
  MkSched (fun _ => 0) (map (fun i => sample_task (Z.of_nat i * 0x4000 + 0x7000)) (seq 0 n)) 0 4
    (MkCpu sample_regs 0x10000 0 0).
Definition after_timer (s : Sched) : Sched := ret_state s (timer s).
Definition at_tick (n : Z) (s : Sched) : Sched := MkSched (memory s) (TASKS s) (CURRENT s) n (cpu s).
Lemma run_timer s : ret_val (timer s) = Some tt -> timer s = Ret tt (after_timer s).
Proof. apply ret_intro. Qed.
(** Two tasks, the second one's clock moved on, and back. *)
Lemma sample_run : exists s1 t0 s2, timer (sample_sched 2) = Ret tt s1 /\ CURRENT s1 = 1%nat /\
  TASKS s1 !! 0%nat = Some t0 /\ context_rsp t0 = 0x8FD0 /\ length (TASKS s1) = 2%nat /\
  cpu_regs (cpu s1) = MkRegs 0 0 0 0 0 0 7 0xB038 0 /\
  timer (at_tick 9 s1) = Ret tt s2 /\ CURRENT s2 = 0%nat.
Proof.
  exists (after_timer (sample_sched 2)). eexists. exists (after_timer (at_tick 9 (after_timer (sample_sched 2)))).
  split; [apply run_timer; vm_compute; reflexivity|]. split; [vm_compute; reflexivity|].
  split; [vm_compute; reflexivity|]. split; [vm_compute; reflexivity|]. split; [vm_compute; reflexivity|].
  split; [vm_compute; reflexivity|]. split; [apply run_timer; vm_compute; reflexivity|]. vm_compute. reflexivity.
Qed.
Lemma scheduler_fair_witness : runnable 2 (sample_sched 3) /\ Z.of_nat 1 < QUANTUM_TICKS * (Z.of_nat 3 - 1).
Proof.
  assert (runnable 2 (sample_sched 3)) as Hr by (eexists; split; reflexivity). split; [exact Hr|].
  apply (scheduler_fair 2 1 (sample_sched 3) (after_timer (sample_sched 3))).
  - cbn. lia.
  - exact Hr.
  - cbn. lia.
  - cbn. lia.
  - apply (po_timer 2 0 _ (after_timer (sample_sched 3))).
    + cbn. lia.
    + unfold stack_ok. cbn. lia.
    + unfold regs_ok, in_u. cbn. lia.
    + apply run_timer. vm_compute. reflexivity.
    + apply po_refl. assert (CURRENT (after_timer (sample_sched 3)) = 1%nat) as -> by (vm_compute; reflexivity). lia.
Defined.
Lemma remove_process_current_witness :
  exists s', remove_process 0 (set_current 1 (sample_sched 4)) = Ret None s' /\ CURRENT s' = 0%nat /\
    TASKS s' !! 1%nat = TASKS (sample_sched 4) !! 1%nat.
Proof.
  destruct (remove_process_current 0 (set_current 1 (sample_sched 4)) (sample_task 0x7000)) as (s' & E & _ & _ & _ & Hc);
    [reflexivity|cbn; lia|cbn; lia|].
  exists s'. split; [exact E|]. exact Hc.
Defined.
