(* ===== verification/Spawn.v ===== *)
(** * Processes by id, [process.rs]

    Spawning, waiting, reaping and translating a process's addresses.
    These operations run on the whole kernel state: one physical memory, which
    the frame bitmap, the task stacks and the shared objects live in, the task
    table, the mounted volume and the socket table. *)
From S2P Require Import Prelude Bytes Text PhysMem Pmm Paging Disk Rtc Fat Vfs Shm Socket Elf Process Task.

Section world.
Context {D : Type} `{BlockDevice D} (rtc_now : D -> DateTime).
(** [allocator::heap_range()], the boot map's root, the addresses of
    [task_trampoline] and [process_entry_trampoline]. *)
Context (heap : Z * Z) (kernel_pml4 trampoline process_entry : Z).

Record world := MkWorld {
  w_machine : machine;
  w_tasks : list Task; w_current : nat; w_ticks : Z; w_cpu : Cpu;
  w_volume : option (Fat32 D);
  w_endpoints : list (option Endpoint); w_listeners : gmap string Z; w_objects : list (option SharedMem)
}.
Definition set_machine (v : machine) (w : world) : world :=
  MkWorld v (w_tasks w) (w_current w) (w_ticks w) (w_cpu w) (w_volume w) (w_endpoints w) (w_listeners w) (w_objects w).
(** The parts of the state the components run on. *)
Definition sched_of (w : world) : Sched :=
  MkSched (ram (w_machine w)) (w_tasks w) (w_current w) (w_ticks w) (w_cpu w).
Definition with_sched (s : Sched) (w : world) : world :=
  MkWorld (mk_machine (memory s) (frames (w_machine w))) (TASKS s) (CURRENT s) (TICKS s) (cpu s)
    (w_volume w) (w_endpoints w) (w_listeners w) (w_objects w).
Definition kernel_of (w : world) : kernel :=
  MkKernel (w_volume w) (Socket.mk_state (w_endpoints w) (w_listeners w) (Shm.mk_state (w_machine w) (w_objects w))).
Definition with_kernel (k : kernel) (w : world) : world :=
  MkWorld (vm (shared (sockets k))) (w_tasks w) (w_current w) (w_ticks w) (w_cpu w) (volume k)
    (endpoints (sockets k)) (listeners (sockets k)) (TABLE (shared (sockets k))).
Definition on_sched {A} (f : ST Sched A) : ST world A := fun w =>
  match f (sched_of w) with Ret a s => Ret a (with_sched s w) | Panic => Panic end.
Definition on_kernel {A} (f : ST kernel A) : ST world A := fun w =>
  match f (kernel_of w) with Ret a k => Ret a (with_kernel k w) | Panic => Panic end.
Definition on_frames {A} (f : ST pmm A) : ST world A := fun w =>
  match f (frames (w_machine w)) with
  | Ret a s => Ret a (set_machine (mk_machine (ram (w_machine w)) s) w)
  | Panic => Panic
  end.

Definition gets {A} (f : world -> A) : ST world A := fun w => Ret (f w) w.

(** ** Spawning *)
(** The process is dropped at the end: its descriptors are closed. *)
Definition free_process (p : Process) : ST world unit :=
  on_frames (free_frames_of (p_frames p));;
  on_kernel (drop_fds rtc_now (fds p)).
(** Work on a process that is not in the task table yet. *)
Definition LW : Type -> Type := STR (world * Process) string.
Definition on_image {A} (f : PE A) : LW A := fun '(w, p) =>
  match f (w_machine w, p) with
  | Ret r (v, p) => Ret r (set_machine v w, p)
  | Panic => Panic
  end.
Definition read_interp (path : str) : LW (list Z) := fun '(w, p) =>
  match read_file path (w_volume w) with
  | Ret r v =>
      Ret (map_err (fun _ => "interpreter not found"%string) r)
        (MkWorld (w_machine w) (w_tasks w) (w_current w) (w_ticks w) (w_cpu w) v (w_endpoints w) (w_listeners w) (w_objects w), p)
  | Panic => Panic
  end.
(** [Err(e) => { free_process(process); return Err(e) }] *)
Definition with_new {A} (p : Process) (body : LW A) : ST world (result string (A * Process)) := fun w =>
  match body (w, p) with
  | Panic => Panic
  | Ret (Ok a) (w, p) => Ret (Ok (a, p)) w
  | Ret (Err e) (w, p) => (free_process p;; mret (Err e)) w
  end.
(** [base] is the kernel stack the heap provides. *)
Definition enter_table (base : Z) (name : string) (r : result string (Z * Process)) : ST world (result string nat) :=
  match r with
  | Err e => mret (Err e)
  | Ok (pml4, p) => pid ← on_sched (spawn_process base trampoline process_entry name pml4 p); mret (Ok pid)
  end.
Definition spawn (base : Z) (elf_bytes : list Z) (name : string) : ST world (result string nat) :=
  match (program ← parse elf_bytes;
         let program := apply_pie_bias program in
         validate_segments heap (segments program);; mret program) with
  | Err e => mret (Err e)
  | Ok program =>
      r ← with_new (new_process (entry program) Native 0)
            (on_image (pml4 ← build_address_space kernel_pml4;
                       load_segments pml4 (segments program) elf_bytes;;
                       setup_user_stack pml4;;
                       mret pml4));
      enter_table base name r
  end.

Definition linux_heap_start (program : Program) : option Z :=
  list_max ((fun s => u64 (align_up (segment_end s) PAGE_SIZE + PAGE_SIZE)) <$> segments program).
(** The interpreter's entry and load base, when the program names one. *)
Definition load_interp (pml4 : Z) (program : Program) : LW (Z * Z) :=
  match interp program with
  | None => mret (entry program, 0)
  | Some path =>
      bytes ← read_interp path;
      ip ← lift_res (parse bytes);
      let base := if is_pie ip then INTERP_LOAD_BASE else 0 in
      let ip := if is_pie ip then apply_bias INTERP_LOAD_BASE ip else ip in
      lift_res (validate_segments heap (segments ip));;
      on_image (load_segments pml4 (segments ip) bytes);;
      mret (entry ip, base)
  end.
Definition spawn_linux (base : Z) (elf_bytes : list Z) (name : string) (argv envp : list str) : ST world (result string nat) :=
  match (program ← parse elf_bytes;
         let program := apply_pie_bias program in
         validate_segments heap (segments program);;
         start ← ok_or (linux_heap_start program) "no loadable segments"%string;
         mret (program, start)) with
  | Err e => mret (Err e)
  | Ok (program, start) =>
      ticks ← gets w_ticks;
      r ← with_new (new_process (entry program) Linux start)
            (pml4 ← on_image (build_address_space kernel_pml4);
             on_image (load_segments pml4 (segments program) elf_bytes);;
             e ← load_interp pml4 program;
             on_image (do_ (on_proc (set_p_entry (fst e))));;
             rsp ← on_image (setup_linux_stack pml4 ticks elf_bytes program (snd e) argv envp);
             on_image (do_ (on_proc (set_user_rsp rsp)));;
             mret pml4);
      enter_table base name r
  end.

(** ** Waiting and reaping *)
(** One iteration of the loop of [wait]; [None] is [halt] and another round. *)
Definition wait_poll (pid : nat) (deadline : Z) : ST world (option (option ExitInfo)) :=
  r ← on_sched (process_exit_status pid);
  gets (fun w => match r with
                 | Some info => Some (Some info)
                 | None => if deadline <=? w_ticks w then Some None else None
                 end).
Definition reap (pid : nat) : ST world unit :=
  r ← on_sched (remove_process pid);
  match r with Some p => free_process p | None => mret tt end.

(** ** Addresses of a process *)
Definition translate (w : world) (pid : nat) (vaddr len : Z) : option Z :=
  ms ← process_mappings (sched_of w) pid; translate_in ms vaddr len.
Definition read_result (w : world) (pid : nat) : option Z :=
  phys ← translate w pid PROC_RESULT_VIRT 8; Some (load 8 (ram (w_machine w)) phys).
(** [with_current_process_mut] for an operation on the process and the machine. *)
Definition with_current_mem {A} (f : PM A) : ST world (option A) := fun w =>
  match w_tasks w !! w_current w with
  | None => Panic
  | Some t =>
      match process t with
      | None => Ret None w
      | Some p =>
          match f (w_machine w, p) with
          | Panic => Panic
          | Ret a (v, p) =>
              Ret (Some a) (with_sched (set_tasks (<[w_current w := set_process (Some p) t]> (w_tasks w))
                                          (sched_of (set_machine v w))) (set_machine v w))
          end
      end
  end.
Definition handle_fault (cr2 : Z) : ST world bool :=
  r ← on_sched current_process_cr3;
  match r with
  | None => mret false
  | Some pml4 => ok ← with_current_mem (try_grow_stack pml4 cr2); mret (default false ok)
  end.
Definition resolve_syscall_ptr (pid : nat) (vaddr len : Z) : ST world (option Z) := fun w =>
  match translate w pid vaddr len with
  | Some phys => Ret (Some phys) w
  | None =>
      if bool_decide (pid <> w_current w) then Ret None w else
      (r ← on_sched current_process_cr3;
       match r with
       | None => mret None
       | Some pml4 =>
           ok ← with_current_mem (try_grow_stack pml4 vaddr);
           match ok with
           | Some true => gets (fun w => translate w pid vaddr len)
           | _ => mret None
           end
       end) w
  end.
Definition send_from_kernel (pid : nat) (bytes : list Z) : ST world bool := on_sched (deliver_message pid bytes).
End world.
