(* ===== verification/Interrupts.v ===== *)
(** * Interrupts and exceptions, [interrupts.rs], [idt.rs], [gdt.rs], [pic.rs]

    The tables the processor reads (descriptors, task state segment, interrupt
    gates), the entry stubs of [isr_stubs.asm], and the dispatch of a vector to
    its handler.  Writing to a port is an entry of a trace; what is read from a
    port, and the faulting address, are arguments. *)
From S2P Require Import Prelude Bytes Text PhysMem Pmm Paging Disk Rtc Fat Vfs Shm Socket Elf Process Task Spawn.
From S2P Require Keyboard Mouse.

(** ** Segment and interrupt descriptors *)
Definition KERNEL_CODE : Z := 0x08.
Definition KERNEL_DATA : Z := 0x10.
Definition TSS_SELECTOR : Z := 0x18.
Definition DOUBLE_FAULT_STACK_SIZE : Z := 16384.
Record TaskStateSegment := MkTss {
  reserved1 : Z; rsp0 : Z; rsp1 : Z; rsp2 : Z; reserved2 : Z; ist : list Z; reserved3 : Z; reserved4 : Z; iomap_base : Z }.
Definition tss_new : TaskStateSegment := MkTss 0 0 0 0 0 (replicate 7 0) 0 0 0xFFFF.
(** [repr(C, packed)] *)
Definition tss_bytes (t : TaskStateSegment) : list Z :=
  le_split 4 (reserved1 t) ++ le_split 8 (rsp0 t) ++ le_split 8 (rsp1 t) ++ le_split 8 (rsp2 t) ++
  le_split 8 (reserved2 t) ++ (ist t ≫= le_split 8) ++ le_split 8 (reserved3 t) ++ le_split 2 (reserved4 t) ++
  le_split 2 (iomap_base t).
Definition GDT : list Z :=
  [0; 0x00209A0000000000; 0x0000920000000000; 0; 0; 0; 0x0000F20000000000; 0x0020FA0000000000].
Definition set_kernel_stack (v : Z) (t : TaskStateSegment) : TaskStateSegment :=
  MkTss (reserved1 t) v (rsp1 t) (rsp2 t) (reserved2 t) (ist t) (reserved3 t) (reserved4 t) (iomap_base t).
Definition set_ist (i : nat) (v : Z) (t : TaskStateSegment) : TaskStateSegment :=
  MkTss (reserved1 t) (rsp0 t) (rsp1 t) (rsp2 t) (reserved2 t) (<[i := v]> (ist t)) (reserved3 t) (reserved4 t) (iomap_base t).
(** The lower half of the 16-byte descriptor of a task state segment. *)
Definition tss_descriptor (base : Z) : Z :=
  let d := 0x67 in
  let d := Z.lor d (Z.shiftl (Z.land base 0xFFFF) 16) in
  let d := Z.lor d (Z.shiftl (Z.land (Z.shiftr base 16) 0xFF) 32) in
  let d := Z.lor d (Z.shiftl 0x89 40) in
  Z.lor d (Z.shiftl (Z.land (Z.shiftr base 24) 0xFF) 56).
(** [gdt::init] on the two tables; [lgdt], the segment registers and [ltr] load
    them.  The arguments are the addresses of the boot stack's top, the
    double-fault stack and the segment. *)
Definition gdt_init (stack_top double_fault_stack base : Z) (t : TaskStateSegment) (gdt : list Z) :
    TaskStateSegment * list Z :=
  let t := set_ist 1 (double_fault_stack + DOUBLE_FAULT_STACK_SIZE) (set_kernel_stack stack_top t) in
  (t, <[4%nat := Z.shiftr base 32]> (<[3%nat := tss_descriptor base]> gdt)).

Record IdtEntry := MkGate {
  offset_low : Z; selector : Z; g_ist : Z; type_attr : Z; offset_mid : Z; offset_high : Z; g_reserved : Z }.
Definition gate_new (offset sel i : Z) : IdtEntry :=
  MkGate (u16 (Z.land offset 0xFFFF)) sel i 0x8E (u16 (Z.land (Z.shiftr offset 16) 0xFFFF))
    (u32 (Z.land (Z.shiftr offset 32) 0xFFFFFFFF)) 0.
Definition gate_bytes (g : IdtEntry) : list Z :=
  le_split 2 (offset_low g) ++ le_split 2 (selector g) ++ [g_ist g] ++ [type_attr g] ++ le_split 2 (offset_mid g) ++
  le_split 4 (offset_high g) ++ le_split 4 (g_reserved g).
(** [Idt::new]; [isr_entries] is the table of stubs. *)
Definition idt_new (isr_entries : list Z) : list IdtEntry :=
  imap (fun i e => gate_new e KERNEL_CODE (if bool_decide (i = 8%nat) then 1 else 0)) isr_entries.

(** ** The interrupt controllers *)
Definition PIC1_COMMAND : Z := 0x20.
Definition PIC1_DATA : Z := 0x21.
Definition PIC2_COMMAND : Z := 0xA0.
Definition PIC2_DATA : Z := 0xA1.
Definition outs : Type := list (Z * Z).
Definition remap : outs :=
  [(PIC1_COMMAND, 0x11); (PIC2_COMMAND, 0x11); (PIC1_DATA, 0x20); (PIC2_DATA, 0x28); (PIC1_DATA, 0x04); (PIC2_DATA, 0x02);
   (PIC1_DATA, 0x01); (PIC2_DATA, 0x01); (PIC1_DATA, 0xF8); (PIC2_DATA, 0xFF)].
Definition eoi (irq : Z) : outs := (if 8 <=? irq then [(PIC2_COMMAND, 0x20)] else []) ++ [(PIC1_COMMAND, 0x20)].
(** [data] is the mask register read from the controller. *)
Definition unmask (irq data : Z) : outs :=
  if irq <? 8 then [(PIC1_DATA, Z.land data (unot 8 (Z.shiftl 1 irq)))]
  else [(PIC2_DATA, Z.land data (unot 8 (Z.shiftl 1 (irq - 8))))].

(** ** The entry stubs, [isr_stubs.asm] *)
Record InterruptFrame := MkFrame {
  f_r15 : Z; f_r14 : Z; f_r13 : Z; f_r12 : Z; f_r11 : Z; f_r10 : Z; f_r9 : Z; f_r8 : Z; f_rbp : Z; f_rdi : Z; f_rsi : Z;
  f_rdx : Z; f_rcx : Z; f_rax : Z; f_rbx : Z; f_vector : Z; f_error_code : Z; f_rip : Z; f_cs : Z; f_rflags : Z;
  f_rsp : Z; f_ss : Z }.
Record Gprs := MkGprs {
  rax : Z; rbx : Z; rcx : Z; rdx : Z; rsi : Z; rdi : Z; rbp : Z; r8 : Z; r9 : Z; r10 : Z; r11 : Z; r12 : Z; r13 : Z; r14 : Z; r15 : Z }.
(** A stack is its words, the lowest address first; [ISR_ERR] is the second of
    the two macros. *)
Definition isr_err (index : Z) : bool := bool_decide (index ∈ [8; 10; 11; 12; 13; 14; 17; 21; 29; 30]).
Definition isr_stub (index : Z) (stack : list Z) : list Z :=
  if isr_err index then index :: stack else index :: 0 :: stack.
Definition isr_enter (g : Gprs) (stack : list Z) : list Z :=
  foldl (fun st v => v :: st) stack
    [rbx g; rax g; rcx g; rdx g; rsi g; rdi g; rbp g; r8 g; r9 g; r10 g; r11 g; r12 g; r13 g; r14 g; r15 g].
(** [isr_dispatch]'s view of the stack pointer as a [repr(C)] struct. *)
Definition frame_of (stack : list Z) : option (InterruptFrame * list Z) :=
  match stack with
  | a15 :: a14 :: a13 :: a12 :: a11 :: a10 :: a9 :: a8 :: bp :: di :: si :: dx :: cx :: ax :: bx :: v :: e :: ip :: cs :: fl :: sp :: ss :: st =>
      Some (MkFrame a15 a14 a13 a12 a11 a10 a9 a8 bp di si dx cx ax bx v e ip cs fl sp ss, st)
  | _ => None
  end.
Definition frame_words (f : InterruptFrame) : list Z :=
  [f_r15 f; f_r14 f; f_r13 f; f_r12 f; f_r11 f; f_r10 f; f_r9 f; f_r8 f; f_rbp f; f_rdi f; f_rsi f; f_rdx f; f_rcx f; f_rax f; f_rbx f;
   f_vector f; f_error_code f; f_rip f; f_cs f; f_rflags f; f_rsp f; f_ss f].
(** The pops, [addq $16, %rsp] and the stack [iretq] runs on. *)
Definition isr_leave (stack : list Z) : option (Gprs * list Z) :=
  match stack with
  | v15 :: v14 :: v13 :: v12 :: v11 :: v10 :: v9 :: v8 :: bp :: di :: si :: dx :: cx :: ax :: bx :: st =>
      Some (MkGprs ax bx cx dx si di bp v8 v9 v10 v11 v12 v13 v14 v15, drop 2 st)
  | _ => None
  end.

(** ** Handlers *)
Inductive Handler :=
| unhandled | divide_error | debug_exception | breakpoint | overflow | invalid_opcode | double_fault
| general_protection_fault | page_fault | timer | keyboard | mouse.
Definition set_handler (v : Z) (h : option Handler) (hs : list (option Handler)) : list (option Handler) :=
  <[Z.to_nat (u8 v) := h]> hs.
Definition register_default_handlers (hs : list (option Handler)) : list (option Handler) :=
  let hs := foldl (fun hs v => set_handler v (Some unhandled) hs) hs (seqZ 0 256) in
  foldl (fun hs vh => set_handler (fst vh) (Some (snd vh)) hs) hs
    [(0, divide_error); (1, debug_exception); (3, breakpoint); (4, overflow); (6, invalid_opcode); (8, double_fault);
     (13, general_protection_fault); (14, page_fault); (32, timer); (33, keyboard); (44, mouse)].
(** [idt::init] *)
Definition idt_init (isr_entries : list Z) : list (option Handler) * list IdtEntry :=
  (register_default_handlers (replicate 256 None), idt_new isr_entries).

Section handlers.
Context {D : Type} `{BlockDevice D}.
(** The address of [exit_self]. *)
Context (exit_self : Z).

Record istate := MkIState { i_world : world (D := D); i_keyboard : Keyboard.keyboard; i_mouse : Mouse.mouse; i_ports : outs }.
Definition on_world {A} (f : ST (world (D := D)) A) : ST istate A := fun s =>
  match f (i_world s) with
  | Ret a w => Ret a (MkIState w (i_keyboard s) (i_mouse s) (i_ports s))
  | Panic => Panic
  end.
Definition on_keyboard {A} (f : ST Keyboard.keyboard A) : ST istate A := fun s =>
  match f (i_keyboard s) with
  | Ret a k => Ret a (MkIState (i_world s) k (i_mouse s) (i_ports s))
  | Panic => Panic
  end.
Definition on_mouse {A} (f : ST Mouse.mouse A) : ST istate A := fun s =>
  match f (i_mouse s) with
  | Ret a m => Ret a (MkIState (i_world s) (i_keyboard s) m (i_ports s))
  | Panic => Panic
  end.
Definition out (l : outs) : ST istate unit :=
  modify (fun s => MkIState (i_world s) (i_keyboard s) (i_mouse s) (i_ports s ++ l)).

(** What becomes of the interrupted code: it goes on from the frame, or the
    kernel has printed its registers and halts for ever. *)
Inductive next := Resume (f : InterruptFrame) | Halted.

Definition redirect_to_exit (f : InterruptFrame) : InterruptFrame :=
  MkFrame (f_r15 f) (f_r14 f) (f_r13 f) (f_r12 f) (f_r11 f) (f_r10 f) (f_r9 f) (f_r8 f) (f_rbp f) (f_rdi f) (f_rsi f)
    (f_rdx f) (f_rcx f) (f_rax f) (f_rbx f) (f_vector f) (f_error_code f) exit_self KERNEL_CODE (f_rflags f) (f_rsp f) KERNEL_DATA.
Definition kill_current (cr2 : Z) (f : InterruptFrame) : ST (world (D := D)) InterruptFrame :=
  on_sched (mark_current_exited (PageFault cr2));; mret (redirect_to_exit f).
Definition kill_current_exception (v : Z) (f : InterruptFrame) : ST (world (D := D)) InterruptFrame :=
  on_sched (mark_current_exited (Exception v));; mret (redirect_to_exit f).
Definition exception : ST (world (D := D)) next := mret Halted.
Definition process_or_exception (f : InterruptFrame) : ST (world (D := D)) next := fun w =>
  if current_is_process (sched_of w)
  then (r ← kill_current_exception (u8 (f_vector f)) f; mret (Resume r)) w
  else exception w.
Definition run_page_fault (cr2 : Z) (f : InterruptFrame) : ST (world (D := D)) next := fun w =>
  if current_is_process (sched_of w) then
    (ok ← handle_fault cr2;
     if ok : bool then mret (Resume f) else r ← kill_current cr2 f; mret (Resume r)) w
  else exception w.
(** The interrupt is acknowledged before the possible task switch; the task goes
    on from its frame when it runs again. *)
Definition run_timer (f : InterruptFrame) : ST istate next :=
  on_world (modify (fun w => with_sched (Task.ticked (sched_of w)) w));;
  out (eoi 0);; on_world (on_sched scheduler_tick);; mret (Resume f).
(** [data] is the byte the device's data port holds. *)
Definition run_keyboard (data : Z) (f : InterruptFrame) : ST istate next :=
  on_keyboard (Keyboard.irq data);; out (eoi 1);; mret (Resume f).
Definition run_mouse (data : Z) (f : InterruptFrame) : ST istate next :=
  on_mouse (Mouse.irq data);; out (eoi 12);; mret (Resume f).
Definition run_handler (h : Handler) (cr2 data : Z) (f : InterruptFrame) : ST istate next :=
  match h with
  | divide_error | invalid_opcode | general_protection_fault => on_world (process_or_exception f)
  | page_fault => on_world (run_page_fault cr2 f)
  | breakpoint => mret (Resume f)
  | timer => run_timer f
  | keyboard => run_keyboard data f
  | mouse => run_mouse data f
  | unhandled | debug_exception | overflow | double_fault => on_world exception
  end.
(** A vector without a handler, or outside the table, panics. *)
Definition isr_dispatch (hs : list (option Handler)) (cr2 data : Z) (f : InterruptFrame) : ST istate next :=
  match hs !! Z.to_nat (f_vector f) with
  | Some (Some h) => run_handler h cr2 data f
  | _ => panic
  end.
End handlers.
Arguments istate D : clear implicits.

(** ** What the processor reads *)
Definition field (l : list Z) (a n : nat) : Z := le_combine (take n (drop a l)).
(** A 64-bit interrupt gate: handler, code segment, stack table index, type. *)
Definition gate_view (raw : list Z) : Z * Z * Z * Z :=
  (field raw 0 2 + 2 ^ 16 * field raw 6 2 + 2 ^ 32 * field raw 8 4, field raw 2 2, field raw 4 1, field raw 5 1).
(** Entry [n], from 1, of the interrupt stack table. *)
Definition ist_stack (raw : list Z) (n : nat) : Z := field raw (36 + 8 * (n - 1)) 8.
(** Base and limit of the segment a 16-byte system descriptor names. *)
Definition segment_view (lo hi : Z) : Z * Z :=
  (Z.lor (Z.lor (Z.land (Z.shiftr lo 16) 0xFFFFFF) (Z.shiftl (Z.land (Z.shiftr lo 56) 0xFF) 24)) (Z.shiftl hi 32),
   Z.land lo 0xFFFF).
(** The vectors for which the processor pushes an error code. *)
Definition has_error_code (v : Z) : bool :=
  (v =? 8) || ((10 <=? v) && (v <=? 14)) || (v =? 17) || (v =? 21) || (v =? 29) || (v =? 30).
(** What it has pushed when the stub starts. *)
Definition pushed (v err rip cs rflags rsp ss : Z) (st : list Z) : list Z :=
  (if has_error_code v then [err] else []) ++ [rip; cs; rflags; rsp; ss] ++ st.

Lemma isr_err_matches v : isr_err v = has_error_code v.
Proof.
  unfold isr_err, has_error_code. apply eq_true_iff_eq. rewrite bool_decide_eq_true, !orb_true_iff, andb_true_iff, !Z.leb_le, !Z.eqb_eq.
  rewrite !elem_of_cons, elem_of_nil. lia.
Qed.

Lemma field_app (l1 l2 l3 : list Z) a n : length l1 = a -> length l2 = n -> field (l1 ++ l2 ++ l3) a n = le_combine l2.
Proof. intros <- <-. unfold field. by rewrite drop_app_length, take_app_length. Qed.
Lemma field_split (l1 l3 : list Z) a n v :
  length l1 = a -> 0 <= v < 2 ^ (8 * Z.of_nat n) -> field (l1 ++ le_split n v ++ l3) a n = v.
Proof. intros. rewrite field_app by (done || apply length_le_split). by apply le_combine_small. Qed.

(** [field_split] up to the association of the appends. *)
Ltac read_field pre rest :=
  match goal with |- field _ ?a ?n = ?v =>
    transitivity (field (pre ++ le_split n v ++ rest) a n);
      [by rewrite <- ?app_assoc
      |apply (field_split pre rest a n v); [by rewrite ?length_app, ?length_le_split|try done]]
  end.

Lemma gate_view_new offset sel i : in_u 64 offset -> in_u 16 sel -> in_u 8 i ->
  gate_view (gate_bytes (gate_new offset sel i)) = (offset, sel, i, 0x8E).
Proof.
  intros Ho Hs Hi. unfold gate_view, gate_new, gate_bytes. cbn [offset_low selector g_ist type_attr offset_mid offset_high g_reserved].
  change 0xFFFF with (Z.ones 16). change 0xFFFFFFFF with (Z.ones 32).
  rewrite !Z.land_ones, !Z.shiftr_div_pow2 by lia. unfold wrap. rewrite !Zmod_mod.
  pose proof (Z.mod_pos_bound offset (2 ^ 16) ltac:(lia)) as Hlo.
  pose proof (Z.mod_pos_bound (offset / 2 ^ 16) (2 ^ 16) ltac:(lia)) as Hmid.
  pose proof (Z.mod_pos_bound (offset / 2 ^ 32) (2 ^ 32) ltac:(lia)) as Hhi.
  assert (offset mod 2 ^ 16 + 2 ^ 16 * ((offset / 2 ^ 16) mod 2 ^ 16) + 2 ^ 32 * ((offset / 2 ^ 32) mod 2 ^ 32) = offset) as Hsum.
  { change (2 ^ 16) with 65536. change (2 ^ 32) with 4294967296. destruct Ho. zlia. }
  revert Hsum Hlo Hmid Hhi. generalize (offset mod 2 ^ 16), ((offset / 2 ^ 16) mod 2 ^ 16), ((offset / 2 ^ 32) mod 2 ^ 32).
  intros lo mid hi <- Hlo Hmid Hhi. set (raw := le_split 2 lo ++ _).
  assert (field raw 0 2 = lo) as -> by (read_field (@nil Z) (le_split 2 sel ++ [i] ++ [0x8E] ++ le_split 2 mid ++ le_split 4 hi ++ le_split 4 0)).
  assert (field raw 6 2 = mid) as -> by (read_field (le_split 2 lo ++ le_split 2 sel ++ [i] ++ [0x8E]) (le_split 4 hi ++ le_split 4 0)).
  assert (field raw 8 4 = hi) as -> by (read_field (le_split 2 lo ++ le_split 2 sel ++ [i] ++ [0x8E] ++ le_split 2 mid) (le_split 4 0)).
  assert (field raw 2 2 = sel) as -> by (read_field (le_split 2 lo) ([i] ++ [0x8E] ++ le_split 2 mid ++ le_split 4 hi ++ le_split 4 0)).
  unfold field, raw. cbn -[Z.mul Z.add]. by rewrite ?Z.mul_0_r, ?Z.add_0_r.
Qed.

Lemma length_gate_bytes g : length (gate_bytes g) = 16%nat.
Proof. unfold gate_bytes. by rewrite !length_app, !length_le_split. Qed.
Lemma concat_entry {A} (f : A -> list Z) (n i : nat) l e :
  (forall x, length (f x) = n) -> l !! i = Some e -> take n (drop (n * i) (l ≫= f)) = f e.
Proof.
  intros Hf. revert i; induction l as [|x l IH]; intros i Hl; [done|]. cbn [mbind list_bind]. destruct i as [|i].
  - injection Hl as <-. rewrite Nat.mul_0_r, drop_0, <- (Hf x). apply take_app_length.
  - rewrite drop_app_ge by (rewrite Hf; lia). rewrite Hf. replace (n * S i - n)%nat with (n * i)%nat by lia. by apply IH.
Qed.

Lemma tss_fields stack_top df : in_u 64 stack_top -> in_u 64 df ->
  let raw := tss_bytes (set_ist 1 df (set_kernel_stack stack_top tss_new)) in
  ist_stack raw 1 = 0 /\ ist_stack raw 2 = df /\ field raw 4 8 = stack_top.
Proof.
  intros Hs Hd raw. unfold raw, ist_stack, tss_bytes.
  cbn [ist rsp0 rsp1 rsp2 reserved1 reserved2 reserved3 reserved4 iomap_base set_ist set_kernel_stack tss_new replicate insert list_insert mbind list_bind].
  set (rest := le_split 8 0 ++ le_split 8 0 ++ le_split 8 0 ++ le_split 8 0 ++ le_split 8 0 ++ [] ++ le_split 8 0 ++ le_split 2 0 ++ le_split 2 0xFFFF).
  set (head := le_split 4 0 ++ le_split 8 stack_top ++ le_split 8 0 ++ le_split 8 0 ++ le_split 8 0).
  split_and!.
  - change (36 + 8 * (1 - 1))%nat with 36%nat. read_field head (le_split 8 df ++ rest).
  - change (36 + 8 * (2 - 1))%nat with 44%nat. read_field (head ++ le_split 8 0) rest.
  - read_field (le_split 4 0) (le_split 8 0 ++ le_split 8 0 ++ le_split 8 0 ++ le_split 8 0 ++ le_split 8 df ++ rest).
Qed.

Lemma lor_shiftl_add a b k : 0 <= k -> 0 <= a < 2 ^ k -> Z.lor a (Z.shiftl b k) = a + b * 2 ^ k.
Proof.
  intros Hk Ha. rewrite <- Z.shiftl_mul_pow2 by done. symmetry. apply lor_add, Z.bits_inj'. intros i Hi.
  rewrite Z.land_spec, Z.shiftl_spec, Z.bits_0 by done. destruct (decide (i < k)).
  - rewrite (Z.testbit_neg_r b) by lia. apply andb_false_r.
  - by rewrite (testbit_high k a) by (done || lia).
Qed.
(** A 64-bit value in the four pieces of a descriptor, and the view of their sum. *)
Lemma base_pieces base : exists b0 b1 b2 hi,
  base mod 2 ^ 16 = b0 /\ base / 2 ^ 16 mod 2 ^ 8 = b1 /\ base / 2 ^ 24 mod 2 ^ 8 = b2 /\ base / 2 ^ 32 = hi /\
  0 <= b0 < 2 ^ 16 /\ 0 <= b1 < 2 ^ 8 /\ 0 <= b2 < 2 ^ 8 /\ base = b0 + b1 * 2 ^ 16 + b2 * 2 ^ 24 + hi * 2 ^ 32.
Proof.
  eexists _, _, _, _. do 4 (split; [reflexivity|]). change (2 ^ 16) with 65536. change (2 ^ 8) with 256.
  change (2 ^ 24) with 16777216. change (2 ^ 32) with 4294967296. zlia.
Qed.
Lemma tss_word b0 b1 b2 : 0 <= b0 < 2 ^ 16 -> 0 <= b1 < 2 ^ 8 -> 0 <= b2 < 2 ^ 8 ->
  Z.lor (Z.lor (Z.lor (Z.lor 0x67 (Z.shiftl b0 16)) (Z.shiftl b1 32)) (Z.shiftl 0x89 40)) (Z.shiftl b2 56) =
  0x67 + b0 * 2 ^ 16 + b1 * 2 ^ 32 + 0x89 * 2 ^ 40 + b2 * 2 ^ 56.
Proof. intros. by rewrite (lor_shiftl_add 0x67 b0), (lor_shiftl_add _ b1), (lor_shiftl_add _ 0x89), (lor_shiftl_add _ b2) by lia. Qed.
Lemma segment_view_tss base : in_u 64 base -> segment_view (tss_descriptor base) (base / 2 ^ 32) = (base, 0x67).
Proof.
  intros [H0 _]. unfold segment_view, tss_descriptor. cbv zeta.
  change 0xFFFF with (Z.ones 16). change 0xFFFFFF with (Z.ones 24). change 0xFF with (Z.ones 8).
  rewrite !(Z.land_ones base), !(Z.shiftr_div_pow2 base), !(Z.land_ones (base / _)) by lia.
  destruct (base_pieces base) as (b0 & b1 & b2 & hi & -> & -> & -> & -> & ? & ? & ? & Hsum).
  rewrite tss_word by done. rewrite !Z.land_ones, !Z.shiftr_div_pow2 by lia.
  set (d := _ + b2 * 2 ^ 56).
  assert (d / 2 ^ 16 mod 2 ^ 24 = b0 + b1 * 2 ^ 16 /\ d / 2 ^ 56 mod 2 ^ 8 = b2 /\ d mod 2 ^ 16 = 0x67) as (-> & -> & ->).
  { unfold d. change (2 ^ 16) with 65536 in *. change (2 ^ 8) with 256 in *. change (2 ^ 24) with 16777216. change (2 ^ 32) with 4294967296.
    change (2 ^ 40) with 1099511627776. change (2 ^ 56) with 72057594037927936. split_and!; zlia. }
  rewrite (lor_shiftl_add _ b2), (lor_shiftl_add _ hi) by lia. by rewrite Hsum.
Qed.

Lemma default_handler_total i : (i < 256)%nat -> exists h, register_default_handlers (replicate 256 None) !! i = Some (Some h).
Proof.
  intros Hi. assert (forallb (fun i => match register_default_handlers (replicate 256 None) !! i with Some (Some _) => true | _ => false end) (seq 0 256) = true)
    as H by by vm_compute.
  rewrite forallb_forall in H. specialize (H i ltac:(apply in_seq; lia)). case_match; [|done]. case_match; [|done]. by eexists.
Qed.

(** ** From the gate to the handler and back *)
Definition gprs_of (f : InterruptFrame) : Gprs :=
  MkGprs (f_rax f) (f_rbx f) (f_rcx f) (f_rdx f) (f_rsi f) (f_rdi f) (f_rbp f) (f_r8 f) (f_r9 f) (f_r10 f) (f_r11 f)
    (f_r12 f) (f_r13 f) (f_r14 f) (f_r15 f).
Definition iret_words (f : InterruptFrame) : list Z := [f_rip f; f_cs f; f_rflags f; f_rsp f; f_ss f].

(** An interrupt reaches its handler with the interrupted state, and the
    state survives it.  After [idt::init] the gate of every vector [i] names
    the stub of [i] in the kernel's code segment, only the double fault asking
    for a stack of its own, and a handler is registered; whatever stub runs on
    what the processor pushed, [isr_dispatch] finds in its frame the vector, the
    error code (zero when there is none), the return state and every register
    under its own name; and from any frame the handler leaves, the stub restores
    exactly the registers of that frame and returns to its return state. *)
Theorem vector_reaches_handler isr_entries i g err rip cs rflags rsp ss st :
  length isr_entries = 256%nat -> Forall (in_u 64) isr_entries -> (i < 256)%nat ->
  let (hs, idt) := idt_init isr_entries in
  let v := Z.of_nat i in
  (exists e, isr_entries !! i = Some e /\
     gate_view (take 16 (drop (16 * i) (idt ≫= gate_bytes))) = (e, KERNEL_CODE, if bool_decide (i = 8%nat) then 1 else 0, 0x8E)) /\
  (exists f h, frame_of (isr_enter g (isr_stub v (pushed v err rip cs rflags rsp ss st))) = Some (f, st) /\
     gprs_of f = g /\ iret_words f = [rip; cs; rflags; rsp; ss] /\ f_vector f = v /\
     f_error_code f = (if has_error_code v then err else 0) /\ hs !! Z.to_nat (f_vector f) = Some (Some h)) /\
  (forall f, isr_leave (frame_words f ++ st) = Some (gprs_of f, iret_words f ++ st)).
Proof.
  intros Hl Hu Hi. unfold idt_init. cbv zeta. split_and!.
  - destruct (lookup_lt_is_Some_2 isr_entries i ltac:(lia)) as [e He]. exists e. split; [done|].
    unfold idt_new. erewrite (concat_entry gate_bytes 16 i); [|apply length_gate_bytes|].
    2: { by rewrite list_lookup_imap, He. }
    apply gate_view_new; [by eapply Forall_lookup_1|by vm_compute|by case_bool_decide].
  - destruct (default_handler_total i Hi) as [h Hh].
    unfold isr_stub, pushed. rewrite isr_err_matches. destruct (has_error_code (Z.of_nat i)) eqn:E;
      (eexists _, h; split; [reflexivity|]; split; [by destruct g|]; split; [done|]; split; [done|]; split; [done|]; cbn; by rewrite Nat2Z.id).
  - done.
Qed.

(** The double-fault handler has no stack.  The gate of vector 8 asks for
    entry 1 of the interrupt stack table, but [gdt::init] stores the stack it
    reserves in [ist[1]], which is entry 2: what the processor loads is the null
    pointer the segment was created with.  The task descriptor itself names the
    segment, and its privilege-0 stack is the boot stack. *)
Theorem double_fault_stack_null stack_top df_stack base isr_entries e :
  in_u 64 stack_top -> in_u 64 base -> in_u 64 (df_stack + DOUBLE_FAULT_STACK_SIZE) ->
  length isr_entries = 256%nat -> Forall (in_u 64) isr_entries -> isr_entries !! 8%nat = Some e ->
  let (tss, gdt) := gdt_init stack_top df_stack base tss_new GDT in
  let gate := gate_view (take 16 (drop (16 * 8) ((idt_init isr_entries).2 ≫= gate_bytes))) in
  gate = (e, KERNEL_CODE, 1, 0x8E) /\
  ist_stack (tss_bytes tss) 1 = 0 /\
  ist_stack (tss_bytes tss) 2 = df_stack + DOUBLE_FAULT_STACK_SIZE /\
  field (tss_bytes tss) 4 8 = stack_top /\
  gdt !! 4%nat = Some (base / 2 ^ 32) /\
  (forall lo, gdt !! 3%nat = Some lo -> segment_view lo (base / 2 ^ 32) = (base, 0x67)).
Proof.
  intros Hst Hb Hdf Hl Hu He. unfold gdt_init. cbv zeta. split_and!.
  - unfold idt_init, idt_new. cbn [snd]. erewrite (concat_entry gate_bytes 16 8); [|apply length_gate_bytes|].
    2: { by rewrite list_lookup_imap, He. }
    apply gate_view_new; [by eapply Forall_lookup_1|by vm_compute|by vm_compute].
  - exact (proj1 (tss_fields stack_top _ Hst Hdf)).
  - exact (proj1 (proj2 (tss_fields stack_top _ Hst Hdf))).
  - exact (proj2 (proj2 (tss_fields stack_top _ Hst Hdf))).
  - cbn. by rewrite Z.shiftr_div_pow2 by lia.
  - intros lo [= <-]. by apply segment_view_tss.
Qed.

(** ** Exceptions stay inside the process *)
Section containment.
Context {D : Type} `{BlockDevice D}.
Implicit Types (w : world (D := D)) (s : istate D).
Definition with_world (w : world (D := D)) (s : istate D) : istate D := MkIState w (i_keyboard s) (i_mouse s) (i_ports s).
(** The running task's process has exited for a reason; nothing else changes. *)
Definition exit_current (i : ExitInfo) (w : world (D := D)) : world (D := D) :=
  MkWorld (w_machine w) (alter (fun t => set_process (mark_exited i <$> process t) t) (w_current w) (w_tasks w))
    (w_current w) (w_ticks w) (w_cpu w) (w_volume w) (w_endpoints w) (w_listeners w) (w_objects w).

Lemma current_is_process_spec w t : w_tasks w !! w_current w = Some t ->
  current_is_process (sched_of w) = match process t with Some _ => true | None => false end.
Proof. intros Ht. unfold current_is_process, process_of, sched_of. cbn [TASKS CURRENT]. by rewrite Ht. Qed.
Lemma mark_current_exited_run i w t p :
  w_tasks w !! w_current w = Some t -> process t = Some p ->
  on_sched (mark_current_exited i) w = Ret tt (exit_current i w).
Proof.
  intros Ht Hp. assert (alter (fun t => set_process (mark_exited i <$> process t) t) (w_current w) (w_tasks w) =
    <[w_current w := set_process (Some (mark_exited i p)) t]> (w_tasks w)) as E.
  { apply list_eq. intros j. destruct (decide (j = w_current w)) as [->|].
    - rewrite list_lookup_alter_eq, Ht, list_lookup_insert_eq by (eapply lookup_lt_Some; exact Ht). cbn. by rewrite Hp.
    - by rewrite list_lookup_alter_ne, list_lookup_insert_ne by done. }
  unfold exit_current. rewrite E. destruct w as [[] ts c ? ? ? ? ? ?]. cbn in Ht.
  unfold on_sched, mark_current_exited, with_current_process, current, task_at, alter_task, mbind, st_bind, unwrap.
  cbn. rewrite Ht. cbn. rewrite Hp. cbn. by rewrite Ht.
Qed.
Lemma kill_exception_run exit_self v f w t p : w_tasks w !! w_current w = Some t -> process t = Some p ->
  kill_current_exception exit_self v f w = Ret (redirect_to_exit exit_self f) (exit_current (Exception v) w).
Proof. intros Ht Hp. unfold kill_current_exception. by rewrite (st_bind_ret _ _ _ _ _ (mark_current_exited_run _ _ _ _ Ht Hp)). Qed.
Lemma kill_fault_run exit_self cr2 f w t p : w_tasks w !! w_current w = Some t -> process t = Some p ->
  kill_current exit_self cr2 f w = Ret (redirect_to_exit exit_self f) (exit_current (PageFault cr2) w).
Proof. intros Ht Hp. unfold kill_current. by rewrite (st_bind_ret _ _ _ _ _ (mark_current_exited_run _ _ _ _ Ht Hp)). Qed.
Lemma on_world_ret {A} (f : ST (world (D := D)) A) s a w : f (i_world s) = Ret a w -> on_world f s = Ret a (with_world w s).
Proof. unfold on_world. by intros ->. Qed.
Lemma with_world_same s : with_world (i_world s) s = s.
Proof. by destruct s. Qed.

Lemma handle_fault_outside cr2 w t p :
  w_tasks w !! w_current w = Some t -> process t = Some p ->
  stack_low p <= cr2 \/ cr2 < USER_STACK_LOW_LIMIT -> handle_fault cr2 w = Ret false w.
Proof.
  intros Ht Hp Hout. unfold handle_fault.
  assert (on_sched current_process_cr3 w = Ret (Some (cr3 t)) w) as E.
  { destruct w as [[] ts c ? ? ? ? ? ?]. cbn in Ht. unfold on_sched, current_process_cr3, current, task_at, mbind, st_bind, unwrap. cbn. by rewrite Ht, Hp. }
  rewrite (st_bind_ret _ _ _ _ _ E). assert (try_grow_stack (cr3 t) cr2 (w_machine w, p) = Ret false (w_machine w, p)) as Eg.
  { unfold try_grow_stack, mbind, st_bind, self. cbn [snd]. by replace (_ || _) with true by (symmetry; rewrite orb_true_iff, Z.leb_le, Z.ltb_lt; lia). }
  assert (<[w_current w := set_process (Some p) t]> (w_tasks w) = w_tasks w) as Ei.
  { apply list_insert_id. rewrite Ht. f_equal. destruct t; cbn in Hp |- *. by rewrite Hp. }
  erewrite st_bind_ret.
  2: { unfold with_current_mem. by rewrite Ht, Hp, Eg, Ei. }
  by destruct w as [[] ? ? ? ? ? ? ? ?].
Qed.

Lemma on_world_process exit_self f s t : w_tasks (i_world s) !! w_current (i_world s) = Some t ->
  on_world (process_or_exception exit_self f) s =
  match process t with
  | Some _ => on_world (r ← kill_current_exception exit_self (u8 (f_vector f)) f; mret (Resume r)) s
  | None => Ret Halted s
  end.
Proof.
  intros Ht. unfold on_world, process_or_exception. rewrite (current_is_process_spec _ _ Ht).
  destruct (process t); [done|]. by destruct s.
Qed.
Lemma handler_of_fault v : v ∈ [0; 6; 13] ->
  exists h, h ∈ [divide_error; invalid_opcode; general_protection_fault] /\
    register_default_handlers (replicate 256 None) !! Z.to_nat v = Some (Some h).
Proof. intros Hv. repeat (apply elem_of_cons in Hv as [->|Hv]; [eexists; split; [|vm_compute; reflexivity]; rewrite !elem_of_cons; tauto|]). by apply elem_of_nil in Hv. Qed.
Lemma default_unhandled v : 0 <= v < 256 -> v ∉ [0; 3; 6; 13; 14; 32; 33; 44] ->
  exists h, h ∈ [unhandled; debug_exception; overflow; double_fault] /\
    register_default_handlers (replicate 256 None) !! Z.to_nat v = Some (Some h).
Proof.
  intros Hv Hn. assert (all_below 256 (fun v => bool_decide (v ∈ [0; 3; 6; 13; 14; 32; 33; 44]) ||
    match register_default_handlers (replicate 256 None) !! Z.to_nat v with
    | Some (Some (unhandled | debug_exception | overflow | double_fault)) => true | _ => false end) = true) as Hall by by vm_compute.
  pose proof (all_below_spec _ _ Hall v Hv) as E. cbv beta in E. rewrite bool_decide_eq_false_2 in E by done. cbn [orb] in E.
  revert E. generalize (register_default_handlers (replicate 256 None) !! Z.to_nat v). intros [[h|]|] E; [|done..].
  exists h. split; [|done]. rewrite !elem_of_cons. destruct h; tauto || done.
Qed.

End containment.

(** ** Witnesses *)
Definition sample_stubs : list Z := (fun i => 0x100000 + 16 * i) <$> seqZ 0 256.
Lemma sample_stubs_wf : Forall (in_u 64) sample_stubs.
Proof. apply Forall_forall. intros e (i & -> & Hi%elem_of_seqZ)%list_elem_of_fmap. unfold in_u. lia. Qed.
Lemma vector_reaches_handler_witness : exists e : Z,
  sample_stubs !! 14%nat = Some e /\
  gate_view (take 16 (drop (16 * 14) ((idt_init sample_stubs).2 ≫= gate_bytes))) = (e, KERNEL_CODE, 0, 0x8E).
Proof.
  exact (proj1 (vector_reaches_handler sample_stubs 14 (MkGprs 1 2 3 4 5 6 7 8 9 10 11 12 13 14 15) 4 0x400000 0x3B 0x202 0xFFF0000 0x33 []
    eq_refl sample_stubs_wf ltac:(lia))).
Defined.
Lemma double_fault_stack_null_witness :
  ist_stack (tss_bytes (gdt_init 0x90000 0x200000 0x123456789A tss_new GDT).1) 1 = 0 /\
  segment_view (tss_descriptor 0x123456789A) (0x123456789A / 2 ^ 32) = (0x123456789A, 0x67).
Proof.
  destruct (double_fault_stack_null 0x90000 0x200000 0x123456789A sample_stubs 0x100080
    ltac:(by vm_compute) ltac:(by vm_compute) ltac:(by vm_compute) eq_refl sample_stubs_wf eq_refl) as (_ & H1 & _ & _ & _ & H2).
  split; [exact H1|exact (H2 _ eq_refl)].
Defined.
Definition faulty_world : world (D := RamDisk) :=
  MkWorld (mk_machine (fun _ => 0) Pmm.boot_state) [MkTask 0 None "main" 0 0 0 None; MkTask 0 None "init" 0 0 0 (Some (new_process 0x400000 Native 0))]
    1 0 (MkCpu (MkRegs 0 0 0 0 0 0 0 0 0) 0 0 0) None [] ∅ [].
Definition faulty_state : istate RamDisk := MkIState faulty_world Keyboard.boot_state Mouse.boot_state [].
Definition fault_frame (v : Z) : InterruptFrame := MkFrame 0 0 0 0 0 0 0 0 0 0 0 0 0 0 0 v 0 0x400000 0x3B 0x202 0xFFF0000 0x33.
