(* ===== verification/Accounting.v ===== *)
(** * Frame accounting of process creation

    Everything [spawn] and [spawn_linux] do, page-table edits in any memory
    included, takes frames out of the bitmap only by recording them in the
    process; so freeing the recorded frames undoes it exactly. *)
From S2P Require Import Prelude Bytes Text PhysMem Pmm Paging Disk Rtc Fat Vfs Shm Socket Elf Process Task Spawn.

(** ** Two bitmaps with the same bits are the same *)
Lemma pmm_ext s s' : pmm_wf s -> pmm_wf s' -> LAST_USABLE_FRAME s' = LAST_USABLE_FRAME s ->
  (forall x, frame_ok x -> used s' x = used s x) -> s' = s.
Proof.
  intros [Hs _] [Hs' _] Hl Hu. destruct s as [b l], s' as [b' l']. cbn in Hl. subst. f_equal.
  destruct Hs as [Hb1 Hb2], Hs' as [Hb1' Hb2']. cbn [BITMAP] in *.
  apply list_eq_same_length with (Z.to_nat BITMAP_BYTES); [done|done|].
  intros i x y Hi Hx Hy. rewrite Forall_lookup in Hb2, Hb2'. pose proof (Hb2 i y Hy) as Hy8. pose proof (Hb2' i x Hx) as Hx8.
  apply Z.bits_inj'. intros k Hk. destruct (decide (k < 8)).
  - specialize (Hu (8 * Z.of_nat i + k) ltac:(pmm_lia)). unfold used in Hu. cbn [BITMAP] in Hu.
    replace ((8 * Z.of_nat i + k) / 8) with (Z.of_nat i) in Hu by zlia.
    replace ((8 * Z.of_nat i + k) mod 8) with k in Hu by zlia. rewrite Nat2Z.id in Hu.
    by rewrite (list_lookup_total_correct _ _ _ Hx), (list_lookup_total_correct _ _ _ Hy) in Hu.
  - by rewrite (testbit_high 8 x), (testbit_high 8 y) by (done || lia).
Qed.

(** ** Freeing what was taken *)
Lemma free_frames_of_spec fs : forall s0 s, pmm_wf s -> took s0 s fs ->
  exists s', free_frames_of fs s = Ret tt s' /\ pmm_wf s' /\ took s0 s' [].
Proof.
  induction fs as [|f fs IH]; intros s0 s Hs Ht; [by exists s|].
  destruct Ht as (Hl & Hu & Hf & Hnd). destruct (Hf f) as (x & Hx & -> & Hx0); [left|].
  apply NoDup_cons in Hnd as [Hni Hnd].
  destruct (frame_free_spec (x * FRAME_SIZE) s Hs) as (s1 & E1 & Hs1 & Hl1 & Hu1); [pmm_lia|].
  destruct (IH s0 s1 Hs1) as (s2 & E2 & Hs2 & Ht2).
  { split_and!; [congruence| |intros g Hg; apply Hf; by right|done]. intros y Hy. rewrite Hu1, Hu by done.
    destruct (Z.eqb_spec (y * FRAME_SIZE) (x * FRAME_SIZE)) as [E|E]; cbn [negb andb].
    - assert (y = x) as -> by pmm_lia. rewrite Hx0. by rewrite bool_decide_eq_false_2.
    - f_equal. apply bool_decide_ext. rewrite elem_of_cons. naive_solver. }
  exists s2. cbn [free_frames_of]. by rewrite (st_bind_ret _ _ _ _ _ E1).
Qed.
Lemma took_none s0 s : pmm_wf s0 -> pmm_wf s -> took s0 s [] -> s = s0.
Proof.
  intros H0 Hs (Hl & Hu & _). apply pmm_ext; [done..|]. intros x Hx. rewrite Hu by done.
  rewrite bool_decide_eq_false_2, orb_false_r; [done|apply not_elem_of_nil].
Qed.
Lemma took_run s s' st n : pmm_wf s -> LAST_USABLE_FRAME s' = LAST_USABLE_FRAME s -> 0 <= st ->
  st + n <= LAST_USABLE_FRAME s + 1 -> free_run s st n ->
  (forall x, 0 <= x -> used s' x = ((st <=? x) && (x <? st + n)) || used s x) -> took s s' (Pmm.pages (st * FRAME_SIZE) n).
Proof.
  intros [_ Hlast] Hl H0 Hn Hfree Hu. split_and!; [done| | |apply NoDup_pages].
  - intros x Hx. rewrite Hu by (unfold frame_ok in Hx; lia). rewrite orb_comm. f_equal. apply eq_true_iff_eq.
    rewrite andb_true_iff, Z.leb_le, Z.ltb_lt, bool_decide_eq_true, elem_of_pages.
    split; [intros ?; exists (x - st); pmm_lia|intros (i & ? & ?); pmm_lia].
  - intros f (i & -> & Hi)%elem_of_pages. exists (st + i). split_and!; [unfold frame_ok; lia|lia|]. apply Hfree. lia.
Qed.

(** ** Table edits record what they take *)
(** In the machine the frames of [L] and no others have been taken since [s0]. *)
Definition accounted (s0 : pmm) (v : machine) (L : list Z) : Prop := pmm_wf (frames v) /\ took s0 (frames v) L.
Definition vm_tracks {A} (f : VM A) : Prop := forall s0 v L, accounted s0 v L ->
  exists a v' L', f (v, L) = Ret a (v', L') /\ accounted s0 v' L'.
Create HintDb tracks.
Lemma vt_ret {A} (a : A) : vm_tracks (mret a).
Proof. intros s0 v L Ha. by exists a, v, L. Qed.
Lemma vt_bind {A B} (f : VM A) (k : A -> VM B) : vm_tracks f -> (forall a, vm_tracks (k a)) -> vm_tracks (f ≫= k : VM B).
Proof.
  intros Hf Hk s0 v L Ha. destruct (Hf s0 v L Ha) as (a & v' & L' & E & Ha'). rewrite (st_bind_ret _ _ _ _ _ E). by apply Hk.
Qed.
Lemma vt_read_entry p : vm_tracks (read_entry p).
Proof. intros s0 v L Ha. by eexists _, v, L. Qed.
Lemma vt_write_ram f : vm_tracks (write_ram f).
Proof. intros s0 v L Ha. by eexists tt, _, L. Qed.
Lemma vt_write_entry p v : vm_tracks (write_entry p v).
Proof. apply vt_write_ram. Qed.
#[export] Hint Resolve vt_ret vt_read_entry vt_write_ram vt_write_entry : tracks.
Ltac vt := repeat first [progress intros | solve [auto with tracks] | apply vt_bind | case_match].
Lemma vt_promote fl p : vm_tracks (promote fl p).
Proof. unfold promote. vt. Qed.
Lemma vt_fill_split n : forall pt i pb pf, vm_tracks (fill_split n pt i pb pf).
Proof. induction n as [|n IH]; intros; cbn [fill_split]; vt. Qed.
#[export] Hint Resolve vt_promote vt_fill_split : tracks.
(** A frame is taken and then recorded: in between, the list lacks it. *)
Definition vm_records {A} (frame : Z) (f : VM A) : Prop := forall s0 v L, accounted s0 v (L ++ [frame]) ->
  exists a v' L', f (v, L) = Ret a (v', L') /\ accounted s0 v' L'.
Lemma vr_push {A} frame (k : unit -> VM A) : vm_tracks (k tt) -> vm_records frame (push_frame true frame ≫= k : VM A).
Proof. intros Hk s0 v L Ha. unfold mbind, st_bind, push_frame, modify. cbn [fst snd]. by apply Hk. Qed.
Lemma vr_write {A} frame f (k : unit -> VM A) : vm_records frame (k tt) -> vm_records frame (write_ram f ≫= k : VM A).
Proof. intros Hk s0 v L Ha. unfold mbind, st_bind, write_ram, modify. cbn [fst snd]. by apply Hk. Qed.
Lemma vt_alloc {A} (none : VM A) (k : Z -> VM A) : vm_tracks none -> (forall frame, vm_records frame (k frame)) ->
  vm_tracks (r ← frame_alloc_vm; match r with None => none | Some frame => k frame end).
Proof.
  intros Hn Hk s0 [m s] L [Hs Ht]. cbn [frames] in *. destruct (frame_alloc_vm_spec m s L Hs) as (r & s' & E & Hs' & Hr).
  rewrite (st_bind_ret _ _ _ _ _ E). destruct r as [fr|].
  - apply Hk. split; [done|]. cbn [frames]. by eapply took_trans.
  - destruct Hr as [-> _]. by apply Hn.
Qed.
Lemma vt_pd_step fl v pd : vm_tracks (pd_step fl true v pd).
Proof.
  unfold pd_step. apply vt_bind; [vt|]. intros pde. repeat case_match; [| |vt].
  - apply vt_alloc; [vt|]. intros frame. apply vr_write, vr_push. vt.
  - apply vt_alloc; [vt|]. intros frame. apply vr_push. vt.
Qed.
#[export] Hint Resolve vt_pd_step : tracks.
Lemma vt_pt_entry_ptr_in pml4 v fl : vm_tracks (pt_entry_ptr_in pml4 v fl true).
Proof. unfold pt_entry_ptr_in. vt. Qed.
#[export] Hint Resolve vt_pt_entry_ptr_in : tracks.
Lemma vt_map_pages n : forall pml4 v p fl, vm_tracks (map_pages n pml4 v p fl).
Proof. induction n as [|n IH]; intros; cbn [map_pages]; vt. Qed.
#[export] Hint Resolve vt_map_pages : tracks.
Lemma vt_map_range_in pml4 v p len fl : vm_tracks (map_range_in pml4 v p len fl).
Proof. unfold map_range_in. vt. Qed.
#[export] Hint Resolve vt_map_range_in : tracks.

(** ** Operations on a process record what they take *)
Definition tracks {A} (f : ST (machine * Process) A) : Prop := forall s0 v p, accounted s0 v (p_frames p) ->
  exists a v' p', f (v, p) = Ret a (v', p') /\ accounted s0 v' (p_frames p') /\ fds p' = fds p.
Lemma tr_ret {A} (a : A) : tracks (mret a : PM A).
Proof. intros s0 v p Ha. by exists a, v, p. Qed.
Lemma tr_bind {A B} (f : PM A) (k : A -> PM B) : tracks f -> (forall a, tracks (k a)) -> tracks (f ≫= k : PM B).
Proof.
  intros Hf Hk s0 v p Ha. destruct (Hf s0 v p Ha) as (a & v' & p' & E & Ha' & Hd). rewrite (st_bind_ret _ _ _ _ _ E).
  rewrite <- Hd. by apply Hk.
Qed.
Lemma tr_self : tracks self.
Proof. intros s0 v p Ha. by exists p, v, p. Qed.
Lemma tr_on_ram f : tracks (on_ram f).
Proof. intros s0 v p Ha. by eexists tt, _, p. Qed.
Lemma tr_on_proc f : (forall p, p_frames (f p) = p_frames p /\ fds (f p) = fds p) -> tracks (on_proc f).
Proof. intros Hf s0 v p Ha. exists tt, v, (f p). destruct (Hf p) as [E1 E2]. by rewrite E1. Qed.
Lemma tr_on_vm {A} (f : VM A) : vm_tracks f -> tracks (on_vm f).
Proof.
  intros Hf s0 v p Ha. destruct (Hf s0 v _ Ha) as (a & v' & L' & E & Ha'). unfold on_vm. rewrite E.
  by exists a, v', (Process.set_frames L' p).
Qed.
#[export] Hint Resolve tr_ret tr_self tr_on_ram tr_on_vm : tracks.
#[export] Hint Extern 2 (tracks (on_proc _)) => (apply tr_on_proc; intros; split; reflexivity) : tracks.
(** A run of frames is taken and then recorded. *)
Definition records {A} (fs : list Z) (f : ST (machine * Process) A) : Prop := forall s0 v p,
  accounted s0 v (p_frames p ++ fs) ->
  exists a v' p', f (v, p) = Ret a (v', p') /\ accounted s0 v' (p_frames p') /\ fds p' = fds p.
Lemma rec_push {A} phys n (k : unit -> PM A) : tracks (k tt) -> records (Pmm.pages phys n) (push_frames phys n ≫= k : PM A).
Proof.
  intros Hk s0 v p Ha. unfold mbind, st_bind, push_frames, on_proc, modify.
  destruct (Hk s0 v (Process.set_frames (p_frames p ++ Pmm.pages phys n) p) Ha) as (a & v' & p' & E & Ha' & Hd).
  by exists a, v', p'.
Qed.
Lemma alloc_run n s0 v p : 0 <= n -> accounted s0 v (p_frames p) ->
  exists r s', on_pmm (alloc_contiguous n) (v, p) = Ret r (mk_machine (ram v) s', p) /\
    match r with
    | Some phys => accounted s0 (mk_machine (ram v) s') (p_frames p ++ Pmm.pages phys n)
    | None => s' = frames v
    end.
Proof.
  intros Hn [Hs Ht]. destruct (alloc_contiguous_spec n (frames v) Hs Hn) as (r & s' & E & Hs' & Hl & Hr).
  exists r, s'. unfold on_pmm. rewrite E. split; [done|]. destruct r as [phys|]; [|by destruct Hr].
  destruct Hr as (st & -> & H0 & _ & Hle & Hfree & _ & Hu). split; [done|]. cbn [frames].
  eapply took_trans; [exact Ht|]. by apply took_run.
Qed.
Lemma tr_alloc {A} n (none : PM A) (k : Z -> PM A) : 0 <= n -> tracks none -> (forall phys, records (Pmm.pages phys n) (k phys)) ->
  tracks (r ← on_pmm (alloc_contiguous n); match r with None => none | Some phys => k phys end : PM A).
Proof.
  intros Hn Hnone Hk s0 v p Ha. destruct (alloc_run n s0 v p Hn Ha) as (r & s' & E & Hr).
  rewrite (st_bind_ret _ _ _ _ _ E). destruct r as [phys|]; [by apply Hk|]. subst s'. apply Hnone.
  by destruct v.
Qed.

(** The same for operations that may fail with a message. *)
Lemma tr_bind_e {A B} (f : PE A) (k : A -> PE B) : tracks f -> (forall a, tracks (k a)) -> tracks (f ≫= k : PE B).
Proof.
  intros Hf Hk s0 v p Ha. destruct (Hf s0 v p Ha) as ([a|e] & v' & p' & E & Ha' & Hd).
  - rewrite (str_bind_ok _ _ _ _ _ E). rewrite <- Hd. by apply Hk.
  - rewrite (str_bind_err _ _ _ _ _ E). by exists (Err e), v', p'.
Qed.
Lemma tr_do {A} (f : PM A) : tracks f -> tracks (do_ f).
Proof.
  intros Hf s0 v p Ha. destruct (Hf s0 v p Ha) as (a & v' & p' & E & Ha'). unfold do_, lift_st. rewrite E.
  by exists (Ok a), v', p'.
Qed.
Lemma tr_ret_e {A} (a : A) : tracks (mret a : PE A).
Proof. intros s0 v p Ha. by exists (Ok a), v, p. Qed.
Lemma tr_throw {A} e : tracks (throw e : PE A).
Proof. intros s0 v p Ha. by exists (Err e), v, p. Qed.
Lemma tr_lift_res {A} (r : result string A) : tracks (lift_res r : PE A).
Proof. intros s0 v p Ha. by exists r, v, p. Qed.
Lemma tr_read_word a : tracks (read_word a).
Proof. intros s0 v p Ha. by eexists _, v, p. Qed.
#[export] Hint Resolve tr_do tr_ret_e tr_throw tr_lift_res tr_read_word : tracks.
Lemma tr_write_word a v : tracks (write_word a v).
Proof. unfold write_word. auto with tracks. Qed.
Lemma tr_copy_table a b : tracks (copy_table a b).
Proof. unfold copy_table. auto with tracks. Qed.
#[export] Hint Resolve tr_write_word tr_copy_table : tracks.
Ltac tr := repeat first [progress intros | solve [auto with tracks] | apply tr_bind_e | apply tr_bind | case_match].

Lemma tr_alloc_e {A} n (none : PE A) (k : Z -> PE A) : 0 <= n -> tracks none ->
  (forall phys, records (Pmm.pages phys n) (k phys)) ->
  tracks (r ← do_ (on_pmm (alloc_contiguous n)); match r with None => none | Some phys => k phys end : PE A).
Proof.
  intros Hn Hnone Hk s0 v p Ha. destruct (alloc_run n s0 v p Hn Ha) as (r & s' & E & Hr).
  assert (do_ (on_pmm (alloc_contiguous n)) (v, p) = Ret (Ok r) (mk_machine (ram v) s', p)) as E'
    by (unfold do_, lift_st; by rewrite E).
  rewrite (str_bind_ok _ _ _ _ _ E'). destruct r as [phys|]; [by apply Hk|]. subst s'. apply Hnone. by destruct v.
Qed.
Lemma rec_push_e {A} phys n (k : unit -> PE A) : tracks (k tt) ->
  records (Pmm.pages phys n) (do_ (push_frames phys n) ≫= k : PE A).
Proof.
  intros Hk s0 v p Ha.
  destruct (Hk s0 v (Process.set_frames (p_frames p ++ Pmm.pages phys n) p) Ha) as (a & v' & p' & E & Ha' & Hd).
  exists a, v', p'. split; [|done]. rewrite <- E. reflexivity.
Qed.
Lemma tr_alloc_frame : tracks alloc_frame.
Proof.
  intros s0 v p [Hs Ht]. destruct (frame_alloc_vm_spec (ram v) (frames v) [] Hs) as (r & s' & E & Hs' & Hr).
  unfold frame_alloc_vm in E. cbn [fst frames ram] in E.
  assert (on_pmm frame_alloc (v, p) = Ret r (mk_machine (ram v) s', p)) as Eo.
  { unfold on_pmm. destruct (frame_alloc (frames v)); [|done]. injection E as -> ->. done. }
  unfold alloc_frame, do_. assert (lift_st (E := string) (on_pmm frame_alloc) (v, p) = Ret (Ok r) (mk_machine (ram v) s', p)) as El
    by (unfold lift_st; by rewrite Eo).
  rewrite (str_bind_ok _ _ _ _ _ El). destruct r as [f|].
  - eexists (Ok f), _, _. split; [reflexivity|]. split; [|done]. split; [done|]. cbn [frames p_frames Process.set_frames].
    by eapply took_trans.
  - destruct Hr as [-> _]. eexists (Err _), _, p. split; [reflexivity|]. done.
Qed.
#[export] Hint Resolve tr_alloc_frame : tracks.
Lemma tr_copy_pd n : forall a b j, tracks (copy_pd n a b j).
Proof. induction n as [|n IH]; intros; cbn [copy_pd]; tr. Qed.
#[export] Hint Resolve tr_copy_pd : tracks.
Lemma tr_copy_pdpt n : forall a b i, tracks (copy_pdpt n a b i).
Proof. induction n as [|n IH]; intros; cbn [copy_pdpt]; tr. Qed.
#[export] Hint Resolve tr_copy_pdpt : tracks.
Lemma tr_build_address_space k : tracks (build_address_space k).
Proof. unfold build_address_space. tr. Qed.
Lemma tr_map_segment_pages n : forall pml4 start phys i segs, tracks (map_segment_pages n pml4 start phys i segs).
Proof. induction n as [|n IH]; intros; cbn [map_segment_pages]; tr. Qed.
#[export] Hint Resolve tr_build_address_space tr_map_segment_pages : tracks.
Lemma tr_push_mapping x : tracks (push_mapping x).
Proof. unfold push_mapping. auto with tracks. Qed.
#[export] Hint Resolve tr_push_mapping : tracks.
Lemma tr_load_segments pml4 segs data : tracks (load_segments pml4 segs data).
Proof.
  unfold load_segments. destruct (list_min _) as [start|]; [|tr]. destruct (list_max _) as [stop|]; [|tr].
  apply tr_alloc_e; [|tr|intros; apply rec_push_e; tr]. apply Z.div_pos; [|done]. apply (wrap_bound 64). lia.
Qed.
Lemma tr_init_stack_backing : tracks init_stack_backing.
Proof. unfold init_stack_backing. apply tr_alloc; [done|tr|]. intros. apply rec_push. tr. Qed.
#[export] Hint Resolve tr_load_segments tr_init_stack_backing : tracks.
Lemma tr_setup_user_stack pml4 : tracks (setup_user_stack pml4).
Proof. unfold setup_user_stack. tr. Qed.
Lemma tr_setup_linux_stack pml4 t b p a argv envp : tracks (setup_linux_stack pml4 t b p a argv envp).
Proof. unfold setup_linux_stack. tr. Qed.
#[export] Hint Resolve tr_setup_user_stack tr_setup_linux_stack : tracks.
(** The operations of a running process, too. *)
Lemma tr_try_grow_stack pml4 a : tracks (try_grow_stack pml4 a).
Proof. unfold try_grow_stack. tr. Qed.
Lemma tr_mmap_install pml4 at_ addr phys len fl id : tracks (mmap_install pml4 at_ addr phys len fl id).
Proof. unfold mmap_install. tr. Qed.
#[export] Hint Resolve tr_mmap_install : tracks.
Lemma align_up_pages len : 0 <= align_up len PAGE_SIZE / PAGE_SIZE.
Proof.
  apply Z.div_pos; [|done]. apply Z.land_nonneg. left. apply (wrap_bound 64). lia.
Qed.
Lemma tr_mmap_with_content pml4 at_ len w x c : tracks (mmap_with_content pml4 at_ len w x c).
Proof.
  unfold mmap_with_content. apply tr_bind; [tr|]. intros p. case_match; [|tr].
  apply tr_alloc; [apply align_up_pages|tr|]. intros. apply rec_push. tr.
Qed.
Lemma tr_mmap_shared t pml4 at_ id w x : tracks (mmap_shared t pml4 at_ id w x).
Proof. unfold mmap_shared. tr. Qed.
Lemma tr_brk pml4 r : tracks (brk pml4 r).
Proof.
  unfold brk. apply tr_bind; [tr|]. intros p. case_match; [tr|]. case_match; [|tr].
  apply tr_alloc; [|tr|intros; apply rec_push; tr]. to_prop. apply Z.div_pos; [lia|done].
Qed.
Lemma tr_mprotect pml4 a len w x : tracks (mprotect pml4 a len w x).
Proof.
  unfold mprotect. generalize (Z.to_nat ((u64 (page_down a + align_up (Z.max len 1) PAGE_SIZE) - page_down a) / PAGE_SIZE)).
  intros n. generalize (page_down a). induction n as [|n IH]; intros v; cbn [mprotect_loop]; tr.
Qed.

(** ** Creating, running and reaping a process *)
Inductive mem_op :=
| OpGrow (addr : Z)
| OpBrk (requested : Z)
| OpMmap (at_ : option Z) (len : Z) (w x : bool) (content : option (list Z))
| OpMmapShared (t : shm) (at_ : option Z) (id : Z) (w x : bool)
| OpMprotect (addr len : Z) (w x : bool).
Definition exec_mem (pml4 : Z) (o : mem_op) : PM unit :=
  match o with
  | OpGrow a => try_grow_stack pml4 a;; mret tt
  | OpBrk r => brk pml4 r;; mret tt
  | OpMmap at_ len w x c => mmap_with_content pml4 at_ len w x c;; mret tt
  | OpMmapShared t at_ id w x => mmap_shared t pml4 at_ id w x;; mret tt
  | OpMprotect a len w x => mprotect pml4 a len w x;; mret tt
  end.
Fixpoint run_mem (pml4 : Z) (ops : list mem_op) : PM unit :=
  match ops with [] => mret tt | o :: ops => exec_mem pml4 o;; run_mem pml4 ops end.
#[export] Hint Resolve tr_try_grow_stack tr_mmap_with_content tr_mmap_shared tr_brk tr_mprotect : tracks.
Lemma tr_run_mem pml4 ops : tracks (run_mem pml4 ops).
Proof. induction ops as [|o ops IH]; cbn [run_mem]; [tr|]. destruct o; cbn [exec_mem]; tr. Qed.

Section spawning.
Context {D : Type} `{BlockDevice D} (rtc_now : D -> DateTime).
Context (heap : Z * Z) (kernel_pml4 trampoline process_entry : Z).
Local Abbreviation world := (@world D).

(** Nothing but the contents of memory differs. *)
Definition same_but_ram (w w' : world) : Prop :=
  exists m, w' = set_machine (mk_machine m (frames (w_machine w))) w.
(** Dropping the process from [w'] gives the frames of [w] back. *)
Definition returns_frames (w w' : world) (p : Process) : Prop :=
  exists w2, free_process rtc_now p w' = Ret tt w2 /\ frames (w_machine w2) = frames (w_machine w).
Lemma drop_no_fds n (k : kernel) : drop_fds rtc_now (replicate n None) k = Ret tt k.
Proof. by induction n. Qed.
Lemma free_process_spec s0 (w : world) p : pmm_wf s0 -> accounted s0 (w_machine w) (p_frames p) ->
  fds p = replicate FIRST_FILE_FD None ->
  free_process rtc_now p w = Ret tt (set_machine (mk_machine (ram (w_machine w)) s0) w).
Proof.
  intros H0 [Hs Ht] Hf. destruct (free_frames_of_spec (p_frames p) s0 (frames (w_machine w)) Hs Ht) as (s' & E & Hs' & Ht').
  apply took_none in Ht' as ->; [|done|done]. unfold free_process, on_frames, on_kernel, mbind, st_bind.
  rewrite E. cbn [set_machine w_machine]. rewrite Hf, drop_no_fds. by destruct w.
Qed.

(** The new process's image tracks its frames, and nothing else changes. *)
Definition image_ok {A} (w : world) (body : LW A) : Prop := forall v p, accounted (frames (w_machine w)) v (p_frames p) ->
  exists r v' p', body (set_machine v w, p) = Ret r (set_machine v' w, p') /\
    accounted (frames (w_machine w)) v' (p_frames p') /\ fds p' = fds p.
Lemma image_bind {A B} w (f : LW A) (k : A -> LW B) : image_ok w f -> (forall a, image_ok w (k a)) ->
  image_ok w (f ≫= k : LW B).
Proof.
  intros Hf Hk v p Ha. destruct (Hf v p Ha) as ([a|e] & v' & p' & E & Ha' & Hd).
  - rewrite (str_bind_ok _ _ _ _ _ E). rewrite <- Hd. by apply Hk.
  - rewrite (str_bind_err _ _ _ _ _ E). by exists (Err e), v', p'.
Qed.
Lemma image_ret {A} w (r : result string A) : image_ok w (lift_res r : LW A).
Proof. intros v p Ha. by exists r, v, p. Qed.
Lemma image_on {A} w (f : PE A) : tracks f -> image_ok w (on_image f).
Proof.
  intros Hf v p Ha. destruct (Hf _ v p Ha) as (r & v' & p' & E & Ha' & Hd). exists r, v', p'.
  unfold on_image. cbn [set_machine w_machine]. by rewrite E.
Qed.
Lemma with_new_spec {A} (w : world) p (body : LW A) :
  pmm_wf (frames (w_machine w)) -> p_frames p = [] -> fds p = replicate FIRST_FILE_FD None -> image_ok w body ->
  exists r w', with_new rtc_now p body w = Ret r w' /\
    match r with
    | Err _ => same_but_ram w w'
    | Ok (_, p') => exists v, w' = set_machine v w /\ accounted (frames (w_machine w)) v (p_frames p') /\
        fds p' = replicate FIRST_FILE_FD None
    end.
Proof.
  intros Hs Hp Hd Hb. destruct (Hb (w_machine w) p) as (r & v & p' & E & Ha & Hd').
  { rewrite Hp. split; [done|apply took_refl]. }
  assert (set_machine (w_machine w) w = w) as Hw by by destruct w. rewrite Hw in E. unfold with_new. rewrite E.
  destruct r as [a|e].
  - exists (Ok (a, p')), (set_machine v w). split; [done|]. exists v. by rewrite Hd', Hd.
  - unfold mbind, st_bind.
    rewrite (free_process_spec (frames (w_machine w))); [|done|done|congruence].
    eexists (Err e), _. split; [reflexivity|]. by exists (ram v).
Qed.
Lemma enter_table_spec base name (w : world) r :
  exists r' w', enter_table trampoline process_entry base name r w = Ret r' w' /\
    match r with
    | Err e => r' = Err e /\ w' = w
    | Ok (pml4, p) => r' = Ok (length (w_tasks w)) /\ frames (w_machine w') = frames (w_machine w) /\
        exists t, w_tasks w' = w_tasks w ++ [t] /\ process t = Some p /\ cr3 t = pml4
    end.
Proof.
  destruct r as [[pml4 p]|e]; [|by eexists (Err e), w]. eexists _, _. split; [reflexivity|]. split; [done|].
  split; [done|]. eexists. split; [reflexivity|]. done.
Qed.
Definition created (w w' : world) (r : result string nat) : Prop :=
  match r with
  | Err _ => same_but_ram w w'
  | Ok pid => pid = length (w_tasks w) /\ exists t p, w_tasks w' = w_tasks w ++ [t] /\ process t = Some p /\
      accounted (frames (w_machine w)) (w_machine w') (p_frames p) /\
      forall ops, exists v p', run_mem (cr3 t) ops (w_machine w', p) = Ret tt (v, p') /\
        returns_frames w (set_machine v w') p'
  end.
Lemma enter_created base name (w w1 : world) r :
  pmm_wf (frames (w_machine w)) ->
  match r with
  | Err _ => same_but_ram w w1
  | Ok (_, p') => exists v, w1 = set_machine v w /\ accounted (frames (w_machine w)) v (p_frames p') /\
      fds p' = replicate FIRST_FILE_FD None
  end ->
  exists r' w', enter_table trampoline process_entry base name r w1 = Ret r' w' /\ created w w' r'.
Proof.
  intros Hs Hr. destruct (enter_table_spec base name w1 r) as (r' & w' & E & Hr'). exists r', w'. split; [done|].
  destruct r as [[pml4 p]|e]; [|by destruct Hr' as [-> ->]].
  destruct Hr as (v & -> & Ha & Hd), Hr' as (-> & Hf & t & Ht & Hp & Hc). split; [done|].
  assert (accounted (frames (w_machine w)) (w_machine w') (p_frames p)) as Ha'.
  { cbn [set_machine w_machine] in Hf. destruct Ha as [Hv Htk]. split; by rewrite Hf. }
  exists t, p. split; [done|]. split; [done|]. split; [done|]. intros ops.
  destruct (tr_run_mem (cr3 t) ops _ _ _ Ha') as ([] & v2 & p2 & E2 & Ha2 & Hd2).
  exists v2, p2. split; [done|]. eexists. split; [eapply free_process_spec; [exact Hs|exact Ha2|congruence]|]. done.
Qed.
Lemma image_interp (w : world) pml4 program :
  (forall path, exists r, read_file path (w_volume w) = Ret r (w_volume w)) ->
  image_ok w (load_interp heap pml4 program).
Proof.
  intros Hrd. unfold load_interp. case_match; [|intros v p Ha; by eexists (Ok _), v, p].
  apply image_bind.
  { intros v p Ha. destruct (Hrd l) as [r E]. unfold read_interp. cbn [set_machine w_volume]. rewrite E.
    by eexists _, v, p. }
  intros bytes. apply image_bind; [apply image_ret|]. intros ip. apply image_bind; [apply image_ret|]. intros _.
  apply image_bind; [apply image_on; tr|]. intros _ v p Ha. by eexists (Ok _), v, p.
Qed.

(** C3: Creating a process neither leaks nor double-counts a frame, on any
    path.  Whatever the file, [spawn] and [spawn_linux] return (they do not
    panic as long as the file system does not when the interpreter is read).
    When they fail, the frame bitmap, the tasks and everything else but the
    contents of memory are exactly as before; when they succeed, the frames
    taken are those the process records, each once, and after any sequence of
    stack growth, [brk], [mmap], shared [mmap] and [mprotect] operations,
    successful or not, freeing the process gives exactly the original bitmap
    back. *)
Theorem spawn_accounts_frames (w : world) base bytes name argv envp :
  pmm_wf (frames (w_machine w)) ->
  (forall path, exists r, read_file path (w_volume w) = Ret r (w_volume w)) ->
  (exists r w', spawn rtc_now heap kernel_pml4 trampoline process_entry base bytes name w = Ret r w' /\ created w w' r) /\
  (exists r w', spawn_linux rtc_now heap kernel_pml4 trampoline process_entry base bytes name argv envp w = Ret r w' /\
     created w w' r).
Proof.
  intros Hs Hrd. assert (same_but_ram w w) as Hw by (exists (ram (w_machine w)); by destruct w as [[] ? ? ? ? ? ? ? ?]). split.
  - unfold spawn. destruct (_ : result string Program) as [program|e]; [|by exists (Err e), w].
    match goal with |- context [with_new _ ?p ?b] => destruct (with_new_spec w p b) as (r & w1 & E & Hr) end;
      [exact Hs|done|done| |rewrite (st_bind_ret _ _ _ _ _ E); by apply enter_created].
    apply image_on. tr.
  - unfold spawn_linux. destruct (_ : result string (Program * Z)) as [[program start]|e]; [|by exists (Err e), w].
    unfold gets. rewrite (st_bind_ret _ _ w (w_ticks w) w) by done.
    match goal with |- context [with_new _ ?p ?b] => destruct (with_new_spec w p b) as (r & w1 & E & Hr) end;
      [exact Hs|done|done| |rewrite (st_bind_ret _ _ _ _ _ E); by apply enter_created].
    repeat first [apply image_bind; [|intros] | apply image_on; tr | by apply image_interp].
    intros v p Ha. by eexists (Ok _), v, p.
Qed.
End spawning.

(** ** Witness *)
Definition sample_cpu : Cpu := MkCpu (MkRegs 0 0 0 0 0 0 0 0 0) 0 0 0.
Definition sample_world : world (D := RamDisk) :=
  MkWorld (mk_machine boot_mem small) [MkTask 0 None "main" (16 * 4096) 0 0 None] 0 0 sample_cpu None [] ∅ [].
Definition sample_clock (d : RamDisk) : DateTime := MkDateTime 2024 1 2 3 4 5.
Lemma spawn_accounts_frames_witness :
  exists r w', spawn sample_clock (0, 0) (16 * 4096) 0x1000 0x2000 0x4000 sample_file "init" sample_world = Ret r w' /\
    created sample_clock sample_world w' r.
Proof.
  assert (forall path, exists r, read_file path (w_volume sample_world) = Ret r (w_volume sample_world)) as Hrd
    by (intros path; exists (Err NoDisk); reflexivity).
  exact (proj1 (spawn_accounts_frames sample_clock (0, 0) (16 * 4096) 0x1000 0x2000 sample_world 0x4000 sample_file
    "init" [] [] small_wf Hrd)).
Defined.
