(* ===== verification/Syscall.v ===== *)
(** * System calls: entry and the native table, [syscall.rs]

    Buffers are resolved through the calling process's mappings; the handlers
    of the native table work on the physical memory behind them.  The state is
    the kernel's with the keyboard, the console's output and the write counter.
    The dispatch over both tables is in [Dispatch.v]. *)
From S2P Require Import Prelude Bytes Text PhysMem Pmm Paging Disk Rtc Fat Vfs Shm Socket Elf Process Task Spawn.
From S2P Require Keyboard.

Definition MSR_EFER : Z := 0xC0000080.
Definition MSR_STAR : Z := 0xC0000081.
Definition MSR_LSTAR : Z := 0xC0000082.
Definition MSR_SFMASK : Z := 0xC0000084.
Definition EFER_SCE : Z := Z.shiftl 1 0.
Definition EFER_NXE : Z := Z.shiftl 1 11.
Definition SYS_WRITE : Z := 0.
Definition SYS_READ : Z := 2.
Definition SYS_CLOCK : Z := 3.
Definition SYS_SEND : Z := 4.
Definition SYS_RECV : Z := 5.
Definition SYSCALL_ERROR : Z := U64_MAX.
Definition FD_STDIN : Z := 0.
Definition FD_STDOUT : Z := 1.
Definition FD_STDERR : Z := 2.

Section syscalls.
Context {D : Type} `{BlockDevice D}.

Record sys := MkSys { s_world : world (D := D); s_keyboard : Keyboard.keyboard; WRITE_COUNT : Z; console : list Z }.
Definition set_world (w : world (D := D)) (s : sys) : sys := MkSys w (s_keyboard s) (WRITE_COUNT s) (console s).
Definition on_world {A} (f : ST (world (D := D)) A) : ST sys A := fun s =>
  match f (s_world s) with Ret a w => Ret a (set_world w s) | Panic => Panic end.
Definition asks {A} (f : sys -> A) : ST sys A := fun s => Ret (f s) s.
Definition with_ram (f : mem -> mem) (w : world (D := D)) : world (D := D) :=
  set_machine (mk_machine (f (ram (w_machine w))) (frames (w_machine w))) w.
(** [slice::from_raw_parts(phys, len)] and writing through such a slice *)
Definition peek (phys len : Z) : ST sys (list Z) :=
  asks (fun s => mem_read (ram (w_machine (s_world s))) phys (Z.to_nat len)).
Definition poke (phys : Z) (bytes : list Z) : ST sys unit :=
  on_world (modify (with_ram (fun m => mem_write m phys bytes))).
(** One [print] per byte *)
Definition print_bytes (bytes : list Z) : ST sys unit :=
  modify (fun s => MkSys (s_world s) (s_keyboard s) (WRITE_COUNT s) (console s ++ bytes)).
Definition count_written (n : Z) : ST sys unit :=
  modify (fun s => MkSys (s_world s) (s_keyboard s) (u64 (WRITE_COUNT s + n)) (console s)).

Definition resolve_user_buffer (ptr len : Z) : ST sys (option Z) := fun s =>
  let w := sched_of (s_world s) in
  if current_is_process w then on_world (resolve_syscall_ptr (current_pid w) ptr len) s
  else Ret (if is_identity_mapped ptr len then Some ptr else None) s.

Definition sys_write (fd ptr len : Z) : ST sys Z :=
  if negb (fd =? FD_STDOUT) && negb (fd =? FD_STDERR) then mret SYSCALL_ERROR else
  r ← resolve_user_buffer ptr len;
  match r with
  | None => mret SYSCALL_ERROR
  | Some phys =>
      bytes ← peek phys len;
      print_bytes bytes;;
      count_written (Z.of_nat (length bytes));;
      mret (Z.of_nat (length bytes))
  end.

(** The bytes the loop of [read] stores: characters until the queue is empty
    or [n] are stored; the queue never holds [fuel] events. *)
Fixpoint drain (fuel n : nat) (k : Keyboard.keyboard) : outcome Keyboard.keyboard (list Z) :=
  match n with
  | O => Ret [] k
  | S n' =>
      match fuel with
      | O => Panic
      | S fuel =>
          match Keyboard.next_event k with
          | Ret (Some (Keyboard.Char c)) k =>
              match drain fuel n' k with Ret cs k => Ret (u8 c :: cs) k | Panic => Panic end
          | Ret (Some _) k => drain fuel n k
          | Ret None k => Ret [] k
          | Panic => Panic
          end
      end
  end.
Definition DRAIN_FUEL : nat := Keyboard.BUFFER_CAPACITY + 1.
Definition read_keyboard (phys len : Z) : ST sys Z := fun s =>
  match drain DRAIN_FUEL (Z.to_nat len) (s_keyboard s) with
  | Ret cs k => (poke phys cs;; mret (Z.of_nat (length cs))) (MkSys (s_world s) k (WRITE_COUNT s) (console s))
  | Panic => Panic
  end.
Definition sys_read (fd ptr len : Z) : ST sys Z :=
  if negb (fd =? FD_STDIN) then mret SYSCALL_ERROR else
  r ← resolve_user_buffer ptr len;
  match r with None => mret SYSCALL_ERROR | Some phys => read_keyboard phys len end.

Definition sys_send (dest_pid ptr len : Z) : ST sys Z :=
  r ← resolve_user_buffer ptr len;
  match r with
  | None => mret SYSCALL_ERROR
  | Some phys =>
      bytes ← peek phys len;
      ok ← on_world (on_sched (deliver_message (Z.to_nat dest_pid) bytes));
      mret (if ok : bool then 0 else SYSCALL_ERROR)
  end.

Definition sys_recv (ptr maxlen : Z) : ST sys Z :=
  r ← resolve_user_buffer ptr maxlen;
  match r with
  | None => mret SYSCALL_ERROR
  | Some phys =>
      message ← on_world (on_sched take_current_message);
      match message with
      | None => mret 0
      | Some bytes =>
          let n := Nat.min (length bytes) (Z.to_nat maxlen) in
          poke phys (take n bytes);;
          mret (Z.of_nat n)
      end
  end.

(** The [match] of [syscall_dispatch]. *)
Definition native_dispatch (num arg1 arg2 arg3 : Z) : ST sys Z :=
  if num =? SYS_WRITE then sys_write arg1 arg2 arg3
  else if num =? SYS_READ then sys_read arg1 arg2 arg3
  else if num =? SYS_CLOCK then asks (fun s => w_ticks (s_world s))
  else if num =? SYS_SEND then sys_send arg1 arg2 arg3
  else if num =? SYS_RECV then sys_recv arg1 arg2
  else mret SYSCALL_ERROR.
End syscalls.
Arguments sys D : clear implicits.
