(* ===== verification/LinuxAbi.v ===== *)
(** * The Linux system-call table, [linux_abi.rs]

    Every handler of the table over the modelled kernel: descriptors of files,
    shared-memory objects and sockets, the memory operations, and the small
    calls a C library's start-up makes.  Sending to a descriptor, printing and
    storing through resolved user pointers are effects on the state of
    [Syscall.v].  Heap exhaustion is not modelled. *)
From S2P Require Import Prelude Bytes Text PhysMem Pmm Paging Disk Rtc Fat Vfs Shm Socket Elf Process Task Spawn Syscall.

(** ** Error numbers *)
Definition ENOENT : Z := 2.
Definition EIO : Z := 5.
Definition EBADF : Z := 9.
Definition EAGAIN : Z := 11.
Definition ENOMEM : Z := 12.
Definition EFAULT : Z := 14.
Definition EEXIST : Z := 17.
Definition ENOTDIR : Z := 20.
Definition EINVAL : Z := 22.
Definition ENOTTY : Z := 25.
Definition ESPIPE : Z := 29.
Definition EPIPE : Z := 32.
Definition ENOSYS : Z := 38.
Definition EAFNOSUPPORT : Z := 97.
Definition ECONNREFUSED : Z := 111.
Definition err (errno : Z) : Z := u64 (- errno).
Definition vfs_err (e : VfsError) : Z :=
  match e with
  | VNotFound => err ENOENT
  | VNotDir | VIsDir => err ENOTDIR
  | VAlreadyExists => err EEXIST
  | _ => err EIO
  end.

(** ** System call numbers *)
Definition SYS_READ : Z := 0.
Definition SYS_WRITE : Z := 1.
Definition SYS_CLOSE : Z := 3.
Definition SYS_FSTAT : Z := 5.
Definition SYS_LSEEK : Z := 8.
Definition SYS_MMAP : Z := 9.
Definition SYS_MPROTECT : Z := 10.
Definition SYS_MUNMAP : Z := 11.
Definition SYS_BRK : Z := 12.
Definition SYS_RT_SIGACTION : Z := 13.
Definition SYS_RT_SIGPROCMASK : Z := 14.
Definition SYS_IOCTL : Z := 16.
Definition SYS_PREAD64 : Z := 17.
Definition SYS_WRITEV : Z := 20.
Definition SYS_ACCESS : Z := 21.
Definition SYS_GETPID : Z := 39.
Definition SYS_SOCKET : Z := 41.
Definition SYS_CONNECT : Z := 42.
Definition SYS_SENDMSG : Z := 46.
Definition SYS_RECVMSG : Z := 47.
Definition SYS_EXIT : Z := 60.
Definition SYS_UNAME : Z := 63.
Definition SYS_FTRUNCATE : Z := 77.
Definition SYS_SYSINFO : Z := 99.
Definition SYS_ARCH_PRCTL : Z := 158.
Definition SYS_FUTEX : Z := 202.
Definition SYS_SCHED_GETAFFINITY : Z := 204.
Definition SYS_SET_TID_ADDRESS : Z := 218.
Definition SYS_CLOCK_GETTIME : Z := 228.
Definition SYS_EXIT_GROUP : Z := 231.
Definition SYS_OPENAT : Z := 257.
Definition SYS_NEWFSTATAT : Z := 262.
Definition SYS_SET_ROBUST_LIST : Z := 273.
Definition SYS_PRLIMIT64 : Z := 302.
Definition SYS_GETRANDOM : Z := 318.
Definition SYS_MEMFD_CREATE : Z := 319.
Definition SYS_RSEQ : Z := 334.

Definition AT_EMPTY_PATH : Z := 0x1000.
Definition S_IFREG : Z := 0x8000.
Definition S_IFDIR : Z := 0x4000.
Definition S_IFCHR : Z := 0x2000.
Definition S_IFSOCK : Z := 0xC000.
Definition STAT_SIZE : Z := 144.
Definition ST_DEV : Z := 1.
Definition MAP_SHARED : Z := 0x01.
Definition MAP_FIXED : Z := 0x10.
Definition MAP_ANONYMOUS : Z := 0x20.
Definition PROT_WRITE : Z := 2.
Definition PROT_EXEC : Z := 4.
Definition AF_UNIX : Z := 1.
Definition SOCK_STREAM : Z := 1.
Definition SOL_SOCKET : Z := 1.
Definition SCM_RIGHTS : Z := 1.
Definition ARCH_SET_FS : Z := 0x1002.
Definition FUTEX_WAIT : Z := 0.
Definition FUTEX_WAKE : Z := 1.
Definition FUTEX_CMD_MASK : Z := unot 64 128.
Definition RLIM_INFINITY : Z := U64_MAX.

(** ** Pure helpers *)
Definition normalize_path (path : str) : str :=
  match path with 47 :: _ => path | _ => 47 :: path end.
Definition translate_open_flags (linux_flags : Z) : Z :=
  let f := match Z.land linux_flags 3 with 1 => O_WRONLY | 2 => O_RDWR | _ => 0 end in
  let f := if is_set linux_flags 64 then Z.lor f O_CREAT else f in
  let f := if is_set linux_flags 512 then Z.lor f O_TRUNC else f in
  if is_set linux_flags 1024 then Z.lor f O_APPEND else f.
Definition seek_cursor (cursor size : Z) (from : SeekFrom) : Z :=
  let base := match from with
              | Start p => i64 p
              | Current p => i64 (i64 cursor + p)
              | End p => i64 (i64 size + p)
              end in
  Z.max base 0.
(** A path as the key of the listener map: its UTF-8 bytes. *)
Definition key_of (path : str) : string :=
  foldr (fun b k => String (Ascii.ascii_of_N (Z.to_N b)) k) EmptyString (as_bytes path).
(** The path of a [sockaddr_un] ends at the first zero byte. *)
Fixpoint until_nul (bytes : list Z) : list Z :=
  match bytes with [] => [] | b :: bytes => if b =? 0 then [] else b :: until_nul bytes end.
(** The fields [write_stat] stores: offset, width and value. *)
Definition stat_fields (mode size ino : Z) : list (Z * nat * Z) :=
  [(0, 8%nat, ST_DEV); (8, 8%nat, ino); (16, 8%nat, 1); (24, 4%nat, mode); (48, 8%nat, size); (56, 8%nat, 4096);
   (64, 8%nat, div_ceil size 512)].
Definition stat_mode (st : Stat) : Z := if st_is_dir st then Z.lor S_IFDIR 0x1ED else Z.lor S_IFREG 0x1A4.
Definition uname_fields : list (list Z) :=
  bytes_of <$> ["Linux"; "machaos"; "6.1.0-machaos"; "#1 SMP"; "x86_64"; ""]%string.
(** The bytes of [getrandom] from index [i] on, [n] left. *)
Fixpoint random_stream (n : nat) (seed i : Z) : list Z :=
  match n with
  | O => []
  | S n => let seed := u64 (u64 (seed * 0x9E3779B97F4A7C15) + i) in u8 (Z.shiftr seed 33) :: random_stream n seed (i + 1)
  end.

Section linux.
Context {D : Type} `{BlockDevice D} (rtc_now : D -> DateTime).
Local Abbreviation SYS A := (ST (sys D) A).

(** ** Access to the parts of the state *)
Definition current_process : SYS (option Process) := fun s =>
  match w_tasks (s_world s) !! w_current (s_world s) with
  | Some t => Ret (process t) s
  | None => Panic
  end.
Definition alter_process (f : Process -> Process) : SYS unit :=
  on_world (on_sched (with_current_process (fun p => (tt, f p));; mret tt)).
(** [with_process(|p| p.fd_mut(fd)).flatten()] *)
Definition get_fd (fd : Z) : SYS (option FdEntry) := p ← current_process; mret (p ≫= fd_ref fd).
Definition put_fd (fd : Z) (e : FdEntry) : SYS unit :=
  alter_process (fun p => set_fds (<[Z.to_nat fd := Some e]> (fds p)) p).
(** [with_process(|p| p.alloc_fd(e) as u64).unwrap_or(err(EBADF))] *)
Definition alloc_fd_or_ebadf (e : FdEntry) : SYS Z :=
  r ← on_world (on_sched (with_current_process (alloc_fd e)));
  mret (match r with Some fd => Z.of_nat fd | None => err EBADF end).
Definition on_volume {A} (f : ST (option (Fat32 D)) A) : ST (world (D := D)) A := fun w =>
  match f (w_volume w) with
  | Ret a v => Ret a (MkWorld (w_machine w) (w_tasks w) (w_current w) (w_ticks w) (w_cpu w) v (w_endpoints w) (w_listeners w) (w_objects w))
  | Panic => Panic
  end.
Definition on_shm {A} (f : ST shm A) : ST (world (D := D)) A := fun w =>
  match f (Shm.mk_state (w_machine w) (w_objects w)) with
  | Ret a t => Ret a (MkWorld (vm t) (w_tasks w) (w_current w) (w_ticks w) (w_cpu w) (w_volume w) (w_endpoints w) (w_listeners w) (TABLE t))
  | Panic => Panic
  end.
Definition on_sockets {A} (f : ST (Socket.state shm) A) : ST (world (D := D)) A := fun w =>
  match f (Socket.mk_state (w_endpoints w) (w_listeners w) (Shm.mk_state (w_machine w) (w_objects w))) with
  | Ret a k => Ret a (MkWorld (vm (shared k)) (w_tasks w) (w_current w) (w_ticks w) (w_cpu w) (w_volume w) (endpoints k) (listeners k) (TABLE (shared k)))
  | Panic => Panic
  end.
Definition objects (s : sys D) : shm := Shm.mk_state (w_machine (s_world s)) (w_objects (s_world s)).
Definition socket_send (id : Z) (bytes ids : list Z) : SYS (option Z) :=
  on_world (on_sockets (@Socket.send shm (shm_refs Pmm.boot_state) id bytes ids)).
Definition socket_recv (id n : Z) : SYS (list Z * list Z) := on_world (on_sockets (Socket.recv id (Z.to_nat n))).
Definition close_ids (ids : list Z) : SYS unit :=
  (fix go ids : SYS unit := match ids with [] => mret tt | id :: ids => on_world (on_shm (Shm.close id));; go ids end) ids.
(** An operation on the open file of a descriptor *)
Definition on_handle {A} (fd : Z) (h : FileHandle) (f : ST FileHandle A) : SYS A := fun s =>
  match f h with
  | Ret a h => (put_fd fd (File h);; mret a) s
  | Panic => Panic
  end.
(** An operation on the memory of the current process, with its root *)
Definition with_memory {A} (none : Z) (f : Z -> PM A) (k : A -> Z) : SYS Z :=
  cr3 ← on_world (on_sched current_process_cr3);
  match cr3 with
  | None => mret none
  | Some pml4 => r ← on_world (with_current_mem (f pml4)); mret (match r with Some a => k a | None => none end)
  end.
Definition resolve (ptr len : Z) : SYS (option Z) := resolve_user_buffer ptr len.
(** [let Some(phys) = resolve(..) else { return err(EFAULT) }] *)
Definition resolving (ptr len : Z) (k : Z -> SYS Z) : SYS Z :=
  r ← resolve ptr len;
  match r with Some phys => k phys | None => mret (err EFAULT) end.
Definition store_fields (phys : Z) (fields : list (Z * nat * Z)) : SYS unit :=
  on_world (modify (with_ram (fun m =>
    foldl (fun m f => let '(off, n, v) := f in store n m (phys + off) v) m fields))).
Definition zero_fill (phys len : Z) : SYS unit := on_world (modify (with_ram (fun m => mem_fill m phys len 0))).
Definition load_word (n : nat) (a : Z) : SYS Z := asks (fun s => load n (ram (w_machine (s_world s))) a).

(** ** Strings *)
Fixpoint read_bytes (n : nat) (ptr : Z) (bytes : list Z) : SYS (option str) :=
  match n with
  | O => mret None
  | S n =>
      r ← resolve (u64 ptr) 1;
      match r with
      | None => mret None
      | Some phys =>
          b ← load_word 1 phys;
          if b =? 0 then mret (from_utf8 bytes) else read_bytes n (ptr + 1) (bytes ++ [b])
      end
  end.
Definition read_cstr (ptr : Z) (max_len : nat) : SYS (option str) := read_bytes max_len ptr [].
(** [let Some(path) = read_cstr(pathname, 256) else { return err(EFAULT) }] *)
Definition with_path (pathname : Z) (k : str -> SYS Z) : SYS Z :=
  r ← read_cstr pathname 256;
  match r with Some path => k (normalize_path path) | None => mret (err EFAULT) end.
Definition vfs_open (path : str) (flags : Z) : SYS (result VfsError FileHandle) := on_world (on_volume (Vfs.open path flags)).

(** ** Files *)
Definition shm_read (id cursor n : Z) : SYS (list Z) := fun s =>
  match phys_of (objects s) id, size_of (objects s) id with
  | Some phys, Some size =>
      let n := Z.min (saturating_sub size cursor) n in
      Ret (mem_read (ram (w_machine (s_world s))) (phys + cursor) (Z.to_nat n)) s
  | _, _ => Ret [] s
  end.
Definition shm_write (id cursor : Z) (bytes : list Z) : SYS Z := fun s =>
  match phys_of (objects s) id, size_of (objects s) id with
  | Some phys, Some size =>
      let n := Z.min (saturating_sub size cursor) (Z.of_nat (length bytes)) in
      (poke (phys + cursor) (take (Z.to_nat n) bytes);; mret n) s
  | _, _ => Ret 0 s
  end.

Definition sys_write (fd buf count : Z) : SYS Z :=
  resolving buf count (fun phys =>
    bytes ← peek phys count;
    if (fd =? 1) || (fd =? 2) then print_bytes bytes;; mret (Z.of_nat (length bytes)) else
    if fd <? 3 then mret (err EBADF) else
    e ← get_fd fd;
    match e with
    | Some (File h) =>
        r ← on_handle fd h (Vfs.write bytes);
        mret (match r with Ok n => n | Err e => vfs_err e end)
    | Some (ShmFd id cursor) => n ← shm_write id cursor bytes; put_fd fd (ShmFd id (cursor + n));; mret n
    | Some (SocketFd id) => r ← socket_send id bytes []; mret (default (err EPIPE) r)
    | None => mret (err EBADF)
    end).

Definition sys_read (fd buf count : Z) : SYS Z :=
  resolving buf count (fun phys =>
    if fd =? 0 then read_keyboard phys count else
    if fd <? 3 then mret (err EBADF) else
    e ← get_fd fd;
    match e with
    | Some (File h) =>
        bytes ← on_handle fd h (Vfs.read count); poke phys bytes;; mret (Z.of_nat (length bytes))
    | Some (ShmFd id cursor) =>
        bytes ← shm_read id cursor count;
        poke phys bytes;; put_fd fd (ShmFd id (cursor + Z.of_nat (length bytes)));; mret (Z.of_nat (length bytes))
    | Some (SocketFd id) =>
        r ← socket_recv id count;
        let (bytes, ids) := r : list Z * list Z in
        poke phys bytes;; close_ids ids;; mret (Z.of_nat (length bytes))
    | None => mret (err EBADF)
    end).

Definition sys_openat (pathname flags : Z) : SYS Z :=
  with_path pathname (fun path =>
    r ← vfs_open path (translate_open_flags flags);
    match r with Ok h => alloc_fd_or_ebadf (File h) | Err e => mret (vfs_err e) end).
Definition sys_access (pathname : Z) : SYS Z :=
  with_path pathname (fun path =>
    r ← vfs_open path 0;
    mret (match r with Ok _ => 0 | Err e => vfs_err e end)).
(** [p.close_fd]: dropping the entry reaches the file system, the shared objects
    and the sockets. *)
Definition close_current_fd (fd : Z) : SYS (option bool) := fun s =>
  match w_tasks (s_world s) !! w_current (s_world s) with
  | None => Panic
  | Some t =>
      match process t with
      | None => Ret None s
      | Some p =>
          match close_fd rtc_now fd (kernel_of (s_world s), p) with
          | Panic => Panic
          | Ret b (k, p) => (alter_process (fun _ => p);; mret (Some b)) (set_world (with_kernel k (s_world s)) s)
          end
      end
  end.
Definition sys_close (fd : Z) : SYS Z :=
  if fd <? 3 then mret 0 else
  r ← close_current_fd fd; mret (match r with Some true => 0 | _ => err EBADF end).

Definition sys_lseek (fd offset whence : Z) : SYS Z :=
  if fd <? 3 then mret (err ESPIPE) else
  match (if whence =? 0 then Some (Start offset) else if whence =? 1 then Some (Current (i64 offset))
         else if whence =? 2 then Some (End (i64 offset)) else None) with
  | None => mret (err EINVAL)
  | Some from =>
      e ← get_fd fd;
      match e with
      | Some (File h) => on_handle fd h (Vfs.seek from)
      | Some (ShmFd id cursor) =>
          size ← asks (fun s => default 0 (size_of (objects s) id));
          let c := seek_cursor cursor size from in
          put_fd fd (ShmFd id c);; mret c
      | Some (SocketFd _) => mret (err ESPIPE)
      | None => mret (err EBADF)
      end
  end.
(** A read at an offset that leaves the cursor where it was. *)
Definition read_at (offset count : Z) : ST FileHandle (list Z) :=
  saved ← Vfs.seek (Current 0);
  Vfs.seek (Start offset);;
  bytes ← Vfs.read count;
  Vfs.seek (Start saved);;
  mret bytes.
Definition sys_pread64 (fd buf count offset : Z) : SYS Z :=
  if fd <? 3 then mret (err ESPIPE) else
  resolving buf count (fun phys =>
    e ← get_fd fd;
    match e with
    | Some (File h) =>
        bytes ← on_handle fd h (read_at offset count); poke phys bytes;; mret (Z.of_nat (length bytes))
    | _ => mret (err EBADF)
    end).

Definition write_stat (buf mode size ino : Z) : SYS Z :=
  resolving buf STAT_SIZE (fun phys =>
    zero_fill phys STAT_SIZE;; store_fields phys (stat_fields mode size ino);; mret 0).
Definition sys_fstat (fd statbuf : Z) : SYS Z :=
  if fd <? 3 then write_stat statbuf (Z.lor S_IFCHR 0x1B6) 0 0 else
  e ← get_fd fd;
  match e with
  | Some (File h) => let st := Vfs.stat h in write_stat statbuf (stat_mode st) (st_size st) (Vfs.ino st)
  | Some (ShmFd id _) =>
      size ← asks (fun s => default 0 (size_of (objects s) id));
      write_stat statbuf (Z.lor S_IFREG 0x180) size (u64 (id + 1))
  | Some (SocketFd id) => write_stat statbuf (Z.lor S_IFSOCK 0x1FF) 0 (u64 (id + 1))
  | None => mret (err EBADF)
  end.
Definition sys_newfstatat (dirfd pathname statbuf flags : Z) : SYS Z :=
  if is_set flags AT_EMPTY_PATH then sys_fstat dirfd statbuf else
  with_path pathname (fun path =>
    r ← vfs_open path 0;
    match r with
    | Ok h => let st := Vfs.stat h in write_stat statbuf (stat_mode st) (st_size st) (Vfs.ino st)
    | Err e => mret (vfs_err e)
    end).

(** [n] entries left of the vector. *)
Fixpoint writev_loop (n : nat) (fd iov i total : Z) : SYS Z :=
  match n with
  | O => mret total
  | S n =>
      resolving (u64 (iov + i * 16)) 16 (fun entry =>
        base ← load_word 8 entry;
        len ← load_word 8 (entry + 8);
        if len =? 0 then writev_loop n fd iov (i + 1) total else
        r ← sys_write fd base len;
        if i64 r <? 0 then mret r else writev_loop n fd iov (i + 1) (u64 (total + r)))
  end.
Definition sys_writev (fd iov iovcnt : Z) : SYS Z := writev_loop (Z.to_nat iovcnt) fd iov 0 0.

(** ** Memory *)
Definition sys_brk (addr : Z) : SYS Z := with_memory 0 (fun pml4 => Process.brk pml4 addr) (fun v => v).
Definition mmap_result (r : option Z) : Z := default (err ENOMEM) r.
Definition file_content (fd len offset : Z) : SYS (option (list Z)) :=
  e ← get_fd fd;
  match e with
  | Some (File h) =>
      if ISIZE_MAX <? len then panic else
      r ← on_handle fd h (Vfs.seek (Start offset);; Vfs.read len); mret (Some r)
  | _ => mret None
  end.
Definition sys_mmap (addr len prot flags fd offset : Z) : SYS Z :=
  if len =? 0 then mret (err EINVAL) else
  cr3 ← on_world (on_sched current_process_cr3);
  match cr3 with
  | None => mret (err ENOMEM)
  | Some _ =>
      let at_ := if is_set flags MAP_FIXED then Some addr else None in
      let writable := is_set prot PROT_WRITE in
      let executable := is_set prot PROT_EXEC in
      if is_set flags MAP_ANONYMOUS || (i64 fd <? 0)
      then with_memory (err ENOMEM) (fun pml4 => mmap_anon pml4 at_ len writable executable) mmap_result
      else
        e ← get_fd fd;
        match e with
        | Some (ShmFd id _) =>
            if is_set flags MAP_SHARED then
              t ← asks objects;
              with_memory (err ENOMEM) (fun pml4 => mmap_shared t pml4 at_ id writable executable) mmap_result
            else mret (err EINVAL)
        | Some (File _) =>
            content ← file_content fd len offset;
            match content with
            | Some bytes =>
                with_memory (err ENOMEM) (fun pml4 => mmap_file pml4 at_ len writable executable bytes) mmap_result
            | None => mret (err EBADF)
            end
        | _ => mret (err EBADF)
        end
  end.
Definition done_or_einval (ok : bool) : Z := if ok then 0 else err EINVAL.
Definition sys_munmap (addr len : Z) : SYS Z :=
  with_memory (err EINVAL) (fun pml4 => munmap pml4 addr len) done_or_einval.
Definition sys_mprotect (addr len prot : Z) : SYS Z :=
  with_memory (err EINVAL) (fun pml4 => mprotect pml4 addr len (is_set prot PROT_WRITE) (is_set prot PROT_EXEC)) done_or_einval.

(** ** Shared memory and sockets *)
Definition sys_memfd_create : SYS Z := id ← on_world (on_shm Shm.create); alloc_fd_or_ebadf (ShmFd id 0).
Definition sys_ftruncate (fd len : Z) : SYS Z :=
  e ← get_fd fd;
  match e with
  | Some (ShmFd id _) =>
      ok ← on_world (on_shm (Shm.truncate id len)); mret (if ok : bool then 0 else err ENOMEM)
  | _ => mret (err EBADF)
  end.
Definition sys_socket (domain ty : Z) : SYS Z :=
  if negb (domain =? AF_UNIX) || negb (Z.land ty 0xF =? SOCK_STREAM) then mret (err EAFNOSUPPORT) else
  id ← on_world (on_sockets Socket.create); alloc_fd_or_ebadf (SocketFd id).
Definition read_sockaddr_un (addr addrlen : Z) : SYS (option str) :=
  let len := Z.min addrlen (2 + 108) in
  if len <? 2 then mret None else
  r ← resolve addr len;
  match r with
  | None => mret None
  | Some phys =>
      bytes ← peek phys len;
      mret (if le_combine (take 2 bytes) =? AF_UNIX then from_utf8 (until_nul (drop 2 bytes)) else None)
  end.
(** [Some(FdEntry::Socket(id))], or [EBADF] *)
Definition with_socket (fd : Z) (k : Z -> SYS Z) : SYS Z :=
  e ← get_fd fd; match e with Some (SocketFd id) => k id | _ => mret (err EBADF) end.
Definition sys_connect (fd addr addrlen : Z) : SYS Z :=
  r ← read_sockaddr_un addr addrlen;
  match r with
  | None => mret (err EINVAL)
  | Some path =>
      with_socket fd (fun id =>
        ok ← on_world (on_sockets (Socket.connect id (key_of path)));
        mret (if ok : bool then 0 else err ECONNREFUSED))
  end.

(** The one vector entry a message uses: its buffer's address and length. *)
Definition message_buffer (iov count : Z) : SYS (option Z * Z) :=
  if 0 <? count then
    r ← resolve iov 16;
    match r with
    | Some iov_phys =>
        base ← load_word 8 iov_phys;
        blen ← load_word 8 (iov_phys + 8);
        mret (Some base, blen)
    | None => mret (None, 0)
    end
  else mret (None, 0).
Definition gather (iov count : Z) : SYS (list Z) :=
  b ← message_buffer iov count;
  let (base, blen) := b : option Z * Z in
  match base with
  | Some base =>
      if 0 <? blen then
        r ← resolve base blen;
        match r with Some phys => peek phys blen | None => mret [] end
      else mret []
  | None => mret []
  end.
(** The descriptors of a control message from index [i] on, [n] left. *)
Fixpoint passed_ids (n : nat) (ctrl i : Z) : SYS (list Z) :=
  match n with
  | O => mret []
  | S n =>
      client_fd ← load_word 4 (ctrl + 16 + i * 4);
      e ← get_fd client_fd;
      ids ← passed_ids n ctrl (i + 1);
      mret (match e with Some (ShmFd id _) => id :: ids | _ => ids end)
  end.
Definition control_ids (control_ptr control_len : Z) : SYS (list Z) :=
  if control_len <? 16 then mret [] else
  r ← resolve control_ptr control_len;
  match r with
  | None => mret []
  | Some ctrl =>
      cmsg_len ← load_word 8 ctrl;
      level ← load_word 4 (ctrl + 8);
      type ← load_word 4 (ctrl + 12);
      if (level =? SOL_SOCKET) && (type =? SCM_RIGHTS) && (16 <? cmsg_len)
      then passed_ids (Z.to_nat ((cmsg_len - 16) / 4)) ctrl 0
      else mret []
  end.
Definition sys_sendmsg (fd msg : Z) : SYS Z :=
  resolving msg 56 (fun msg_phys =>
    with_socket fd (fun id =>
      iov_ptr ← load_word 8 (msg_phys + 16);
      iov_count ← load_word 8 (msg_phys + 24);
      control_ptr ← load_word 8 (msg_phys + 32);
      control_len ← load_word 8 (msg_phys + 40);
      bytes ← gather iov_ptr iov_count;
      ids ← control_ids control_ptr control_len;
      r ← socket_send id bytes ids;
      mret (default (err EPIPE) r))).

(** New descriptors for received objects, from index [i] of the message on. *)
Fixpoint install_ids (ids : list Z) (ctrl i : Z) : SYS unit :=
  match ids with
  | [] => mret tt
  | id :: ids =>
      r ← on_world (on_sched (with_current_process (alloc_fd (ShmFd id 0))));
      store_fields (ctrl + 16 + i * 4) [(0, 4%nat, u32 (match r with Some fd => Z.of_nat fd | None => 0 end))];;
      install_ids ids ctrl (i + 1)
  end.
Definition deliver_ids (ids : list Z) (control_ptr control_cap : Z) : SYS Z :=
  r ← resolve control_ptr control_cap;
  match (if bool_decide (ids <> []) && (16 <=? control_cap) then r else None) with
  | Some ctrl =>
      let max_fds := Z.min ((control_cap - 16) / 4) (Z.of_nat (length ids)) in
      let cmsg_len := 16 + max_fds * 4 in
      store_fields ctrl [(0, 8%nat, cmsg_len); (8, 4%nat, SOL_SOCKET); (12, 4%nat, SCM_RIGHTS)];;
      install_ids (take (Z.to_nat max_fds) ids) ctrl 0;;
      close_ids (drop (Z.to_nat max_fds) ids);;
      mret cmsg_len
  | None => close_ids ids;; mret 0
  end.
Definition sys_recvmsg (fd msg : Z) : SYS Z :=
  resolving msg 56 (fun msg_phys =>
    with_socket fd (fun id =>
      ready ← asks (fun s => Socket.has_data (Socket.mk_state (w_endpoints (s_world s)) (w_listeners (s_world s)) (objects s)) id);
      if negb ready then mret (err EAGAIN) else
      iov_ptr ← load_word 8 (msg_phys + 16);
      iov_count ← load_word 8 (msg_phys + 24);
      control_ptr ← load_word 8 (msg_phys + 32);
      control_cap ← load_word 8 (msg_phys + 40);
      b ← message_buffer iov_ptr iov_count;
      let (base, blen) := b : option Z * Z in
      buf ← match base with Some base => resolve base blen | None => mret None end;
      r ← socket_recv id (match buf with Some _ => blen | None => 0 end);
      let (bytes, ids) := r : list Z * list Z in
      match buf with Some phys => poke phys bytes | None => mret tt end;;
      used ← deliver_ids ids control_ptr control_cap;
      store_fields msg_phys [(40, 8%nat, used)];;
      mret (Z.of_nat (length bytes)))).

(** ** The rest of a C library's start-up *)
Definition set_fs_register (v : Z) : SYS unit :=
  on_world (modify (fun w => with_sched (set_cpu (MkCpu (cpu_regs (w_cpu w)) (cpu_cr3 (w_cpu w)) v (tss_rsp0 (w_cpu w))) (sched_of w)) w)).
Definition sys_arch_prctl (code addr : Z) : SYS Z :=
  if code =? ARCH_SET_FS then set_fs_register addr;; alter_process (Process.set_fs_base addr);; mret 0 else mret (err EINVAL).
Definition sys_uname (buf : Z) : SYS Z :=
  resolving buf (65 * 6) (fun phys =>
    poke phys (uname_fields ≫= (fun f => f ++ replicate (65 - length f) 0));; mret 0).
Definition sys_getrandom (buf buflen : Z) : SYS Z :=
  resolving buf buflen (fun phys =>
    ticks ← asks (fun s => w_ticks (s_world s));
    poke phys (random_stream (Z.to_nat buflen) (Z.lxor ticks buf) 0);; mret buflen).
Definition sys_clock_gettime (ts : Z) : SYS Z :=
  resolving ts 16 (fun phys =>
    ticks ← asks (fun s => w_ticks (s_world s));
    store_fields phys [(0, 8%nat, ticks / 100); (8, 8%nat, u64 (ticks mod 100 * 10000000))];; mret 0).
Definition sys_futex (uaddr futex_op val : Z) : SYS Z :=
  let cmd := Z.land futex_op FUTEX_CMD_MASK in
  if cmd =? FUTEX_WAIT then
    resolving uaddr 4 (fun phys =>
      current ← load_word 4 phys;
      mret (if current =? Z.land val 0xFFFFFFFF then 0 else err EAGAIN))
  else mret (if cmd =? FUTEX_WAKE then 0 else err ENOSYS).
Definition sys_rseq : SYS Z := mret (err EINVAL).
Definition sys_prlimit64 (old_limit : Z) : SYS Z :=
  if old_limit =? 0 then mret 0 else
  resolving old_limit 16 (fun phys =>
    store_fields phys [(0, 8%nat, RLIM_INFINITY); (8, 8%nat, RLIM_INFINITY)];; mret 0).
Definition sys_sched_getaffinity (cpusetsize mask_ptr : Z) : SYS Z :=
  resolving mask_ptr cpusetsize (fun phys =>
    zero_fill phys cpusetsize;;
    (if 1 <=? cpusetsize then poke phys [1] else mret tt);;
    mret (Z.min cpusetsize 8)).
Definition sys_sysinfo (info_ptr : Z) : SYS Z :=
  resolving info_ptr 112 (fun phys =>
    zero_fill phys 112;;
    ticks ← asks (fun s => w_ticks (s_world s));
    total ← on_world (on_frames total_frames);
    free ← on_world (on_frames free_frames);
    store_fields phys [(0, 8%nat, ticks / 100); (32, 8%nat, u64 (total * FRAME_SIZE)); (40, 8%nat, u64 (free * FRAME_SIZE)); (104, 4%nat, 1)];;
    mret 0).

(** ** The table *)
Definition syscall_dispatch (num arg1 arg2 arg3 arg4 arg5 arg6 : Z) : SYS Z :=
  if num =? SYS_READ then sys_read arg1 arg2 arg3
  else if num =? SYS_WRITE then sys_write arg1 arg2 arg3
  else if num =? SYS_CLOSE then sys_close arg1
  else if num =? SYS_FSTAT then sys_fstat arg1 arg2
  else if num =? SYS_LSEEK then sys_lseek arg1 arg2 arg3
  else if num =? SYS_ACCESS then sys_access arg1
  else if num =? SYS_PREAD64 then sys_pread64 arg1 arg2 arg3 arg4
  else if num =? SYS_MMAP then sys_mmap arg1 arg2 arg3 arg4 arg5 arg6
  else if num =? SYS_MPROTECT then sys_mprotect arg1 arg2 arg3
  else if num =? SYS_MUNMAP then sys_munmap arg1 arg2
  else if num =? SYS_BRK then sys_brk arg1
  else if num =? SYS_RT_SIGACTION then mret 0
  else if num =? SYS_RT_SIGPROCMASK then mret 0
  else if num =? SYS_IOCTL then mret (err ENOTTY)
  else if num =? SYS_WRITEV then sys_writev arg1 arg2 arg3
  else if num =? SYS_GETPID then asks (fun s => Z.of_nat (w_current (s_world s)))
  else if num =? SYS_UNAME then sys_uname arg1
  else if num =? SYS_ARCH_PRCTL then sys_arch_prctl arg1 arg2
  else if num =? SYS_SET_TID_ADDRESS then asks (fun s => Z.of_nat (w_current (s_world s)))
  else if num =? SYS_CLOCK_GETTIME then sys_clock_gettime arg2
  else if num =? SYS_OPENAT then sys_openat arg2 arg3
  else if num =? SYS_NEWFSTATAT then sys_newfstatat arg1 arg2 arg3 arg4
  else if num =? SYS_SET_ROBUST_LIST then mret 0
  else if num =? SYS_GETRANDOM then sys_getrandom arg1 arg2
  else if num =? SYS_FUTEX then sys_futex arg1 arg2 arg3
  else if num =? SYS_RSEQ then sys_rseq
  else if num =? SYS_PRLIMIT64 then sys_prlimit64 arg4
  else if num =? SYS_SCHED_GETAFFINITY then sys_sched_getaffinity arg2 arg3
  else if num =? SYS_SYSINFO then sys_sysinfo arg1
  else if num =? SYS_MEMFD_CREATE then sys_memfd_create
  else if num =? SYS_FTRUNCATE then sys_ftruncate arg1 arg2
  else if num =? SYS_SOCKET then sys_socket arg1 arg2
  else if num =? SYS_CONNECT then sys_connect arg1 arg2 arg3
  else if num =? SYS_SENDMSG then sys_sendmsg arg1 arg2
  else if num =? SYS_RECVMSG then sys_recvmsg arg1 arg2
  else mret (err ENOSYS).
End linux.
