(* ===== verification/Dispatch.v ===== *)
(** * System-call entry and dispatch, [syscall.rs]

    The two tables behind one entry point, the assembly of [syscall_entry] run
    instruction by instruction, and what every system call guarantees. *)
From S2P Require Import Prelude Bytes Text PhysMem Pmm Paging Disk Rtc Fat Vfs Shm Socket Elf Process Task Spawn Syscall LinuxAbi.
From S2P Require Keyboard.

(** ** Dispatch *)
Section dispatch.
Context {D : Type} `{BlockDevice D} (rtc_now : D -> DateTime).
Definition current_abi : ST (sys D) (option Abi) := Syscall.on_world (on_sched current_process_abi).
Definition is_exit_syscall (num : Z) : ST (sys D) Z :=
  a ← current_abi;
  let exit := match a with
              | Some Linux => (num =? LinuxAbi.SYS_EXIT) || (num =? LinuxAbi.SYS_EXIT_GROUP)
              | _ => num =? Process.SYS_EXIT
              end in
  mret (if exit then 1 else 0).
Definition syscall_dispatch (num arg1 arg2 arg3 arg4 arg5 arg6 : Z) : ST (sys D) Z :=
  a ← current_abi;
  match a with
  | Some Linux => LinuxAbi.syscall_dispatch rtc_now num arg1 arg2 arg3 arg4 arg5 arg6
  | _ => native_dispatch num arg1 arg2 arg3
  end.
End dispatch.

(** ** The entry code *)
Inductive reg := RAX | RBX | RCX | RDX | RSI | RDI | RBP | R8 | R9 | R10 | R11 | R12 | R13 | R14 | R15.
Record gprs := Gprs {
  rax : Z; rbx : Z; rcx : Z; rdx : Z; rsi : Z; rdi : Z; rbp : Z; r8 : Z; r9 : Z; r10 : Z; r11 : Z; r12 : Z; r13 : Z; r14 : Z; r15 : Z }.
Definition get_reg (g : gprs) (r : reg) : Z :=
  match r with
  | RAX => rax g | RBX => rbx g | RCX => rcx g | RDX => rdx g | RSI => rsi g | RDI => rdi g | RBP => rbp g
  | R8 => r8 g | R9 => r9 g | R10 => r10 g | R11 => r11 g | R12 => r12 g | R13 => r13 g | R14 => r14 g | R15 => r15 g
  end.
Definition set_reg (r : reg) (v : Z) (g : gprs) : gprs :=
  match r with
  | RAX => Gprs v (rbx g) (rcx g) (rdx g) (rsi g) (rdi g) (rbp g) (r8 g) (r9 g) (r10 g) (r11 g) (r12 g) (r13 g) (r14 g) (r15 g)
  | RBX => Gprs (rax g) v (rcx g) (rdx g) (rsi g) (rdi g) (rbp g) (r8 g) (r9 g) (r10 g) (r11 g) (r12 g) (r13 g) (r14 g) (r15 g)
  | RCX => Gprs (rax g) (rbx g) v (rdx g) (rsi g) (rdi g) (rbp g) (r8 g) (r9 g) (r10 g) (r11 g) (r12 g) (r13 g) (r14 g) (r15 g)
  | RDX => Gprs (rax g) (rbx g) (rcx g) v (rsi g) (rdi g) (rbp g) (r8 g) (r9 g) (r10 g) (r11 g) (r12 g) (r13 g) (r14 g) (r15 g)
  | RSI => Gprs (rax g) (rbx g) (rcx g) (rdx g) v (rdi g) (rbp g) (r8 g) (r9 g) (r10 g) (r11 g) (r12 g) (r13 g) (r14 g) (r15 g)
  | RDI => Gprs (rax g) (rbx g) (rcx g) (rdx g) (rsi g) v (rbp g) (r8 g) (r9 g) (r10 g) (r11 g) (r12 g) (r13 g) (r14 g) (r15 g)
  | RBP => Gprs (rax g) (rbx g) (rcx g) (rdx g) (rsi g) (rdi g) v (r8 g) (r9 g) (r10 g) (r11 g) (r12 g) (r13 g) (r14 g) (r15 g)
  | R8 => Gprs (rax g) (rbx g) (rcx g) (rdx g) (rsi g) (rdi g) (rbp g) v (r9 g) (r10 g) (r11 g) (r12 g) (r13 g) (r14 g) (r15 g)
  | R9 => Gprs (rax g) (rbx g) (rcx g) (rdx g) (rsi g) (rdi g) (rbp g) (r8 g) v (r10 g) (r11 g) (r12 g) (r13 g) (r14 g) (r15 g)
  | R10 => Gprs (rax g) (rbx g) (rcx g) (rdx g) (rsi g) (rdi g) (rbp g) (r8 g) (r9 g) v (r11 g) (r12 g) (r13 g) (r14 g) (r15 g)
  | R11 => Gprs (rax g) (rbx g) (rcx g) (rdx g) (rsi g) (rdi g) (rbp g) (r8 g) (r9 g) (r10 g) v (r12 g) (r13 g) (r14 g) (r15 g)
  | R12 => Gprs (rax g) (rbx g) (rcx g) (rdx g) (rsi g) (rdi g) (rbp g) (r8 g) (r9 g) (r10 g) (r11 g) v (r13 g) (r14 g) (r15 g)
  | R13 => Gprs (rax g) (rbx g) (rcx g) (rdx g) (rsi g) (rdi g) (rbp g) (r8 g) (r9 g) (r10 g) (r11 g) (r12 g) v (r14 g) (r15 g)
  | R14 => Gprs (rax g) (rbx g) (rcx g) (rdx g) (rsi g) (rdi g) (rbp g) (r8 g) (r9 g) (r10 g) (r11 g) (r12 g) (r13 g) v (r15 g)
  | R15 => Gprs (rax g) (rbx g) (rcx g) (rdx g) (rsi g) (rdi g) (rbp g) (r8 g) (r9 g) (r10 g) (r11 g) (r12 g) (r13 g) (r14 g) v
  end.
Inductive c_function := IsExitSyscall | SyscallDispatch.
(** The instructions of the code between the entry and [sysretq]; [AddRsp] drops
    that many words. *)
Inductive instr :=
| SaveUserRsp | LoadKernelRsp | LoadUserRsp
| Push (r : reg) | Pop (r : reg) | Mov (dst src : reg) | Call (f : c_function) | AddRsp (words : nat)
| TestJnzExit (r : reg) | Sysretq.
Definition syscall_entry : list instr :=
  [SaveUserRsp; LoadKernelRsp; Push RCX; Push R11;
   Push RAX; Push RDI; Push RSI; Push RDX; Push R10; Push R8; Push R9;
   Mov RDI RAX; Call IsExitSyscall; Mov R11 RAX;
   Pop R9; Pop R8; Pop R10; Pop RDX; Pop RSI; Pop RDI; Pop RAX;
   TestJnzExit R11;
   Push RDI; Push RSI; Push RDX; Push R10; Push R8; Push R9;
   Push R9; Mov R11 RDX; Mov RDX RSI; Mov RSI RDI; Mov RDI RAX; Mov RCX R11; Mov R11 R8; Mov R8 R10; Mov R9 R11;
   Call SyscallDispatch; AddRsp 1;
   Pop R9; Pop R8; Pop R10; Pop RDX; Pop RSI; Pop RDI;
   Pop R11; Pop RCX; LoadUserRsp; Sysretq].

Section entry.
Context {D : Type} `{BlockDevice D} (rtc_now : D -> DateTime).
(** The top of the system-call stack, and what a C function leaves in the
    registers the convention lets it clobber. *)
Context (SYSCALL_KERNEL_RSP : Z) (clobber : c_function -> gprs -> gprs).

(** [kstack] holds the words the code has pushed on the system-call stack. *)
Record entry_state := MkEntry { regs : gprs; rsp : Z; SAVED_USER_RSP : Z; kstack : list Z; kernel : sys D }.
Inductive leaves := Next (s : entry_state) | ToUser (rip rflags : Z) (s : entry_state) | Exits (s : entry_state).
(** The System V convention: six arguments in registers, the seventh on top of
    the stack; the result in [rax]. *)
Definition c_call (f : c_function) (s : entry_state) : outcome (sys D) Z :=
  match f with
  | IsExitSyscall => is_exit_syscall (rdi (regs s)) (kernel s)
  | SyscallDispatch =>
      match kstack s with
      | arg6 :: _ =>
          syscall_dispatch rtc_now (rdi (regs s)) (rsi (regs s)) (rdx (regs s)) (rcx (regs s)) (r8 (regs s)) (r9 (regs s)) arg6 (kernel s)
      | [] => Panic
      end
  end.
Definition after_call (f : c_function) (v : Z) (g : gprs) : gprs :=
  let c := clobber f g in
  Gprs v (rbx g) (rcx c) (rdx c) (rsi c) (rdi c) (rbp g) (r8 c) (r9 c) (r10 c) (r11 c) (r12 g) (r13 g) (r14 g) (r15 g).
Definition step (i : instr) (s : entry_state) : option leaves :=
  match i with
  | SaveUserRsp => Some (Next (MkEntry (regs s) (rsp s) (rsp s) (kstack s) (kernel s)))
  | LoadKernelRsp => Some (Next (MkEntry (regs s) SYSCALL_KERNEL_RSP (SAVED_USER_RSP s) [] (kernel s)))
  | LoadUserRsp => Some (Next (MkEntry (regs s) (SAVED_USER_RSP s) (SAVED_USER_RSP s) (kstack s) (kernel s)))
  | Push r => Some (Next (MkEntry (regs s) (u64 (rsp s - 8)) (SAVED_USER_RSP s) (get_reg (regs s) r :: kstack s) (kernel s)))
  | Pop r =>
      match kstack s with
      | v :: st => Some (Next (MkEntry (set_reg r v (regs s)) (u64 (rsp s + 8)) (SAVED_USER_RSP s) st (kernel s)))
      | [] => None
      end
  | Mov dst src => Some (Next (MkEntry (set_reg dst (get_reg (regs s) src) (regs s)) (rsp s) (SAVED_USER_RSP s) (kstack s) (kernel s)))
  | AddRsp n => Some (Next (MkEntry (regs s) (u64 (rsp s + 8 * Z.of_nat n)) (SAVED_USER_RSP s) (drop n (kstack s)) (kernel s)))
  | Call f =>
      match c_call f s with
      | Ret v k => Some (Next (MkEntry (after_call f v (regs s)) (rsp s) (SAVED_USER_RSP s) (kstack s) k))
      | Panic => None
      end
  | TestJnzExit r => Some (if get_reg (regs s) r =? 0 then Next s else Exits s)
  | Sysretq => Some (ToUser (rcx (regs s)) (r11 (regs s)) s)
  end.
(** [None] is a panic of the kernel. *)
Fixpoint run (code : list instr) (s : entry_state) : option leaves :=
  match code with
  | [] => None
  | i :: code => r ← step i s; match r with Next s => run code s | _ => Some r end
  end.

Lemma run_next i code s r : step i s = Some (Next r) -> run (i :: code) s = run code r.
Proof. intros E. cbn [run]. by rewrite E. Qed.
(** One instruction; what it leaves is computed before it is put back. *)
Ltac compute_step :=
  lazy [step get_reg set_reg after_call drop regs rsp kstack SAVED_USER_RSP kernel
        rax rbx rcx rdx rsi rdi rbp r8 r9 r10 r11 r12 r13 r14 r15].
Ltac run_step := erewrite run_next; [|compute_step; reflexivity].

(** C12: A system call is transparent to its caller.  Whatever the C functions
    clobber, the entry code either reports an exit of the process, decided by
    the number alone, or runs the dispatcher on the number and the six arguments
    in [rdi], [rsi], [rdx], [r10], [r8] and [r9] and returns to the instruction
    after [syscall] with the caller's flags and stack pointer, the result in
    [rax], and every other register as it was. *)
Theorem syscall_entry_transparent s : forall e k, is_exit_syscall (rax (regs s)) (kernel s) = Ret e k ->
  if e =? 0 then
    forall v k', syscall_dispatch rtc_now (rax (regs s)) (rdi (regs s)) (rsi (regs s)) (rdx (regs s)) (r10 (regs s)) (r8 (regs s)) (r9 (regs s)) k = Ret v k' ->
    exists s', run syscall_entry s = Some (ToUser (rcx (regs s)) (r11 (regs s)) s') /\
      kernel s' = k' /\ rsp s' = rsp s /\ rax (regs s') = v /\ forall r, r <> RAX -> get_reg (regs s') r = get_reg (regs s) r
  else exists s', run syscall_entry s = Some (Exits s') /\ kernel s' = k.
Proof.
  intros e k He. destruct s as [[] sp saved st k0]. cbn [regs kernel rsp rax] in *.
  cbn [rcx rdx rsi rdi r8 r9 r10 r11] in *. unfold syscall_entry. do 12 run_step.
  erewrite run_next; [|compute_step; cbn [c_call regs rdi kernel]; rewrite He; reflexivity]. do 8 run_step.
  destruct (e =? 0) eqn:Ee.
  - intros v k' Hv. erewrite run_next; [|compute_step; rewrite Ee; reflexivity]. do 15 run_step.
    erewrite run_next; [|compute_step; cbn [c_call kstack regs rdi rsi rdx rcx r8 r9 kernel]; rewrite Hv; reflexivity].
    do 10 run_step. eexists. split; [reflexivity|]. do 3 (split; [reflexivity|]). by intros [] ?.
  - eexists. cbn [run]. compute_step. rewrite Ee. split; [reflexivity|done].
Qed.
End entry.

(** ** Entering ring 3 and coming back *)
(** [enter_usermode] up to the call of [ring3_save_return_rsp]; what follows
    builds the [iretq] frame for ring 3. *)
Definition enter_save : ASM Z :=
  push Task.rbx;; push Task.rbp;; push Task.r12;; push Task.r13;; push Task.r14;; push Task.r15;; get_rsp.
Definition enter_usermode : ST Sched unit := fun s =>
  match enter_save (memory s, cpu_regs (cpu s)) with
  | Ret saved (m, r) =>
      set_current_ring3_return_rsp saved
        (MkSched m (TASKS s) (CURRENT s) (TICKS s) (MkCpu r (cpu_cr3 (cpu s)) (FS_BASE (cpu s)) (tss_rsp0 (cpu s))))
  | Panic => Panic
  end.
(** [.Lsyscall_exit] *)
Definition exit_restore (new_rsp : Z) : ASM unit :=
  modify (fun '(m, r) => (m, with_rsp new_rsp r));;
  pop set_r15;; pop set_r14;; pop set_r13;; pop set_r12;; pop set_rbp;; pop set_rbx;; pop set_rip.
Definition syscall_exit : ST Sched unit := fun s =>
  match current_ring3_return_rsp s with
  | Ret saved s =>
      match exit_restore saved (memory s, cpu_regs (cpu s)) with
      | Ret _ (m, r) =>
          Ret tt (MkSched m (TASKS s) (CURRENT s) (TICKS s) (MkCpu r (cpu_cr3 (cpu s)) (FS_BASE (cpu s)) (tss_rsp0 (cpu s))))
      | Panic => Panic
      end
  | Panic => Panic
  end.

(** [run_ring3] behaves like a function call.  The kernel part of a process
    enters ring 3 and is resumed by the exit system call at its return address
    with every register a C caller relies on and the stack pointer restored,
    whatever the process, the interrupts and the other tasks did meanwhile, as
    long as the [RING3_PARK_RESERVE] bytes at the top of its kernel stack, which
    the processor's entries from ring 3 stay below, are left alone and the task
    keeps its record. *)
Theorem ring3_call_returns s t :
  TASKS s !! CURRENT s = Some t -> regs_ok (cpu_regs (cpu s)) ->
  let top := kernel_stack_top t in
  let r := cpu_regs (cpu s) in
  RING3_PARK_RESERVE <= top < 2 ^ 64 -> top - RING3_PARK_RESERVE <= Task.rsp r - 48 -> Task.rsp r + 8 <= top ->
  exists s1 t1, enter_usermode s = Ret tt s1 /\ TASKS s1 !! CURRENT s1 = Some t1 /\ kernel_stack_top t1 = top /\
  forall s2 t2, TASKS s2 !! CURRENT s2 = Some t2 -> ring3_kernel_rsp t2 = ring3_kernel_rsp t1 ->
    (forall a, top - RING3_PARK_RESERVE <= a < top -> memory s2 a = memory s1 a) ->
    exists s3, syscall_exit s2 = Ret tt s3 /\ memory s3 = memory s2 /\ TASKS s3 = TASKS s2 /\ CURRENT s3 = CURRENT s2 /\
      cpu_regs (cpu s3) =
        MkRegs (Task.rbx r) (Task.rbp r) (Task.r12 r) (Task.r13 r) (Task.r14 r) (Task.r15 r)
          (Task.rdi (cpu_regs (cpu s2))) (Task.rsp r + 8) (load 8 (memory s) (Task.rsp r)).
Proof.
  intros Ht Hr top r Htop Hlo Hhi. unfold RING3_PARK_RESERVE in *.
  destruct (switch_out_run (memory s) r) as (m1 & E & _ & Hf); [split; lia|done|].
  assert (enter_save (memory s, r) = Ret (Task.rsp r - 48) (m1, with_rsp (Task.rsp r - 48) r)) as Es by exact E.
  set (t1 := set_ring3 (Task.rsp r - 48) t).
  eexists _, t1. split; [|split; [|split; [done|]]].
  - unfold enter_usermode. fold r. rewrite Es. unfold set_current_ring3_return_rsp, current, alter_task, mbind, st_bind. cbn [TASKS CURRENT].
    by rewrite Ht.
  - cbn. apply list_lookup_insert_eq. by eapply lookup_lt_Some.
  - intros s2 t2 Ht2 Hk Hm. cbn [memory set_tasks] in Hm.
    assert (frame_at (memory s2) (Task.rsp r - 48) (set_rip (load 8 (memory s) (Task.rsp r)) r)) as Hf2.
    { apply (frame_at_ext m1); [|done]. unfold FRAME. intros a Ha. apply Hm. lia. }
    pose proof (switch_in_run (Task.rsp r - 48) (memory s2) (cpu_regs (cpu s2)) _ ltac:(lia) ltac:(unfold FRAME; lia) Hf2) as Ei.
    assert (current_ring3_return_rsp s2 = Ret (Task.rsp r - 48) s2) as Ec.
    { unfold current_ring3_return_rsp, current, task_at, mbind, st_bind, unwrap. rewrite Ht2. cbn. rewrite Hk. done. }
    eexists. unfold syscall_exit. rewrite Ec. change exit_restore with switch_in. rewrite Ei. split; [reflexivity|].
    do 3 (split; [done|]). cbn. unfold FRAME. f_equal. lia.
Qed.

(** ** Witnesses *)
Definition plain_clock (d : RamDisk) : DateTime := MkDateTime 2024 1 2 3 4 5.
Definition native_sys : sys RamDisk :=
  MkSys (MkWorld (mk_machine (fun _ => 0) Pmm.boot_state) [MkTask 0 None "init" 0 0x90000 0 (Some (new_process 0x400000 Native 0))]
           0 7 (MkCpu (MkRegs 1 2 3 4 5 6 7 0x8FF00 0x1000) 0 0 0) None [] ∅ []) Keyboard.boot_state 0 [].
(** A C function that clobbers everything it may *)
Definition make_zero (g : gprs) : gprs := Gprs 0 0 0 0 0 0 0 0 0 0 0 0 0 0 0.
Definition clock_call : gprs := Gprs Syscall.SYS_CLOCK 2 3 4 5 6 7 8 9 10 11 12 13 14 15.
Lemma syscall_entry_transparent_witness : exists s' : entry_state,
  run plain_clock 0x80000 (fun _ g => make_zero g) syscall_entry (MkEntry clock_call 0xFFF0000 0 [] native_sys) =
    Some (ToUser 3 11 s') /\ rax (regs s') = 7 /\ rsp s' = 0xFFF0000.
Proof.
  destruct (syscall_entry_transparent plain_clock 0x80000 (fun _ g => make_zero g) (MkEntry clock_call 0xFFF0000 0 [] native_sys)
    0 native_sys eq_refl 7 native_sys eq_refl) as (s' & E & _ & Hsp & Hr & _).
  exists s'. split; [exact E|]. split; [exact Hr|exact Hsp].
Defined.
Lemma ring3_call_returns_witness : exists s1 : Sched, enter_usermode (sched_of (s_world native_sys)) = Ret tt s1.
Proof.
  destruct (ring3_call_returns (sched_of (s_world native_sys)) _ eq_refl ltac:(repeat split; by vm_compute)
    ltac:(split; by vm_compute) ltac:(by vm_compute) ltac:(by vm_compute)) as (s1 & t1 & E & _).
  by exists s1.
Defined.
