(* ===== verification/Confine.v ===== *)
(** * What a native system call can reach

    The pointers of a system call are checked against the mappings of the
    calling process, so what a handler reads and writes lies in them; a process
    affects another only through the other's message slot. *)
From S2P Require Import Prelude EventQueue Bytes Text PhysMem Pmm Paging Disk Rtc Fat Vfs Shm Socket Elf Process Task Spawn.
From S2P Require Import Accounting LinuxAbi Dispatch Syscall.
From S2P Require Keyboard.

Lemma take_min {A} (l : list A) n : take (min (length l) n) l = take n l.
Proof.
  destruct (decide (length l <= n)%nat).
  - by rewrite Nat.min_l, !take_ge by lia.
  - by rewrite Nat.min_r by lia.
Qed.

(** ** Mappings *)
Definition mapping_ok (m : Mapping) : Prop :=
  0 <= m_vaddr m /\ 0 <= m_phys m /\ 0 <= m_len m /\ m_vaddr m + m_len m < 2 ^ 64 /\ m_phys m + m_len m < 2 ^ 64.
Definition inside (ms : list Mapping) (phys len : Z) : Prop :=
  exists m, m ∈ ms /\ m_phys m <= phys /\ phys + len <= m_phys m + m_len m.
Definition mapped (ms : list Mapping) (a : Z) : Prop := inside ms a 1.

Lemma find_elem {A} (f : A -> bool) l x : find f l = Some x -> x ∈ l /\ f x = true.
Proof. intros [Hin Hf]%find_some. split; [by apply list_elem_of_In|done]. Qed.
Lemma translate_in_inside ms vaddr len phys : Forall mapping_ok ms -> 0 <= vaddr -> 0 <= len ->
  translate_in ms vaddr len = Some phys -> inside ms phys len.
Proof.
  intros Hms Hv Hlen. unfold translate_in, checked_add. destruct (_ <? _) eqn:Ec; [|done]. cbn [mbind option_bind].
  destruct (find _ ms) as [m|] eqn:Ef; [|done]. intros [= <-]. apply find_elem in Ef as [Hin Hc].
  rewrite Forall_forall in Hms. destruct (Hms m Hin) as (? & ? & ? & ? & ?).
  apply andb_true_iff in Hc as [Ha%Z.leb_le Hb%Z.leb_le]. rewrite wrap_small in Hb by (unfold in_u; lia). to_prop.
  exists m. split; [done|]. rewrite wrap_small by (unfold in_u; lia). lia.
Qed.

(** ** Resolving a pointer *)
Section confine.
Context {D : Type} `{BlockDevice D} (rtc_now : D -> DateTime).
Implicit Types (s : sys D) (p : Process) (t : Task).
Definition ram_of (s : sys D) : mem := ram (w_machine (s_world s)).
Definition current_task (s : sys D) (t : Task) (p : Process) : Prop :=
  w_tasks (s_world s) !! w_current (s_world s) = Some t /\ process t = Some p.
(** The stack of the current process has been grown: the machine, the frames it
    owns and its stack floor have changed, nothing else. *)
Definition grown (s : sys D) (t : Task) (p : Process) (s1 : sys D) : Prop :=
  s1 = s \/
  exists v p1, s1 = set_world (MkWorld v (<[w_current (s_world s) := set_process (Some p1) t]> (w_tasks (s_world s)))
      (w_current (s_world s)) (w_ticks (s_world s)) (w_cpu (s_world s)) (w_volume (s_world s)) (w_endpoints (s_world s))
      (w_listeners (s_world s)) (w_objects (s_world s))) s /\
    p1 = set_stack_low (stack_low p1) (Process.set_frames (p_frames p1) p).

Lemma grown_current s t p s1 : current_task s t p -> grown s t p s1 -> exists t1 p1,
  current_task s1 t1 p1 /\ mappings p1 = mappings p /\ abi p1 = abi p /\ p_inbox p1 = p_inbox p.
Proof.
  intros [Ht Hp] [->|(v & p1 & -> & E)]; [by exists t, p|].
  eexists _, p1. split; [split; [cbn; apply list_lookup_insert_eq; by eapply lookup_lt_Some|by destruct t]|].
  rewrite E. done.
Qed.
(** Growing the stack always returns, and touches no more. *)
Lemma try_grow_frame pml4 a b0 v p : accounted b0 v (p_frames p) ->
  exists ok v' p', try_grow_stack pml4 a (v, p) = Ret ok (v', p') /\
    p' = set_stack_low (stack_low p') (Process.set_frames (p_frames p') p).
Proof.
  intros Ha. unfold try_grow_stack, mbind, st_bind, self. cbn [snd].
  assert (p = set_stack_low (stack_low p) (Process.set_frames (p_frames p) p)) as Ep by (by destruct p).
  destruct (_ || _); [by eexists _, v, p|].
  set (f := map_range_in _ _ _ _ _). destruct (vt_map_range_in pml4 (page_down a) (stack_phys_for p (page_down a))
    (u64 (stack_low p - page_down a)) RW_USER b0 v (p_frames p) Ha) as (ok & v' & L & E & _). fold f in E.
  unfold on_vm. rewrite E. destruct ok; by eexists _, v', _.
Qed.
Lemma resolve_spec s t p b0 ptr len : current_task s t p -> accounted b0 (w_machine (s_world s)) (p_frames p) ->
  exists s1, resolve_user_buffer ptr len s = Ret (translate_in (mappings p) ptr len) s1 /\ grown s t p s1.
Proof.
  intros [Ht Hp] Ha. set (w := s_world s) in *.
  assert (current_is_process (sched_of w) = true) as Ec.
  { unfold current_is_process, process_of, sched_of. cbn [TASKS CURRENT]. by rewrite Ht; cbn; rewrite Hp. }
  assert (forall w' : world (D := D), w_tasks w' = w_tasks w -> translate w' (w_current w) ptr len = translate_in (mappings p) ptr len) as Et.
  { intros w' E. unfold translate, process_mappings, process_of, sched_of. cbn [TASKS]. rewrite E, Ht. cbn. by rewrite Hp. }
  unfold resolve_user_buffer. fold w. rewrite Ec. unfold on_world, resolve_syscall_ptr. fold w.
  change (current_pid (sched_of w)) with (w_current w). rewrite Et by done.
  destruct (translate_in (mappings p) ptr len) as [phys|] eqn:Etr.
  { exists s. split; [unfold set_world; by destruct s|by left]. }
  rewrite bool_decide_eq_false_2 by naive_solver.
  assert (on_sched current_process_cr3 w = Ret (Some (cr3 t)) w) as E3.
  { destruct w as [[] ts c ? ? ? ? ? ?]. cbn in Ht. unfold on_sched, current_process_cr3, current, task_at, mbind, st_bind, unwrap.
    cbn. by rewrite Ht; cbn; rewrite Hp. }
  rewrite (st_bind_ret _ _ _ _ _ E3).
  destruct (try_grow_frame (cr3 t) ptr b0 (w_machine w) p Ha) as (ok & v' & p' & Eg & Ep').
  assert (with_current_mem (try_grow_stack (cr3 t) ptr) w = Ret (Some ok)
    (MkWorld v' (<[w_current w := set_process (Some p') t]> (w_tasks w)) (w_current w) (w_ticks w) (w_cpu w) (w_volume w)
       (w_endpoints w) (w_listeners w) (w_objects w))) as Em.
  { unfold with_current_mem. rewrite Ht, Hp, Eg. destruct v' as [m' f']. done. }
  rewrite (st_bind_ret _ _ _ _ _ Em). eexists. split.
  2: { right. exists v', p'. split; [reflexivity|done]. }
  destruct ok; [|done]. unfold gets. do 2 f_equal. fold w.
  unfold translate, process_mappings, process_of, sched_of. cbn [TASKS w_tasks].
  rewrite list_lookup_insert_eq by (by eapply lookup_lt_Some). cbn. destruct t; cbn. rewrite Ep'. done.
Qed.

(** ** Draining the keyboard *)
(** The characters among the events, at most [n], and the events after them. *)
Fixpoint chars_of (n : nat) (es : list Keyboard.Event) : list Z * list Keyboard.Event :=
  match n, es with
  | O, _ => ([], es)
  | _, [] => ([], [])
  | S n, Keyboard.Char c :: es => let (cs, rest) := chars_of n es in (u8 c :: cs, rest)
  | _, _ :: es => chars_of n es
  end.
Lemma length_chars_of es : forall n, (length (chars_of n es).1 <= n)%nat.
Proof.
  induction es as [|e es IH]; intros [|n]; cbn; try lia. specialize (IH n) as IHn. specialize (IH (S n)).
  destruct e; cbn; try done. destruct (chars_of n es); cbn in *. lia.
Qed.
Lemma drain_chars fuel : forall n k, Keyboard.keyboard_wf k -> (length (Keyboard.pending k) < fuel)%nat ->
  exists k', drain fuel n k = Ret (chars_of n (Keyboard.pending k)).1 k' /\ Keyboard.keyboard_wf k' /\
    Keyboard.pending k' = (chars_of n (Keyboard.pending k)).2.
Proof.
  induction fuel as [|fuel IH]; intros n k Hk Hl; [lia|]. destruct n as [|n].
  { exists k. by destruct (Keyboard.pending k). }
  destruct (pop_refines Keyboard.BUFFER_CAPACITY (Keyboard.QUEUE k) Hk) as (q & Eq & Hq & Hc).
  cbn [drain]. unfold Keyboard.next_event. rewrite Eq. unfold Keyboard.pending in *. unfold EventQueue.Spec.pop in *.
  destruct (EventQueue.contents _ (Keyboard.QUEUE k)) as [|e es] eqn:E; cbn [fst snd] in *.
  { exists (Keyboard.set_queue q k). done. }
  destruct e; cbn [chars_of].
  1: destruct (IH n (Keyboard.set_queue q k) Hq) as (k' & Ed & Hk' & Hp); [cbn; rewrite Hc; cbn in Hl; lia|].
  1: exists k'; rewrite Ed; cbn in Hp |- *; rewrite Hc in Hp |- *; by destruct (chars_of n es).
  all: destruct (IH (S n) (Keyboard.set_queue q k) Hq) as (k' & Ed & Hk' & Hp); [cbn; rewrite Hc; cbn in Hl; lia|];
    exists k'; rewrite Ed; cbn in Hp |- *; by rewrite Hc in Hp |- *.
Qed.

Lemma pending_short k : Keyboard.keyboard_wf k -> (length (Keyboard.pending k) < DRAIN_FUEL)%nat.
Proof.
  intros (Hl & Hh & Ht). unfold Keyboard.pending, DRAIN_FUEL. rewrite length_contents. unfold queue_len. case_decide; lia.
Qed.

(** ** What a handler did *)
Definition printed (bytes : list Z) (s : sys D) : sys D :=
  MkSys (s_world s) (s_keyboard s) (u64 (WRITE_COUNT s + Z.of_nat (length bytes))) (console s ++ bytes).
Definition stored (phys : Z) (bytes : list Z) (s : sys D) : sys D := set_world (with_ram (fun m => mem_write m phys bytes) (s_world s)) s.
Definition with_keyboard (k : Keyboard.keyboard) (s : sys D) : sys D := MkSys (s_world s) k (WRITE_COUNT s) (console s).
Definition set_message (j : nat) (t : Task) (p : Process) (m : option (list Z)) (s : sys D) : sys D :=
  let w := s_world s in
  set_world (MkWorld (w_machine w) (<[j := set_process (Some (Process.set_inbox m p)) t]> (w_tasks w)) (w_current w) (w_ticks w)
    (w_cpu w) (w_volume w) (w_endpoints w) (w_listeners w) (w_objects w)) s.
(** The request is refused: an unknown number, the wrong descriptor, a buffer
    the caller does not own, or a destination that is not a running process. *)
Definition refused (ms : list Mapping) (num a1 a2 a3 : Z) (s : sys D) : Prop :=
  num ∉ [SYS_WRITE; SYS_READ; SYS_CLOCK; SYS_SEND; SYS_RECV] \/
  (num = SYS_WRITE /\ a1 <> FD_STDOUT /\ a1 <> FD_STDERR) \/ (num = SYS_READ /\ a1 <> FD_STDIN) \/
  (num ∈ [SYS_WRITE; SYS_READ; SYS_SEND] /\ translate_in ms a2 a3 = None) \/
  (num = SYS_RECV /\ translate_in ms a1 a2 = None) \/
  (num = SYS_SEND /\ forall p', process_of (sched_of (s_world s)) (Z.to_nat a1) = Some p' -> is_exited p' = true).
(** What a native system call does once its pointer is resolved, with its
    result; [p] is the calling process. *)
Inductive effect (p : Process) (num a1 a2 a3 : Z) (s : sys D) : Z -> sys D -> Prop :=
| eff_write phys : num = SYS_WRITE -> a1 = FD_STDOUT \/ a1 = FD_STDERR -> translate_in (mappings p) a2 a3 = Some phys ->
    effect p num a1 a2 a3 s a3 (printed (mem_read (ram_of s) phys (Z.to_nat a3)) s)
| eff_read phys k : num = SYS_READ -> a1 = FD_STDIN -> translate_in (mappings p) a2 a3 = Some phys ->
    let r := chars_of (Z.to_nat a3) (Keyboard.pending (s_keyboard s)) in
    Keyboard.pending k = r.2 ->
    effect p num a1 a2 a3 s (Z.of_nat (length r.1)) (stored phys r.1 (with_keyboard k s))
| eff_clock : num = SYS_CLOCK -> effect p num a1 a2 a3 s (w_ticks (s_world s)) s
| eff_send phys t' p' : num = SYS_SEND -> translate_in (mappings p) a2 a3 = Some phys ->
    w_tasks (s_world s) !! Z.to_nat a1 = Some t' -> process t' = Some p' -> is_exited p' = false ->
    effect p num a1 a2 a3 s 0 (set_message (Z.to_nat a1) t' p' (Some (mem_read (ram_of s) phys (Z.to_nat a3))) s)
| eff_recv phys message t1 : num = SYS_RECV -> translate_in (mappings p) a1 a2 = Some phys ->
    current_task s t1 p -> p_inbox p = Some message ->
    effect p num a1 a2 a3 s (Z.min (Z.of_nat (length message)) a2)
      (stored phys (take (Z.to_nat a2) message) (set_message (w_current (s_world s)) t1 p None s))
| eff_empty phys t1 : num = SYS_RECV -> translate_in (mappings p) a1 a2 = Some phys -> p_inbox p = None ->
    current_task s t1 p -> effect p num a1 a2 a3 s 0 (set_message (w_current (s_world s)) t1 p None s)
| eff_refused : refused (mappings p) num a1 a2 a3 s -> effect p num a1 a2 a3 s SYSCALL_ERROR s.

(** What lies outside the caller's mappings is not written, and other processes
    keep everything but the message of a destination. *)
Lemma effect_confined p num a1 a2 a3 s v s' : Forall mapping_ok (mappings p) -> 0 <= a1 -> 0 <= a2 -> 0 <= a3 ->
  effect p num a1 a2 a3 s v s' ->
  (forall a, ram_of s' a <> ram_of s a -> mapped (mappings p) a) /\
  (forall j, j <> w_current (s_world s) -> num <> SYS_SEND \/ j <> Z.to_nat a1 ->
     w_tasks (s_world s') !! j = w_tasks (s_world s) !! j).
Proof.
  intros Hms H1 H2 H3 He.
  assert (forall phys vaddr len bytes, 0 <= vaddr -> 0 <= len -> translate_in (mappings p) vaddr len = Some phys ->
    (length bytes <= Z.to_nat len)%nat -> forall m a, mem_write m phys bytes a <> m a -> mapped (mappings p) a) as Hw.
  { intros phys vaddr len bytes Hv Hl Ht Hb m a Ha. destruct (translate_in_inside _ _ _ _ Hms Hv Hl Ht) as (x & Hx & ? & ?).
    unfold mem_write in Ha. destruct (_ && _) eqn:E; [|done]. to_prop. exists x. split; [done|]. lia. }
  inversion He; subst; cbn -[mem_write]; split; intros; try done; try (rewrite list_lookup_insert_ne; [done|naive_solver]).
  - eapply Hw; [| |done| |done]; [done..|apply length_chars_of].
  - eapply Hw; [| |done| |done]; [done..|rewrite length_take; lia].
Qed.

(** ** The handlers *)
Lemma on_sched_message (w : world (D := D)) j bytes :
  on_sched (deliver_message j bytes) w =
  match w_tasks w !! j with
  | Some t' =>
      match process t' with
      | Some p' =>
          if is_exited p' then Ret false w
          else Ret true (MkWorld (w_machine w) (<[j := set_process (Some (Process.set_inbox (Some bytes) p')) t']> (w_tasks w)) (w_current w)
                 (w_ticks w) (w_cpu w) (w_volume w) (w_endpoints w) (w_listeners w) (w_objects w))
      | None => Ret false w
      end
  | None => Ret false w
  end.
Proof.
  destruct w as [[] ts c ? ? ? ? ? ?]. unfold on_sched, deliver_message, process_of. cbn [sched_of TASKS w_tasks].
  destruct (ts !! j) as [t'|] eqn:Ej; cbn; [|done]. destruct (process t') as [p'|]; [|done]. destruct (is_exited p'); [done|].
  unfold alter_task, mbind, st_bind. cbn. by rewrite Ej.
Qed.
Lemma take_message_run (w : world (D := D)) t p : w_tasks w !! w_current w = Some t -> process t = Some p ->
  on_sched take_current_message w = Ret (p_inbox p)
    (MkWorld (w_machine w) (<[w_current w := set_process (Some (Process.set_inbox None p)) t]> (w_tasks w)) (w_current w)
       (w_ticks w) (w_cpu w) (w_volume w) (w_endpoints w) (w_listeners w) (w_objects w)).
Proof.
  intros Ht Hp. destruct w as [[] ts c ? ? ? ? ? ?]. cbn in Ht.
  unfold on_sched, take_current_message, with_current_process, current, task_at, alter_task, mbind, st_bind, unwrap. cbn.
  rewrite Ht; cbn. rewrite Hp; cbn. rewrite Ht. cbn. by destruct (p_inbox p).
Qed.

Lemma abi_run s t p : current_task s t p -> current_abi s = Ret (Some (abi p)) s.
Proof.
  intros [Ht Hp]. destruct s as [[[] ts c ? ? ? ? ? ?] ? ? ?]. cbn in Ht.
  unfold current_abi, on_world, on_sched, current_process_abi, current, task_at, mbind, st_bind, unwrap. cbn. by rewrite Ht; cbn; rewrite Hp.
Qed.

Section handlers.
Context (s : sys D) (t : Task) (p : Process) (b0 : pmm).
Hypothesis Hcur : current_task s t p.
Hypothesis Hacc : accounted b0 (w_machine (s_world s)) (p_frames p).
Hypothesis Hkey : Keyboard.keyboard_wf (s_keyboard s).

(** A handler run on the resolved pointer. *)
Definition handled (num a1 a2 a3 : Z) (o : outcome (sys D) Z) : Prop :=
  exists v s1 s' t1 p1, o = Ret v s' /\ grown s t p s1 /\ current_task s1 t1 p1 /\ mappings p1 = mappings p /\
    effect p1 num a1 a2 a3 s1 v s'.
Lemma handled_refused num a1 a2 a3 : refused (mappings p) num a1 a2 a3 s -> handled num a1 a2 a3 (Ret SYSCALL_ERROR s).
Proof. intros Hr. exists SYSCALL_ERROR, s, s, t, p. do 4 (split; [by try left|]). by apply eff_refused. Qed.
Lemma handled_resolve num a1 a2 a3 ptr len (k : option Z -> ST (sys D) Z) :
  (forall s1 t1 p1, grown s t p s1 -> current_task s1 t1 p1 -> mappings p1 = mappings p -> s_keyboard s1 = s_keyboard s ->
     exists v s', k (translate_in (mappings p) ptr len) s1 = Ret v s' /\ effect p1 num a1 a2 a3 s1 v s') ->
  handled num a1 a2 a3 ((r ← resolve_user_buffer ptr len; k r) s).
Proof.
  intros Hk. destruct (resolve_spec s t p b0 ptr len Hcur Hacc) as (s1 & E & Hg). rewrite (st_bind_ret _ _ _ _ _ E).
  destruct (grown_current s t p s1 Hcur Hg) as (t1 & p1 & Hc1 & Hm & _).
  destruct (Hk s1 t1 p1 Hg Hc1 Hm) as (v & s' & Ek & He); [destruct Hg as [->|(? & ? & -> & _)]; done|].
  by exists v, s1, s', t1, p1.
Qed.

Lemma sys_write_handled a1 a2 a3 : 0 <= a3 -> handled SYS_WRITE a1 a2 a3 (sys_write a1 a2 a3 s).
Proof.
  intros H3. unfold sys_write. destruct (_ && _) eqn:Efd.
  { apply handled_refused. right; left. apply andb_true_iff in Efd as [E1 E2]. to_prop. done. }
  apply handled_resolve. intros s1 t1 p1 Hg Hc Hm _. destruct (translate_in _ a2 a3) as [phys|] eqn:E.
  - exists a3, (printed (mem_read (ram_of s1) phys (Z.to_nat a3)) s1). split.
    + unfold peek, asks, print_bytes, count_written, modify, mbind, st_bind, mret, st_ret, printed, ram_of. cbn [s_world s_keyboard console WRITE_COUNT].
      by rewrite length_mem_read, Z2Nat.id by done.
    + apply eff_write; [done| |by rewrite Hm]. apply andb_false_iff in Efd as [E1|E1]; apply negb_false_iff, Z.eqb_eq in E1; auto.
  - exists SYSCALL_ERROR, s1. split; [done|]. apply eff_refused. rewrite Hm. do 3 right; left. split; [rewrite !elem_of_cons; tauto|done].
Qed.
Lemma sys_read_handled a1 a2 a3 : handled SYS_READ a1 a2 a3 (sys_read a1 a2 a3 s).
Proof.
  unfold sys_read. destruct (negb _) eqn:Efd.
  { apply handled_refused. do 2 right; left. by to_prop. }
  apply handled_resolve. intros s1 t1 p1 Hg Hc Hm Hk. destruct (translate_in _ a2 a3) as [phys|] eqn:E.
  - destruct (drain_chars DRAIN_FUEL (Z.to_nat a3) (s_keyboard s1)) as (k & Ed & _ & Hp); [by rewrite Hk|apply pending_short; by rewrite Hk|].
    eexists _, _. split; [unfold read_keyboard; rewrite Ed; reflexivity|]. apply eff_read; [done|by to_prop|by rewrite Hm|done].
  - exists SYSCALL_ERROR, s1. split; [done|]. apply eff_refused. rewrite Hm. do 3 right; left. split; [rewrite !elem_of_cons; tauto|done].
Qed.
Lemma sys_send_handled a1 a2 a3 : handled SYS_SEND a1 a2 a3 (sys_send a1 a2 a3 s).
Proof.
  unfold sys_send. apply handled_resolve. intros s1 t1 p1 Hg Hc Hm _. destruct (translate_in _ a2 a3) as [phys|] eqn:E.
  2: { exists SYSCALL_ERROR, s1. split; [done|]. apply eff_refused. rewrite Hm. do 3 right; left. split; [rewrite !elem_of_cons; tauto|done]. }
  unfold peek, asks, mbind, st_bind, on_world. rewrite on_sched_message.
  assert (forall p', process_of (sched_of (s_world s1)) (Z.to_nat a1) = Some p' <->
    exists t', w_tasks (s_world s1) !! Z.to_nat a1 = Some t' /\ process t' = Some p') as Hof.
  { intros p'. unfold process_of. cbn [TASKS sched_of]. destruct (_ !! _); cbn; naive_solver. }
  assert (forall s2, s2 = s1 -> (forall p', process_of (sched_of (s_world s1)) (Z.to_nat a1) = Some p' -> is_exited p' = true) ->
    exists v s', Ret SYSCALL_ERROR s2 = Ret v s' /\ effect p1 SYS_SEND a1 a2 a3 s1 v s') as Hno.
  { intros s2 -> Hex. eexists _, _. split; [reflexivity|]. apply eff_refused. do 5 right. done. }
  assert (set_world (s_world s1) s1 = s1) as Esame by by destruct s1.
  destruct (w_tasks (s_world s1) !! _) as [t'|] eqn:Et; [|apply Hno; [done|intros ? (? & ? & _)%Hof; done]].
  destruct (process t') as [p'|] eqn:Ep; [|apply Hno; [done|intros ? (? & ? & ?)%Hof; congruence]].
  destruct (is_exited p') eqn:Ex; [apply Hno; [done|intros ? (? & ? & ?)%Hof; congruence]|].
  eexists _, _. split; [reflexivity|]. apply (eff_send _ _ _ _ _ _ phys t' p'); [done|by rewrite Hm|done..].
Qed.
Lemma sys_recv_handled a1 a2 a3 : 0 <= a2 -> handled SYS_RECV a1 a2 a3 (sys_recv a1 a2 s).
Proof.
  intros H2. unfold sys_recv. apply handled_resolve. intros s1 t1 p1 Hg Hc Hm _. destruct (translate_in _ a1 a2) as [phys|] eqn:E.
  2: { exists SYSCALL_ERROR, s1. split; [done|]. apply eff_refused. rewrite Hm. do 4 right; left. done. }
  destruct Hc as [Ht1 Hp1]. unfold mbind, st_bind, on_world. rewrite (take_message_run _ _ _ Ht1 Hp1).
  destruct (p_inbox p1) as [message|] eqn:Ei.
  - eexists _, _. split; [reflexivity|]. rewrite take_min, Nat2Z.inj_min, Z2Nat.id by done.
    apply (eff_recv p1 SYS_RECV a1 a2 a3 s1 phys message t1); [done|by rewrite Hm|done..].
  - eexists _, _. split; [reflexivity|]. apply (eff_empty p1 SYS_RECV a1 a2 a3 s1 phys t1); [done|by rewrite Hm|done..].
Qed.
End handlers.

End confine.

(** ** Witness: a process prints two bytes it owns *)
Definition sample_process : Process :=
  set_mappings [MkMapping 0x400000 0x5000 0x1000 None] (new_process 0x400000 Native 0).
Definition sample_ram : mem := mem_write (fun _ => 0) 0x5010 [104; 105].
Definition sample_sys : sys RamDisk :=
  MkSys (MkWorld (mk_machine sample_ram small)
           [MkTask 0 None "main" 0 0 0 None; MkTask 0 None "init" 0 0 0 (Some sample_process)] 1 0 sample_cpu None [] ∅ [])
    Keyboard.boot_state 0 [].
Lemma sample_maps : Forall mapping_ok (mappings sample_process).
Proof. repeat constructor; cbn; lia. Qed.
Lemma sample_keys : Keyboard.keyboard_wf Keyboard.boot_state.
Proof. apply wf_new. unfold Keyboard.BUFFER_CAPACITY. lia. Qed.
