(* ===== verification/LinuxFacts.v ===== *)
(** * What Linux programs can do to the kernel

    Two defects of the Linux table, as theorems about its handlers: a read
    behind the end of a file halts the kernel, and closing a shared-memory
    descriptor frees frames that stay mapped in the process. *)
From S2P Require Import Prelude EventQueue Bytes Text PhysMem Pmm Paging Disk Rtc Fat Vfs Shm Socket Elf Process Task Spawn.
From S2P Require Import Accounting Syscall LinuxAbi Dispatch Confine.
From S2P Require Keyboard.

Section linux_facts.
Context {D : Type} `{BlockDevice D} (rtc_now : D -> DateTime).
Implicit Types (s : sys D) (p : Process) (t : Task).

(** ** Running the helpers *)
Definition with_process (p : Process) (t : Task) (s : sys D) : sys D :=
  let w := s_world s in
  set_world (MkWorld (w_machine w) (<[w_current w := set_process (Some p) t]> (w_tasks w)) (w_current w) (w_ticks w)
    (w_cpu w) (w_volume w) (w_endpoints w) (w_listeners w) (w_objects w)) s.
Lemma with_process_current s t p p' : current_task s t p -> current_task (with_process p' t s) (set_process (Some p') t) p'.
Proof. intros [Ht Hp]. split; [cbn; apply list_lookup_insert_eq; by eapply lookup_lt_Some|by destruct t]. Qed.
Lemma alter_process_run s t p f : current_task s t p -> alter_process f s = Ret tt (with_process (f p) t s).
Proof.
  intros [Ht Hp]. destruct s as [[[] ts c ? ? ? ? ? ?] ? ? ?]. cbn in Ht.
  unfold alter_process, Syscall.on_world, on_sched, with_current_process, current, task_at, alter_task, mbind, st_bind, unwrap.
  cbn. rewrite Ht; cbn. rewrite Hp; cbn. by rewrite Ht.
Qed.
Lemma get_fd_run s t p fd : current_task s t p -> get_fd fd s = Ret (fd_ref fd p) s.
Proof. intros [Ht Hp]. unfold get_fd, current_process, mbind, st_bind. rewrite Ht. cbn. by rewrite Hp. Qed.
Lemma resolve_mapped s t p ptr len phys : current_task s t p -> translate_in (mappings p) ptr len = Some phys ->
  resolve_user_buffer ptr len s = Ret (Some phys) s.
Proof.
  intros [Ht Hp] E. unfold resolve_user_buffer, current_is_process, process_of, sched_of. cbn [TASKS CURRENT]. rewrite Ht; cbn. rewrite Hp.
  unfold Syscall.on_world, resolve_syscall_ptr, translate, process_mappings, process_of, sched_of. cbn [TASKS CURRENT]. rewrite Ht; cbn. rewrite Hp; cbn.
  rewrite E. by destruct s.
Qed.
Lemma fd_ref_slot fd p e : fd_ref fd p = Some e -> 0 <= fd /\ (Z.to_nat fd < length (fds p))%nat /\ fds p !! Z.to_nat fd = Some (Some e).
Proof.
  unfold fd_ref. destruct (fd <? 0) eqn:E0; [done|]. destruct (fds p !! Z.to_nat fd) as [o|] eqn:E; [|done]. cbn. intros ->. to_prop.
  split; [lia|]. split; [by eapply lookup_lt_Some|done].
Qed.
Lemma fd_ref_set fd p e e' : fd_ref fd p = Some e -> fd_ref fd (set_fds (<[Z.to_nat fd := Some e']> (fds p)) p) = Some e'.
Proof.
  intros (H0 & Hl & _)%fd_ref_slot. unfold fd_ref. rewrite (proj2 (Z.ltb_ge _ _)) by done. cbn. by rewrite list_lookup_insert_eq.
Qed.
Lemma on_handle_run {A} s t p fd h (f : ST FileHandle A) a h' : current_task s t p -> f h = Ret a h' ->
  on_handle fd h f s = Ret a (with_process (set_fds (<[Z.to_nat fd := Some (File h')]> (fds p)) p) t s).
Proof. intros Hc E. unfold on_handle, put_fd. rewrite E. by rewrite (st_bind_ret _ _ _ _ _ (alter_process_run _ _ _ _ Hc)). Qed.
Lemma on_handle_panic {A} s fd h (f : ST FileHandle A) : f h = Panic -> on_handle fd h f s = Panic.
Proof. intros E. unfold on_handle. by rewrite E. Qed.

Lemma cr3_run s t p : current_task s t p -> Syscall.on_world (on_sched current_process_cr3) s = Ret (Some (cr3 t)) s.
Proof.
  intros [Ht Hp]. destruct s as [[[] ts c ? ? ? ? ? ?] ? ? ?]. cbn in Ht.
  unfold Syscall.on_world, on_sched, current_process_cr3, current, task_at, mbind, st_bind, unwrap. cbn. by rewrite Ht; cbn; rewrite Hp.
Qed.

(** ** Reading behind the end *)
Definition at_offset (h : FileHandle) (c : Z) : FileHandle := MkHandle (path h) (data h) c (dirty h) (Vfs.writable h) (dir_handle h).
Lemma seek_start h off : 0 <= off < 2 ^ 63 -> Vfs.seek (Start off) h = Ret off (at_offset h off).
Proof.
  intros Ho. unfold Vfs.seek, i64, swrap. cbv zeta. rewrite wrap_small by (unfold in_u; lia).
  rewrite (proj2 (Z.ltb_lt _ _)) by lia. by rewrite Z.max_l by lia.
Qed.
Lemma read_behind_end h off n : dir_handle h = false -> 0 <= n -> Z.of_nat (length (data h)) < off ->
  Vfs.read n (at_offset h off) = Panic.
Proof.
  intros Hd Hn Ho. unfold Vfs.read. cbn [dir_handle at_offset cursor data]. rewrite Hd. unfold saturating_sub.
  by rewrite (proj2 (Z.ltb_lt _ _)) by lia.
Qed.

(** The system call panics the kernel. *)
Definition halts (f : ST (sys D) Z) (s : sys D) : Prop := f s = Panic.

(** A Linux program can halt the kernel.  For any open file, [lseek] to an
    offset behind the end succeeds, and the [read] that follows panics; so do
    [pread64] and a file [mmap] at such an offset, where the calls should give
    end of file or an error. *)
Theorem read_behind_end_halts s t p fd h buf count offset phys :
  current_task s t p -> 3 <= fd < 2 ^ 63 -> fd_ref fd p = Some (File h) -> dir_handle h = false ->
  Z.of_nat (length (data h)) < offset < 2 ^ 63 -> 0 <= count -> translate_in (mappings p) buf count = Some phys ->
  (exists s1, sys_lseek fd offset 0 s = Ret offset s1 /\ halts (LinuxAbi.sys_read fd buf count) s1) /\
  halts (sys_pread64 fd buf count offset) s /\
  (forall addr len prot flags, 0 < len <= ISIZE_MAX -> is_set flags MAP_ANONYMOUS = false ->
     halts (sys_mmap addr len prot flags fd offset) s).
Proof.
  intros Hc Hfd Hh Hd Ho Hn Htr. unfold halts. set (p1 := set_fds (<[Z.to_nat fd := Some (File (at_offset h offset))]> (fds p)) p).
  pose proof (with_process_current s t p p1 Hc) as Hc1.
  split_and!.
  - exists (with_process p1 t s). split.
    + unfold sys_lseek. rewrite (proj2 (Z.ltb_ge fd 3)) by lia. cbn [Z.eqb].
      rewrite (st_bind_ret _ _ _ _ _ (get_fd_run _ _ _ _ Hc)), Hh. apply (on_handle_run _ _ _ _ _ _ _ _ Hc). apply seek_start. lia.
    + unfold LinuxAbi.sys_read, resolving, resolve.
      rewrite (st_bind_ret _ _ _ _ _ (resolve_mapped _ _ _ _ _ phys Hc1 Htr)).
      rewrite (proj2 (Z.eqb_neq fd 0)), (proj2 (Z.ltb_ge fd 3)) by lia.
      rewrite (st_bind_ret _ _ _ _ _ (get_fd_run _ _ _ _ Hc1)). unfold p1. rewrite (fd_ref_set _ _ _ _ Hh).
      unfold mbind at 1, st_bind. rewrite on_handle_panic; [done|]. apply read_behind_end; [done|done|lia].
  - unfold sys_pread64, resolving, resolve. rewrite (proj2 (Z.ltb_ge fd 3)) by lia.
    rewrite (st_bind_ret _ _ _ _ _ (resolve_mapped _ _ _ _ _ phys Hc Htr)), (st_bind_ret _ _ _ _ _ (get_fd_run _ _ _ _ Hc)), Hh.
    unfold mbind at 1, st_bind. rewrite on_handle_panic; [done|]. unfold read_at.
    erewrite st_bind_ret by reflexivity. erewrite st_bind_ret by (apply seek_start; lia).
    unfold mbind, st_bind. by rewrite read_behind_end by (cbn [data dir_handle]; done || lia).
  - intros addr len prot flags Hlen Hfl. unfold sys_mmap. rewrite (proj2 (Z.eqb_neq len 0)) by lia.
    assert (Syscall.on_world (on_sched current_process_cr3) s = Ret (Some (cr3 t)) s) as E3 by (by apply (cr3_run s t p)).
    rewrite (st_bind_ret _ _ _ _ _ E3), Hfl. unfold i64, swrap. cbv zeta. rewrite wrap_small by (unfold in_u; lia).
    rewrite (proj2 (Z.ltb_lt fd (2 ^ (64 - 1)))), (proj2 (Z.ltb_ge fd 0)) by lia. cbn [orb].
    rewrite (st_bind_ret _ _ _ _ _ (get_fd_run _ _ _ _ Hc)), Hh. unfold file_content.
    unfold mbind at 1, st_bind at 1. rewrite (st_bind_ret _ _ _ _ _ (get_fd_run _ _ _ _ Hc)), Hh.
    rewrite (proj2 (Z.ltb_ge ISIZE_MAX len)) by lia. unfold mbind at 1, st_bind at 1. rewrite on_handle_panic; [done|].
    rewrite (st_bind_ret _ _ _ _ _ (seek_start h offset ltac:(lia))). apply read_behind_end; [done|lia..].
Qed.

(** ** Closing shared memory that is mapped *)
Lemma last_close sh id o st : Shm.get sh id = Some o -> refcount o = 1 -> phys o = st * FRAME_SIZE -> 0 <= st -> 0 <= pages o ->
  st + pages o <= FRAME_COUNT -> pmm_wf (frames (vm sh)) ->
  exists f', Shm.close id sh = Ret tt (Shm.mk_state (mk_machine (ram (vm sh)) f') (<[Z.to_nat id := None]> (TABLE sh))) /\
    pmm_wf f' /\ forall x, st <= x < st + pages o -> used f' x = false.
Proof.
  intros Hg Hr Hp Hst Hpg Hc Hwf.
  destruct (free_pages_spec (Z.to_nat (pages o)) st (frames (vm sh)) Hwf Hst ltac:(lia)) as (f' & E & Hf' & _ & Hu).
  exists f'. split; [|split; [done|]].
  - unfold Shm.close, get_st, set_slot, lift_pmm, modify, mbind, st_bind. rewrite Hg, Hr.
    change (wrap 64 (1 - 1) =? 0) with true. cbn [vm TABLE Shm.phys Shm.pages ram frames]. rewrite Hp, E. cbn [vm TABLE ram frames]. by rewrite list_insert_insert_eq.
  - intros x Hx. rewrite Hu by (unfold frame_ok; lia). rewrite Z2Nat.id by done.
    by rewrite (proj2 (Z.leb_le _ _)), (proj2 (Z.ltb_lt _ _)) by lia.
Qed.

(** The current process has the mapping and its address space is as it was. *)
Definition keeps_mapping (m : Mapping) (s : sys D) (t : Task) (s' : sys D) : Prop :=
  exists t' p', current_task s' t' p' /\ m ∈ mappings p' /\ cr3 t' = cr3 t /\ ram_of s' = ram_of s.

(** A Linux program can keep freed memory mapped.  A mapping made by [mmap]
    of a shared-memory descriptor holds no reference to the object: closing the
    last descriptor succeeds and frees the object's frames for the next
    allocation, while the process keeps the mapping, its page-table root and,
    since memory is untouched, every page-table entry. *)
Theorem close_frees_mapped_memory s t p fd id c o m st :
  current_task s t p -> 3 <= fd -> fd_ref fd p = Some (ShmFd id c) ->
  Shm.get (objects s) id = Some o -> refcount o = 1 -> phys o = st * FRAME_SIZE -> 0 <= st -> 0 < pages o ->
  st + pages o <= FRAME_COUNT -> pmm_wf (frames (w_machine (s_world s))) ->
  m ∈ mappings p -> m_phys m = phys o -> m_len m = pages o * PAGE_SIZE ->
  exists s', sys_close rtc_now fd s = Ret 0 s' /\ keeps_mapping m s t s' /\
    forall x, st <= x < st + pages o ->
      used (frames (w_machine (s_world s'))) x = false /\ m_phys m <= x * FRAME_SIZE < m_phys m + m_len m.
Proof.
  intros Hc Hfd He Hg Hr Hp Hst Hpg Hfc Hwf Hm Hmp Hml.
  destruct (last_close (objects s) id o st Hg Hr Hp Hst ltac:(lia) Hfc Hwf) as (f' & E & Hf' & Hfree).
  destruct (fd_ref_slot fd p _ He) as (H0 & Hl & Hslot).
  set (p' := set_fds (<[Z.to_nat fd := None]> (fds p)) p).
  unfold sys_close. rewrite (proj2 (Z.ltb_ge fd 3)) by lia. unfold close_current_fd. destruct Hc as [Ht Hpr]. 
  unfold mbind at 1, st_bind at 1. rewrite Ht, Hpr. unfold close_fd. rewrite (proj2 (Z.ltb_ge fd (Z.of_nat FIRST_FILE_FD))) by (unfold FIRST_FILE_FD; lia).
  rewrite Hslot. unfold drop_fd, shm_close. change (shared (sockets (kernel_of (s_world s)))) with (objects s). rewrite E.
  cbv iota beta. fold p'. 
  erewrite st_bind_ret; [|apply (alter_process_run _ t p); split; [exact Ht|exact Hpr]].
  eexists. split; [reflexivity|]. split.
  { eexists _, p'. split; [apply (with_process_current _ t p); split; [exact Ht|exact Hpr]|]. done. }
  intros x Hx. split; [by apply Hfree|]. rewrite Hmp, Hp, Hml. unfold FRAME_SIZE, PAGE_SIZE. lia.
Qed.
End linux_facts.

(** ** Witnesses *)
Definition linux_process (f : FdEntry) : Process :=
  set_fds [None; None; None; Some f] (set_mappings [MkMapping 0x40000000 0x2000 0x1000 (Some 0)] (new_process 0x20000000 Linux 0x600000)).
Definition linux_sys (f : FdEntry) : sys RamDisk :=
  MkSys (MkWorld (mk_machine (fun _ => 0) small) [MkTask 0 None "hello" 0x10000 0x90000 0 (Some (linux_process f))]
           0 0 sample_cpu None [] ∅ [Some (mk_shm 0x2000 1 4096 1)]) Keyboard.boot_state 0 [].
Definition short_file : FileHandle := MkHandle [47; 97] [104; 105] 0 false false false.
Lemma read_behind_end_halts_witness :
  exists s1, sys_lseek 3 10 0 (linux_sys (File short_file)) = Ret 10 s1 /\ LinuxAbi.sys_read 3 0x40000000 16 s1 = Panic.
Proof.
  exact (proj1 (read_behind_end_halts (linux_sys (File short_file)) _ (linux_process (File short_file)) 3 short_file 0x40000000 16 10 0x2000
    (conj eq_refl eq_refl) ltac:(lia) eq_refl eq_refl ltac:(cbn; lia) ltac:(lia) eq_refl)).
Defined.
Lemma close_frees_mapped_memory_witness : exists s',
  sys_close sample_clock 3 (linux_sys (ShmFd 0 0)) = Ret 0 s' /\ used (frames (w_machine (s_world s'))) 2 = false.
Proof.
  destruct (close_frees_mapped_memory sample_clock (linux_sys (ShmFd 0 0)) _ (linux_process (ShmFd 0 0)) 3 0 0 (mk_shm 0x2000 1 4096 1)
    (MkMapping 0x40000000 0x2000 0x1000 (Some 0)) 2 (conj eq_refl eq_refl) ltac:(lia) eq_refl eq_refl eq_refl eq_refl ltac:(lia) ltac:(cbn; lia)
    ltac:(by vm_compute) small_wf ltac:(by left) eq_refl eq_refl) as (s' & E & _ & Hu).
  exists s'. split; [exact E|]. exact (proj1 (Hu 2 ltac:(cbn; lia))).
Defined.
