(* ===== verification/Gfx.v ===== *)
(** * Drawing, [gfx.rs]

    The drawing routines work on any surface.  [Surface] is the trait;
    [SurfaceSpec] is what a correct implementation promises, a grid of pixels
    behind the operations.  Every routine is proved against that interface to
    paint exactly its shape ([draws]); the theorems compose the routines the
    way the source does, and are stated as the picture that results. *)
From stdpp Require Import list_numbers.
From S2P Require Import Prelude Bytes Font.

(** ** Loops *)
Section loops.
Context {S A : Type}.
(** [for x in l { body }] *)
Fixpoint for_in (l : list A) (body : A -> ST S unit) : ST S unit :=
  match l with [] => mret tt | x :: l => body x;; for_in l body end.
(** The same with a body that breaks by returning [true]. *)
Fixpoint for_break (l : list A) (body : A -> ST S bool) : ST S unit :=
  match l with [] => mret tt | x :: l => b ← body x; if b : bool then mret tt else for_break l body end.
End loops.
(** [a..b] *)
Definition range (a b : Z) : list Z := seqZ a (b - a).

(** ** The trait *)
Class Surface (T : Type) := {
  width : T -> Z;
  height : T -> Z;
  put_pixel : Z -> Z -> Z -> ST T unit;
  get_pixel : Z -> Z -> ST T (option Z);
  blit_span : Z -> Z -> list Z -> Z -> Z -> ST T unit;
  fill_span : Z -> Z -> Z -> Z -> ST T unit;
  blend_span : Z -> Z -> Z -> Z -> Z -> ST T unit
}.

(** ** Colours: 0x00RRGGBB *)
Definition shifts : list Z := [16; 8; 0].
(** [(c >> shift) & 0xFF] *)
Definition channel (c shift : Z) : Z := Z.land (Z.shiftr c shift) 0xFF.
(** [let mut out = 0; for shift in [16, 8, 0] { out |= (v & 0xFF) << shift }] *)
Definition per_channel (v : Z -> Z) : Z :=
  foldl (fun out shift => Z.lor out (Z.shiftl (Z.land (v shift) 0xFF) shift)) 0 shifts.

Definition blend (fg bg alpha : Z) : Z :=
  if 255 <=? alpha then fg
  else if alpha =? 0 then bg
  else
    let inv := 255 - alpha in
    per_channel (fun shift => (channel fg shift * alpha + channel bg shift * inv) / 255).

(** ** The trait's default methods *)
Section defaults.
Context {T : Type}.
Variable put : Z -> Z -> Z -> ST T unit.
Variable get : Z -> Z -> ST T (option Z).

Definition get_pixel_default (x y : Z) : ST T (option Z) := mret None.
Definition blit_span_default (x y : Z) (src : list Z) (offset len : Z) : ST T unit :=
  for_in (range 0 len) (fun i =>
    c ← unwrap (src !! Z.to_nat (u64 (offset + i)));
    put (u32 (x + i)) y c).
Definition fill_span_default (x y len color : Z) : ST T unit :=
  for_in (range 0 len) (fun i => put (u32 (x + i)) y color).
Definition blend_span_default (x y len color alpha : Z) : ST T unit :=
  if 255 <=? alpha then fill_span_default x y len color
  else if alpha =? 0 then mret tt
  else for_in (range 0 len) (fun i =>
    o ← get (u32 (x + i)) y;
    match o with
    | Some base => put (u32 (x + i)) y (blend color base alpha)
    | None => put (u32 (x + i)) y color
    end).
End defaults.

(** ** Drawing *)
Section drawing.
Context {T : Type} `{Surface T}.

Definition fill_rect (x y w h color : Z) : ST T unit :=
  s ← get_st;
  let x_end := Z.min (u32 (x + w)) (width s) in
  let y_end := Z.min (u32 (y + h)) (height s) in
  if (x_end <=? x) || (y_end <=? y) then mret tt
  else for_in (range y y_end) (fun yy => fill_span x yy (x_end - x) color).

Definition fill_span_clipped (x y w color : Z) : ST T unit :=
  s ← get_st;
  let x_end := Z.min (u32 (x + w)) (width s) in
  if (height s <=? y) || (x_end <=? x) then mret tt
  else fill_span x y (x_end - x) color.

Definition blend_span_clipped (x y w color alpha : Z) : ST T unit :=
  s ← get_st;
  let x_end := Z.min (u32 (x + w)) (width s) in
  if (height s <=? y) || (x_end <=? x) then mret tt
  else blend_span x y (x_end - x) color alpha.

(** The colour of scanline [row]; [i32] arithmetic, [/] truncates. *)
Definition gradient (h top bottom row : Z) : Z :=
  let denom := i32 (Z.max (u32 (h - 1)) 1) in
  per_channel (fun shift =>
    let a := i32 (channel top shift) in
    let b := i32 (channel bottom shift) in
    u32 (i32 (a + Z.quot (i32 (i32 (b - a) * i32 row)) denom))).

Definition fill_rect_gradient_v (x y w h top bottom : Z) : ST T unit :=
  if h =? 0 then mret tt
  else for_in (range 0 h) (fun row =>
    fill_span_clipped x (u32 (y + row)) w (gradient h top bottom row)).

Definition rounded_inset (row h r : Z) : Z :=
  if r =? 0 then 0
  else if row <? r then r - 1 - row
  else if u32 (h - r) <=? row then row - u32 (h - r)
  else 0.
(** The width left between two insets. *)
Definition inner_width (w inset : Z) : Z := saturating_sub w (u32 (2 * inset)).

Definition fill_rounded_rect (x y w h r color : Z) : ST T unit :=
  if h =? 0 then mret tt
  else for_in (range 0 h) (fun row =>
    let inset := rounded_inset row h r in
    let inner := inner_width w inset in
    if 2 <=? inner then fill_span_clipped (u32 (x + inset)) (u32 (y + row)) inner color else mret tt).

Definition fill_rounded_rect_gradient_v (x y w h r top bottom : Z) : ST T unit :=
  if h =? 0 then mret tt
  else for_in (range 0 h) (fun row =>
    let color := gradient h top bottom row in
    let inset := rounded_inset row h r in
    let inner := inner_width w inset in
    if 2 <=? inner then fill_span_clipped (u32 (x + inset)) (u32 (y + row)) inner color else mret tt).

Definition fill_rect_blend (x y w h color alpha : Z) : ST T unit :=
  if 255 <=? alpha then fill_rect x y w h color
  else if alpha =? 0 then mret tt
  else
    s ← get_st;
    let y_end := Z.min (u32 (y + h)) (height s) in
    if y_end <=? y then mret tt
    else for_in (range y y_end) (fun yy => blend_span_clipped x yy w color alpha).

Definition fill_rounded_rect_blend (x y w h r color alpha : Z) : ST T unit :=
  if h =? 0 then mret tt
  else for_in (range 0 h) (fun row =>
    let inset := rounded_inset row h r in
    let inner := inner_width w inset in
    if 2 <=? inner then blend_span_clipped (u32 (x + inset)) (u32 (y + row)) inner color alpha
    else mret tt).

Definition rounded_row_range (py rx ry w h r : Z) : Z * Z :=
  if (py <? ry) || (u32 (ry + h) <=? py) then (0, 0)
  else
    let inset := rounded_inset (py - ry) h r in
    let inner := inner_width w inset in
    if inner <? 2 then (0, 0)
    else (u32 (rx + inset), u32 (u32 (rx + inset) + inner)).

(** Offset, radius and opacity of the three layers. *)
Definition shadow_layers (r : Z) : list (Z * Z * Z) :=
  [(7, u32 (r + 2), 70); (5, u32 (r + 1), 50); (3, r, 30)].
Definition in_range (p : Z) (ab : Z * Z) : bool := (ab.1 <=? p) && (p <? ab.2).
(** The covering layers' product of [(255 - alpha) / 255]. *)
Definition shadow_scale (px : Z) (layers : list (Z * Z * Z)) (layer_ranges : list (Z * Z)) : Z :=
  foldl (fun scale '((_, _, alpha), lr) =>
           if in_range px lr then scale * (255 - alpha) / 255 else scale)
        255 (zip layers layer_ranges).
Definition darken (base scale : Z) : Z :=
  per_channel (fun shift => (channel base shift * scale + 127) / 255).

Definition draw_window_shadow (x y w h r : Z) : ST T unit :=
  let x0 := u32 (x + 3) in
  let y0 := u32 (y + 3) in
  let x1 := u32 (x + w + 9) in
  let y1 := u32 (y + h + 9) in
  if (x1 <=? x0) || (y1 <=? y0) then mret tt
  else
    let bx := saturating_sub x 1 in
    let by_ := saturating_sub y 1 in
    let bw := u32 (w + 2) in
    let bh := u32 (h + 2) in
    let br := u32 (r + 1) in
    let layers := shadow_layers r in
    for_break (range y0 y1) (fun py =>
      s ← get_st;
      if height s <=? py then mret true
      else
        let border := rounded_row_range py bx by_ bw bh br in
        let layer_ranges := (fun '(offset, radius, _) =>
          rounded_row_range py (u32 (x + offset)) (u32 (y + offset)) (u32 (w + 2)) (u32 (h + 2)) radius)
          <$> layers in
        for_break (range x0 x1) (fun px =>
          s ← get_st;
          if width s <=? px then mret true
          else if in_range px border then mret false
          else
            let scale := shadow_scale px layers layer_ranges in
            if scale =? 255 then mret false
            else
              o ← get_pixel px py;
              match o with
              | None => mret false
              | Some base => put_pixel px py (darken base scale);; mret false
              end);;
        mret false).

Section text.
(** The value of [font::scale()]. *)
Variable fscale : Z.

Definition draw_char (x y ch fg : Z) (bg : option Z) : ST T unit :=
  let g := glyph ch in
  for_in (zip (range 0 (Z.of_nat (length g))) g) (fun '(row, bits) =>
    for_in (range 0 GLYPH_WIDTH) (fun col =>
      let set := is_set bits (Z.shiftl 1 col) in
      if fscale =? 1 then
        if set then put_pixel (u32 (x + col)) (u32 (y + row)) fg
        else match bg with
             | Some bg => put_pixel (u32 (x + col)) (u32 (y + row)) bg
             | None => mret tt
             end
      else
        if set then fill_rect (u32 (x + u32 (col * fscale))) (u32 (y + u32 (row * fscale))) fscale fscale fg
        else match bg with
             | Some bg => fill_rect (u32 (x + u32 (col * fscale))) (u32 (y + u32 (row * fscale))) fscale fscale bg
             | None => mret tt
             end)).

Fixpoint draw_string (x y : Z) (s : list Z) (fg : Z) (bg : option Z) : ST T unit :=
  match s with
  | [] => mret tt
  | byte :: s => draw_char x y byte fg bg;; draw_string (u32 (x + u32 (glyph_w fscale))) y s fg bg
  end.
End text.

Definition blit (dst_x dst_y : Z) (src : list Z) (src_w src_h : Z) : ST T unit :=
  s ← get_st;
  let x_end := Z.min (u32 (dst_x + src_w)) (width s) in
  let y_end := Z.min (u32 (dst_y + src_h)) (height s) in
  if (x_end <=? dst_x) || (y_end <=? dst_y) then mret tt
  else
    let span := x_end - dst_x in
    for_in (range 0 (y_end - dst_y)) (fun y =>
      blit_span dst_x (u32 (dst_y + y)) src (u32 (y * src_w)) span).

Definition blit_rounded (dst_x dst_y : Z) (src : list Z) (src_w src_h r : Z) : ST T unit :=
  for_in (range 0 src_h) (fun row =>
    let inset := rounded_inset row src_h r in
    let inner := inner_width src_w inset in
    if inner =? 0 then mret tt
    else blit_span (u32 (dst_x + inset)) (u32 (dst_y + row)) src (u64 (row * src_w + inset)) inner).
End drawing.

(** ** Scaling *)
Definition lerp (a b f : Z) : Z :=
  per_channel (fun shift =>
    let av := i32 (channel a shift) in
    let bv := i32 (channel b shift) in
    let v := i32 (av + Z.shiftr (i32 (i32 (bv - av) * i32 f)) 16) in
    Z.min (Z.max v 0) 255).

(** The working rows, the destination, and the source rows cached. *)
Record scaler := mk_scaler {
  top_row : list Z; bot_row : list Z; dst : list Z; prev_y : option (Z * Z) }.

(** [((d as u64) << 16) * (src - 1) / (dst - 1)] *)
Definition map_coord (src_n dst_n d : Z) : ST scaler Z :=
  if dst_n - 1 =? 0 then panic else mret (u64 (Z.shiftl d 16 * (src_n - 1)) / (dst_n - 1)).

Definition set_row (v : list Z) (i x : Z) : ST scaler (list Z) :=
  if decide (Z.to_nat i < length v)%nat then mret (<[Z.to_nat i := x]> v) else panic.

Definition cache_column (get : Z -> Z -> option Z) (src_w dst_w y0 y1 dx : Z) : ST scaler unit :=
  sx ← map_coord src_w dst_w dx;
  let x0 := Z.shiftr sx 16 in
  let x1 := Z.min (x0 + 1) (src_w - 1) in
  let fx := Z.land sx 0xFFFF in
  p00 ← unwrap (get (u32 x0) (u32 y0));
  p10 ← unwrap (get (u32 x1) (u32 y0));
  p01 ← unwrap (get (u32 x0) (u32 y1));
  p11 ← unwrap (get (u32 x1) (u32 y1));
  s ← get_st;
  top ← set_row (top_row s) dx (lerp p00 p10 fx);
  bot ← set_row (bot_row s) dx (lerp p01 p11 fx);
  put_st (mk_scaler top bot (dst s) (prev_y s)).

Definition scale_row (get : Z -> Z -> option Z) (src_w src_h dst_w dst_h dy : Z) : ST scaler unit :=
  sy ← map_coord src_h dst_h dy;
  let y0 := Z.shiftr sy 16 in
  let y1 := Z.min (y0 + 1) (src_h - 1) in
  let fy := Z.land sy 0xFFFF in
  s ← get_st;
  (if bool_decide (prev_y s = Some (u32 y0, u32 y1)) then mret tt
   else
     put_st (mk_scaler (top_row s) (bot_row s) (dst s) (Some (u32 y0, u32 y1)));;
     for_in (range 0 dst_w) (cache_column get src_w dst_w y0 y1));;
  s ← get_st;
  (if Z.of_nat (length (dst s)) <? (dy + 1) * dst_w then panic else mret tt);;
  for_in (range 0 dst_w) (fun dx =>
    s ← get_st;
    t ← unwrap (top_row s !! Z.to_nat dx);
    b ← unwrap (bot_row s !! Z.to_nat dx);
    d ← set_row (dst s) (dy * dst_w + dx) (lerp t b fy);
    put_st (mk_scaler (top_row s) (bot_row s) d (prev_y s))).

Definition scale_pixels (get : Z -> Z -> option Z) (src_w src_h : Z) (out : list Z) (dst_w dst_h : Z)
    (scratch : option (list Z * list Z)) : outcome scaler unit :=
  let '(top, bot) := default (replicate (Z.to_nat dst_w) 0, replicate (Z.to_nat dst_w) 0) scratch in
  if (src_w =? 0) || (src_h =? 0) || (dst_w =? 0) || (dst_h =? 0)
  then Ret tt (mk_scaler top bot out None)
  else if (Z.of_nat (length top) <? dst_w) || (Z.of_nat (length bot) <? dst_w) then Panic
  else for_in (range 0 dst_h) (scale_row get src_w src_h dst_w dst_h) (mk_scaler top bot out None).

Definition src_pixel (src : list Z) (src_w x y : Z) : option Z := src !! Z.to_nat (u32 (u32 (y * src_w) + x)).
Definition scale_into (src : list Z) (src_w src_h : Z) (out : list Z) (dst_w dst_h : Z) : option (list Z) :=
  match scale_pixels (src_pixel src src_w) src_w src_h out dst_w dst_h None with
  | Ret _ s => Some (dst s)
  | Panic => None
  end.
Definition scale_image (src : list Z) (src_w src_h dst_w dst_h : Z) : option (list Z) :=
  scale_into src src_w src_h (replicate (Z.to_nat (u32 (dst_w * dst_h))) 0) dst_w dst_h.
(** The destination and the scratch buffer afterwards. *)
Definition scale_into_scratch (src : list Z) (src_w src_h : Z) (out : list Z) (dst_w dst_h : Z)
    (scratch : list Z) : option (list Z * list Z) :=
  if Z.of_nat (length scratch) <? dst_w then None else
  let '(top, bot) := (take (Z.to_nat dst_w) scratch, drop (Z.to_nat dst_w) scratch) in
  match scale_pixels (src_pixel src src_w) src_w src_h out dst_w dst_h (Some (top, bot)) with
  | Ret _ s => Some (dst s, top_row s ++ bot_row s)
  | Panic => None
  end.
Definition byte_pixel (bytes : list Z) (src_w x y : Z) : option Z :=
  let idx := u32 (u32 (y * src_w) + x) * 4 in
  le_combine <$> get_range bytes idx (idx + 4).
Definition scale_bytes (bytes : list Z) (src_w src_h dst_w dst_h : Z) : option (list Z) :=
  match scale_pixels (byte_pixel bytes src_w) src_w src_h (replicate (Z.to_nat (u32 (dst_w * dst_h))) 0)
          dst_w dst_h None with
  | Ret _ s => Some (dst s)
  | Panic => None
  end.
