(* ===== verification/Draw.v ===== *)
(** * What the drawing routines paint

    A correct surface is a grid of pixels behind the trait's operations
    ([SurfaceSpec]).  Every routine of [Gfx.v] then paints a picture: a
    function from a position and the pixel there to the new pixel ([draws]).
    Nothing else changes, and nothing panics. *)
From stdpp Require Import list_numbers.
From S2P Require Import Prelude Bytes Font Gfx.

Definition picture : Type := Z -> Z -> Z -> Z.

(** [m] run on a [W] x [H] surface applies [f] to every pixel. *)
Definition draws_by {T} (ok : T -> Prop) (w h : T -> Z) (pixel : T -> Z -> Z -> Z)
    (W H : Z) (m : ST T unit) (f : picture) : Prop :=
  forall s, ok s -> w s = W -> h s = H ->
  wp m (fun _ s' => ok s' /\ w s' = W /\ h s' = H /\
          forall i j, 0 <= i < W -> 0 <= j < H -> pixel s' i j = f i j (pixel s i j)) s.

(** Column [i] in [a, a + n) of row [y]. *)
Definition in_span (a n y i j : Z) : bool := (j =? y) && ((a <=? i) && (i <? a + n)).

Class SurfaceSpec (T : Type) {surf : Surface T} := {
  ok : T -> Prop;
  pixel : T -> Z -> Z -> Z;
  (** whether [get_pixel] is implemented *)
  readable : bool;
  surface_dims : forall s, ok s -> in_u 32 (width s) /\ in_u 32 (height s);
  put_pixel_spec : forall W H x y c, in_u 32 x -> in_u 32 y ->
    draws_by ok width height pixel W H (put_pixel x y c)
      (fun i j p => if (i =? x) && (j =? y) then c else p);
  get_pixel_spec : forall s x y, ok s -> in_u 32 x -> in_u 32 y ->
    get_pixel x y s =
      Ret (if readable && ((x <? width s) && (y <? height s)) then Some (pixel s x y) else None) s;
  fill_span_spec : forall W H x y n c, in_u 32 x -> in_u 32 y -> 0 <= n -> x + n <= 2 ^ 32 ->
    draws_by ok width height pixel W H (fill_span x y n c)
      (fun i j p => if in_span x n y i j then c else p);
  blend_span_spec : forall W H x y n c a, in_u 32 x -> in_u 32 y -> 0 <= n -> x + n <= 2 ^ 32 ->
    0 <= a -> readable = true ->
    draws_by ok width height pixel W H (blend_span x y n c a)
      (fun i j p => if in_span x n y i j then blend c p a else p);
  blit_span_spec : forall W H x y src off n, in_u 32 x -> in_u 32 y -> 0 <= n -> x + n <= 2 ^ 32 ->
    0 <= off -> off + n <= Z.of_nat (length src) ->
    draws_by ok width height pixel W H (blit_span x y src off n)
      (fun i j p => if in_span x n y i j then src !!! Z.to_nat (off + (i - x)) else p)
}.

Section pictures.
Context {T : Type} {surf : Surface T} {spec : SurfaceSpec T}.

Definition draws (W H : Z) : ST T unit -> picture -> Prop := draws_by ok width height pixel W H.

Lemma draws_id W H : draws W H (mret tt) (fun _ _ p => p).
Proof. intros s Hs HW HH. by apply wp_ret. Qed.
Lemma draws_ext W H m f g :
  draws W H m f -> (forall i j p, 0 <= i < W -> 0 <= j < H -> f i j p = g i j p) -> draws W H m g.
Proof.
  intros Hd He s Hs HW HH. eapply wp_conseq; [by apply Hd|]. intros [] s' (? & ? & ? & Hp).
  split_and!; try done. intros. rewrite Hp by done. by apply He.
Qed.
Lemma draws_seq W H m1 m2 f g :
  draws W H m1 f -> draws W H m2 g -> draws W H (m1;; m2) (fun i j p => g i j (f i j p)).
Proof.
  intros H1 H2 s Hs HW HH. apply wp_bind. eapply wp_conseq; [by apply H1|].
  intros [] s1 (? & ? & ? & Hp1). eapply wp_conseq; [by apply H2|].
  intros [] s2 (? & ? & ? & Hp2). split_and!; try done. intros. by rewrite Hp2, Hp1.
Qed.
Lemma draws_run W H m m' f : (forall s, m s = m' s) -> draws W H m' f -> draws W H m f.
Proof. intros Hm Hd s Hs HW HH. unfold wp. rewrite Hm. by apply Hd. Qed.
Lemma draws_skip W H (b : bool) m f :
  (b = true -> draws W H m f) ->
  draws W H (if b then m else mret tt) (fun i j p => if b then f i j p else p).
Proof. destruct b; [auto|]. intros _. apply draws_id. Qed.
(** Reading the dimensions. *)
Lemma draws_get W H k f :
  (forall s, ok s -> width s = W -> height s = H -> draws W H (k s) f) ->
  draws W H (s ← get_st; k s) f.
Proof. intros Hk s Hs HW HH. by apply (Hk s). Qed.

Lemma range_S a n : 0 <= n -> range a (a + (n + 1)) = range a (a + n) ++ [a + n].
Proof.
  intros. unfold range. replace (a + (n + 1) - a) with (Z.of_nat (S (Z.to_nat n))) by lia.
  rewrite seqZ_S. replace (a + n - a) with (Z.of_nat (Z.to_nat n)) by lia. by rewrite Z2Nat.id by lia.
Qed.
Lemma range_empty a b : b <= a -> range a b = [].
Proof. intros. unfold range. apply seqZ_nil. lia. Qed.
Lemma for_in_app {S A} (l1 l2 : list A) (body : A -> ST S unit) s :
  for_in (l1 ++ l2) body s = (for_in l1 body;; for_in l2 body) s.
Proof.
  revert s. induction l1 as [|x l1 IH]; intros s; [done|]. cbn [for_in app].
  unfold mbind, st_bind in *. destruct (body x s) as [[] s1|]; [|done]. apply IH.
Qed.

(** A loop over lines, each of which paints the pixels that [line] assigns to
    it: the picture of the whole. *)
Lemma draws_lines W H a n (body : Z -> ST T unit) (line : Z -> Z -> Z) (f : Z -> picture) :
  0 <= n ->
  (forall k, a <= k < a + n -> draws W H (body k) (fun i j p => if line i j =? k then f k i j p else p)) ->
  draws W H (for_in (range a (a + n)) body)
    (fun i j p => if in_range (line i j) (a, a + n) then f (line i j) i j p else p).
Proof.
  intros Hn. rewrite <- (Z2Nat.id n Hn). induction (Z.to_nat n) as [|m IH]; intros Hb; unfold in_range in *; simpl in *.
  - rewrite range_empty by lia. eapply draws_ext; [apply draws_id|]. intros i j p _ _. cbv beta.
    destruct (Z.leb_spec a (line i j)), (Z.ltb_spec (line i j) (a + Z.of_nat 0)); simpl; done || lia.
  - change (Z.pos (Pos.of_succ_nat m)) with (Z.of_nat (S m)) in *.
    rewrite Nat2Z.inj_succ in *. unfold Z.succ.
    rewrite range_S by lia. eapply draws_run; [intros s; apply for_in_app|].
    eapply draws_ext; [eapply draws_seq; [apply IH; intros; apply Hb; lia|]|].
    + cbn [for_in]. eapply draws_seq; [apply (Hb (a + Z.of_nat m)); lia|apply draws_id].
    + intros i j p _ _. cbv beta. destruct (Z.eqb_spec (line i j) (a + Z.of_nat m)) as [E|E].
      * rewrite E. rewrite (proj2 (Z.leb_le a _)), (proj2 (Z.ltb_ge _ (a + Z.of_nat m))),
          (proj2 (Z.ltb_lt _ (a + (Z.of_nat m + 1)))) by lia. done.
      * destruct (Z.leb_spec a (line i j)), (Z.ltb_spec (line i j) (a + Z.of_nat m)),
          (Z.ltb_spec (line i j) (a + (Z.of_nat m + 1))); simpl; done || lia.
Qed.

(** Rows numbered from [y], wrapping: row [k] is scanline [u32 (y + k)]. *)
Lemma wrap_row y k j : in_u 32 y -> in_u 32 k -> in_u 32 j -> (j =? u32 (y + k)) = (u32 (j - y) =? k).
Proof.
  unfold in_u, wrap. intros. destruct (Z.eqb_spec j ((y + k) mod 2 ^ 32)), (Z.eqb_spec ((j - y) mod 2 ^ 32) k); zlia.
Qed.
Lemma draws_rows W H y h (body : Z -> ST T unit) (f : Z -> picture) :
  in_u 32 y -> in_u 32 h -> H < 2 ^ 32 ->
  (forall k, 0 <= k < h -> draws W H (body k) (fun i j p => if j =? u32 (y + k) then f k i j p else p)) ->
  draws W H (for_in (range 0 h) body)
    (fun i j p => if u32 (j - y) <? h then f (u32 (j - y)) i j p else p).
Proof.
  intros Hy Hh HH Hb. change h with (0 + h) at 1.
  eapply draws_ext; [apply (draws_lines W H 0 h body (fun _ j => u32 (j - y)) f); [apply Hh|]|].
  - intros k Hk. eapply draws_ext; [apply Hb; lia|]. intros i j p _ Hj. cbv beta.
    rewrite wrap_row by (unfold in_u in *; lia). done.
  - intros i j p _ Hj. cbv beta. unfold in_range. simpl.
    rewrite (proj2 (Z.leb_le 0 _)); [done|]. by apply wrap_bound.
Qed.

(** ** Spans and rectangles *)
(** Column [i] of row [y] in a span clipped by 32-bit arithmetic. *)
Definition in_clip (x w y i j : Z) : bool := (j =? y) && in_range i (x, u32 (x + w)).

Lemma clipped_span W H x y w (m : Z -> ST T unit) (f : picture) :
  in_u 32 x -> in_u 32 y ->
  (forall n, 0 <= n -> x + n <= 2 ^ 32 ->
     draws W H (m n) (fun i j p => if in_span x n y i j then f i j p else p)) ->
  draws W H
    (s ← get_st;
     if (height s <=? y) || (Z.min (u32 (x + w)) (width s) <=? x) then mret tt
     else m (Z.min (u32 (x + w)) (width s) - x))
    (fun i j p => if in_clip x w y i j then f i j p else p).
Proof.
  intros Hx Hy Hm. apply draws_get. intros s Hs HW HH. rewrite HW, HH.
  pose proof (wrap_bound 32 (x + w) ltac:(lia)) as Hb.
  unfold in_clip, in_range. simpl.
  destruct (Z.leb_spec H y) as [E1|E1]; simpl.
  { eapply draws_ext; [apply draws_id|]. intros i j p _ Hj. cbv beta.
    destruct (Z.eqb_spec j y); [lia|done]. }
  destruct (Z.leb_spec (Z.min (u32 (x + w)) W) x) as [E2|E2].
  { eapply draws_ext; [apply draws_id|]. intros i j p Hi _. cbv beta.
    destruct (Z.leb_spec x i), (Z.ltb_spec i (u32 (x + w))); simpl; rewrite ?andb_false_r; done || lia. }
  eapply draws_ext; [apply Hm; unfold in_u in *; lia|]. intros i j p Hi _. cbv beta. unfold in_span.
  destruct (Z.leb_spec x i), (Z.ltb_spec i (u32 (x + w))),
    (Z.ltb_spec i (x + (Z.min (u32 (x + w)) W - x))); done || lia.
Qed.
Lemma draws_fill_span_clipped W H x y w c :
  in_u 32 x -> in_u 32 y ->
  draws W H (fill_span_clipped x y w c) (fun i j p => if in_clip x w y i j then c else p).
Proof.
  intros. unfold fill_span_clipped. apply (clipped_span W H x y w (fun n => fill_span x y n c) (fun _ _ _ => c)); [done..|].
  intros. by apply fill_span_spec.
Qed.
Lemma draws_blend_span_clipped W H x y w c a :
  in_u 32 x -> in_u 32 y -> 0 <= a -> readable = true ->
  draws W H (blend_span_clipped x y w c a) (fun i j p => if in_clip x w y i j then blend c p a else p).
Proof.
  intros. unfold blend_span_clipped. apply (clipped_span W H x y w (fun n => blend_span x y n c a) (fun _ _ p => blend c p a)); [done..|].
  intros. by apply blend_span_spec.
Qed.

(** [x, u32 (x + w)) by [y, u32 (y + h)). *)
Definition in_rect (x y w h i j : Z) : bool :=
  in_range j (y, u32 (y + h)) && in_range i (x, u32 (x + w)).
Lemma draws_fill_rect W H x y w h c :
  in_u 32 x -> in_u 32 y ->
  draws W H (fill_rect x y w h c) (fun i j p => if in_rect x y w h i j then c else p).
Proof.
  intros Hx Hy. apply draws_get. intros s Hs HW HH. rewrite HW, HH.
  pose proof (wrap_bound 32 (x + w) ltac:(lia)) as Hb. pose proof (wrap_bound 32 (y + h) ltac:(lia)) as Hb'.
  destruct (Z.leb_spec (Z.min (u32 (x + w)) W) x) as [E1|E1]; simpl.
  { eapply draws_ext; [apply draws_id|]. intros i j p Hi _. cbv beta. unfold in_rect, in_range. simpl.
    destruct (Z.leb_spec x i), (Z.ltb_spec i (u32 (x + w))); simpl; rewrite ?andb_false_r; done || lia. }
  destruct (Z.leb_spec (Z.min (u32 (y + h)) H) y) as [E2|E2].
  { eapply draws_ext; [apply draws_id|]. intros i j p _ Hj. cbv beta. unfold in_rect, in_range. simpl.
    destruct (Z.leb_spec y j), (Z.ltb_spec j (u32 (y + h))); simpl; rewrite ?andb_false_r; done || lia. }
  replace (Z.min (u32 (y + h)) H) with (y + (Z.min (u32 (y + h)) H - y)) at 1 by lia.
  eapply draws_ext; [apply (draws_lines W H y _ _ (fun _ j => j)
    (fun _ i j p => if in_range i (x, u32 (x + w)) then c else p)); [lia|]|].
  - intros k Hk. eapply draws_ext; [apply fill_span_spec; unfold in_u in *; lia|].
    intros i j p Hi Hj. cbv beta. unfold in_span, in_range. simpl.
    destruct (Z.eqb_spec j k); [|done]. simpl.
    destruct (Z.leb_spec x i), (Z.ltb_spec i (u32 (x + w))),
      (Z.ltb_spec i (x + (Z.min (u32 (x + w)) W - x))); done || lia.
  - intros i j p Hi Hj. cbv beta. unfold in_rect, in_range. simpl.
    destruct (Z.leb_spec y j), (Z.ltb_spec j (u32 (y + h))),
      (Z.ltb_spec j (y + (Z.min (u32 (y + h)) H - y))); done || lia.
Qed.

(** ** Rounded rectangles and gradients *)
(** The columns of row [row] of a rounded rectangle. *)
Definition in_row (x w h r row i : Z) : bool :=
  let inset := rounded_inset row h r in
  let inner := inner_width w inset in
  (2 <=? inner) && in_range i (u32 (x + inset), u32 (u32 (x + inset) + inner)).
Definition in_rounded (x y w h r i j : Z) : bool := (u32 (j - y) <? h) && in_row x w h r (u32 (j - y)) i.

(** A shape painted row by row, each row one clipped span. *)
Lemma rounded_rows W H x y w h r (m : Z -> Z -> Z -> Z -> ST T unit) (f : Z -> picture) :
  in_u 32 y -> in_u 32 h -> H < 2 ^ 32 ->
  (forall row x' y' n, 0 <= row < h -> in_u 32 x' -> in_u 32 y' ->
     draws W H (m row x' y' n) (fun i j p => if in_clip x' n y' i j then f row i j p else p)) ->
  draws W H
    (for_in (range 0 h) (fun row =>
       if 2 <=? inner_width w (rounded_inset row h r)
       then m row (u32 (x + rounded_inset row h r)) (u32 (y + row)) (inner_width w (rounded_inset row h r))
       else mret tt))
    (fun i j p => if in_rounded x y w h r i j then f (u32 (j - y)) i j p else p).
Proof.
  intros Hy Hh HH Hm. eapply draws_ext.
  - apply (draws_rows W H y h _ (fun row i j p => if in_row x w h r row i then f row i j p else p)); [done..|].
    intros row Hrow. eapply draws_ext.
    + apply draws_skip. intros _. apply Hm; [done|apply wrap_bound; lia..].
    + intros i j p _ _. cbv beta. unfold in_clip, in_row. by destruct (2 <=? _), (j =? _).
  - intros i j p _ _. cbv beta. unfold in_rounded. by destruct (u32 (j - y) <? h).
Qed.
Lemma rounded_zero W H x y w r (f : picture) m :
  draws W H (if 0 =? 0 then mret tt else m) (fun i j p => if in_rounded x y w 0 r i j then f i j p else p).
Proof.
  simpl. eapply draws_ext; [apply draws_id|]. intros i j p _ _. unfold in_rounded.
  destruct (Z.ltb_spec (u32 (j - y)) 0); [|done]. pose proof (wrap_bound 32 (j - y) ltac:(lia)). unfold in_u in *. lia.
Qed.

Lemma draws_fill_rounded_rect W H x y w h r c :
  in_u 32 y -> in_u 32 h -> H < 2 ^ 32 ->
  draws W H (fill_rounded_rect x y w h r c) (fun i j p => if in_rounded x y w h r i j then c else p).
Proof.
  intros Hy Hh HH. unfold fill_rounded_rect. destruct (decide (h = 0)) as [->|]; [apply rounded_zero|].
  rewrite (proj2 (Z.eqb_neq h 0)) by done.
  apply (rounded_rows W H x y w h r (fun _ x' y' n => fill_span_clipped x' y' n c) (fun _ _ _ _ => c)); [done..|].
  intros. by apply draws_fill_span_clipped.
Qed.
Lemma draws_fill_rounded_rect_gradient_v W H x y w h r top bottom :
  in_u 32 y -> in_u 32 h -> H < 2 ^ 32 ->
  draws W H (fill_rounded_rect_gradient_v x y w h r top bottom)
    (fun i j p => if in_rounded x y w h r i j then gradient h top bottom (u32 (j - y)) else p).
Proof.
  intros Hy Hh HH. unfold fill_rounded_rect_gradient_v.
  destruct (decide (h = 0)) as [->|]; [apply (rounded_zero W H x y w r (fun _ j _ => gradient 0 top bottom (u32 (j - y))))|].
  rewrite (proj2 (Z.eqb_neq h 0)) by done.
  apply (rounded_rows W H x y w h r (fun row x' y' n => fill_span_clipped x' y' n (gradient h top bottom row))
    (fun row _ _ _ => gradient h top bottom row)); [done..|].
  intros. by apply draws_fill_span_clipped.
Qed.
Lemma draws_fill_rounded_rect_blend W H x y w h r c a :
  in_u 32 y -> in_u 32 h -> H < 2 ^ 32 -> 0 <= a -> readable = true ->
  draws W H (fill_rounded_rect_blend x y w h r c a)
    (fun i j p => if in_rounded x y w h r i j then blend c p a else p).
Proof.
  intros Hy Hh HH Ha Hr. unfold fill_rounded_rect_blend.
  destruct (decide (h = 0)) as [->|]; [apply (rounded_zero W H x y w r (fun _ _ p => blend c p a))|].
  rewrite (proj2 (Z.eqb_neq h 0)) by done.
  apply (rounded_rows W H x y w h r (fun _ x' y' n => blend_span_clipped x' y' n c a) (fun _ _ _ p => blend c p a)); [done..|].
  intros. by apply draws_blend_span_clipped.
Qed.

(** The range [rounded_row_range] precomputes is the row of the shape. *)
Lemma in_row_range i j x y w h r :
  in_u 32 y -> in_u 32 j -> 0 <= i -> y + h < 2 ^ 32 -> 0 <= h ->
  in_range i (rounded_row_range j x y w h r) = in_rounded x y w h r i j.
Proof.
  intros Hy Hj Hi Hyh Hh. unfold rounded_row_range, in_rounded, in_u in *.
  rewrite (wrap_small 32 (y + h)) by (unfold in_u; lia).
  destruct (Z.ltb_spec j y) as [E1|E1]; simpl.
  { rewrite (proj2 (Z.ltb_ge _ _)); [unfold in_range; simpl; lia|].
    unfold wrap. rewrite <- (Z_mod_plus_full (j - y) 1), Z.mod_small by lia. lia. }
  rewrite (wrap_small 32 (j - y)) by (unfold in_u; lia).
  destruct (Z.leb_spec (y + h) j) as [E2|E2].
  { rewrite (proj2 (Z.ltb_ge _ _)) by lia. unfold in_range; simpl; lia. }
  rewrite (proj2 (Z.ltb_lt (j - y) h)) by lia. simpl. unfold in_row.
  destruct (Z.leb_spec 2 (inner_width w (rounded_inset (j - y) h r))),
    (Z.ltb_spec (inner_width w (rounded_inset (j - y) h r)) 2); try lia; [done|].
  unfold in_range; simpl; lia.
Qed.

(** ** Text *)
(** The pixel ([i], [j]) of the glyph cell at ([x], [y]). *)
Definition in_box (x y w h i j : Z) : bool := in_range j (y, y + h) && in_range i (x, x + w).
Definition glyph_bit (ch row col : Z) : bool := is_set (glyph ch !!! Z.to_nat row) (Z.shiftl 1 col).
Definition ink (set : bool) (fg : Z) (bg : option Z) (p : Z) : Z := if set then fg else default p bg.
Definition cell_picture (s x y ch fg : Z) (bg : option Z) : picture := fun i j p =>
  if in_box x y (8 * s) (8 * s) i j then ink (glyph_bit ch ((j - y) / s) ((i - x) / s)) fg bg p else p.

Lemma in_box_div x y s i j :
  1 <= s -> (in_box x y (8 * s) (8 * s) i j = true <->
    (0 <= (j - y) / s < 8 /\ 0 <= (i - x) / s < 8)).
Proof.
  intros Hs. unfold in_box, in_range. cbn [fst snd]. rewrite !andb_true_iff, !Z.leb_le, !Z.ltb_lt.
  assert (forall z, 0 <= z / s < 8 <-> 0 <= z < 8 * s) as Hd.
  { intros z. split; intros [H0 H1].
    - pose proof (Z.mul_div_le z s ltac:(lia)). pose proof (Z.mod_pos_bound z s ltac:(lia)).
      pose proof (Z.div_mod z s ltac:(lia)). split; nia.
    - split; [apply Z.div_pos; lia|]. apply Z.div_lt_upper_bound; lia. }
  rewrite !Hd. lia.
Qed.
(** One block of a glyph: [s] by [s] pixels. *)
Definition block_draw (s x y : Z) (set : bool) (fg : Z) (bg : option Z) (m : Z -> ST T unit) : ST T unit :=
  if set then m fg else match bg with Some bg => m bg | None => mret tt end.
Lemma draws_block W H x y s set fg bg (m : Z -> ST T unit) :
  (forall c, draws W H (m c) (fun i j p => if in_box x y s s i j then c else p)) ->
  draws W H (block_draw s x y set fg bg m)
    (fun i j p => if in_box x y s s i j then ink set fg bg p else p).
Proof.
  intros Hm. unfold block_draw, ink. destruct set; [apply Hm|]. destruct bg; [apply Hm|].
  eapply draws_ext; [apply draws_id|]. intros. by destruct (in_box _ _ _ _ _ _).
Qed.
Lemma in_box_block x y s row col i j :
  1 <= s ->
  in_box (x + col * s) (y + row * s) s s i j = ((j - y) / s =? row) && ((i - x) / s =? col).
Proof.
  intros Hs. unfold in_box, in_range. cbn [fst snd].
  assert (forall z k, ((k * s <=? z) && (z <? k * s + s)) = (z / s =? k)) as Hd.
  { intros z k. pose proof (Z.div_mod z s ltac:(lia)). pose proof (Z.mod_pos_bound z s ltac:(lia)).
    destruct (Z.eqb_spec (z / s) k) as [E|E].
    - rewrite (proj2 (Z.leb_le _ _)), (proj2 (Z.ltb_lt _ _)) by nia. done.
    - apply not_true_is_false. intros [?%Z.leb_le ?%Z.ltb_lt]%andb_true_iff. apply E. nia. }
  rewrite <- !Hd. f_equal; f_equal; (apply Bool.eq_iff_eq_true; rewrite ?Z.leb_le, ?Z.ltb_lt; lia).
Qed.
Lemma for_in_ext {S A} (l : list A) (b1 b2 : A -> ST S unit) s :
  (forall x s, x ∈ l -> b1 x s = b2 x s) -> for_in l b1 s = for_in l b2 s.
Proof.
  revert s. induction l as [|x l IH]; intros s Hb; [done|]. cbn [for_in]. unfold mbind, st_bind.
  rewrite (Hb x s) by (by left). destruct (b2 x s) as [[] s1|]; [|done]. apply IH. intros. apply Hb. by right.
Qed.
Lemma zip_range {A} `{Inhabited A} (l : list A) :
  zip (range 0 (Z.of_nat (length l))) l = (fun k => (k, l !!! Z.to_nat k)) <$> range 0 (Z.of_nat (length l)).
Proof.
  induction l as [|a l IH] using rev_ind; [done|]. rewrite length_app. cbn [length].
  replace (Z.of_nat (length l + 1)) with (0 + (Z.of_nat (length l) + 1)) by lia.
  rewrite range_S, Z.add_0_l by lia. rewrite fmap_app. cbn [fmap list_fmap].
  rewrite zip_with_app; [|unfold range; rewrite length_seqZ; lia]. rewrite IH. f_equal.
  - apply list_fmap_ext. intros ? k [-> Hk]%lookup_seqZ.
    rewrite lookup_total_app_l; [done|lia].
  - cbn [zip_with]. rewrite lookup_total_app_r by lia. by rewrite Nat2Z.id, Nat.sub_diag.
Qed.
Lemma for_in_fmap {S A B} (g : A -> B) (l : list A) (body : B -> ST S unit) s :
  for_in (g <$> l) body s = for_in l (fun x => body (g x)) s.
Proof.
  revert s. induction l as [|x l IH]; intros s; [done|]. cbn [for_in fmap list_fmap]. unfold mbind, st_bind.
  destruct (body (g x) s) as [[] s1|]; [apply IH|done].
Qed.

Lemma draws_draw_char W H s x y ch fg bg :
  1 <= s -> in_u 32 x -> in_u 32 y -> x + 8 * s < 2 ^ 32 -> y + 8 * s < 2 ^ 32 -> 0 <= ch ->
  draws W H (draw_char s x y ch fg bg) (cell_picture s x y ch fg bg).
Proof.
  intros Hs Hx Hy Hxs Hys Hch. unfold draw_char. eapply draws_run.
  { intros st. rewrite zip_range. apply for_in_fmap. }
  rewrite length_glyph by done. eapply draws_ext.
  - apply (draws_lines W H 0 8 _ (fun _ j => (j - y) / s)
      (fun row i j p => if in_range ((i - x) / s) (0, 0 + 8) then ink (glyph_bit ch row ((i - x) / s)) fg bg p else p)); [lia|].
    intros row Hrow. cbv beta iota. unfold GLYPH_WIDTH. change (range 0 8) with (range 0 (0 + 8)). eapply draws_ext.
    + apply (draws_lines W H 0 8 _ (fun i _ => (i - x) / s)
        (fun col i j p => if (j - y) / s =? row then ink (glyph_bit ch row col) fg bg p else p)); [lia|].
      intros col Hcol. cbv beta.
      eapply draws_ext; [apply (draws_run W H _ (block_draw s x y (glyph_bit ch row col) fg bg
          (fun c => if s =? 1 then put_pixel (u32 (x + col)) (u32 (y + row)) c
            else fill_rect (u32 (x + u32 (col * s))) (u32 (y + u32 (row * s))) s s c)));
        [|apply (draws_block W H (x + col * s) (y + row * s) s)]|].
      * intros st. unfold block_draw, glyph_bit. cbv zeta. by destruct (s =? 1), (is_set _ _), bg.
      * intros c. unfold in_u in *.
        assert (0 <= col * s <= 7 * s /\ 0 <= row * s <= 7 * s) as [? ?] by nia. destruct (Z.eqb_spec s 1) as [->|].
        -- rewrite !wrap_small by (unfold in_u; lia). eapply draws_ext; [apply put_pixel_spec; unfold in_u; lia|].
           intros i j p _ _. cbv beta. unfold in_box, in_range. cbn [fst snd].
           destruct (Z.eqb_spec i (x + col)), (Z.eqb_spec j (y + row)), (Z.leb_spec (x + col * 1) i), (Z.ltb_spec i (x + col * 1 + 1)),
             (Z.leb_spec (y + row * 1) j), (Z.ltb_spec j (y + row * 1 + 1)); simpl; done || lia.
        -- rewrite (wrap_small 32 (col * s)), (wrap_small 32 (row * s)) by (unfold in_u; lia).
           rewrite !wrap_small by (unfold in_u; lia).
           eapply draws_ext; [apply draws_fill_rect; unfold in_u; lia|].
           intros i j p _ _. cbv beta. unfold in_rect, in_box. by rewrite !wrap_small by (unfold in_u; lia).
      * intros i j p _ _. cbv beta. rewrite in_box_block by done. by destruct (_ =? row), (_ =? col).
    + intros i j p _ _. cbv beta. by destruct (_ =? row), (in_range _ _).
  - intros i j p _ _. cbv beta. unfold cell_picture. pose proof (in_box_div x y s i j Hs) as Hb. unfold in_range. cbn [fst snd].
    destruct (in_box x y (8 * s) (8 * s) i j).
    + destruct (proj1 Hb eq_refl). by rewrite !(proj2 (Z.leb_le _ _)), !(proj2 (Z.ltb_lt _ _)) by lia.
    + destruct (Z.leb_spec 0 ((j - y) / s)), (Z.ltb_spec ((j - y) / s) (0 + 8)), (Z.leb_spec 0 ((i - x) / s)),
        (Z.ltb_spec ((i - x) / s) (0 + 8)); simpl; try done. exfalso. assert (false = true) by (apply Hb; lia). done.
Qed.

Definition string_picture (s x y : Z) (text : list Z) (fg : Z) (bg : option Z) : picture := fun i j p =>
  if in_box x y (8 * s * Z.of_nat (length text)) (8 * s) i j
  then ink (glyph_bit (text !!! Z.to_nat ((i - x) / (8 * s))) ((j - y) / s) ((i - x) mod (8 * s) / s)) fg bg p
  else p.
Lemma draws_draw_string W H s x y text fg bg :
  1 <= s -> in_u 32 x -> in_u 32 y -> x + 8 * s * Z.of_nat (length text) < 2 ^ 32 -> y + 8 * s < 2 ^ 32 ->
  Forall (fun ch => 0 <= ch) text ->
  draws W H (draw_string s x y text fg bg) (string_picture s x y text fg bg).
Proof.
  intros Hs Hx Hy Hxs Hys Hch. revert x Hx Hxs. induction Hch as [|ch text Hch0 _ IH]; intros x Hx Hxs.
  - eapply draws_ext; [apply draws_id|]. intros i j p _ _. unfold string_picture, in_box, in_range. cbn [fst snd length].
    destruct (Z.leb_spec x i), (Z.ltb_spec i (x + 8 * s * Z.of_nat 0)); rewrite ?andb_false_r; done || lia.
  - cbn [length draw_string] in *. rewrite Nat2Z.inj_succ in Hxs.
    assert (8 * s * Z.succ (Z.of_nat (length text)) = 8 * s + 8 * s * Z.of_nat (length text)) as El by lia.
    assert (0 <= 8 * s * Z.of_nat (length text)) by lia. unfold in_u in *.
    unfold glyph_w, GLYPH_WIDTH. rewrite (wrap_small 32 (8 * s)), (wrap_small 32 (x + 8 * s)) by (unfold in_u; lia).
    eapply draws_ext; [eapply draws_seq; [apply draws_draw_char; unfold in_u; (done || lia)|apply IH; lia]|].
    intros i j p _ _. cbv beta. unfold string_picture, cell_picture, in_box, in_range. cbn [fst snd length].
    rewrite Nat2Z.inj_succ, El.
    destruct (Z.leb_spec y j), (Z.ltb_spec j (y + 8 * s)); cbn [andb]; try done.
    destruct (Z.leb_spec (x + 8 * s) i).
    + rewrite (proj2 (Z.leb_le x i)), (proj2 (Z.ltb_ge i (x + 8 * s))) by lia. cbn [andb].
      replace (x + 8 * s + 8 * s * Z.of_nat (length text)) with (x + (8 * s + 8 * s * Z.of_nat (length text))) by lia.
      destruct (Z.ltb_spec i (x + (8 * s + 8 * s * Z.of_nat (length text)))); [|done].
      replace (i - x) with (i - (x + 8 * s) + 1 * (8 * s)) by lia. rewrite Z.div_add, Z_mod_plus_full by lia.
      assert (0 <= (i - (x + 8 * s)) / (8 * s)) by (apply Z.div_pos; lia).
      replace (Z.to_nat ((i - (x + 8 * s)) / (8 * s) + 1)) with (S (Z.to_nat ((i - (x + 8 * s)) / (8 * s)))) by lia. done.
    + cbn [andb]. destruct (Z.leb_spec x i); [|done]. cbn [andb].
      rewrite (proj2 (Z.ltb_lt i (x + 8 * s))), (proj2 (Z.ltb_lt i (x + (8 * s + 8 * s * Z.of_nat (length text))))) by lia.
      by rewrite (Z.div_small (i - x) (8 * s)), (Z.mod_small (i - x) (8 * s)) by lia.
Qed.

(** ** Copying pixels *)
Lemma draws_blit W H x y src w h :
  in_u 32 x -> in_u 32 y -> 0 <= w -> 0 <= h -> x + w < 2 ^ 32 -> y + h < 2 ^ 32 -> w * h < 2 ^ 32 ->
  w * h <= Z.of_nat (length src) ->
  draws W H (blit x y src w h)
    (fun i j p => if in_box x y w h i j then src !!! Z.to_nat ((j - y) * w + (i - x)) else p).
Proof.
  unfold in_u. intros Hx Hy Hw Hh Hxw Hyh Hwh Hl. apply draws_get. intros s Hs HW HH. rewrite HW, HH. cbv zeta.
  rewrite !wrap_small by (unfold in_u; lia).
  destruct (Z.leb_spec (Z.min (x + w) W) x) as [E1|E1]; cbn [orb].
  { eapply draws_ext; [apply draws_id|]. intros i j p Hi _. cbv beta. unfold in_box, in_range. cbn [fst snd].
    destruct (Z.leb_spec x i), (Z.ltb_spec i (x + w)); simpl; rewrite ?andb_false_r; done || lia. }
  destruct (Z.leb_spec (Z.min (y + h) H) y) as [E2|E2].
  { eapply draws_ext; [apply draws_id|]. intros i j p _ Hj. cbv beta. unfold in_box, in_range. cbn [fst snd].
    destruct (Z.leb_spec y j), (Z.ltb_spec j (y + h)); simpl; done || lia. }
  change (range 0 (Z.min (y + h) H - y)) with (range 0 (0 + (Z.min (y + h) H - y))).
  eapply draws_ext; [apply (draws_lines W H 0 _ _ (fun _ j => j - y)
    (fun k i j p => if in_range i (x, x + w) then src !!! Z.to_nat (k * w + (i - x)) else p)); [lia|]|].
  - intros k Hk. assert (k * w + w <= w * h) by nia. assert (0 <= k * w) by nia.
    rewrite !wrap_small by (unfold in_u; lia).
    eapply draws_ext; [apply blit_span_spec; unfold in_u; lia|].
    intros i j p Hi Hj. cbv beta. unfold in_span, in_range. cbn [fst snd].
    destruct (Z.eqb_spec j (y + k)), (Z.eqb_spec (j - y) k); try lia; [|done]. cbn [andb].
    destruct (Z.leb_spec x i), (Z.ltb_spec i (x + w)), (Z.ltb_spec i (x + (Z.min (x + w) W - x))); done || lia.
  - intros i j p Hi Hj. cbv beta. unfold in_box, in_range. cbn [fst snd].
    destruct (Z.leb_spec y j), (Z.ltb_spec j (y + h)), (Z.leb_spec 0 (j - y)),
      (Z.ltb_spec (j - y) (0 + (Z.min (y + h) H - y))); done || lia.
Qed.
End pictures.

(** Two pixel lists that agree as grids are equal. *)
Lemma grid_list_eq (l1 l2 : list Z) w h :
  0 < w -> 0 <= h -> Z.of_nat (length l1) = w * h -> length l2 = length l1 ->
  (forall x y, 0 <= x < w -> 0 <= y < h -> l1 !! Z.to_nat (y * w + x) = l2 !! Z.to_nat (y * w + x)) -> l1 = l2.
Proof.
  intros Hw Hh Hl1 Hl2 He. apply list_eq. intros i. destruct (decide (i < length l1)%nat) as [Hi|Hi].
  - pose proof (Z.div_mod (Z.of_nat i) w ltac:(lia)). pose proof (Z.mod_pos_bound (Z.of_nat i) w ltac:(lia)).
    assert (0 <= Z.of_nat i / w < h) as Hd by (split; [apply Z.div_pos; lia|apply Z.div_lt_upper_bound; lia]).
    specialize (He (Z.of_nat i mod w) (Z.of_nat i / w) ltac:(lia) Hd).
    replace (Z.to_nat (Z.of_nat i / w * w + Z.of_nat i mod w)) with i in He by lia. done.
  - rewrite !lookup_ge_None_2 by lia. done.
Qed.
Lemma index_bound w h x y : 0 <= x < w -> 0 <= y < h -> 0 <= y * w + x < w * h.
Proof. nia. Qed.

(** ** Loops with an invariant *)
(** A loop invariant for [for k in a..a+n]. *)
Lemma wp_for_range {S} (Inv : Z -> S -> Prop) a n (body : Z -> ST S unit) s :
  0 <= n -> Inv a s ->
  (forall k s, a <= k < a + n -> Inv k s -> wp (body k) (fun _ => Inv (k + 1)) s) ->
  wp (for_in (range a (a + n)) body) (fun _ => Inv (a + n)) s.
Proof.
  intros Hn. unfold range. replace (a + n - a) with n by lia. rewrite <- (Z2Nat.id n Hn). clear Hn.
  revert a s. induction (Z.to_nat n) as [|m IH]; intros a s HI Hb.
  - rewrite Z.add_0_r. by apply wp_ret.
  - rewrite seqZ_cons by lia. replace (Z.pred (Z.of_nat (Datatypes.S m))) with (Z.of_nat m) by lia. cbn [for_in].
    apply wp_bind. eapply wp_conseq; [apply Hb; [lia|done]|]. intros [] s1 H1.
    replace (a + Z.of_nat (Datatypes.S m)) with (Z.succ a + Z.of_nat m) by lia.
    apply IH; [done|]. intros. apply Hb; [lia|done].
Qed.
