(* ===== verification/Shadow.v ===== *)
(** * The window shadow

    [draw_window_shadow] replaces three nested translucent rectangles by one
    pass over the pixels around the window.  The theorem compares it with the
    routine it replaced: the same pixels outside the window's border rectangle
    are painted, and no channel differs by more than two. *)
From stdpp Require Import list_numbers.
From S2P Require Import Prelude Bytes Font Gfx Draw.

(** ** Channels *)
Lemma testbit_255 i : 0 <= i -> Z.testbit 255 i = (i <? 8).
Proof. intros. change 255 with (Z.ones 8). rewrite Z.testbit_ones_nonneg by lia. done. Qed.
Lemma channel_bound c sh : in_u 8 (channel c sh).
Proof.
  unfold channel. change 255 with (Z.ones 8). rewrite Z.land_ones by lia. by apply Z.mod_pos_bound.
Qed.
Lemma channel_per_channel v sh : sh ∈ shifts -> channel (per_channel v) sh = Z.land (v sh) 255.
Proof.
  intros Hsh. unfold per_channel, channel, shifts in *. cbn [foldl].
  apply Z.bits_inj'. intros i Hi.
  rewrite Z.land_spec, (Z.land_spec (v sh)), Z.shiftr_spec, !testbit_255 by lia.
  destruct (Z.ltb_spec i 8); [|by rewrite !andb_false_r]. rewrite !andb_true_r.
  assert (forall a s k, 0 <= k -> 0 <= s -> Z.testbit (Z.shiftl (Z.land a 255) s) k =
    (s <=? k) && (k - s <? 8) && Z.testbit a (k - s)) as Hb.
  { intros a s k Hk Hs. rewrite Z.shiftl_spec by done. destruct (Z.leb_spec s k); simpl.
    - rewrite Z.land_spec, testbit_255 by lia. apply andb_comm.
    - by rewrite Z.testbit_neg_r by lia. }
  assert (0 <= sh) by (rewrite !elem_of_cons, elem_of_nil in Hsh; lia).
  rewrite !Z.lor_spec, Z.bits_0, !Hb by lia. cbn [orb].
  rewrite !elem_of_cons, elem_of_nil in Hsh. destruct Hsh as [->|[->|[->|[]]]];
    repeat match goal with |- context [?a <=? ?b] => destruct (Z.leb_spec a b); try lia end;
    repeat match goal with |- context [?a <? ?b] => destruct (Z.ltb_spec a b); try lia end;
    cbn [andb orb]; rewrite ?orb_false_r; f_equal; lia.
Qed.
Lemma land_255_small x : in_u 8 x -> Z.land x 255 = x.
Proof. intros. change 255 with (Z.ones 8). rewrite Z.land_ones by lia. by apply Z.mod_small. Qed.

(** [blend] mixes each channel, within the two colours' values. *)
Lemma channel_blend fg bg a sh :
  sh ∈ shifts -> 0 <= a -> a <= 255 ->
  channel (blend fg bg a) sh = (channel fg sh * a + channel bg sh * (255 - a)) / 255.
Proof.
  intros Hsh H0 H1. pose proof (channel_bound fg sh) as Hf. pose proof (channel_bound bg sh) as Hb.
  unfold blend. destruct (Z.leb_spec 255 a).
  { assert (a = 255) as -> by lia. rewrite Z.sub_diag, Z.mul_0_r, Z.add_0_r, Z.div_mul by lia. done. }
  destruct (Z.eqb_spec a 0) as [->|].
  { rewrite Z.mul_0_r, Z.add_0_l, Z.sub_0_r, Z.div_mul by lia. done. }
  rewrite channel_per_channel by done. apply land_255_small. unfold in_u in *.
  split; [apply Z.div_pos; nia|]. apply Z.div_lt_upper_bound; nia.
Qed.

(** ** One channel, by the set of covering layers *)
Definition layer_alphas : list Z := [70; 50; 30].
(** Three blends with black, one after the other. *)
Definition layered_channel (cover : list bool) (v : Z) : Z :=
  foldl (fun v '(c, a) => if c : bool then (v * (255 - a)) / 255 else v) v (zip cover layer_alphas).
Definition cover_scale (cover : list bool) : Z :=
  foldl (fun s '(c, a) => if c : bool then s * (255 - a) / 255 else s) 255 (zip cover layer_alphas).
Definition one_pass_channel (cover : list bool) (v : Z) : Z :=
  if cover_scale cover =? 255 then v else (v * cover_scale cover + 127) / 255.
Definition covers : list (list bool) :=
  a ← [true; false]; b ← [true; false]; c ← [true; false]; [[a; b; c]].
Definition close_channel (v : Z) : bool :=
  forallb (fun c => (Z.abs (one_pass_channel c v - layered_channel c v) <=? 2)
             && (one_pass_channel c v <? 256)
             && (0 <=? one_pass_channel c v)) covers.
Lemma channels_close a b c v :
  in_u 8 v ->
  in_u 8 (one_pass_channel [a; b; c] v) /\
  Z.abs (one_pass_channel [a; b; c] v - layered_channel [a; b; c] v) <= 2.
Proof.
  intros Hv. assert (all_below 256 close_channel = true) as Hc by (vm_compute; reflexivity).
  pose proof (all_below_spec 256 close_channel Hc v Hv) as Hv'.
  unfold close_channel in Hv'. rewrite forallb_forall in Hv'.
  assert (In [a; b; c] covers) as Hin by (destruct a, b, c; simpl; tauto). specialize (Hv' _ Hin).
  to_prop. unfold in_u. lia.
Qed.

(** ** Loops that break at the edge of the surface *)
Section shadow.
Context {T : Type} {surf : Surface T} {spec : SurfaceSpec T}.

(** [m] does not break, and paints [f]. *)
Definition paints (W H : Z) (m : ST T bool) (f : picture) : Prop :=
  forall s, ok s -> width s = W -> height s = H ->
  wp m (fun b s' => b = false /\ ok s' /\ width s' = W /\ height s' = H /\
          forall i j, 0 <= i < W -> 0 <= j < H -> pixel s' i j = f i j (pixel s i j)) s.
Lemma draws_paints W H m f : draws W H m f -> paints W H (m;; mret false) f.
Proof.
  intros Hd s Hs HW HH. apply wp_bind. eapply wp_conseq; [by apply Hd|]. intros [] s' Hq. by apply wp_ret.
Qed.
Lemma paints_get W H k f :
  (forall s, ok s -> width s = W -> height s = H -> paints W H (k s) f) -> paints W H (s ← get_st; k s) f.
Proof. intros Hk s Hs HW HH. by apply (Hk s). Qed.
Lemma paints_false W H f :
  (forall i j p, 0 <= i < W -> 0 <= j < H -> f i j p = p) -> paints W H (mret false) f.
Proof. intros Hf s Hs HW HH. apply wp_ret. split_and!; try done. intros. by rewrite Hf. Qed.
Lemma draws_break W H a n bound (body : Z -> ST T bool) (line : Z -> Z -> Z) (f : Z -> picture) :
  0 <= n ->
  (forall i j, 0 <= i < W -> 0 <= j < H -> line i j < bound) ->
  (forall k s, bound <= k -> width s = W -> height s = H -> body k s = Ret true s) ->
  (forall k, a <= k < a + n -> k < bound ->
     paints W H (body k) (fun i j p => if line i j =? k then f k i j p else p)) ->
  draws W H (for_break (range a (a + n)) body)
    (fun i j p => if in_range (line i j) (a, a + n) then f (line i j) i j p else p).
Proof.
  intros Hn Hl Hstop. unfold range, in_range. replace (a + n - a) with n by lia. cbn [fst snd].
  rewrite <- (Z2Nat.id n Hn). clear Hn. revert a. induction (Z.to_nat n) as [|m IH]; intros a Hb.
  - eapply draws_ext; [apply draws_id|]. intros i j p _ _. cbv beta.
    destruct (Z.leb_spec a (line i j)), (Z.ltb_spec (line i j) (a + Z.of_nat 0)); simpl; done || lia.
  - rewrite seqZ_cons by lia. replace (Z.pred (Z.of_nat (S m))) with (Z.of_nat m) by lia. cbn [for_break].
    destruct (Z.le_gt_cases bound a) as [Hab|Hab].
    + intros s Hs HW HH. unfold wp, mbind, st_bind. rewrite Hstop by done. split_and!; try done.
      intros i j Hi Hj. specialize (Hl i j Hi Hj). by rewrite (proj2 (Z.leb_gt _ _)) by lia.
    + intros s Hs HW HH. apply wp_bind. eapply wp_conseq; [by apply (Hb a); [lia|done|..]|].
      intros b s1 (-> & Hs1 & HW1 & HH1 & Hp1).
      eapply wp_conseq; [by apply (IH (Z.succ a)); [intros; apply Hb; lia|..]|].
      intros [] s2 (Hs2 & HW2 & HH2 & Hp2). split_and!; try done.
      intros i j Hi Hj. rewrite Hp2, Hp1 by done.
      destruct (Z.eqb_spec (line i j) a) as [E|E].
      * rewrite (proj2 (Z.leb_gt (Z.succ a) _)) by lia. cbn [andb].
        rewrite (proj2 (Z.leb_le a _)), (proj2 (Z.ltb_lt _ (a + Z.of_nat (S m)))) by lia. simpl. by rewrite E.
      * destruct (Z.leb_spec (Z.succ a) (line i j)), (Z.leb_spec a (line i j)),
          (Z.ltb_spec (line i j) (Z.succ a + Z.of_nat m)), (Z.ltb_spec (line i j) (a + Z.of_nat (S m)));
          simpl; done || lia.
Qed.

(** ** The picture of the shadow *)
(** Which layers cover a pixel. *)
Definition shadow_cover (x y w h r i j : Z) : list bool :=
  (fun '(offset, radius, _) =>
     in_rounded (u32 (x + offset)) (u32 (y + offset)) (u32 (w + 2)) (u32 (h + 2)) radius i j)
  <$> shadow_layers r.
Definition in_border (x y w h r i j : Z) : bool :=
  in_range i (rounded_row_range j (saturating_sub x 1) (saturating_sub y 1) (u32 (w + 2)) (u32 (h + 2)) (u32 (r + 1))).
Definition shadow_picture (x y w h r : Z) : picture := fun i j p =>
  if in_border x y w h r i j then p
  else
    let scale := cover_scale (shadow_cover x y w h r i j) in
    if scale =? 255 then p else darken p scale.

(** What the pass replaced. *)
Definition layered_shadow (x y w h r : Z) : ST T unit :=
  for_in (shadow_layers r) (fun '(offset, radius, alpha) =>
    fill_rounded_rect_blend (u32 (x + offset)) (u32 (y + offset)) (u32 (w + 2)) (u32 (h + 2)) radius 0 alpha).

Definition fits (x w : Z) : Prop := 0 <= x /\ 0 <= w /\ x + w + 9 < 2 ^ 32.

Lemma rounded_inset_bound row h r :
  0 <= row < h -> h < 2 ^ 32 -> 0 <= r < 2 ^ 31 -> 0 <= rounded_inset row h r <= r.
Proof.
  intros Hrow Hh Hr. unfold rounded_inset. destruct (Z.eqb_spec r 0); [lia|].
  destruct (Z.ltb_spec row r); [lia|]. rewrite wrap_small by (unfold in_u; lia).
  destruct (Z.leb_spec (h - r) row); lia.
Qed.
Lemma in_rounded_bounds x y w h r i j :
  0 <= x -> 0 <= w -> x + w < 2 ^ 32 -> 0 <= y -> y + h < 2 ^ 32 -> 0 <= r < 2 ^ 31 -> in_u 32 j ->
  in_rounded x y w h r i j = true -> x <= i < x + w /\ y <= j < y + h.
Proof.
  intros Hx Hw Hxw Hy Hyh Hr Hj Hin. unfold in_rounded in Hin. to_prop.
  pose proof (wrap_bound 32 (j - y) ltac:(lia)) as Hb. unfold in_u in *.
  assert (y <= j /\ u32 (j - y) = j - y) as [Hyj Ew].
  { destruct (Z.le_gt_cases y j).
    - rewrite wrap_small by (unfold in_u; lia). lia.
    - exfalso. assert (u32 (j - y) = j - y + 2 ^ 32); [|lia].
      unfold wrap. rewrite <- (Z_mod_plus_full (j - y) 1). apply Z.mod_small. lia. }
  rewrite Ew in *. unfold in_row, inner_width, in_range, saturating_sub in *. cbn [fst snd] in *. to_prop.
  pose proof (rounded_inset_bound (j - y) h r ltac:(lia) ltac:(lia) Hr) as Hi.
  set (inset := rounded_inset (j - y) h r) in *. rewrite (wrap_small 32 (2 * inset)) in * by (unfold in_u; lia).
  rewrite (wrap_small 32 (x + inset)) in * by (unfold in_u; lia).
  rewrite (wrap_small 32 (x + inset + _)) in * by (unfold in_u; lia). lia.
Qed.

Section picture.
Variables (W H x y w h r : Z).
Hypotheses (HW32 : W < 2 ^ 32) (HH32 : H < 2 ^ 32).
Hypotheses (Hxw : fits x w) (Hyh : fits y h) (Hr : 0 <= r /\ r + 2 < 2 ^ 31) (Hread : readable = true).

Lemma layer_in offset radius i j :
  3 <= offset <= 7 -> 0 <= radius <= r + 2 -> 0 <= i -> in_u 32 j ->
  in_range i (rounded_row_range j (u32 (x + offset)) (u32 (y + offset)) (u32 (w + 2)) (u32 (h + 2)) radius) =
    in_rounded (u32 (x + offset)) (u32 (y + offset)) (u32 (w + 2)) (u32 (h + 2)) radius i j /\
  (in_rounded (u32 (x + offset)) (u32 (y + offset)) (u32 (w + 2)) (u32 (h + 2)) radius i j = true ->
   x + 3 <= i < x + w + 9 /\ y + 3 <= j < y + h + 9).
Proof.
  destruct Hxw as (? & ? & ?), Hyh as (? & ? & ?). intros Ho Hrad Hi Hj.
  rewrite !wrap_small by (unfold in_u; lia). split.
  - apply in_row_range; unfold in_u in *; lia.
  - intros Hin. apply in_rounded_bounds in Hin; unfold in_u in *; lia.
Qed.
Lemma radius_wrap : u32 (r + 2) = r + 2 /\ u32 (r + 1) = r + 1.
Proof. split; apply wrap_small; unfold in_u; lia. Qed.

Lemma shadow_scale_cover i j :
  0 <= i -> in_u 32 j ->
  shadow_scale i (shadow_layers r)
    ((fun '(offset, radius, _) =>
        rounded_row_range j (u32 (x + offset)) (u32 (y + offset)) (u32 (w + 2)) (u32 (h + 2)) radius)
     <$> shadow_layers r) = cover_scale (shadow_cover x y w h r i j).
Proof.
  intros Hi Hj. destruct radius_wrap as [E2 E1]. unfold shadow_scale, shadow_cover, shadow_layers, cover_scale, layer_alphas.
  rewrite E2, E1. cbn [fmap list_fmap zip zip_with foldl].
  rewrite (proj1 (layer_in 7 (r + 2) i j ltac:(lia) ltac:(lia) Hi Hj)),
    (proj1 (layer_in 5 (r + 1) i j ltac:(lia) ltac:(lia) Hi Hj)),
    (proj1 (layer_in 3 r i j ltac:(lia) ltac:(lia) Hi Hj)). done.
Qed.
Lemma no_shadow_outside i j :
  0 <= i -> in_u 32 j -> ~ (x + 3 <= i < x + w + 9 /\ y + 3 <= j < y + h + 9) ->
  cover_scale (shadow_cover x y w h r i j) = 255.
Proof.
  intros Hi Hj Hout. destruct radius_wrap as [E2 E1]. unfold shadow_cover, shadow_layers, cover_scale, layer_alphas.
  rewrite E2, E1. cbn [fmap list_fmap zip zip_with foldl].
  assert (forall o rad, 3 <= o <= 7 -> 0 <= rad <= r + 2 ->
    in_rounded (u32 (x + o)) (u32 (y + o)) (u32 (w + 2)) (u32 (h + 2)) rad i j = false) as Hf.
  { intros o rad Ho Hrad. apply not_true_is_false. intros Ht. apply Hout. by apply (layer_in o rad i j). }
  by rewrite !Hf by lia.
Qed.

(** One pixel of the pass. *)
Lemma shadow_pixel px py :
  in_u 32 px -> in_u 32 py -> px < W -> py < H ->
  paints W H
    (if in_range px (rounded_row_range py (saturating_sub x 1) (saturating_sub y 1) (u32 (w + 2)) (u32 (h + 2)) (u32 (r + 1)))
     then mret false
     else
       let scale := shadow_scale px (shadow_layers r)
         ((fun '(offset, radius, _) =>
             rounded_row_range py (u32 (x + offset)) (u32 (y + offset)) (u32 (w + 2)) (u32 (h + 2)) radius)
          <$> shadow_layers r) in
       if scale =? 255 then mret false
       else
         o ← get_pixel px py;
         match o with
         | None => mret false
         | Some base => put_pixel px py (darken base scale);; mret false
         end)
    (fun i j p => if (if j =? py then i else -1) =? px then shadow_picture x y w h r i j p else p).
Proof.
  intros Hpx Hpy HpxW HpyH. rewrite shadow_scale_cover by (done || apply Hpx).
  change (in_range px _) with (in_border x y w h r px py). cbv zeta.
  assert (forall g : picture, (forall p, g px py p = p) -> paints W H (mret false)
    (fun i j p => if (if j =? py then i else -1) =? px then g i j p else p)) as Hsame.
  { intros g Hg. apply paints_false. intros i j p Hi Hj. destruct (Z.eqb_spec j py) as [->|]; [|destruct (Z.eqb_spec (-1) px); [unfold in_u in *; lia|done]].
    destruct (Z.eqb_spec i px) as [->|]; [apply Hg|done]. }
  destruct (in_border x y w h r px py) eqn:Eb.
  { apply Hsame. intros p. unfold shadow_picture. by rewrite Eb. }
  destruct (cover_scale (shadow_cover x y w h r px py) =? 255) eqn:Es.
  { apply Hsame. intros p. unfold shadow_picture. by rewrite Eb, Es. }
  intros s Hs HW HH. apply wp_bind. unfold wp at 1. rewrite get_pixel_spec by done.
  rewrite Hread, HW, HH, (proj2 (Z.ltb_lt px W)), (proj2 (Z.ltb_lt py H)) by done. cbn [andb].
  apply wp_bind. eapply wp_conseq; [by apply put_pixel_spec|]. intros [] s' (Hs' & HW' & HH' & Hp).
  apply wp_ret. split_and!; try done. intros i j Hi Hj. rewrite Hp by done.
  unfold in_u in *. destruct (Z.eqb_spec j py) as [->|].
  - rewrite andb_true_r. destruct (Z.eqb_spec i px) as [->|]; [|done]. unfold shadow_picture. by rewrite Eb, Es.
  - rewrite andb_false_r. destruct (Z.eqb_spec (-1) px); [lia|done].
Qed.

Lemma draws_shadow : draws W H (draw_window_shadow x y w h r) (shadow_picture x y w h r).
Proof.
  destruct Hxw as (Hx0 & Hw0 & Hxw'), Hyh as (Hy0 & Hh0 & Hyh'). unfold draw_window_shadow. cbv zeta.
  rewrite !(wrap_small 32 (x + 3)), !(wrap_small 32 (y + 3)), !(wrap_small 32 (x + w + 9)),
    !(wrap_small 32 (y + h + 9)) by (unfold in_u; lia).
  rewrite (proj2 (Z.leb_gt (x + w + 9) _)), (proj2 (Z.leb_gt (y + h + 9) _)) by lia. cbn [orb].
  replace (y + h + 9) with (y + 3 + (h + 6)) at 1 by lia.
  eapply draws_ext; [apply (draws_break W H (y + 3) (h + 6) H _ (fun _ j => j)
    (fun _ i j p => if in_range i (x + 3, x + 3 + (w + 6)) then shadow_picture x y w h r i j p else p)); [lia|intros; lia|..]|].
  - intros k s Hk HW HH. unfold mbind, st_bind, get_st. by rewrite HH, (proj2 (Z.leb_le _ _)) by lia.
  - intros py Hpy HpyH. apply paints_get. intros s0 Hs0 HW0 HH0. rewrite HH0, (proj2 (Z.leb_gt H py)) by lia.
    apply draws_paints.
    replace (x + w + 9) with (x + 3 + (w + 6)) by lia.
    eapply draws_ext; [apply (draws_break W H (x + 3) (w + 6) W _ (fun i j => if j =? py then i else -1)
      (fun _ i j p => shadow_picture x y w h r i j p)); [lia|intros i j ? ?; destruct (j =? py); lia|..]|].
    + intros k s Hk HW HH. unfold mbind, st_bind, get_st. by rewrite HW, (proj2 (Z.leb_le _ _)) by lia.
    + intros px Hpx HpxW. apply paints_get. intros s1 Hs1 HW1 HH1. rewrite HW1, (proj2 (Z.leb_gt W px)) by lia.
      assert (in_u 32 px /\ in_u 32 py) as [Hpx32 Hpy32] by (unfold in_u; lia).
      by apply shadow_pixel.
    + intros i j p Hi Hj. cbv beta. destruct (Z.eqb_spec j py) as [->|]; [done|].
      unfold in_range. cbn [fst snd]. by rewrite (proj2 (Z.leb_gt (x + 3) (-1))) by lia.
  - intros i j p Hi Hj. cbv beta. unfold shadow_picture. destruct (in_border x y w h r i j); [by repeat case_match|].
    unfold in_range. cbn [fst snd].
    destruct (Z.leb_spec (y + 3) j), (Z.ltb_spec j (y + 3 + (h + 6))), (Z.leb_spec (x + 3) i),
      (Z.ltb_spec i (x + 3 + (w + 6))); cbn [andb]; try done;
      (rewrite no_shadow_outside by (unfold in_u; lia)); done.
Qed.

Lemma draws_layered :
  draws W H (layered_shadow x y w h r)
    (fun i j p => foldl (fun p '(c, a) => if c : bool then blend 0 p a else p) p
                    (zip (shadow_cover x y w h r i j) layer_alphas)).
Proof.
  destruct Hyh as (? & ? & ?). unfold layered_shadow, shadow_layers. cbn [for_in].
  assert (forall o rad a, 3 <= o <= 7 -> 0 <= a -> draws W H
    (fill_rounded_rect_blend (u32 (x + o)) (u32 (y + o)) (u32 (w + 2)) (u32 (h + 2)) rad 0 a)
    (fun i j p => if in_rounded (u32 (x + o)) (u32 (y + o)) (u32 (w + 2)) (u32 (h + 2)) rad i j
                  then blend 0 p a else p)) as Hd.
  { intros. apply draws_fill_rounded_rect_blend; try done; apply wrap_bound; lia. }
  eapply draws_ext; [eapply draws_seq; [apply Hd; lia|eapply draws_seq; [apply Hd; lia|eapply draws_seq;
    [apply Hd; lia|apply draws_id]]]|].
  intros i j p _ _. done.
Qed.

Lemma shadow_channels i j p sh :
  sh ∈ shifts -> in_border x y w h r i j = false ->
  Z.abs (channel (shadow_picture x y w h r i j p) sh -
         channel (foldl (fun p '(c, a) => if c : bool then blend 0 p a else p) p
                    (zip (shadow_cover x y w h r i j) layer_alphas)) sh) <= 2.
Proof.
  intros Hsh Hb. unfold shadow_picture. rewrite Hb. cbv zeta.
  assert (exists a b c, shadow_cover x y w h r i j = [a; b; c]) as (a & b & c & ->).
  { unfold shadow_cover, shadow_layers. cbn [fmap list_fmap]. by eexists _, _, _. }
  destruct (channels_close a b c (channel p sh) (channel_bound p sh)) as [Hin Hclose].
  assert (channel (if cover_scale [a; b; c] =? 255 then p else darken p (cover_scale [a; b; c])) sh =
    one_pass_channel [a; b; c] (channel p sh)) as ->.
  { unfold one_pass_channel in *. destruct (cover_scale [a; b; c] =? 255); [done|].
    unfold darken. rewrite channel_per_channel by done. by apply land_255_small. }
  assert (forall q al, 0 <= al <= 255 -> channel (blend 0 q al) sh = channel q sh * (255 - al) / 255) as Hbl.
  { intros q al Hal. rewrite channel_blend by (done || lia). f_equal.
    replace (channel 0 sh) with 0; [lia|]. unfold channel. by rewrite Z.shiftr_0_l. }
  replace (channel (foldl _ p _) sh) with (layered_channel [a; b; c] (channel p sh)); [done|].
  unfold layered_channel, layer_alphas. cbn [zip zip_with foldl].
  destruct a, b, c; repeat (rewrite Hbl by lia); reflexivity.
Qed.
End picture.

(** Drawing the window shadow in one pass paints what the three nested
    translucent rectangles it replaced paint: on a surface that can be read
    back, neither panics, pixels inside the window's border rectangle (which the
    frame covers afterwards) are left alone, and everywhere else every colour
    channel of the two results differs by at most 2; pixels that no layer
    covers are not touched by either. *)
Theorem shadow_matches_layers x y w h r s :
  ok s -> readable = true -> fits x w -> fits y h -> 0 <= r -> r + 2 < 2 ^ 31 ->
  exists s1 s2,
    draw_window_shadow x y w h r s = Ret tt s1 /\
    layered_shadow x y w h r s = Ret tt s2 /\
    forall i j, 0 <= i < width s -> 0 <= j < height s ->
      if in_border x y w h r i j then pixel s1 i j = pixel s i j
      else (forall sh, sh ∈ shifts -> Z.abs (channel (pixel s1 i j) sh - channel (pixel s2 i j) sh) <= 2) /\
           (true ∉ shadow_cover x y w h r i j -> pixel s1 i j = pixel s i j /\ pixel s2 i j = pixel s i j).
Proof.
  intros Hs Hread Hxw Hyh Hr0 Hr. destruct (surface_dims s Hs) as [[_ HW] [_ HH]].
  destruct (wp_elim _ _ _ (draws_shadow _ _ x y w h r HW HH Hxw Hyh (conj Hr0 Hr) Hread s Hs eq_refl eq_refl))
    as ([] & s1 & E1 & _ & _ & _ & Hp1).
  destruct (wp_elim _ _ _ (draws_layered _ _ x y w h r HH Hyh Hread s Hs eq_refl eq_refl))
    as ([] & s2 & E2 & _ & _ & _ & Hp2).
  exists s1, s2. split; [done|]. split; [done|]. intros i j Hi Hj. rewrite Hp1, Hp2 by done.
  destruct (in_border x y w h r i j) eqn:Eb; [unfold shadow_picture; by rewrite Eb|].
  split; [intros; by apply shadow_channels|]. intros Hno. unfold shadow_picture. rewrite Eb. cbv zeta.
  assert (exists a b c, shadow_cover x y w h r i j = [a; b; c]) as (a & b & c & E).
  { unfold shadow_cover, shadow_layers. cbn [fmap list_fmap]. by eexists _, _, _. }
  rewrite E in *. clear - Hno. rewrite !elem_of_cons in Hno. destruct a; [tauto|]. destruct b; [tauto|].
  destruct c; [tauto|]. done.
Qed.
End shadow.
