(* ===== verification/Scale.v ===== *)
(** * Image scaling

    [scale_pixels] keeps two working rows and recomputes them only when the
    source rows change.  The reference [bilinear] computes every destination
    pixel on its own; the theorem says the results are the same, whatever the
    scratch buffers held, and that no index is out of range. *)
From stdpp Require Import list_numbers.
From S2P Require Import Prelude Bytes Font Gfx Draw Shadow.

(** ** The reference *)
(** 16.16 fixed-point source coordinate of destination coordinate [d]. *)
Definition src_coord (src_n dst_n d : Z) : Z := d * 2 ^ 16 * (src_n - 1) / (dst_n - 1).
Definition bilinear (img : Z -> Z -> Z) (sw sh dw dh dx dy : Z) : Z :=
  let sx := src_coord sw dw dx in
  let sy := src_coord sh dh dy in
  let x0 := sx / 2 ^ 16 in let x1 := Z.min (x0 + 1) (sw - 1) in
  let y0 := sy / 2 ^ 16 in let y1 := Z.min (y0 + 1) (sh - 1) in
  lerp (lerp (img x0 y0) (img x1 y0) (sx mod 2 ^ 16))
       (lerp (img x0 y1) (img x1 y1) (sx mod 2 ^ 16)) (sy mod 2 ^ 16).

Lemma src_coord_bound sn dn d :
  1 <= sn -> 2 <= dn -> 0 <= d < dn -> 0 <= src_coord sn dn d <= (sn - 1) * 2 ^ 16.
Proof.
  intros Hs Hd Hx. unfold src_coord. split; [apply Z.div_pos; nia|].
  apply Z.div_le_upper_bound; nia.
Qed.
Lemma map_coord_spec sn dn d s :
  1 <= sn -> 2 <= dn -> 0 <= d < dn -> sn * dn <= 2 ^ 48 ->
  map_coord sn dn d s = Ret (src_coord sn dn d) s.
Proof.
  intros Hs Hd Hx Hov. unfold map_coord. rewrite (proj2 (Z.eqb_neq (dn - 1) 0)) by lia.
  rewrite Z.shiftl_mul_pow2 by lia. rewrite wrap_small; [done|]. unfold in_u.
  split; [nia|]. apply (Z.lt_le_trans _ (dn * 2 ^ 16 * sn)); nia.
Qed.
Lemma coord_parts sn dn d :
  1 <= sn < 2 ^ 32 -> 2 <= dn -> 0 <= d < dn ->
  let c := src_coord sn dn d in
  Z.shiftr c 16 = c / 2 ^ 16 /\ Z.land c 0xFFFF = c mod 2 ^ 16 /\
  0 <= c / 2 ^ 16 < sn /\ 0 <= Z.min (c / 2 ^ 16 + 1) (sn - 1) < sn.
Proof.
  intros Hs Hd Hx c. pose proof (src_coord_bound sn dn d ltac:(lia) Hd Hx) as Hc. fold c in Hc.
  split_and!; [by apply Z.shiftr_div_pow2| |apply Z.div_pos; lia|..].
  - change 0xFFFF with (Z.ones 16). by apply Z.land_ones.
  - apply Z.div_lt_upper_bound; lia.
  - assert (0 <= c / 2 ^ 16) by (apply Z.div_pos; lia). lia.
  - lia.
Qed.

(** ** One destination row *)
Section scaling.
Variables (get : Z -> Z -> option Z) (img : Z -> Z -> Z) (sw sh dw dh : Z).
Hypotheses (Hsw : 1 <= sw < 2 ^ 32) (Hsh : 1 <= sh < 2 ^ 32) (Hdw : 2 <= dw) (Hdh : 2 <= dh).
Hypotheses (Hxo : sw * dw <= 2 ^ 48) (Hyo : sh * dh <= 2 ^ 48).
Hypothesis Hget : forall x y, 0 <= x < sw -> 0 <= y < sh -> get x y = Some (img x y).

(** Working-row entry [dx] for source row [y]. *)
Definition mixed (y dx : Z) : Z :=
  let sx := src_coord sw dw dx in
  lerp (img (sx / 2 ^ 16) y) (img (Z.min (sx / 2 ^ 16 + 1) (sw - 1)) y) (sx mod 2 ^ 16).
Definition filled (row : list Z) (y n : Z) : Prop :=
  dw <= Z.of_nat (length row) /\ forall dx, 0 <= dx < n -> row !! Z.to_nat dx = Some (mixed y dx).

Lemma filled_insert row y n v :
  0 <= n < dw -> filled row y n -> v = mixed y n -> filled (<[Z.to_nat n := v]> row) y (n + 1).
Proof.
  intros Hn [Hl Hf] ->. split; [by rewrite length_insert|]. intros dx Hdx.
  destruct (decide (dx = n)) as [->|].
  - apply list_lookup_insert_eq. lia.
  - rewrite list_lookup_insert_ne by lia. apply Hf. lia.
Qed.
Lemma set_row_spec v i x s :
  0 <= i < Z.of_nat (length v) -> set_row v i x s = Ret (<[Z.to_nat i := x]> v) s.
Proof. intros Hi. unfold set_row. by rewrite decide_True by lia. Qed.

Lemma cache_column_spec y0 y1 dx s :
  0 <= y0 < sh -> 0 <= y1 < sh -> 0 <= dx < dw ->
  filled (top_row s) y0 dx -> filled (bot_row s) y1 dx ->
  wp (cache_column get sw dw y0 y1 dx)
    (fun _ s' => filled (top_row s') y0 (dx + 1) /\ filled (bot_row s') y1 (dx + 1) /\
       dst s' = dst s /\ prev_y s' = prev_y s) s.
Proof.
  intros Hy0 Hy1 Hdx Ht Hb. destruct (coord_parts sw dw dx Hsw Hdw Hdx) as (E1 & E2 & Hx0 & Hx1).
  unfold cache_column. apply wp_bind. eapply wp_intro; [apply map_coord_spec; done || lia|]. cbv zeta.
  rewrite E1, E2. rewrite !(wrap_small 32) by (unfold in_u; lia). rewrite !Hget by done.
  unfold wp, unwrap, mbind, st_bind, get_st. destruct Ht as [Htl Htf], Hb as [Hbl Hbf].
  rewrite (set_row_spec (top_row s)), (set_row_spec (bot_row s)) by lia. cbn.
  split_and!; try done; by apply filled_insert.
Qed.

(** The state between rows: the first [k] destination rows are done, and the
    working rows hold what [prev_y] says. *)
Definition rows_done (len : nat) (k : Z) (s : scaler) : Prop :=
  length (dst s) = len /\ dw <= Z.of_nat (length (top_row s)) /\ dw <= Z.of_nat (length (bot_row s)) /\
  (forall dx dy, 0 <= dx < dw -> 0 <= dy < k ->
     dst s !! Z.to_nat (dy * dw + dx) = Some (bilinear img sw sh dw dh dx dy)) /\
  (forall y0 y1, prev_y s = Some (y0, y1) -> filled (top_row s) y0 dw /\ filled (bot_row s) y1 dw).

Lemma write_row_spec len k y0 y1 fy s :
  dw * dh <= Z.of_nat len -> 0 <= k < dh -> rows_done len k s ->
  filled (top_row s) y0 dw -> filled (bot_row s) y1 dw ->
  (forall dx, 0 <= dx < dw -> lerp (mixed y0 dx) (mixed y1 dx) fy = bilinear img sw sh dw dh dx k) ->
  wp (for_in (range 0 dw) (fun dx =>
    s ← get_st;
    t ← unwrap (top_row s !! Z.to_nat dx);
    b ← unwrap (bot_row s !! Z.to_nat dx);
    d ← set_row (dst s) (k * dw + dx) (lerp t b fy);
    put_st (mk_scaler (top_row s) (bot_row s) d (prev_y s))))
  (fun _ s' => rows_done len (k + 1) s') s.
Proof.
  intros Hlen Hk (Hl & Htl & Hbl & Hd & Hc) Ht Hb Hmix. change (range 0 dw) with (range 0 (0 + dw)).
  eapply wp_conseq.
  - apply (wp_for_range (fun n s' => length (dst s') = len /\ top_row s' = top_row s /\ bot_row s' = bot_row s /\
      prev_y s' = prev_y s /\
      forall dx dy, 0 <= dx < dw -> 0 <= dy < k + 1 -> (dy = k -> dx < n) ->
        dst s' !! Z.to_nat (dy * dw + dx) = Some (bilinear img sw sh dw dh dx dy))); [lia| |].
    + split_and!; try done. intros dx dy Hdx Hdy Hlt. apply Hd; [done|]. assert (dy <> k) by (intros ->; lia). lia.
    + intros n s1 Hn (Hl1 & Et & Eb & Ep & Hd1). rewrite Z.add_0_l in Hn. assert (0 <= k * dw + n < dw * dh) by nia.
      apply wp_get. rewrite Et, Eb.
      eapply wp_unwrap; [by apply Ht|]. eapply wp_unwrap; [by apply Hb|].
      apply wp_bind. eapply wp_intro; [apply set_row_spec; lia|]. unfold wp, put_st. cbn [dst top_row bot_row prev_y].
      rewrite length_insert. split_and!; try done. intros dx dy Hdx Hdy Hlt.
      destruct (decide (dy * dw + dx = k * dw + n)) as [E|E].
      * assert (dy = k /\ dx = n) as [-> ->] by nia. rewrite list_lookup_insert_eq by lia. by rewrite Hmix.
      * rewrite list_lookup_insert_ne by nia. apply Hd1; [done..|]. intros ->. specialize (Hlt eq_refl). lia.
  - intros [] s1 (Hl1 & Et & Eb & Ep & Hd1). unfold rows_done. rewrite Et, Eb, Ep. split_and!; try done.
    intros. apply Hd1; lia.
Qed.

(** The working rows after the cache step. *)
Lemma cache_rows_spec len k y0 y1 s :
  0 <= y0 < sh -> 0 <= y1 < sh -> rows_done len k s ->
  wp (if bool_decide (prev_y s = Some (y0, y1)) then mret tt
      else put_st (mk_scaler (top_row s) (bot_row s) (dst s) (Some (y0, y1)));;
           for_in (range 0 dw) (cache_column get sw dw y0 y1))
     (fun _ s' => rows_done len k s' /\ filled (top_row s') y0 dw /\ filled (bot_row s') y1 dw) s.
Proof.
  intros Hy0 Hy1 (Hl & Htl & Hbl & Hd & Hc). destruct (bool_decide _) eqn:E.
  { to_prop. apply wp_ret. split; [done|]. by apply Hc. }
  apply wp_bind. unfold wp at 1, put_st. change (range 0 dw) with (range 0 (0 + dw)). eapply wp_conseq.
  - apply (wp_for_range (fun n s' => filled (top_row s') y0 n /\ filled (bot_row s') y1 n /\ dst s' = dst s /\
      prev_y s' = Some (y0, y1))); [lia| |].
    + split_and!; try done; (split; [done|]); intros; lia.
    + intros n s1 Hn (Ht & Hb & Ed & Ep). eapply wp_conseq; [apply cache_column_spec; done || lia|].
      intros [] s2 (Ht2 & Hb2 & Ed2 & Ep2). rewrite Ed2, Ep2. done.
  - intros [] s1 (Ht & Hb & Ed & Ep). split; [|done]. unfold rows_done. rewrite Ed, Ep.
    split_and!; [done|apply Ht|apply Hb|done|]. intros ? ? [= <- <-]. done.
Qed.

Lemma scale_row_spec len k s :
  dw * dh <= Z.of_nat len -> 0 <= k < dh -> rows_done len k s ->
  wp (scale_row get sw sh dw dh k) (fun _ s' => rows_done len (k + 1) s') s.
Proof.
  intros Hlen Hk Hs. destruct (coord_parts sh dh k Hsh Hdh Hk) as (E1 & E2 & Hy0 & Hy1).
  unfold scale_row. apply wp_bind. eapply wp_intro; [apply map_coord_spec; done || lia|]. cbv zeta.
  rewrite E1, E2. rewrite !(wrap_small 32) by (unfold in_u; lia). apply wp_get.
  apply wp_bind. eapply wp_conseq; [by apply (cache_rows_spec len k)|].
  intros [] s1 (Hs1 & Ht & Hb). apply wp_get. apply wp_bind.
  destruct Hs1 as [Hl Hs1]. rewrite Hl, (proj2 (Z.ltb_ge _ _)) by nia. apply wp_ret.
  eapply (write_row_spec len k); [exact Hlen|exact Hk|by split|exact Ht|exact Hb|]. intros dx Hdx. unfold bilinear, mixed. cbv zeta. reflexivity.
Qed.
End scaling.

(** Reading the same-size image. *)
Lemma lerp_channel a b f sh :
  sh ∈ shifts -> 0 <= f < 2 ^ 16 ->
  channel (lerp a b f) sh = channel a sh + (channel b sh - channel a sh) * f / 2 ^ 16.
Proof.
  intros Hsh Hf. unfold lerp. rewrite channel_per_channel by done. cbv zeta.
  pose proof (channel_bound a sh) as Ha. pose proof (channel_bound b sh) as Hb. unfold in_u in *.
  set (x := channel a sh) in *. set (y := channel b sh) in *.
  assert (forall z, - 2 ^ 31 <= z < 2 ^ 31 -> i32 z = z) as Hi.
  { intros z Hz. unfold swrap, wrap. change (2 ^ (32 - 1)) with (2 ^ 31). destruct (Z.le_gt_cases 0 z).
    - rewrite Z.mod_small by lia. rewrite (proj2 (Z.ltb_lt _ _)) by lia. done.
    - rewrite <- (Z_mod_plus_full z 1), Z.mod_small by lia. rewrite (proj2 (Z.ltb_ge _ _)) by lia. lia. }
  assert (- 255 * 2 ^ 16 <= (y - x) * f <= 255 * 2 ^ 16) by nia.
  rewrite (Hi x), (Hi y), (Hi (y - x)), (Hi f), (Hi ((y - x) * f)) by lia. rewrite Z.shiftr_div_pow2 by lia.
  assert (Z.min x y <= x + (y - x) * f / 2 ^ 16 <= Z.max x y) as Hm.
  { destruct (Z.le_gt_cases x y).
    - assert (0 <= (y - x) * f / 2 ^ 16) by (apply Z.div_pos; nia).
      assert ((y - x) * f / 2 ^ 16 <= y - x) by (apply Z.div_le_upper_bound; nia). lia.
    - assert (y - x <= (y - x) * f / 2 ^ 16) by (apply Z.div_le_lower_bound; nia).
      assert ((y - x) * f / 2 ^ 16 <= 0) by (apply Z.div_le_upper_bound; nia). lia. }
  rewrite Hi by lia. rewrite land_255_small; [lia|]. unfold in_u. lia.
Qed.
Lemma lerp_between a b f sh :
  sh ∈ shifts -> 0 <= f < 2 ^ 16 ->
  Z.min (channel a sh) (channel b sh) <= channel (lerp a b f) sh <= Z.max (channel a sh) (channel b sh).
Proof.
  intros Hsh Hf. rewrite lerp_channel by done. set (x := channel a sh). set (y := channel b sh).
  destruct (Z.le_gt_cases x y).
  - assert (0 <= (y - x) * f / 2 ^ 16) by (apply Z.div_pos; nia).
    assert ((y - x) * f / 2 ^ 16 <= y - x) by (apply Z.div_le_upper_bound; nia). lia.
  - assert (y - x <= (y - x) * f / 2 ^ 16) by (apply Z.div_le_lower_bound; nia).
    assert ((y - x) * f / 2 ^ 16 <= 0) by (apply Z.div_le_upper_bound; nia). lia.
Qed.

Lemma per_channel_ext v w : (forall sh, sh ∈ shifts -> v sh = w sh) -> per_channel v = per_channel w.
Proof.
  intros Hv. unfold per_channel, shifts. cbn [foldl].
  rewrite !Hv by (unfold shifts; rewrite !elem_of_cons; auto). done.
Qed.
Lemma per_channel_id a : per_channel (channel a) = Z.land a 0xFFFFFF.
Proof.
  unfold per_channel, channel, shifts. cbn [foldl]. apply Z.bits_inj'. intros i Hi.
  rewrite !Z.lor_spec, !Z.shiftl_spec, Z.bits_0, (Z.land_spec a) by lia. cbn [orb].
  assert (forall k, Z.testbit (Z.land (Z.land (Z.shiftr a k) 255) 255) (i - k) =
    (k <=? i) && (i <? k + 8) && Z.testbit a i) as Hb.
  { intros k. destruct (Z.leb_spec k i); [|by rewrite Z.testbit_neg_r by lia].
    rewrite !Z.land_spec, Z.shiftr_spec, !testbit_255 by lia. replace (i - k + k) with i by lia.
    destruct (Z.ltb_spec (i - k) 8), (Z.ltb_spec i (k + 8)); try lia; by rewrite ?andb_true_r, ?andb_false_r. }
  rewrite !Hb. change 0xFFFFFF with (Z.ones 24). rewrite Z.testbit_ones_nonneg by lia.
  repeat match goal with |- context [?a <=? ?b] => destruct (Z.leb_spec a b); try lia end;
    repeat match goal with |- context [?a <? ?b] => destruct (Z.ltb_spec a b); try lia end;
    cbn [andb orb]; by destruct (Z.testbit a i).
Qed.
Lemma lerp_zero a b : lerp a b 0 = Z.land a 0xFFFFFF.
Proof.
  rewrite <- per_channel_id. apply per_channel_ext. intros sh _. cbv zeta.
  change (i32 0) with 0. rewrite Z.mul_0_r. change (i32 0) with 0. rewrite Z.shiftr_0_l, Z.add_0_r.
  pose proof (channel_bound a sh) as Ha. set (x := channel a sh) in *. unfold in_u in Ha.
  assert (i32 x = x) as Hi.
  { unfold swrap. rewrite wrap_small by (unfold in_u; lia). by rewrite (proj2 (Z.ltb_lt _ _)) by lia. }
  rewrite !Hi. lia.
Qed.
(** Scaling to the same size keeps every pixel's colour. *)
Lemma bilinear_same img w h x y :
  2 <= w -> 2 <= h -> 0 <= x < w -> 0 <= y < h ->
  bilinear img w h w h x y = Z.land (img x y) 0xFFFFFF.
Proof.
  intros Hw Hh Hx Hy. unfold bilinear, src_coord. cbv zeta. rewrite !Z.div_mul by lia.
  rewrite !Z.mod_mul by lia. rewrite !lerp_zero, <- Z.land_assoc, Z.land_diag. done.
Qed.
(** Every channel stays between the four source pixels'. *)
Lemma bilinear_between img sw sh dw dh dx dy c lo hi :
  c ∈ shifts -> 1 <= sw -> 1 <= sh -> 2 <= dw -> 2 <= dh -> 0 <= dx < dw -> 0 <= dy < dh ->
  (forall x y, 0 <= x < sw -> 0 <= y < sh -> lo <= channel (img x y) c <= hi) ->
  lo <= channel (bilinear img sw sh dw dh dx dy) c <= hi.
Proof.
  intros Hc Hsw Hsh Hdw Hdh Hdx Hdy Hb. unfold bilinear. cbv zeta.
  pose proof (src_coord_bound sw dw dx Hsw Hdw Hdx) as Hx. pose proof (src_coord_bound sh dh dy Hsh Hdh Hdy) as Hy.
  set (sx := src_coord sw dw dx) in *. set (sy := src_coord sh dh dy) in *.
  assert (0 <= sx / 2 ^ 16 < sw /\ 0 <= sy / 2 ^ 16 < sh) as [? ?].
  { split; (split; [apply Z.div_pos; lia|apply Z.div_lt_upper_bound; lia]). }
  pose proof (Z.mod_pos_bound sx (2 ^ 16) ltac:(lia)) as Hfx. pose proof (Z.mod_pos_bound sy (2 ^ 16) ltac:(lia)) as Hfy.
  match goal with |- _ <= channel (lerp ?a ?b ?f) c <= _ => pose proof (lerp_between a b f c Hc Hfy) as H1;
    match a with lerp ?a1 ?a2 ?f1 => pose proof (lerp_between a1 a2 f1 c Hc Hfx) as H2 end;
    match b with lerp ?b1 ?b2 ?f1 => pose proof (lerp_between b1 b2 f1 c Hc Hfx) as H3 end end.
  assert (forall x y, 0 <= x < sw -> 0 <= y < sh -> lo <= channel (img x y) c <= hi) as Hb' by done.
  pose proof (Hb (sx / 2 ^ 16) (sy / 2 ^ 16) ltac:(lia) ltac:(lia)).
  pose proof (Hb (Z.min (sx / 2 ^ 16 + 1) (sw - 1)) (sy / 2 ^ 16) ltac:(lia) ltac:(lia)).
  pose proof (Hb (sx / 2 ^ 16) (Z.min (sy / 2 ^ 16 + 1) (sh - 1)) ltac:(lia) ltac:(lia)).
  pose proof (Hb (Z.min (sx / 2 ^ 16 + 1) (sw - 1)) (Z.min (sy / 2 ^ 16 + 1) (sh - 1)) ltac:(lia) ltac:(lia)).
  lia.
Qed.

(** ** The whole image *)
Lemma scale_pixels_spec get img sw sh dw dh out scratch :
  1 <= sw < 2 ^ 32 -> 1 <= sh < 2 ^ 32 -> 2 <= dw -> 2 <= dh -> sw * dw <= 2 ^ 48 -> sh * dh <= 2 ^ 48 ->
  (forall x y, 0 <= x < sw -> 0 <= y < sh -> get x y = Some (img x y)) ->
  dw * dh <= Z.of_nat (length out) ->
  match scratch with Some (t, b) => dw <= Z.of_nat (length t) /\ dw <= Z.of_nat (length b) | None => True end ->
  exists s, scale_pixels get sw sh out dw dh scratch = Ret tt s /\ length (dst s) = length out /\
    (forall dx dy, 0 <= dx < dw -> 0 <= dy < dh ->
       dst s !! Z.to_nat (dy * dw + dx) = Some (bilinear img sw sh dw dh dx dy)) /\
    dw <= Z.of_nat (length (top_row s)) /\ dw <= Z.of_nat (length (bot_row s)).
Proof.
  intros Hsw Hsh Hdw Hdh Hxo Hyo Hget Hout Hsc. unfold scale_pixels.
  destruct (default _ scratch) as [top bot] eqn:Es.
  assert (dw <= Z.of_nat (length top) /\ dw <= Z.of_nat (length bot)) as [Ht Hb].
  { destruct scratch as [[t b]|]; simpl in Es; simplify_eq; [done|]. rewrite length_replicate. lia. }
  rewrite !(proj2 (Z.eqb_neq _ 0)) by lia. cbn [orb].
  rewrite (proj2 (Z.ltb_ge _ _)), (proj2 (Z.ltb_ge _ _)) by lia. cbn [orb].
  destruct (wp_elim _ _ _ (wp_for_range (rows_done img sw sh dw dh (length out)) 0 dh (scale_row get sw sh dw dh)
    (mk_scaler top bot out None) ltac:(lia)
    ltac:(split_and!; try done; intros; lia)
    (fun k s Hk => scale_row_spec get img sw sh dw dh Hsw Hsh Hdw Hdh Hxo Hyo Hget (length out) k s Hout Hk)))
    as ([] & s & E & Hl & Htl & Hbl & Hd & _).
  exists s. split_and!; done.
Qed.

(** Pixel lists as grids, and as the bytes of a raw image file. *)
Definition grid (src : list Z) (w : Z) : Z -> Z -> Z := fun x y => src !!! Z.to_nat (y * w + x).
Definition pixel_bytes (src : list Z) : list Z := src ≫= le_split 4.

Lemma src_pixel_grid src w h x y :
  0 <= x < w -> 0 <= y < h -> w * h < 2 ^ 32 -> Z.of_nat (length src) = w * h ->
  src_pixel src w x y = Some (grid src w x y).
Proof.
  intros Hx Hy Ho Hl. pose proof (index_bound w h x y Hx Hy). unfold src_pixel, grid.
  rewrite (wrap_small 32 (y * w)), wrap_small by (unfold in_u; nia).
  apply list_lookup_lookup_total_lt. lia.
Qed.
Lemma pixel_bytes_range src k :
  (k < length src)%nat ->
  get_range (pixel_bytes src) (Z.of_nat k * 4) (Z.of_nat k * 4 + 4) = Some (le_split 4 (src !!! k)).
Proof.
  revert k. induction src as [|p src IH]; intros k Hk; [simpl in Hk; lia|].
  change (pixel_bytes (p :: src)) with (le_split 4 p ++ pixel_bytes src).
  destruct k as [|k].
  - unfold get_range. rewrite length_app, length_le_split.
    rewrite !(proj2 (Z.leb_le _ _)) by lia. cbn [andb]. change (Z.to_nat (Z.of_nat 0 * 4)) with 0%nat.
    replace (Z.to_nat (Z.of_nat 0 * 4 + 4 - Z.of_nat 0 * 4)) with 4%nat by lia. rewrite drop_0. done.
  - simpl length in Hk. specialize (IH k ltac:(lia)). revert IH. unfold get_range.
    rewrite length_app, length_le_split. case_match eqn:E; [|done]. intros IH%(inj Some). to_prop.
    rewrite !(proj2 (Z.leb_le _ _)) by lia. cbn [andb].
    replace (Z.to_nat (Z.of_nat (S k) * 4)) with (4 + Z.to_nat (Z.of_nat k * 4))%nat by lia.
    replace (Z.to_nat (Z.of_nat (S k) * 4 + 4 - Z.of_nat (S k) * 4)) with (Z.to_nat (Z.of_nat k * 4 + 4 - Z.of_nat k * 4)) by lia.
    change ((src !!! k)) with ((p :: src) !!! S k) in IH. f_equal. exact IH.
Qed.
Lemma byte_pixel_grid src w h x y :
  0 <= x < w -> 0 <= y < h -> w * h < 2 ^ 32 -> Z.of_nat (length src) = w * h -> Forall (in_u 32) src ->
  byte_pixel (pixel_bytes src) w x y = Some (grid src w x y).
Proof.
  intros Hx Hy Ho Hl Hs. pose proof (index_bound w h x y Hx Hy). unfold byte_pixel, grid.
  rewrite (wrap_small 32 (y * w)), wrap_small by (unfold in_u; nia). cbv zeta.
  pose proof (pixel_bytes_range src (Z.to_nat (y * w + x)) ltac:(lia)) as Hr.
  rewrite Z2Nat.id in Hr by lia. rewrite Hr. cbn [fmap option_fmap option_map]. f_equal.
  apply le_combine_small. rewrite Forall_lookup_total in Hs. apply (Hs (Z.to_nat (y * w + x))). lia.
Qed.
Lemma scale_pixels_one get sw sh dw dh out scratch :
  1 <= sw -> 1 <= sh -> 1 <= dw -> 1 <= dh -> dw = 1 \/ dh = 1 ->
  match scratch with Some (t, b) => dw <= Z.of_nat (length t) /\ dw <= Z.of_nat (length b) | None => True end ->
  scale_pixels get sw sh out dw dh scratch = Panic.
Proof.
  intros Hsw Hsh Hdw Hdh H1 Hsc. unfold scale_pixels. destruct (default _ scratch) as [top bot].
  rewrite !(proj2 (Z.eqb_neq _ 0)) by lia. cbn [orb]. destruct (_ || _); [done|].
  unfold range. rewrite seqZ_cons by lia. cbn [for_in]. unfold mbind at 1, st_bind.
  assert (forall s, prev_y s = None -> scale_row get sw sh dw dh 0 s = Panic) as Hp; [|by rewrite Hp].
  intros s Hs. unfold scale_row. destruct (decide (dh = 1)) as [->|]; [done|].
  assert (dw = 1) as -> by lia. unfold mbind at 1, st_bind. unfold map_coord.
  rewrite (proj2 (Z.eqb_neq (dh - 1) 0)) by lia. unfold mret, st_ret. cbv zeta.
  unfold mbind at 1, st_bind, get_st. rewrite Hs, bool_decide_eq_false_2 by done. done.
Qed.

(** C23: The scaler with cached rows computes, for every destination pixel, the
    bilinear mix of its four source pixels, as a function of that pixel alone:
    the four entry points (into a given buffer, with caller-owned scratch rows
    of any contents, allocating, and straight from raw bytes) return the same
    image, no index is out of range and no intermediate value overflows;
    scaling to the same size returns the image itself (24 bits a pixel); and a
    destination one pixel wide or high makes all of them divide by zero. *)
Theorem scaling_reference src sw sh dw dh out scratch :
  1 <= sw -> 1 <= sh -> sw * sh < 2 ^ 32 -> Z.of_nat (length src) = sw * sh -> Forall (in_u 32) src ->
  1 <= dw -> 1 <= dh -> dw * dh < 2 ^ 32 -> sw * dw <= 2 ^ 48 -> sh * dh <= 2 ^ 48 ->
  Z.of_nat (length out) = dw * dh -> Z.of_nat (length scratch) = 2 * dw ->
  if bool_decide (dw = 1 \/ dh = 1) then
    scale_into src sw sh out dw dh = None /\ scale_image src sw sh dw dh = None /\
    scale_into_scratch src sw sh out dw dh scratch = None /\
    scale_bytes (pixel_bytes src) sw sh dw dh = None
  else exists res rows,
    scale_into src sw sh out dw dh = Some res /\ scale_image src sw sh dw dh = Some res /\
    scale_into_scratch src sw sh out dw dh scratch = Some (res, rows) /\
    scale_bytes (pixel_bytes src) sw sh dw dh = Some res /\
    Z.of_nat (length res) = dw * dh /\ 2 * dw <= Z.of_nat (length rows) /\
    (forall x y, 0 <= x < dw -> 0 <= y < dh ->
       res !! Z.to_nat (y * dw + x) = Some (bilinear (grid src sw) sw sh dw dh x y)) /\
    (sw = dw -> sh = dh -> res = (fun p => Z.land p 0xFFFFFF) <$> src).
Proof.
  intros. set (t := take (Z.to_nat dw) scratch). set (b := drop (Z.to_nat dw) scratch).
  assert (Z.of_nat (length t) = dw /\ Z.of_nat (length b) = dw) as [Ht Hb].
  { unfold t, b. rewrite length_take, length_drop. lia. }
  unfold scale_image, scale_into, scale_into_scratch, scale_bytes. fold t b. cbv zeta.
  rewrite (wrap_small 32 (dw * dh)) by (unfold in_u; nia). rewrite (proj2 (Z.ltb_ge _ dw)) by lia.
  case_bool_decide as E.
  { rewrite !scale_pixels_one by (done || lia). done. }
  set (new := replicate (Z.to_nat (dw * dh)) 0).
  assert (Z.of_nat (length new) = dw * dh) as Hnew by (unfold new; rewrite length_replicate; nia).
  assert (forall get o sc, (forall x y, 0 <= x < sw -> 0 <= y < sh -> get x y = Some (grid src sw x y)) ->
    Z.of_nat (length o) = dw * dh ->
    match sc with Some (t, b) => dw <= Z.of_nat (length t) /\ dw <= Z.of_nat (length b) | None => True end ->
    exists s, scale_pixels get sw sh o dw dh sc = Ret tt s /\ length (dst s) = length o /\
    (forall dx dy, 0 <= dx < dw -> 0 <= dy < dh ->
       dst s !! Z.to_nat (dy * dw + dx) = Some (bilinear (grid src sw) sw sh dw dh dx dy)) /\
    dw <= Z.of_nat (length (top_row s)) /\ dw <= Z.of_nat (length (bot_row s))) as Hs.
  { intros. apply scale_pixels_spec; try done; nia. }
  destruct (Hs (src_pixel src sw) out None) as (s1 & -> & L1 & D1 & _); [|lia|done|].
  { intros. by apply (src_pixel_grid src sw sh). }
  destruct (Hs (src_pixel src sw) new None) as (s2 & -> & L2 & D2 & _); [|lia|done|].
  { intros. by apply (src_pixel_grid src sw sh). }
  destruct (Hs (src_pixel src sw) out (Some (t, b))) as (s3 & -> & L3 & D3 & R3 & R3'); [|lia|lia|].
  { intros. by apply (src_pixel_grid src sw sh). }
  destruct (Hs (byte_pixel (pixel_bytes src) sw) new None) as (s4 & -> & L4 & D4 & _); [|lia|done|].
  { intros. by apply (byte_pixel_grid src sw sh). }
  assert (forall s, length (dst s) = length out -> (forall dx dy, 0 <= dx < dw -> 0 <= dy < dh ->
       dst s !! Z.to_nat (dy * dw + dx) = Some (bilinear (grid src sw) sw sh dw dh dx dy)) -> dst s = dst s1) as Heq.
  { intros s Hl Hd. apply (grid_list_eq _ _ dw dh); [lia|lia|lia|lia|].
    intros x y Hx Hy. by rewrite Hd, D1. }
  rewrite (Heq s2), (Heq s3), (Heq s4) by (done || lia).
  exists (dst s1), (top_row s3 ++ bot_row s3). split_and!; try done; [lia|rewrite length_app; lia|].
  intros <- <-. apply (grid_list_eq _ _ sw sh); [lia|lia|lia|rewrite length_fmap; lia|].
  intros x y Hx Hy. rewrite D1, bilinear_same by (done || lia). pose proof (index_bound sw sh x y Hx Hy).
  rewrite list_lookup_fmap. unfold grid. by rewrite list_lookup_lookup_total_lt by lia.
Qed.
Example scaling_reference_witness :
  exists res, scale_image [0xFF0000; 0x00FF00] 2 1 3 2 = Some res /\ res !! 1%nat = Some 0x7F7F00.
Proof.
  destruct (scaling_reference [0xFF0000; 0x00FF00] 2 1 3 2 (replicate 6 0) (replicate 6 7)) as (res & rows & _ & E & _ & _ & _ & _ & D & _);
    [lia|lia|lia|done|repeat constructor; vm_compute; congruence|lia|lia|lia|lia|lia|done|done|].
  exists res. split; [exact E|]. exact (D 1 0 ltac:(lia) ltac:(lia)).
Defined.
