(* ===== verification/PixelBuffer.v ===== *)
(** * Surfaces over a contiguous pixel buffer

    [fb.rs], [paint.rs], [image_viewer.rs] and [calculator.rs] implement the
    [Surface] trait with the same code over a vector of pixels, row by row, and
    override the span methods by slice operations.  The class is what the copies
    differ in; the instance [pixbuf_spec] shows that each is a correct surface,
    and the theorem that the overrides do what the trait's defaults do. *)
From stdpp Require Import list_numbers.
From S2P Require Import Prelude Bytes Font Gfx Draw.

Class PixelBuffer (T : Type) := {
  buf_width : T -> Z;
  buf_height : T -> Z;
  buf : T -> list Z;
  set_buf : list Z -> T -> T;
  buf_set : forall b s, buf (set_buf b s) = b;
  buf_width_set : forall b s, buf_width (set_buf b s) = buf_width s;
  buf_height_set : forall b s, buf_height (set_buf b s) = buf_height s;
  set_buf_buf : forall s, set_buf (buf s) s = s;
  set_buf_set : forall b1 b2 s, set_buf b1 (set_buf b2 s) = set_buf b1 s
}.

Section ops.
Context {T : Type} {PB : PixelBuffer T}.

Definition buf_put_pixel (x y color : Z) : ST T unit := fun s =>
  if (x <? buf_width s) && (y <? buf_height s) then
    let idx := Z.to_nat (u32 (y * buf_width s + x)) in
    if decide (idx < length (buf s))%nat then Ret tt (set_buf (<[idx := color]> (buf s)) s) else Panic
  else Ret tt s.

Definition buf_get_pixel (x y : Z) : ST T (option Z) := fun s =>
  if (x <? buf_width s) && (y <? buf_height s) then
    match buf s !! Z.to_nat (u32 (y * buf_width s + x)) with
    | Some p => Ret (Some p) s
    | None => Panic
    end
  else Ret None s.

(** The slice a span covers: its start and length, [None] when it is empty or
    off the surface. *)
Definition span_slice (x y len : Z) (s : T) : option (Z * Z) :=
  if (buf_height s <=? y) || (buf_width s <=? x) || (len =? 0) then None
  else Some (u32 (y * buf_width s + x), Z.min len (buf_width s - x)).
(** Replacing that slice. *)
Definition write_slice (start : Z) (src : list Z) : ST T unit := fun s =>
  match splice (buf s) (Z.to_nat start) src with
  | Some b => Ret tt (set_buf b s)
  | None => Panic
  end.

Definition buf_blit_span (x y : Z) (src : list Z) (offset len : Z) : ST T unit := fun s =>
  match span_slice x y len s with
  | None => Ret tt s
  | Some (row_start, n) =>
      match get_range src offset (offset + n) with
      | Some pixels => write_slice row_start pixels s
      | None => Panic
      end
  end.
Definition buf_fill_span (x y len color : Z) : ST T unit := fun s =>
  match span_slice x y len s with
  | None => Ret tt s
  | Some (row_start, n) => write_slice row_start (replicate (Z.to_nat n) color) s
  end.
Definition buf_blend_span (x y len color alpha : Z) : ST T unit := fun s =>
  match span_slice x y len s with
  | None => Ret tt s
  | Some (row_start, n) =>
      if 255 <=? alpha then buf_fill_span x y len color s
      else if alpha =? 0 then Ret tt s
      else
        match get_range (buf s) row_start (row_start + n) with
        | None => Panic
        | Some row =>
            let inv := 255 - alpha in
            write_slice row_start
              ((fun px => per_channel (fun shift => (channel color shift * alpha + channel px shift * inv) / 255)) <$> row) s
        end
  end.

(** ** A correct surface *)
(** The surface without its pixels. *)
Definition frame (s : T) : list Z -> T := fun b => set_buf b s.
Definition pix (s : T) (x y : Z) : Z := buf s !!! Z.to_nat (y * buf_width s + x).
(** Well-formed, and the same as [s0] but for the pixels. *)
Definition pix_ok (s0 s : T) : Prop :=
  0 <= buf_width s /\ 0 <= buf_height s /\ buf_width s < 2 ^ 32 /\ buf_height s < 2 ^ 32 /\
  buf_width s * buf_height s < 2 ^ 32 /\
  Z.of_nat (length (buf s)) = buf_width s * buf_height s /\
  forall b, set_buf b s = set_buf b s0.

(** Writing a row into a pixel list. *)
Lemma splice_row (l row : list Z) w h x y :
  0 <= x -> 0 <= y < h -> x + Z.of_nat (length row) <= w -> Z.of_nat (length l) = w * h ->
  exists l', splice l (Z.to_nat (y * w + x)) row = Some l' /\ length l' = length l /\
    forall i j, 0 <= i < w -> 0 <= j < h ->
      l' !!! Z.to_nat (j * w + i) =
        if in_span x (Z.of_nat (length row)) y i j then row !!! Z.to_nat (i - x) else l !!! Z.to_nat (j * w + i).
Proof.
  intros Hx Hy Hxl Hl. assert (0 <= y * w + x /\ y * w + x + Z.of_nat (length row) <= w * h) as [? ?] by nia.
  unfold splice. rewrite decide_True by lia. eexists. split; [done|].
  rewrite !length_app, length_take, length_drop. split; [lia|]. intros i j Hi Hj. unfold in_span. pose proof (index_bound w h i j Hi Hj).
  destruct (decide (j * w + i < y * w + x)); [|destruct (decide (j * w + i < y * w + x + Z.of_nat (length row)))].
  - rewrite lookup_total_app_l by (rewrite length_take; lia). rewrite lookup_total_take, decide_True by lia.
    destruct (Z.eqb_spec j y) as [->|]; [|done]. by rewrite (proj2 (Z.leb_gt x i)) by lia.
  - assert (j = y) as -> by nia. rewrite Z.eqb_refl, (proj2 (Z.leb_le x i)), (proj2 (Z.ltb_lt i _)) by lia. cbn [andb].
    rewrite lookup_total_app_r, lookup_total_app_l by (rewrite length_take; lia). f_equal. rewrite length_take. lia.
  - rewrite !lookup_total_app_r by (rewrite ?length_take; lia). rewrite lookup_total_drop.
    assert ((j =? y) && ((x <=? i) && (i <? x + Z.of_nat (length row))) = false) as ->.
    { destruct (Z.eqb_spec j y) as [->|]; [|done]. rewrite (proj2 (Z.ltb_ge i _)) by lia. apply andb_false_r. }
    f_equal. rewrite length_take. lia.
Qed.

(** A write of [vs] at [start], pixel by pixel. *)
Lemma write_slice_spec s0 s x y vs :
  pix_ok s0 s -> 0 <= x -> 0 <= y < buf_height s -> x + Z.of_nat (length vs) <= buf_width s ->
  wp (write_slice (y * buf_width s + x) vs)
    (fun _ s' => pix_ok s0 s' /\ buf_width s' = buf_width s /\ buf_height s' = buf_height s /\
       forall i j, 0 <= i < buf_width s -> 0 <= j < buf_height s ->
         pix s' i j = if in_span x (Z.of_nat (length vs)) y i j then vs !!! Z.to_nat (i - x) else pix s i j) s.
Proof.
  intros (Hw & Hh & Hw32 & Hh32 & Hwh & Hl & Hf) Hx Hy Hxl.
  set (w := buf_width s) in *. set (h := buf_height s) in *.
  destruct (splice_row (buf s) vs w h x y) as (b & Eb & Hlb & Hb); [lia..|]. unfold wp, write_slice. rewrite Eb.
  unfold pix_ok, pix. rewrite buf_width_set, buf_height_set, !buf_set. fold w h.
  split_and!; try done; [lia|]. intros b'. by rewrite set_buf_set.
Qed.

Lemma put_pixel_slice x y c s0 s :
  pix_ok s0 s -> 0 <= x -> 0 <= y ->
  buf_put_pixel x y c s =
    if (x <? buf_width s) && (y <? buf_height s) then write_slice (y * buf_width s + x) [c] s else Ret tt s.
Proof.
  intros (Hw & Hh & Hw32 & Hh32 & Hwh & Hl & Hf) Hx Hy. unfold buf_put_pixel.
  destruct (Z.ltb_spec x (buf_width s)), (Z.ltb_spec y (buf_height s)); cbn [andb]; try done. cbv zeta.
  assert (0 <= y * buf_width s + x < buf_width s * buf_height s) by (apply index_bound; lia).
  rewrite wrap_small by (unfold in_u; lia). unfold write_slice, splice. cbn [length].
  rewrite !decide_True by lia. by rewrite insert_take_drop, Nat.add_1_r by lia.
Qed.
Lemma buf_put_pixel_spec s0 W H x y c :
  in_u 32 x -> in_u 32 y ->
  draws_by (pix_ok s0) buf_width buf_height pix W H (buf_put_pixel x y c)
    (fun i j p => if (i =? x) && (j =? y) then c else p).
Proof.
  intros Hx Hy s Hs HW HH. unfold in_u in *. unfold wp. rewrite (put_pixel_slice x y c s0) by (done || lia).
  rewrite HW, HH. destruct (Z.ltb_spec x W), (Z.ltb_spec y H); cbn [andb].
  1: { rewrite <- HW. eapply wp_conseq; [apply (write_slice_spec s0 s x y [c]); simpl; done || lia|].
       intros [] s' (Hs' & HW' & HH' & Hp). rewrite HW', HH', HW. split_and!; try done.
       intros i j Hi Hj. rewrite Hp by lia. unfold in_span. cbn [length].
       destruct (Z.eqb_spec i x) as [->|], (Z.eqb_spec j y); cbn [andb]; try done.
       - rewrite (proj2 (Z.leb_le x x)), (proj2 (Z.ltb_lt _ _)), Z.sub_diag by lia. done.
       - destruct (Z.leb_spec x i), (Z.ltb_spec i (x + Z.of_nat 1)); cbn [andb]; done || lia. }
  all: split_and!; try done; intros i j Hi Hj;
    destruct (Z.eqb_spec i x), (Z.eqb_spec j y); cbn [andb]; try done; lia.
Qed.
Lemma buf_get_pixel_spec s0 s x y :
  pix_ok s0 s -> in_u 32 x -> in_u 32 y ->
  buf_get_pixel x y s = Ret (if (x <? buf_width s) && (y <? buf_height s) then Some (pix s x y) else None) s.
Proof.
  intros (Hw & Hh & Hw32 & Hh32 & Hwh & Hl & Hf) Hx Hy. unfold in_u in *. unfold buf_get_pixel, pix.
  destruct (Z.ltb_spec x (buf_width s)), (Z.ltb_spec y (buf_height s)); cbn [andb]; try done.
  assert (0 <= y * buf_width s + x < buf_width s * buf_height s) by (apply index_bound; lia).
  rewrite wrap_small by (unfold in_u; lia). by rewrite list_lookup_lookup_total_lt by lia.
Qed.

(** A span operation that writes [vs n] where the span is on the surface. *)
Lemma span_spec s0 W H x y len (m : Z -> Z -> ST T unit) (f : picture) :
  in_u 32 x -> in_u 32 y -> 0 <= len -> x + len <= 2 ^ 32 ->
  (forall s n, pix_ok s0 s -> buf_width s = W -> buf_height s = H -> n = Z.min len (W - x) ->
     0 < n -> x < W -> y < H ->
     exists vs, m (y * W + x) n s = write_slice (y * W + x) vs s /\ Z.of_nat (length vs) = n /\
       forall i, x <= i < x + n -> vs !!! Z.to_nat (i - x) = f i y (pix s i y)) ->
  draws_by (pix_ok s0) buf_width buf_height pix W H
    (fun s => match span_slice x y len s with None => Ret tt s | Some (row_start, n) => m row_start n s end)
    (fun i j p => if in_span x len y i j then f i j p else p).
Proof.
  intros Hx Hy Hlen Hxl Hm s Hs HW HH. unfold in_u in *. pose proof Hs as (Hw & Hh & Hw32 & Hh32 & Hwh & Hl & Hf).
  rewrite HW, HH in *. unfold wp, span_slice. rewrite HW, HH.
  destruct (Z.leb_spec H y) as [E1|E1]; cbn [orb].
  { split_and!; try done. intros i j Hi Hj. unfold in_span. by destruct (Z.eqb_spec j y); [lia|]. }
  destruct (Z.leb_spec W x) as [E2|E2]; cbn [orb].
  { split_and!; try done. intros i j Hi Hj. unfold in_span. rewrite (proj2 (Z.leb_gt x i)) by lia. by rewrite andb_false_r. }
  destruct (Z.eqb_spec len 0) as [->|E3].
  { split_and!; try done. intros i j Hi Hj. unfold in_span.
    destruct (Z.leb_spec x i), (Z.ltb_spec i (x + 0)); cbn [andb]; rewrite ?andb_false_r; done || lia. }
  pose proof (index_bound W H x y ltac:(lia) ltac:(lia)). rewrite (wrap_small 32) by (unfold in_u; lia).
  destruct (Hm s (Z.min len (W - x)) Hs HW HH eq_refl ltac:(lia) E2 E1) as (vs & -> & Hvs & Hv).
  subst W H. eapply wp_conseq; [apply (write_slice_spec s0 s x y vs); done || lia|].
  intros [] s' (Hs' & HW' & HH' & Hp). split_and!; try done. intros i j Hi Hj. rewrite Hp by lia. unfold in_span.
  destruct (Z.eqb_spec j y) as [->|]; cbn [andb]; [|done].
  destruct (Z.leb_spec x i), (Z.ltb_spec i (x + Z.of_nat (length vs))), (Z.ltb_spec i (x + len)); cbn [andb]; try done; try lia.
  apply Hv. lia.
Qed.
Lemma buf_fill_span_spec s0 W H x y n c :
  in_u 32 x -> in_u 32 y -> 0 <= n -> x + n <= 2 ^ 32 ->
  draws_by (pix_ok s0) buf_width buf_height pix W H (buf_fill_span x y n c)
    (fun i j p => if in_span x n y i j then c else p).
Proof.
  intros Hx Hy Hn Hxn.
  apply (span_spec s0 W H x y n (fun start n s => write_slice start (replicate (Z.to_nat n) c) s) (fun _ _ _ => c)); try done.
  intros s k Hs HW HH -> Hk HxW HyH. eexists. split; [done|]. split; [rewrite length_replicate; lia|].
  intros i Hi. apply lookup_total_replicate_2. lia.
Qed.
Lemma buf_blit_span_spec s0 W H x y src off n :
  in_u 32 x -> in_u 32 y -> 0 <= n -> x + n <= 2 ^ 32 -> 0 <= off -> off + n <= Z.of_nat (length src) ->
  draws_by (pix_ok s0) buf_width buf_height pix W H (buf_blit_span x y src off n)
    (fun i j p => if in_span x n y i j then src !!! Z.to_nat (off + (i - x)) else p).
Proof.
  intros Hx Hy Hn Hxn Ho Hl.
  apply (span_spec s0 W H x y n (fun start n s => match get_range src off (off + n) with
    | Some pixels => write_slice start pixels s | None => Panic end) (fun i _ _ => src !!! Z.to_nat (off + (i - x)))); try done.
  intros s k Hs HW HH -> Hk HxW HyH. unfold get_range. rewrite !(proj2 (Z.leb_le _ _)) by lia. cbn [andb].
  eexists. split; [done|]. rewrite length_take, length_drop. split; [lia|].
  intros i Hi. rewrite lookup_total_take, decide_True, lookup_total_drop by lia. f_equal. lia.
Qed.
Lemma buf_blend_span_spec s0 W H x y n c a :
  in_u 32 x -> in_u 32 y -> 0 <= n -> x + n <= 2 ^ 32 ->
  draws_by (pix_ok s0) buf_width buf_height pix W H (buf_blend_span x y n c a)
    (fun i j p => if in_span x n y i j then blend c p a else p).
Proof.
  intros Hx Hy Hn Hxn. unfold blend. destruct (Z.leb_spec 255 a) as [Ea|Ea].
  { intros s Hs HW HH. pose proof (buf_fill_span_spec s0 W H x y n c Hx Hy Hn Hxn s Hs HW HH) as Hf.
    unfold wp, buf_blend_span in *. rewrite (proj2 (Z.leb_le 255 a)) by done.
    unfold buf_fill_span in *. by destruct (span_slice x y n s) as [[]|]. }
  destruct (Z.eqb_spec a 0) as [->|E0].
  { intros s Hs HW HH. unfold wp, buf_blend_span. simpl.
    destruct (span_slice x y n s) as [[]|]; (split_and!; try done; intros; by case_match). }
  apply (span_spec s0 W H x y n (fun start k s => if 255 <=? a then buf_fill_span x y n c s else
    if a =? 0 then Ret tt s else match get_range (buf s) start (start + k) with None => Panic
    | Some row => write_slice start
        ((fun px => per_channel (fun shift => (channel c shift * a + channel px shift * (255 - a)) / 255)) <$> row) s end)
    (fun _ _ p => per_channel (fun shift => (channel c shift * a + channel p shift * (255 - a)) / 255))); try done.
  intros s k Hs HW HH -> Hk HxW HyH. rewrite (proj2 (Z.leb_gt 255 a)), (proj2 (Z.eqb_neq a 0)) by done.
  destruct Hs as (Hw & Hh & Hw32 & Hh32 & Hwh & Hl & Hf). unfold in_u in *. rewrite HW, HH in *.
  assert (0 <= y * W + x /\ y * W + x + Z.min n (W - x) <= W * H) as [? ?] by nia.
  unfold get_range. rewrite !(proj2 (Z.leb_le _ _)) by lia. cbn [andb].
  eexists. split; [reflexivity|]. rewrite length_fmap, length_take, length_drop. split; [lia|].
  intros i Hi. apply list_lookup_total_correct. rewrite list_lookup_fmap, lookup_take, decide_True, lookup_drop by lia.
  rewrite list_lookup_lookup_total_lt by lia. cbn [fmap option_fmap option_map]. unfold pix. rewrite HW.
  by replace (Z.to_nat (y * W + x) + Z.to_nat (i - x))%nat with (Z.to_nat (y * W + i)) by lia.
Qed.

(** The trait as the source implements it, and as a correct surface. *)
Definition buffer_surface : Surface T := {|
  width := buf_width; height := buf_height; put_pixel := buf_put_pixel; get_pixel := buf_get_pixel;
  blit_span := buf_blit_span; fill_span := buf_fill_span; blend_span := buf_blend_span |}.
#[refine] Definition buffer_spec (s0 : T) : @SurfaceSpec T buffer_surface := {|
  ok := pix_ok s0; pixel := pix; readable := true |}.
Proof.
  - intros s (? & ? & ? & ? & _). split; split; done.
  - intros. by apply buf_put_pixel_spec.
  - intros. by apply (buf_get_pixel_spec s0).
  - intros. by apply buf_fill_span_spec.
  - intros. by apply buf_blend_span_spec.
  - intros. by apply buf_blit_span_spec.
Defined.

(** ** The overrides and the defaults *)
Lemma same_picture s W H m1 m2 f :
  pix_ok s s -> buf_width s = W -> buf_height s = H ->
  draws_by (pix_ok s) buf_width buf_height pix W H m1 f ->
  draws_by (pix_ok s) buf_width buf_height pix W H m2 f -> m1 s = m2 s.
Proof.
  intros Hs HW HH H1 H2.
  destruct (wp_elim _ _ _ (H1 s Hs HW HH)) as ([] & s1 & -> & Hs1 & HW1 & HH1 & Hp1).
  destruct (wp_elim _ _ _ (H2 s Hs HW HH)) as ([] & s2 & -> & Hs2 & HW2 & HH2 & Hp2). f_equal.
  destruct Hs1 as (Hw & Hh & _ & _ & _ & Hl1 & Hf1), Hs2 as (_ & _ & _ & _ & _ & Hl2 & Hf2).
  rewrite HW1, HH1 in *. rewrite HW2, HH2 in *.
  assert (buf s1 = buf s2) as E.
  { destruct (decide (W = 0)) as [->|].
    { rewrite (nil_length_inv (buf s1)), (nil_length_inv (buf s2)) by lia. done. }
    apply (grid_list_eq _ _ W H); [lia|lia|lia|lia|]. intros x y Hx Hy.
    specialize (Hp1 x y Hx Hy). specialize (Hp2 x y Hx Hy). unfold pix in *. rewrite HW1 in Hp1. rewrite HW2 in Hp2.
    pose proof (index_bound W H x y Hx Hy). rewrite !list_lookup_lookup_total_lt by lia. congruence. }
  rewrite <- (set_buf_buf s1), <- (set_buf_buf s2), Hf1, Hf2. by rewrite E.
Qed.

(** A default method paints its pixels one by one. *)
Lemma default_span s0 W H x y n (body : Z -> ST T unit) (f : picture) :
  in_u 32 x -> 0 <= n -> x + n <= 2 ^ 32 ->
  (forall k, 0 <= k < n -> draws_by (pix_ok s0) buf_width buf_height pix W H (body k)
     (fun i j p => if (i =? u32 (x + k)) && (j =? y) then f i j p else p)) ->
  draws_by (pix_ok s0) buf_width buf_height pix W H (for_in (range 0 n) body)
    (fun i j p => if in_span x n y i j then f i j p else p).
Proof.
  intros Hx Hn Hxn Hb.
  assert (@draws T buffer_surface (buffer_spec s0) W H (for_in (range 0 (0 + n)) body)
    (fun i j p => if in_span x n y i j then f i j p else p)) as Hd; [|exact Hd].
  eapply draws_ext; [apply (draws_lines W H 0 n body (fun i j => if j =? y then i - x else -1) (fun _ => f)); [done|]|].
  - intros k Hk. eapply draws_ext; [exact (Hb k ltac:(lia))|]. intros i j p Hi Hj. cbv beta. unfold in_u in *.
    rewrite wrap_small by (unfold in_u; lia).
    destruct (Z.eqb_spec j y); rewrite ?andb_true_r, ?andb_false_r.
    + destruct (Z.eqb_spec i (x + k)), (Z.eqb_spec (i - x) k); done || lia.
    + destruct (Z.eqb_spec (-1) k); [lia|done].
  - intros i j p Hi Hj. cbv beta. unfold in_range, in_span. cbn [fst snd]. destruct (Z.eqb_spec j y); cbn [andb]; [|done].
    destruct (Z.leb_spec 0 (i - x)), (Z.ltb_spec (i - x) (0 + n)), (Z.leb_spec x i), (Z.ltb_spec i (x + n)); done || lia.
Qed.
Lemma wrap_column x n k : in_u 32 x -> x + n <= 2 ^ 32 -> 0 <= k < n -> in_u 32 (u32 (x + k)) /\ u32 (x + k) = x + k.
Proof. intros. split; [apply wrap_bound; lia|]. apply wrap_small. unfold in_u in *. lia. Qed.
Lemma fill_default_spec s0 W H x y n c :
  in_u 32 x -> in_u 32 y -> 0 <= n -> x + n <= 2 ^ 32 ->
  draws_by (pix_ok s0) buf_width buf_height pix W H (fill_span_default buf_put_pixel x y n c)
    (fun i j p => if in_span x n y i j then c else p).
Proof.
  intros Hx Hy Hn Hxn. apply (default_span s0 W H x y n _ (fun _ _ _ => c)); try done.
  intros k Hk. apply buf_put_pixel_spec; [by eapply wrap_column|done].
Qed.
Lemma blend_default_spec s0 W H x y n c a :
  in_u 32 x -> in_u 32 y -> 0 <= n -> x + n <= 2 ^ 32 ->
  draws_by (pix_ok s0) buf_width buf_height pix W H (blend_span_default buf_put_pixel buf_get_pixel x y n c a)
    (fun i j p => if in_span x n y i j then blend c p a else p).
Proof.
  intros Hx Hy Hn Hxn. unfold blend_span_default. destruct (255 <=? a) eqn:E1.
  { unfold blend. rewrite E1. by apply fill_default_spec. }
  destruct (a =? 0) eqn:E2.
  { intros s1 Hs1 HW HH. apply wp_ret. split_and!; try done. intros. unfold blend. rewrite E1, E2. by case_match. }
  apply (default_span s0 W H x y n _ (fun _ _ p => blend c p a)); try done.
  intros k Hk s1 Hs1 HW HH. destruct (wrap_column x n k Hx Hxn Hk) as [Hxk _].
  apply wp_bind. unfold wp at 1. rewrite (buf_get_pixel_spec s0), HW, HH by done.
  destruct ((u32 (x + k) <? W) && (y <? H)) eqn:E;
    (eapply wp_conseq; [by apply (buf_put_pixel_spec s0)|]); intros [] s2 (Hs2 & HW2 & HH2 & Hp2); split_and!; try done;
    intros i j Hi Hj; rewrite Hp2 by done;
    destruct (Z.eqb_spec i (u32 (x + k))) as [->|], (Z.eqb_spec j y) as [->|]; cbn [andb]; try done.
  rewrite (proj2 (Z.ltb_lt _ W)), (proj2 (Z.ltb_lt _ H)) in E by lia. done.
Qed.
Lemma blit_default_spec s0 W H x y src off n :
  in_u 32 x -> in_u 32 y -> 0 <= n -> x + n <= 2 ^ 32 ->
  0 <= off -> off + n <= Z.of_nat (length src) -> Z.of_nat (length src) < 2 ^ 64 ->
  draws_by (pix_ok s0) buf_width buf_height pix W H (blit_span_default buf_put_pixel x y src off n)
    (fun i j p => if in_span x n y i j then src !!! Z.to_nat (off + (i - x)) else p).
Proof.
  intros Hx Hy Hn Hxn Ho Hl Hl64. unfold blit_span_default.
  apply (default_span s0 W H x y n _ (fun i _ _ => src !!! Z.to_nat (off + (i - x)))); try done.
  intros k Hk s1 Hs1 HW HH. destruct (wrap_column x n k Hx Hxn Hk) as [Hxk Ek].
  rewrite (wrap_small 64) by (unfold in_u; lia). unfold wp. rewrite list_lookup_lookup_total_lt by lia.
  eapply wp_conseq; [by apply (buf_put_pixel_spec s0)|]. intros [] s2 (Hs2 & HW2 & HH2 & Hp2). split_and!; try done.
  intros i j Hi Hj. rewrite Hp2 by done. rewrite Ek in *.
  destruct (Z.eqb_spec i (x + k)) as [->|], (Z.eqb_spec j y); cbn [andb]; try done. do 2 f_equal. lia.
Qed.
End ops.

(** The row-wise span methods with which the frame buffer and the
    applications override the trait do exactly what the trait's pixel-by-pixel
    defaults do, clipping and opacity included: on any well-formed surface and
    for any span that does not run past column 2^32, the two end in the same
    state, and neither panics when the source holds the whole span. *)
Theorem spans_match_defaults {T} {PB : PixelBuffer T} (s : T) x y n color alpha src off :
  pix_ok s s -> in_u 32 x -> in_u 32 y -> 0 <= n -> x + n <= 2 ^ 32 -> 0 <= alpha ->
  0 <= off -> off + n <= Z.of_nat (length src) -> Z.of_nat (length src) < 2 ^ 64 ->
  buf_fill_span x y n color s = fill_span_default buf_put_pixel x y n color s /\
  buf_blend_span x y n color alpha s = blend_span_default buf_put_pixel buf_get_pixel x y n color alpha s /\
  buf_blit_span x y src off n s = blit_span_default buf_put_pixel x y src off n s /\
  buf_fill_span x y n color s <> Panic /\ buf_blend_span x y n color alpha s <> Panic /\
  buf_blit_span x y src off n s <> Panic.
Proof.
  intros Hs Hx Hy Hn Hxn Ha Ho Hl Hl64.
  assert (forall m f, draws_by (pix_ok s) buf_width buf_height pix (buf_width s) (buf_height s) m f -> m s <> Panic) as Hnp.
  { intros m f Hd E. specialize (Hd s Hs eq_refl eq_refl). unfold wp in Hd. by rewrite E in Hd. }
  pose proof (fun W H => buf_fill_span_spec s W H x y n color Hx Hy Hn Hxn) as F.
  pose proof (fun W H => buf_blend_span_spec s W H x y n color alpha Hx Hy Hn Hxn) as B.
  pose proof (fun W H => buf_blit_span_spec s W H x y src off n Hx Hy Hn Hxn Ho Hl) as C.
  split_and!; [| | |eapply Hnp; apply F|eapply Hnp; apply B|eapply Hnp; apply C];
    (eapply same_picture; [exact Hs|reflexivity|reflexivity|done|]).
  - by apply fill_default_spec.
  - by apply blend_default_spec.
  - by apply blit_default_spec.
Qed.
