(* ===== verification/Fb.v ===== *)
(** * The frame buffer, [fb.rs]

    The desktop is drawn at a virtual resolution into a back buffer and pushed
    to the video memory, scaled when the resolutions differ.  Video memory is
    ordinary memory at the address the boot loader reported. *)
From stdpp Require Import list_numbers.
From S2P Require Import Prelude Bytes PhysMem Multiboot Pmm Paging Font Gfx Draw PixelBuffer Scale.

Definition SUPPORTED_RESOLUTIONS : list (Z * Z) :=
  [(1920, 1080); (1600, 900); (1366, 768); (1280, 720); (1024, 576); (800, 600)].

Record State := mk_state {
  addr : Z; pitch : Z; pwidth : Z; pheight : Z;
  vwidth : Z; vheight : Z; vback_buffer : list Z;
  back_buffer : list Z; scale_scratch : list Z }.

#[refine] Global Instance state_buffer : PixelBuffer State := {
  buf_width := vwidth; buf_height := vheight; buf := vback_buffer;
  set_buf b s := mk_state (addr s) (pitch s) (pwidth s) (pheight s) (vwidth s) (vheight s) b
                   (back_buffer s) (scale_scratch s) }.
Proof. all: try done. by intros []. Defined.
(** [impl Surface for State] *)
Global Instance state_surface : Surface State := buffer_surface.

(** The module's statics, and the memory the display shows. *)
Record fb := mk_fb {
  state : option State; graphics_mode : bool;
  FB_ADDR : Z; FB_PITCH : Z; FB_WIDTH : Z; FB_HEIGHT : Z; video : mem }.
Definition set_state (s : option State) (d : fb) : fb :=
  mk_fb s (graphics_mode d) (FB_ADDR d) (FB_PITCH d) (FB_WIDTH d) (FB_HEIGHT d) (video d).
Definition set_video (m : mem) (d : fb) : fb :=
  mk_fb (state d) (graphics_mode d) (FB_ADDR d) (FB_PITCH d) (FB_WIDTH d) (FB_HEIGHT d) m.

Definition init (info : MultibootInfo) : ST fb bool := fun d =>
  match framebuffer (video d) info with
  | Some f =>
      if negb (fb_bpp f =? 32) then Ret false d
      else if negb (is_identity_mapped (fb_addr f) (fb_pitch f * fb_height f)) then Ret false d
      else
        let blank := replicate (Z.to_nat (u32 (fb_width f * fb_height f))) 0 in
        Ret true (mk_fb
          (Some (mk_state (fb_addr f) (fb_pitch f) (fb_width f) (fb_height f) (fb_width f) (fb_height f)
                   blank blank (replicate (Z.to_nat (fb_width f * 2)) 0)))
          true (fb_addr f) (fb_pitch f) (fb_width f) (fb_height f) (video d))
  | None => Ret false d
  end.

Definition is_graphics_mode (d : fb) : bool := graphics_mode d.
Definition dimensions (d : fb) : Z * Z := (FB_WIDTH d, FB_HEIGHT d).
Definition virtual_dimensions (d : fb) : Z * Z :=
  match state d with Some s => (vwidth s, vheight s) | None => dimensions d end.

Definition set_virtual_resolution (w h : Z) : ST fb bool := fun d =>
  match state d with
  | None => Ret false d
  | Some s =>
      if (w =? 0) || (h =? 0) || (pwidth s <? w) || (pheight s <? h) then Ret false d
      else Ret true (set_state (Some (mk_state (addr s) (pitch s) (pwidth s) (pheight s) w h
                       (replicate (Z.to_nat (u32 (w * h))) 0) (back_buffer s) (scale_scratch s))) d)
  end.

Definition with_surface (f : ST State unit) : ST fb unit := fun d =>
  match state d with
  | None => Ret tt d
  | Some s => match f s with Ret _ s' => Ret tt (set_state (Some s') d) | Panic => Panic end
  end.

Definition get_pixel (x y : Z) : ST fb (option Z) := fun d =>
  match state d with
  | None => Ret None d
  | Some s =>
      if (pwidth s <=? x) || (pheight s <=? y) then Ret None d
      else match back_buffer s !! Z.to_nat (u32 (y * pwidth s + x)) with
           | Some p => Ret (Some p) d
           | None => Panic
           end
  end.

(** ** Saving and restoring a region *)
(** Row [yy] of the region, at [x, x_end) of the back buffer. *)
Definition region_row (s : State) (x x_end sy : Z) : option (list Z) :=
  get_range (vback_buffer s) (u32 (sy * vwidth s + x)) (u32 (sy * vwidth s + x_end)).

Fixpoint snapshot_rows (s : State) (x y x_end w : Z) (rows : list Z) (out : list Z) : option (list Z) :=
  match rows with
  | [] => Some out
  | yy :: rows =>
      let sy := u32 (y + yy) in
      if vheight s <=? sy then Some out
      else
        src ← region_row s x x_end sy;
        out ← splice out (Z.to_nat (yy * w)) src;
        snapshot_rows s x y x_end w rows out
  end.
Definition snapshot_region (x y w h : Z) : ST fb (list Z) := fun d =>
  let out := replicate (Z.to_nat (u32 (w * h))) 0 in
  match state d with
  | None => Ret out d
  | Some s =>
      if (w =? 0) || (h =? 0) then Ret out d
      else
        let x := Z.min x (vwidth s) in
        let y := Z.min y (vheight s) in
        let x_end := Z.min (u32 (x + w)) (vwidth s) in
        match snapshot_rows s x y x_end w (range 0 h) out with
        | Some out => Ret out d
        | None => Panic
        end
  end.

Fixpoint restore_rows (x y x_end w : Z) (pixels : list Z) (rows : list Z) (s : State) : option State :=
  match rows with
  | [] => Some s
  | yy :: rows =>
      let sy := u32 (y + yy) in
      if vheight s <=? sy then Some s
      else
        old ← region_row s x x_end sy;
        src ← get_range pixels (yy * w) (yy * w + (x_end - x));
        b ← splice (vback_buffer s) (Z.to_nat (u32 (sy * vwidth s + x))) src;
        restore_rows x y x_end w pixels rows (set_buf b s)
  end.
Definition restore_region (x y w h : Z) (pixels : list Z) : ST fb unit := fun d =>
  match state d with
  | None => Ret tt d
  | Some s =>
      if (w =? 0) || (h =? 0) then Ret tt d
      else
        let x := Z.min x (vwidth s) in
        let y := Z.min y (vheight s) in
        let x_end := Z.min (u32 (x + w)) (vwidth s) in
        match restore_rows x y x_end w pixels (range 0 h) s with
        | Some s' => Ret tt (set_state (Some s') d)
        | None => Panic
        end
  end.

(** ** Showing *)
(** Pixels as the display's memory holds them. *)
Definition video_bytes (pixels : list Z) : list Z := pixel_bytes pixels.
(** Copying columns [x, x_end) of the rows to the screen; [ix] is the width of
    the index arithmetic, [usize] in [present] and [u32] in [present_region]. *)
Fixpoint push_rows (ix : Z -> Z) (s : State) (x x_end : Z) (rows : list Z) (m : mem) : option mem :=
  match rows with
  | [] => Some m
  | y :: rows =>
      src_row ← get_range (back_buffer s) (ix (y * pwidth s + x)) (ix (y * pwidth s + x_end));
      push_rows ix s x x_end rows (mem_write m (u64 (addr s + y * pitch s + 4 * x)) (video_bytes src_row))
  end.
Definition set_back (b scratch : list Z) (s : State) : State :=
  mk_state (addr s) (pitch s) (pwidth s) (pheight s) (vwidth s) (vheight s) (vback_buffer s) b scratch.
(** The back buffer at the physical resolution. *)
Definition compose (s : State) : option State :=
  if negb (vwidth s =? pwidth s) || negb (vheight s =? pheight s) then
    let scratch := if Z.of_nat (length (scale_scratch s)) <? pwidth s * 2
                   then replicate (Z.to_nat (pwidth s * 2)) 0 else scale_scratch s in
    '(back, scratch) ← scale_into_scratch (vback_buffer s) (vwidth s) (vheight s) (back_buffer s)
                         (pwidth s) (pheight s) scratch;
    Some (set_back back scratch s)
  else if decide (length (back_buffer s) = length (vback_buffer s))
  then Some (set_back (vback_buffer s) (scale_scratch s) s)
  else None.
Definition present : ST fb unit := fun d =>
  match state d with
  | None => Ret tt d
  | Some s =>
      match (s ← compose s; m ← push_rows u64 s 0 (pwidth s) (range 0 (pheight s)) (video d); Some (s, m)) with
      | Some (s, m) => Ret tt (set_video m (set_state (Some s) d))
      | None => Panic
      end
  end.

Fixpoint mirror_rows (x x_end : Z) (rows : list Z) (s : State) : option State :=
  match rows with
  | [] => Some s
  | yy :: rows =>
      src ← region_row s x x_end yy;
      old ← get_range (back_buffer s) (u32 (yy * pwidth s + x)) (u32 (yy * pwidth s + x_end));
      b ← splice (back_buffer s) (Z.to_nat (u32 (yy * pwidth s + x))) src;
      mirror_rows x x_end rows (set_back b (scale_scratch s) s)
  end.
Definition present_region (x y w h : Z) : ST fb unit := fun d =>
  match state d with
  | None => Ret tt d
  | Some s =>
      if negb (vwidth s =? pwidth s) || negb (vheight s =? pheight s) then present d
      else if (w =? 0) || (h =? 0) then Ret tt d
      else
        let x := Z.min x (pwidth s) in
        let y := Z.min y (pheight s) in
        let x_end := Z.min (u32 (x + w)) (pwidth s) in
        let y_end := Z.min (u32 (y + h)) (pheight s) in
        if (x_end <=? x) || (y_end <=? y) then Ret tt d
        else
          match (s ← mirror_rows x x_end (range y y_end) s;
                 m ← push_rows u32 s x x_end (range y y_end) (video d); Some (s, m)) with
          | Some (s, m) => Ret tt (set_video m (set_state (Some s) d))
          | None => Panic
          end
  end.

(** ** The panic path *)
Definition emergency_put_pixel (x y color : Z) : ST fb unit := fun d =>
  if FB_ADDR d =? 0 then Ret tt d
  else if (FB_WIDTH d <=? x) || (FB_HEIGHT d <=? y) then Ret tt d
  else Ret tt (set_video (write_u32 (video d) (u64 (FB_ADDR d + y * FB_PITCH d + 4 * x)) color) d).
Definition emergency_fill (color : Z) : ST fb unit :=
  d ← get_st;
  for_in (range 0 (FB_HEIGHT d)) (fun y =>
    for_in (range 0 (FB_WIDTH d)) (fun x => emergency_put_pixel x y color)).
Fixpoint emergency_draw_string (x y : Z) (s : list Z) (fg : Z) : ST fb unit :=
  match s with
  | [] => mret tt
  | byte :: s =>
      for_in (zip (range 0 8) (glyph byte)) (fun '(row, bits) =>
        for_in (range 0 GLYPH_WIDTH) (fun col =>
          if is_set bits (Z.shiftl 1 col)
          then emergency_put_pixel (u32 (x + col)) (u32 (y + row)) fg else mret tt));;
      emergency_draw_string (u32 (x + GLYPH_WIDTH)) y s fg
  end.
