(* ===== verification/FbFacts.v ===== *)
(** * What the frame buffer shows

    The pictures the three ways of updating the screen leave there: the whole
    back buffer, scaled if need be; a region of it; and a region saved before a
    drawing and restored after it. *)
From stdpp Require Import list_numbers.
From S2P Require Import Prelude Bytes PhysMem Multiboot Pmm Paging Font Gfx Draw PixelBuffer Shadow Scale Fb.

(** ** Bytes of pixels *)
Lemma length_pixel_bytes l : length (pixel_bytes l) = (4 * length l)%nat.
Proof.
  induction l as [|p l IH]; [done|]. change (pixel_bytes (p :: l)) with (le_split 4 p ++ pixel_bytes l).
  rewrite length_app, IH. simpl. lia.
Qed.
Lemma pixel_bytes_lookup l k b :
  (k < length l)%nat -> (b < 4)%nat -> pixel_bytes l !!! (4 * k + b)%nat = le_split 4 (l !!! k) !!! b.
Proof.
  revert k. induction l as [|p l IH]; intros k Hk Hb; [simpl in Hk; lia|].
  change (pixel_bytes (p :: l)) with (le_split 4 p ++ pixel_bytes l). destruct k as [|k].
  - by rewrite Nat.mul_0_r, Nat.add_0_l, lookup_total_app_l by (rewrite length_le_split; lia).
  - rewrite lookup_total_app_r by (rewrite length_le_split; lia). rewrite length_le_split.
    replace (4 * S k + b - 4)%nat with (4 * k + b)%nat by lia. apply IH; simpl in Hk; lia.
Qed.

(** ** The screen *)
Section screen.
Implicit Types (s : State) (d : fb).

(** Address of the physical pixel ([i], [j]). *)
Definition screen_addr s (i j : Z) : Z := addr s + j * pitch s + 4 * i.
Definition screen_pixel (m : mem) s (i j : Z) : Z := load 4 m (screen_addr s i j).
(** What the boot loader and [init] guarantee. *)
Definition display_ok s : Prop :=
  0 < pwidth s <= 2 ^ 24 /\ 0 < pheight s <= 2 ^ 24 /\ pwidth s * pheight s < 2 ^ 32 /\
  4 * pwidth s <= pitch s /\ 0 <= addr s /\ addr s + pheight s * pitch s < 2 ^ 64 /\
  0 < vwidth s <= pwidth s /\ 0 < vheight s <= pheight s /\
  Z.of_nat (length (vback_buffer s)) = vwidth s * vheight s /\
  Z.of_nat (length (back_buffer s)) = pwidth s * pheight s.
Definition native s : bool := (vwidth s =? pwidth s) && (vheight s =? pheight s).
(** The picture the screen should show. *)
Definition composed s (i j : Z) : Z :=
  if native s then grid (vback_buffer s) (vwidth s) i j
  else bilinear (grid (vback_buffer s) (vwidth s)) (vwidth s) (vheight s) (pwidth s) (pheight s) i j.
(** Some pixel of the rows [y0, y1), columns [x0, x1), is at address [a]. *)
Definition on_screen s (x0 x1 y0 y1 a : Z) : Prop :=
  exists j, y0 <= j < y1 /\ screen_addr s x0 j <= a < screen_addr s x1 j.

Lemma native_spec s : native s = true <-> vwidth s = pwidth s /\ vheight s = pheight s.
Proof. unfold native. rewrite andb_true_iff, !Z.eqb_eq. done. Qed.
Lemma screen_disjoint s i1 j1 i2 j2 b1 b2 :
  display_ok s -> 0 <= i1 < pwidth s -> 0 <= i2 < pwidth s -> 0 <= b1 < 4 -> 0 <= b2 < 4 ->
  screen_addr s i1 j1 + b1 = screen_addr s i2 j2 + b2 -> i1 = i2 /\ j1 = j2 /\ b1 = b2.
Proof.
  unfold display_ok, screen_addr. intros (? & ? & ? & Hp & _) Hi1 Hi2 Hb1 Hb2 E.
  assert (j1 = j2) as ->; [|lia].
  destruct (Z.lt_trichotomy j1 j2) as [H'|[->|H']]; [|done|]; exfalso; nia.
Qed.

(** [push_rows] puts exactly its part of the back buffer on the screen. *)
Lemma push_rows_spec ix s x x_end m : forall y0 n,
  (forall z, 0 <= z <= pwidth s * pheight s -> ix z = z) ->
  display_ok s -> 0 <= x <= x_end -> x_end <= pwidth s -> 0 <= y0 -> 0 <= n -> y0 + n <= pheight s ->
  exists m', push_rows ix s x x_end (range y0 (y0 + n)) m = Some m' /\
    (forall i j b, x <= i < x_end -> y0 <= j < y0 + n -> 0 <= b < 4 ->
       m' (screen_addr s i j + b) = le_split 4 (back_buffer s !!! Z.to_nat (j * pwidth s + i)) !!! Z.to_nat b) /\
    (forall a, ~ on_screen s x x_end y0 (y0 + n) a -> m' a = m a).
Proof.
  intros y0 n Hix Hd Hx Hxe Hy0 Hn. revert y0 m Hy0. rewrite <- (Z2Nat.id n Hn).
  induction (Z.to_nat n) as [|k IH]; intros y0 m Hy0 Hyn.
  - rewrite range_empty by lia. exists m. split_and!; try done. intros. lia.
  - unfold range. replace (y0 + Z.of_nat (S k) - y0) with (Z.of_nat (S k)) by lia. rewrite seqZ_cons by lia.
    replace (Z.pred (Z.of_nat (S k))) with (Z.succ y0 + Z.of_nat k - Z.succ y0) by lia. fold (range (Z.succ y0) (Z.succ y0 + Z.of_nat k)).
    pose proof Hd as (Hpw & Hph & Hpp & Hpi & Ha & Hae & _ & _ & _ & Hl).
    assert (0 <= y0 * pwidth s + x /\ y0 * pwidth s + x_end <= pwidth s * pheight s) as [? ?] by nia.
    cbn [push_rows]. rewrite !Hix by lia.
    unfold get_range. rewrite !(proj2 (Z.leb_le _ _)) by lia. cbn [andb mbind option_bind].
    assert (0 <= y0 * pitch s /\ y0 * pitch s + pitch s <= pheight s * pitch s) as [? ?] by nia.
    rewrite (wrap_small 64) by (unfold in_u; lia).
    set (row := take _ (drop _ (back_buffer s))).
    assert (Z.of_nat (length row) = x_end - x) as Hrow by (unfold row; rewrite length_take, length_drop; lia).
    assert (forall i, x <= i < x_end -> row !!! Z.to_nat (i - x) = back_buffer s !!! Z.to_nat (y0 * pwidth s + i)) as Hrl.
    { intros i Hi. unfold row. rewrite lookup_total_take, decide_True, lookup_total_drop by lia. f_equal. lia. }
    clearbody row.
    destruct (IH (Z.succ y0) (mem_write m (screen_addr s x y0) (video_bytes row)) ltac:(lia) ltac:(lia)) as (m' & E & Hin & Hout).
    change (addr s + y0 * pitch s + 4 * x) with (screen_addr s x y0). exists m'. split; [exact E|].
    assert (forall a, ~ on_screen s x x_end (Z.succ y0) (Z.succ y0 + Z.of_nat k) a -> m' a =
      mem_write m (screen_addr s x y0) (video_bytes row) a) as Hout' by done.
    split.
    + intros i j b Hi Hj Hb. destruct (decide (j = y0)) as [->|]; [|apply Hin; lia]. rewrite Hout'.
      * unfold mem_write, video_bytes. rewrite length_pixel_bytes. unfold screen_addr.
        rewrite (proj2 (Z.leb_le _ _)), (proj2 (Z.ltb_lt _ _)) by lia. cbn [andb].
        replace (Z.to_nat (addr s + y0 * pitch s + 4 * i + b - (addr s + y0 * pitch s + 4 * x)))
          with (4 * Z.to_nat (i - x) + Z.to_nat b)%nat by lia.
        rewrite pixel_bytes_lookup by lia. rewrite Hrl by lia. reflexivity.
      * intros (j & Hj' & Hjr). unfold screen_addr in Hjr.
        assert (y0 * pitch s + pitch s <= j * pitch s) by (clear - Hj' Hpi Hpw; nia). lia.
    + intros a Hna. rewrite Hout'.
      * unfold mem_write, video_bytes. rewrite length_pixel_bytes.
        destruct (Z.leb_spec (screen_addr s x y0) a), (Z.ltb_spec a (screen_addr s x y0 + Z.of_nat (4 * length row))); cbn [andb]; try done.
        exfalso. apply Hna. exists y0. split; [lia|]. unfold screen_addr in *. lia.
      * intros (j & Hj' & Hjr). apply Hna. exists j. split; [lia|done].
Qed.

(** ** Presenting *)
Lemma compose_spec s :
  display_ok s -> native s = true \/ (2 <= pwidth s /\ 2 <= pheight s) ->
  exists back scratch, compose s = Some (set_back back scratch s) /\
    Z.of_nat (length back) = pwidth s * pheight s /\
    (forall i j, 0 <= i < pwidth s -> 0 <= j < pheight s -> back !!! Z.to_nat (j * pwidth s + i) = composed s i j) /\
    (native s = true -> back = vback_buffer s /\ scratch = scale_scratch s).
Proof.
  intros (Hpw & Hph & Hpp & Hpi & Ha & Hae & Hvw & Hvh & Hlv & Hl) Hn. unfold compose, composed.
  destruct (native s) eqn:En.
  - apply native_spec in En as [Ew Eh]. rewrite Ew, Eh, !Z.eqb_refl. cbn [negb orb].
    rewrite Ew, Eh in Hlv. rewrite decide_True by lia. eexists _, _. split; [done|]. split_and!; try done.
  - destruct Hn as [?|[Hpw2 Hph2]]; [done|].
    assert (negb (vwidth s =? pwidth s) || negb (vheight s =? pheight s) = true) as ->.
    { unfold native in En. rewrite <- negb_andb, En. done. }
    set (scratch := if Z.of_nat (length (scale_scratch s)) <? pwidth s * 2
      then replicate (Z.to_nat (pwidth s * 2)) 0 else scale_scratch s).
    assert (pwidth s * 2 <= Z.of_nat (length scratch)) as Hsc.
    { unfold scratch. destruct (Z.ltb_spec (Z.of_nat (length (scale_scratch s))) (pwidth s * 2)); [|lia]. rewrite length_replicate. lia. }
    unfold scale_into_scratch. rewrite (proj2 (Z.ltb_ge _ (pwidth s))) by lia.
    assert (vwidth s * pwidth s <= 2 ^ 24 * 2 ^ 24) by (apply Z.mul_le_mono_nonneg; lia).
    assert (vheight s * pheight s <= 2 ^ 24 * 2 ^ 24) by (apply Z.mul_le_mono_nonneg; lia).
    assert (vwidth s * vheight s <= pwidth s * pheight s) by (apply Z.mul_le_mono_nonneg; lia).
    destruct (scale_pixels_spec (src_pixel (vback_buffer s) (vwidth s)) (grid (vback_buffer s) (vwidth s)) (vwidth s) (vheight s) (pwidth s) (pheight s) (back_buffer s)
      (Some (take (Z.to_nat (pwidth s)) scratch, drop (Z.to_nat (pwidth s)) scratch)))
      as (r & -> & Hlr & Hr & _ & _); [lia..| |lia| |].
    + intros x y Hx Hy. apply (src_pixel_grid _ _ (vheight s)); try done. lia.
    + rewrite length_take, length_drop. lia.
    + cbn [mbind option_bind]. eexists _, _. split; [done|]. split_and!; [lia| |done].
      intros i j Hi Hj. apply list_lookup_total_correct. by apply Hr.
Qed.

(** The memory of the whole screen. *)
Definition screen_shows (m : mem) s (f : Z -> Z -> Z) : Prop :=
  forall i j, 0 <= i < pwidth s -> 0 <= j < pheight s -> screen_pixel m s i j = u32 (f i j).
Lemma load_bytes m a v :
  (forall b, 0 <= b < 4 -> m (a + b) = le_split 4 v !!! Z.to_nat b) -> load 4 m a = u32 v.
Proof.
  intros Hb. unfold load. assert (mem_read m a 4 = le_split 4 v) as ->; [|apply (le_combine_split 4)].
  apply list_eq. intros k. destruct (decide (k < 4)%nat) as [Hk|Hk].
  - rewrite lookup_mem_read by done. rewrite Hb, Nat2Z.id by lia.
    by rewrite <- list_lookup_lookup_total_lt by (rewrite length_le_split; lia).
  - rewrite !lookup_ge_None_2; [done|rewrite length_le_split; lia|rewrite length_mem_read; lia].
Qed.
Lemma present_spec s d :
  state d = Some s -> display_ok s -> native s = true \/ (2 <= pwidth s /\ 2 <= pheight s) ->
  exists back scratch m, present d = Ret tt (set_video m (set_state (Some (set_back back scratch s)) d)) /\
    Z.of_nat (length back) = pwidth s * pheight s /\
    (forall i j, 0 <= i < pwidth s -> 0 <= j < pheight s -> back !!! Z.to_nat (j * pwidth s + i) = composed s i j) /\
    (native s = true -> back = vback_buffer s /\ scratch = scale_scratch s) /\
    (forall i j b, 0 <= i < pwidth s -> 0 <= j < pheight s -> 0 <= b < 4 ->
       m (screen_addr s i j + b) = le_split 4 (composed s i j) !!! Z.to_nat b) /\
    (forall a, ~ on_screen s 0 (pwidth s) 0 (pheight s) a -> m a = video d a).
Proof.
  intros Es Hd Hn. destruct (compose_spec s Hd Hn) as (back & scratch & Ec & Hlb & Hb & Hnat).
  assert (display_ok (set_back back scratch s)) as Hd'. { unfold display_ok in *. cbn. intuition lia. }
  pose proof Hd as (Hpw & Hph & Hpp & _).
  destruct (push_rows_spec u64 (set_back back scratch s) 0 (pwidth s) (video d) 0 (pheight s)) as (m & Em & Hin & Hout);
    [intros; apply wrap_small; unfold in_u; cbn in *; lia|done|cbn; lia..|].
  exists back, scratch, m. unfold present. rewrite Es, Ec. cbn [mbind option_bind].
  change (0 + pheight s) with (pheight s) in *.
  change (pheight (set_back back scratch s)) with (pheight s). change (pwidth (set_back back scratch s)) with (pwidth s).
  rewrite Em. cbn [mbind option_bind]. split_and!; try done.
  intros i j b Hi Hj Hbb. rewrite <- (Hb i j Hi Hj). by apply Hin.
Qed.

(** After [present] the display shows the desktop: every physical pixel in
    the video memory, and what [get_pixel] reads back, is the pixel of the
    virtual back buffer, or at another resolution the bilinear mix of its four
    source pixels; memory that is not part of the visible screen keeps its
    contents (the padding of each scanline included), the desktop picture is not
    touched, and nothing panics. *)
Theorem present_shows s d :
  state d = Some s -> display_ok s -> native s = true \/ (2 <= pwidth s /\ 2 <= pheight s) ->
  exists d' s', present d = Ret tt d' /\ state d' = Some s' /\ display_ok s' /\
    vback_buffer s' = vback_buffer s /\ screen_shows (video d') s' (composed s) /\
    (forall i j, 0 <= i < pwidth s -> 0 <= j < pheight s -> get_pixel i j d' = Ret (Some (composed s i j)) d') /\
    forall a, ~ on_screen s 0 (pwidth s) 0 (pheight s) a -> video d' a = video d a.
Proof.
  intros Es Hd Hn. destruct (present_spec s d Es Hd Hn) as (back & scratch & m & E & Hlb & Hb & _ & Hin & Hout).
  eexists _, (set_back back scratch s). split; [exact E|]. pose proof Hd as (Hpw & Hph & Hpp & _).
  split_and!; try done.
  - unfold display_ok in *. cbn. intuition lia.
  - intros i j Hi Hj. apply load_bytes. intros b Hbb. by apply Hin.
  - intros i j Hi Hj. unfold get_pixel. cbn. rewrite (proj2 (Z.leb_gt _ i)), (proj2 (Z.leb_gt _ j)) by lia. cbn [orb].
    pose proof (index_bound (pwidth s) (pheight s) i j Hi Hj). rewrite wrap_small by (unfold in_u; lia).
    rewrite list_lookup_lookup_total_lt by lia. by rewrite Hb.
Qed.

(** ** Part of the screen *)
Lemma screen_cases s a :
  display_ok s ->
  (exists i j b, 0 <= i < pwidth s /\ 0 <= j < pheight s /\ 0 <= b < 4 /\ a = screen_addr s i j + b) \/
  ~ on_screen s 0 (pwidth s) 0 (pheight s) a.
Proof.
  intros (Hpw & Hph & _ & Hpi & _). unfold on_screen, screen_addr.
  set (j := (a - addr s) / pitch s). set (r := (a - addr s) mod pitch s).
  pose proof (Z.div_mod (a - addr s) (pitch s) ltac:(lia)) as Hdm. pose proof (Z.mod_pos_bound (a - addr s) (pitch s) ltac:(lia)) as Hr.
  fold j r in Hdm, Hr. destruct (decide (0 <= j < pheight s /\ r < 4 * pwidth s)) as [[Hj Hrw]|Hn].
  - left. exists (r / 4), j, (r mod 4). pose proof (Z.div_mod r 4 ltac:(lia)). pose proof (Z.mod_pos_bound r 4 ltac:(lia)).
    assert (0 <= r / 4) by (apply Z.div_pos; lia). split_and!; lia.
  - right. intros (j' & Hj' & Ha). apply Hn. assert (j = j') as ->.
    { unfold j. symmetry. apply (Z.div_unique _ _ _ (a - addr s - pitch s * j')); lia. }
    lia.
Qed.
Lemma region_row_spec s x x_end sy :
  0 <= x <= x_end -> x_end <= vwidth s -> 0 <= sy < vheight s -> vwidth s * vheight s < 2 ^ 32 ->
  Z.of_nat (length (vback_buffer s)) = vwidth s * vheight s ->
  exists row, region_row s x x_end sy = Some row /\ Z.of_nat (length row) = x_end - x /\
    forall i, x <= i < x_end -> row !!! Z.to_nat (i - x) = vback_buffer s !!! Z.to_nat (sy * vwidth s + i).
Proof.
  intros Hx Hxe Hy Hov Hl. assert (0 <= sy * vwidth s + x /\ sy * vwidth s + x_end <= vwidth s * vheight s) as [? ?] by nia.
  unfold region_row, get_range. rewrite !wrap_small by (unfold in_u; lia). rewrite !(proj2 (Z.leb_le _ _)) by lia. cbn [andb].
  eexists. split; [done|]. rewrite length_take, length_drop. split; [lia|].
  intros i Hi. rewrite lookup_total_take, decide_True, lookup_total_drop by lia. f_equal. lia.
Qed.
(** Mirroring rows of the virtual buffer into the physical one. *)
Lemma mirror_rows_spec x x_end n : 0 <= n -> forall y0 s,
  native s = true -> display_ok s -> 0 <= x <= x_end -> x_end <= pwidth s -> 0 <= y0 -> y0 + n <= pheight s ->
  exists b, mirror_rows x x_end (range y0 (y0 + n)) s = Some (set_back b (scale_scratch s) s) /\
    length b = length (back_buffer s) /\
    forall i j, 0 <= i < pwidth s -> 0 <= j < pheight s -> b !!! Z.to_nat (j * pwidth s + i) =
      if in_box x y0 (x_end - x) n i j then vback_buffer s !!! Z.to_nat (j * pwidth s + i)
      else back_buffer s !!! Z.to_nat (j * pwidth s + i).
Proof.
  intros Hn. rewrite <- (Z2Nat.id n Hn). clear Hn. induction (Z.to_nat n) as [|k IH]; intros y0 s Hnat Hd Hx Hxe Hy0 Hyn.
  - rewrite range_empty by lia. exists (back_buffer s). split_and!; [by destruct s|done|].
    intros i j Hi Hj. unfold in_box, in_range. cbn [fst snd].
    destruct (Z.leb_spec y0 j), (Z.ltb_spec j (y0 + Z.of_nat 0)); cbn [andb]; done || lia.
  - unfold range. replace (y0 + Z.of_nat (S k) - y0) with (Z.of_nat (S k)) by lia. rewrite seqZ_cons by lia.
    replace (Z.pred (Z.of_nat (S k))) with (Z.succ y0 + Z.of_nat k - Z.succ y0) by lia. fold (range (Z.succ y0) (Z.succ y0 + Z.of_nat k)).
    pose proof Hd as (Hpw & Hph & Hpp & _ & _ & _ & _ & _ & Hlv & Hl). pose proof (proj1 (native_spec s) Hnat) as [Ew Eh].
    rewrite Ew, Eh in Hlv. cbn [mirror_rows].
    destruct (region_row_spec s x x_end y0) as (row & -> & Hlr & Hrow); [done|lia|lia|rewrite Ew, Eh; lia|rewrite Ew, Eh; lia|].
    rewrite Ew in Hrow. cbn [mbind option_bind].
    assert (0 <= y0 * pwidth s + x /\ y0 * pwidth s + x_end <= pwidth s * pheight s) as [? ?] by nia.
    rewrite !(wrap_small 32) by (unfold in_u; lia). unfold get_range at 1. rewrite !(proj2 (Z.leb_le _ _)) by lia. cbn [andb mbind option_bind].
    destruct (splice_row (back_buffer s) row (pwidth s) (pheight s) x y0) as (b1 & -> & Hl1 & Hb1); [lia..|]. cbn [mbind option_bind].
    destruct (IH (Z.succ y0) (set_back b1 (scale_scratch s) s)) as (b & -> & Hlb & Hb); try done; cbn; try lia.
    { unfold display_ok in *. cbn. intuition lia. }
    exists b. split_and!; [done|cbn in Hlb; lia|]. intros i j Hi Hj. cbn in Hb. rewrite Hb, Hb1, Hlr by done.
    unfold in_box, in_range, in_span. cbn [fst snd]. replace (x + (x_end - x)) with x_end by lia.
    destruct (Z.eqb_spec j y0) as [->|].
    + rewrite (proj2 (Z.leb_gt (Z.succ y0) y0)), (proj2 (Z.leb_le y0 y0)), (proj2 (Z.ltb_lt y0 (y0 + Z.of_nat (S k)))) by lia.
      cbn [andb]. destruct (Z.leb_spec x i), (Z.ltb_spec i x_end); cbn [andb]; try done. by rewrite Hrow by lia.
    + cbn [andb]. destruct (Z.leb_spec (Z.succ y0) j), (Z.leb_spec y0 j), (Z.ltb_spec j (Z.succ y0 + Z.of_nat k)),
        (Z.ltb_spec j (y0 + Z.of_nat (S k))); cbn [andb]; done || lia.
Qed.

(** A drawing of the desktop, confined to the box at ([x], [y]). *)
Definition draws_in_box (m : ST State unit) (x y w h : Z) : Prop :=
  exists f : picture, (forall s0 W H, draws_by (pix_ok s0) vwidth vheight pix W H m f) /\
    forall i j p, in_box x y w h i j = false -> f i j p = p.
Lemma display_pix_ok s : display_ok s -> pix_ok s s.
Proof.
  intros (Hpw & Hph & Hpp & _ & _ & _ & Hvw & Hvh & Hlv & _). unfold pix_ok. cbn.
  assert (vwidth s * vheight s <= pwidth s * pheight s) by (apply Z.mul_le_mono_nonneg; lia). split_and!; try lia. done.
Qed.
Lemma drawing_picture s m f :
  display_ok s -> (forall s0 W H, draws_by (pix_ok s0) vwidth vheight pix W H m f) ->
  exists b, m s = Ret tt (set_buf b s) /\ Z.of_nat (length b) = vwidth s * vheight s /\
    forall i j, 0 <= i < vwidth s -> 0 <= j < vheight s ->
      b !!! Z.to_nat (j * vwidth s + i) = f i j (vback_buffer s !!! Z.to_nat (j * vwidth s + i)).
Proof.
  intros Hd Hf. pose proof (display_pix_ok s Hd) as Hok.
  destruct (wp_elim _ _ _ (Hf s (vwidth s) (vheight s) s Hok eq_refl eq_refl)) as ([] & s' & E & Hs' & HW & HH & Hp).
  destruct Hs' as (_ & _ & _ & _ & _ & Hl & Hset). cbn in Hl. rewrite HW, HH in Hl.
  exists (vback_buffer s'). split; [|split; [done|]].
  - rewrite E. f_equal. etransitivity; [symmetry; apply (set_buf_buf s')|]. apply Hset.
  - intros i j Hi Hj. specialize (Hp i j Hi Hj). unfold pix in Hp. cbn in Hp. by rewrite HW in Hp.
Qed.
Lemma box_drawing s m x y w h :
  display_ok s -> draws_in_box m x y w h ->
  exists b, m s = Ret tt (set_buf b s) /\ Z.of_nat (length b) = vwidth s * vheight s /\
    forall i j, 0 <= i < vwidth s -> 0 <= j < vheight s -> in_box x y w h i j = false ->
      b !!! Z.to_nat (j * vwidth s + i) = vback_buffer s !!! Z.to_nat (j * vwidth s + i).
Proof.
  intros Hd (f & Hf & Hbox). destruct (drawing_picture s m f Hd Hf) as (b & E & Hl & Hb). exists b. split_and!; [done..|].
  intros i j Hi Hj Hbx. rewrite Hb by done. by apply Hbox.
Qed.
Lemma in_box_clip x y w h W H i j :
  in_u 32 x -> in_u 32 y -> 0 <= w -> 0 <= h -> x + w < 2 ^ 32 -> y + h < 2 ^ 32 -> 0 <= i < W -> 0 <= j < H ->
  let x' := Z.min x W in let y' := Z.min y H in
  let xe := Z.min (u32 (x' + w)) W in let ye := Z.min (u32 (y' + h)) H in
  in_box x y w h i j = in_box x' y' (xe - x') (ye - y') i j /\ 0 <= x' <= xe /\ xe <= W /\ 0 <= y' <= ye /\ ye <= H.
Proof.
  unfold in_u. intros Hx Hy Hw Hh Hxw Hyh Hi Hj. cbv zeta. rewrite !wrap_small by (unfold in_u; lia).
  split; [|lia]. unfold in_box, in_range. cbn [fst snd]. apply Bool.eq_iff_eq_true.
  rewrite !andb_true_iff, !Z.leb_le, !Z.ltb_lt. lia.
Qed.

(** Two presentations of the picture [b2]: one of everything, one of the box
    only, over a screen that shows [b1] and differs in the box only. *)
Section agree.
Variables (s : State) (box : Z -> Z -> bool) (b1 b2 : list Z) (m0 : mem).
Hypotheses (Hd : display_ok s)
  (Hl1 : Z.of_nat (length b1) = pwidth s * pheight s) (Hl2 : Z.of_nat (length b2) = pwidth s * pheight s)
  (Hbox : forall i j, 0 <= i < pwidth s -> 0 <= j < pheight s -> box i j = false ->
     b2 !!! Z.to_nat (j * pwidth s + i) = b1 !!! Z.to_nat (j * pwidth s + i))
  (Hm0 : forall i j b, 0 <= i < pwidth s -> 0 <= j < pheight s -> 0 <= b < 4 ->
     m0 (screen_addr s i j + b) = le_split 4 (b1 !!! Z.to_nat (j * pwidth s + i)) !!! Z.to_nat b).
Lemma mirrored_agrees b3 :
  length b3 = length b1 ->
  (forall i j, 0 <= i < pwidth s -> 0 <= j < pheight s -> b3 !!! Z.to_nat (j * pwidth s + i) =
     if box i j then b2 !!! Z.to_nat (j * pwidth s + i) else b1 !!! Z.to_nat (j * pwidth s + i)) ->
  b3 = b2.
Proof.
  intros Hl3 H3. pose proof Hd as (Hpw & Hph & _).
  apply (grid_list_eq _ _ (pwidth s) (pheight s)); [lia..|]. intros i j Hi Hj.
  pose proof (index_bound (pwidth s) (pheight s) i j Hi Hj). rewrite !list_lookup_lookup_total_lt by lia. f_equal.
  rewrite H3 by done. destruct (box i j) eqn:E; [done|]. symmetry. by apply Hbox.
Qed.
Lemma memories_agree m3 m4 :
  (forall i j b, 0 <= i < pwidth s -> 0 <= j < pheight s -> 0 <= b < 4 ->
     m4 (screen_addr s i j + b) = le_split 4 (b2 !!! Z.to_nat (j * pwidth s + i)) !!! Z.to_nat b) ->
  (forall a, ~ on_screen s 0 (pwidth s) 0 (pheight s) a -> m4 a = m0 a) ->
  (forall i j b, 0 <= i < pwidth s -> 0 <= j < pheight s -> 0 <= b < 4 -> box i j = true ->
     m3 (screen_addr s i j + b) = le_split 4 (b2 !!! Z.to_nat (j * pwidth s + i)) !!! Z.to_nat b) ->
  (forall i j b, 0 <= i < pwidth s -> 0 <= j < pheight s -> 0 <= b < 4 -> box i j = false ->
     m3 (screen_addr s i j + b) = m0 (screen_addr s i j + b)) ->
  (forall a, ~ on_screen s 0 (pwidth s) 0 (pheight s) a -> m3 a = m0 a) ->
  m3 ≡ m4.
Proof.
  intros H4 H4' H3 H3b H3' a. destruct (screen_cases s a Hd) as [(i & j & b & Hi & Hj & Hb & ->)|Hn].
  - rewrite H4 by done. destruct (box i j) eqn:E; [by apply H3|].
    rewrite H3b, Hm0 by done. by rewrite Hbox.
  - by rewrite H4', H3'.
Qed.
End agree.

(** [present_region] at the native resolution. *)
Definition region_shown (s : State) (d : fb) (box : Z -> Z -> bool) (d3 : fb) : Prop :=
  exists b3 m3, d3 = set_video m3 (set_state (Some (set_back b3 (scale_scratch s) s)) d) /\
    length b3 = length (back_buffer s) /\
    (forall i j, 0 <= i < pwidth s -> 0 <= j < pheight s -> b3 !!! Z.to_nat (j * pwidth s + i) =
       if box i j then vback_buffer s !!! Z.to_nat (j * pwidth s + i) else back_buffer s !!! Z.to_nat (j * pwidth s + i)) /\
    (forall i j b, 0 <= i < pwidth s -> 0 <= j < pheight s -> 0 <= b < 4 -> box i j = true ->
       m3 (screen_addr s i j + b) = le_split 4 (vback_buffer s !!! Z.to_nat (j * pwidth s + i)) !!! Z.to_nat b) /\
    (forall i j b, 0 <= i < pwidth s -> 0 <= j < pheight s -> 0 <= b < 4 -> box i j = false ->
       m3 (screen_addr s i j + b) = video d (screen_addr s i j + b)) /\
    (forall a, ~ on_screen s 0 (pwidth s) 0 (pheight s) a -> m3 a = video d a).
Lemma region_shown_nothing s d box :
  state d = Some s -> (forall i j, 0 <= i < pwidth s -> 0 <= j < pheight s -> box i j = false) -> region_shown s d box d.
Proof.
  intros Es Hno. exists (back_buffer s), (video d). split_and!; try done.
  - destruct d as [st ? ? ? ? ? ?]. cbn in *. subst st. by destruct s.
  - intros i j Hi Hj. by rewrite Hno.
  - intros i j b Hi Hj Hb Hbx. by rewrite Hno in Hbx.
Qed.
Lemma region_shown_box s d x0 x1 y0 n :
  native s = true -> display_ok s -> state d = Some s -> 0 <= x0 <= x1 -> x1 <= pwidth s -> 0 <= y0 -> 0 <= n -> y0 + n <= pheight s ->
  exists s3 m3, (s3 ← mirror_rows x0 x1 (range y0 (y0 + n)) s; m ← push_rows u32 s3 x0 x1 (range y0 (y0 + n)) (video d); Some (s3, m)) =
    Some (s3, m3) /\ region_shown s d (in_box x0 y0 (x1 - x0) n) (set_video m3 (set_state (Some s3) d)).
Proof.
  intros Hnat Hd Es Hx Hx1 Hy Hn Hyn. destruct (mirror_rows_spec x0 x1 n Hn y0 s) as (b & -> & Hlb & Hb); [done..|].
  cbn [mbind option_bind]. pose proof Hd as (Hpw & Hph & Hpp & _).
  assert (display_ok (set_back b (scale_scratch s) s)) as Hd'. { unfold display_ok in *. cbn. intuition lia. }
  destruct (push_rows_spec u32 (set_back b (scale_scratch s) s) x0 x1 (video d) y0 n) as (m3 & -> & Hin & Hout);
    [intros; apply wrap_small; unfold in_u; cbn in *; lia|done..|].
  cbn [mbind option_bind]. eexists _, _. split; [done|]. exists b, m3. split_and!; try done.
  - intros i j c Hi Hj Hc Hbox. pose proof (Hb i j Hi Hj) as Hbij. rewrite Hbox in Hbij. rewrite <- Hbij.
    unfold in_box, in_range in Hbox. cbn [fst snd] in Hbox. to_prop. apply Hin; lia.
  - intros i j c Hi Hj Hc Hbox. apply Hout. intros (j' & Hj' & Ha). unfold screen_addr in Ha. cbn in Ha.
    destruct Hd as (_ & _ & _ & Hpi & _).
    assert (j' = j) as -> by (destruct (Z.lt_trichotomy j' j) as [?|[->|?]]; [exfalso; nia|done|exfalso; nia]).
    unfold in_box, in_range in Hbox. cbn [fst snd] in Hbox.
    rewrite !(proj2 (Z.leb_le _ _)), !(proj2 (Z.ltb_lt _ _)) in Hbox by lia. done.
  - intros a Ha. apply Hout. intros (j & Hj & Haj). apply Ha. exists j. split; [lia|]. unfold screen_addr in *. cbn in *. lia.
Qed.
Lemma region_shown_ext s d box1 box2 d3 :
  (forall i j, 0 <= i < pwidth s -> 0 <= j < pheight s -> box1 i j = box2 i j) ->
  region_shown s d box1 d3 -> region_shown s d box2 d3.
Proof.
  intros He (b3 & m3 & -> & Hl & Hb & H1 & H2 & H3). exists b3, m3. split_and!; try done.
  - intros i j Hi Hj. rewrite <- He by done. by apply Hb.
  - intros i j b Hi Hj Hb' Hbx. rewrite <- He in Hbx by done. by apply H1.
  - intros i j b Hi Hj Hb' Hbx. rewrite <- He in Hbx by done. by apply H2.
Qed.
Lemma present_region_spec s d x y w h :
  native s = true -> display_ok s -> state d = Some s ->
  in_u 32 x -> in_u 32 y -> 0 <= w -> 0 <= h -> x + w < 2 ^ 32 -> y + h < 2 ^ 32 ->
  exists d3, present_region x y w h d = Ret tt d3 /\ region_shown s d (in_box x y w h) d3.
Proof.
  intros Hnat Hd Es Hx Hy Hw Hh Hxw Hyh. pose proof (proj1 (native_spec s) Hnat) as [Ew Eh].
  pose proof Hd as (Hpw & Hph & Hpp & _).
  unfold present_region. rewrite Es, Ew, Eh, !Z.eqb_refl. cbn [negb orb]. cbv zeta.
  destruct (in_box_clip x y w h (pwidth s) (pheight s) 0 0) as (_ & Hx' & Hxe & Hy' & Hye); [done..|lia|lia|].
  pose proof (fun i j Hi Hj => proj1 (in_box_clip x y w h (pwidth s) (pheight s) i j Hx Hy Hw Hh Hxw Hyh Hi Hj)) as Hclip.
  cbv zeta in Hclip, Hx', Hxe, Hy', Hye.
  set (x' := Z.min x (pwidth s)) in *. set (y' := Z.min y (pheight s)) in *.
  set (xe := Z.min (u32 (x' + w)) (pwidth s)) in *. set (ye := Z.min (u32 (y' + h)) (pheight s)) in *.
  assert (w = 0 \/ h = 0 \/ xe <= x' \/ ye <= y' -> region_shown s d (in_box x y w h) d) as Hno.
  { intros Hc. apply region_shown_nothing; [done|]. intros i j Hi Hj. rewrite Hclip by done.
    unfold in_box, in_range. cbn [fst snd]. apply not_true_is_false. rewrite !andb_true_iff, !Z.leb_le, !Z.ltb_lt.
    unfold x', y', xe, ye in *. rewrite !wrap_small in * by (unfold in_u in *; lia). lia. }
  destruct (Z.eqb_spec w 0); cbn [orb]; [eexists; split; [done|]; apply Hno; lia|].
  destruct (Z.eqb_spec h 0); [eexists; split; [done|]; apply Hno; lia|].
  destruct (Z.leb_spec xe x'); cbn [orb]; [eexists; split; [done|]; apply Hno; lia|].
  destruct (Z.leb_spec ye y'); [eexists; split; [done|]; apply Hno; lia|].
  destruct (region_shown_box s d x' xe y' (ye - y')) as (s3 & m3 & E & Hr); [done|done|done|lia..|].
  replace (y' + (ye - y')) with ye in E by lia. rewrite E. eexists. split; [done|].
  eapply region_shown_ext; [|exact Hr]. intros i j Hi Hj. symmetry. by apply Hclip.
Qed.

(** [present_region] over a screen that shows the back buffer, and [present]. *)
Lemma region_matches_whole s d x y w h :
  native s = true -> display_ok s -> state d = Some s ->
  in_u 32 x -> in_u 32 y -> 0 <= w -> 0 <= h -> x + w < 2 ^ 32 -> y + h < 2 ^ 32 ->
  (forall i j, 0 <= i < pwidth s -> 0 <= j < pheight s -> in_box x y w h i j = false ->
     vback_buffer s !!! Z.to_nat (j * pwidth s + i) = back_buffer s !!! Z.to_nat (j * pwidth s + i)) ->
  (forall i j b, 0 <= i < pwidth s -> 0 <= j < pheight s -> 0 <= b < 4 ->
     video d (screen_addr s i j + b) = le_split 4 (back_buffer s !!! Z.to_nat (j * pwidth s + i)) !!! Z.to_nat b) ->
  exists d3 d4, present_region x y w h d = Ret tt d3 /\ present d = Ret tt d4 /\ state d3 = state d4 /\ video d3 ≡ video d4.
Proof.
  intros Hnat Hd Es Hx Hy Hw Hh Hxw Hyh Hbox Hm0. pose proof (proj1 (native_spec s) Hnat) as [Ew Eh].
  pose proof Hd as (_ & _ & _ & _ & _ & _ & _ & _ & Hlv & Hlb). rewrite Ew, Eh in Hlv.
  destruct (present_region_spec s d x y w h) as (d3 & E3 & b3 & m3 & -> & Hl3 & H3 & M1 & M2 & M3); [done..|].
  destruct (present_spec s d Es Hd (or_introl Hnat)) as (b4 & sc4 & m4 & E4 & _ & _ & Hsc4 & Hin4 & Hout4).
  destruct (Hsc4 Hnat) as [-> ->]. unfold composed, grid in Hin4. rewrite Hnat, Ew in Hin4.
  eexists _, _. split; [exact E3|]. split; [exact E4|]. cbn [state set_video set_state video]. split.
  - do 2 f_equal. exact (mirrored_agrees s (in_box x y w h) (back_buffer s) (vback_buffer s) Hd Hlb Hlv Hbox b3 Hl3 H3).
  - exact (memories_agree s (in_box x y w h) (back_buffer s) (vback_buffer s) (video d) Hd Hbox Hm0 m3 m4 Hin4 Hout4 M1 M2 M3).
Qed.

(** C20: Pushing a region is enough: when the screen has been presented and a
    drawing then changes the desktop inside a rectangle only (which may reach
    over the edges of the screen), [present_region] of that rectangle leaves the
    same state and the same memory, byte for byte, as presenting everything. *)
Theorem present_region_suffices s d x y w h m :
  state d = Some s -> display_ok s -> native s = true \/ (2 <= pwidth s /\ 2 <= pheight s) ->
  in_u 32 x -> in_u 32 y -> 0 <= w -> 0 <= h -> x + w < 2 ^ 32 -> y + h < 2 ^ 32 ->
  draws_in_box m x y w h ->
  exists d1 d2 d3 d4, present d = Ret tt d1 /\ with_surface m d1 = Ret tt d2 /\
    present_region x y w h d2 = Ret tt d3 /\ present d2 = Ret tt d4 /\
    state d3 = state d4 /\ video d3 ≡ video d4.
Proof.
  intros Es Hd Hn Hx Hy Hw Hh Hxw Hyh Hm.
  destruct (present_spec s d Es Hd Hn) as (back & scratch & m0 & E & Hlb & _ & Hsc & Hin & _).
  set (s1 := set_back back scratch s) in *.
  assert (display_ok s1) as Hd1. { unfold display_ok, s1 in *. cbn. intuition lia. }
  destruct (box_drawing s1 m x y w h Hd1 Hm) as (b2 & Em & Hl2 & Hb2). set (s2 := set_buf b2 s1) in *.
  assert (display_ok s2) as Hd2. { unfold display_ok, s2 in *. cbn in *. intuition lia. }
  set (d2 := set_state (Some s2) (set_video m0 (set_state (Some s1) d))).
  eexists _, d2.
  assert (with_surface m (set_video m0 (set_state (Some s1) d)) = Ret tt d2) as Ed2.
  { unfold with_surface. cbn [state set_video set_state]. by rewrite Em. }
  assert (exists d3 d4, present_region x y w h d2 = Ret tt d3 /\ present d2 = Ret tt d4 /\ state d3 = state d4 /\ video d3 ≡ video d4)
    as (d3 & d4 & ? & ? & ? & ?); [|by exists d3, d4].
  destruct (native s) eqn:Enat.
  - destruct (Hsc eq_refl) as [Eb _]. pose proof (proj1 (native_spec s) Enat) as [Ew Eh].
    assert (Hnat2 : native s2 = true) by exact Enat. apply (region_matches_whole s2); try done.
    + intros i j Hi Hj Hbx. unfold s2, s1 in *. cbn in *. rewrite Eb. rewrite Ew, Eh in Hb2. by apply Hb2.
    + intros i j b Hi Hj Hb. change (back_buffer s2) with back. rewrite Eb. specialize (Hin i j b Hi Hj Hb).
      unfold composed, grid in Hin. rewrite Enat, Ew in Hin. exact Hin.
  - destruct Hn as [?|Hn]; [done|].
    destruct (present_spec s2 d2 eq_refl Hd2 (or_intror Hn)) as (b4 & sc4 & m4 & E4 & _).
    eexists _, _. split_and!; [|exact E4|done|done]. rewrite <- E4. unfold present_region, native in *.
    cbn [state d2 set_state]. change (vwidth s2) with (vwidth s). change (vheight s2) with (vheight s).
    change (pwidth s2) with (pwidth s). change (pheight s2) with (pheight s). by rewrite <- negb_andb, Enat.
Qed.

(** ** Saving and restoring a region *)
Lemma range_cons a n : 0 < n -> range a (a + n) = a :: range (Z.succ a) (Z.succ a + (n - 1)).
Proof. intros. unfold range. rewrite seqZ_cons by lia. f_equal. f_equal. lia. Qed.

Section region.
Variables (x y x_end w h vw vh : Z).
Hypotheses (Hx : 0 <= x <= x_end) (Hxe : x_end <= vw) (Hxw : x_end - x <= w)
  (Hy : 0 <= y) (Hyh : y + h < 2 ^ 32) (Hov : vw * vh < 2 ^ 32).
Definition geometry s : Prop :=
  vwidth s = vw /\ vheight s = vh /\ Z.of_nat (length (vback_buffer s)) = vw * vh.

Lemma snapshot_rows_spec s n : 0 <= n -> geometry s -> forall k out, 0 <= k -> k + n <= h -> Z.of_nat (length out) = w * h ->
  exists out', snapshot_rows s x y x_end w (range k (k + n)) out = Some out' /\ length out' = length out /\
    forall i j, x <= i < x_end -> y <= j < y + h -> out' !!! Z.to_nat ((j - y) * w + (i - x)) =
      if (y + k <=? j) && ((j <? y + k + n) && (j <? vh)) then vback_buffer s !!! Z.to_nat (j * vw + i)
      else out !!! Z.to_nat ((j - y) * w + (i - x)).
Proof.
  intros Hn (Ew & Eh & Hl). rewrite <- (Z2Nat.id n Hn). clear Hn.
  induction (Z.to_nat n) as [|m IH]; intros k out Hk Hkn Hlo.
  - rewrite range_empty by lia. exists out. split_and!; [done..|]. intros i j Hi Hj.
    destruct (Z.leb_spec (y + k) j), (Z.ltb_spec j (y + k + Z.of_nat 0)); cbn [andb]; done || lia.
  - rewrite range_cons by lia. cbn [snapshot_rows]. rewrite (wrap_small 32) by (unfold in_u; lia). rewrite Eh.
    replace (Z.succ k + (Z.of_nat (S m) - 1)) with (Z.succ k + Z.of_nat m) by lia.
    destruct (Z.leb_spec vh (y + k)) as [Hge|Hlt].
    { exists out. split_and!; [done..|]. intros i j Hi Hj.
      destruct (Z.leb_spec (y + k) j), (Z.ltb_spec j vh); rewrite ?andb_false_r; cbn [andb]; done || lia. }
    destruct (region_row_spec s x x_end (y + k)) as (row & -> & Hlr & Hrow); [lia|lia|lia|rewrite Ew, Eh; lia|rewrite Ew, Eh; lia|].
    cbn [mbind option_bind].
    destruct (splice_row out row w h 0 k) as (o1 & Eo1 & Hlo1 & Ho1); [lia..|]. rewrite Z.add_0_r in Eo1. rewrite Eo1. cbn [mbind option_bind].
    destruct (IH (Z.succ k) o1) as (o2 & E2 & Hlo2 & Ho2); [lia..|]. exists o2. split; [done|]. split; [lia|].
    intros i j Hi Hj. rewrite Ho2, Ho1 by lia. unfold in_span. rewrite Hlr, Ew in *. rewrite !Z.sub_0_r.
    destruct (Z.eqb_spec (j - y) k) as [Ej|Ej].
    + rewrite (proj2 (Z.leb_gt (y + Z.succ k) j)), (proj2 (Z.leb_le (y + k) j)), (proj2 (Z.ltb_lt j (y + k + Z.of_nat (S m)))),
        (proj2 (Z.ltb_lt j vh)), (proj2 (Z.leb_le 0 (i - x))), (proj2 (Z.ltb_lt (i - x) (0 + (x_end - x)))) by lia.
      cbn [andb]. rewrite Hrow by lia. do 2 f_equal. lia.
    + cbn [andb]. destruct (Z.leb_spec (y + Z.succ k) j), (Z.leb_spec (y + k) j), (Z.ltb_spec j (y + Z.succ k + Z.of_nat m)),
        (Z.ltb_spec j (y + k + Z.of_nat (S m))); cbn [andb]; done || lia.
Qed.
Lemma restore_rows_spec pixels n : 0 <= n -> Z.of_nat (length pixels) = w * h ->
  forall k s, geometry s -> 0 <= k -> k + n <= h ->
  exists b, restore_rows x y x_end w pixels (range k (k + n)) s = Some (set_buf b s) /\ Z.of_nat (length b) = vw * vh /\
    forall i j, 0 <= i < vw -> 0 <= j < vh -> b !!! Z.to_nat (j * vw + i) =
      if in_box x (y + k) (x_end - x) n i j then pixels !!! Z.to_nat ((j - y) * w + (i - x))
      else vback_buffer s !!! Z.to_nat (j * vw + i).
Proof.
  intros Hn Hlp. rewrite <- (Z2Nat.id n Hn). clear Hn.
  induction (Z.to_nat n) as [|m IH]; intros k s (Ew & Eh & Hl) Hk Hkn.
  - rewrite range_empty by lia. exists (vback_buffer s). split_and!; [f_equal; symmetry; exact (set_buf_buf s)|done|]. intros i j Hi Hj.
    unfold in_box, in_range. cbn [fst snd].
    destruct (Z.leb_spec (y + k) j), (Z.ltb_spec j (y + k + Z.of_nat 0)); cbn [andb]; done || lia.
  - rewrite range_cons by lia. cbn [restore_rows]. rewrite (wrap_small 32 (y + k)) by (unfold in_u; lia). rewrite Eh, Ew.
    replace (Z.succ k + (Z.of_nat (S m) - 1)) with (Z.succ k + Z.of_nat m) by lia.
    destruct (Z.leb_spec vh (y + k)) as [Hge|Hlt].
    { exists (vback_buffer s). split_and!; [f_equal; symmetry; exact (set_buf_buf s)|done|]. intros i j Hi Hj. unfold in_box, in_range. cbn [fst snd].
      by rewrite (proj2 (Z.leb_gt (y + k) j)) by lia. }
    destruct (region_row_spec s x x_end (y + k)) as (row & -> & _ & _); [lia|lia|lia|rewrite Ew, Eh; lia|rewrite Ew, Eh; lia|].
    cbn [mbind option_bind]. assert (0 <= k * w /\ k * w + w <= w * h) as [? ?] by nia.
    unfold get_range at 1. rewrite !(proj2 (Z.leb_le _ _)) by lia. cbn [andb mbind option_bind].
    set (src := take _ (drop _ pixels)).
    assert (Z.of_nat (length src) = x_end - x) as Hls by (unfold src; rewrite length_take, length_drop; lia).
    assert (0 <= (y + k) * vw + x <= vw * vh) as Hb by nia. rewrite (wrap_small 32 ((y + k) * vw + x)) by (unfold in_u; lia).
    destruct (splice_row (vback_buffer s) src vw vh x (y + k)) as (b1 & -> & Hl1 & Hb1); [lia..|]. cbn [mbind option_bind].
    destruct (IH (Z.succ k) (set_buf b1 s)) as (b & E & Hlb & Hbb); [split_and!; [exact Ew|exact Eh|cbn; lia]|lia|lia|].
    exists b. split; [etransitivity; [exact E|]; f_equal; apply (set_buf_set b b1 s)|]. split; [done|].
    intros i j Hi Hj. change (vback_buffer (set_buf b1 s)) with b1 in Hbb. rewrite Hbb, Hb1, Hls by done.
    unfold in_box, in_range, in_span. cbn [fst snd]. destruct (Z.eqb_spec j (y + k)) as [->|].
    + rewrite (proj2 (Z.leb_gt (y + Z.succ k) (y + k))), (proj2 (Z.leb_le (y + k) (y + k))), (proj2 (Z.ltb_lt (y + k) (y + k + Z.of_nat (S m)))) by lia.
      cbn [andb]. destruct (Z.leb_spec x i), (Z.ltb_spec i (x + (x_end - x))); cbn [andb]; try done.
      unfold src. rewrite lookup_total_take, decide_True, lookup_total_drop by lia. f_equal. lia.
    + cbn [andb]. destruct (Z.leb_spec (y + Z.succ k) j), (Z.leb_spec (y + k) j), (Z.ltb_spec j (y + Z.succ k + Z.of_nat m)),
        (Z.ltb_spec j (y + k + Z.of_nat (S m))); cbn [andb]; done || lia.
Qed.
End region.

(** The two loops undo what happened inside the clipped rectangle. *)
Lemma save_restore_rows s x y xe w h :
  pix_ok s s -> 0 <= x <= xe -> xe <= vwidth s -> xe - x <= w -> 0 <= y -> 0 <= h -> y + h < 2 ^ 32 -> 0 <= w * h ->
  exists saved, snapshot_rows s x y xe w (range 0 h) (replicate (Z.to_nat (w * h)) 0) = Some saved /\
    Z.of_nat (length saved) = w * h /\
    forall b2, Z.of_nat (length b2) = vwidth s * vheight s ->
      (forall i j, 0 <= i < vwidth s -> 0 <= j < vheight s -> in_box x y (xe - x) h i j = false ->
         b2 !!! Z.to_nat (j * vwidth s + i) = vback_buffer s !!! Z.to_nat (j * vwidth s + i)) ->
      restore_rows x y xe w saved (range 0 h) (set_buf b2 s) = Some s.
Proof.
  intros (Hvw & Hvh & _ & _ & Hov & Hlv & _) Hx Hxe Hxw Hy Hh Hyh Hwh. cbn in Hvw, Hvh, Hov, Hlv.
  destruct (snapshot_rows_spec x y xe w h (vwidth s) (vheight s) Hx Hxe Hxw Hy Hyh Hov s h Hh ltac:(done)
    0 (replicate (Z.to_nat (w * h)) 0)) as (saved & Esn & Hls & Hsn); [lia|lia|rewrite length_replicate; lia|].
  rewrite length_replicate in Hls. exists saved. split; [exact Esn|]. split; [lia|]. intros b2 Hl2 Hb2.
  destruct (restore_rows_spec x y xe w h (vwidth s) (vheight s) Hx Hxe Hxw Hy Hyh Hov saved h Hh ltac:(lia)
    0 (set_buf b2 s)) as (b & Er & Hlb & Hb); [done|lia|lia|].
  change (range 0 (0 + h)) with (range 0 h) in Er. rewrite Er. f_equal.
  transitivity (set_buf (vback_buffer s) s); [|exact (set_buf_buf s)].
  transitivity (set_buf b s); [exact (set_buf_set b b2 s)|]. f_equal.
  destruct (decide (vwidth s = 0)) as [E|].
  { rewrite E in *. rewrite (nil_length_inv b), (nil_length_inv (vback_buffer s)) by lia. done. }
  apply (grid_list_eq _ _ (vwidth s) (vheight s)); [lia..|]. intros i j Hi Hj.
  pose proof (index_bound (vwidth s) (vheight s) i j Hi Hj). rewrite !list_lookup_lookup_total_lt by lia. f_equal.
  rewrite Hb, Z.add_0_r by done. destruct (in_box x y (xe - x) h i j) eqn:Ebox.
  - unfold in_box, in_range in Ebox. cbn [fst snd] in Ebox. to_prop. rewrite Hsn by lia.
    by rewrite (proj2 (Z.leb_le _ j)), (proj2 (Z.ltb_lt j (y + 0 + h))), (proj2 (Z.ltb_lt j (vheight s))) by lia.
  - by apply Hb2.
Qed.

(** C24: The cursor's trick: saving a rectangle of the desktop, drawing anything
    inside it and restoring the rectangle gives back exactly the state before,
    also where the rectangle reaches over the edges; the saved copy has the
    rectangle's size, and none of the three steps panics. *)
Theorem restore_undoes_drawing s d x y w h m :
  state d = Some s -> display_ok s ->
  in_u 32 x -> in_u 32 y -> 0 <= w -> 0 <= h -> x + w < 2 ^ 32 -> y + h < 2 ^ 32 -> w * h < 2 ^ 32 ->
  draws_in_box m x y w h ->
  exists saved d1, snapshot_region x y w h d = Ret saved d /\ Z.of_nat (length saved) = w * h /\
    with_surface m d = Ret tt d1 /\ restore_region x y w h saved d1 = Ret tt d.
Proof.
  intros Es Hd Hx Hy Hw Hh Hxw Hyh Hwh Hm. destruct (box_drawing s m x y w h Hd Hm) as (b2 & Em & Hl2 & Hb2).
  pose proof (display_pix_ok s Hd) as Hok. pose proof Hd as (_ & _ & _ & _ & _ & _ & Hvw & Hvh & _).
  assert (set_state (Some s) d = d) as Ed. { destruct d; cbn in *; by subst. }
  assert (with_surface m d = Ret tt (set_state (Some (set_buf b2 s)) d)) as Edraw by (unfold with_surface; by rewrite Es, Em).
  assert (0 <= w * h) by nia.
  unfold snapshot_region, restore_region. rewrite Es. cbv zeta. rewrite (wrap_small 32 (w * h)) by (unfold in_u; lia).
  destruct ((w =? 0) || (h =? 0)) eqn:E0.
  { eexists _, _. split_and!; [done|rewrite length_replicate; lia|exact Edraw|]. cbn [state set_state].
    destruct (save_restore_rows s 0 0 0 0 0 Hok) as (saved & _ & _ & Hr); try lia.
    specialize (Hr b2 Hl2). cbn in Hr. transitivity (Ret tt (set_state (Some s) d) : outcome fb unit); [|by rewrite Ed].
    do 3 f_equal. apply (inj Some). apply Hr. intros i j Hi Hj _. apply Hb2; [done..|].
    apply orb_true_iff in E0. rewrite !Z.eqb_eq in E0. unfold in_box, in_range. cbn [fst snd].
    apply not_true_is_false. rewrite !andb_true_iff, !Z.leb_le, !Z.ltb_lt. lia. }
  destruct (in_box_clip x y w h (vwidth s) (vheight s) 0 0) as (_ & Hx' & Hxe & Hy' & _); [done..|lia|lia|].
  pose proof (fun i j Hi Hj => proj1 (in_box_clip x y w h (vwidth s) (vheight s) i j Hx Hy Hw Hh Hxw Hyh Hi Hj)) as Hclip.
  cbv zeta in Hclip, Hx', Hxe, Hy'.
  destruct (save_restore_rows s (Z.min x (vwidth s)) (Z.min y (vheight s)) (Z.min (u32 (Z.min x (vwidth s) + w)) (vwidth s)) w h Hok)
    as (saved & -> & Hls & Hr); try lia; [rewrite wrap_small by (unfold in_u in *; lia); lia|].
  eexists _, _. split_and!; [done|done|exact Edraw|]. cbn [state set_state].
  change (vwidth (set_buf b2 s)) with (vwidth s). change (vheight (set_buf b2 s)) with (vheight s).
  rewrite (Hr b2 Hl2); [by destruct d; cbn in *; subst|]. intros i j Hi Hj Hbx. apply Hb2; [done..|]. rewrite Hclip by done.
  apply not_true_is_false. intros Ht. apply not_true_iff_false in Hbx. apply Hbx. revert Ht.
  unfold in_box, in_range. cbn [fst snd]. rewrite !andb_true_iff, !Z.leb_le, !Z.ltb_lt. rewrite !wrap_small by (unfold in_u in *; lia). lia.
Qed.
End screen.

(** ** Concrete runs *)
Definition tiny : State := mk_state 0x1000 16 2 2 2 2 [1; 2; 3; 4] [0; 0; 0; 0] [0; 0; 0; 0].
Definition tiny_fb : fb := mk_fb (Some tiny) true 0x1000 16 2 2 (fun _ => 0).
Lemma tiny_ok : display_ok tiny.
Proof. unfold display_ok. cbn. lia. Qed.
Lemma rect_in_box x y w h c :
  in_u 32 x -> in_u 32 y -> 0 <= w -> 0 <= h -> x + w < 2 ^ 32 -> y + h < 2 ^ 32 -> draws_in_box (fill_rect x y w h c) x y w h.
Proof.
  intros Hx Hy Hw Hh Hxw Hyh. exists (fun i j p => if in_rect x y w h i j then c else p). split.
  - intros s0 W H. exact (@draws_fill_rect State state_surface (buffer_spec s0) W H x y w h c Hx Hy).
  - intros i j p Hbox. assert (in_rect x y w h i j = in_box x y w h i j) as ->; [|by rewrite Hbox].
    unfold in_rect, in_box. by rewrite !wrap_small by (unfold in_u in *; lia).
Qed.

Example present_shows_witness : exists d', present tiny_fb = Ret tt d' /\ screen_pixel (video d') tiny 1 1 = 4.
Proof.
  destruct (present_shows tiny tiny_fb eq_refl tiny_ok (or_introl eq_refl)) as (d' & s' & E & _ & _ & _ & Hs & _).
  exists d'. split; [exact E|]. vm_compute in E. injection E as <-. vm_compute. reflexivity.
Defined.
Example present_region_suffices_witness : exists d1 d2 d3 d4,
  present tiny_fb = Ret tt d1 /\ with_surface (fill_rect 1 0 5 1 9) d1 = Ret tt d2 /\
  present_region 1 0 5 1 d2 = Ret tt d3 /\ present d2 = Ret tt d4 /\ state d3 = state d4 /\ video d3 ≡ video d4.
Proof.
  apply (present_region_suffices tiny tiny_fb 1 0 5 1 (fill_rect 1 0 5 1 9) eq_refl tiny_ok (or_introl eq_refl));
    try (unfold in_u; lia). apply rect_in_box; unfold in_u; lia.
Defined.
Example restore_undoes_drawing_witness : exists saved d1,
  snapshot_region 1 1 2 2 tiny_fb = Ret saved tiny_fb /\ with_surface (fill_rect 1 1 2 2 9) tiny_fb = Ret tt d1 /\
  restore_region 1 1 2 2 saved d1 = Ret tt tiny_fb.
Proof.
  destruct (restore_undoes_drawing tiny tiny_fb 1 1 2 2 (fill_rect 1 1 2 2 9) eq_refl tiny_ok) as (saved & d1 & E1 & _ & E2 & E3);
    try (unfold in_u; lia).
  - apply rect_in_box; unfold in_u; lia.
  - exists saved, d1. split; [exact E1|]. split; [exact E2|exact E3].
Defined.
Example spans_match_defaults_witness :
  buf_blend_span 1 0 3 0xFFFFFF 128 tiny = blend_span_default buf_put_pixel buf_get_pixel 1 0 3 0xFFFFFF 128 tiny.
Proof.
  apply (spans_match_defaults tiny 1 0 3 0xFFFFFF 128 [5; 6; 7] 0); try (unfold in_u; cbn; lia).
  apply display_pix_ok, tiny_ok.
Defined.
Example shadow_matches_layers_witness : exists s1 s2,
  draw_window_shadow 0 0 1 1 1 tiny = Ret tt s1 /\ layered_shadow 0 0 1 1 1 tiny = Ret tt s2.
Proof.
  destruct (@shadow_matches_layers State state_surface (buffer_spec tiny) 0 0 1 1 1 tiny) as (s1 & s2 & E1 & E2 & _);
    try (unfold fits; lia); [exact (display_pix_ok tiny tiny_ok)|reflexivity|].
  exists s1, s2. split; [exact E1|exact E2].
Defined.
