(* ===== verification/Terminal.v ===== *)
(** * A text terminal

    What [console.rs] and [vga.rs] both promise: a grid of cells and a cursor.
    The cursor may stand behind the last column, and the line wraps when the
    next character is written; a line feed in the last row scrolls. *)
From S2P Require Import Prelude.

Section terminal.
Context {C : Type}.
Variables (cell : Z -> C) (ncols nrows : nat).
Definition blank : C := cell 32.

Record term := mk_term { lines : list (list C); trow : nat; tcol : nat }.
Definition blank_line : list C := replicate ncols blank.
Definition term_clear : term := mk_term (replicate nrows blank_line) 0 0.

Definition term_newline (t : term) : term :=
  if decide (nrows <= S (trow t))%nat
  then mk_term (tail (lines t) ++ [blank_line]) (nrows - 1) 0
  else mk_term (lines t) (S (trow t)) 0.
Definition term_set (r c : nat) (x : C) (t : term) : term :=
  mk_term (alter (<[c := x]>) r (lines t)) (trow t) (tcol t).
Definition term_put (x : C) (t : term) : term :=
  let t := if decide (ncols <= tcol t)%nat then term_newline t else t in
  let t := term_set (trow t) (tcol t) x t in
  mk_term (lines t) (trow t) (S (tcol t)).
(** Whether a backspace in the first column goes on in the row above. *)
Variable unwrap_line : bool.
Definition term_back (t : term) : term :=
  match tcol t with
  | S c => term_set (trow t) c blank (mk_term (lines t) (trow t) c)
  | O =>
      match trow t with
      | S r => if unwrap_line then term_set r (ncols - 1) blank (mk_term (lines t) r (ncols - 1)) else t
      | O => t
      end
  end.
Definition term_byte (t : term) (b : Z) : term :=
  if b =? 10 then term_newline t
  else if b =? 13 then mk_term (lines t) (trow t) 0
  else if b =? 8 then term_back t
  else if b =? 9 then Nat.iter (4 - tcol t mod 4) (term_put blank) t
  else term_put (cell b) t.
Definition term_write (t : term) (s : list Z) : term := foldl term_byte t s.

(** ** The grid keeps its shape *)
Definition shaped (ls : list (list C)) : Prop := length ls = nrows /\ Forall (fun l => length l = ncols) ls.
Definition term_ok (t : term) : Prop := shaped (lines t) /\ (trow t < nrows)%nat /\ (tcol t <= ncols)%nat.

Lemma shaped_alter r c x ls : shaped ls -> shaped (alter (<[c := x]>) r ls).
Proof.
  intros [Hl Hf]. split; [by rewrite length_alter|]. rewrite Forall_lookup in *. intros i l.
  destruct (decide (i = r)) as [->|].
  - rewrite list_lookup_alter_eq. intros (l0 & El & ->)%fmap_Some. rewrite length_insert. by eapply Hf.
  - rewrite list_lookup_alter_ne by done. apply Hf.
Qed.
Lemma clear_ok : (0 < nrows)%nat -> term_ok term_clear.
Proof.
  intros. split_and!; simpl; [|lia|lia]. split; [apply length_replicate|].
  apply Forall_replicate. apply length_replicate.
Qed.
Lemma newline_ok t : term_ok t -> term_ok (term_newline t).
Proof.
  intros ([Hl Hf] & Hr & Hc). unfold term_newline. case_decide; split_and!; simpl; try lia; [|done].
  split; [rewrite length_app; destruct (lines t); simpl in *; lia|].
  apply Forall_app. split; [|constructor; [apply length_replicate|done]]. destruct (lines t); [done|]. by inversion Hf.
Qed.
Lemma put_ok x t : (0 < ncols)%nat -> term_ok t -> term_ok (term_put x t) /\ (0 < tcol (term_put x t))%nat.
Proof.
  intros Hn Ht. unfold term_put. set (t' := if decide _ then _ else _).
  assert (term_ok t' /\ (tcol t' < ncols)%nat) as [(Hs & Hr & Hc) Hlt].
  { unfold t'. case_decide; [|split; [done|lia]]. split; [by apply newline_ok|].
    unfold term_newline. case_decide; simpl; lia. }
  cbn. split; [|lia]. split_and!; [by apply shaped_alter|done|cbn; lia].
Qed.
Lemma back_ok t : (0 < ncols)%nat -> term_ok t -> term_ok (term_back t).
Proof.
  intros Hn (Hs & Hr & Hc). unfold term_back. destruct (tcol t) eqn:Ec.
  - destruct (trow t) eqn:Er; [split_and!; rewrite ?Er, ?Ec; (done || lia)|]. destruct unwrap_line; [|split_and!; rewrite ?Er, ?Ec; (done || lia)].
    split_and!; [by apply shaped_alter|cbn; lia|cbn; lia].
  - split_and!; [by apply shaped_alter|cbn; lia|cbn; lia].
Qed.
Lemma byte_ok t b : (0 < ncols)%nat -> term_ok t -> term_ok (term_byte t b).
Proof.
  intros Hn Ht. unfold term_byte. repeat case_match; [by apply newline_ok| |by apply back_ok| |by apply put_ok].
  - destruct Ht as (? & ? & ?). split_and!; [done|done|cbn; lia].
  - clear - Hn Ht. induction (4 - tcol t mod 4)%nat as [|k IH]; [done|]. simpl. by apply put_ok.
Qed.
Lemma write_ok s t : (0 < ncols)%nat -> term_ok t -> term_ok (term_write t s).
Proof. intros Hn. revert t. induction s as [|b s IH]; intros t Ht; [done|]. simpl. by apply IH, byte_ok. Qed.
End terminal.
