(* ===== verification/Console.v ===== *)
(** * The graphical console, [console.rs]

    A terminal that draws its characters into a pixel buffer of its own.  The
    cells are nowhere stored: the refinement theorem says that the pixels are
    always the picture of the terminal's cells. *)
From stdpp Require Import list_numbers.
From S2P Require Import Prelude Bytes Font Gfx Draw PixelBuffer Terminal.

Record Console := mk_console {
  cols : Z; rows : Z; row : Z; col : Z; fg : Z; bg : Z; buffer : list Z }.
Definition set_buffer (b : list Z) (c : Console) : Console :=
  mk_console (cols c) (rows c) (row c) (col c) (fg c) (bg c) b.
Definition set_cursor (r k : Z) (c : Console) : Console :=
  mk_console (cols c) (rows c) r k (fg c) (bg c) (buffer c).

Section console.
(** The value of [font::scale()]. *)
Variable fscale : Z.

Definition new (cols rows fg bg : Z) : Console :=
  let width := cols * glyph_w fscale in
  let height := rows * glyph_h fscale in
  mk_console cols rows 0 0 fg bg (replicate (Z.to_nat (width * height)) bg).
Definition width_px (c : Console) : Z := u32 (cols c * glyph_w fscale).
Definition height_px (c : Console) : Z := u32 (rows c * glyph_h fscale).
Definition pixels (c : Console) : list Z := buffer c.
Definition clear : ST Console unit :=
  modify (fun c => set_cursor 0 0 (set_buffer (replicate (length (buffer c)) (bg c)) c)).
Definition resize (cols rows : Z) : ST Console unit :=
  modify (fun c => mk_console cols rows 0 0 (fg c) (bg c)
    (replicate (Z.to_nat (cols * glyph_w fscale * (rows * glyph_h fscale))) (bg c))).

(** ** [impl Surface for Console] *)
Definition put_pixel (x y color : Z) : ST Console unit := fun c =>
  if (x <? width_px c) && (y <? height_px c) then
    let idx := Z.to_nat (y * width_px c + x) in
    if decide (idx < length (buffer c))%nat then Ret tt (set_buffer (<[idx := color]> (buffer c)) c) else Panic
  else Ret tt c.
(** The slice of a span, as in [PixelBuffer.span_slice] but for the test of the
    row and the width of the arithmetic. *)
Definition console_slice (x y len : Z) (c : Console) : option (Z * Z) :=
  let w := width_px c in
  if (Z.of_nat (length (buffer c)) / Z.max w 1 <=? y) || (w <=? x) || (len =? 0) then None
  else Some (y * w + x, Z.min len (w - x)).
Definition write_buffer (start : Z) (src : list Z) : ST Console unit := fun c =>
  match splice (buffer c) (Z.to_nat start) src with
  | Some b => Ret tt (set_buffer b c)
  | None => Panic
  end.
Definition blit_span (x y : Z) (src : list Z) (offset len : Z) : ST Console unit := fun c =>
  match console_slice x y len c with
  | None => Ret tt c
  | Some (row_start, n) =>
      match get_range src offset (offset + n) with
      | Some pixels => write_buffer row_start pixels c
      | None => Panic
      end
  end.
Definition fill_span (x y len color : Z) : ST Console unit := fun c =>
  match console_slice x y len c with
  | None => Ret tt c
  | Some (row_start, n) => write_buffer row_start (replicate (Z.to_nat n) color) c
  end.
Global Instance console_surface : Surface Console := {|
  width := width_px; height := height_px; Gfx.put_pixel := put_pixel; get_pixel := get_pixel_default;
  Gfx.blit_span := blit_span; Gfx.fill_span := fill_span;
  blend_span := blend_span_default put_pixel get_pixel_default |}.

(** ** Writing *)
Definition draw_cell (col row byte : Z) : ST Console unit :=
  c ← get_st;
  draw_char fscale (u32 (col * glyph_w fscale)) (u32 (row * glyph_h fscale)) byte (fg c) (Some (bg c)).

Definition scroll : ST Console unit := fun c =>
  let width := width_px c in
  let row_height := glyph_h fscale in
  let total_rows_px := rows c * row_height in
  match get_range (buffer c) (width * row_height) (width * total_rows_px) with
  | None => Panic
  | Some moved =>
      match splice (buffer c) 0 moved with
      | None => Panic
      | Some b =>
          let last_row_start := width * (total_rows_px - row_height) in
          match get_range b last_row_start (Z.of_nat (length b)) with
          | None => Panic
          | Some tail =>
              Ret tt (set_cursor (rows c - 1) 0
                (set_buffer (take (Z.to_nat last_row_start) b ++ replicate (length tail) (bg c)) c))
          end
      end
  end.

Definition line_feed : ST Console unit :=
  modify (fun c => set_cursor (row c + 1) 0 c);;
  c ← get_st;
  if rows c <=? row c then scroll else mret tt.
(** The last arm of [write_byte]. *)
Definition write_char (byte : Z) : ST Console unit :=
  c ← get_st;
  (if cols c <=? col c then line_feed else mret tt);;
  c ← get_st;
  draw_cell (col c) (row c) byte;;
  modify (fun c => set_cursor (row c) (col c + 1) c).
Definition write_byte (byte : Z) : ST Console unit :=
  if byte =? 10 then line_feed
  else if byte =? 13 then modify (fun c => set_cursor (row c) 0 c)
  else if byte =? 8 then
    c ← get_st;
    if 0 <? col c then
      put_st (set_cursor (row c) (col c - 1) c);;
      draw_cell (col c - 1) (row c) 32
    else if 0 <? row c then
      put_st (set_cursor (row c - 1) (cols c - 1) c);;
      draw_cell (cols c - 1) (row c - 1) 32
    else mret tt
  else if byte =? 9 then
    c ← get_st;
    for_in (range 0 (4 - col c mod 4)) (fun _ => write_char 32)
  else write_char byte.
Definition write_str (s : list Z) : ST Console unit := for_in s write_byte.

(** ** A correct surface *)
#[refine] Global Instance console_buffer : PixelBuffer Console := {
  buf_width := width_px; buf_height := height_px; buf := buffer; set_buf := set_buffer }.
Proof. all: try done. by intros []. Defined.

Lemma put_pixel_buf s0 c x y v : pix_ok s0 c -> 0 <= x -> 0 <= y -> put_pixel x y v c = buf_put_pixel x y v c.
Proof.
  intros (Hw & Hh & Hw32 & Hh32 & Hwh & Hl & _) Hx Hy. unfold put_pixel, buf_put_pixel. cbn in *.
  destruct (Z.ltb_spec x (width_px c)), (Z.ltb_spec y (height_px c)); cbn [andb]; try done. cbv zeta.
  pose proof (index_bound (width_px c) (height_px c) x y ltac:(lia) ltac:(lia)). by rewrite (wrap_small 32) by (unfold in_u; lia).
Qed.
Lemma console_slice_buf s0 c x y n : pix_ok s0 c -> 0 <= x -> 0 <= y -> console_slice x y n c = span_slice x y n c.
Proof.
  intros (Hw & Hh & Hw32 & Hh32 & Hwh & Hl & _) Hx Hy. unfold console_slice, span_slice. cbn in *. cbv zeta.
  destruct (Z.leb_spec (width_px c) x); [by rewrite !orb_true_r|].
  rewrite (Z.max_l (width_px c) 1), Hl, (Z.mul_comm (width_px c)), Z.div_mul, !orb_false_r by lia.
  destruct (Z.leb_spec (height_px c) y); cbn [orb]; [done|]. destruct (n =? 0); [done|].
  pose proof (index_bound (width_px c) (height_px c) x y ltac:(lia) ltac:(lia)). by rewrite (wrap_small 32) by (unfold in_u; lia).
Qed.
Lemma draws_same s0 W H (m m' : ST Console unit) f :
  (forall c, pix_ok s0 c -> m c = m' c) ->
  draws_by (pix_ok s0) buf_width buf_height pix W H m' f -> draws_by (pix_ok s0) width_px height_px pix W H m f.
Proof. intros He Hd c Hc HW HH. unfold wp. rewrite He by done. by apply Hd. Qed.
#[refine] Definition console_spec (s0 : Console) : SurfaceSpec Console := {|
  ok := pix_ok s0; pixel := pix; readable := false |}.
Proof.
  - intros c (? & ? & ? & ? & _). split; split; done.
  - intros W H x y v Hx Hy. apply (draws_same s0 W H _ (buf_put_pixel x y v)); [|by apply buf_put_pixel_spec].
    intros. apply (put_pixel_buf s0); [done|apply Hx|apply Hy].
  - done.
  - intros W H x y n v Hx Hy ? ?. apply (draws_same s0 W H _ (buf_fill_span x y n v)); [|by apply buf_fill_span_spec].
    intros c Hc. cbn. unfold fill_span, buf_fill_span. by rewrite (console_slice_buf s0) by (done || apply Hx || apply Hy).
  - done.
  - intros W H x y src off n Hx Hy ? ? ? ?. apply (draws_same s0 W H _ (buf_blit_span x y src off n)); [|by apply buf_blit_span_spec].
    intros c Hc. cbn. unfold blit_span, buf_blit_span. by rewrite (console_slice_buf s0) by (done || apply Hx || apply Hy).
Defined.

(** ** The picture of a terminal *)
Hypothesis Hscale : 1 <= fscale.
Definition gw : Z := 8 * fscale.
Definition dims_ok (cols rows : Z) : Prop :=
  0 < cols /\ 0 < rows /\ cols * gw * (rows * gw) < 2 ^ 32.
Definition console_ok (c : Console) : Prop :=
  dims_ok (cols c) (rows c) /\ Z.of_nat (length (buffer c)) = cols c * gw * (rows c * gw) /\
  0 <= row c < rows c /\ 0 <= col c <= cols c.
(** Pixel ([i], [j]) of a grid of characters. *)
Definition look (fg bg : Z) (ls : list (list Z)) (i j : Z) : Z :=
  if glyph_bit (ls !!! Z.to_nat (j / gw) !!! Z.to_nat (i / gw)) (j mod gw / fscale) (i mod gw / fscale) then fg else bg.
Definition at_px (c : Console) (i j : Z) : Z := buffer c !!! Z.to_nat (j * (cols c * gw) + i).
Definition pictures (c : Console) (ls : list (list Z)) : Prop :=
  forall i j, 0 <= i < cols c * gw -> 0 <= j < rows c * gw -> at_px c i j = look (fg c) (bg c) ls i j.

Lemma gw_pos : 0 < gw.
Proof. unfold gw. lia. Qed.
Lemma dims_bounds cols rows : dims_ok cols rows -> 0 < cols * gw < 2 ^ 32 /\ 0 < rows * gw < 2 ^ 32.
Proof. pose proof gw_pos. intros (Hc & Hr & Ho). nia. Qed.
Lemma console_dims c : dims_ok (cols c) (rows c) -> width_px c = cols c * gw /\ height_px c = rows c * gw.
Proof.
  intros Hd. pose proof (dims_bounds _ _ Hd). unfold width_px, height_px, glyph_w, glyph_h, GLYPH_WIDTH, GLYPH_HEIGHT.
  fold gw. rewrite !wrap_small by (unfold in_u; lia). done.
Qed.
Lemma console_pix_ok c : console_ok c -> pix_ok c c.
Proof.
  intros (Hd & Hl & _). pose proof (dims_bounds _ _ Hd). destruct (console_dims c Hd) as [Ew Eh].
  pose proof Hd as (_ & _ & ?). unfold pix_ok. cbn. rewrite Ew, Eh. split_and!; try lia. done.
Qed.
Lemma draw_cell_spec c k r b :
  console_ok c -> 0 <= k < cols c -> 0 <= r < rows c -> 0 <= b ->
  exists bs, draw_cell k r b c = Ret tt (set_buffer bs c) /\ length bs = length (buffer c) /\
    forall i j, 0 <= i < cols c * gw -> 0 <= j < rows c * gw ->
      bs !!! Z.to_nat (j * (cols c * gw) + i) = cell_picture fscale (k * gw) (r * gw) b (fg c) (Some (bg c)) i j (at_px c i j).
Proof.
  intros Hc Hk Hr Hb. pose proof (console_pix_ok c Hc) as Hok. pose proof Hc as (Hd & Hl & _).
  pose proof (dims_bounds _ _ Hd). destruct (console_dims c Hd) as [Ew Eh]. pose proof gw_pos.
  assert (0 <= k * gw /\ k * gw + gw <= cols c * gw) as [? ?] by nia.
  assert (0 <= r * gw /\ r * gw + gw <= rows c * gw) as [? ?] by nia.
  assert (forall W H, @draws Console console_surface (console_spec c) W H
    (draw_char fscale (k * gw) (r * gw) b (fg c) (Some (bg c))) (cell_picture fscale (k * gw) (r * gw) b (fg c) (Some (bg c)))) as Hdraw.
  { intros W H'. assert (k * gw + 8 * fscale < 2 ^ 32 \/ k * gw + gw = 2 ^ 32) as [?|?] by (fold gw; lia); [|lia].
    assert (r * gw + 8 * fscale < 2 ^ 32) by (fold gw; lia). apply draws_draw_char; unfold in_u; lia. }
  destruct (wp_elim _ _ _ (Hdraw (width_px c) (height_px c) c Hok eq_refl eq_refl)) as ([] & c' & E & Hc' & HW & HH & Hp).
  destruct Hc' as (_ & _ & _ & _ & _ & Hl' & Hset). cbn in Hl', HW, HH, Hp. rewrite Ew, Eh in *. rewrite HW, HH in Hl'.
  exists (buffer c'). unfold draw_cell. unfold mbind, st_bind, get_st. unfold glyph_w, glyph_h, GLYPH_WIDTH, GLYPH_HEIGHT. fold gw.
  rewrite !(wrap_small 32) by (unfold in_u; lia). rewrite E. split_and!; [|lia|].
  - f_equal. transitivity (set_buffer (buffer c') c'); [by destruct c'|]. exact (Hset (buffer c')).
  - intros i j Hi Hj. specialize (Hp i j Hi Hj). unfold pix in Hp. cbn in Hp. rewrite HW, Ew in Hp. exact Hp.
Qed.

(** The cell a pixel belongs to. *)
Lemma cell_index n i : 0 < n -> 0 <= i < n * gw -> 0 <= i / gw < n /\ 0 <= i mod gw < gw /\ i = i / gw * gw + i mod gw.
Proof.
  intros Hn Hi. pose proof gw_pos. pose proof (Z.div_mod i gw ltac:(lia)). pose proof (Z.mod_pos_bound i gw ltac:(lia)).
  split_and!; [apply Z.div_pos; lia|apply Z.div_lt_upper_bound; lia|lia|lia|lia].
Qed.
Lemma pictures_set c bs ls k r b :
  console_ok c -> shaped (Z.to_nat (cols c)) (Z.to_nat (rows c)) ls -> 0 <= k < cols c -> 0 <= r < rows c ->
  pictures c ls ->
  (forall i j, 0 <= i < cols c * gw -> 0 <= j < rows c * gw ->
     bs !!! Z.to_nat (j * (cols c * gw) + i) = cell_picture fscale (k * gw) (r * gw) b (fg c) (Some (bg c)) i j (at_px c i j)) ->
  pictures (set_buffer bs c) (alter (<[Z.to_nat k := b]>) (Z.to_nat r) ls).
Proof.
  intros Hc [Hls Hlen] Hk Hr Hp Hb i j Hi Hj. cbn in Hi, Hj. change (at_px (set_buffer bs c) i j) with (bs !!! Z.to_nat (j * (cols c * gw) + i)).
  rewrite Hb by done. cbn. destruct (cell_index (cols c) i ltac:(lia) Hi) as (Hic & Him & Ei).
  destruct (cell_index (rows c) j ltac:(lia) Hj) as (Hjc & Hjm & Ej).
  assert (exists l, ls !! Z.to_nat r = Some l /\ length l = Z.to_nat (cols c)) as (l & El & Hll).
  { destruct (lookup_lt_is_Some_2 ls (Z.to_nat r)) as [l El]; [lia|]. exists l. split; [done|]. by eapply (proj1 (Forall_lookup _ _) Hlen). }
  unfold cell_picture. fold gw. pose proof gw_pos.
  pose proof (in_box_block 0 0 gw r k i j ltac:(lia)) as Hbox. rewrite !Z.add_0_l, !Z.sub_0_r in Hbox. rewrite Hbox.
  unfold look. destruct (Z.eqb_spec (j / gw) r) as [Er|Er]; cbn [andb].
  - rewrite (list_lookup_total_correct (alter _ _ ls) (Z.to_nat (j / gw)) (<[Z.to_nat k := b]> l)).
    2: { rewrite Er, list_lookup_alter_eq, El. done. }
    destruct (Z.eqb_spec (i / gw) k) as [Ek|Ek].
    + rewrite (list_lookup_total_correct _ (Z.to_nat (i / gw)) b) by (rewrite Ek, list_lookup_insert_eq by lia; done).
      unfold ink. replace (j - r * gw) with (j mod gw) by lia. replace (i - k * gw) with (i mod gw) by lia. done.
    + rewrite (Hp i j Hi Hj). unfold look. rewrite Er, (list_lookup_total_correct ls _ l El).
      by rewrite list_lookup_total_insert_ne by lia.
  - rewrite (Hp i j Hi Hj). unfold look. f_equal. f_equal. rewrite !list_lookup_total_alt.
    rewrite list_lookup_alter_ne by lia. done.
Qed.
Lemma blank_glyph r k : 0 <= r < 8 -> glyph_bit 32 r k = false.
Proof.
  intros Hr. unfold glyph_bit. change (glyph 32) with (replicate 8 0). by rewrite lookup_total_replicate_2 by lia.
Qed.
Lemma look_blank fg bg ls i j :
  ls !!! Z.to_nat (j / gw) !!! Z.to_nat (i / gw) = 32 -> look fg bg ls i j = bg.
Proof.
  unfold look. intros ->. pose proof gw_pos. pose proof (Z.mod_pos_bound j gw ltac:(lia)). unfold gw in *.
  rewrite blank_glyph; [done|]. split; [apply Z.div_pos; lia|apply Z.div_lt_upper_bound; lia].
Qed.
Lemma pictures_clear cols rows fg bg r k :
  dims_ok cols rows ->
  pictures (mk_console cols rows r k fg bg (replicate (Z.to_nat (cols * gw * (rows * gw))) bg))
    (replicate (Z.to_nat rows) (blank_line (fun b => b) (Z.to_nat cols))).
Proof.
  intros Hd i j Hi Hj. cbn in *. unfold at_px. cbn.
  pose proof (index_bound (cols * gw) (rows * gw) i j Hi Hj). rewrite lookup_total_replicate_2 by lia.
  destruct Hd as (Hc & Hr & _). destruct (cell_index cols i Hc Hi) as (Hic & _). destruct (cell_index rows j Hr Hj) as (Hjc & _).
  symmetry. apply look_blank. rewrite lookup_total_replicate_2 by lia. unfold blank_line. by rewrite lookup_total_replicate_2 by lia.
Qed.

Lemma scroll_spec c :
  dims_ok (cols c) (rows c) -> Z.of_nat (length (buffer c)) = cols c * gw * (rows c * gw) ->
  exists bs, scroll c = Ret tt (set_cursor (rows c - 1) 0 (set_buffer bs c)) /\ length bs = length (buffer c) /\
    forall i j, 0 <= i < cols c * gw -> 0 <= j < rows c * gw ->
      bs !!! Z.to_nat (j * (cols c * gw) + i) = if j <? (rows c - 1) * gw then at_px c i (j + gw) else bg c.
Proof.
  intros Hd Hl. destruct (console_dims c Hd) as [Ew _]. pose proof gw_pos. pose proof Hd as (Hc & Hr & _).
  unfold scroll. rewrite Ew. unfold glyph_h, GLYPH_HEIGHT. fold gw. cbv zeta.
  set (w := cols c * gw) in *. assert (0 < w) by nia.
  assert (w * (rows c * gw) = w * ((rows c - 1) * gw) + w * gw) as Et by lia.
  assert (0 <= w * ((rows c - 1) * gw) /\ 0 < w * gw) as [? ?] by nia.
  unfold get_range at 1. rewrite !(proj2 (Z.leb_le _ _)) by lia. cbn [andb].
  rewrite (take_ge (drop _ (buffer c))) by (rewrite length_drop; lia). set (moved := drop _ (buffer c)).
  assert (Z.of_nat (length moved) = w * ((rows c - 1) * gw)) as Hlm by (unfold moved; rewrite length_drop; lia).
  unfold splice. rewrite decide_True by lia. rewrite take_0, app_nil_l, Nat.add_0_l.
  replace (rows c * gw - gw) with ((rows c - 1) * gw) by lia.
  assert (Z.of_nat (length (moved ++ drop (length moved) (buffer c))) = w * (rows c * gw)) as Hlb by (rewrite length_app, length_drop; lia).
  unfold get_range at 1. rewrite !(proj2 (Z.leb_le _ _)) by lia. cbn [andb]. rewrite Hlb.
  rewrite take_app_length' by lia. set (tail := take _ _).
  assert (Z.of_nat (length tail) = w * gw) as Hlt by (unfold tail; rewrite length_take, length_drop; lia).
  eexists. split; [done|]. split; [rewrite length_app, length_replicate; lia|]. intros i j Hi Hj.
  destruct (Z.ltb_spec j ((rows c - 1) * gw)) as [Hlt'|Hge].
  - assert (j * w + i < w * ((rows c - 1) * gw)) by nia. assert (0 <= j * w) by nia.
    rewrite lookup_total_app_l by lia. unfold moved. rewrite lookup_total_drop. unfold at_px. fold w. f_equal. nia.
  - assert (w * ((rows c - 1) * gw) <= j * w + i < w * (rows c * gw)) by nia.
    rewrite lookup_total_app_r by lia. apply lookup_total_replicate_2. lia.
Qed.
Lemma pictures_scroll c bs ls k :
  dims_ok (cols c) (rows c) -> shaped (Z.to_nat (cols c)) (Z.to_nat (rows c)) ls -> pictures c ls ->
  (forall i j, 0 <= i < cols c * gw -> 0 <= j < rows c * gw ->
     bs !!! Z.to_nat (j * (cols c * gw) + i) = if j <? (rows c - 1) * gw then at_px c i (j + gw) else bg c) ->
  pictures (set_cursor k 0 (set_buffer bs c)) (tail ls ++ [blank_line (fun b => b) (Z.to_nat (cols c))]).
Proof.
  intros (Hc & Hr & _) [Hls Hlen] Hp Hb i j Hi Hj. cbn in Hi, Hj.
  change (at_px (set_cursor k 0 (set_buffer bs c)) i j) with (bs !!! Z.to_nat (j * (cols c * gw) + i)). rewrite Hb by done. cbn.
  pose proof gw_pos. destruct (cell_index (cols c) i Hc Hi) as (Hic & _ & _). destruct (cell_index (rows c) j Hr Hj) as (Hjc & Hjm & Ej).
  assert (length (tail ls) = Z.to_nat (rows c - 1)) as Hlt by (destruct ls; simpl in *; lia).
  destruct (Z.ltb_spec j ((rows c - 1) * gw)) as [Hlt'|Hge].
  - rewrite Hp by lia. assert (j / gw < rows c - 1) by (apply Z.div_lt_upper_bound; lia). unfold look.
    replace (j + gw) with (j + 1 * gw) by lia. rewrite Z.div_add, Z_mod_plus_full by lia.
    rewrite lookup_total_app_l by lia. destruct ls as [|l ls]; [simpl in *; lia|]. simpl.
    by replace (Z.to_nat (j / gw + 1)) with (S (Z.to_nat (j / gw))) by lia.
  - assert (j / gw = rows c - 1) as Er by (assert (rows c - 1 <= j / gw) by (apply Z.div_le_lower_bound; lia); lia).
    symmetry. apply look_blank. rewrite lookup_total_app_r by lia. rewrite Er, Hlt, Nat.sub_diag. simpl.
    unfold blank_line. apply lookup_total_replicate_2. lia.
Qed.

(** ** The refinement *)
Definition shows (c : Console) (t : term (C := Z)) : Prop :=
  console_ok c /\ term_ok (Z.to_nat (cols c)) (Z.to_nat (rows c)) t /\
  Z.of_nat (trow t) = row c /\ Z.of_nat (tcol t) = col c /\ pictures c (lines t).
(** The dimensions and colours do not change. *)
Definition same_style (c c' : Console) : Prop :=
  cols c' = cols c /\ rows c' = rows c /\ fg c' = fg c /\ bg c' = bg c.
Lemma wp_shows (m : ST Console unit) c t :
  (exists c', m c = Ret tt c' /\ same_style c c' /\ shows c' t) -> wp m (fun _ c' => same_style c c' /\ shows c' t) c.
Proof. intros (c' & E & H'). by eapply wp_intro. Qed.

Lemma line_feed_shows c t :
  shows c t -> wp line_feed (fun _ c' => same_style c c' /\
    shows c' (term_newline (fun b => b) (Z.to_nat (cols c)) (Z.to_nat (rows c)) t)) c.
Proof.
  intros (Hc & Ht & Hr & Hk & Hp). apply wp_shows. pose proof Hc as (Hd & Hl & Hrow & Hcol).
  pose proof (newline_ok (fun b => b) _ _ t Ht) as Ht'. revert Ht'. unfold term_newline, line_feed, mbind, st_bind, modify, get_st.
  cbn [rows row set_cursor]. destruct (Z.leb_spec (rows c) (row c + 1)).
  - rewrite decide_True by lia. intros Ht'.
    destruct (scroll_spec (set_cursor (row c + 1) 0 c)) as (bs & E & Hlb & Hb); [done|done|]. rewrite E. eexists. split; [done|].
    split; [done|]. split_and!; try done; cbn; try lia.
    + unfold console_ok. cbn in *. split_and!; try done; lia.
    + exact (pictures_scroll (set_cursor (row c + 1) 0 c) bs (lines t) (rows c - 1) Hd (proj1 Ht) Hp Hb).
  - rewrite decide_False by lia. intros Ht'. eexists. split; [done|]. split; [done|]. split_and!; try done; cbn; try lia.
    unfold console_ok. cbn. split_and!; try done; lia.
Qed.
Lemma draw_cell_shows c t k r b :
  shows c t -> 0 <= k < cols c -> 0 <= r < rows c -> 0 <= b ->
  wp (draw_cell k r b) (fun _ c' => same_style c c' /\ row c' = row c /\ col c' = col c /\ shows c' (term_set (Z.to_nat r) (Z.to_nat k) b t)) c.
Proof.
  intros (Hc & Ht & Hr & Hk & Hp) Hk' Hr' Hb. destruct (draw_cell_spec c k r b Hc Hk' Hr' Hb) as (bs & E & Hl & Hbs).
  eapply wp_intro; [exact E|]. split; [done|]. split; [done|]. split; [done|]. destruct Ht as (Hs & Htr & Htc). split_and!; try done.
  - destruct Hc as (Hd & Hlc & ?). split; [exact Hd|]. split; [cbn; lia|done].
  - split_and!; [by apply shaped_alter|done|done].
  - by apply pictures_set.
Qed.

Lemma same_style_trans c1 c2 c3 : same_style c1 c2 -> same_style c2 c3 -> same_style c1 c3.
Proof. unfold same_style. intuition congruence. Qed.
(** The terminal of a console's dimensions. *)
Abbreviation the_put := (fun c => term_put (fun b : Z => b) (Z.to_nat (cols c)) (Z.to_nat (rows c))).

Lemma write_char_shows c t b :
  shows c t -> 0 <= b -> wp (write_char b) (fun _ c' => same_style c c' /\ shows c' (the_put c b t)) c.
Proof.
  intros Hs Hb. unfold write_char. apply wp_bind. unfold wp at 1, get_st. apply wp_bind. unfold term_put.
  set (t1 := if decide _ then _ else _).
  assert (wp (if cols c <=? col c then line_feed else mret tt)
    (fun _ c' => same_style c c' /\ shows c' t1 /\ col c' < cols c') c) as Hlf.
  { pose proof Hs as (Hc & Ht & Hr & Hk & Hp). pose proof Hc as ((Hcp & _) & _).
    unfold t1. destruct (Z.leb_spec (cols c) (col c)).
    - rewrite decide_True by lia. eapply wp_conseq; [by apply line_feed_shows|]. intros [] c' [Hst Hs'].
      split_and!; try done. destruct Hs' as (_ & _ & _ & <- & _). destruct Hst as (-> & _).
      unfold term_newline. case_decide; simpl; lia.
    - rewrite decide_False by lia. apply wp_ret. split; [done|]. split; [done|lia]. }
  eapply wp_conseq; [exact Hlf|]. intros [] c1 (Hst & Hs1 & Hlt). apply wp_bind. unfold wp at 1, get_st. apply wp_bind.
  pose proof Hs1 as ((_ & _ & Hrow & Hcol) & _ & Hr1 & Hk1 & _).
  eapply wp_conseq; [apply (draw_cell_shows c1 t1 (col c1) (row c1) b Hs1); lia|]. intros [] c2 (Hst2 & Hr2 & Hk2 & Hs2).
  unfold wp, modify. split; [eapply same_style_trans; [exact Hst|exact Hst2]|].
  destruct Hs2 as ((Hd & Hl & Hrow2 & Hcol2) & (Hsh & Htr & Htc) & Hr3 & Hk3 & Hp).
  replace (Z.to_nat (row c1)) with (trow t1) in * by lia. replace (Z.to_nat (col c1)) with (tcol t1) in * by lia.
  destruct Hst2 as (Ec2 & Er2 & _).
  split; [split; [exact Hd|]; split; [exact Hl|]; cbn; lia|].
  split; [split; [exact Hsh|]; split; [exact Htr|cbn in *; lia]|]. cbn in *. split_and!; [lia|lia|exact Hp].
Qed.
Lemma write_chars_shows n c t a :
  shows c t -> wp (for_in (seqZ a (Z.of_nat n)) (fun _ => write_char 32)) (fun _ c' => same_style c c' /\
    shows c' (Nat.iter n (the_put c 32) t)) c.
Proof.
  revert c t a. induction n as [|n IH]; intros c t a Hs; [by apply wp_ret|].
  rewrite seqZ_cons by lia. replace (Z.pred (Z.of_nat (S n))) with (Z.of_nat n) by lia. cbn [for_in].
  apply wp_bind. eapply wp_conseq; [by apply write_char_shows|]. intros [] c1 [Hst Hs1].
  eapply wp_conseq; [exact (IH c1 _ (Z.succ a) Hs1)|]. intros [] c2 [Hst2 Hs2]. split; [by eapply same_style_trans|].
  rewrite Nat.iter_succ_r. destruct Hst as (Ec & Er & _). by rewrite Ec, Er in Hs2.
Qed.
(** Moving the cursor. *)
Lemma shows_cursor c t r k r' k' :
  shows c t -> Z.of_nat r' = r -> Z.of_nat k' = k -> r < rows c -> k <= cols c ->
  shows (set_cursor r k c) (mk_term (lines t) r' k').
Proof.
  intros ((Hd & Hl & _) & (Hsh & _) & _ & _ & Hp) <- <- Hr Hk. pose proof Hd as (? & ? & _). split_and!; try done; cbn; try lia.
  - unfold console_ok. cbn. split_and!; try done; lia.
  - split_and!; [done|cbn; lia|cbn; lia].
Qed.
Abbreviation the_byte := (fun c => term_byte (fun b : Z => b) (Z.to_nat (cols c)) (Z.to_nat (rows c)) true).
Lemma write_byte_shows c t b :
  shows c t -> 0 <= b -> wp (write_byte b) (fun _ c' => same_style c c' /\ shows c' (the_byte c t b)) c.
Proof.
  intros Hs Hb. pose proof Hs as ((Hd & Hl & Hrow & Hcol) & Ht & Hr & Hk & Hp). pose proof Hd as (Hcp & Hrp & _).
  unfold write_byte, term_byte. destruct (b =? 10); [by apply line_feed_shows|].
  destruct (b =? 13). { unfold wp, modify. split; [done|]. apply shows_cursor; (done || lia). }
  destruct (b =? 8).
  { apply wp_bind. unfold wp at 1, get_st, term_back. destruct (tcol t) as [|k] eqn:Ek.
    - rewrite (proj2 (Z.ltb_ge 0 (col c))) by lia. destruct (trow t) as [|r] eqn:Er.
      + rewrite (proj2 (Z.ltb_ge 0 (row c))) by lia. by apply wp_ret.
      + rewrite (proj2 (Z.ltb_lt 0 (row c))) by lia. apply wp_bind. unfold wp at 1, put_st.
        pose proof (shows_cursor c t (row c - 1) (cols c - 1) r (Z.to_nat (cols c) - 1)%nat Hs) as Hs'.
        eapply wp_conseq; [apply draw_cell_shows; [apply Hs'|cbn; lia..]; lia|].
        intros [] c' (Hst & _ & _ & Hs2). split; [done|]. unfold blank.
        replace (Z.to_nat (row c - 1)) with r in Hs2 by lia. by replace (Z.to_nat (cols c - 1)) with (Z.to_nat (cols c) - 1)%nat in Hs2 by lia.
    - rewrite (proj2 (Z.ltb_lt 0 (col c))) by lia. apply wp_bind. unfold wp at 1, put_st.
      pose proof (shows_cursor c t (row c) (col c - 1) (trow t) k Hs) as Hs'.
      eapply wp_conseq; [apply draw_cell_shows; [apply Hs'|cbn; lia..]; lia|].
      intros [] c' (Hst & _ & _ & Hs2). split; [done|]. unfold blank.
      replace (Z.to_nat (row c)) with (trow t) in Hs2 by lia. by replace (Z.to_nat (col c - 1)) with k in Hs2 by lia. }
  destruct (b =? 9); [|by apply write_char_shows].
  apply wp_bind. unfold wp at 1, get_st, range. rewrite Z.sub_0_r.
  assert (4 - col c mod 4 = Z.of_nat (4 - tcol t mod 4)) as ->.
  { rewrite Nat2Z.inj_sub, Nat2Z.inj_mod, Hk; [done|]. pose proof (Nat.mod_upper_bound (tcol t) 4 ltac:(lia)). lia. }
  by apply write_chars_shows.
Qed.
Lemma write_str_shows s c t :
  shows c t -> Forall (fun b => 0 <= b) s -> wp (write_str s) (fun _ c' => same_style c c' /\
    shows c' (term_write (fun b => b) (Z.to_nat (cols c)) (Z.to_nat (rows c)) true t s)) c.
Proof.
  intros Hs Hf. revert c t Hs. induction Hf as [|b s Hb _ IH]; intros c t Hs; [by apply wp_ret|].
  unfold write_str in *. cbn [for_in]. apply wp_bind. eapply wp_conseq; [by apply write_byte_shows|].
  intros [] c1 [Hst Hs1]. eapply wp_conseq; [by apply IH|]. intros [] c2 [Hst2 Hs2]. split; [by eapply same_style_trans|].
  destruct Hst as (Ec & Er & _). by rewrite Ec, Er in Hs2.
Qed.

(** ** Any use of a console *)
Inductive op := Write (s : list Z) | Clear | Resize (cols rows : Z).
Definition op_ok (o : op) : Prop :=
  match o with
  | Write s => Forall (fun b => 0 <= b) s
  | Clear => True
  | Resize cols rows => dims_ok cols rows
  end.
Definition exec (o : op) : ST Console unit :=
  match o with Write s => write_str s | Clear => clear | Resize cols rows => resize cols rows end.
(** The specification: dimensions and a terminal. *)
Definition spec_new (cols rows : Z) : Z * Z * term (C := Z) :=
  (cols, rows, term_clear (fun b => b) (Z.to_nat cols) (Z.to_nat rows)).
Definition spec_exec (st : Z * Z * term (C := Z)) (o : op) : Z * Z * term (C := Z) :=
  let '(cols, rows, t) := st in
  match o with
  | Write s => (cols, rows, term_write (fun b => b) (Z.to_nat cols) (Z.to_nat rows) true t s)
  | Clear => spec_new cols rows
  | Resize cols rows => spec_new cols rows
  end.
Definition refines (fg0 bg0 : Z) (c : Console) (st : Z * Z * term (C := Z)) : Prop :=
  let '(cols0, rows0, t) := st in
  cols c = cols0 /\ rows c = rows0 /\ fg c = fg0 /\ bg c = bg0 /\ shows c t.

Lemma shows_fresh cols rows fg bg :
  dims_ok cols rows ->
  shows (mk_console cols rows 0 0 fg bg (replicate (Z.to_nat (cols * gw * (rows * gw))) bg))
    (term_clear (fun b => b) (Z.to_nat cols) (Z.to_nat rows)).
Proof.
  intros Hd. pose proof Hd as (Hc & Hr & _). pose proof gw_pos. assert (0 <= cols * gw * (rows * gw)) by nia.
  split; [|split; [apply clear_ok; lia|split; [done|split; [done|by apply pictures_clear]]]].
  split; [exact Hd|]. split; [cbn; rewrite length_replicate; lia|]. cbn. lia.
Qed.
Lemma exec_refines fg0 bg0 c st o :
  refines fg0 bg0 c st -> op_ok o -> wp (exec o) (fun _ c' => refines fg0 bg0 c' (spec_exec st o)) c.
Proof.
  destruct st as [[cols0 rows0] t]. intros (<- & <- & <- & <- & Hs) Ho. destruct o as [s| |cols' rows']; simpl.
  - eapply wp_conseq; [by apply write_str_shows|]. intros [] c' [(Ec & Er & Ef & Eb) Hs']. by rewrite Ec, Er, Ef, Eb.
  - pose proof Hs as ((Hd & Hl & _) & _). unfold wp, clear, modify. split_and!; try done.
    replace (length (buffer c)) with (Z.to_nat (cols c * gw * (rows c * gw))) by lia. by apply shows_fresh.
  - unfold wp, resize, modify. split_and!; try done. by apply shows_fresh.
Qed.
End console.

(** C27: A console is a terminal: after any sequence of writes, clears and
    resizes, at any font scale, the pixels are exactly the picture of the cells
    of a terminal that was given the same bytes (line feeds, carriage returns,
    tabs, backspaces over line ends, wrapping and scrolling included), the
    cursors agree, and no operation panics. *)
Theorem console_refines fscale cols0 rows0 fg0 bg0 ops :
  1 <= fscale -> dims_ok fscale cols0 rows0 -> Forall (op_ok fscale) ops ->
  exists c, for_in ops (exec fscale) (new fscale cols0 rows0 fg0 bg0) = Ret tt c /\
    refines fscale fg0 bg0 c (foldl spec_exec (spec_new cols0 rows0) ops).
Proof.
  intros Hs Hd Ho.
  assert (refines fscale fg0 bg0 (new fscale cols0 rows0 fg0 bg0) (spec_new cols0 rows0)) as Hr.
  { split_and!; try done. by apply shows_fresh. }
  revert Hr. generalize (spec_new cols0 rows0). generalize (new fscale cols0 rows0 fg0 bg0).
  induction Ho as [|o ops Ho _ IH]; intros c st Hr; [by exists c|]. cbn [for_in foldl].
  destruct (wp_elim _ _ _ (exec_refines fscale Hs fg0 bg0 c st o Hr Ho)) as ([] & c1 & E & Hr1).
  destruct (IH c1 _ Hr1) as (c2 & E2 & Hr2). exists c2. split; [|done]. unfold mbind, st_bind. by rewrite E.
Qed.
Example console_refines_witness :
  exists c, for_in [Write [97; 98; 99; 100; 8; 10; 101]; Resize 4 2; Write [9; 97]] (exec 2) (new 2 3 2 0xFFFFFF 0) = Ret tt c /\
    at_px 2 c 8 20 = 0xFFFFFF.
Proof.
  destruct (console_refines 2 3 2 0xFFFFFF 0 [Write [97; 98; 99; 100; 8; 10; 101]; Resize 4 2; Write [9; 97]]) as (c & E & Hr).
  - lia.
  - unfold dims_ok, gw. lia.
  - repeat constructor; unfold dims_ok, gw; simpl; lia.
  - exists c. split; [exact E|]. destruct Hr as (Ec & Er & Ef & Eb & Hsh). destruct Hsh as (_ & _ & _ & _ & Hp).
    rewrite (Hp 8 20) by (rewrite ?Ec, ?Er; unfold gw; lia). rewrite Ef, Eb. vm_compute. reflexivity.
Defined.
