(* ===== verification/Vga.v ===== *)
(** * The text-mode screen, [vga.rs]

    The same terminal as [Console.v], kept as character cells with a colour in
    the adapter's memory, and a hardware cursor programmed through two ports.
    Port writes are a trace.  A backspace in the first column does nothing. *)
From stdpp Require Import list_numbers.
From S2P Require Import Prelude Bytes Gfx Draw Terminal.

Definition WIDTH : Z := 80.
Definition HEIGHT : Z := 25.
Definition BLACK : Z := 0x00.
Definition LIGHT_GRAY : Z := 0x07.
Definition color (fg bg : Z) : Z := Z.lor (wrap 8 (Z.shiftl bg 4)) fg.

Record ScreenChar := mk_char { ch : Z; attr : Z }.
Global Instance char_inhabited : Inhabited ScreenChar := populate (mk_char 0 0).
Record Writer := mk_writer {
  row : Z; col : Z; current_color : Z; buffer : list ScreenChar; ports : list (Z * Z) }.
Definition new : Writer := mk_writer 0 0 (color LIGHT_GRAY BLACK) [] [].
Definition set_cursor (r k : Z) (w : Writer) : Writer := mk_writer r k (current_color w) (buffer w) (ports w).
Definition set_cells (b : list ScreenChar) (w : Writer) : Writer := mk_writer (row w) (col w) (current_color w) b (ports w).
Definition outb (p v : Z) (w : Writer) : Writer := mk_writer (row w) (col w) (current_color w) (buffer w) (ports w ++ [(p, v)]).

(** The adapter's memory, as it is when the driver takes it over. *)
Definition init_buffer (screen : list ScreenChar) : ST Writer unit := modify (set_cells screen).
Definition clear_screen : ST Writer unit :=
  modify (fun w => set_cursor 0 0 (set_cells (replicate (length (buffer w)) (mk_char 32 (current_color w))) w)).
Definition set_color (c : Z) : ST Writer unit :=
  modify (fun w => mk_writer (row w) (col w) c (buffer w) (ports w)).

(** [self.buffer()[idx] = x] *)
Definition set_cell (idx : Z) (x : ScreenChar) : ST Writer unit := fun w =>
  if decide (Z.to_nat idx < length (buffer w))%nat
  then Ret tt (set_cells (<[Z.to_nat idx := x]> (buffer w)) w) else Panic.
(** [buf.copy_within(a..b, dest)] *)
Definition copy_within (a b dest : Z) : ST Writer unit := fun w =>
  match (src ← get_range (buffer w) a b; splice (buffer w) (Z.to_nat dest) src) with
  | Some b => Ret tt (set_cells b w)
  | None => Panic
  end.
Definition scroll : ST Writer unit :=
  for_in (range 1 HEIGHT) (fun r => copy_within (r * WIDTH) ((r + 1) * WIDTH) ((r - 1) * WIDTH));;
  w ← get_st;
  for_in (range 0 WIDTH) (fun c => set_cell ((HEIGHT - 1) * WIDTH + c) (mk_char 32 (current_color w)));;
  modify (set_cursor (HEIGHT - 1) 0).

Definition update_cursor : ST Writer unit :=
  modify (fun w =>
    let pos := u16 (row w * WIDTH + col w) in
    outb 0x3D5 (Z.land pos 0xFF) (outb 0x3D4 15 (outb 0x3D5 (wrap 8 (Z.shiftr pos 8)) (outb 0x3D4 14 w)))).

Definition line_feed : ST Writer unit :=
  modify (fun w => set_cursor (row w + 1) 0 w);;
  w ← get_st;
  if HEIGHT <=? row w then scroll else mret tt.
(** The last arm of [write_byte]. *)
Definition write_char (byte : Z) : ST Writer unit :=
  w ← get_st;
  (if WIDTH <=? col w then line_feed else mret tt);;
  w ← get_st;
  set_cell (row w * WIDTH + col w) (mk_char byte (current_color w));;
  modify (fun w => set_cursor (row w) (col w + 1) w).
Definition write_byte (byte : Z) : ST Writer unit :=
  (if byte =? 10 then line_feed
   else if byte =? 13 then modify (fun w => set_cursor (row w) 0 w)
   else if byte =? 8 then
     w ← get_st;
     if 0 <? col w then
       put_st (set_cursor (row w) (col w - 1) w);;
       set_cell (row w * WIDTH + (col w - 1)) (mk_char 32 (current_color w))
     else mret tt
   else if byte =? 9 then
     w ← get_st;
     for_in (range 0 (4 - col w mod 4)) (fun _ => write_char 32;; update_cursor)
   else write_char byte);;
  update_cursor.
Definition write_str (s : list Z) : ST Writer unit := for_in s write_byte.

(** ** The module's functions, each under the lock *)
Definition init (screen : list ScreenChar) : ST Writer unit :=
  init_buffer screen;; set_color (color LIGHT_GRAY BLACK);; clear_screen;; update_cursor.
Definition print_char (byte : Z) : ST Writer unit := write_byte byte.
Definition erase_char : ST Writer unit := write_byte 8.
Definition clear : ST Writer unit := clear_screen.
Definition reset_color : ST Writer unit := set_color (color LIGHT_GRAY BLACK).

(** ** The buffer as rows *)
Abbreviation W := 80%nat.
Abbreviation H := 25%nat.
Definition flat (ls : list (list ScreenChar)) : list ScreenChar := mjoin ls.

Lemma shaped_row (ls : list (list ScreenChar)) r : shaped W H ls -> (r < H)%nat -> exists l, ls !! r = Some l /\ length l = W.
Proof.
  intros [Hl Hf] Hr. destruct (lookup_lt_is_Some_2 ls r) as [l El]; [by rewrite Hl|]. exists l. split; [done|].
  by eapply (proj1 (Forall_lookup _ _) Hf).
Qed.
Lemma length_flat (ls : list (list ScreenChar)) : Forall (fun l => length l = W) ls -> length (flat ls) = (length ls * W)%nat.
Proof. induction 1 as [|l ls Hl _ IH]; [done|]. unfold flat in *. simpl. rewrite length_app. lia. Qed.
Lemma flat_split (ls : list (list ScreenChar)) r l :
  Forall (fun l => length l = W) ls -> ls !! r = Some l ->
  flat ls = flat (take r ls) ++ l ++ flat (drop (S r) ls) /\ length (flat (take r ls)) = (r * W)%nat.
Proof.
  intros Hf Hr. split.
  - rewrite <- (take_drop_middle ls r l Hr) at 1. unfold flat. rewrite join_app. done.
  - rewrite length_flat by (by apply Forall_take). rewrite length_take. apply lookup_lt_Some in Hr. lia.
Qed.
Lemma flat_row ls r l :
  shaped W H ls -> ls !! r = Some l -> get_range (flat ls) (Z.of_nat r * WIDTH) ((Z.of_nat r + 1) * WIDTH) = Some l.
Proof.
  intros [Hl Hf] Hr. destruct (flat_split ls r l Hf Hr) as [E El]. pose proof (proj1 (Forall_lookup _ _) Hf _ _ Hr) as Hll. cbv beta in Hll.
  pose proof (lookup_lt_Some _ _ _ Hr). unfold get_range, WIDTH. rewrite length_flat by done.
  rewrite !(proj2 (Z.leb_le _ _)) by lia. cbn [andb]. f_equal. rewrite E.
  rewrite drop_app_length' by lia. apply take_app_length'. lia.
Qed.
Lemma flat_set_row ls r l l' :
  shaped W H ls -> ls !! r = Some l -> length l' = W ->
  splice (flat ls) (r * W) l' = Some (flat (<[r := l']> ls)).
Proof.
  intros [Hl Hf] Hr Hl'. destruct (flat_split ls r l Hf Hr) as [E El]. pose proof (proj1 (Forall_lookup _ _) Hf _ _ Hr) as Hll. cbv beta in Hll.
  pose proof (lookup_lt_Some _ _ _ Hr). unfold splice. rewrite length_flat by done. rewrite decide_True by lia. f_equal.
  rewrite insert_take_drop by done. unfold flat in *. rewrite join_app. simpl. rewrite E.
  rewrite take_app_length' by lia. f_equal. f_equal.
  rewrite (app_assoc (mjoin (take r ls))). apply drop_app_length'. rewrite length_app. lia.
Qed.
Lemma flat_set_cell ls r c l x :
  shaped W H ls -> ls !! r = Some l -> (c < W)%nat ->
  <[(r * W + c)%nat := x]> (flat ls) = flat (alter (<[c := x]>) r ls).
Proof.
  intros [Hl Hf] Hr Hc. destruct (flat_split ls r l Hf Hr) as [E El]. pose proof (proj1 (Forall_lookup _ _) Hf _ _ Hr) as Hll. cbv beta in Hll.
  rewrite E, insert_app_r_alt by lia. replace (r * W + c - length (flat (take r ls)))%nat with c by lia.
  rewrite insert_app_l by lia.
  assert (alter (<[c := x]>) r ls = <[r := <[c := x]> l]> ls) as ->.
  { apply list_eq. intros i. destruct (decide (i = r)) as [->|].
    - rewrite list_lookup_alter_eq, Hr, list_lookup_insert_eq by (by eapply lookup_lt_Some). done.
    - by rewrite list_lookup_alter_ne, list_lookup_insert_ne by done. }
  rewrite (insert_take_drop ls) by (by eapply lookup_lt_Some). unfold flat. by rewrite join_app.
Qed.

(** ** Scrolling *)
Lemma copy_row_spec w ls r :
  shaped W H ls -> buffer w = flat ls -> 0 < r < HEIGHT ->
  exists l, ls !! Z.to_nat r = Some l /\
    copy_within (r * WIDTH) ((r + 1) * WIDTH) ((r - 1) * WIDTH) w = Ret tt (set_cells (flat (<[Z.to_nat (r - 1) := l]> ls)) w).
Proof.
  intros Hs Hb Hr. unfold HEIGHT, WIDTH in *. destruct (shaped_row ls (Z.to_nat r) Hs ltac:(lia)) as (l & El & Hl).
  destruct (shaped_row ls (Z.to_nat (r - 1)) Hs ltac:(lia)) as (l0 & El0 & _). exists l. split; [done|].
  unfold copy_within. rewrite Hb. pose proof (flat_row ls (Z.to_nat r) l Hs El) as Hg. rewrite Z2Nat.id in Hg by lia.
  unfold WIDTH in Hg. rewrite Hg. cbn [mbind option_bind].
  replace (Z.to_nat ((r - 1) * 80)) with (Z.to_nat (r - 1) * W)%nat by lia. by rewrite (flat_set_row ls _ l0 l).
Qed.
(** The rows after the first [k] have moved up. *)
Definition moved (k : nat) (ls : list (list ScreenChar)) : list (list ScreenChar) := take k (tail ls) ++ drop k ls.
Lemma moved_step k (ls : list (list ScreenChar)) l :
  ls !! S k = Some l -> <[k := l]> (moved k ls) = moved (S k) ls.
Proof.
  intros Hl. pose proof (lookup_lt_Some _ _ _ Hl). unfold moved. destruct ls as [|l0 ls]; [done|]. simpl in *.
  assert (length (take k ls) = k) as Hk by (rewrite length_take; lia).
  rewrite insert_app_r_alt by lia. rewrite Hk, Nat.sub_diag.
  destruct (drop k (l0 :: ls)) as [|x d] eqn:Ed; [apply (f_equal length) in Ed; rewrite length_drop in Ed; simpl in Ed; lia|].
  rewrite (take_S_r ls k l) by done. rewrite <- app_assoc. simpl. f_equal. f_equal.
  assert (drop 1 (drop k (l0 :: ls)) = d) as <- by (by rewrite Ed). rewrite drop_drop, Nat.add_1_r. done.
Qed.
Lemma shaped_moved k ls : shaped W H ls -> (k < H)%nat -> shaped W H (moved k ls).
Proof.
  intros [Hl Hf] Hk. unfold moved. split; [rewrite length_app, length_take, length_drop; destruct ls; simpl in *; lia|].
  apply Forall_app. split; [apply Forall_take|by apply Forall_drop]. destruct ls; [done|]. by inversion Hf.
Qed.
Lemma move_rows_spec w ls :
  shaped W H ls -> buffer w = flat ls ->
  for_in (range 1 HEIGHT) (fun r => copy_within (r * WIDTH) ((r + 1) * WIDTH) ((r - 1) * WIDTH)) w =
    Ret tt (set_cells (flat (moved 24 ls)) w).
Proof.
  intros Hs Hb. change (range 1 HEIGHT) with (range 1 (1 + 24)).
  assert (wp (for_in (range 1 (1 + 24)) (fun r => copy_within (r * WIDTH) ((r + 1) * WIDTH) ((r - 1) * WIDTH)))
    (fun _ w' => w' = set_cells (flat (moved (Z.to_nat (1 + 24 - 1)) ls)) w) w) as Hw.
  2: { destruct (wp_elim _ _ _ Hw) as ([] & w' & E & ->). exact E. }
  apply (wp_for_range (fun r w' => w' = set_cells (flat (moved (Z.to_nat (r - 1)) ls)) w)); [lia| |].
  - change (moved (Z.to_nat (1 - 1)) ls) with ls. rewrite <- Hb. by destruct w.
  - intros k w' Hk ->. set (n := Z.to_nat (k - 1)).
    destruct (copy_row_spec (set_cells (flat (moved n ls)) w) (moved n ls) k) as (l & El & E);
      [apply shaped_moved; [done|lia]|done|unfold HEIGHT; lia|].
    eapply wp_intro; [exact E|]. cbv beta. fold n. replace (Z.to_nat (k + 1 - 1)) with (S n) by lia.
    rewrite (moved_step n ls l); [done|]. replace (Z.to_nat k) with (S n) in El by lia.
    destruct Hs as [Hl _]. unfold moved in El. destruct ls as [|l0 ls]; [done|]. simpl in Hl.
    rewrite lookup_app_r in El by (rewrite length_take; simpl; lia). rewrite length_take, lookup_drop in El. simpl tail in El.
    by replace (n + (S n - n `min` length ls))%nat with (S n) in El by lia.
Qed.

(** Blanking the last row, cell by cell. *)
Lemma blank_row_spec w ls x :
  shaped W H ls -> buffer w = flat ls ->
  exists front l, ls = front ++ [l] /\ length front = 24%nat /\
    for_in (range 0 WIDTH) (fun c => set_cell ((HEIGHT - 1) * WIDTH + c) x) w =
      Ret tt (set_cells (flat (front ++ [replicate W x])) w).
Proof.
  intros Hs Hb. pose proof Hs as [Hl Hf]. destruct ls as [|l front _] using rev_ind; [done|].
  rewrite length_app in Hl. simpl in Hl. apply Forall_app in Hf as [Hff Hfl]. apply Forall_cons_1 in Hfl as [Hfl _].
  exists front, l. split; [done|]. split; [lia|]. change (range 0 WIDTH) with (range 0 (0 + 80)).
  set (part := fun c : Z => front ++ [replicate (Z.to_nat c) x ++ drop (Z.to_nat c) l]).
  assert (wp (for_in (range 0 (0 + 80)) (fun c => set_cell ((HEIGHT - 1) * WIDTH + c) x))
    (fun _ w' => w' = set_cells (flat (part (0 + 80))) w) w) as Hw.
  2: { destruct (wp_elim _ _ _ Hw) as ([] & w' & E & ->). rewrite E. unfold part.
       by rewrite (drop_ge l), app_nil_r by lia. }
  assert (forall c, 0 <= c <= 80 -> shaped W H (part c)) as Hpart.
  { intros c Hc. split; [unfold part; rewrite length_app; simpl; lia|]. apply Forall_app. split; [done|].
    constructor; [|done]. rewrite length_app, length_replicate, length_drop. lia. }
  apply (wp_for_range (fun c w' => w' = set_cells (flat (part c)) w)); [lia| |].
  - unfold part. simpl. rewrite drop_0, <- Hb. by destruct w.
  - intros c w' Hc ->. unfold wp, set_cell, HEIGHT, WIDTH. cbn [buffer set_cells].
    pose proof (Hpart c ltac:(lia)) as Hs'. rewrite length_flat by apply Hs'. rewrite (proj1 Hs'). rewrite decide_True by lia.
    replace (Z.to_nat ((25 - 1) * 80 + c)) with (24 * W + Z.to_nat c)%nat by lia.
    destruct (shaped_row (part c) 24 Hs' ltac:(lia)) as (l' & El & _). rewrite (flat_set_cell (part c) 24 (Z.to_nat c) l') by (done || lia).
    unfold set_cells. cbn [row col current_color ports]. f_equal. f_equal. unfold part.
    replace 24%nat with (length front + 0)%nat by lia. rewrite alter_app_r. simpl. do 2 f_equal.
    rewrite insert_app_r_alt by (rewrite length_replicate; lia). rewrite length_replicate, Nat.sub_diag.
    replace (Z.to_nat (c + 1)) with (S (Z.to_nat c)) by lia. rewrite replicate_S_end, <- app_assoc. f_equal.
    destruct (drop (Z.to_nat c) l) as [|y d] eqn:Ed; [apply (f_equal length) in Ed; rewrite length_drop in Ed; simpl in Ed; lia|].
    simpl. f_equal. assert (drop 1 (drop (Z.to_nat c) l) = d) as <- by (by rewrite Ed). by rewrite drop_drop, Nat.add_1_r.
Qed.
Abbreviation vcell w := (fun b : Z => mk_char b (current_color w)).
Lemma vga_scroll_spec w ls :
  shaped W H ls -> buffer w = flat ls ->
  scroll w = Ret tt (set_cursor (HEIGHT - 1) 0 (set_cells (flat (tail ls ++ [blank_line (vcell w) W])) w)).
Proof.
  intros Hs Hb. unfold scroll. unfold mbind at 1, st_bind. rewrite (move_rows_spec w ls Hs Hb).
  unfold mbind at 1, st_bind, get_st. unfold mbind at 1, st_bind.
  destruct (blank_row_spec (set_cells (flat (moved 24 ls)) w) (moved 24 ls) (mk_char 32 (current_color w))) as (front & l & E & Hlf & Er);
    [apply shaped_moved; [done|lia]|done|]. cbn [current_color set_cells]. rewrite Er. unfold modify. cbn [set_cells].
  assert (front = tail ls) as ->; [|done].
  destruct Hs as [Hl _]. unfold moved in E. destruct ls as [|l0 ls]; [done|]. simpl in Hl. simpl tail in *.
  rewrite take_ge in E by lia. apply (f_equal (take 24)) in E.
  by rewrite (take_app_length' ls), (take_app_length' front) in E by lia.
Qed.

(** ** The refinement *)
Definition shows (w : Writer) (t : term (C := ScreenChar)) : Prop :=
  term_ok W H t /\ buffer w = flat (lines t) /\ Z.of_nat (trow t) = row w /\ Z.of_nat (tcol t) = col w.
(** The colour does not change. *)
Definition refines (c : Z) (w : Writer) (t : term (C := ScreenChar)) : Prop := current_color w = c /\ shows w t.
Lemma set_cell_shows w t r c x :
  shows w t -> 0 <= r < HEIGHT -> 0 <= c < WIDTH ->
  exists b, set_cell (r * WIDTH + c) x w = Ret tt (set_cells b w) /\
    shows (set_cells b w) (term_set (Z.to_nat r) (Z.to_nat c) x t).
Proof.
  unfold HEIGHT, WIDTH. intros ((Hs & Htr & Htc) & Hb & Hr & Hc) Hr' Hc'. unfold set_cell. rewrite Hb, length_flat by apply Hs.
  rewrite (proj1 Hs), decide_True by lia. eexists. split; [done|].
  split; [split_and!; [by apply shaped_alter|done|done]|]. split; [|done].
  replace (Z.to_nat (r * 80 + c)) with (Z.to_nat r * W + Z.to_nat c)%nat by lia.
  destruct (shaped_row (lines t) (Z.to_nat r) Hs ltac:(lia)) as (l & El & _). by apply (flat_set_cell _ _ _ l); [| |lia].
Qed.
Lemma line_feed_refines c w t :
  refines c w t -> wp line_feed (fun _ w' => refines c w' (term_newline (fun b => mk_char b c) W H t)) w.
Proof.
  intros [<- (Ht & Hb & Hr & Hk)]. pose proof Ht as (Hs & Htr & _). pose proof (newline_ok (vcell w) _ _ t Ht) as Ht'.
  revert Ht'. unfold line_feed, term_newline, wp, mbind, st_bind, modify, get_st. cbn [row set_cursor]. unfold HEIGHT.
  destruct (Z.leb_spec 25 (row w + 1)).
  - rewrite decide_True by lia. intros Ht'. rewrite (vga_scroll_spec (set_cursor (row w + 1) 0 w) (lines t)) by done.
    split; [done|]. split; [exact Ht'|]. done.
  - rewrite decide_False by lia. intros Ht'. split; [done|]. split; [exact Ht'|]. cbn. split_and!; [done|lia|done].
Qed.
Lemma write_char_refines c w t b :
  refines c w t -> wp (write_char b) (fun _ w' => refines c w' (term_put (fun b => mk_char b c) W H (mk_char b c) t)) w.
Proof.
  intros Hr. unfold write_char, term_put. apply wp_get. apply wp_bind. set (t1 := if decide _ then _ else _).
  assert (wp (if WIDTH <=? col w then line_feed else mret tt) (fun _ w' => refines c w' t1 /\ (tcol t1 < W)%nat) w) as Hlf.
  { pose proof Hr as [_ (Ht & _ & _ & Hk)]. unfold t1, WIDTH. destruct (Z.leb_spec 80 (col w)).
    - rewrite decide_True by lia. eapply wp_conseq; [by apply line_feed_refines|]. intros [] w' Hr'. split; [done|].
      unfold term_newline. case_decide; simpl; lia.
    - rewrite decide_False by lia. apply wp_ret. split; [done|lia]. }
  eapply wp_conseq; [exact Hlf|]. intros [] w1 [[Ec Hs1] Hlt]. apply wp_get. apply wp_bind.
  pose proof Hs1 as ((Hsh & Htr & _) & _ & Hr1 & Hk1).
  destruct (set_cell_shows w1 t1 (row w1) (col w1) (mk_char b (current_color w1)) Hs1) as (bs & E & Hs2); [unfold HEIGHT; lia|unfold WIDTH; lia|].
  eapply wp_intro; [exact E|]. unfold wp, modify. split; [done|]. rewrite Ec in Hs2.
  replace (Z.to_nat (row w1)) with (trow t1) in Hs2 by lia. replace (Z.to_nat (col w1)) with (tcol t1) in Hs2 by lia.
  destruct Hs2 as ((Hsh2 & Htr2 & _) & Hb2 & Hr2 & Hk2).
  split; [split; [exact Hsh2|split; [exact Htr2|cbn in *; lia]]|]. split; [exact Hb2|]. cbn in *. lia.
Qed.
Lemma update_cursor_refines c w t :
  refines c w t -> wp update_cursor (fun _ w' => refines c w' t) w.
Proof. by intros [? ?]. Qed.
Lemma tab_refines n c w t a :
  refines c w t ->
  wp (for_in (seqZ a (Z.of_nat n)) (fun _ => write_char 32;; update_cursor))
    (fun _ w' => refines c w' (Nat.iter n (term_put (fun b => mk_char b c) W H (mk_char 32 c)) t)) w.
Proof.
  revert w t a. induction n as [|n IH]; intros w t a Hr; [by apply wp_ret|].
  rewrite seqZ_cons by lia. replace (Z.pred (Z.of_nat (S n))) with (Z.of_nat n) by lia. cbn [for_in].
  apply wp_bind. apply wp_bind. eapply wp_conseq; [by apply write_char_refines|]. intros [] w1 Hr1.
  eapply wp_conseq; [by apply update_cursor_refines|]. intros [] w2 Hr2.
  eapply wp_conseq; [exact (IH w2 _ (Z.succ a) Hr2)|]. intros [] w3 Hr3. by rewrite Nat.iter_succ_r.
Qed.
Abbreviation the_byte c := (term_byte (fun b => mk_char b c) W H false).

(** What the last programming of the cursor registers says. *)
Definition cursor_programmed (w : Writer) : Prop :=
  exists before, ports w = before ++ [(0x3D4, 14); (0x3D5, (row w * WIDTH + col w) / 256);
                                      (0x3D4, 15); (0x3D5, (row w * WIDTH + col w) mod 256)].
Lemma update_cursor_programs c w t : refines c w t -> wp update_cursor (fun _ w' => refines c w' t /\ cursor_programmed w') w.
Proof.
  intros Hr. pose proof Hr as [_ ((_ & Htr & Htc) & _ & Er & Ek)]. split; [by destruct Hr|]. exists (ports w).
  unfold outb. cbn. unfold WIDTH. rewrite <- !app_assoc. cbn. rewrite (wrap_small 16) by (unfold in_u; lia).
  change 255 with (Z.ones 8). rewrite Z.land_ones, Z.shiftr_div_pow2 by lia. change (2 ^ 8) with 256.
  rewrite (wrap_small 8); [done|]. unfold in_u. split; [apply Z.div_pos; lia|apply Z.div_lt_upper_bound; lia].
Qed.
Lemma write_byte_refines c w t b :
  refines c w t -> wp (write_byte b) (fun _ w' => refines c w' (the_byte c t b) /\ cursor_programmed w') w.
Proof.
  intros Hr. unfold write_byte. apply wp_bind.
  cut (wp (if b =? 10 then line_feed else if b =? 13 then modify (fun w => set_cursor (row w) 0 w)
    else if b =? 8 then w ← get_st; if 0 <? col w then put_st (set_cursor (row w) (col w - 1) w);;
       set_cell (row w * WIDTH + (col w - 1)) (mk_char 32 (current_color w)) else mret tt
    else if b =? 9 then w ← get_st; for_in (range 0 (4 - col w mod 4)) (fun _ => write_char 32;; update_cursor)
    else write_char b) (fun _ w' => refines c w' (the_byte c t b)) w).
  { intros Hw. eapply wp_conseq; [exact Hw|]. intros [] w1 Hr1. by apply update_cursor_programs. }
  pose proof Hr as [Ec ((Hs & Htr & Htc) & Hb & Er & Ek)]. unfold term_byte.
  destruct (b =? 10); [by apply line_feed_refines|].
  destruct (b =? 13). { unfold wp, modify. split; [done|]. split; [|done]. split; [done|]. cbn. lia. }
  destruct (b =? 8).
  { apply wp_get. unfold term_back. destruct (tcol t) as [|k] eqn:Et.
    - rewrite (proj2 (Z.ltb_ge 0 (col w))) by lia. apply wp_ret. by destruct (trow t).
    - rewrite (proj2 (Z.ltb_lt 0 (col w))) by lia. apply wp_bind. unfold wp at 1, put_st.
      assert (shows (set_cursor (row w) (col w - 1) w) (mk_term (lines t) (trow t) k)) as Hs'.
      { split; [split; [exact Hs|split; [exact Htr|cbn; lia]]|]. split; [exact Hb|]. cbn. lia. }
      destruct (set_cell_shows _ _ (row w) (col w - 1) (mk_char 32 (current_color w)) Hs') as (bs & E & Hs2);
        [unfold HEIGHT; lia|unfold WIDTH; lia|]. eapply wp_intro; [exact E|]. split; [done|]. rewrite Ec in Hs2.
      replace (Z.to_nat (row w)) with (trow t) in Hs2 by lia. by replace (Z.to_nat (col w - 1)) with k in Hs2 by lia. }
  destruct (b =? 9); [|by apply write_char_refines].
  apply wp_get. unfold range. rewrite Z.sub_0_r.
  assert (4 - col w mod 4 = Z.of_nat (4 - tcol t mod 4)) as ->.
  { rewrite Nat2Z.inj_sub, Nat2Z.inj_mod, Ek; [done|]. pose proof (Nat.mod_upper_bound (tcol t) 4 ltac:(lia)). lia. }
  by apply tab_refines.
Qed.
Lemma write_str_refines s c w t :
  refines c w t -> wp (write_str s) (fun _ w' => refines c w' (term_write (fun b => mk_char b c) W H false t s) /\
    (s <> [] \/ cursor_programmed w -> cursor_programmed w')) w.
Proof.
  revert w t. induction s as [|b s IH]; intros w t Hr.
  { apply wp_ret. split; [done|]. by intros [?|?]. }
  unfold write_str in *. cbn [for_in].
  apply wp_bind. eapply wp_conseq; [by apply write_byte_refines|]. intros [] w1 [Hr1 Hp1].
  eapply wp_conseq; [by apply IH|]. intros [] w2 [Hr2 Hp2]. split; [done|]. intros _. apply Hp2. by right.
Qed.

(** ** Any use of the screen *)
Inductive op := Write (s : list Z) | Clear | Set_color (c : Z).
Definition exec (o : op) : ST Writer unit :=
  match o with Write s => write_str s | Clear => clear | Set_color c => set_color c end.
(** The specification: the colour in force and a terminal of coloured cells. *)
Definition spec_state : Type := Z * term (C := ScreenChar).
Definition spec_new : spec_state := (color LIGHT_GRAY BLACK, term_clear (fun b => mk_char b (color LIGHT_GRAY BLACK)) W H).
Definition spec_exec (st : spec_state) (o : op) : spec_state :=
  let '(c, t) := st in
  match o with
  | Write s => (c, term_write (fun b => mk_char b c) W H false t s)
  | Clear => (c, term_clear (fun b => mk_char b c) W H)
  | Set_color c' => (c', t)
  end.
(** Whether the last thing that moved the cursor was a write. *)
Definition synced (b : bool) (o : op) : bool :=
  match o with Write (_ :: _) => true | Clear => false | _ => b end.
Definition session (screen : list ScreenChar) (ops : list op) : ST Writer unit := init screen;; for_in ops exec.
Definition agrees (w : Writer) (st : spec_state) (b : bool) : Prop :=
  refines (fst st) w (snd st) /\ (b = true -> cursor_programmed w).

Lemma cleared_shows c w :
  length (buffer w) = 2000%nat -> current_color w = c ->
  wp clear_screen (fun _ w' => refines c w' (term_clear (fun b => mk_char b c) W H)) w.
Proof.
  intros Hl <-. unfold wp, clear_screen, modify. split; [done|]. split; [apply clear_ok; lia|]. split; [|done].
  rewrite Hl. reflexivity.
Qed.
Lemma refines_length c w t : refines c w t -> length (buffer w) = 2000%nat.
Proof. intros [_ ((Hs & _) & Hb & _)]. rewrite Hb, length_flat by apply Hs. by rewrite (proj1 Hs). Qed.
Lemma vga_exec_refines w st b o :
  agrees w st b -> wp (exec o) (fun _ w' => agrees w' (spec_exec st o) (synced b o)) w.
Proof.
  destruct st as [c t]. intros [Hr Hp]. simpl in Hr, Hp. destruct o as [s| |c']; simpl.
  - eapply wp_conseq; [by apply write_str_refines|]. intros [] w' [Hr' Hp']. split; [exact Hr'|].
    destruct s as [|x s]; intros; apply Hp'; [right; by apply Hp|by left].
  - eapply wp_conseq; [apply cleared_shows; [by eapply refines_length|apply Hr]|]. intros [] w' Hr'. by split.
  - unfold wp, set_color, modify. split; [|exact Hp]. destruct Hr as [_ Hs]. split; [done|exact Hs].
Qed.
Lemma init_agrees screen :
  length screen = 2000%nat -> wp (init screen) (fun _ w => agrees w spec_new true) new.
Proof.
  intros Hl. unfold init. apply wp_bind. unfold wp at 1, init_buffer, modify.
  apply wp_bind. unfold wp at 1, set_color, modify. apply wp_bind.
  eapply wp_conseq; [by apply (cleared_shows (color LIGHT_GRAY BLACK))|]. intros [] w Hr.
  eapply wp_conseq; [by apply update_cursor_programs|]. intros [] w' [Hr' Hp]. by split.
Qed.

(** The text screen is a terminal: from the adapter's memory as the firmware
    left it, after initialisation and any sequence of writes, clears and changes
    of colour, no write leaves the screen's memory, the memory holds exactly the
    coloured cells of a terminal given the same bytes, and, unless the last
    thing that moved the cursor was a clear, the hardware cursor was last
    programmed with the terminal's cursor. *)
Theorem vga_refines screen ops :
  length screen = 2000%nat ->
  exists w, session screen ops new = Ret tt w /\
    agrees w (foldl spec_exec spec_new ops) (foldl synced true ops).
Proof.
  intros Hl. destruct (wp_elim _ _ _ (init_agrees screen Hl)) as ([] & w & E & Ha).
  unfold session, mbind, st_bind. rewrite E. clear E Hl. revert w Ha. generalize spec_new true.
  induction ops as [|o ops IH]; intros st b w Ha; [by exists w|]. cbn [for_in foldl].
  destruct (wp_elim _ _ _ (vga_exec_refines w st b o Ha)) as ([] & w1 & E1 & Ha1).
  destruct (IH _ _ w1 Ha1) as (w2 & E2 & Ha2). exists w2. split; [|done]. unfold mbind, st_bind. by rewrite E1.
Qed.
Example vga_refines_witness :
  exists w, session (replicate 2000 (mk_char 1 2)) [Write [72; 105; 10; 9; 33]; Set_color 0x1F; Write [8; 13; 35]] new
      = Ret tt w /\ buffer w !! 80%nat = Some (mk_char 35 0x1F) /\ buffer w !! 84%nat = Some (mk_char 32 0x1F) /\
    last (ports w) = Some (0x3D5, 81).
Proof.
  destruct (vga_refines (replicate 2000 (mk_char 1 2)) [Write [72; 105; 10; 9; 33]; Set_color 0x1F; Write [8; 13; 35]])
    as (w & E & [_ (_ & Hb & Hr & Hc)] & Hp); [apply length_replicate|].
  exists w. split; [exact E|]. rewrite Hb. split; [vm_compute; reflexivity|]. split; [vm_compute; reflexivity|].
  destruct Hp as [before ->]; [reflexivity|]. rewrite last_app. rewrite <- Hr, <- Hc. vm_compute. reflexivity.
Defined.
