(* ===== verification/Io.v ===== *)
(** * Printing, [io.rs] and [serial.rs]

    Formatted text arrives as the pieces the formatter passes to [write_str].
    Every print goes to the serial line and to one screen: the console that
    has the focus, or the text screen of [Vga.v] under its lock.  [sprint]
    formats into a caller's buffer.  A wait that the hardware or a lock never
    ends is modelled as no result, like a panic. *)
From S2P Require Import Prelude Text Gfx Draw Terminal Console Vga Sync.

(** ** The serial line *)
Definition COM1 : Z := 0x3F8.
(** The values the line status register will read, and the writes so far. *)
Record Serial := mk_serial { status : list Z; sent : list (Z * Z) }.
Definition outb (p v : Z) : ST Serial unit := modify (fun l => mk_serial (status l) (sent l ++ [(p, v)])).
Definition init : ST Serial unit :=
  outb (COM1 + 1) 0x00;; outb (COM1 + 3) 0x80;; outb (COM1 + 0) 0x03;; outb (COM1 + 1) 0x00;;
  outb (COM1 + 3) 0x03;; outb (COM1 + 2) 0xC7;; outb (COM1 + 4) 0x0B.
(** The [while !tx_ready()] loop: reads up to the first ready one are used up. *)
Definition tx_ready (s : Z) : bool := is_set s 0x20.
Fixpoint spin (reads : list Z) : option (list Z) :=
  match reads with
  | [] => None
  | s :: reads => if tx_ready s then Some reads else spin reads
  end.
Definition serial_byte (byte : Z) : ST Serial unit := fun l =>
  match spin (status l) with
  | Some reads => outb COM1 byte (mk_serial reads (sent l))
  | None => Panic
  end.
Definition serial_str (s : list Z) : ST Serial unit := for_in s serial_byte.

(** ** The sinks *)
Record Io := mk_io { serial : Serial; active : option Console; screen : SpinLock Writer }.
Definition on_serial {A} (m : ST Serial A) : ST Io A := fun io =>
  match m (serial io) with Ret a l => Ret a (mk_io l (active io) (screen io)) | Panic => Panic end.
(** [vga::WRITER.lock()], a function on the writer, and the guard's drop. *)
Definition with_vga {A} (m : ST Writer A) : ST Io A := fun io =>
  let '(was_locked, l) := swap_true (screen io) in
  if was_locked then Panic else
  match m (deref l) with
  | Ret a w => Ret a (mk_io (serial io) (active io) (drop (deref_mut l w)))
  | Panic => Panic
  end.
Section io.
Variable fscale : Z.
Definition on_console {A} (m : ST Console A) (c : Console) : ST Io A := fun io =>
  match m c with Ret a c' => Ret a (mk_io (serial io) (Some c') (screen io)) | Panic => Panic end.
(** The console that will be printed to, or [None] for the text screen. *)
Definition set_console_sink (target : option Console) : ST Io unit :=
  modify (fun io => mk_io (serial io) target (screen io)).
Definition print (args : list (list Z)) : ST Io unit :=
  on_serial (for_in args serial_str);;
  io ← get_st;
  match active io with
  | Some c => on_console (for_in args (Console.write_str fscale)) c
  | None => with_vga (for_in args Vga.write_str)
  end.
Definition clear_active : ST Io unit :=
  io ← get_st;
  match active io with
  | Some c => on_console Console.clear c
  | None => with_vga Vga.clear
  end.
(** With [try_lock]: a locked screen is skipped. *)
Definition exception_print (s : list Z) : ST Io unit :=
  on_serial (serial_str s);;
  io ← get_st;
  match try_lock (screen io) with
  | (Some _, l) =>
      match Vga.write_str s (deref l) with
      | Ret _ w => put_st (mk_io (serial io) (active io) (drop (deref_mut l w)))
      | Panic => panic
      end
  | (None, l) => put_st (mk_io (serial io) (active io) l)
  end.
End io.

(** ** Formatting into a buffer *)
Record StackStr := mk_stack { buffer : list Z; len : nat }.
Definition stack_write_str (s : list Z) : ST StackStr unit :=
  for_in s (fun byte w =>
    if decide (len w < length (buffer w))%nat
    then Ret tt (mk_stack (<[len w := byte]> (buffer w)) (S (len w)))
    else Ret tt w).
(** The text of the result, [buffer[..len]]. *)
Definition sprint (buf : list Z) (args : list (list Z)) : option (list Z) :=
  match for_in args stack_write_str (mk_stack buf 0) with
  | Ret _ w => Some (take (len w) (buffer w))
  | Panic => None
  end.

Lemma stack_write_str_fills s w :
  (len w <= length (buffer w))%nat ->
  wp (stack_write_str s) (fun _ w' => length (buffer w') = length (buffer w) /\ (len w' <= length (buffer w'))%nat /\
    take (len w') (buffer w') = take (length (buffer w)) (take (len w) (buffer w) ++ s)) w.
Proof.
  revert w. induction s as [|b s IH]; intros w Hw.
  { apply wp_ret. split_and!; [done|done|]. rewrite app_nil_r, take_take. f_equal. lia. }
  unfold stack_write_str in *. cbn [for_in]. apply wp_bind. unfold wp at 1. case_decide as Hlt.
  - eapply wp_conseq; [apply IH; simpl; rewrite length_insert; lia|]. simpl. rewrite length_insert.
    intros [] w' (Hl & Hle & E). split_and!; [done|done|]. rewrite E, (take_S_r _ _ b) by (by apply list_lookup_insert_eq).
    rewrite take_insert_ge, <- app_assoc by lia. done.
  - eapply wp_conseq; [by apply IH|]. intros [] w' (Hl & Hle & E). split_and!; [done|done|]. rewrite E.
    rewrite !take_app_ge by (rewrite length_take; lia). rewrite length_take.
    replace (length (buffer w) - len w `min` length (buffer w))%nat with 0%nat by lia. done.
Qed.

Lemma take_take_app (n : nat) (d s : list Z) : take n (take n d ++ s) = take n (d ++ s).
Proof. rewrite !take_app, take_take, Nat.min_id, length_take. do 2 f_equal. lia. Qed.

(** ** The serial line, once it is ready often enough *)
Definition ready_reads (l : Serial) : nat := length (filter (fun s => tx_ready s = true) (status l)).
Lemma spin_ready reads :
  (0 < length (filter (fun s => tx_ready s = true) reads))%nat ->
  exists rest, spin reads = Some rest /\
    length (filter (fun s => tx_ready s = true) reads) = S (length (filter (fun s => tx_ready s = true) rest)).
Proof.
  induction reads as [|s reads IH]; simpl; [lia|]. rewrite filter_cons. destruct (tx_ready s) eqn:E.
  - rewrite decide_True by done. intros _. by exists reads.
  - rewrite decide_False by done. exact IH.
Qed.
Lemma serial_str_sends s l :
  (length s <= ready_reads l)%nat ->
  wp (serial_str s) (fun _ l' => sent l' = sent l ++ map (pair COM1) s /\
    ready_reads l = (length s + ready_reads l')%nat) l.
Proof.
  revert l. induction s as [|b s IH]; intros l Hl; [apply wp_ret; by rewrite app_nil_r|].
  unfold serial_str in *. cbn [for_in]. apply wp_bind. simpl in Hl. unfold ready_reads in Hl.
  destruct (spin_ready (status l)) as (rest & E & En); [lia|].
  unfold wp at 1, serial_byte, outb, modify. rewrite E. cbn [status sent].
  eapply wp_conseq; [apply IH; unfold ready_reads; simpl; lia|]. intros [] l' [E1 E2]. split.
  - rewrite E1. simpl. by rewrite <- app_assoc.
  - unfold ready_reads in *. simpl in *. lia.
Qed.
Lemma wp_pieces {S} (m : list Z -> ST S unit) (ok : list Z -> Prop) (Inv : list Z -> S -> Prop) args :
  (forall d s st, ok s -> Inv d st -> wp (m s) (fun _ st' => Inv (d ++ s) st') st) ->
  Forall ok args -> forall d st, Inv d st -> wp (for_in args m) (fun _ st' => Inv (d ++ concat args) st') st.
Proof.
  intros Hm. induction 1 as [|s args Hs _ IH]; intros d st Hi; [apply wp_ret; by rewrite app_nil_r|].
  cbn [for_in concat]. apply wp_bind. eapply wp_conseq; [by apply Hm|]. intros [] st' Hi'.
  eapply wp_conseq; [by apply IH|]. intros [] st''. by rewrite app_assoc.
Qed.
Lemma serial_pieces_send args l :
  (length (concat args) <= ready_reads l)%nat ->
  wp (for_in args serial_str) (fun _ l' => sent l' = sent l ++ map (pair COM1) (concat args)) l.
Proof.
  revert l. induction args as [|s args IH]; intros l Hl; [apply wp_ret; by rewrite app_nil_r|].
  cbn [for_in concat] in *. rewrite length_app in Hl. apply wp_bind.
  eapply wp_conseq; [apply serial_str_sends; lia|]. intros [] l1 [E1 En].
  eapply wp_conseq; [apply IH; lia|]. intros [] l2 E2. by rewrite E2, E1, map_app, app_assoc.
Qed.
Abbreviation console_text c := (term_write (fun b => b) (Z.to_nat (cols c)) (Z.to_nat (rows c)) true).
Abbreviation screen_text c := (term_write (fun b => mk_char b c) W H false).
Lemma console_pieces fscale args c t :
  1 <= fscale -> Console.shows fscale c t -> Forall (Forall (fun b => 0 <= b)) args ->
  wp (for_in args (Console.write_str fscale)) (fun _ c' => same_style c c' /\
    Console.shows fscale c' (console_text c t (concat args))) c.
Proof.
  intros Hf Hs Ha.
  apply (wp_pieces _ (Forall (fun b => 0 <= b)) (fun d c' => same_style c c' /\ Console.shows fscale c' (console_text c t d)))
    with (d := []); [|exact Ha|done]. intros d s c1 Hb [Hst Hs1].
  eapply wp_conseq; [by apply (write_str_shows fscale Hf)|]. intros [] c2 [Hst2 Hs2].
  split; [by eapply same_style_trans|]. destruct Hst as (Ec & Er & _). unfold term_write in *. rewrite Ec, Er in Hs2. by rewrite foldl_app.
Qed.
Lemma screen_pieces args c w t :
  refines c w t -> wp (for_in args Vga.write_str) (fun _ w' => refines c w' (screen_text c t (concat args))) w.
Proof.
  intros Hr. apply (wp_pieces _ (fun _ => True) (fun d w' => refines c w' (screen_text c t d))) with (d := []); [|by apply Forall_true|done].
  intros d s w1 _ Hr1. eapply wp_conseq; [by apply write_str_refines|]. intros [] w2 [Hr2 _].
  unfold term_write in *. by rewrite foldl_app.
Qed.

(** What a reader of the screens sees: a terminal behind the focused console
    and one behind the text screen. *)
Definition sees (fscale : Z) (io : Io) (front : term (C := Z)) (c : Z) (back : term (C := ScreenChar)) : Prop :=
  match active io with Some k => Console.shows fscale k front | None => True end /\
  refines c (data (screen io)) back.

(** A print reaches the serial line and exactly one screen: given a serial
    line that becomes ready often enough and an unlocked text screen, every byte
    of every piece leaves on the serial port in order; with a console in focus the
    text is written to that console's terminal and the text screen is untouched,
    without one to the text screen, whose lock is free again. *)
Theorem print_reaches_one_screen fscale args io front c back :
  1 <= fscale -> Forall (Forall (fun b => 0 <= b)) args -> sees fscale io front c back -> locked (screen io) = false ->
  (length (concat args) <= ready_reads (serial io))%nat ->
  wp (print fscale args) (fun _ io' =>
    sent (serial io') = sent (serial io) ++ map (pair COM1) (concat args) /\ locked (screen io') = false /\
    match active io with
    | Some k => screen io' = screen io /\ exists k', active io' = Some k' /\
        sees fscale io' (console_text k front (concat args)) c back
    | None => active io' = None /\ sees fscale io' front c (screen_text c back (concat args))
    end) io.
Proof.
  intros Hf Ha [Hfr Hb] Hl Hr. unfold print. apply wp_bind. unfold wp at 1, on_serial.
  destruct (wp_elim _ _ _ (serial_pieces_send args (serial io) Hr)) as ([] & l & -> & El). apply wp_get. cbn [active].
  destruct (active io) as [k|] eqn:Ea; cbn in Hfr.
  - unfold wp, on_console. destruct (wp_elim _ _ _ (console_pieces fscale args k front Hf Hfr Ha)) as ([] & c' & -> & _ & Hs).
    split_and!; [exact El|exact Hl|done|]. by exists c'.
  - unfold wp, with_vga, swap_true, deref. cbn [screen data]. rewrite Hl.
    destruct (wp_elim _ _ _ (screen_pieces args c (data (screen io)) back Hb)) as ([] & w & -> & Hw). split_and!; try done.
Qed.

(** An exception report gets out: the formatted text is the given text cut
    to the buffer's length, it leaves on the serial line, and the report never
    waits for the text screen: one held by the interrupted code is left as it is,
    a free one shows the text and is free again. *)
Theorem exception_report_gets_out buf args io c back :
  refines c (data (screen io)) back -> (length buf <= ready_reads (serial io))%nat ->
  exists text, sprint buf args = Some text /\ text = take (length buf) (concat args) /\
    wp (exception_print text) (fun _ io' =>
      sent (serial io') = sent (serial io) ++ map (pair COM1) text /\ active io' = active io /\
      if locked (screen io) then screen io' = screen io
      else locked (screen io') = false /\ refines c (data (screen io')) (screen_text c back text)) io.
Proof.
  intros Hb Hr.
  assert (wp (for_in args stack_write_str) (fun _ w => length (buffer w) = length buf /\ (len w <= length (buffer w))%nat /\
    take (len w) (buffer w) = take (length buf) (concat args)) (mk_stack buf 0)) as Hw.
  { apply (wp_pieces stack_write_str (fun _ => True) (fun d w => length (buffer w) = length buf /\ (len w <= length (buffer w))%nat /\
      take (len w) (buffer w) = take (length buf) d)) with (d := []); [|by apply Forall_true|simpl; split_and!; [done|lia|by rewrite take_nil]].
    intros d s w _ (El & Hle & Et). eapply wp_conseq; [by apply stack_write_str_fills|]. intros [] w' (El' & Hle' & Et').
    split_and!; [lia|done|]. rewrite Et', Et, El. apply take_take_app. }
  destruct (wp_elim _ _ _ Hw) as ([] & w & E & El & Hle & Et). unfold sprint. rewrite E. eexists. split; [done|]. split; [exact Et|].
  rewrite Et. clear w E El Hle Et Hw. set (text := take _ _).
  assert (length text <= ready_reads (serial io))%nat as Ht by (unfold text; rewrite length_take; lia).
  unfold exception_print. apply wp_bind. unfold wp at 1, on_serial.
  destruct (wp_elim _ _ _ (serial_str_sends text (serial io) Ht)) as ([] & l & -> & El & _). apply wp_get.
  unfold try_lock, swap_true. cbn [screen]. destruct (screen io) as [lk w] eqn:Es. cbn [locked data] in *. destruct lk; [by split_and!|].
  unfold deref. cbn [data]. destruct (wp_elim _ _ _ (write_str_refines text c w back Hb)) as ([] & w' & -> & Hw & _).
  by split_and!.
Qed.

(** The buffer can end in the middle of a character. *)
Lemma sprint_cuts_characters : sprint [0; 0] [[110]; [0xC3; 0xA9]] = Some [110; 0xC3] /\ from_utf8 [110; 0xC3] = None.
Proof. split; reflexivity. Qed.

Definition blank_writer : Writer := mk_writer 0 0 7 (replicate 2000 (mk_char 32 7)) [].
Lemma blank_writer_refines : refines 7 blank_writer (term_clear (fun b => mk_char b 7) W H).
Proof. exact (cleared_shows 7 blank_writer eq_refl eq_refl). Qed.
Example print_reaches_one_screen_witness :
  let io := mk_io (mk_serial [0; 0x60; 0x20; 0; 0; 0x7F] []) (Some (Console.new 1 3 2 0xFFFFFF 0)) (mk_lock false blank_writer) in
  exists io' k, print 1 [[72]; []; [105; 10]] io = Ret tt io' /\ sent (serial io') = [(COM1, 72); (COM1, 105); (COM1, 10)] /\
    active io' = Some k /\ Console.row k = 1 /\ Console.col k = 0.
Proof.
  intros io.
  destruct (wp_elim _ _ _ (print_reaches_one_screen 1 [[72]; []; [105; 10]] io (term_clear (fun b => b) 3 2) 7
    (term_clear (fun b => mk_char b 7) W H) ltac:(lia) ltac:(repeat constructor; lia)
    (conj (shows_fresh 1 ltac:(lia) 3 2 0xFFFFFF 0 ltac:(unfold dims_ok, gw; lia)) blank_writer_refines) eq_refl
    ltac:(vm_compute; lia))) as ([] & io' & E & Es & _ & _ & k & Ek & [Hs _]).
  exists io', k. split; [exact E|]. split; [exact Es|]. split; [exact Ek|]. rewrite Ek in Hs.
  destruct Hs as (_ & _ & Hr & Hc & _). rewrite <- Hr, <- Hc. split; vm_compute; reflexivity.
Defined.
Example exception_report_gets_out_witness :
  let io := mk_io (mk_serial [0x20; 0x20; 0x20; 0x20] []) None (mk_lock true blank_writer) in
  exists text io', sprint [0; 0; 0] [[10; 61]; [33; 33]] = Some text /\ exception_print text io = Ret tt io' /\
    sent (serial io') = [(COM1, 10); (COM1, 61); (COM1, 33)] /\ screen io' = screen io.
Proof.
  intros io.
  destruct (exception_report_gets_out [0; 0; 0] [[10; 61]; [33; 33]] io 7 (term_clear (fun b => mk_char b 7) W H)
    blank_writer_refines ltac:(vm_compute; lia)) as (text & E & Et & Hw).
  destruct (wp_elim _ _ _ Hw) as ([] & io' & E' & Es & _ & Hl). exists text, io'.
  split; [exact E|]. split; [exact E'|]. split; [rewrite Es, Et; reflexivity|exact Hl].
Defined.
