(* ===== verification/Quiet.v ===== *)
(** * What other tasks can do to one end of a connection

    The socket operations of other tasks, seen from one connected endpoint that
    they neither read nor close: its inbox only grows, by what its peer sends. *)
From S2P Require Import Prelude Bytes PhysMem Pmm Paging Shm Socket.

Section quiet.
Context {R : Type} `{FdRefs R}.
Variables (cn : Z).
Abbreviation state := (Socket.state R).

Definition fds_of (s : state) (id : Z) : list Z := flight (endpoint s id).
(** Any operation but a new connection, and not one on this end. *)
Definition calm (o : op) : Prop :=
  0 <= op_id o /\ match o with Connect _ _ => False | Recv id _ | Close id => id <> cn | _ => True end.
(** What an operation puts into the inbox of [cn]. *)
Definition mail (s : state) (o : op) : list Z * list Z :=
  match o with
  | Send id bytes fds => if decide (peer_of s id = Some cn) then (bytes, fds) else ([], [])
  | _ => ([], [])
  end.
Definition gone (o : op) (id : Z) : Prop := match o with Close id' => id' = id | _ => False end.
Global Instance gone_dec o id : Decision (gone o id).
Proof. destruct o; simpl; apply _. Defined.

Definition is_close (o : op) : bool := match o with Close _ => true | _ => false end.
Lemma not_gone o c : is_close o = false -> ~ gone o c.
Proof. destruct o; naive_solver. Qed.

Record effect (o : op) (s s' : state) : Prop := {
  eff_peer : forall c, 0 <= c -> peer_of s' c = if decide (gone o c) then None else peer_of s c;
  eff_exists : exists_at s' cn;
  eff_inbox : inbox_of s' cn = inbox_of s cn ++ (mail s o).1;
  eff_fds : fds_of s' cn = fds_of s cn ++ (mail s o).2
}.
Lemma effect_none o s : exists_at s cn -> mail s o = ([], []) -> is_close o = false -> effect o s s.
Proof. intros He Hm Hg. split; [|done|by rewrite Hm, app_nil_r|by rewrite Hm, app_nil_r]. intros c _. by rewrite decide_False by (by apply not_gone). Qed.
(** Rewriting an endpoint without changing whom it is connected to. *)
Lemma effect_put o s id e e' :
  0 <= id -> 0 <= cn -> exists_at s cn -> endpoint s id = Some e -> is_close o = false ->
  (role e' = role e \/ forall p, role e <> Connected p /\ role e' <> Connected p) ->
  (id = cn -> inbox e' = inbox e ++ (mail s o).1 /\ inbox_fds e' = inbox_fds e ++ (mail s o).2) ->
  (id <> cn -> mail s o = ([], [])) -> effect o s (put id (Some e') s).
Proof.
  intros H0 Hc He Hid Hg Hr Heq Hne.
  assert (forall i, 0 <= i -> endpoint (put id (Some e') s) i = if decide (id = i) then Some e' else endpoint s i) as Hp.
  { intros i Hi. by rewrite endpoint_put by (done || by eexists). }
  split.
  - intros c Hc0. rewrite decide_False by (by apply not_gone). rewrite !peer_of_eq, Hp by done. case_decide; [|done]. subst c. rewrite Hid.
    destruct Hr as [->|Hr]; [done|]. destruct (role e), (role e'); naive_solver.
  - unfold exists_at. rewrite Hp by done. case_decide; [by eexists|done].
  - unfold inbox_of. rewrite Hp by done. case_decide as E; [|by rewrite Hne, app_nil_r by done]. subst. rewrite Hid. by apply Heq.
  - unfold fds_of. rewrite Hp by done. case_decide as E; [|by rewrite Hne, app_nil_r by done]. subst. rewrite Hid. by apply Heq.
Qed.
Lemma effect_same o (s s1 s' s2 : state) :
  (forall i, endpoint s1 i = endpoint s i) -> (forall i, endpoint s2 i = endpoint s' i) ->
  effect o s1 s2 -> effect o s s'.
Proof.
  intros He He' [Hp Hx Hi Hf].
  assert (forall i, peer_of s1 i = peer_of s i) as Hpe by (intros; by rewrite !peer_of_eq, He).
  assert (forall i, peer_of s2 i = peer_of s' i) as Hpe' by (intros; by rewrite !peer_of_eq, He').
  assert (mail s1 o = mail s o) as Hm. { destruct o; try done. simpl in *. by rewrite Hpe. }
  split.
  - intros c Hc. by rewrite <- Hpe', Hp, Hpe.
  - unfold exists_at in *. by rewrite <- He'.
  - rewrite <- Hm. unfold inbox_of in *. by rewrite <- He', <- He.
  - rewrite <- Hm. unfold fds_of in *. by rewrite <- He', <- He.
Qed.
Lemma exec_calm o s out s' :
  0 <= cn -> (forall c p, 0 <= c -> peer_of s c = Some p -> 0 <= p) -> exists_at s cn ->
  calm o -> exec o s = Ret out s' -> effect o s s'.
Proof.
  intros Hc0 Hids Hcn [H0 Hk] Hr. unfold exec, mbind, st_bind in Hr.
  destruct o as [|id path|id|id path|id|id bytes fds|id n|id]; simpl in H0, Hk.
  - destruct (alloc_endpoint_spec s new_endpoint) as (k & s1 & E & Hk0 & Hnone & He & _).
    unfold create in Hr. rewrite E in Hr. injection Hr as <- <-.
    assert (forall i, 0 <= i -> exists_at s i -> endpoint s1 i = endpoint s i) as Hsame.
    { intros i Hi [e Ee]. rewrite He by done. case_decide; [congruence|done]. }
    split; [| |by simpl; unfold inbox_of; rewrite Hsame, app_nil_r by done|by simpl; unfold fds_of; rewrite Hsame, app_nil_r by done].
    + intros c Hc. rewrite decide_False by (by apply not_gone). rewrite !peer_of_eq, He by done. case_decide; [subst; by rewrite Hnone|done].
    + unfold exists_at. by rewrite Hsame.
  - unfold bind in Hr. case_decide; [injection Hr as <- <-; by apply effect_none|].
    destruct (endpoint s id) as [e|] eqn:He; [|injection Hr as <- <-; by apply effect_none].
    destruct (role e) eqn:Ee; try (injection Hr as <- <-; by apply effect_none).
    injection Hr as <- <-. eapply effect_put; try done; [right; intros p; by rewrite Ee|by rewrite !app_nil_r].
  - unfold listen in Hr. destruct (endpoint s id) as [e|] eqn:He; [|injection Hr as <- <-; by apply effect_none].
    destruct (role e) eqn:Ee; try (injection Hr as <- <-; by apply effect_none).
    injection Hr as <- <-.
    assert (effect (Listen id) s (put id (Some (set_role Listening e)) s)) as [? ? ? ?]; [|by split].
    eapply effect_put; try done; [right; intros p; by rewrite Ee|by rewrite !app_nil_r].
  - done.
  - unfold accept in Hr. destruct (endpoint s id) as [e|] eqn:He; [|injection Hr as <- <-; by apply effect_none].
    destruct (backlog e); [injection Hr as <- <-; by apply effect_none|]. injection Hr as <- <-.
    eapply effect_put; try done; [by left|by rewrite !app_nil_r].
  - unfold send, get_st, mbind, st_bind in Hr. destruct (peer_of s id) as [p|] eqn:Hpeer; cycle 1.
    { injection Hr as <- <-. apply effect_none; [done| |done]. simpl. by rewrite Hpeer. }
    destruct (for_each (fun f => on_shm (fd_dup f)) fds s) as [[] s1|] eqn:Hd; [|done].
    apply for_each_on_shm in Hd as [He1 Hl1].
    assert (forall i, endpoint s1 i = endpoint s i) as Hes1 by (intros; unfold endpoint; by rewrite He1).
    assert (peer_of s1 id = Some p) as Hp1 by (by rewrite peer_of_eq, Hes1, <- peer_of_eq).
    assert (exists_at s1 cn) as Hcn1 by (unfold exists_at; by rewrite Hes1).
    destruct (endpoint s1 p) as [e|] eqn:He.
    + injection Hr as <- <-. eapply (effect_same _ s s1); [done|reflexivity|].
      eapply effect_put; try done; [by eapply Hids|by left| |].
      * intros ->. cbn. by rewrite decide_True.
      * intros Hn. cbn. rewrite decide_False by congruence. done.
    + destruct (for_each (fun f => on_shm (fd_close f)) fds s1) as [[] s2|] eqn:Hc; [|done].
      injection Hr as <- <-. apply for_each_on_shm in Hc as [He2 _].
      apply (effect_same _ s s _ s); [done|intros; unfold endpoint; congruence|].
      apply effect_none; [done| |done]. simpl. rewrite Hpeer, decide_False; [done|].
      intros [= ->]. destruct Hcn1 as [? Hx]. congruence.
  - unfold recv in Hr. destruct (endpoint s id) as [e|] eqn:He; [|injection Hr as <- <-; by apply effect_none].
    injection Hr as <- <-. eapply effect_put; try done; by left.
  - unfold close, mbind, st_bind, modify in Hr.
    destruct ((match endpoint s id with Some ep => for_each (fun f => on_shm (fd_close f)) (inbox_fds ep)
      | None => mret tt end) s) as [[] s1|] eqn:Hc; [|done].
    injection Hr as <- <-. assert (endpoints s1 = endpoints s) as He1.
    { destruct (endpoint s id); [by apply for_each_on_shm in Hc as [? _]|by injection Hc as <-]. }
    set (s2 := mk_state _ _ _).
    assert (forall i, 0 <= i -> i <> id -> endpoint s2 i = endpoint s i) as Hes.
    { intros i Hi Hne'. unfold endpoint, s2. simpl. rewrite He1. case_decide; [|done].
      by rewrite list_lookup_insert_ne by lia. }
    split; [|unfold exists_at; by rewrite Hes by done|simpl; unfold inbox_of; by rewrite app_nil_r, Hes by done|
      simpl; unfold fds_of; by rewrite app_nil_r, Hes by done].
    intros c Hc'. simpl. rewrite !peer_of_eq. case_decide as E; [subst c|by rewrite Hes by congruence].
    unfold endpoint, s2. simpl. rewrite He1. case_decide as Hlt.
    + by rewrite list_lookup_insert_eq.
    + rewrite lookup_ge_None_2; [done|lia].
Qed.

(** Descriptors in flight: as many more as are sent, fewer by those received. *)
Definition sent_fds (o : op) : list Z := match o with Send _ _ fds => fds | _ => [] end.
Lemma put_room (s : state) id e o' :
  endpoint s id = Some e ->
  (length (in_flight (put id o' s)) + length (inbox_fds e) = length (in_flight s) + length (flight o'))%nat.
Proof.
  intros He%endpoint_Some. pose proof (in_flight_put s id _ o' He) as Hp. apply Permutation_length in Hp.
  rewrite !length_app in Hp. simpl in Hp. lia.
Qed.
Lemma exec_room o (s : state) out s' :
  calm o -> exec o s = Ret out s' ->
  (length (in_flight s') + length out.2 <= length (in_flight s) + length (sent_fds o))%nat.
Proof.
  intros [H0 Hk] Hr. unfold exec, mbind, st_bind in Hr. 
  destruct o as [|id path|id|id path|id|id bytes fds|id n|id]; simpl in H0, Hk; cbn [sent_fds length].
  - destruct (alloc_endpoint_spec s new_endpoint) as (k & s1 & E & _ & _ & _ & _ & _ & Hf).
    unfold create in Hr. rewrite E in Hr. injection Hr as <- <-. apply Permutation_length in Hf. simpl in *. lia.
  - unfold bind in Hr. case_decide; [injection Hr as <- <-; simpl; lia|].
    destruct (endpoint s id) as [e|] eqn:He; [|injection Hr as <- <-; simpl; lia].
    destruct (role e); try (injection Hr as <- <-; simpl; lia). injection Hr as <- <-. cbn [snd length].
    pose proof (put_room s id e (Some (set_role (Bound path) e)) He) as Hp. simpl in Hp. lia.
  - unfold listen in Hr. destruct (endpoint s id) as [e|] eqn:He; [|injection Hr as <- <-; simpl; lia].
    destruct (role e); try (injection Hr as <- <-; simpl; lia). injection Hr as <- <-. cbn [snd length].
    pose proof (put_room s id e (Some (set_role Listening e)) He) as Hp. unfold in_flight in *. simpl in *. lia.
  - done.
  - unfold accept in Hr. destruct (endpoint s id) as [e|] eqn:He; [|injection Hr as <- <-; simpl; lia].
    destruct (backlog e) as [|x l]; [injection Hr as <- <-; simpl; lia|]. injection Hr as <- <-. cbn [snd length].
    pose proof (put_room s id e (Some (set_backlog l e)) He) as Hp. simpl in Hp. lia.
  - unfold send, get_st, mbind, st_bind in Hr. destruct (peer_of s id) as [p|]; [|injection Hr as <- <-; simpl; lia].
    destruct (for_each (fun f => on_shm (fd_dup f)) fds s) as [[] s1|] eqn:Hd; [|done].
    apply for_each_on_shm in Hd as [He1 _]. rewrite <- (in_flight_same _ _ He1).
    destruct (endpoint s1 p) as [e|] eqn:He.
    + injection Hr as <- <-. cbn [snd length].
      pose proof (put_room s1 p e (Some (mk_endpoint (role e) (inbox e ++ bytes) (inbox_fds e ++ fds) (backlog e))) He) as Hp.
      simpl in Hp. rewrite length_app in Hp. lia.
    + destruct (for_each (fun f => on_shm (fd_close f)) fds s1) as [[] s2|] eqn:Hc; [|done].
      injection Hr as <- <-. apply for_each_on_shm in Hc as [He2 _]. rewrite (in_flight_same _ _ He2). simpl. lia.
  - unfold recv in Hr. destruct (endpoint s id) as [e|] eqn:He; [|injection Hr as <- <-; simpl; lia].
    injection Hr as <- <-. cbn [snd].
    pose proof (put_room s id e (Some (mk_endpoint (role e) (drop (Nat.min (length (inbox e)) n) (inbox e)) [] (backlog e))) He) as Hp.
    simpl in Hp. lia.
  - unfold close, mbind, st_bind, modify in Hr.
    destruct ((match endpoint s id with Some ep => for_each (fun f => on_shm (fd_close f)) (inbox_fds ep)
      | None => mret tt end) s) as [[] s1|] eqn:Hc; [|done].
    injection Hr as <- <-. assert (endpoints s1 = endpoints s) as He1.
    { destruct (endpoint s id); [by apply for_each_on_shm in Hc as [? _]|by injection Hc as <-]. }
    unfold in_flight. simpl. rewrite He1. case_decide as Hlt; [|lia].
    destruct (endpoints s !! Z.to_nat id) as [o|] eqn:Eo; [|apply lookup_ge_None_1 in Eo; lia].
    pose proof (flight_insert (endpoints s) (Z.to_nat id) o None Eo) as Hp. apply Permutation_length in Hp.
    rewrite !length_app in Hp. simpl in Hp. lia.
Qed.
End quiet.

(** ** The shared objects under the socket operations *)
Definition stable (v v' : shm) : Prop :=
  ram (vm v') = ram (vm v) /\ forall id, phys_of v' id = phys_of v id \/ phys_of v' id = None.
Global Instance stable_preorder : PreOrder stable.
Proof.
  split; [by split; auto|]. intros v1 v2 v3 [E1 H1] [E2 H2]. split; [congruence|]. intros id.
  destruct (H2 id) as [->|]; auto.
Qed.
Lemma lookup_set_slot id o v id' :
  phys_of (Shm.mk_state (vm v) (<[Z.to_nat id := o]> (TABLE v))) id' =
    if decide (Z.to_nat id = Z.to_nat id' /\ (Z.to_nat id < length (TABLE v))%nat) then phys <$> o else phys_of v id'.
Proof.
  unfold phys_of, Shm.get. simpl. case_decide as E.
  - destruct E as [<- Hl]. by rewrite list_lookup_insert_eq.
  - destruct (decide (Z.to_nat id = Z.to_nat id')) as [Ei|]; [|by rewrite list_lookup_insert_ne].
    rewrite list_insert_ge; [done|]. apply Nat.nlt_ge. intros Hl. by apply E.
Qed.
Lemma set_slot_stable id o v :
  (forall x, o = Some x -> phys_of v id = Some (phys x)) -> stable v (Shm.mk_state (vm v) (<[Z.to_nat id := o]> (TABLE v))).
Proof.
  intros Ho. split; [done|]. intros id'. rewrite lookup_set_slot. case_decide as E; [|by left].
  destruct o as [x|]; [|by right]. left. simpl. rewrite <- (Ho x eq_refl). unfold phys_of, Shm.get. by destruct E as [-> _].
Qed.
Lemma dup_stable id v v' : Shm.dup id v = Ret tt v' -> stable v v'.
Proof.
  unfold Shm.dup, set_slot, modify, get_st, mbind, st_bind. destruct (Shm.get v id) as [obj|] eqn:E; intros [= <-]; [|done].
  apply set_slot_stable. intros x [= <-]. unfold phys_of. by rewrite E.
Qed.
Lemma shm_close_stable id v v' : Shm.close id v = Ret tt v' -> stable v v'.
Proof.
  unfold Shm.close, set_slot, lift_pmm, modify, get_st, mbind, st_bind. destruct (Shm.get v id) as [obj|] eqn:E; [|by intros [= <-]].
  set (v1 := Shm.mk_state (vm v) _). assert (stable v v1) as Hst.
  { apply set_slot_stable. intros x [= <-]. unfold phys_of. by rewrite E. }
  case_match; [|by intros [= <-]].
  destruct (free_pages _ _ (frames (vm v1))) as [[] fs|]; [|done]. intros [= <-]. etrans; [exact Hst|].
  split; [done|]. intros id'. 
  pose proof (lookup_set_slot id None (Shm.mk_state (mk_machine (ram (vm v1)) fs) (TABLE v1)) id') as Hl. simpl in Hl.
  simpl. rewrite Hl. case_decide; [by right|by left].
Qed.
Lemma for_each_stable (f : Z -> ST shm unit) fds : 
  (forall id v v', f id v = Ret tt v' -> stable v v') -> forall (s s' : Socket.state shm),
  for_each (fun x => on_shm (f x)) fds s = Ret tt s' -> stable (shared s) (shared s').
Proof.
  intros Hf. induction fds as [|x fds IH]; intros s s'; simpl; [by intros [= ->]|].
  unfold mbind, st_bind, on_shm. destruct (f x (shared s)) as [[] v|] eqn:E; [|done]. intros Hs%IH.
  etrans; [by eapply Hf|exact Hs].
Qed.
Lemma exec_stable s0 o (s : Socket.state shm) out s' :
  exec (H := shm_refs s0) o s = Ret out s' -> stable (shared s) (shared s').
Proof.
  intros Hr. unfold exec, mbind, st_bind, mret, st_ret in Hr.
  destruct o as [|id path|id|id path|id|id bytes fds|id n|id].
  - unfold create, alloc_endpoint in Hr. injection Hr as <- <-; exact (reflexivity (R := stable) _).
  - unfold bind in Hr. repeat case_match; simplify_eq; exact (reflexivity (R := stable) _).
  - unfold listen in Hr. repeat case_match; simplify_eq; exact (reflexivity (R := stable) _).
  - unfold connect, alloc_endpoint, get_st, put_st, mbind, st_bind, mret, st_ret in Hr. repeat case_match; simplify_eq; exact (reflexivity (R := stable) _).
  - unfold accept in Hr. repeat case_match; simplify_eq; exact (reflexivity (R := stable) _).
  - unfold send, get_st, mbind, st_bind in Hr. destruct (peer_of s id) as [p|]; [|injection Hr as <- <-; exact (reflexivity (R := stable) _)].
    destruct (for_each (fun f => on_shm (fd_dup f)) fds s) as [[] s1|] eqn:Hd; [|done].
    apply for_each_stable in Hd; [|apply dup_stable]. etrans; [exact Hd|].
    destruct (endpoint s1 p) as [e|] eqn:He; [injection Hr as <- <-; exact (reflexivity (R := stable) _)|].
    destruct (for_each (fun f => on_shm (fd_close f)) fds s1) as [[] s2|] eqn:Hc; [|done].
    injection Hr as <- <-. eapply for_each_stable; [apply shm_close_stable|exact Hc].
  - unfold recv in Hr. repeat case_match; simplify_eq; exact (reflexivity (R := stable) _).
  - unfold close, mbind, st_bind, modify in Hr.
    destruct ((match endpoint s id with Some ep => for_each (fun f => on_shm (fd_close f)) (inbox_fds ep)
      | None => mret tt end) s) as [[] s1|] eqn:Hc; [|done].
    injection Hr as <- <-. simpl. destruct (endpoint s id); [|by injection Hc as <-].
    eapply for_each_stable; [apply shm_close_stable|exact Hc].
Qed.
