(* ===== verification/Wayland.v ===== *)
(** * The compositor's client sessions, [wayland.rs]

    A kernel task that accepts one client at a time, walks it through a fixed
    handshake and blits its shared pixels to the screen.  It runs against the
    real definitions of [Socket.v], [Shm.v], [Gfx.v] and [Fb.v].  What other
    tasks do to the sockets while this one is switched out is a list of socket
    operations: one is run before every receive and at every [halt].  A wait
    that the operations left can no longer end has no result. *)
From stdpp Require Import list_numbers.
From S2P Require Import Prelude Bytes Text PhysMem Pmm Paging Shm Socket Gfx Draw PixelBuffer Scale Fb FbFacts.

Definition SOCKET_PATH : string := "machaos-wayland-0".
Definition SURFACE_X : Z := 40.
Definition SURFACE_Y : Z := 40.

Section wayland.
(** The frame bitmap before any shared object, see [Shm.v]. *)
Context (s0 : pmm).
Abbreviation sockets := (Socket.state shm).
#[local] Hint Extern 0 (FdRefs shm) => exact (shm_refs s0) : typeclass_instances.

Record world := mk_world {
  net : sockets; display : fb; FRAMES_RENDERED : Z; others : list op }.
Definition set_net (n : sockets) (w : world) : world := mk_world n (display w) (FRAMES_RENDERED w) (others w).
Definition set_display (d : fb) (w : world) : world := mk_world (net w) d (FRAMES_RENDERED w) (others w).
Definition on_net {A} (m : ST sockets A) : ST world A := fun w =>
  match m (net w) with Ret a n => Ret a (set_net n w) | Panic => Panic end.
Definition on_shared {A} (m : ST shm A) : ST world A := fun w =>
  match m (shared (net w)) with
  | Ret a r => Ret a (set_net (Socket.mk_state (endpoints (net w)) (listeners (net w)) r) w)
  | Panic => Panic
  end.
Definition on_display {A} (m : ST fb A) : ST world A := fun w =>
  match m (display w) with Ret a d => Ret a (set_display d w) | Panic => Panic end.
(** Other tasks get the processor. *)
Definition switch : ST world unit := fun w =>
  match others w with
  | [] => Ret tt w
  | o :: os => (on_net (exec o);; mret tt) (mk_world (net w) (display w) (FRAMES_RENDERED w) os)
  end.
Definition halt : ST world unit := switch.

(** ** Reading a connection *)
Record ConnReader := mk_reader { conn : Z; buf : list Z; pos : nat; fds : list Z }.
Definition new_reader (conn : Z) : ConnReader := mk_reader conn [] 0 [].
Record session := mk_session { sys : world; r : ConnReader }.
Definition on_sys {A} (m : ST world A) : ST session A := fun s =>
  match m (sys s) with Ret a w => Ret a (mk_session w (r s)) | Panic => Panic end.
Definition on_reader (f : ConnReader -> ConnReader) : ST session unit :=
  modify (fun s => mk_session (sys s) (f (r s))).

Fixpoint fill_loop (fuel : nat) (want : nat) : ST session unit :=
  s ← get_st;
  if decide (want <= length (buf (r s)) - pos (r s))%nat then mret tt else
  match fuel with
  | O => panic
  | S fuel =>
      on_sys switch;;
      '(bytes, new_fds) ← on_sys (on_net (recv (conn (r s)) 512));
      if decide (bytes = []) then on_sys halt;; fill_loop fuel want
      else on_reader (fun r => mk_reader (conn r) (buf r ++ bytes) (pos r) (fds r ++ new_fds));; fill_loop fuel want
  end.
(** Every round takes an operation of the others or a byte that is wanted;
    after so many the wait cannot end any more. *)
Definition fill_to (want : nat) : ST session unit :=
  s ← get_st;
  fill_loop (S (length (others (sys s)) + want)) want.
Definition read_exact (want : nat) : ST session (list Z) :=
  fill_to want;;
  s ← get_st;
  let r := r s in
  match get_range (buf r) (Z.of_nat (pos r)) (Z.of_nat (pos r + want)) with
  | Some out => on_reader (fun r => mk_reader (conn r) (buf r) (pos r + want) (fds r));; mret out
  | None => panic
  end.
Definition read_u32 : ST session Z :=
  bytes ← read_exact 4;
  mret (le_combine bytes).
Definition read_header : ST session Z :=
  _ ← read_u32;
  opcode_and_size ← read_u32;
  mret (Z.shiftr opcode_and_size 16).
Definition take_fd : ST session (option Z) :=
  s ← get_st;
  match fds (r s) with
  | [] => mret None
  | fd :: rest => on_reader (fun r => mk_reader (conn r) (buf r) (pos r) rest);; mret (Some fd)
  end.

(** ** Events *)
Definition push_u32 (b : list Z) (v : Z) : list Z := b ++ le_split 4 v.
Definition push_header (b : list Z) (object_id opcode size : Z) : list Z :=
  push_u32 (push_u32 b object_id) (Z.lor opcode (u32 (Z.shiftl size 16))).
Definition push_str (b s : list Z) : list Z := push_u32 b (u32 (Z.of_nat (length s))) ++ s.
Definition send_global (conn registry_id name : Z) (interface : string) (version : Z) : ST world unit :=
  let body := push_u32 (push_str (push_u32 [] name) (bytes_of interface)) version in
  let msg := push_header [] registry_id 0 (wrap 16 (8 + Z.of_nat (length body))) ++ body in
  on_net (send conn msg []);; mret tt.

(** ** Rendering *)
(** The [width] pixels of the row at [a]. *)
Definition read_row (m : mem) (a width : Z) : list Z := (fun i => load 4 m (u64 (a + 4 * i))) <$> range 0 width.
Fixpoint copy_rows (m : mem) (phys offset stride width : Z) (rows : list Z) (pixels : list Z) : option (list Z) :=
  match rows with
  | [] => Some pixels
  | row :: rows =>
      _ ← get_range pixels (row * width) ((row + 1) * width);
      pixels ← splice pixels (Z.to_nat (row * width)) (read_row m (phys + offset + row * stride) width);
      copy_rows m phys offset stride width rows pixels
  end.
Definition render (shm_id pool_size offset width height stride : Z) : ST world unit :=
  w ← get_st;
  match phys_of (shared (net w)) shm_id with
  | None => mret tt
  | Some phys =>
      let need := offset + stride * height in
      if pool_size <? need then mret tt else
      pixels ← unwrap (copy_rows (ram (vm (shared (net w)))) phys offset stride width (range 0 height)
                        (replicate (Z.to_nat (u32 (width * height))) 0));
      on_display (with_surface (blit SURFACE_X SURFACE_Y pixels width height));;
      on_display present;;
      modify (fun w => mk_world (net w) (display w) (wrap 64 (FRAMES_RENDERED w + 1)) (others w))
  end.

(** ** One connection *)
(** [if r.read_header() != size { return; }] *)
Definition expect (size : Z) (k : ST session unit) : ST session unit :=
  h ← read_header;
  if h =? size then k else mret tt.
Definition session_script (conn : Z) : ST session unit :=
  expect 12 (
  registry_id ← read_u32;
  on_sys (send_global conn registry_id 1 "wl_shm" 1);;
  on_sys (send_global conn registry_id 2 "wl_compositor" 4);;
  expect 16 (
  _ ← read_u32; _ ← read_u32;
  expect 16 (
  _ ← read_u32; pool_size ← read_u32;
  fd ← take_fd;
  match fd with
  | None => mret tt
  | Some pool_shm_id =>
      expect 32 (
      _ ← read_u32; offset ← read_u32; width ← read_u32; height ← read_u32; stride ← read_u32; _ ← read_u32;
      expect 16 (
      _ ← read_u32; _ ← read_u32;
      expect 12 (
      _ ← read_u32;
      expect 20 (
      _ ← read_u32; _ ← read_u32; _ ← read_u32;
      expect 8 (
      on_sys (render pool_shm_id pool_size offset width height stride);;
      on_sys (on_shared (Shm.close pool_shm_id)))))))
  end))).
(** The reader, its bytes and the descriptors left in it are dropped at the
    end: a descriptor is a number, and dropping it closes nothing. *)
Definition client_session (conn : Z) : ST world unit := fun w =>
  match session_script conn (mk_session w (new_reader conn)) with
  | Ret _ s => Ret tt (sys s)
  | Panic => Panic
  end.

(** ** Waiting for a frame, from another task
    What the waiter reads in each round: the counter and the ticks. *)
Fixpoint wait_rounds (after deadline : Z) (rounds : list (Z * Z)) : option bool :=
  match rounds with
  | [] => None
  | (frames, ticks) :: rounds =>
      if after <? frames then Some true
      else if deadline <=? ticks then Some false
      else wait_rounds after deadline rounds
  end.
Definition wait_for_frame (now after timeout_ticks : Z) (rounds : list (Z * Z)) : option bool :=
  wait_rounds after (u64 (now + timeout_ticks)) rounds.

(** ** The task *)
Fixpoint accept_loop (fuel : nat) (listener : Z) : ST world Z :=
  c ← on_net (accept listener);
  match c with
  | Some conn => mret conn
  | None => match fuel with O => panic | S fuel => halt;; accept_loop fuel listener end
  end.
Definition accept_blocking (listener : Z) : ST world Z :=
  w ← get_st; accept_loop (length (others w)) listener.
Definition serve (listener : Z) : ST world unit :=
  conn ← accept_blocking listener;
  client_session conn;;
  on_net (Socket.close conn).
(** The task's loop, for [clients] rounds. *)
Fixpoint serve_loop (listener : Z) (clients : nat) : ST world unit :=
  match clients with O => mret tt | S n => serve listener;; serve_loop listener n end.
Definition compositor_main (clients : nat) : ST world unit :=
  listener ← on_net create;
  on_net (bind listener SOCKET_PATH);;
  on_net (listen listener);;
  serve_loop listener clients.
End wayland.
