(* ===== verification/WaylandFacts.v ===== *)
(** * The compositor's sessions, correct

    A session against a client that sends a well-formed handshake in any
    chunks, interleaved with anything the other tasks do to other sockets. *)
From stdpp Require Import list_numbers.
From S2P Require Import Prelude Bytes Text PhysMem Pmm Paging Shm Socket Quiet Gfx Draw PixelBuffer Scale Fb FbFacts Wayland.

(** The descriptors that have been sent when [n] bytes of the segments have. *)
Fixpoint fds_by (n : nat) (segments : list (list Z * list Z)) : list Z :=
  match n, segments with
  | O, _ | _, [] => []
  | _, (b, f) :: rest => f ++ fds_by (n - length b) rest
  end.
Abbreviation seg_bytes l := (concat (map (@fst (list Z) (list Z)) l)).
Abbreviation seg_fds l := (concat (map (@snd (list Z) (list Z)) l)).
Lemma fds_by_prefix n got rest :
  (n <= length (seg_bytes got))%nat -> fds_by n (got ++ rest) `prefix_of` seg_fds got.
Proof.
  revert n. induction got as [|[b f] got IH]; intros n Hn; simpl in *.
  { assert (n = 0%nat) as -> by lia. by destruct rest. }
  destruct n as [|n]; [apply prefix_nil|]. rewrite length_app in Hn. apply prefix_app, IH. lia.
Qed.

Lemma get_range_nat (l : list Z) (a n : nat) :
  (a + n <= length l)%nat -> get_range l (Z.of_nat a) (Z.of_nat (a + n)) = Some (take n (drop a l)).
Proof.
  intros Hl. unfold get_range. rewrite (proj2 (Z.leb_le 0 _)), !(proj2 (Z.leb_le _ _)) by lia. cbn [andb].
  do 2 f_equal; [lia|]. f_equal. lia.
Qed.

(** ** Rendering *)
Definition client_pixel (m : mem) (p offset stride x y : Z) : Z := load 4 m (u64 (p + offset + y * stride + 4 * x)).
Lemma copy_rows_spec m p offset stride w h n : 0 <= n -> 0 <= w -> forall k pixels,
  0 <= k -> k + n <= h -> Z.of_nat (length pixels) = w * h ->
  exists out, copy_rows m p offset stride w (range k (k + n)) pixels = Some out /\ Z.of_nat (length out) = w * h /\
    forall x y, 0 <= x < w -> 0 <= y < h -> out !!! Z.to_nat (y * w + x) =
      if (k <=? y) && (y <? k + n) then client_pixel m p offset stride x y else pixels !!! Z.to_nat (y * w + x).
Proof.
  intros Hn Hw. rewrite <- (Z2Nat.id n Hn). clear Hn.
  induction (Z.to_nat n) as [|j IH]; intros k pixels Hk Hkn Hl.
  - rewrite range_empty by lia. exists pixels. split_and!; [done..|]. intros x y _ _.
    destruct (Z.leb_spec k y), (Z.ltb_spec y (k + Z.of_nat 0)); cbn [andb]; done || lia.
  - rewrite range_cons by lia. cbn [copy_rows]. replace (Z.succ k + (Z.of_nat (S j) - 1)) with (Z.succ k + Z.of_nat j) by lia.
    assert (0 <= k * w /\ k * w + w <= w * h) as [? ?] by nia. replace ((k + 1) * w) with (k * w + w) by lia.
    unfold get_range at 1. rewrite (proj2 (Z.leb_le 0 _)), !(proj2 (Z.leb_le _ _)) by lia. cbn [andb mbind option_bind].
    set (row := read_row m (p + offset + k * stride) w).
    assert (Z.of_nat (length row) = w) as Hlr by (unfold row, read_row, range; rewrite length_fmap, length_seqZ; lia).
    destruct (splice_row pixels row w h 0 k) as (p1 & E1 & Hl1 & Hp1); [lia..|]. rewrite Z.add_0_r in E1. rewrite E1. cbn [mbind option_bind].
    destruct (IH (Z.succ k) p1) as (out & E & Hlo & Ho); [lia..|]. exists out. split; [done|]. split; [done|].
    intros x y Hx Hy. rewrite Ho, Hp1 by done. unfold in_span. destruct (Z.eqb_spec y k) as [->|].
    + rewrite (proj2 (Z.leb_gt (Z.succ k) k)), (proj2 (Z.leb_le k k)), (proj2 (Z.ltb_lt k (k + Z.of_nat (S j)))) by lia.
      rewrite (proj2 (Z.leb_le 0 x)), (proj2 (Z.ltb_lt x (0 + Z.of_nat (length row)))) by lia. cbn [andb].
      apply list_lookup_total_correct. unfold row, read_row, range. rewrite list_lookup_fmap, lookup_seqZ_lt by lia.
      unfold client_pixel. cbn [fmap option_fmap option_map]. do 3 f_equal. lia.
    + cbn [andb]. destruct (Z.leb_spec (Z.succ k) y), (Z.leb_spec k y), (Z.ltb_spec y (Z.succ k + Z.of_nat j)),
        (Z.ltb_spec y (k + Z.of_nat (S j))); cbn [andb]; done || lia.
Qed.
(** The screen after the frame has been shown on top of what was there. *)
Definition frame_shown (m : mem) (p offset width height stride : Z) (sc : State) (d' : fb) : Prop :=
  exists b sc', state d' = Some sc' /\ vback_buffer sc' = b /\ screen_shows (video d') sc' (composed (set_buf b sc)) /\
    forall i j, 0 <= i < vwidth sc -> 0 <= j < vheight sc -> b !!! Z.to_nat (j * vwidth sc + i) =
      if in_box SURFACE_X SURFACE_Y width height i j then client_pixel m p offset stride (i - SURFACE_X) (j - SURFACE_Y)
      else vback_buffer sc !!! Z.to_nat (j * vwidth sc + i).
Definition small_frame (width height : Z) : Prop :=
  0 <= width /\ 0 <= height /\ SURFACE_X + width < 2 ^ 32 /\ SURFACE_Y + height < 2 ^ 32 /\ width * height < 2 ^ 32.
Lemma render_spec id pool_size offset width height stride w p sc :
  phys_of (shared (net w)) id = Some p -> offset + stride * height <= pool_size -> small_frame width height ->
  state (display w) = Some sc -> display_ok sc -> native sc = true \/ (2 <= pwidth sc /\ 2 <= pheight sc) ->
  exists d', render id pool_size offset width height stride w =
      Ret tt (mk_world (net w) d' (wrap 64 (FRAMES_RENDERED w + 1)) (others w)) /\
    frame_shown (ram (vm (shared (net w)))) p offset width height stride sc d'.
Proof.
  intros Hp Hneed (Hw & Hh & Hxw & Hyh & Hwh) Es Hd Hn. unfold render, SURFACE_X, SURFACE_Y in *.
  unfold mbind at 1, st_bind, get_st. rewrite Hp. rewrite (proj2 (Z.ltb_ge pool_size _)) by lia.
  assert (0 <= width * height) by nia. rewrite wrap_small by (unfold in_u; lia).
  destruct (copy_rows_spec (ram (vm (shared (net w)))) p offset stride width height height Hh Hw 0
    (replicate (Z.to_nat (width * height)) 0)) as (px & Epx & Hlp & Hpx); [lia|lia|rewrite length_replicate; lia|].
  change (range 0 (0 + height)) with (range 0 height) in Epx. rewrite Epx. unfold mbind at 1, st_bind, unwrap.
  destruct (drawing_picture sc (blit 40 40 px width height)
    (fun i j p => if in_box 40 40 width height i j then px !!! Z.to_nat ((j - 40) * width + (i - 40)) else p) Hd) as (b & Eb & Hlb & Hb).
  { intros sc0 W0 H0. refine (draws_blit (spec := buffer_spec sc0) W0 H0 40 40 px width height _ _ Hw Hh Hxw Hyh Hwh _); unfold in_u; lia. }
  assert (display_ok (set_buf b sc)) as Hd1. { unfold display_ok in *. cbn. intuition lia. }
  unfold mbind at 1, st_bind, on_display, with_surface. rewrite Es, Eb.
  destruct (present_shows (set_buf b sc) (set_state (Some (set_buf b sc)) (display w))) as (d' & sc' & Epr & Es' & _ & Hvb & Hshow & _ & _);
    [done|done|done|].
  unfold mbind at 1, st_bind. cbn [set_display display net FRAMES_RENDERED others]. rewrite Epr. eexists. split; [done|].
  exists b, sc'. split; [done|]. split; [exact Hvb|]. split; [exact Hshow|].
  unfold SURFACE_X, SURFACE_Y. intros i j Hi Hj. rewrite Hb by done. destruct (in_box 40 40 width height i j) eqn:Ebx; [|done].
  unfold in_box, in_range in Ebx. cbn [fst snd] in Ebx. to_prop. rewrite Hpx by lia.
  by rewrite (proj2 (Z.leb_le 0 _)), (proj2 (Z.ltb_lt _ (0 + height))) by lia.
Qed.

(** The sizes in the headers of the eight messages, by the position of the word. *)
Definition header_sizes : list (nat * Z) :=
  [(1%nat, 12); (4%nat, 16); (8%nat, 16); (12%nat, 32); (20%nat, 16); (24%nat, 12); (27%nat, 20); (32%nat, 8)].
Definition header_ok (ws : list Z) (k : nat) (size : Z) : Prop := Z.shiftr (ws !!! k) 16 = size.

Section session.
Context (s0 : pmm) (client cn : Z) (held : list Z).
Hypothesis (Hcl : 0 <= client) (Hcn : 0 <= cn) (Hne : cn <> client).
#[local] Hint Extern 0 (FdRefs shm) => exact (shm_refs s0) : typeclass_instances.

(** What the others will still put into the inbox of [cn]. *)
Fixpoint segs (os : list op) : list (list Z * list Z) :=
  match os with
  | [] => []
  | Send id b f :: os => if decide (id = client) then (b, f) :: segs os else segs os
  | Close id :: os => if decide (id = client) then [] else segs os
  | _ :: os => segs os
  end.
Definition coming (w : world) : list (list Z * list Z) :=
  if decide (peer_of (net w) client = Some cn) then segs (others w) else [].
Definition total_sent (os : list op) : nat := length (concat (map sent_fds os)).
(** Other tasks leave the connection alone and pass descriptors they hold. *)
Definition op_fine (o : op) : Prop := calm cn o /\ forall f, f ∈ sent_fds o -> f ∈ held.
Record conn_ok (w : world) : Prop := {
  ok_ids : forall c p, 0 <= c -> peer_of (net w) c = Some p -> 0 <= p;
  ok_only : forall c, 0 <= c -> c <> client -> peer_of (net w) c <> Some cn;
  ok_exists : exists_at (net w) cn;
  ok_listen : listeners_ok (net w);
  ok_others : Forall op_fine (others w)
}.
Definition accounted (w : world) (rs : list Z) : Prop :=
  refs_inv (shared (net w)) (rs ++ in_flight (net w)) /\ held ⊆ rs /\
  Z.of_nat (length rs + length (in_flight (net w)) + total_sent (others w)) < 2 ^ 64.
(** The rest of the world does not change while a session is read. *)
Definition same_screen (w w' : world) : Prop :=
  display w' = display w /\ FRAMES_RENDERED w' = FRAMES_RENDERED w /\ stable (shared (net w)) (shared (net w')).
Global Instance same_screen_preorder : PreOrder same_screen.
Proof.
  split; [intros w; split; [done|split; [done|reflexivity]]|].
  intros w1 w2 w3 (A1 & B1 & C1) (A2 & B2 & C2). split; [congruence|split; [congruence|by etrans]].
Qed.

(** One operation on the sockets, whoever makes it. *)
Lemma net_step o w rs :
  conn_ok w -> accounted w rs -> 0 <= op_id o -> (forall f, f ∈ sent_fds o -> f ∈ rs) ->
  Z.of_nat (length rs + length (in_flight (net w)) + length (sent_fds o)) < 2 ^ 64 ->
  exists out n', exec o (net w) = Ret out n' /\ refs_inv (shared n') (out.2 ++ rs ++ in_flight n') /\
    listeners_ok n' /\ stable (shared (net w)) (shared n').
Proof.
  intros Hw (Hr & _ & _) Ho Hs Hl.
  destruct (exec_refs rs (net w) o (ok_listen _ Hw) Hr) as (out & n' & E & Hl' & Hr').
  { split; [done|]. by destruct o. }
  exists out, n'. split_and!; try done. by eapply exec_stable.
Qed.
Lemma calm_step o w rs os :
  conn_ok w -> accounted w rs -> calm cn o -> (forall f, f ∈ sent_fds o -> f ∈ rs) -> Forall op_fine os ->
  (length (sent_fds o) + total_sent os <= total_sent (others w))%nat ->
  exists out n', exec o (net w) = Ret out n' /\
    let w' := mk_world n' (display w) (FRAMES_RENDERED w) os in
    conn_ok w' /\ accounted w' (out.2 ++ rs) /\ same_screen w w' /\ effect cn o (net w) n'.
Proof.
  intros Hw Ha Hc Hs Hos Ht. pose proof Ha as (_ & Hsub & Hroom).
  destruct (net_step o w rs) as (out & n' & E & Hr & Hl & Hst); [done|done|apply Hc|done|lia|].
  assert (effect cn o (net w) n') as Hf by (eapply exec_calm; try done; apply Hw).
  exists out, n'. split; [done|]. split; [|split; [|done]].
  - destruct Hw as [Hi Ho He _ _]. split; simpl; [..|done|done].
    + intros c p H0. rewrite (eff_peer _ _ _ _ Hf) by done. case_decide; [done|by apply Hi].
    + intros c H0 Hcc. rewrite (eff_peer _ _ _ _ Hf) by done. case_decide; [done|by apply Ho].
    + apply Hf.
  - pose proof (exec_room cn o (net w) out n' Hc E) as Hrm. split_and!; simpl; [by rewrite <- app_assoc|set_solver|].
    rewrite length_app. lia.
Qed.

(** The operation's mail is the next segment. *)
Lemma seg_step o os w w' :
  conn_ok w -> others w = o :: os -> others w' = os -> calm cn o -> effect cn o (net w) (net w') ->
  exists seg, coming w = seg ++ coming w' /\ (mail cn (net w) o).1 = seg_bytes seg /\ (mail cn (net w) o).2 = seg_fds seg.
Proof.
  intros Hw Eo Eo' Hc Hef. unfold coming. rewrite (eff_peer _ _ _ _ Hef) by done. rewrite Eo, Eo'.
  destruct o as [|id path|id|id path|id|id bytes fds|id n|id]; try (by exists []).
  - cbn [mail segs]. rewrite (decide_False (P := gone _ _)) by (by apply not_gone). destruct (decide (id = client)) as [->|Hid].
    + case_decide; [|by exists []]. exists [(bytes, fds)]. simpl. by rewrite !app_nil_r.
    + rewrite (decide_False (P := peer_of (net w) id = Some cn)) by (apply (ok_only _ Hw); [apply Hc|done]). by exists [].
  - cbn [mail gone segs]. exists []. split; [|done]. repeat case_decide; done.
Qed.
Lemma switch_spec w rs :
  conn_ok w -> accounted w rs ->
  exists got seg w', switch s0 w = Ret tt w' /\ conn_ok w' /\ accounted w' (got ++ rs) /\ same_screen w w' /\
    others w' = tail (others w) /\ coming w = seg ++ coming w' /\
    inbox_of (net w') cn = inbox_of (net w) cn ++ seg_bytes seg /\
    fds_of (net w') cn = fds_of (net w) cn ++ seg_fds seg.
Proof.
  intros Hw Ha. unfold switch. destruct (others w) as [|o os] eqn:Eo.
  { exists [], [], w. rewrite Eo. cbn [concat map]. rewrite !app_nil_r. by split_and!. }
  pose proof (ok_others _ Hw) as Hos. rewrite Eo in Hos. apply Forall_cons in Hos as [[Hc Hf] Hos].
  destruct (calm_step o w rs os Hw Ha Hc) as (out & n' & E & Hw' & Ha' & Hs' & Hef).
  { intros f Hin. apply Ha. by apply Hf. } { done. } { rewrite Eo. unfold total_sent. simpl. rewrite length_app. lia. }
  set (w' := mk_world n' (display w) (FRAMES_RENDERED w) os) in *.
  destruct (seg_step o os w w') as (seg & E1 & E2 & E3); [done..|].
  exists out.2, seg, w'. split_and!; try done.
  - unfold mbind, st_bind, on_net. simpl. by rewrite E.
  - unfold w'. cbn [net]. by rewrite (eff_inbox _ _ _ _ Hef), E2.
  - unfold w'. cbn [net]. by rewrite (eff_fds _ _ _ _ Hef), E3.
Qed.

(** Receiving: some waiting bytes, and every waiting descriptor. *)
Lemma recv_spec w rs :
  conn_ok w -> accounted w rs ->
  let k := Nat.min (length (inbox_of (net w) cn)) 512 in
  exists w', on_net (recv cn 512) w = Ret (take k (inbox_of (net w) cn), fds_of (net w) cn) w' /\
    conn_ok w' /\ accounted w' (fds_of (net w) cn ++ rs) /\ same_screen w w' /\ others w' = others w /\
    coming w' = coming w /\ inbox_of (net w') cn = drop k (inbox_of (net w) cn) /\ fds_of (net w') cn = [].
Proof.
  intros Hw Ha k. pose proof Ha as (_ & Hsub & Hroom).
  destruct (net_step (Recv cn 512) w rs Hw Ha Hcn) as (out & n' & E & Hr & Hl & Hst); [by intros ? ?%elem_of_nil|simpl; lia|].
  simpl in E. unfold recv in E. destruct (ok_exists _ Hw) as [e He]. rewrite He in E. injection E as <- <-.
  set (e' := mk_endpoint _ _ _ _) in *. set (n' := put cn (Some e') (net w)) in *.
  assert (inbox_of (net w) cn = inbox e /\ fds_of (net w) cn = inbox_fds e) as [Ei Ef] by (unfold inbox_of, fds_of; by rewrite He).
  assert (forall c, 0 <= c -> peer_of n' c = peer_of (net w) c) as Hp.
  { intros c Hc. unfold n'. rewrite !peer_of_eq, endpoint_put by (done || by eexists). case_decide; [|done]. subst. by rewrite He. }
  assert (endpoint n' cn = Some e') as He'. { unfold n'. rewrite endpoint_put by (done || by eexists). by rewrite decide_True. }
  assert (conn_ok (set_net n' w)) as Hw'.
  { split; cbn [net set_net others]; [| |by eexists|done|apply Hw].
    - intros c p Hc. rewrite Hp by done. by apply Hw.
    - intros c Hc. rewrite Hp by done. by apply Hw. }
  assert (accounted (set_net n' w) (inbox_fds e ++ rs)) as Ha'.
  { split; [|split]; cbn [net set_net others]; [rewrite <- app_assoc; exact Hr|set_solver|].
    pose proof (put_room (net w) cn e (Some e') He) as Hrm. fold n' in Hrm. rewrite length_app. simpl in Hrm. lia. }
  exists (set_net n' w). rewrite Ef. split; [unfold on_net, recv, k; by rewrite He, Ei|].
  split; [exact Hw'|]. split; [exact Ha'|]. split; [by split_and!|]. split; [done|].
  split; [unfold coming; cbn [net set_net others]; by rewrite Hp|].
  unfold inbox_of, fds_of, k. cbn [net set_net]. by rewrite He', He, Ei.
Qed.

(** ** Reading *)
Variables (E0 : list (list Z * list Z)) (w0 : world).
(** No message carries descriptors alone. *)
Hypothesis HE0 : Forall (fun seg => seg.1 = [] -> seg.2 = []) E0.
(** [consumed] bytes and [taken] descriptors have been given to the script. *)
Record reading (consumed taken : list Z) (s : session) : Prop := {
  rd_conn : conn (r s) = cn;
  rd_ok : conn_ok (sys s);
  rd_acc : exists got, accounted (sys s) (got ++ held ++ taken ++ fds (r s));
  rd_screen : same_screen w0 (sys s);
  rd_pos : (pos (r s) <= length (buf (r s)))%nat;
  rd_segs : exists past, E0 = past ++ coming (sys s) /\
    seg_bytes past = consumed ++ drop (pos (r s)) (buf (r s)) ++ inbox_of (net (sys s)) cn /\
    seg_fds past = taken ++ fds (r s) ++ fds_of (net (sys s)) cn;
  rd_nofd : inbox_of (net (sys s)) cn = [] -> fds_of (net (sys s)) cn = [];
  rd_prompt : forall n, (n <= length consumed + length (drop (pos (r s)) (buf (r s))))%nat -> fds_by n E0 `prefix_of` taken ++ fds (r s)
}.
Lemma seg_nofd l : Forall (fun seg => seg.1 = [] -> seg.2 = []) l -> seg_bytes l = [] -> seg_fds l = [].
Proof.
  induction 1 as [|[b f] l Hs _ IH]; simpl in *; [done|]. intros [-> E]%app_nil. by rewrite Hs, IH.
Qed.

Lemma reading_switch c t s :
  reading c t s -> exists s', on_sys (switch s0) s = Ret tt s' /\ reading c t s' /\ r s' = r s /\
    others (sys s') = tail (others (sys s)).
Proof.
  intros [Hc Hok (got & Ha) Hscr Hp (past & E1 & E2 & E3) Hn Hpr].
  destruct (switch_spec (sys s) _ Hok Ha) as (got' & seg & w' & E & Hok' & Ha' & Hs' & Eo & Ec & Ei & Ef).
  exists (mk_session w' (r s)). split; [unfold on_sys; by rewrite E|]. split; [|by split].
  rewrite Ec, app_assoc in E1. split; cbn [r sys]; try done.
  - exists (got' ++ got). by rewrite <- app_assoc.
  - by etrans.
  - exists (past ++ seg). split; [exact E1|]. rewrite !map_app, !concat_app, E2, E3, Ei, Ef. by rewrite <- !app_assoc.
  - rewrite Ei, Ef. intros [Hi Hb]%app_nil. rewrite (Hn Hi). simpl. apply seg_nofd; [|done].
    rewrite E1 in HE0. apply Forall_app in HE0 as [HE _]. by apply Forall_app in HE as [_ ?].
Qed.
(** What a receive adds to the reader's buffer. *)
Definition extend (b f : list Z) (r : ConnReader) : ConnReader := mk_reader (conn r) (buf r ++ b) (pos r) (fds r ++ f).
Lemma reading_recv c t s :
  reading c t s -> exists b f w', on_sys (on_net (recv (conn (r s)) 512)) s = Ret (b, f) (mk_session w' (r s)) /\
    others w' = others (sys s) /\
    (b = [] -> inbox_of (net (sys s)) cn = [] /\ reading c t (mk_session w' (r s))) /\
    (b <> [] -> reading c t (mk_session w' (extend b f (r s)))).
Proof.
  intros [Hc Hok (got & Ha) Hscr Hp (past & E1 & E2 & E3) Hn Hpr].
  destruct (recv_spec (sys s) _ Hok Ha) as (w' & E & Hok' & Ha' & Hs' & Eo & Ec & Ei & Ef).
  set (k := Nat.min (length (inbox_of (net (sys s)) cn)) 512) in *. set (b := take k _) in *.
  exists b, (fds_of (net (sys s)) cn), w'. split; [unfold on_sys; by rewrite Hc, E|]. split; [done|].
  assert (same_screen w0 w') as Hscr' by (by etrans). split.
  - intros Hb. assert (inbox_of (net (sys s)) cn = []) as Hin.
    { apply length_zero_iff_nil. apply (f_equal length) in Hb. unfold b, k in Hb. rewrite length_take in Hb. simpl in Hb. lia. }
    split; [done|]. rewrite (Hn Hin) in Ha'. rewrite Hin, drop_nil in Ei. rewrite Hin in E2. rewrite (Hn Hin) in E3.
    split; cbn [r sys]; try done; [by exists got|]. exists past. by rewrite Ec, Ei, Ef.
  - intros Hb. unfold extend. split; cbn [r sys conn buf pos fds]; try done.
    + exists got. destruct Ha' as (Hr' & Hsub & Hl'). split_and!; [|set_solver|rewrite !length_app in *; lia].
      eapply refs_perm; [|exact Hr']. solve_Permutation.
    + rewrite length_app. lia.
    + exists past. rewrite Ec, Ei, Ef, drop_app_le, <- !app_assoc, app_nil_r by done. split; [done|]. split; [|done].
      rewrite E2. unfold b. by rewrite (take_drop k).
    + intros n. rewrite drop_app_le, length_app by done. intros Hle. rewrite <- E3, E1. apply fds_by_prefix. rewrite E2.
      unfold b in Hle. rewrite length_take in Hle. rewrite !length_app. lia.
Qed.

(** The bytes that are in the buffer, in the inbox or still to be sent. *)
Definition supply (s : session) : nat :=
  length (drop (pos (r s)) (buf (r s))) + length (inbox_of (net (sys s)) cn) + length (seg_bytes (coming (sys s))).
Lemma supply_eq c t s : reading c t s -> (length c + supply s = length (seg_bytes E0))%nat.
Proof.
  intros Hr. destruct (rd_segs _ _ _ Hr) as (past & -> & E2 & _). unfold supply. rewrite map_app, concat_app, E2, !length_app. lia.
Qed.
Lemma fill_loop_spec want fuel : forall c t s,
  reading c t s -> (want <= supply s)%nat -> (length (others (sys s)) + (want - length (drop (pos (r s)) (buf (r s)))) <= fuel)%nat ->
  wp (fill_loop s0 fuel want) (fun _ s' => reading c t s' /\ (want <= length (drop (pos (r s')) (buf (r s'))))%nat) s.
Proof.
  induction fuel as [|fuel IH]; intros c t s Hr Hw Hf; apply wp_get; cbn [fill_loop].
  all: rewrite <- length_drop; case_decide as Hd; [by apply wp_ret|].
  { exfalso. apply Hd. lia. }
  pose proof (supply_eq c t s Hr) as Hsup.
  destruct (reading_switch c t s Hr) as (s1 & E1 & Hr1 & Er1 & Eo1). apply wp_bind. eapply wp_intro; [exact E1|].
  destruct (reading_recv c t s1 Hr1) as (b & f & w2 & E2 & Eo2 & Hnil & Hcons).
  apply wp_bind. rewrite <- Er1. eapply wp_intro; [exact E2|]. cbv beta iota. case_decide as Hb.
  - destruct (Hnil Hb) as [Hin Hr2]. destruct (reading_switch c t _ Hr2) as (s3 & E3 & Hr3 & Er3 & Eo3).
    apply wp_bind. unfold halt. eapply wp_intro; [exact E3|]. cbn [r sys] in *.
    pose proof (supply_eq c t s3 Hr3) as Hsup3. apply IH; [done|lia|]. rewrite Er3, Er1, Eo3, Eo2, Eo1.
    destruct (others (sys s)) as [|o os] eqn:Eo; [|destruct os; simpl in *; lia]. exfalso.
    pose proof (supply_eq c t s1 Hr1) as Hsup1. unfold supply at 1 in Hsup1. rewrite Hin, Er1 in Hsup1.
    unfold coming in Hsup1. rewrite Eo1 in Hsup1. cbn [tail segs] in Hsup1. case_decide; simpl in Hsup1; lia.
  - specialize (Hcons Hb). apply wp_bind. unfold wp at 1, on_reader, modify. cbn [sys r].
    fold (extend b f (r s1)). pose proof (supply_eq c t _ Hcons) as Hsup2. apply IH; [done|lia|].
    cbn [r sys extend pos buf]. rewrite drop_app_le, length_app, Er1, Eo2, Eo1 by apply Hr1.
    assert (length b <> 0)%nat by (by destruct b). assert (length (tail (others (sys s))) <= length (others (sys s)))%nat by (destruct (others (sys s)); simpl; lia).
    lia.
Qed.
Lemma read_exact_spec want c t s :
  reading c t s -> (length c + want <= length (seg_bytes E0))%nat ->
  wp (read_exact s0 want) (fun out s' => out = take want (drop (length c) (seg_bytes E0)) /\ reading (c ++ out) t s') s.
Proof.
  intros Hr Hw. pose proof (supply_eq c t s Hr). unfold read_exact. apply wp_bind. apply wp_get.
  eapply wp_conseq; [apply (fill_loop_spec want _ c t); [done|lia|lia]|]. intros [] s1 [Hr1 Hl1]. apply wp_get.
  rewrite length_drop in Hl1. pose proof (rd_pos _ _ _ Hr1). rewrite get_range_nat by lia.
  apply wp_bind. unfold wp at 1, on_reader, modify. cbv beta. apply wp_ret.
  destruct Hr1 as [Hc Hok Ha Hscr Hp (past & E1 & E2 & E3) Hn Hpr]. set (out := take want (drop (pos (r s1)) (buf (r s1)))).
  assert (drop (pos (r s1)) (buf (r s1)) = out ++ drop (pos (r s1) + want) (buf (r s1))) as Eb.
  { unfold out. by rewrite <- drop_drop, (take_drop want). }
  assert (length out = want) as Hlo by (unfold out; rewrite length_take, length_drop; lia). split.
  - rewrite E1, map_app, concat_app, E2, Eb, <- !app_assoc, drop_app_length. by rewrite take_app_length'.
  - split; cbn [r sys conn buf pos fds]; try done; [lia| |].
    + exists past. split; [done|]. split; [|done]. by rewrite E2, Eb, <- !app_assoc.
    + intros n. rewrite length_app. rewrite Eb, length_app in Hpr. rewrite <- Nat.add_assoc. apply Hpr.
Qed.

(** ** Words *)
Variables (ws extra : list Z).
Definition wire (ws : list Z) : list Z := concat (map (le_split 4) ws).
Hypothesis (Hws : Forall (in_u 32) ws) (Hwire : seg_bytes E0 = wire ws ++ extra).
Lemma length_wire l : length (wire l) = (4 * length l)%nat.
Proof. induction l as [|x l IH]; [done|]. change (wire (x :: l)) with (le_split 4 x ++ wire l). rewrite length_app, IH, length_le_split. simpl. lia. Qed.
Lemma wire_take k x : ws !! k = Some x -> wire ws = wire (take k ws) ++ le_split 4 x ++ wire (drop (S k) ws).
Proof. intros Hx. rewrite <- (take_drop_middle ws k x Hx) at 1. unfold wire. by rewrite map_app, concat_app. Qed.
(** The first [k] words have been read. *)
Definition at_word (k : nat) (t : list Z) (s : session) : Prop := reading (wire (take k ws)) t s.
Lemma read_u32_spec k t s :
  (k < length ws)%nat -> at_word k t s -> wp (read_u32 s0) (fun x s' => x = ws !!! k /\ at_word (S k) t s') s.
Proof.
  intros Hk Hr. destruct (lookup_lt_is_Some_2 ws k Hk) as [x Hx]. pose proof (wire_take k x Hx) as E.
  pose proof (length_wire (take k ws)) as Hl. rewrite length_take in Hl. unfold read_u32. apply wp_bind.
  eapply wp_conseq; [apply (read_exact_spec 4 _ t s Hr)|].
  { rewrite Hwire, E, !length_app, length_le_split. lia. }
  intros out s' [Eo Hr']. apply wp_ret. rewrite Hwire, E, <- !app_assoc, drop_app_length in Eo.
  rewrite take_app_length' in Eo by (by rewrite length_le_split). subst out.
  rewrite (list_lookup_total_correct ws k x Hx). split.
  - rewrite (le_combine_split 4). apply wrap_small. by eapply (proj1 (Forall_lookup _ _) Hws).
  - unfold at_word. rewrite (take_S_r _ _ x Hx). unfold wire. rewrite map_app, concat_app. cbn [map concat]. by rewrite app_nil_r.
Qed.
Lemma read_word {A} k t (f : Z -> ST session A) Q s :
  (k < length ws)%nat -> at_word k t s ->
  (forall s', at_word (S k) t s' -> wp (f (ws !!! k)) Q s') -> wp (x ← read_u32 s0; f x) Q s.
Proof.
  intros Hk Hr Hf. apply wp_bind. eapply wp_conseq; [by apply read_u32_spec|]. intros x s' [-> Hr']. by apply Hf.
Qed.
Lemma expect_spec k t size f Q s :
  (S k < length ws)%nat -> Z.shiftr (ws !!! S k) 16 = size -> at_word k t s ->
  (forall s', at_word (S (S k)) t s' -> wp f Q s') -> wp (expect s0 size f) Q s.
Proof.
  intros Hk Hsz Hr Hf. unfold expect, read_header. apply wp_bind.
  apply (read_word k t); [lia|done|]. intros s1 Hr1. apply (read_word (S k) t); [lia|done|]. intros s2 Hr2.
  apply wp_ret. rewrite Hsz, Z.eqb_refl. by apply Hf.
Qed.
(** An event does not disturb the reading. *)
Lemma send_reading k t id name intf v s :
  at_word k t s -> wp (on_sys (send_global s0 cn id name intf v)) (fun _ s' => at_word k t s') s.
Proof.
  intros [Hc Hok (got & Ha) Hscr Hp Hsegs Hn Hpr]. unfold send_global. set (msg := push_header _ _ _ _ ++ _).
  destruct (calm_step (Send cn msg []) (sys s) _ (others (sys s)) Hok Ha) as (out & n' & E & Hok' & Ha' & Hs' & Hef).
  { by split. } { by intros ? ?%elem_of_nil. } { apply Hok. } { simpl. lia. }
  set (w' := mk_world n' (display (sys s)) (FRAMES_RENDERED (sys s)) (others (sys s))) in *.
  assert (mail cn (net (sys s)) (Send cn msg []) = ([], [])) as Hm.
  { simpl. by rewrite decide_False by (by apply Hok). }
  pose proof (eff_inbox _ _ _ _ Hef) as Ei. pose proof (eff_fds _ _ _ _ Hef) as Ef. rewrite Hm, app_nil_r in Ei, Ef.
  assert (coming w' = coming (sys s)) as Ec.
  { unfold coming, w'. cbn [net others]. rewrite (eff_peer _ _ _ _ Hef) by done. by rewrite (decide_False (P := gone _ _)) by (by apply not_gone). }
  cbn [exec] in E. unfold mbind, st_bind in E. destruct (send cn msg [] (net (sys s))) as [o n1|] eqn:Es; [|done].
  injection E as <- <-. apply (wp_intro _ _ _ tt (mk_session w' (r s))).
  { unfold on_sys, mbind, st_bind, on_net. rewrite Es. done. }
  split; cbn [sys r]; try done; [by exists got|by etrans| |].
  - destruct Hsegs as (past & E1 & E2 & E3). exists past. unfold w' at 2 3. cbn [net]. by rewrite Ec, Ei, Ef.
  - unfold w'. cbn [net]. by rewrite Ei, Ef.
Qed.
Lemma take_fd_spec k fd rest s :
  (k <= length ws)%nat -> fds_by (4 * k) E0 = fd :: rest -> at_word k [] s ->
  wp take_fd (fun o s' => o = Some fd /\ at_word k [fd] s') s.
Proof.
  intros Hk Hf Hr. pose proof (rd_prompt _ _ _ Hr (4 * k)%nat) as Hp. rewrite length_wire, length_take in Hp.
  destruct Hp as [more Ep]; [lia|]. rewrite Hf in Ep. simpl in Ep. unfold take_fd. apply wp_get. rewrite Ep.
  apply wp_bind. unfold wp at 1, on_reader, modify. apply wp_ret. split; [done|].
  destruct Hr as [Hc Hok (got & Ha) Hscr Hpos (past & E1 & E2 & E3) Hn Hpr]. rewrite Ep in *.
  split; cbn [r sys conn buf pos fds]; try done; [by exists got|by exists past].
Qed.
(** At the start nothing has been read. *)
Lemma reading_start :
  conn_ok w0 -> (exists got, accounted w0 (got ++ held)) -> E0 = (inbox_of (net w0) cn, fds_of (net w0) cn) :: coming w0 ->
  at_word 0 [] (mk_session w0 (new_reader cn)).
Proof.
  intros Hok (got & Ha) E. unfold at_word. rewrite take_0. split; cbn; try done.
  - exists got. by rewrite !app_nil_r.
  - exists [(inbox_of (net w0) cn, fds_of (net w0) cn)]. cbn. by rewrite !app_nil_r.
  - rewrite E in HE0. by apply Forall_cons in HE0 as [? _].
  - intros n Hn. assert (n = 0%nat) as -> by lia. destruct E0; apply prefix_nil.
Qed.
(** The connection's references when the script is over. *)
Lemma close_pool fd got rs w :
  accounted w (got ++ held ++ [fd] ++ rs) -> exists w', on_shared (Shm.close fd) w = Ret tt w' /\
    display w' = display w /\ FRAMES_RENDERED w' = FRAMES_RENDERED w /\
    refs_inv (shared (net w')) (got ++ held ++ rs ++ in_flight (net w')).
Proof.
  intros (Hinv & _ & _).
  destruct (fd_close_spec (shared (net w)) fd (got ++ held ++ rs ++ in_flight (net w))) as (v & E & Hv).
  { eapply refs_perm; [|exact Hinv]. solve_Permutation. }
  exists (set_net (Socket.mk_state (endpoints (net w)) (listeners (net w)) v) w).
  split; [|by split_and!]. unfold on_shared. simpl in E. by rewrite E.
Qed.
Lemma pool_stays k fd p s :
  at_word k [fd] s -> 0 <= fd -> phys_of (shared (net w0)) fd = Some p -> phys_of (shared (net (sys s))) fd = Some p.
Proof.
  clear Hws Hwire HE0 Hcl Hcn Hne.
  intros Hr H0 Hp. destruct (rd_acc _ _ _ Hr) as (got & Hinv & _ & _). destruct (rd_screen _ _ _ Hr) as (_ & _ & _ & Hst).
  destruct (Hst fd) as [->|Hnone]; [done|exfalso]. pose proof (inv_count _ _ _ Hinv fd H0) as Hc.
  unfold phys_of in Hnone. destruct (Shm.get (shared (net (sys s))) fd); [done|].
  assert (fd ∈ (got ++ held ++ [fd] ++ fds (r s)) ++ in_flight (net (sys s))) as Hin by set_solver.
  apply elem_of_Permutation in Hin as [l El]. rewrite (count_perm _ _ _ El), count_cons, decide_True in Hc by done.
  unfold count in Hc. lia.
Qed.

(** ** The whole script *)
Ltac word k := eapply (read_word k); [lia|eassumption|intros ? ?].
Ltac header k := eapply (expect_spec k); [lia|eassumption|eassumption|intros ? ?].
Lemma script_to_pool fd rest s Q f :
  (11 < length ws)%nat -> header_ok ws 1 12 -> header_ok ws 4 16 -> header_ok ws 8 16 -> fds_by 44 E0 = fd :: rest ->
  at_word 0 [] s -> 
  (forall s', at_word 11 [fd] s' -> wp (f (ws !!! 10%nat) fd) Q s') ->
  wp (expect s0 12 (
    registry_id ← read_u32 s0;
    on_sys (send_global s0 cn registry_id 1 "wl_shm" 1);;
    on_sys (send_global s0 cn registry_id 2 "wl_compositor" 4);;
    expect s0 16 (_ ← read_u32 s0; _ ← read_u32 s0;
    expect s0 16 (_ ← read_u32 s0; pool_size ← read_u32 s0;
    fd ← take_fd;
    match fd with None => mret tt | Some pool_shm_id => f pool_size pool_shm_id end)))) Q s.
Proof.
  intros Hl Hh1 Hh2 Hh3 Hfd H0 Hf. header 0%nat. word 2%nat.
  apply wp_bind. eapply wp_conseq; [by apply send_reading|]. intros [] ? ?.
  apply wp_bind. eapply wp_conseq; [by apply send_reading|]. intros [] ? ?.
  header 3%nat. word 5%nat. word 6%nat. header 7%nat. word 9%nat. word 10%nat.
  apply wp_bind. eapply wp_conseq; [eapply (take_fd_spec 11 fd rest); [lia|exact Hfd|eassumption]|].
  intros o s2 [-> Hs2]. by apply Hf.
Qed.
Lemma script_spec fd rest s Q :
  length ws = 33%nat -> Forall (fun '(k, size) => header_ok ws k size) header_sizes -> fds_by 44 E0 = fd :: rest ->
  at_word 0 [] s ->
  (forall s', at_word 33 [fd] s' ->
     wp (on_sys (render fd (ws !!! 10%nat) (ws !!! 14%nat) (ws !!! 15%nat) (ws !!! 16%nat) (ws !!! 17%nat));;
         on_sys (on_shared (Shm.close fd))) Q s') ->
  wp (session_script s0 cn) Q s.
Proof.
  intros Hl Hh Hfd H0 Hf. unfold header_sizes in Hh. repeat (apply Forall_cons in Hh as [? Hh]).
  eapply (script_to_pool fd rest); [lia|done..|]. intros ? ?.
  header 11%nat. word 13%nat. word 14%nat. word 15%nat. word 16%nat. word 17%nat. word 18%nat.
  header 19%nat. word 21%nat. word 22%nat. header 23%nat. word 25%nat.
  header 26%nat. word 28%nat. word 29%nat. word 30%nat. header 31%nat. by apply Hf.
Qed.
End session.

(** Everything that will have arrived at [cn], in the pieces it was sent in. *)
Definition stream (client cn : Z) (w : world) : list (list Z * list Z) :=
  (inbox_of (net w) cn, fds_of (net w) cn) :: coming client cn w.
(** The words [ws] arrive at [cn], and the descriptor [fd] with the first 44
    bytes, from a world where the sockets and objects are well-formed. *)
Record arrives (s0 : pmm) (client cn : Z) (held ws : list Z) (fd : Z) (w : world) : Prop := {
  ar_ids : 0 <= client /\ 0 <= cn /\ cn <> client /\ 0 <= fd;
  ar_ok : conn_ok client cn held w;
  ar_acc : exists got, accounted s0 held w (got ++ held);
  ar_nofd : Forall (fun seg => seg.1 = [] -> seg.2 = []) (stream client cn w);
  ar_words : Forall (in_u 32) ws;
  ar_wire : exists extra, seg_bytes (stream client cn w) = wire ws ++ extra;
  ar_fd : exists rest, fds_by 44 (stream client cn w) = fd :: rest
}.

(** A session that goes wrong after the pool was passed: the fourth message has
    another size than the script wants. *)
(** A session that ends early loses the pool: when the message after the
    pool's has the wrong size, the session ends with the screen untouched, and
    the reference it received is still counted although nobody holds it any more. *)
Theorem abandoned_session_leaks s0 client cn held ws fd w :
  arrives s0 client cn held ws fd w -> length ws = 13%nat ->
  header_ok ws 1 12 -> header_ok ws 4 16 -> header_ok ws 8 16 -> ~ header_ok ws 12 32 ->
  exists w' got rest, client_session s0 cn w = Ret tt w' /\ display w' = display w /\ FRAMES_RENDERED w' = FRAMES_RENDERED w /\
    @refs_inv shm (shm_refs s0) (shared (net w')) (got ++ held ++ fd :: rest ++ in_flight (net w')).
Proof.
  intros Har Hl Hh1 Hh2 Hh3 Hh4. set (s := mk_session w (new_reader cn)).
  pose proof (ar_ids _ _ _ _ _ _ _ Har) as (H1 & H2 & H3 & H4). pose proof (ar_nofd _ _ _ _ _ _ _ Har) as Hnofd.
  pose proof (ar_words _ _ _ _ _ _ _ Har) as Hws. destruct (ar_wire _ _ _ _ _ _ _ Har) as [extra Hwire].
  destruct (ar_fd _ _ _ _ _ _ _ Har) as [fs Hfd].
  assert (at_word s0 client cn held (stream client cn w) w ws 0 [] s) as H0.
  { eapply reading_start; try done; [apply Har|apply Har]. }
  assert (wp (session_script s0 cn) (fun _ s' => at_word s0 client cn held (stream client cn w) w ws 13 [fd] s') s) as Hw.
  { unfold session_script. eapply (script_to_pool s0 client cn held H1 H2 H3 _ w Hnofd ws extra Hws Hwire fd fs); [lia|done..|].
    intros s1 Hs1. unfold expect at 1, read_header.
    eapply wp_bind, wp_bind, wp_conseq; [apply (read_u32_spec s0 client cn held H1 H2 H3 _ w Hnofd ws extra Hws Hwire 11 [fd] s1); [lia|exact Hs1]|].
    intros x s2 [_ Hs2].
    eapply wp_bind, wp_conseq; [apply (read_u32_spec s0 client cn held H1 H2 H3 _ w Hnofd ws extra Hws Hwire 12 [fd] s2); [lia|exact Hs2]|].
    intros y s3 [-> Hs3]. apply wp_ret. rewrite (proj2 (Z.eqb_neq _ 32)) by exact Hh4. by apply wp_ret. }
  destruct (wp_elim _ _ _ Hw) as ([] & s' & E & Hs'). destruct (rd_screen _ _ _ _ _ _ _ _ _ Hs') as (Ed & Ef & _).
  destruct (rd_acc _ _ _ _ _ _ _ _ _ Hs') as (got & Hinv & _ & _). exists (sys s'), got, (fds (r s')).
  split; [unfold client_session; fold s; by rewrite E|]. split_and!; [done|done|].
  eapply refs_perm; [|exact Hinv]. simpl. by rewrite <- !app_assoc.
Qed.

(** What a client sees of the kernel's memory is not bounded by its object: the
    size that is tested is the one the client claims. *)
Lemma render_shows_foreign_memory id size offset width height stride w p sc :
  phys_of (shared (net w)) id = Some p -> size_of (shared (net w)) id = Some size -> size <= offset ->
  small_frame width height -> state (display w) = Some sc -> display_ok sc -> native sc = true ->
  exists pool_size d', render id pool_size offset width height stride w =
      Ret tt (mk_world (net w) d' (wrap 64 (FRAMES_RENDERED w + 1)) (others w)) /\
    frame_shown (ram (vm (shared (net w)))) p offset width height stride sc d'.
Proof.
  intros Hp _ _ Hsm Es Hd Hn. exists (offset + stride * height).
  by apply (render_spec id _ offset width height stride w p sc); try done; left.
Qed.

(** ** Witnesses: two connected endpoints and the object of [Shm.demo] *)
Definition demo_screen : State := Fb.mk_state 0x1000 192 48 48 48 48 (replicate 2304 7) (replicate 2304 0) (replicate 96 0).
Definition demo_words : list Z :=
  [1; 12 * 2 ^ 16; 2;  2; 16 * 2 ^ 16; 1; 3;  3; 16 * 2 ^ 16; 4; 256;  4; 32 * 2 ^ 16; 5; 0; 2; 2; 8; 0;
   2; 16 * 2 ^ 16; 2; 6;  6; 12 * 2 ^ 16; 7;  7; 20 * 2 ^ 16; 5; 0; 0;  7; 8 * 2 ^ 16].
Definition demo_world (ws : list Z) : world :=
  mk_world pair_state (mk_fb (Some demo_screen) true 0x1000 192 48 48 (fun _ => 0)) 0
    [Send 0 (take 30 (wire ws)) []; Create; Send 0 (take 20 (drop 30 (wire ws))) [0]; Send 0 (drop 50 (wire ws)) []; Close 0].
Lemma demo_arrives ws :
  ws = demo_words \/ ws = take 12 demo_words ++ [33 * 2 ^ 16] -> arrives small 0 1 [0; 0] ws 0 (demo_world ws).
Proof.
  intros Hws. split.
  - lia.
  - split.
    + apply (pair_ids _ _ _ pair_state_pair).
    + intros c Hc Hne Hx. destruct (decide (c = 1)) as [->|Hn]; [done|].
      by destruct (pair_only _ _ _ pair_state_pair c Hc Hne Hn).
    + by eexists.
    + intros ? ? Hx. discriminate Hx.
    + repeat (apply Forall_cons; split; [split; [split; simpl; lia|simpl; set_solver]|]). by apply Forall_nil.
  - exists []. split; [|split].
    + exact (shm_run_inv demo_vm Shm.demo [0; 0] small_wf Shm.demo_run).
    + done.
    + destruct Hws as [-> | ->]; vm_compute; reflexivity.
  - destruct Hws as [-> | ->]; repeat constructor; vm_compute; intros [=].
  - destruct Hws as [-> | ->]; repeat (apply Forall_cons; split; [unfold in_u; lia|]); apply Forall_nil; done.
  - exists []. destruct Hws as [-> | ->]; vm_compute; reflexivity.
  - exists []. destruct Hws as [-> | ->]; vm_compute; reflexivity.
Qed.
Lemma demo_screen_ok : display_ok demo_screen.
Proof. unfold display_ok, demo_screen. cbn [pwidth pheight vwidth vheight pitch addr vback_buffer back_buffer]. rewrite !length_replicate. lia. Qed.
Example abandoned_session_leaks_witness : exists w' got rest,
  client_session small 1 (demo_world (take 12 demo_words ++ [33 * 2 ^ 16])) = Ret tt w' /\ FRAMES_RENDERED w' = 0 /\
  @refs_inv shm (shm_refs small) (shared (net w')) (got ++ [0; 0] ++ 0 :: rest ++ in_flight (net w')).
Proof.
  destruct (abandoned_session_leaks small 0 1 [0; 0] (take 12 demo_words ++ [33 * 2 ^ 16]) 0
    (demo_world (take 12 demo_words ++ [33 * 2 ^ 16]))) as (w' & got & rest & E & _ & Ef & Hr); try reflexivity.
  - apply demo_arrives. by right.
  - unfold header_ok. vm_compute. discriminate.
  - exists w', got, rest. split; [exact E|]. split; [exact Ef|exact Hr].
Defined.
