(* ===== verification/Editor.v ===== *)
(** * The text editor, the [Editor] windows of [wm.rs]

    The document is a list of lines with a cursor; the console only shows a
    page of it.  The specification is a text with a position in it: what is in
    front of the cursor and what is behind.  A [String] is the list of its
    characters, and a byte index at a character boundary is the number of
    characters in front of it. *)
From stdpp Require Import list_numbers.
From S2P Require Import Prelude Bytes Text Disk Rtc Fat FatChain FatDir FatFile Keyboard Font Gfx Draw PixelBuffer Terminal Console.

Definition EDITOR_CURSOR_COLOR : Z := 0x00FFCC66.
Definition EDITOR_STATUS_BG : Z := 0x00262626.
Definition EDITOR_STATUS_FG : Z := 0x008FB8D8.
Definition NOTEPAD_PATH : str := bytes_of "/users/macha/Documents/notepad.txt".

Record Editor := mk_editor {
  console : Console; lines : list str; cursor_row : nat; cursor_col : nat;
  scroll_offset : nat; status : str; path : str }.
Definition set_doc (ls : list str) (r c : nat) (e : Editor) : Editor :=
  mk_editor (console e) ls r c (scroll_offset e) (status e) (path e).
Definition set_status (s : str) (e : Editor) : Editor :=
  mk_editor (console e) (lines e) (cursor_row e) (cursor_col e) (scroll_offset e) s (path e).

(** ** The lines *)
Definition byte_index (line : str) (char_index : nat) : nat := Nat.min char_index (length line).
(** [String::insert_str]: inserting at a boundary. *)
Definition insert_at (i : nat) (s line : str) : str := take i line ++ s ++ drop i line.
(** [String::remove], [None] where there is no character. *)
Definition remove_at (i : nat) (line : str) : option str :=
  if decide (i < length line)%nat then Some (take i line ++ drop (S i) line) else None.
Definition insert_line (i : nat) (l : str) (ls : list str) : option (list str) :=
  if decide (i <= length ls)%nat then Some (take i ls ++ l :: drop i ls) else None.
Definition remove_line (i : nat) (ls : list str) : option (str * list str) :=
  l ← ls !! i; Some (l, take i ls ++ drop (S i) ls).
(** [text.split('\n')], without an empty last piece, as [open_notepad_with]
    and Ctrl+O do it. *)
Definition split_lines (text : str) : list str :=
  let ls := split_on (Z.eqb 10) text in
  if bool_decide (last ls = Some []) then removelast ls else ls.
Fixpoint join_lines (ls : list str) : str :=
  match ls with
  | [] => []
  | [l] => l
  | l :: ls => l ++ 10 :: join_lines ls
  end.

(** The keys that only edit; [None] is a panic. *)
Definition edit_key (ev : Event) (e : Editor) : option Editor :=
  let ls := lines e in let r := cursor_row e in let c := cursor_col e in
  match ev with
  | Char ch =>
      line ← ls !! r;
      Some (set_doc (<[r := insert_at (byte_index line c) [ch] line]> ls) r (c + 1) e)
  | Backspace =>
      if decide (0 < c)%nat then
        line ← ls !! r;
        line ← remove_at (byte_index line (c - 1)) line;
        Some (set_doc (<[r := line]> ls) r (c - 1) e)
      else if decide (0 < r)%nat then
        '(current, ls) ← remove_line r ls;
        line ← ls !! (r - 1)%nat;
        Some (set_doc (<[(r - 1)%nat := line ++ current]> ls) (r - 1) (length line) e)
      else Some e
  | Enter =>
      line ← ls !! r;
      let idx := byte_index line c in
      ls ← insert_line (r + 1) (drop idx line) (<[r := take idx line]> ls);
      Some (set_doc ls (r + 1) 0 e)
  | Tab =>
      line ← ls !! r;
      Some (set_doc (<[r := insert_at (byte_index line c) (bytes_of "    ") line]> ls) r (c + 4) e)
  | Left =>
      if decide (0 < c)%nat then Some (set_doc ls r (c - 1) e)
      else if decide (0 < r)%nat then
        line ← ls !! (r - 1)%nat;
        Some (set_doc ls (r - 1) (length line) e)
      else Some e
  | Right =>
      line ← ls !! r;
      if decide (c < length line)%nat then Some (set_doc ls r (c + 1) e)
      else if decide (r + 1 < length ls)%nat then Some (set_doc ls (r + 1) 0 e)
      else Some e
  | Up =>
      if decide (0 < r)%nat then
        line ← ls !! (r - 1)%nat;
        Some (set_doc ls (r - 1) (Nat.min c (length line)) e)
      else Some e
  | Down =>
      if decide (r + 1 < length ls)%nat then
        line ← ls !! (r + 1)%nat;
        Some (set_doc ls (r + 1) (Nat.min c (length line)) e)
      else Some e
  | Ctrl _ | Escape | F2 => Some e
  end.

(** ** The page *)
Section editor.
Variable fscale : Z.
Definition on_console (m : ST Console unit) : ST Editor unit := fun e =>
  match m (console e) with
  | Ret _ c => Ret tt (mk_editor c (lines e) (cursor_row e) (cursor_col e) (scroll_offset e) (status e) (path e))
  | Panic => Panic
  end.
Definition scrolled (doc_rows row scroll : nat) : nat :=
  if decide (row < scroll)%nat then row
  else if decide (scroll + doc_rows <= row)%nat then (row + 1 - doc_rows)%nat
  else scroll.
(** [writeln!(console, "{}", line)] *)
Definition write_line (line : str) : ST Console unit :=
  Console.write_str fscale (as_bytes line);; Console.write_str fscale [10].
#[local] Hint Extern 0 (Surface Console) => exact (console_surface fscale) : typeclass_instances.
Definition editor_render : ST Editor unit :=
  e ← get_st;
  let doc_rows := (Z.to_nat (rows (console e)) - 1)%nat in
  let scroll := scrolled doc_rows (cursor_row e) (scroll_offset e) in
  put_st (mk_editor (console e) (lines e) (cursor_row e) (cursor_col e) scroll (status e) (path e));;
  on_console (
    Console.clear;;
    for_in (take doc_rows (drop scroll (lines e))) write_line;;
    let gw := u32 (glyph_w fscale) in
    let gh := u32 (glyph_h fscale) in
    let sy := u32 (Z.of_nat doc_rows * glyph_h fscale) in
    c ← get_st;
    fill_rect 0 sy (width_px fscale c) gh EDITOR_STATUS_BG;;
    draw_string fscale gw sy (as_bytes (status e)) EDITOR_STATUS_FG None;;
    let visible := Nat.min (cursor_row e - scroll) (doc_rows - 1) in
    let cx := u32 (Z.of_nat (cursor_col e) * glyph_w fscale) in
    let cy := u32 (Z.of_nat visible * glyph_h fscale) in
    fill_rect cx cy gw gh EDITOR_CURSOR_COLOR).

(** ** Saving, opening and every other key *)
Definition fat_message (e : FatError) : str :=
  match e with
  | NoDisk => bytes_of "no disk mounted"
  | Io m => bytes_of m
  | InvalidVolume => bytes_of "not a FAT32 volume"
  | NotFound => bytes_of "not found"
  | NotDir => bytes_of "not a directory"
  | AlreadyExists => bytes_of "already exists"
  | NotEmpty => bytes_of "directory not empty"
  | InvalidName => bytes_of "invalid name"
  | OutOfSpace => bytes_of "out of space"
  | Corrupt => bytes_of "corrupt filesystem"
  end.
Context {D : Type} `{BlockDevice D} (rtc_now : D -> DateTime).
Abbreviation Volume := (option (Fat32 D)).
Definition save_path (e : Editor) : str := if nonempty (path e) then path e else NOTEPAD_PATH.
Definition saved_text (ls : list str) : str :=
  let text := join_lines ls in if nonempty text then text ++ [10] else text.
Definition save : ST (Volume * Editor) unit := fun '(v, e) =>
  let text := saved_text (lines e) in
  match write_file rtc_now (save_path e) (as_bytes text) v with
  | Ret (Ok _) v => Ret tt (v, set_status (bytes_of "saved " ++ uint_to_string (len_utf8 text) ++ bytes_of " bytes to " ++ save_path e) e)
  | Ret (Err er) v => Ret tt (v, set_status (bytes_of "save failed: " ++ fat_message er) e)
  | Panic => Panic
  end.
Definition open_file : ST (Volume * Editor) unit := fun '(v, e) =>
  match read_file (save_path e) v with
  | Ret (Ok data) v =>
      let text := default [] (from_utf8 data) in
      Ret tt (v, set_status (bytes_of "opened " ++ save_path e ++ bytes_of " (" ++
                   uint_to_string (Z.of_nat (length data)) ++ bytes_of " bytes)") (set_doc (split_lines text) 0 0 e))
  | Ret (Err er) v => Ret tt (v, set_status (bytes_of "open failed: " ++ fat_message er) e)
  | Panic => Panic
  end.
Definition lift_editor (m : ST Editor unit) : ST (Volume * Editor) unit := fun '(v, e) =>
  match m e with Ret _ e => Ret tt (v, e) | Panic => Panic end.
Definition editor_handle_key (ev : Event) : ST (Volume * Editor) unit :=
  (if decide (ev = Ctrl 115) then save
   else if decide (ev = Ctrl 111) then open_file
   else lift_editor (fun e => match edit_key ev e with Some e => Ret tt e | None => Panic end));;
  lift_editor editor_render.

(** ** A new window on a file *)
Definition open_lines (content : list Z) : list str :=
  match split_lines (default [] (from_utf8 content)) with [] => [[]] | ls => ls end.
End editor.

(** ** The specification: a text and a position in it *)
Definition newline_free (l : str) : Prop := Forall (fun c => c <> 10) l.
(** The length of the first line of a text. *)
Fixpoint line_len (s : str) : nat :=
  match s with c :: s => if c =? 10 then O else S (line_len s) | [] => O end.
(** The characters between the position and the ends of its line. *)
Definition line_before (t : str) (p : nat) : nat := line_len (rev (take p t)).
Definition line_after (t : str) (p : nat) : nat := line_len (drop p t).
Definition type_in (s : str) (d : str * nat) : str * nat :=
  (take d.2 d.1 ++ s ++ drop d.2 d.1, (d.2 + length s)%nat).
Definition spec_key (ev : Event) (d : str * nat) : str * nat :=
  let '(t, p) := d in
  match ev with
  | Char ch => type_in [ch] d
  | Tab => type_in (bytes_of "    ") d
  | Enter => type_in [10] d
  | Backspace => (take (p - 1) t ++ drop p t, (p - 1)%nat)
  | Left => (t, (p - 1)%nat)
  | Right => (t, Nat.min (p + 1) (length t))
  | Up =>
      let start := (p - line_before t p)%nat in
      if decide (start = O) then d
      else
        let len := line_before t (start - 1) in
        (t, (start - 1 - len + Nat.min (line_before t p) len)%nat)
  | Down =>
      let stop := (p + line_after t p)%nat in
      if decide (stop = length t) then d
      else (t, (stop + 1 + Nat.min (line_before t p) (line_after t (stop + 1)))%nat)
  | Ctrl _ | Escape | F2 => d
  end.

(** The lines in front of the cursor's and those behind. *)
Definition heads (ls : list str) : str := ls ≫= fun l => l ++ [10].
Definition tails (ls : list str) : str := ls ≫= fun l => 10 :: l.
Definition doc (e : Editor) : str * nat :=
  (join_lines (lines e), (length (heads (take (cursor_row e) (lines e))) + cursor_col e)%nat).
Definition doc_ok (e : Editor) : Prop :=
  Forall newline_free (lines e) /\
  exists line, lines e !! cursor_row e = Some line /\ (cursor_col e <= length line)%nat.

Lemma join_cons l ls : join_lines (l :: ls) = l ++ tails ls.
Proof.
  revert l. induction ls as [|l' ls IH]; intros l; [by rewrite app_nil_r|].
  change (join_lines (l :: l' :: ls)) with (l ++ 10 :: join_lines (l' :: ls)). by rewrite IH.
Qed.
Lemma join_zipper pre line post : join_lines (pre ++ line :: post) = heads pre ++ line ++ tails post.
Proof.
  destruct pre as [|l pre]; [apply join_cons|]. cbn [app]. rewrite join_cons. unfold heads. cbn [mbind list_bind].
  rewrite <- !app_assoc. f_equal. induction pre as [|l' pre IH]; [done|].
  unfold tails in *. cbn [app mbind list_bind]. rewrite IH. cbn. by rewrite <- !app_assoc.
Qed.
Lemma line_len_app l s : newline_free l -> line_len (l ++ 10 :: s) = length l.
Proof. induction 1 as [|c l Hc _ IH]; [done|]. cbn. rewrite (proj2 (Z.eqb_neq c 10)) by done. by rewrite IH. Qed.
Lemma line_len_all l : newline_free l -> line_len l = length l.
Proof. induction 1 as [|c l Hc _ IH]; [done|]. cbn. rewrite (proj2 (Z.eqb_neq c 10)) by done. by rewrite IH. Qed.
Lemma line_after_len pre line post c :
  newline_free line -> (c <= length line)%nat ->
  line_after (heads pre ++ line ++ tails post) (length (heads pre) + c) = (length line - c)%nat.
Proof.
  intros Hl Hc. unfold line_after. rewrite drop_app_add, drop_app_le by lia.
  assert (newline_free (drop c line)) as Hd by by apply Forall_drop.
  destruct post as [|l post]; [cbn; rewrite app_nil_r, line_len_all, length_drop by done; done|].
  unfold tails. cbn [mbind list_bind app]. by rewrite line_len_app, length_drop.
Qed.
Lemma line_before_len pre line post c :
  newline_free line -> (c <= length line)%nat ->
  line_before (heads pre ++ line ++ tails post) (length (heads pre) + c) = c.
Proof.
  intros Hl Hc. unfold line_before. rewrite take_app_add', take_app_le by lia. rewrite rev_app_distr.
  assert (newline_free (rev (take c line))) as Hd by (apply List.Forall_rev; by apply Forall_take).
  assert (length (rev (take c line)) = c) as El by (rewrite length_rev, length_take; lia).
  destruct pre as [|l pre] using rev_ind; [cbn; by rewrite app_nil_r, line_len_all|].
  unfold heads. rewrite bind_app. cbn [mbind list_bind]. rewrite app_nil_r, !rev_app_distr. cbn [rev app].
  by rewrite line_len_app.
Qed.
(** A document seen from its cursor's line. *)
Definition at_line (pre : list str) (line : str) (post : list str) (c : nat) (e : Editor) : Prop :=
  lines e = pre ++ line :: post /\ cursor_row e = length pre /\ cursor_col e = c /\ (c <= length line)%nat /\
  Forall newline_free pre /\ newline_free line /\ Forall newline_free post.
Lemma doc_at_line e : doc_ok e -> exists pre line post c, at_line pre line post c e.
Proof.
  intros (Hf & line & Hl & Hc). destruct (list_elem_of_split_length _ _ _ Hl) as (pre & post & E & Hr).
  exists pre, line, post, (cursor_col e). rewrite E, Forall_app, Forall_cons in Hf. destruct Hf as (? & ? & ?). done.
Qed.
Lemma at_line_doc pre line post c e :
  at_line pre line post c e ->
  doc_ok e /\ doc e = (heads pre ++ line ++ tails post, (length (heads pre) + c)%nat).
Proof.
  intros (E & Hr & <- & Hc & H1 & H2 & H3). unfold doc_ok, doc. rewrite E, Hr, join_zipper, take_app_length. split; [|done].
  split; [by rewrite Forall_app, Forall_cons|]. exists line. by rewrite list_lookup_middle.
Qed.
Lemma set_at_line ls r c e pre line post :
  ls = pre ++ line :: post -> r = length pre -> (c <= length line)%nat ->
  Forall newline_free pre -> newline_free line -> Forall newline_free post ->
  at_line pre line post c (set_doc ls r c e).
Proof. by intros -> ->. Qed.

(** What an editing step has to establish. *)
Definition step_ok (o : option Editor) (e : Editor) (d : str * nat) : Prop :=
  exists e', o = Some e' /\ doc_ok e' /\ doc e' = d /\
    console e' = console e /\ scroll_offset e' = scroll_offset e /\ status e' = status e /\ path e' = path e.
Lemma step_at_line e pre line post c ls r d :
  at_line pre line post c (set_doc ls r c e) ->
  (heads pre ++ line ++ tails post, (length (heads pre) + c)%nat) = d -> step_ok (Some (set_doc ls r c e)) e d.
Proof. intros Ha <-. apply at_line_doc in Ha as [? ?]. eexists. by split_and!. Qed.
Lemma step_refl e : doc_ok e -> step_ok (Some e) e (doc e).
Proof. intros ?. by exists e. Qed.

Lemma heads_snoc pre l : heads (pre ++ [l]) = heads pre ++ l ++ [10].
Proof. unfold heads. rewrite bind_app. cbn. by rewrite app_nil_r. Qed.
Lemma tails_cons l post : tails (l :: post) = 10 :: l ++ tails post.
Proof. done. Qed.
Lemma newline_free_split i line : newline_free line -> newline_free (take i line) /\ newline_free (drop i line).
Proof. split; [by apply Forall_take|by apply Forall_drop]. Qed.
Lemma insert_middle (pre : list str) l l' post : <[length pre := l']> (pre ++ l :: post) = pre ++ l' :: post.
Proof. rewrite <- (Nat.add_0_r (length pre)). by rewrite insert_app_r. Qed.
Lemma newline_free_app a b : newline_free a -> newline_free b -> newline_free (a ++ b).
Proof. intros. by apply Forall_app. Qed.
(** Typing characters that stay on the line. *)
Lemma type_step s e pre line post c :
  at_line pre line post c e -> newline_free s ->
  step_ok (Some (set_doc (<[cursor_row e := insert_at (byte_index line c) s line]> (lines e)) (cursor_row e) (c + length s) e))
    e (type_in s (doc e)).
Proof.
  intros Ha Hs. pose proof (proj2 (at_line_doc _ _ _ _ _ Ha)) as ->. destruct Ha as (E & Hr & _ & Hc & H1 & H2 & H3).
  destruct (newline_free_split c line H2). unfold byte_index, insert_at. rewrite Nat.min_l by done.
  apply (step_at_line e pre (take c line ++ s ++ drop c line) post); [apply set_at_line; try done|].
  - rewrite E, Hr. apply insert_middle.
  - rewrite !length_app, length_take, length_drop. lia.
  - by repeat apply newline_free_app.
  - unfold type_in. cbn [fst snd]. rewrite take_app_add, drop_app_add, take_app_le, drop_app_le by done.
    rewrite <- !app_assoc. by rewrite Nat.add_assoc.
Qed.

Lemma remove_line_middle pre l post : remove_line (length pre) (pre ++ l :: post) = Some (l, pre ++ post).
Proof.
  unfold remove_line. rewrite list_lookup_middle by done. cbn [mbind option_bind].
  by rewrite take_app_length, <- Nat.add_1_r, drop_app_add.
Qed.
Lemma insert_line_middle pre l post i :
  i = length pre -> insert_line i l (pre ++ post) = Some (pre ++ l :: post).
Proof.
  intros ->. unfold insert_line. rewrite decide_True by (rewrite length_app; lia). by rewrite take_app_length, drop_app_length.
Qed.
Lemma backspace_step e : doc_ok e -> step_ok (edit_key Backspace e) e (spec_key Backspace (doc e)).
Proof.
  intros Hd. destruct (doc_at_line e Hd) as (pre & line & post & c & Ha). pose proof (proj2 (at_line_doc _ _ _ _ _ Ha)) as Ed.
  pose proof Ha as (E & Hr & Hcol & Hc & H1 & H2 & H3). unfold edit_key. cbv zeta. rewrite E, Hr, Hcol. case_decide as Hc0.
  - rewrite list_lookup_middle by done. cbn [mbind option_bind]. unfold remove_at, byte_index. rewrite Nat.min_l, decide_True by lia.
    cbn [mbind option_bind]. destruct (newline_free_split (c - 1) line H2), (newline_free_split (S (c - 1)) line H2).
    apply (step_at_line e pre (take (c - 1) line ++ drop (S (c - 1)) line) post).
    + apply set_at_line; try done; [apply insert_middle| |by apply newline_free_app]. rewrite length_app, length_take, length_drop. lia.
    + rewrite Ed. cbn [spec_key]. replace (length (heads pre) + c - 1)%nat with (length (heads pre) + (c - 1))%nat by lia.
      rewrite take_app_add, drop_app_add, take_app_le, drop_app_le by lia. rewrite <- !app_assoc.
      by replace (S (c - 1)) with c by lia.
  - assert (c = O) as -> by lia. case_decide as Hr0.
    + destruct pre as [|prev pre _] using rev_ind; [simpl in Hr0; lia|]. apply Forall_app in H1 as [H1 [Hp _]%Forall_cons].
      rewrite remove_line_middle. cbn [mbind option_bind]. rewrite length_app, <- app_assoc. cbn [length app].
      replace (length pre + 1 - 1)%nat with (length pre) by lia.
      rewrite list_lookup_middle by done. cbn [mbind option_bind].
      apply (step_at_line e pre (prev ++ line) post).
      * apply set_at_line; try done; [apply insert_middle|rewrite length_app; lia|by apply newline_free_app].
      * rewrite Ed. cbn [spec_key]. rewrite Nat.add_0_r, heads_snoc, !length_app. cbn [length].
        replace ((heads pre ++ prev ++ [10]) ++ line ++ tails post) with ((heads pre ++ prev) ++ 10 :: line ++ tails post) by (by rewrite <- !app_assoc).
        rewrite take_app_length' by (rewrite length_app; lia).
        rewrite (drop_app_ge (heads pre ++ prev)) by (rewrite length_app; lia). rewrite length_app.
        replace (_ - _)%nat with 1%nat by lia. cbn [drop]. rewrite <- !app_assoc. f_equal. lia.
    + destruct pre; [|simpl in Hr0; lia]. assert (spec_key Backspace (doc e) = doc e) as -> by by rewrite Ed.
      by apply step_refl.
Qed.
Lemma enter_step e : doc_ok e -> step_ok (edit_key Enter e) e (spec_key Enter (doc e)).
Proof.
  intros Hd. destruct (doc_at_line e Hd) as (pre & line & post & c & Ha). pose proof (proj2 (at_line_doc _ _ _ _ _ Ha)) as Ed.
  pose proof Ha as (E & Hr & Hcol & Hc & H1 & H2 & H3). unfold edit_key. cbv zeta. rewrite E, Hr, Hcol.
  rewrite list_lookup_middle by done. cbn [mbind option_bind]. unfold byte_index. rewrite Nat.min_l by done.
  destruct (newline_free_split c line H2). rewrite insert_middle, (cons_middle (take c line)), app_assoc.
  rewrite insert_line_middle by (rewrite length_app; done). cbn [mbind option_bind].
  apply (step_at_line e (pre ++ [take c line]) (drop c line) post).
  - apply set_at_line; try done; [by rewrite length_app|lia|by rewrite Forall_app, Forall_singleton].
  - rewrite Ed. cbn [spec_key]. unfold type_in. cbn [fst snd]. rewrite take_app_add, drop_app_add, take_app_le, drop_app_le by done.
    rewrite heads_snoc, !length_app, length_take, <- !app_assoc. cbn [app length]. f_equal. lia.
Qed.
Lemma lookup_line e pre line post : lines e = pre ++ line :: post -> lines e !! length pre = Some line.
Proof. intros ->. by apply list_lookup_middle. Qed.
(** A cursor that moves to another place. *)
Lemma move_step e pre line post c r k :
  lines e = pre ++ line :: post -> doc_ok e -> r = length pre -> (k <= length line)%nat -> 
  c = (length (heads pre) + k)%nat ->
  step_ok (Some (set_doc (lines e) r k e)) e ((doc e).1, c).
Proof.
  intros E [Hf _] -> Hk ->. rewrite E, Forall_app, Forall_cons in Hf. destruct Hf as (? & ? & ?).
  apply (step_at_line e pre line post); [by apply set_at_line|]. unfold doc. cbn [fst]. by rewrite E, join_zipper.
Qed.
Lemma left_step e : doc_ok e -> step_ok (edit_key Left e) e (spec_key Left (doc e)).
Proof.
  intros Hd. destruct (doc_at_line e Hd) as (pre & line & post & c & Ha). pose proof (proj2 (at_line_doc _ _ _ _ _ Ha)) as Ed.
  pose proof Ha as (E & Hr & Hcol & Hc & H1 & H2 & H3). unfold edit_key, spec_key. cbv zeta. destruct (doc e) as [t p] eqn:Et.
  injection Ed as _ ->. replace t with (doc e).1 by by rewrite Et. rewrite Hr, Hcol. case_decide as Hc0.
  - apply (move_step e pre line post); (done || lia).
  - assert (c = O) as -> by lia. case_decide as Hr0.
    + destruct pre as [|prev pre _] using rev_ind; [simpl in Hr0; lia|].
      rewrite length_app. cbn [length]. replace (length pre + 1 - 1)%nat with (length pre) by lia.
      rewrite (lookup_line e pre prev (line :: post)) by (done || by rewrite E, <- app_assoc). cbn [mbind option_bind].
      apply (move_step e pre prev (line :: post)); try done; [by rewrite E, <- app_assoc|].
      rewrite heads_snoc, !length_app. cbn [length]. lia.
    + destruct pre; [|simpl in Hr0; lia]. replace (_, _) with (doc e) by (by rewrite Et). by apply step_refl.
Qed.
Lemma right_step e : doc_ok e -> step_ok (edit_key Right e) e (spec_key Right (doc e)).
Proof.
  intros Hd. destruct (doc_at_line e Hd) as (pre & line & post & c & Ha). pose proof (proj2 (at_line_doc _ _ _ _ _ Ha)) as Ed.
  pose proof Ha as (E & Hr & Hcol & Hc & H1 & H2 & H3). unfold edit_key, spec_key. cbv zeta. destruct (doc e) as [t p] eqn:Et.
  injection Ed as Ht ->. rewrite Ht at 2. replace t with (doc e).1 by by rewrite Et. rewrite Hr, Hcol.
  rewrite (lookup_line e pre line post) by done. cbn [mbind option_bind]. rewrite !length_app. case_decide as Hc0.
  - apply (move_step e pre line post); (done || lia).
  - replace (length (lines e)) with (length pre + S (length post))%nat by (rewrite E, length_app; done). destruct post as [|next post].
    + rewrite decide_False by (simpl; lia). cbn [tails mbind list_bind length]. replace (_, _) with (doc e); [by apply step_refl|].
      rewrite Et. f_equal. cbn. lia.
    + rewrite decide_True by (simpl; lia). apply (move_step e (pre ++ [line]) next post); try done; [by rewrite E, <- app_assoc|by rewrite length_app|lia|].
      rewrite tails_cons, heads_snoc, !length_app. cbn [length]. lia.
Qed.
Lemma up_step e : doc_ok e -> step_ok (edit_key Up e) e (spec_key Up (doc e)).
Proof.
  intros Hd. destruct (doc_at_line e Hd) as (pre & line & post & c & Ha). pose proof (proj2 (at_line_doc _ _ _ _ _ Ha)) as Ed.
  pose proof Ha as (E & Hr & Hcol & Hc & H1 & H2 & H3). unfold edit_key. cbv zeta. rewrite Hr, Hcol.
  rewrite Ed. cbn [spec_key]. rewrite line_before_len, Nat.add_sub by done. case_decide as Hr0.
  - destruct pre as [|prev pre _] using rev_ind; [simpl in Hr0; lia|]. apply Forall_app in H1 as [H1 [Hp _]%Forall_cons].
    rewrite length_app. cbn [length]. replace (length pre + 1 - 1)%nat with (length pre) by lia.
    assert (lines e = pre ++ prev :: line :: post) as E' by by rewrite E, <- app_assoc.
    rewrite (lookup_line e pre prev (line :: post)) by done. cbn [mbind option_bind].
    assert (heads (pre ++ [prev]) ++ line ++ tails post = heads pre ++ prev ++ tails (line :: post)) as ->.
    { by rewrite heads_snoc, tails_cons, <- !app_assoc. }
    rewrite heads_snoc, !length_app. cbn [length]. rewrite decide_False by lia.
    replace (length (heads pre) + (length prev + 1) - 1)%nat with (length (heads pre) + length prev)%nat by lia.
    rewrite line_before_len, Nat.add_sub by done.
    replace (heads pre ++ prev ++ tails (line :: post)) with (doc e).1 by (unfold doc; cbn [fst]; by rewrite E', join_zipper).
    apply (move_step e pre prev (line :: post)); (done || lia).
  - destruct pre; [|simpl in Hr0; lia]. rewrite decide_True by done. rewrite <- Ed. by apply step_refl.
Qed.
Lemma down_step e : doc_ok e -> step_ok (edit_key Down e) e (spec_key Down (doc e)).
Proof.
  intros Hd. destruct (doc_at_line e Hd) as (pre & line & post & c & Ha). pose proof (proj2 (at_line_doc _ _ _ _ _ Ha)) as Ed.
  pose proof Ha as (E & Hr & Hcol & Hc & H1 & H2 & H3). unfold edit_key. cbv zeta. rewrite Hr, Hcol.
  replace (length (lines e)) with (length pre + S (length post))%nat by (rewrite E, length_app; done).
  rewrite Ed. cbn [spec_key]. rewrite line_before_len, line_after_len by done.
  replace (_ + c + _)%nat with (length (heads pre) + length line)%nat by lia. rewrite !length_app. destruct post as [|next post].
  - rewrite decide_False, decide_True by (simpl; lia). rewrite <- Ed. by apply step_refl.
  - rewrite tails_cons. rewrite decide_True, decide_False by (simpl; lia). apply Forall_cons in H3 as [Hn H3].
    assert (lines e = (pre ++ [line]) ++ next :: post) as E' by by rewrite E, <- app_assoc.
    replace (length pre + 1)%nat with (length (pre ++ [line])) by by rewrite length_app.
    rewrite (lookup_line e (pre ++ [line]) next post) by done. cbn [mbind option_bind].
    assert (heads pre ++ line ++ 10 :: next ++ tails post = heads (pre ++ [line]) ++ next ++ tails post) as ->.
    { by rewrite heads_snoc, <- !app_assoc. }
    replace (length (heads pre) + length line + 1)%nat with (length (heads (pre ++ [line])) + 0)%nat
      by (rewrite heads_snoc, !length_app; simpl; lia).
    rewrite line_after_len, Nat.sub_0_r by (done || lia).
    replace (heads (pre ++ [line]) ++ next ++ tails post) with (doc e).1 by (unfold doc; cbn [fst]; by rewrite E', join_zipper).
    apply (move_step e (pre ++ [line]) next post); (done || lia).
Qed.
Lemma edit_key_refines e ev :
  doc_ok e -> ev <> Char 10 -> step_ok (edit_key ev e) e (spec_key ev (doc e)).
Proof.
  intros Hd Hev. destruct ev as [ch|c| | | | | | | | |]; try (by destruct (doc e) eqn:Ed; rewrite <- Ed; apply step_refl);
    [|by apply backspace_step|by apply enter_step| |by apply up_step|by apply down_step|by apply left_step|by apply right_step];
    destruct (doc_at_line e Hd) as (pre & line & post & c & Ha); pose proof Ha as (E & Hr & Hcol & _);
    unfold edit_key; cbv zeta; rewrite Hr at 1; rewrite (lookup_line e pre line post) by done; cbn [mbind option_bind].
  - subst c. destruct (doc e) eqn:Ed; cbn [spec_key]. rewrite <- Ed. apply (type_step [ch] e pre line post); [done|].
    constructor; [congruence|done].
  - subst c. destruct (doc e) eqn:Ed; cbn [spec_key]. rewrite <- Ed. apply (type_step (bytes_of "    ") e pre line post); [done|].
    by repeat constructor.
Qed.
