(* ===== verification/EditorFacts.v ===== *)
(** * What the editor shows and stores

    Any sequence of keys edits the document the way [spec_key] says and leaves
    the page on the screen, without a panic; a saved document is the one that is
    opened again. *)
From stdpp Require Import list_numbers.
From S2P Require Import Prelude Bytes Text Disk Rtc Fat FatChain FatDir FatFile Keyboard Font Gfx Draw PixelBuffer Terminal Console Editor.

Section page.
Variable fscale : Z.
Hypothesis Hscale : 1 <= fscale.
#[local] Hint Extern 0 (Surface Console) => exact (console_surface fscale) : typeclass_instances.

(** ** Drawing on a console *)
Definition same_place (c c' : Console) : Prop := same_style c c' /\ row c' = row c /\ col c' = col c.
Definition paints (c : Console) (f : picture) (c' : Console) : Prop :=
  console_ok fscale c' /\ same_place c c' /\
  forall i j, 0 <= i < cols c * gw fscale -> 0 <= j < rows c * gw fscale -> at_px fscale c' i j = f i j (at_px fscale c i j).
Lemma console_draws c (m : ST Console unit) f :
  console_ok fscale c -> (forall W H, @draws Console (console_surface fscale) (console_spec fscale c) W H m f) ->
  wp m (fun _ => paints c f) c.
Proof.
  intros Hc Hm. pose proof (console_pix_ok fscale Hscale c Hc) as Hok. pose proof Hc as (Hd & Hl & Hrc).
  destruct (console_dims fscale Hscale c Hd) as [Ew Eh].
  destruct (wp_elim _ _ _ (Hm (width_px fscale c) (height_px fscale c) c Hok eq_refl eq_refl)) as ([] & c' & E & Hc' & HW & HH & Hp).
  destruct Hc' as (_ & _ & _ & _ & _ & Hl' & Hset). cbn in Hl', HW, HH, Hp. rewrite Ew, Eh in *. rewrite HW, HH in Hl'.
  assert (exists b, c' = set_buffer b c) as [b ->].
  { exists (buffer c'). transitivity (set_buffer (buffer c') c'); [by destruct c'|exact (Hset (buffer c'))]. }
  eapply wp_intro; [exact E|]. split; [|split; [done|]].
  - split; [exact Hd|]. split; [cbn in *; lia|exact Hrc].
  - intros i j Hi Hj. specialize (Hp i j Hi Hj). unfold pix in Hp. cbn in Hp. rewrite HW, Ew in Hp. exact Hp.
Qed.
Lemma paints_trans c1 c2 c3 f g :
  paints c1 f c2 -> paints c2 g c3 -> paints c1 (fun i j p => g i j (f i j p)) c3.
Proof.
  intros (_ & (Hs & Hr & Hk) & Hp) (Hc3 & (Hs' & Hr' & Hk') & Hp'). split; [done|].
  split; [split; [by eapply same_style_trans|split; congruence]|].
  intros i j Hi Hj. destruct Hs as (Ec & Er & _). rewrite Hp' by (by rewrite ?Ec, ?Er). by rewrite Hp.
Qed.
(** A rectangle and a text on a console. *)
Lemma paints_rect c x y w h v :
  console_ok fscale c -> in_u 32 x -> in_u 32 y ->
  wp (fill_rect x y w h v) (fun _ => paints c (fun i j p => if in_rect x y w h i j then v else p)) c.
Proof. intros Hc Hx Hy. apply (console_draws c _ _ Hc). intros W H. by apply draws_fill_rect. Qed.
Lemma paints_string c x y text v :
  console_ok fscale c -> in_u 32 x -> in_u 32 y -> x + 8 * fscale * Z.of_nat (length text) < 2 ^ 32 ->
  y + 8 * fscale < 2 ^ 32 -> Forall (fun ch => 0 <= ch) text ->
  wp (draw_string fscale x y text v None) (fun _ => paints c (string_picture fscale x y text v None)) c.
Proof. intros Hc Hx Hy Hxs Hys Ht. apply (console_draws c _ _ Hc). intros W H. by apply draws_draw_string. Qed.

(** ** The page *)
Abbreviation write_in := (fun c => term_write (fun b : Z => b) (Z.to_nat (cols c)) (Z.to_nat (rows c)) true).
(** The terminal that was given the lines. *)
Definition page (cols rows : Z) (ls : list str) : term (C := Z) :=
  foldl (fun t l => term_write (fun b => b) (Z.to_nat cols) (Z.to_nat rows) true t (as_bytes l ++ [10]))
    (term_clear (fun b => b) (Z.to_nat cols) (Z.to_nat rows)) ls.
Lemma clear_shows c :
  console_ok fscale c ->
  wp Console.clear (fun _ c' => same_style c c' /\ shows fscale c' (term_clear (fun b => b) (Z.to_nat (cols c)) (Z.to_nat (rows c)))) c.
Proof.
  intros (Hd & Hl & _). unfold wp, Console.clear, modify. split; [done|].
  replace (length (buffer c)) with (Z.to_nat (cols c * gw fscale * (rows c * gw fscale))) by lia. by apply shows_fresh.
Qed.
Definition chars_ok (s : str) : Prop := Forall (fun c => is_scalar c = true) s.
Lemma as_bytes_nonneg s : chars_ok s -> Forall (fun b => 0 <= b) (as_bytes s).
Proof.
  intros H. apply Forall_bind. eapply Forall_impl; [exact H|]. intros c Hc.
  assert (0 <= c) by (apply orb_true_iff in Hc as [[?%Z.leb_le _]%andb_true_iff|[?%Z.leb_le _]%andb_true_iff]; lia).
  unfold compose, encode_char. repeat case_match; rewrite ?Forall_cons; split_and?; try done; zlia.
Qed.
Lemma write_line_shows c t l :
  shows fscale c t -> chars_ok l ->
  wp (write_line fscale l) (fun _ c' => same_style c c' /\ shows fscale c' (write_in c t (as_bytes l ++ [10]))) c.
Proof.
  intros Hs Hl. unfold write_line. wp_step. eapply wp_conseq; [apply write_str_shows; [done|done|by apply as_bytes_nonneg]|].
  intros [] c1 [Hst Hs1]. eapply wp_conseq; [apply write_str_shows; [done|exact Hs1|by repeat constructor]|].
  intros [] c2 [Hst2 Hs2]. split; [by eapply same_style_trans|]. unfold term_write in *. rewrite foldl_app.
  destruct Hst as (Ec & Er & _). by rewrite Ec, Er in Hs2.
Qed.
Lemma write_lines_shows c t ls :
  shows fscale c t -> Forall chars_ok ls ->
  wp (for_in ls (write_line fscale)) (fun _ c' => same_style c c' /\ shows fscale c' (foldl (fun t l => write_in c t (as_bytes l ++ [10])) t ls)) c.
Proof.
  intros Hs Hls. revert c t Hs. induction Hls as [|l ls Hl _ IH]; intros c t Hs; [by apply wp_ret|].
  cbn [for_in foldl]. wp_step. eapply wp_conseq; [by apply write_line_shows|]. intros [] c1 [Hst Hs1].
  eapply wp_conseq; [by apply IH|]. intros [] c2 [Hst2 Hs2]. split; [by eapply same_style_trans|].
  destruct Hst as (Ec & Er & _). by rewrite Ec, Er in Hs2.
Qed.

Definition doc_rows (c : Console) : nat := (Z.to_nat (rows c) - 1)%nat.
(** The pixels of a rendered editor: the page, the status bar with its text, and
    the cursor's block. *)
Definition screen (e : Editor) (i j : Z) : Z :=
  let c := console e in
  let sy := Z.of_nat (doc_rows c) * gw fscale in
  let shown := page (cols c) (rows c) (take (doc_rows c) (drop (scroll_offset e) (lines e))) in
  let p := look fscale (fg c) (bg c) (Terminal.lines shown) i j in
  let p := if in_rect 0 sy (cols c * gw fscale) (gw fscale) i j then EDITOR_STATUS_BG else p in
  let p := string_picture fscale (gw fscale) sy (as_bytes (status e)) EDITOR_STATUS_FG None i j p in
  let visible := Nat.min (cursor_row e - scroll_offset e) (doc_rows c - 1) in
  if in_rect (u32 (Z.of_nat (cursor_col e) * gw fscale)) (Z.of_nat visible * gw fscale) (gw fscale) (gw fscale) i j
  then EDITOR_CURSOR_COLOR else p.
Definition rendered (e : Editor) : Prop :=
  (forall i j, 0 <= i < cols (console e) * gw fscale -> 0 <= j < rows (console e) * gw fscale ->
    at_px fscale (console e) i j = screen e i j) /\
  (1 < rows (console e) -> (scroll_offset e <= cursor_row e < scroll_offset e + doc_rows (console e))%nat).
Definition page_ok (e : Editor) : Prop :=
  console_ok fscale (console e) /\ Forall chars_ok (lines e) /\ chars_ok (status e) /\
  gw fscale * (Z.of_nat (length (as_bytes (status e))) + 1) < 2 ^ 32.
(** Rendering changes the pixels and the scroll offset only. *)
Definition same_doc (e e' : Editor) : Prop :=
  lines e' = lines e /\ cursor_row e' = cursor_row e /\ cursor_col e' = cursor_col e /\ status e' = status e /\
  path e' = path e /\ same_style (console e) (console e').

Lemma scrolled_ok n row scroll : (0 < n)%nat -> (scrolled n row scroll <= row < scrolled n row scroll + n)%nat.
Proof. unfold scrolled. intros. repeat case_decide; lia. Qed.
Lemma wp_on_console (m : ST Console unit) (Q : Editor -> Prop) e :
  wp m (fun _ c => Q (mk_editor c (lines e) (cursor_row e) (cursor_col e) (scroll_offset e) (status e) (path e))) (console e) ->
  wp (on_console m) (fun _ => Q) e.
Proof. unfold wp, on_console. destruct (m (console e)) as [[] c|]; done. Qed.
Lemma editor_render_spec e :
  page_ok e -> wp (editor_render fscale) (fun _ e' => page_ok e' /\ rendered e' /\ same_doc e e') e.
Proof.
  intros (Hc & Hls & Hst & Hlen). unfold editor_render. apply wp_get. cbv zeta. wp_step. unfold wp at 1, put_st.
  fold (doc_rows (console e)). set (sc := scrolled _ _ _). apply wp_on_console. cbn [console lines cursor_row cursor_col scroll_offset status path].
  pose proof Hc as (Hd & _). pose proof (dims_bounds fscale Hscale _ _ Hd) as [Hbw Hbh]. pose proof (gw_pos fscale Hscale) as Hg.
  destruct (console_dims fscale Hscale _ Hd) as [Ew _]. pose proof Hd as (Hcp & Hrp & _).
  assert (0 <= Z.of_nat (doc_rows (console e)) * gw fscale /\ (Z.of_nat (doc_rows (console e)) + 1) * gw fscale < 2 ^ 32) as [Hs1 Hs2].
  { unfold doc_rows. replace (Z.of_nat (Z.to_nat (rows (console e)) - 1)) with (rows (console e) - 1) by lia. nia. }
  assert (gw fscale < 2 ^ 32) by nia.
  wp_step. eapply wp_conseq; [by apply clear_shows|]. intros [] c1 [Hst1 Hsh1].
  wp_step. eapply wp_conseq; [apply write_lines_shows; [exact Hsh1|by apply Forall_take, Forall_drop]|].
  intros [] c2 [Hst2 Hsh2]. pose proof (same_style_trans _ _ _ Hst1 Hst2) as Hst12. apply wp_get.
  unfold glyph_w, glyph_h, GLYPH_WIDTH, GLYPH_HEIGHT. fold (gw fscale).
  rewrite !(wrap_small 32 (gw fscale)), (wrap_small 32 (Z.of_nat (doc_rows (console e)) * gw fscale)) by (unfold in_u; lia).
  pose proof Hst12 as (Ec & Er & Ef & Eb). pose proof Hsh2 as (Hc2 & _ & _ & _ & Hp2).
  destruct (console_dims fscale Hscale c2 (proj1 Hc2)) as [Ew2 _]. rewrite Ew2, Ec.
  wp_step. eapply wp_conseq; [apply paints_rect; unfold in_u; (done || lia)|]. intros [] c3 P3.
  wp_step. eapply wp_conseq; [apply paints_string; [apply P3|unfold in_u; fold (gw fscale); lia..|by apply as_bytes_nonneg]|]. intros [] c4 P4.
  pose proof (wrap_bound 32 (Z.of_nat (cursor_col e) * gw fscale) ltac:(lia)) as Hcx.
  set (visible := Nat.min _ _). assert (0 <= Z.of_nat visible * gw fscale < 2 ^ 32).
  { assert (Z.of_nat visible <= Z.of_nat (doc_rows (console e))) by (unfold visible; lia). nia. }
  rewrite (wrap_small 32 (Z.of_nat visible * _)) by (unfold in_u; lia).
  eapply wp_conseq; [apply paints_rect; [apply P4|unfold in_u in *; lia..]|]. intros [] c5 P5.
  pose proof (paints_trans _ _ _ _ _ (paints_trans _ _ _ _ _ P3 P4) P5) as (Hc5 & (Hst5 & _) & Hp5).
  pose proof (same_style_trans _ _ _ Hst12 Hst5) as Hst15. pose proof Hst15 as (Ec5 & Er5 & Ef5 & Eb5).
  split; [by split_and!|]. split; [|by split_and!]. unfold rendered. cbn [console scroll_offset cursor_row]. rewrite Ec5, Er5. split.
  - intros i j Hi Hj. rewrite Hp5, Hp2 by (by rewrite ?Ec, ?Er). unfold screen, doc_rows. cbn [console scroll_offset cursor_row cursor_col status lines].
    destruct Hst1 as (Ec1 & Er1 & _). rewrite Ec5, Er5, Ef5, Eb5, Ef, Eb, Ec1, Er1. done.
  - intros Hr1. unfold doc_rows at 1. rewrite Er5. apply scrolled_ok. unfold doc_rows. lia.
Qed.

(** ** The keys that edit *)
Definition plain (ev : Event) : Prop :=
  match ev with
  | Char c => is_scalar c = true /\ c <> 10
  | Ctrl c => c <> 115 /\ c <> 111
  | _ => True
  end.
Lemma chars_text ls : chars_ok (join_lines ls) <-> Forall chars_ok ls.
Proof.
  unfold chars_ok. destruct ls as [|l ls]; [done|]. rewrite join_cons, Forall_app, Forall_cons. f_equiv.
  induction ls as [|l' ls IH]; [done|]. rewrite tails_cons, Forall_cons, Forall_app, Forall_cons, IH. tauto.
Qed.
Lemma type_in_chars s d : chars_ok s -> chars_ok d.1 -> chars_ok (type_in s d).1.
Proof. intros Hs Hd. unfold type_in. cbn [fst]. apply Forall_app. split; [by apply Forall_take|]. apply Forall_app. split; [done|by apply Forall_drop]. Qed.
Lemma spec_key_chars ev d : plain ev -> chars_ok d.1 -> chars_ok (spec_key ev d).1.
Proof.
  destruct d as [t p]. intros Hev Ht. destruct ev; cbn [spec_key]; try done; try (apply type_in_chars; [|done]).
  - destruct Hev. by repeat constructor.
  - apply Forall_app. split; [by apply Forall_take|by apply Forall_drop].
  - by repeat constructor.
  - by repeat constructor.
  - case_decide; done.
  - case_decide; done.
Qed.
Context {D : Type} `{BlockDevice D} (rtc_now : D -> DateTime).
Lemma handle_edit v e ev :
  doc_ok e -> page_ok e -> plain ev ->
  wp (editor_handle_key fscale rtc_now ev) (fun _ '(v', e') =>
    v' = v /\ doc_ok e' /\ page_ok e' /\ rendered e' /\ doc e' = spec_key ev (doc e) /\ path e' = path e) (v, e).
Proof.
  intros Hd (Hc & Hls & Hst & Hlen) Hev. assert (ev <> Char 10) as Hn by (intros ->; by destruct Hev).
  destruct (edit_key_refines e ev Hd Hn) as (e1 & E & Hd1 & Ed & Ec & Es & Est & Ep).
  assert (page_ok e1) as Hp1.
  { unfold page_ok. rewrite Ec, Est. split_and!; try done. apply chars_text. change (chars_ok (doc e1).1). rewrite Ed.
    by apply spec_key_chars, chars_text. }
  unfold editor_handle_key. rewrite decide_False by (intros ->; by destruct Hev). rewrite decide_False by (intros ->; by destruct Hev).
  unfold wp, mbind, st_bind, lift_editor. rewrite E.
  destruct (wp_elim _ _ _ (editor_render_spec e1 Hp1)) as ([] & e2 & -> & Hp2 & Hr2 & El & Er & Ek & Est2 & Ep2 & _).
  assert (doc e2 = doc e1 /\ (doc_ok e1 -> doc_ok e2)) as [Ed2 Hd2] by (unfold doc, doc_ok; by rewrite El, Er, Ek).
  split_and!; try done; [by apply Hd2|by rewrite Ed2|congruence].
Qed.
Lemma handle_edits keys : forall v e,
  doc_ok e -> page_ok e -> Forall plain keys ->
  exists e', for_in keys (editor_handle_key fscale rtc_now) (v, e) = Ret tt (v, e') /\ doc_ok e' /\ page_ok e' /\
    doc e' = foldl (fun d ev => spec_key ev d) (doc e) keys /\ path e' = path e /\ (keys <> [] -> rendered e').
Proof.
  induction keys as [|ev keys IH]; intros v e Hd Hp Hk; [by exists e|]. apply Forall_cons in Hk as [Hev Hk].
  destruct (wp_elim _ _ _ (handle_edit v e ev Hd Hp Hev)) as ([] & [v1 e1] & E & -> & Hd1 & Hp1 & Hr1 & Ed1 & Ep1).
  destruct (IH v e1 Hd1 Hp1 Hk) as (e2 & E2 & Hd2 & Hp2 & Ed2 & Ep2 & Hr2). exists e2. cbn [for_in foldl]. unfold mbind, st_bind.
  rewrite E, <- Ed1. split_and!; try done; [congruence|]. intros _. destruct keys as [|k keys]; [|by apply Hr2].
  injection E2 as <-. done.
Qed.

(** ** Saving and opening *)
Lemma as_bytes_app a b : as_bytes (a ++ b) = as_bytes a ++ as_bytes b.
Proof. apply bind_app. Qed.
Lemma as_bytes_length a : (length (as_bytes a) <= 4 * length a)%nat.
Proof.
  induction a as [|c a IH]; [done|]. unfold as_bytes in *. cbn [mbind list_bind]. rewrite length_app.
  assert (length (encode_char c) <= 4)%nat by (unfold encode_char; repeat case_match; simpl; lia). simpl. lia.
Qed.
Definition path_ok (e : Editor) : Prop :=
  chars_ok (save_path e) /\ gw fscale * (Z.of_nat (length (as_bytes (save_path e))) + 300) < 2 ^ 32.
Lemma number_chars v : chars_ok (uint_to_string v) /\ (length (uint_to_string v) <= 40)%nat.
Proof.
  split.
  - eapply Forall_impl; [apply uint_to_string_digits|]. intros c Hc. unfold is_ascii_digit in Hc. unfold is_scalar. lia.
  - unfold uint_to_string. rewrite length_rev. apply digits_rev_length.
Qed.
Lemma chars_app a b : chars_ok a -> chars_ok b -> chars_ok (a ++ b).
Proof. intros. by apply Forall_app. Qed.
Lemma chars_lit s : forallb is_scalar s = true -> chars_ok s.
Proof. intros Hs. apply List.Forall_forall. by apply List.forallb_forall. Qed.
(** A message: short text around the path. *)
Lemma message_ok e (a b : str) :
  path_ok e -> chars_ok a -> chars_ok b -> (length a + length b <= 74)%nat ->
  chars_ok (a ++ save_path e ++ b) /\ gw fscale * (Z.of_nat (length (as_bytes (a ++ save_path e ++ b))) + 1) < 2 ^ 32.
Proof.
  intros [Hc Hl] Ha Hb Hn. split; [by repeat apply Forall_app_2|]. pose proof (gw_pos fscale Hscale).
  rewrite !as_bytes_app, !length_app. pose proof (as_bytes_length a). pose proof (as_bytes_length b). nia.
Qed.
Lemma save_key v v' e :
  doc_ok e -> page_ok e -> path_ok e ->
  write_file rtc_now (save_path e) (as_bytes (saved_text (lines e))) v = Ret (Ok tt) v' ->
  wp (editor_handle_key fscale rtc_now (Ctrl 115)) (fun _ '(v1, e1) =>
    v1 = v' /\ doc_ok e1 /\ page_ok e1 /\ rendered e1 /\ lines e1 = lines e /\ path e1 = path e) (v, e).
Proof.
  intros Hd (Hc & Hls & _) Hpath Hw. unfold editor_handle_key. rewrite decide_True by done. unfold wp, mbind, st_bind, save. rewrite Hw.
  set (e1 := set_status _ e). assert (page_ok e1) as Hp1.
  { split; [done|]. split; [done|]. cbn [e1 status set_status]. destruct (number_chars (len_utf8 (saved_text (lines e)))) as [Hn Hl].
    rewrite (app_assoc (uint_to_string _)), (app_assoc (bytes_of "saved ")). rewrite <- (app_nil_r (_ ++ save_path e)), <- app_assoc.
    apply (message_ok e _ []); [done| |by apply chars_lit|rewrite !length_app; simpl in *; lia].
    apply chars_app; [by apply chars_lit|]. apply chars_app; [done|by apply chars_lit]. }
  unfold lift_editor. destruct (wp_elim _ _ _ (editor_render_spec e1 Hp1)) as ([] & e2 & -> & Hp2 & Hr2 & El & Er & Ek & _ & Ep & _).
  split_and!; try done. unfold doc_ok. by rewrite El, Er, Ek.
Qed.
Lemma split_on_chars p s : chars_ok s -> Forall chars_ok (split_on p s).
Proof.
  unfold chars_ok. induction 1 as [|c s Hc _ IH]; cbn [split_on]; [by repeat constructor|].
  destruct (p c); [constructor; [constructor|exact IH]|]. destruct (split_on p s) as [|w ws]; [by repeat constructor|].
  apply Forall_cons in IH as [Hw Hws]. constructor; [by constructor|exact Hws].
Qed.
Lemma split_lines_chars s : chars_ok s -> Forall chars_ok (split_lines s).
Proof.
  intros Hs. unfold split_lines. pose proof (split_on_chars (Z.eqb 10) s Hs) as Hf. case_match; [|done].
  destruct (split_on (Z.eqb 10) s) as [|l ls _] using rev_ind; [done|]. rewrite removelast_last. by apply Forall_app in Hf as [? _].
Qed.
Lemma split_heads ls : Forall newline_free ls -> split_lines (heads ls) = ls.
Proof.
  intros Hls. assert (split_on (Z.eqb 10) (heads ls) = ls ++ [[]]) as E.
  { induction Hls as [|l ls Hl _ IH]; [done|]. unfold heads in *. cbn [mbind list_bind]. rewrite <- app_assoc. cbn [app].
    rewrite split_on_app_sep; [by rewrite IH| |done]. eapply Forall_impl; [exact Hl|]. intros c Hc. cbv beta in *. lia. }
  unfold split_lines. rewrite E, last_snoc, bool_decide_true by done. apply removelast_last.
Qed.
Lemma saved_heads ls : join_lines ls <> [] -> saved_text ls = heads ls.
Proof.
  intros Hn. unfold saved_text. destruct (join_lines ls) as [|c t] eqn:E; [done|]. cbn [nonempty]. rewrite <- E.
  destruct ls as [|l ls _] using rev_ind; [done|]. by rewrite join_zipper, heads_snoc, app_nil_r, <- app_assoc.
Qed.
Lemma open_key v v' e data text :
  page_ok e -> path_ok e -> read_file (save_path e) v = Ret (Ok data) v' -> default [] (from_utf8 data) = text -> chars_ok text ->
  wp (editor_handle_key fscale rtc_now (Ctrl 111)) (fun _ '(v1, e1) =>
    v1 = v' /\ page_ok e1 /\ rendered e1 /\ lines e1 = split_lines text /\ cursor_row e1 = O /\ cursor_col e1 = O /\
    path e1 = path e) (v, e).
Proof.
  intros (Hc & _) Hpath Hr Ht Hchars. unfold editor_handle_key. rewrite decide_False, decide_True by done.
  unfold wp, mbind, st_bind, open_file. rewrite Hr, Ht. set (e1 := set_status _ _). assert (page_ok e1) as Hp1.
  { split; [done|]. split; [by apply split_lines_chars|]. destruct (number_chars (Z.of_nat (length data))) as [Hn Hl].
    apply (message_ok e (bytes_of "opened ")); [done|by apply chars_lit| |rewrite !length_app; simpl in *; lia].
    apply chars_app; [by apply chars_lit|]. apply chars_app; [done|by apply chars_lit]. }
  unfold lift_editor. destruct (wp_elim _ _ _ (editor_render_spec e1 Hp1)) as ([] & e2 & -> & Hp2 & Hr2 & El & Er & Ek & _ & Ep & _).
  split_and!; done.
Qed.
End page.

(** C29: The editor edits a text.  From any document with its cursor in it, any
    sequence of keys (typing, Backspace, Enter, Tab, the arrows, unbound keys)
    is handled without a panic and leaves the text and the cursor position that
    the flat specification [spec_key] gives: insertion at the position, deletion
    in front of it, one character left or right, the same column of the line
    above or below.  The screen then shows exactly the page of the document
    around the cursor, the status bar and the cursor's block, and the cursor's
    line is on the page. *)
Theorem editing_refines {D} `{BlockDevice D} (rtc_now : D -> DateTime) fscale keys v e :
  1 <= fscale -> doc_ok e -> page_ok fscale e -> Forall plain keys ->
  exists e', for_in keys (editor_handle_key fscale rtc_now) (v, e) = Ret tt (v, e') /\
    doc_ok e' /\ doc e' = foldl (fun d ev => spec_key ev d) (doc e) keys /\
    (keys <> [] -> rendered fscale e').
Proof.
  intros Hs Hd Hp Hk. destruct (handle_edits fscale Hs rtc_now keys v e Hd Hp Hk) as (e' & E & Hd' & _ & Ed & _ & Hr).
  by exists e'.
Qed.

(** A saved document is the one that is opened.  Ctrl+S in an editor on a
    file of the root directory, with any document but a single empty line,
    writes the file and keeps the document; Ctrl+O in any editor on that file,
    also on a volume mounted again from the disk, then shows that document with
    the cursor at its start. *)
Theorem save_open_roundtrip {D} `{BlockDevice D} (rtc_now : D -> DateTime) fscale s e n pcs1 c pcs2 j :
  1 <= fscale -> doc_ok e -> page_ok fscale e -> path_ok fscale e -> join_lines (lines e) <> [] ->
  can_write s (save_path e) n (as_bytes (saved_text (lines e))) pcs1 c pcs2 j ->
  exists s' e1, editor_handle_key fscale rtc_now (Ctrl 115) (Some s, e) = Ret tt (Some s', e1) /\ lines e1 = lines e /\
    forall s'' e2, s'' = s' \/ described s /\ mount (Some (device s')) None = Ret (Ok tt) (Some s'') ->
      path e2 = path e -> page_ok fscale e2 ->
      exists e3, editor_handle_key fscale rtc_now (Ctrl 111) (Some s'', e2) = Ret tt (Some s'', e3) /\
        lines e3 = lines e /\ cursor_row e3 = O /\ cursor_col e3 = O /\ rendered fscale e3.
Proof.
  intros Hs Hd Hp Hpath Hn Hcan. destruct (write_read_back rtc_now s _ n _ _ _ _ _ Hcan) as (s' & Ew & Er).
  destruct (wp_elim _ _ _ (save_key fscale Hs rtc_now _ _ e Hd Hp Hpath Ew)) as ([] & [v1 e1] & E & -> & _ & _ & _ & El & _).
  exists s', e1. split; [exact E|]. split; [done|]. intros s'' e2 Hs'' Ep Hp2.
  assert (save_path e2 = save_path e) as Esp by (unfold save_path; by rewrite Ep).
  assert (path_ok fscale e2) as Hpath2 by (unfold path_ok; by rewrite Esp).
  assert (chars_ok (saved_text (lines e))) as Hch.
  { destruct Hp as (_ & Hls & _). apply chars_text in Hls. unfold saved_text. case_match; [|done]. apply chars_app; [done|by repeat constructor]. }
  assert (split_lines (saved_text (lines e)) = lines e) as Esplit by (rewrite saved_heads by done; apply split_heads, Hd).
  destruct (wp_elim _ _ _ (open_key fscale Hs rtc_now (Some s'') (Some s'') e2 _ (saved_text (lines e)) Hp2 Hpath2
    ltac:(rewrite Esp; by apply Er) ltac:(by rewrite from_utf8_encode) Hch)) as ([] & [v3 e3] & E3 & -> & _ & Hr3 & El3 & Erow & Ecol & _).
  exists e3. split_and!; try done. by rewrite El3.
Qed.
Definition sample_editor : Editor :=
  mk_editor (Console.new 1 20 4 0xD0D0D0 0x1E1E1E) [bytes_of "hello"; []; bytes_of "world"] 0 3 0 [] (bytes_of "/notes.txt").
Lemma sample_console_ok : console_ok 1 (console sample_editor).
Proof. unfold console_ok, dims_ok, gw. cbn [console sample_editor Console.new cols rows row col buffer]. rewrite length_replicate. by vm_compute. Qed.
Lemma sample_page_ok : page_ok 1 sample_editor.
Proof. split; [apply sample_console_ok|]. split; [repeat (constructor; [by apply chars_lit|]); constructor|]. split; [by apply chars_lit|done]. Qed.
Lemma sample_doc_ok : doc_ok sample_editor.
Proof. split; [repeat constructor; done|]. eexists. split; [reflexivity|]. simpl. lia. Qed.
Example editing_refines_witness :
  exists e', for_in [Down; Char 33; Backspace; Up; Right; Enter; Right; Tab; Down; Left; Left] (editor_handle_key 1 sample_now) (None, sample_editor) = Ret tt (None, e') /\
    doc e' = (bytes_of "h" ++ [10] ++ bytes_of "e    llo" ++ [10; 10] ++ bytes_of "world", 9%nat).
Proof.
  destruct (editing_refines (D := RamDisk) sample_now 1 [Down; Char 33; Backspace; Up; Right; Enter; Right; Tab; Down; Left; Left] None sample_editor)
    as (e' & E & _ & Ed & _).
  - lia.
  - apply sample_doc_ok.
  - apply sample_page_ok.
  - repeat constructor; done.
  - exists e'. split; [exact E|]. rewrite Ed. vm_compute. reflexivity.
Defined.
Example save_open_roundtrip_witness :
  exists s' e1 e3, editor_handle_key 1 sample_now (Ctrl 115) (Some sample_volume, sample_editor) = Ret tt (Some s', e1) /\
    editor_handle_key 1 sample_now (Ctrl 111) (Some s', sample_editor) = Ret tt (Some s', e3) /\ lines e3 = lines sample_editor.
Proof.
  destruct (save_open_roundtrip sample_now 1 sample_volume sample_editor sample_name [] 2 [] 0) as (s' & e1 & E1 & _ & Ho).
  - lia.
  - apply sample_doc_ok.
  - apply sample_page_ok.
  - split; [by apply chars_lit|]. by vm_compute.
  - vm_compute. discriminate.
  - apply sample_can_write; [repeat constructor; by vm_compute|vm_compute; intros E; discriminate E].
  - destruct (Ho s' sample_editor) as (e3 & E3 & El & _); [by left|reflexivity|apply sample_page_ok|].
    exists s', e1, e3. split; [exact E1|]. split; [exact E3|exact El].
Defined.

(** Saving an empty document and opening it again brings the kernel down at
    the next key: the file is empty, Ctrl+O takes it for a document without a
    line, and typing, Enter, Tab and the right arrow index that missing line. *)
Theorem empty_document_panics {D} `{BlockDevice D} (rtc_now : D -> DateTime) fscale s e n pcs1 c pcs2 j :
  1 <= fscale -> doc_ok e -> page_ok fscale e -> path_ok fscale e -> lines e = [[]] ->
  can_write s (save_path e) n [] pcs1 c pcs2 j ->
  exists s' e1 e2, editor_handle_key fscale rtc_now (Ctrl 115) (Some s, e) = Ret tt (Some s', e1) /\
    editor_handle_key fscale rtc_now (Ctrl 111) (Some s', e1) = Ret tt (Some s', e2) /\ lines e2 = [] /\
    forall ev, ev ∈ [Enter; Tab; Right] \/ (exists ch, ev = Char ch) ->
      editor_handle_key fscale rtc_now ev (Some s', e2) = Panic.
Proof.
  intros Hs Hd Hp Hpath Hl Hcan. destruct (write_read_back rtc_now s _ n _ _ _ _ _ Hcan) as (s' & Ew & Er).
  assert (as_bytes (saved_text (lines e)) = []) as E0 by by rewrite Hl. rewrite <- E0 in Ew.
  destruct (wp_elim _ _ _ (save_key fscale Hs rtc_now _ _ e Hd Hp Hpath Ew)) as ([] & [v1 e1] & E & -> & _ & Hp1 & _ & El & Ep).
  assert (save_path e1 = save_path e) as Esp by (unfold save_path; by rewrite Ep).
  assert (path_ok fscale e1) as Hpath1 by (unfold path_ok; by rewrite Esp).
  destruct (wp_elim _ _ _ (open_key fscale Hs rtc_now (Some s') (Some s') e1 [] [] Hp1 Hpath1
    ltac:(rewrite Esp; apply Er; by left) eq_refl ltac:(by apply chars_lit))) as ([] & [v3 e3] & E3 & -> & _ & _ & El3 & _).
  change (split_lines []) with (@nil str) in El3. exists s', e1, e3. split_and!; try done. intros ev Hev.
  assert (edit_key ev e3 = None) as Hk.
  { destruct Hev as [Hin|[ch ->]]; [|unfold edit_key; by rewrite El3].
    rewrite !elem_of_cons, elem_of_nil in Hin. unfold edit_key. destruct Hin as [->|[->|[->|[]]]]; by rewrite El3. }
  unfold editor_handle_key. assert (ev <> Ctrl 115 /\ ev <> Ctrl 111) as [? ?].
  { split; intros ->; destruct Hev as [Hin|[ch [=]]]; rewrite !elem_of_cons, elem_of_nil in Hin; naive_solver. }
  rewrite !decide_False by done. unfold mbind, st_bind, lift_editor. by rewrite Hk.
Qed.
Example empty_document_panics_witness :
  exists s' e1 e2, editor_handle_key 1 sample_now (Ctrl 115) (Some sample_volume, set_doc [[]] 0 0 sample_editor) = Ret tt (Some s', e1) /\
    editor_handle_key 1 sample_now (Ctrl 111) (Some s', e1) = Ret tt (Some s', e2) /\
    editor_handle_key 1 sample_now (Char 97) (Some s', e2) = Panic.
Proof.
  destruct (empty_document_panics sample_now 1 sample_volume (set_doc [[]] 0 0 sample_editor) sample_name [] 2 [] 0)
    as (s' & e1 & e2 & E1 & E2 & _ & Hk).
  - lia.
  - split; [repeat constructor; done|]. exists []. split; [reflexivity|simpl; lia].
  - split; [apply sample_console_ok|]. split; [repeat constructor|]. split; [by apply chars_lit|done].
  - split; [by apply chars_lit|]. by vm_compute.
  - reflexivity.
  - apply sample_can_write; [constructor|simpl; lia].
  - exists s', e1, e2. split; [exact E1|]. split; [exact E2|]. apply Hk. right. by exists 97.
Defined.
