(* ===== verification/LineEdit.v ===== *)
(** * The command line, [shell.rs]

    Paths and their resolution against the working directory, splitting a line
    into arguments, and the line editor of the terminal windows: what it prints
    is what turns the line on the screen into the line it keeps. *)
From S2P Require Import Prelude Text Keyboard Disk Rtc Fat Session.

(** ** Strings *)
Definition BANNER : str := bytes_of "MachaOS v0.1.0".
Definition PROMPT : str := bytes_of "machaos> ".
(** [parts.join(sep)] *)
Fixpoint join (sep : str) (parts : list str) : str :=
  match parts with
  | [] => []
  | [p] => p
  | p :: ps => p ++ sep ++ join sep ps
  end.
Definition starts_with (prefix s : str) : bool := bool_decide (take (length prefix) s = prefix).

(** ** Paths *)
(** [cwd], of the stored directory. *)
Definition cwd (stored : str) : str := if nonempty stored then stored else home.
Definition prompt (stored : str) : str :=
  let dir := cwd stored in
  if decide (dir = bytes_of "/") then PROMPT else bytes_of "machaos:" ++ dir ++ bytes_of "> ".
(** One component of a path. *)
Definition normalize_step (parts : list str) (component : str) : list str :=
  if decide (component = [] \/ component = bytes_of ".") then parts
  else if decide (component = bytes_of "..") then removelast parts
  else parts ++ [component].
Definition normalize_path (path : str) : str :=
  let parts := foldl normalize_step [] (split_on (Z.eqb 47) path) in
  bytes_of "/" ++ join (bytes_of "/") parts.
(** A [~] in front is the home directory. *)
Definition expand_home (path : str) : str :=
  match path with
  | 126 :: rest => if negb (nonempty rest) || bool_decide (head rest = Some 47) then home ++ rest else path
  | _ => path
  end.
Definition abs_path (stored path : str) : str :=
  let expanded := expand_home path in
  if bool_decide (head expanded = Some 47) then normalize_path expanded
  else normalize_path (cwd stored ++ bytes_of "/" ++ expanded).

(** ** Arguments *)
Record lexer := mk_lexer { tokens : list str; current : str; in_quotes : bool }.
Definition push_token (l : lexer) : lexer :=
  if nonempty (current l) then mk_lexer (tokens l ++ [current l]) [] (in_quotes l) else l.
Definition lex_char (l : lexer) (c : Z) : lexer :=
  if c =? 34 then mk_lexer (tokens l) (current l) (negb (in_quotes l))
  else if is_whitespace c && negb (in_quotes l) then push_token l
  else mk_lexer (tokens l) (current l ++ [c]) (in_quotes l).
Definition tokenize (line : str) : list str := tokens (push_token (foldl lex_char (mk_lexer [] [] false) line)).

Definition COMMANDS : list str := bytes_of <$>
  ["help"; "clear"; "cls"; "echo"; "time"; "date"; "uptime"; "meminfo"; "heap"; "cpuinfo";
   "version"; "ver"; "reboot"; "shutdown"; "crash"; "breakpoint"; "fault"; "panic"; "mousetest";
   "tasks"; "ls"; "cat"; "fatinfo"; "write"; "mkdir"; "rm"; "mv"; "run"; "runlinux"]%string.

(** ** The line editor *)
Definition HISTORY_CAPACITY : nat := 32.
Record LineEditor := mk_line_editor {
  line : str; history : list str; history_index : option nat; draft : str }.
Inductive Feed := Pending | Line (l : str).
Definition new : LineEditor := mk_line_editor [] [] None [].
Definition current_line (ed : LineEditor) : str := line ed.
Definition with_line (l : str) (ed : LineEditor) : LineEditor := mk_line_editor l (history ed) (history_index ed) (draft ed).
Definition with_index (i : option nat) (ed : LineEditor) : LineEditor := mk_line_editor (line ed) (history ed) i (draft ed).

(** An editor and everything printed. *)
Definition LE : Type -> Type := ST (LineEditor * str).
Definition print (s : str) : LE unit := modify (fun '(ed, out) => (ed, out ++ s)).
Definition println (s : str) : LE unit := print (s ++ [10]).
Definition editor : LE LineEditor := fun st => Ret st.1 st.
Definition edit (f : LineEditor -> LineEditor) : LE unit := modify (fun '(ed, out) => (f ed, out)).

Definition set_line (new_line : str) : LE unit :=
  ed ← editor;
  print (replicate (length (line ed)) 8);;
  edit (with_line new_line);;
  print new_line.
Definition history_up : LE unit :=
  ed ← editor;
  if negb (bool_decide (0 < length (history ed))%nat) then mret tt
  else
    next ← match history_index ed with
           | None => edit (fun ed => mk_line_editor (line ed) (history ed) (history_index ed) (line ed));;
                     mret (length (history ed) - 1)%nat
           | Some i => mret (i - 1)%nat
           end;
    edit (with_index (Some next));;
    entry ← unwrap (history ed !! next);
    set_line entry.
Definition history_down : LE unit :=
  ed ← editor;
  match history_index ed with
  | Some i =>
      if decide (i + 1 < length (history ed))%nat then
        edit (with_index (Some (i + 1)%nat));;
        entry ← unwrap (history ed !! (i + 1)%nat);
        set_line entry
      else
        edit (fun ed => mk_line_editor (line ed) (history ed) None []);;
        set_line (draft ed)
  | None => mret tt
  end.
Definition complete (prompt : str) : LE unit :=
  ed ← editor;
  if negb (nonempty (line ed)) || bool_decide (32 ∈ line ed) then mret tt
  else
    match filter (fun c => starts_with (line ed) c = true) COMMANDS with
    | [] => mret tt
    | [only] =>
        let completion := drop (length (as_bytes (line ed))) only in
        edit (with_line (line ed ++ completion));;
        print completion
    | multiple =>
        println [];;
        println (join (bytes_of "  ") multiple);;
        print (prompt ++ line ed)
    end.
(** What Enter does to the history. *)
Definition remember (l : str) (h : list str) : list str :=
  if nonempty l && negb (bool_decide (last h = Some l)) then
    (if decide (HISTORY_CAPACITY <= length h)%nat then tail h else h) ++ [l]
  else h.
Definition feed (prompt : str) (ev : Event) : LE Feed :=
  match ev with
  | Char c =>
      ed ← editor;
      (if len_utf8 (line ed) <? 256 then edit (with_line (line ed ++ [c]));; print [c] else mret tt);;
      edit (with_index None);;
      mret Pending
  | Backspace =>
      ed ← editor;
      (if nonempty (line ed) then edit (with_line (removelast (line ed)));; print [8] else mret tt);;
      edit (with_index None);;
      mret Pending
  | Enter =>
      println [];;
      ed ← editor;
      edit (fun ed => mk_line_editor [] (remember (line ed) (history ed)) None []);;
      mret (Line (line ed))
  | Tab => complete prompt;; mret Pending
  | Up => history_up;; mret Pending
  | Down => history_down;; mret Pending
  | Left | Right | Escape | F2 | Ctrl _ => mret Pending
  end.

(** ** What is on the screen *)
(** The current row, after a printed character. *)
Definition see (v : str) (c : Z) : str := if c =? 10 then [] else if c =? 8 then removelast v else v ++ [c].
Definition view (out : str) : str := foldl see [] out.
Definition clean (s : str) : Prop := Forall (fun c => c <> 8 /\ c <> 10) s.
Definition no_repeat (h : list str) : Prop := forall i l l', h !! i = Some l -> h !! S i = Some l' -> l <> l'.
Record editor_ok (ed : LineEditor) : Prop := {
  eo_line : clean (line ed);
  eo_history : Forall (fun l => clean l /\ l <> []) (history ed);
  eo_draft : clean (draft ed);
  eo_capacity : (length (history ed) <= HISTORY_CAPACITY)%nat;
  eo_repeat : no_repeat (history ed);
  eo_index : forall i, history_index ed = Some i -> (i < length (history ed))%nat
}.
(** The row shows the prompt and the line. *)
Definition on_screen (prompt : str) (st : LineEditor * str) : Prop := editor_ok st.1 /\ view st.2 = prompt ++ line st.1.

Lemma foldl_see s v : clean s -> foldl see v s = v ++ s.
Proof.
  intros Hs. revert v. induction Hs as [|c s [H8 H10] _ IH]; intros v; cbn [foldl]; [by rewrite app_nil_r|].
  rewrite IH. unfold see. rewrite (proj2 (Z.eqb_neq c 10)), (proj2 (Z.eqb_neq c 8)) by done. by rewrite <- app_assoc.
Qed.
Lemma view_text out s : clean s -> view (out ++ s) = view out ++ s.
Proof. intros. unfold view. rewrite foldl_app. by apply foldl_see. Qed.
Lemma erase_all p s : foldl see (p ++ s) (replicate (length s) 8) = p.
Proof.
  induction s as [|c s IH] using rev_ind; [apply app_nil_r|]. rewrite length_app, Nat.add_1_r. cbn [replicate foldl].
  change (see (p ++ s ++ [c]) 8) with (removelast (p ++ s ++ [c])). by rewrite app_assoc, removelast_last.
Qed.
Lemma clean_nil : clean [].
Proof. constructor. Qed.
#[local] Hint Resolve clean_nil : core.
Lemma clean_app a b : clean a -> clean b -> clean (a ++ b).
Proof. intros. by apply Forall_app. Qed.
Lemma clean_lit s : forallb (fun c => negb (c =? 8) && negb (c =? 10)) s = true -> clean s.
Proof. intros H. apply List.Forall_forall. intros c Hc. rewrite List.forallb_forall in H. specialize (H c Hc). lia. Qed.
Lemma clean_removelast s : clean s -> clean (removelast s).
Proof. intros H. destruct s as [|c s _] using rev_ind; [done|]. rewrite removelast_last. by apply Forall_app in H as [? _]. Qed.

Section lines.
Variable p : str.
Hypothesis Hp : clean p.

Lemma set_line_shows l ed out :
  on_screen p (ed, out) -> clean l ->
  wp (set_line l) (fun _ st => on_screen p st /\ line st.1 = l /\ history st.1 = history ed) (ed, out).
Proof.
  intros [Hed Hv] Hl. unfold wp, set_line, mbind, st_bind, editor, print, edit, modify. cbn [fst snd].
  split; [|done]. split; cbn [fst snd with_line line].
  - destruct Hed. by split.
  - rewrite view_text by done. unfold view in *. cbn [fst snd] in Hv. rewrite foldl_app, Hv. by rewrite erase_all.
Qed.
Lemma set_index_shows i ed out :
  on_screen p (ed, out) -> (i < length (history ed))%nat -> on_screen p (with_index (Some i) ed, out).
Proof. intros [[] Hv] Hi. split; [split; try done|done]. by intros ? [= <-]. Qed.
Lemma history_clean ed i l : editor_ok ed -> history ed !! i = Some l -> clean l.
Proof. intros [_ Hh _ _ _ _] Hl. by apply (proj1 (Forall_lookup _ _) Hh i l Hl). Qed.
Lemma history_up_shows ed out :
  on_screen p (ed, out) -> wp history_up (fun _ st => on_screen p st /\ history st.1 = history ed) (ed, out).
Proof.
  intros Hs. unfold history_up. wp_step. unfold wp at 1, editor. cbn [fst]. case_bool_decide as Hn; cbn [negb]; [|by apply wp_ret].
  assert (wp (match history_index ed with
    | None => edit (fun ed => mk_line_editor (line ed) (history ed) (history_index ed) (line ed));; mret (length (history ed) - 1)%nat
    | Some i => mret (i - 1)%nat end)
    (fun i st => on_screen p st /\ history st.1 = history ed /\ (i < length (history ed))%nat) (ed, out)) as Hnext.
  { pose proof Hs as [[H1 H2 H3 H4 H5 H6] Hv]. destruct (history_index ed) as [i|] eqn:Ei.
    - apply wp_ret. pose proof (H6 i Ei) as Hi. cbn [fst] in Hi. split; [done|]. split; [done|lia].
    - unfold wp, mbind, st_bind, edit, modify, mret, st_ret. split; [|split; [done|lia]]. split; [split; done|done]. }
  wp_step. eapply wp_conseq; [exact Hnext|]. intros i [ed1 out1] (Hs1 & Eh & Hi). cbn [fst] in Eh.
  wp_step. unfold wp at 1, edit, modify. rewrite <- Eh in Hi |- *. destruct (lookup_lt_is_Some_2 _ _ Hi) as [l Hl].
  eapply wp_unwrap; [exact Hl|]. eapply wp_conseq; [apply set_line_shows; [by apply set_index_shows|by eapply history_clean; [apply Hs1|]]|].
  intros [] st (? & _ & ?). done.
Qed.
Lemma history_down_shows ed out :
  on_screen p (ed, out) -> wp history_down (fun _ st => on_screen p st /\ history st.1 = history ed) (ed, out).
Proof.
  intros Hs. unfold history_down. wp_step. unfold wp at 1, editor. cbn [fst]. destruct (history_index ed) as [i|] eqn:Ei; [|by apply wp_ret].
  pose proof Hs as [[H1 H2 H3 H4 H5 H6] Hv]. case_decide as Hi; wp_step; unfold wp at 1, edit, modify.
  - destruct (lookup_lt_is_Some_2 _ _ Hi) as [l Hl]. eapply wp_unwrap; [exact Hl|].
    eapply wp_conseq; [apply set_line_shows; [by apply set_index_shows|by eapply history_clean; [apply Hs|]]|]. intros [] st (? & _ & ?). done.
  - eapply wp_conseq; [apply set_line_shows; [|exact H3]|]; [split; [split; auto; done|done]|]. intros [] st (? & _ & ?). done.
Qed.

Lemma view_newline out s : view (out ++ s ++ [10]) = [].
Proof. unfold view. by rewrite app_assoc, foldl_app. Qed.
Lemma commands_clean : Forall clean COMMANDS.
Proof. apply List.Forall_forall. intros c Hc. apply clean_lit. revert c Hc. by apply List.forallb_forall. Qed.
Lemma complete_shows ed out :
  on_screen p (ed, out) -> wp (complete p) (fun _ st => on_screen p st /\ history st.1 = history ed) (ed, out).
Proof.
  intros Hs. unfold complete. wp_step. unfold wp at 1, editor. cbn [fst]. case_match; [by apply wp_ret|].
  pose proof Hs as [[H1 H2 H3 H4 H5 H6] Hv]. cbn [fst snd] in *.
  assert (Forall clean (filter (fun c => starts_with (line ed) c = true) COMMANDS)) as Hf by (apply Forall_forall; intros x [_ Hx]%list_elem_of_filter; by apply (proj1 (Forall_forall _ _) commands_clean)).
  destruct (filter _ COMMANDS) as [|only [|c2 cs]]; [by apply wp_ret| |].
  - apply Forall_cons in Hf as [Ho _]. assert (clean (drop (length (as_bytes (line ed))) only)) as Hd by by apply Forall_drop.
    unfold wp, mbind, st_bind, edit, print, modify. cbn [fst snd]. split; [|done]. split; cbn [fst snd with_line line].
    + split; try done. by apply clean_app.
    + by rewrite view_text, Hv, <- app_assoc.
  - unfold wp, mbind, st_bind, println, print, modify. cbn [fst snd]. split; [|done]. split; cbn [fst snd]; [by split|].
    rewrite view_text by by apply clean_app. by rewrite view_newline.
Qed.

Lemma last_snoc_repeat h l : no_repeat h -> last h <> Some l -> no_repeat (h ++ [l]).
Proof.
  intros Hh Hl i a b Ha Hb. apply lookup_snoc_Some in Hb as [[Hi Hb]|[Hi <-]].
  - rewrite lookup_app_l in Ha by lia. by eapply Hh.
  - rewrite lookup_app_l in Ha by lia. intros <-. apply Hl. rewrite last_lookup, <- Hi. exact Ha.
Qed.
Lemma no_repeat_tail h : no_repeat h -> no_repeat (tail h).
Proof. intros Hh i a b Ha Hb. rewrite lookup_tail in Ha, Hb. by eapply Hh. Qed.
Lemma last_tail {A} (h : list A) : tail h <> [] -> last (tail h) = last h.
Proof. destruct h as [|x [|y h]]; done. Qed.
Lemma remember_ok l h :
  clean l -> Forall (fun l => clean l /\ l <> []) h -> (length h <= HISTORY_CAPACITY)%nat -> no_repeat h ->
  Forall (fun l => clean l /\ l <> []) (remember l h) /\ (length (remember l h) <= HISTORY_CAPACITY)%nat /\ no_repeat (remember l h).
Proof.
  intros Hl Hh Hlen Hr. unfold remember. destruct (decide (l = [])) as [->|Hne]; [done|].
  replace (nonempty l) with true by by destruct l. cbn [andb]. case_bool_decide as Hlast; cbn [negb]; [done|].
  case_decide as Hcap.
  - split_and!.
    + apply Forall_app. split; [by apply Forall_tail|]. by apply Forall_singleton.
    + rewrite length_app. unfold HISTORY_CAPACITY in *. destruct h; cbn [length tail] in *; lia.
    + apply last_snoc_repeat; [by apply no_repeat_tail|]. rewrite last_tail; [done|].
      unfold HISTORY_CAPACITY in *. destruct h as [|x [|y h]]; simpl in *; done || lia.
  - split_and!.
    + apply Forall_app. split; [done|]. by apply Forall_singleton.
    + rewrite length_app. simpl. lia.
    + by apply last_snoc_repeat.
Qed.

(** The keys a keyboard sends: typing never gives a control character. *)
Definition keyable (ev : Event) : Prop := forall c, ev = Char c -> c <> 8 /\ c <> 10.
Definition fed (ed : LineEditor) (r : Feed) (st : LineEditor * str) : Prop :=
  match r with
  | Pending => on_screen p st /\ history st.1 = history ed
  | Line l => l = line ed /\ editor_ok st.1 /\ line st.1 = [] /\ history st.1 = remember l (history ed) /\ view st.2 = []
  end.
Lemma feed_shows ev ed out :
  on_screen p (ed, out) -> keyable ev -> wp (feed p ev) (fed ed) (ed, out).
Proof.
  intros Hs Hk. pose proof Hs as [[H1 H2 H3 H4 H5 H6] Hv]. cbn [fst snd] in *.
  assert (forall st, on_screen p st -> history st.1 = history ed -> fed ed Pending st) as Hpend by done.
  assert (forall (m : LE unit), wp m (fun _ st => on_screen p st /\ history st.1 = history ed) (ed, out) ->
    wp (m;; mret Pending) (fed ed) (ed, out)) as Hthen.
  { intros m Hm. wp_step. eapply wp_conseq; [exact Hm|]. intros [] st [? ?]. by apply wp_ret. }
  destruct ev as [c|c| | | | | | | | |]; cbn [feed]; try (by apply wp_ret, Hpend).
  - wp_step. unfold wp at 1, editor. cbn [fst]. destruct (Hk c eq_refl).
    assert (clean [c]) as Hc by by repeat constructor.
    destruct (len_utf8 (line ed) <? 256); unfold wp, mbind, st_bind, edit, print, modify, mret, st_ret; cbn [fst snd]; apply Hpend; try done.
    split; cbn [fst snd line with_line with_index]; [split; try done; by apply clean_app|by rewrite view_text, Hv, <- app_assoc].
  - wp_step. unfold wp at 1, editor. cbn [fst].
    destruct (line ed) as [|x s _] eqn:El using rev_ind;
      [|replace (nonempty (s ++ [x])) with true by by destruct s];
      unfold wp, mbind, st_bind, edit, print, modify, mret, st_ret; cbn [fst snd nonempty]; apply Hpend; try done;
      split; cbn [fst snd line with_index with_line].
    + split; cbn; rewrite ?El; done.
    + by rewrite El.
    + split; try done. cbn. rewrite removelast_last. by apply Forall_app in H1 as [? _].
    + unfold view in *. rewrite foldl_app, Hv, removelast_last. cbn [foldl see]. change (see (p ++ s ++ [x]) 8) with (removelast (p ++ s ++ [x])).
      by rewrite app_assoc, removelast_last.
  - unfold wp, mbind, st_bind, println, print, editor, edit, modify, mret, st_ret. cbn [fst snd].
    destruct (remember_ok (line ed) (history ed) H1 H2 H4 H5) as (? & ? & ?).
    split; [done|]. split; [by split|]. split; [done|]. split; [done|]. exact (view_newline out []).
  - apply Hthen, complete_shows. done.
  - apply Hthen, history_up_shows. done.
  - apply Hthen, history_down_shows. done.
Qed.
End lines.

(** Keys fed one after the other. *)
Fixpoint feed_all (prompt : str) (evs : list Event) : LE (list Feed) :=
  match evs with
  | [] => mret []
  | ev :: evs => r ← feed prompt ev; rs ← feed_all prompt evs; mret (r :: rs)
  end.

(** ** Arguments *)
Definition quoted (w : str) : str := [34] ++ w ++ [34].
Definition written (a : bool * str) : str := if a.1 then quoted a.2 else a.2.
(** A word that can be written as it is, or in quotes. *)
Definition arg_ok (a : bool * str) : Prop :=
  a.2 <> [] /\ Forall (fun c => c <> 34) a.2 /\ (a.1 = false -> Forall (fun c => is_whitespace c = false) a.2).

Lemma lex_word w l :
  Forall (fun c => c <> 34) w -> (in_quotes l = false -> Forall (fun c => is_whitespace c = false) w) ->
  foldl lex_char l w = mk_lexer (tokens l) (current l ++ w) (in_quotes l).
Proof.
  intros Hq. revert l. induction Hq as [|c w Hc _ IH]; intros l Hs; cbn [foldl]; [by rewrite app_nil_r; destruct l|].
  assert (lex_char l c = mk_lexer (tokens l) (current l ++ [c]) (in_quotes l)) as ->.
  { unfold lex_char. rewrite (proj2 (Z.eqb_neq c 34)) by done. destruct (in_quotes l); cbn [negb]; [by rewrite andb_false_r|].
    specialize (Hs eq_refl). apply Forall_cons in Hs as [-> _]. done. }
  rewrite IH; cbn [tokens current in_quotes]; [by rewrite <- app_assoc|].
  intros E. specialize (Hs E). by apply Forall_cons in Hs as [_ ?].
Qed.
Lemma lex_quote l : lex_char l 34 = mk_lexer (tokens l) (current l) (negb (in_quotes l)).
Proof. done. Qed.
Lemma lex_arg a l :
  arg_ok a -> in_quotes l = false -> foldl lex_char l (written a) = mk_lexer (tokens l) (current l ++ a.2) false.
Proof.
  intros (_ & Hq & Hs) E. destruct a as [[] w]; unfold written; cbn [fst snd] in *.
  - unfold quoted. rewrite !foldl_app. cbn [foldl].
    rewrite !lex_quote, E. by rewrite lex_word.
  - rewrite lex_word by auto. by rewrite E.
Qed.
Lemma lex_args args l :
  Forall arg_ok args -> in_quotes l = false -> current l = [] ->
  tokens (push_token (foldl lex_char l (spaced (written <$> args)))) = tokens l ++ (snd <$> args).
Proof.
  intros Ha. revert l. induction Ha as [|a args Ha Hargs IH]; intros l Eq Ec.
  - cbn. unfold push_token. by rewrite Ec, app_nil_r.
  - assert (push_token (mk_lexer (tokens l) a.2 false) = mk_lexer (tokens l ++ [a.2]) [] false) as Hpush.
    { destruct Ha as (Hn & _). unfold push_token. cbn [current]. by destruct a.2. }
    destruct args as [|b args].
    + cbn [fmap list_fmap spaced]. rewrite lex_arg, Ec, app_nil_l by done. by rewrite Hpush.
    + change (spaced (written <$> a :: b :: args)) with (written a ++ 32 :: spaced (written <$> b :: args)).
      rewrite foldl_app, lex_arg, Ec, app_nil_l by done. cbn [foldl]. change (lex_char ?l 32) with (push_token l).
      rewrite Hpush. rewrite IH by done. cbn [tokens fmap list_fmap]. by rewrite <- app_assoc.
Qed.

(** A line of arguments, each written in double quotes or, if it has no
    blanks, as it is, splits into exactly those arguments. *)
Theorem tokenize_roundtrip args : Forall arg_ok args -> tokenize (spaced (written <$> args)) = snd <$> args.
Proof. intros Ha. apply (lex_args args (mk_lexer [] [] false)); done. Qed.
Example tokenize_roundtrip_witness :
  tokenize (bytes_of "write ~/a.txt " ++ quoted (bytes_of "hello world")) = bytes_of <$> ["write"; "~/a.txt"; "hello world"]%string.
Proof.
  apply (tokenize_roundtrip [(false, bytes_of "write"); (false, bytes_of "~/a.txt"); (true, bytes_of "hello world")]).
  repeat constructor; cbn; done.
Defined.

(** ** Paths *)
Definition plain_component (c : str) : Prop :=
  c <> [] /\ c <> bytes_of "." /\ c <> bytes_of ".." /\ Forall (fun x => x <> 47) c.
Lemma split_on_pieces p s : Forall (fun w => Forall (fun c => p c = false) w) (split_on p s).
Proof.
  induction s as [|c s IH]; cbn [split_on]; [by repeat constructor|]. destruct (p c) eqn:Ec; [by constructor|].
  destruct (split_on p s) as [|w ws]; [by repeat constructor|]. apply Forall_cons in IH as [Hw Hws]. by repeat constructor.
Qed.
Lemma removelast_plain l : Forall plain_component l -> Forall plain_component (removelast l).
Proof. intros H. destruct l as [|c l _] using rev_ind; [done|]. rewrite removelast_last. by apply Forall_app in H as [? _]. Qed.
Lemma resolve_plain parts cs :
  Forall plain_component parts -> Forall (fun c => Forall (fun x => x <> 47) c) cs ->
  Forall plain_component (foldl normalize_step parts cs).
Proof.
  intros Hp Hc. revert parts Hp. induction Hc as [|c cs Hc _ IH]; intros parts Hp; [done|]. apply IH. unfold normalize_step.
  case_decide as H1; [done|]. case_decide as H2; [by apply removelast_plain|]. apply Forall_app. split; [done|].
  apply Forall_singleton. split_and!; [tauto..|done|done].
Qed.
Lemma resolve_nonempty parts cs :
  foldl normalize_step parts cs = foldl normalize_step parts (filter (fun c => nonempty c = true) cs).
Proof.
  revert parts. induction cs as [|c cs IH]; intros parts; [done|]. destruct c as [|x c].
  - rewrite filter_cons_False by done. cbn [foldl]. rewrite IH. done.
  - rewrite filter_cons_True by done. cbn [foldl]. apply IH.
Qed.
Lemma resolve_plain_id parts cs : Forall plain_component cs -> foldl normalize_step parts cs = parts ++ cs.
Proof.
  intros Hc. revert parts. induction Hc as [|c cs (H1 & H2 & H3 & _) _ IH]; intros parts; [by rewrite app_nil_r|].
  cbn [foldl]. rewrite IH. unfold normalize_step. rewrite decide_False by tauto. rewrite decide_False by done. by rewrite <- app_assoc.
Qed.
Lemma components_slash parts :
  Forall (fun c => c <> [] /\ Forall (fun x => x <> 47) c) parts -> components (join (bytes_of "/") parts) = parts.
Proof.
  assert (forall c : str, Forall (fun x => x <> 47) c -> Forall (fun x => (47 =? x) = false) c) as Hsep.
  { intros c Hc. eapply Forall_impl; [exact Hc|]. intros x Hx. cbv beta in *. lia. }
  intros Hp. unfold components. induction Hp as [|c parts [Hn Hc] _ IH]; [done|].
  assert (nonempty c = true) as Hc1 by by destruct c. destruct parts as [|c' parts].
  - cbn [join]. rewrite split_on_none by auto. by rewrite filter_cons_True.
  - change (join (bytes_of "/") (c :: c' :: parts)) with (c ++ 47 :: join (bytes_of "/") (c' :: parts)).
    rewrite split_on_app_sep by auto. by rewrite filter_cons_True, IH.
Qed.
Lemma plain_pieces parts : Forall plain_component parts -> Forall (fun c => c <> [] /\ Forall (fun x => x <> 47) c) parts.
Proof. intros H. eapply Forall_impl; [exact H|]. by intros c (? & _ & _ & ?). Qed.
Lemma components_root path : components (bytes_of "/" ++ path) = components path.
Proof. done. Qed.
Lemma components_app a b : components (a ++ bytes_of "/" ++ b) = components a ++ components b.
Proof.
  unfold components. rewrite <- filter_app. assert (split_on (Z.eqb 47) (a ++ 47 :: b) = split_on (Z.eqb 47) a ++ split_on (Z.eqb 47) b) as E.
  { induction a as [|c a IH]; [done|]. cbn [Datatypes.app split_on]. rewrite IH. destruct (47 =? c); [done|].
    destruct (split_on (Z.eqb 47) a) as [|w ws] eqn:E; [|done]. destruct a; cbn in E; repeat case_match; done. }
  change (a ++ bytes_of "/" ++ b) with (a ++ 47 :: b). by rewrite E.
Qed.
Definition resolve (parts cs : list str) : list str := foldl normalize_step parts cs.
Lemma normalize_components path :
  normalize_path path = bytes_of "/" ++ join (bytes_of "/") (resolve [] (components path)) /\
  Forall plain_component (resolve [] (components path)) /\
  components (normalize_path path) = resolve [] (components path).
Proof.
  assert (normalize_path path = bytes_of "/" ++ join (bytes_of "/") (resolve [] (components path))) as E.
  { unfold normalize_path, resolve, components. by rewrite <- resolve_nonempty. }
  assert (Forall plain_component (resolve [] (components path))) as Hp.
  { apply resolve_plain; [done|]. apply Forall_forall. intros c [_ Hc]%list_elem_of_filter.
    pose proof (proj1 (Forall_forall _ _) (split_on_pieces (Z.eqb 47) path) c Hc) as Hf. eapply Forall_impl; [exact Hf|].
    intros x Hx. cbv beta in *. lia. }
  split; [exact E|]. split; [exact Hp|]. rewrite E, components_root. by apply components_slash, plain_pieces.
Qed.

(** Paths resolve as they should.  Whatever is typed, [abs_path] is an
    absolute path in normal form (no empty, [.] or [..] components, and
    normalising it again changes nothing), so every command sees a path that
    stays below the root; a path without such components keeps its components;
    a relative path is resolved component by component from the working
    directory, [..] dropping the last one, and [~] from the home directory. *)
Theorem paths_resolve stored path :
  let q := abs_path stored path in
  q = bytes_of "/" ++ join (bytes_of "/") (components q) /\ Forall plain_component (components q) /\ normalize_path q = q /\
  (head path = Some 47 -> components q = resolve [] (components path)) /\
  (head path <> Some 47 -> head path <> Some 126 ->
     components q = resolve (resolve [] (components (cwd stored))) (components path)) /\
  (forall rest, path = bytes_of "~/" ++ rest ->
     components q = resolve (bytes_of <$> ["users"; "macha"]%string) (components rest)) /\
  (head path = Some 47 -> Forall plain_component (components path) -> components q = components path).
Proof.
  assert (forall p, normalize_path p = bytes_of "/" ++ join (bytes_of "/") (components (normalize_path p)) /\
    Forall plain_component (components (normalize_path p)) /\ normalize_path (normalize_path p) = normalize_path p) as Hnorm.
  { intros p. destruct (normalize_components p) as (E & Hp & Ec). rewrite Ec. split; [done|]. split; [done|].
    rewrite (proj1 (normalize_components (normalize_path p))), Ec. rewrite E. unfold resolve at 1. by rewrite resolve_plain_id. }
  assert (exists p, abs_path stored path = normalize_path p) as [p Ep] by (unfold abs_path; case_match; eauto).
  cbv zeta. destruct (Hnorm p) as (H1 & H2 & H3). rewrite <- Ep in H1, H2, H3. split; [done|]. split; [done|]. split; [done|].
  assert (head path = Some 47 -> abs_path stored path = normalize_path path) as Habs.
  { intros E. unfold abs_path. destruct path as [|c s]; [done|]. injection E as ->. done. }
  split; [|split; [|split]].
  - intros E. rewrite Habs by done. apply normalize_components.
  - intros E1 E2. unfold abs_path. assert (expand_home path = path) as ->.
    { destruct path as [|c s]; [done|]. unfold expand_home. cbn [head] in E2. repeat case_match; subst; congruence || done. }
    rewrite bool_decide_false by done. rewrite (proj2 (proj2 (normalize_components _))), components_app.
    unfold resolve. by rewrite foldl_app.
  - intros rest ->. unfold abs_path. change (expand_home (bytes_of "~/" ++ rest)) with (home ++ bytes_of "/" ++ rest).
    rewrite bool_decide_true by done. rewrite (proj2 (proj2 (normalize_components _))), components_app.
    unfold resolve. by rewrite foldl_app.
  - intros E Hplain. rewrite Habs by done. rewrite (proj2 (proj2 (normalize_components _))). by apply resolve_plain_id.
Qed.
Lemma paths_resolve_witness :
  abs_path (bytes_of "/users/macha/Documents") (bytes_of "..//./Music/../a.txt") = bytes_of "/users/macha/a.txt".
Proof.
  destruct (paths_resolve (bytes_of "/users/macha/Documents") (bytes_of "..//./Music/../a.txt")) as (Eq & _ & _ & _ & Hrel & _).
  rewrite Eq, Hrel; [vm_compute; reflexivity|vm_compute; discriminate|vm_compute; discriminate].
Defined.

(** C31: The terminal's line editor shows what it will run.  From any row that
    shows the prompt and the line, every sequence of keys other than Enter
    (typing, erasing, completion, browsing the history) leaves the prompt and the
    new line on the row, without a panic; Enter then hands over exactly the line
    on the screen, starts a fresh row and remembers the line, and the history
    never holds more than 32 lines, an empty one or the same one twice in a row. *)
Theorem line_editor_shows prompt ed out evs :
  clean prompt -> on_screen prompt (ed, out) -> Forall keyable evs -> Enter ∉ evs ->
  exists ed1 out1 ed2 out2, feed_all prompt evs (ed, out) = Ret (replicate (length evs) Pending) (ed1, out1) /\
    view out1 = prompt ++ line ed1 /\ history ed1 = history ed /\
    feed prompt Enter (ed1, out1) = Ret (Line (line ed1)) (ed2, out2) /\
    view out2 = [] /\ history ed2 = remember (line ed1) (history ed) /\ on_screen prompt (ed2, out2 ++ prompt) /\
    (length (history ed2) <= 32)%nat /\ no_repeat (history ed2) /\ [] ∉ history ed2.
Proof.
  intros Hp Hs Hk Hn. assert (exists ed1 out1, feed_all prompt evs (ed, out) = Ret (replicate (length evs) Pending) (ed1, out1) /\
    on_screen prompt (ed1, out1) /\ history ed1 = history ed) as (ed1 & out1 & E1 & Hs1 & Eh).
  { revert ed out Hs Hn. induction Hk as [|ev evs Hk1 _ IH]; intros ed out Hs Hn; [by exists ed, out|].
    apply not_elem_of_cons in Hn as [Hne Hn]. cbn [feed_all length replicate].
    destruct (wp_elim _ _ _ (feed_shows prompt Hp ev ed out Hs Hk1)) as (r & [ed1 out1] & E & Hr).
    unfold mbind, st_bind. rewrite E. destruct r as [|l]; cbn [fed fst] in Hr.
    - destruct Hr as [Hs1 Eh1]. destruct (IH ed1 out1 Hs1 Hn) as (ed2 & out2 & E2 & Hs2 & Eh2). rewrite E2.
      exists ed2, out2. split; [done|]. split; [done|congruence].
    - exfalso. revert E. destruct ev; cbn [feed]; unfold mbind, st_bind, mret, st_ret; repeat case_match; congruence. }
  destruct (wp_elim _ _ _ (feed_shows prompt Hp Enter ed1 out1 Hs1 ltac:(by intros ?))) as (r & [ed2 out2] & E & Hr).
  exists ed1, out1, ed2, out2. split; [done|]. split; [apply Hs1|]. split; [done|].
  destruct r as [|l]; cbn [fed fst snd] in Hr; [by unfold feed, mbind, st_bind in E|].
  destruct Hr as (-> & Hok & El & Eh2 & Hv). split; [done|]. split; [done|]. split; [by rewrite Eh2, Eh|].
  split; [split; [done|]; cbn [fst snd]; by rewrite view_text, Hv, El, app_nil_r|]. destruct Hok as [_ Hh _ Hc Hrep _].
  split; [done|]. split; [done|]. intros Hin. rewrite Forall_forall in Hh. by destruct (Hh [] Hin).
Qed.
Example line_editor_shows_witness :
  exists ed1 out1 ed2 out2, feed_all (bytes_of "$ ") [Char 99; Char 97; Up; Down; Backspace; Char 97; Char 116] (new, bytes_of "$ ") =
      Ret (replicate 7 Pending) (ed1, out1) /\
    feed (bytes_of "$ ") Enter (ed1, out1) = Ret (Line (line ed1)) (ed2, out2) /\ history ed2 = remember (line ed1) [].
Proof.
  destruct (line_editor_shows (bytes_of "$ ") new (bytes_of "$ ") [Char 99; Char 97; Up; Down; Backspace; Char 97; Char 116])
    as (ed1 & out1 & ed2 & out2 & E1 & _ & _ & E2 & _ & Eh & _).
  - by apply clean_lit.
  - split; [|reflexivity]. split; cbn; first [done|lia|by constructor].
  - rewrite !Forall_cons. split_and!; try (by constructor); intros c E; by simplify_eq.
  - rewrite !not_elem_of_cons. split_and!; try done. apply not_elem_of_nil.
  - exists ed1, out1, ed2, out2. split; [exact E1|]. split; [exact E2|exact Eh].
Defined.
