(* ===== verification/Cpuid.v ===== *)
(** * Processor identification, [cpuid.rs]

    The [cpuid] instruction is a function of the leaf. *)
From S2P Require Import Prelude Bytes Text.

Section cpuid.
(** eax, ebx, ecx and edx for a leaf. *)
Variable cpuid : Z -> Z * Z * Z * Z.

Definition vendor_id : list Z :=
  let '(_, ebx, ecx, edx) := cpuid 0 in le_split 4 ebx ++ le_split 4 edx ++ le_split 4 ecx.
Definition max_extended_leaf : Z := let '(eax, _, _, _) := cpuid 0x80000000 in eax.
Definition brand_leaf (leaf : Z) : list Z :=
  let '(a, b, c, d) := cpuid (0x80000002 + leaf) in le_split 4 a ++ le_split 4 b ++ le_split 4 c ++ le_split 4 d.
Definition brand_string : option (list Z) :=
  if max_extended_leaf <? 0x80000004 then None
  else Some (brand_leaf 0 ++ brand_leaf 1 ++ brand_leaf 2).
Definition cores : Z := let '(_, ebx, _, _) := cpuid 1 in Z.land (Z.shiftr ebx 16) 0xFF + 1.
(** The bit tested for each name: of edx, then of ecx. *)
Definition edx_features : list (Z * string) :=
  [(0, "FPU"); (6, "PAE"); (7, "PGE"); (25, "SSE"); (26, "SSE2"); (29, "LM")]%string.
Definition ecx_features : list (Z * string) :=
  [(0, "SSE3"); (9, "SSSE3"); (19, "SSE4.1"); (20, "SSE4.2"); (28, "AVX")]%string.
Definition present (reg : Z) (table : list (Z * string)) : list str :=
  (fun f => bytes_of f.2) <$> filter (fun f => is_set reg (Z.shiftl 1 f.1) = true) table.
Definition features : list str :=
  let '(_, _, ecx, edx) := cpuid 1 in present edx edx_features ++ present ecx ecx_features.
End cpuid.
