(* ===== verification/Shell.v ===== *)
(** * The shell's commands, [shell.rs]

    [execute] runs one line on the whole kernel state.  What a command prints is
    kept as a list of pieces, in the order of the calls to [print!]; a command
    that never comes back to the prompt says how it ends. *)
From S2P Require Import Prelude Bytes Text PhysMem Multiboot Pmm Paging Disk Ata Rtc Fat FatFile Mouse Process Task Spawn Font Gfx Session LineEdit Cpuid.

(** ** Formatting *)
(** [{:<n}], [{:>n}] and [{:0n}] *)
Definition pad_right (n : nat) (s : str) : str := s ++ replicate (n - length s) 32.
Definition pad_left (c : Z) (n : nat) (s : str) : str := replicate (n - length s) c ++ s.
Definition show (v : Z) : str := uint_to_string v.
Definition hex_digit (d : Z) : Z := if d <? 10 then 48 + d else 87 + d.
Fixpoint hex_rev (n : nat) (v : Z) : str :=
  match n with
  | O => []
  | S n => hex_digit (v mod 16) :: (if v / 16 =? 0 then [] else hex_rev n (v / 16))
  end.
(** [{:#x}] of a 64-bit value *)
Definition show_hex (v : Z) : str := bytes_of "0x" ++ rev (hex_rev 16 v).
Definition show_bool (b : bool) : str := if b then bytes_of "true" else bytes_of "false".
Definition fat_error (e : FatError) : str :=
  match e with
  | NoDisk => bytes_of "no disk mounted"
  | Io m => bytes_of m
  | InvalidVolume => bytes_of "not a FAT32 volume"
  | NotFound => bytes_of "not found"
  | NotDir => bytes_of "not a directory"
  | AlreadyExists => bytes_of "already exists"
  | NotEmpty => bytes_of "directory not empty"
  | InvalidName => bytes_of "invalid name"
  | OutOfSpace => bytes_of "out of space"
  | Corrupt => bytes_of "corrupt filesystem"
  end.
Definition describe_exit (info : ExitInfo) : str :=
  match info with
  | Normal => bytes_of "exited normally"
  | PageFault cr2 => bytes_of "killed by page fault at " ++ show_hex cr2
  | Exception vector => bytes_of "killed by exception vector " ++ show vector
  end.
Definition type_name (r : MemoryRegion) : str :=
  let t := region_type r in
  if t =? 1 then bytes_of "usable" else if t =? 2 then bytes_of "reserved"
  else if t =? 3 then bytes_of "ACPI reclaimable" else if t =? 4 then bytes_of "ACPI NVS"
  else if t =? 5 then bytes_of "bad RAM" else bytes_of "unknown".

(** ** The state *)
Inductive output := Text (s : str) | Cleared | Port (p v : Z) | Trap (vector : Z).
(** Back to the prompt, halted for good, or in an exception handler. *)
Inductive after := Back | Halted | Faulted.

Section shell.
Context {D : Type} `{BlockDevice D} (rtc_now : D -> DateTime).
Context (heap : Z * Z) (kernel_pml4 trampoline process_entry : Z).
Abbreviation World := (world (D := D)).
Record Shell := mk_shell { sh_world : World; sh_mouse : mouse; CWD : str; out : list output }.
Abbreviation SH := (ST Shell).
(** The machine until the next interrupt: handlers, the timer, other tasks. *)
Variable halt : SH unit.
(** The kernel stack the heap gives a new process, the allocator's counters, the
    background tasks' counters, the clock and the drives. *)
Variables (stack_base : Shell -> Z) (heap_total heap_allocated : Shell -> Z) (COUNTERS : Shell -> list Z).
Variables (now : Shell -> DateTime) (drives : list AtaDevice) (cpuid : Z -> Z * Z * Z * Z) (info_at : MultibootInfo).

Definition asks {A} (f : Shell -> A) : SH A := fun s => Ret (f s) s.
Definition emit (o : output) : SH unit := modify (fun s => mk_shell (sh_world s) (sh_mouse s) (CWD s) (out s ++ [o])).
Definition print (s : str) : SH unit := emit (Text s).
Definition println (s : str) : SH unit := emit (Text (s ++ [10])).
Definition set_cwd (path : str) : SH unit := modify (fun s => mk_shell (sh_world s) (sh_mouse s) path (out s)).
Definition on_world {A} (f : ST World A) : SH A := fun s =>
  match f (sh_world s) with
  | Ret a w => Ret a (mk_shell w (sh_mouse s) (CWD s) (out s))
  | Panic => Panic
  end.
Definition set_volume (v : option (Fat32 D)) (w : World) : World :=
  MkWorld (w_machine w) (w_tasks w) (w_current w) (w_ticks w) (w_cpu w) v (w_endpoints w) (w_listeners w) (w_objects w).
Definition on_volume {A} (f : VOL A) : SH (result FatError A) := on_world (fun w =>
  match f (w_volume w) with Ret r v => Ret r (set_volume v w) | Panic => Panic end).
Definition on_mouse {A} (f : ST mouse A) : SH A := fun s =>
  match f (sh_mouse s) with
  | Ret a m => Ret a (mk_shell (sh_world s) m (CWD s) (out s))
  | Panic => Panic
  end.
Definition ticks : SH Z := asks (fun s => w_ticks (sh_world s)).
Definition path_of (args : list str) : SH str := asks (fun s => abs_path (CWD s) (join (bytes_of " ") args)).
Definition spaces : str := bytes_of " ".
(** [println!("{}: {}: {}", command, path, e)] *)
Definition complain (command : string) (path e : str) : SH unit :=
  println (bytes_of command ++ bytes_of ": " ++ path ++ bytes_of ": " ++ e).

(** ** Files *)
Definition cmd_ls (args : list str) : SH unit :=
  path ← (match args with [] => asks (fun s => cwd (CWD s)) | _ => path_of args end);
  r ← on_volume (list_dir path);
  match r with
  | Ok [] => println (bytes_of "(empty)")
  | Ok entries =>
      Gfx.for_in entries (fun e =>
        if is_dir e then println (pad_right 32 (name e) ++ bytes_of " <dir>")
        else println (pad_right 32 (name e) ++ spaces ++ pad_left 32 8 (show (size e)) ++ bytes_of " bytes"))
  | Err e => complain "ls" path (fat_error e)
  end.
(** A file's bytes as text: what is not ASCII is a question mark. *)
Definition ascii_text (data : list Z) : str := (fun b => if b <? 128 then b else 63) <$> data.
Definition cmd_cat (args : list str) : SH unit :=
  match args with
  | [] => println (bytes_of "usage: cat <path>")
  | _ =>
      path ← path_of args;
      r ← on_volume (read_file path);
      match r with
      | Ok data =>
          let text := ascii_text data in
          print text;;
          if bool_decide (last text = Some 10) then mret tt else println []
      | Err e => complain "cat" path (fat_error e)
      end
  end.
Definition cmd_write (args : list str) : SH unit :=
  match args with
  | a :: ((_ :: _) as args') =>
      let text := join spaces args' in
      path ← asks (fun s => abs_path (CWD s) a);
      r ← on_volume (write_file rtc_now path (as_bytes text));
      match r with
      | Ok _ => println (bytes_of "wrote " ++ show (len_utf8 text) ++ bytes_of " bytes to " ++ path)
      | Err e => complain "write" path (fat_error e)
      end
  | _ => println (bytes_of "usage: write <path> <text>")
  end.
Definition on_path (command usage done_ : string) (op : str -> VOL unit) (args : list str) : SH unit :=
  match args with
  | [] => println (bytes_of usage)
  | _ =>
      path ← path_of args;
      r ← on_volume (op path);
      match r with
      | Ok _ => println (bytes_of done_ ++ path)
      | Err e => complain command path (fat_error e)
      end
  end.
Definition cmd_mkdir : list str -> SH unit := on_path "mkdir" "usage: mkdir <path>" "created directory " (make_dir rtc_now).
Definition cmd_rm : list str -> SH unit := on_path "rm" "usage: rm <path>" "removed " remove.
Definition cmd_mv (args : list str) : SH unit :=
  match args with
  | [a; new_name] =>
      path ← asks (fun s => abs_path (CWD s) a);
      r ← on_volume (rename rtc_now path new_name);
      match r with
      | Ok _ => println (bytes_of "renamed " ++ path ++ bytes_of " to " ++ new_name)
      | Err e => complain "mv" path (fat_error e)
      end
  | _ => println (bytes_of "usage: mv <path> <new-name>")
  end.
Definition cmd_cd (args : list str) : SH unit :=
  target ← (match args with [] => mret home | _ => path_of args end);
  r ← on_volume (path_is_dir target);
  match r with
  | Ok true => set_cwd target
  | Ok false => complain "cd" target (bytes_of "not a directory")
  | Err e => complain "cd" target (fat_error e)
  end.

(** ** Programs *)
(** [process::wait]: rounds of [halt] until the process exits or the deadline
    passes; [fuel] rounds without either would never return. *)
Fixpoint wait_rounds (fuel : nat) (pid : nat) (deadline : Z) : SH (option ExitInfo) :=
  match fuel with
  | O => panic
  | S fuel =>
      r ← on_world (wait_poll pid deadline);
      match r with
      | Some result => mret result
      | None => halt;; wait_rounds fuel pid deadline
      end
  end.
Definition wait (pid : nat) (timeout : Z) : SH (option ExitInfo) :=
  t ← ticks;
  wait_rounds (S (Z.to_nat timeout)) pid (u64 (t + timeout)).
Definition proc (pid : nat) : str := bytes_of "process " ++ show (Z.of_nat pid).
Definition cmd_run (args : list str) : SH unit :=
  match args with
  | [] => println (bytes_of "usage: run <path>")
  | _ =>
      path ← path_of args;
      r ← on_volume (read_file path);
      match r with
      | Err e => complain "run" path (fat_error e)
      | Ok elf =>
          base ← asks stack_base;
          r ← on_world (spawn rtc_now heap kernel_pml4 trampoline process_entry base elf "app"%string);
          match r with
          | Err e => complain "run" path (bytes_of e)
          | Ok pid =>
              println (bytes_of "spawned " ++ proc pid ++ bytes_of " from " ++ path ++ bytes_of " (" ++
                       show (Z.of_nat (length elf)) ++ bytes_of " byte ELF)");;
              r ← wait pid 100;
              match r with
              | Some info =>
                  println (proc pid ++ spaces ++ describe_exit info);;
                  result ← asks (fun s => read_result (sh_world s) pid);
                  (match result with Some v => println (proc pid ++ bytes_of " result: " ++ show_hex v) | None => mret tt end);;
                  on_world (reap rtc_now pid);;
                  println (proc pid ++ bytes_of " reaped")
              | None => println (proc pid ++ bytes_of " did not exit within 1s")
              end
          end
      end
  end.
Definition cmd_runlinux (args : list str) : SH unit :=
  match args with
  | [] => println (bytes_of "usage: runlinux <path> [args...]")
  | path :: rest =>
      abs ← asks (fun s => abs_path (CWD s) path);
      r ← on_volume (read_file abs);
      match r with
      | Err e => complain "runlinux" abs (fat_error e)
      | Ok elf =>
          base ← asks stack_base;
          r ← on_world (spawn_linux rtc_now heap kernel_pml4 trampoline process_entry base elf "app"%string (path :: rest)
                          [bytes_of "PATH=/bin"]);
          match r with
          | Err e => complain "runlinux" abs (bytes_of e)
          | Ok pid =>
              println (bytes_of "spawned Linux " ++ proc pid ++ bytes_of " from " ++ abs ++ bytes_of " (" ++
                       show (Z.of_nat (length elf)) ++ bytes_of " byte ELF)");;
              r ← wait pid 500;
              match r with
              | Some info =>
                  println (proc pid ++ spaces ++ describe_exit info);;
                  on_world (reap rtc_now pid);;
                  println (proc pid ++ bytes_of " reaped")
              | None => println (proc pid ++ bytes_of " did not exit within 5s")
              end
          end
      end
  end.

(** ** Reports *)
Definition cmd_date : SH unit :=
  t ← asks now;
  println (pad_left 48 4 (show (year t)) ++ bytes_of "-" ++ pad_left 48 2 (show (month t)) ++ bytes_of "-" ++
           pad_left 48 2 (show (day t)) ++ spaces ++ pad_left 48 2 (show (hour t)) ++ bytes_of ":" ++
           pad_left 48 2 (show (minute t)) ++ bytes_of ":" ++ pad_left 48 2 (show (second t))).
Definition cmd_fatinfo : SH unit :=
  i ← asks (fun s => info (w_volume (sh_world s)));
  (match i with
   | Some i =>
       let cluster_bytes := u32 (vi_sectors_per_cluster i * 512) in
       println (bytes_of "FAT32 volume: " ++ show (vi_total_sectors i) ++ bytes_of " sectors (" ++
                show (vi_total_sectors i / 2048) ++ bytes_of " MiB), " ++ show cluster_bytes ++ bytes_of " bytes/cluster");;
       println (bytes_of "  fat: " ++ show (vi_fat_sectors i) ++ bytes_of " sectors, root cluster " ++ show (vi_root_cluster i) ++
                bytes_of ", free: " ++ show (vi_free_clusters i) ++ bytes_of " clusters (" ++
                show (u32 (vi_free_clusters i * cluster_bytes) / 1024) ++ bytes_of " KiB)")
   | None => println (bytes_of "no FAT32 volume mounted")
   end);;
  Gfx.for_in (seq 0 (length drives)) (fun i =>
    match describe drives i with Some d => println (bytes_of "  " ++ d) | None => mret tt end).
(** Iterations of the memory map and bytes of the loader's name looked at. *)
Definition INFO_FUEL : nat := 4096.
Definition cmd_meminfo : SH unit :=
  m ← asks (fun s => ram (w_machine (sh_world s)));
  loader ← unwrap (boot_loader_name INFO_FUEL m info_at);
  println (bytes_of "boot loader: " ++ default (bytes_of "unknown") loader);;
  (match memory_lower_kb m info_at, memory_upper_kb m info_at with
   | Some lower, Some upper =>
       println (bytes_of "memory: " ++ show lower ++ bytes_of " KiB lower + " ++ show upper ++ bytes_of " KiB upper = " ++
                show (u32 (lower + upper)) ++ bytes_of " KiB total")
   | _, _ => mret tt
   end);;
  regions ← unwrap (collect INFO_FUEL m (memory_map m info_at));
  let usable := filter (fun r => region_type r = 1) regions in
  let total_usable := foldl (fun t r => u64 (t + length_ r)) 0 usable in
  let largest := foldl (fun l r => Z.max l (length_ r)) 0 usable in
  println (bytes_of "memory map (" ++ show (Z.of_nat (length regions)) ++ bytes_of " regions):");;
  Gfx.for_in regions (fun r =>
    println (bytes_of "  [" ++ show_hex (Multiboot.base r) ++ bytes_of " - " ++ show_hex (u64 (Multiboot.base r + length_ r)) ++ bytes_of "] " ++
             show (length_ r / 1024) ++ bytes_of " KiB (" ++ type_name r ++ bytes_of ")"));;
  println (bytes_of "usable: " ++ show (total_usable / 1024) ++ bytes_of " KiB total, largest region " ++
           show (largest / 1024) ++ bytes_of " KiB");;
  total ← asks heap_total;
  allocated ← asks heap_allocated;
  println (bytes_of "heap: " ++ show total ++ bytes_of " bytes total, " ++ show allocated ++ bytes_of " allocated, " ++
           show (total - allocated) ++ bytes_of " free");;
  frames_total ← on_world (on_frames total_frames);
  used ← on_world (on_frames used_frames);
  free ← on_world (on_frames free_frames);
  println (bytes_of "pmm: " ++ show frames_total ++ bytes_of " frames (" ++
           show (frames_total * FRAME_SIZE / (1024 * 1024)) ++ bytes_of " MiB) total, " ++ show used ++
           bytes_of " used, " ++ show free ++ bytes_of " free").
Definition heap_vector : list Z := (fun i => u64 (i * 31 + 7)) <$> seqZ 0 4096.
Definition cmd_heap : SH unit :=
  println (bytes_of "Vec<u64> with " ++ show (Z.of_nat (length heap_vector)) ++ bytes_of " elements: sum = " ++
           show (foldl (fun s v => u64 (s + v)) 0 heap_vector) ++ bytes_of ", max = " ++ show (foldl Z.max 0 heap_vector));;
  println (bytes_of "String on the heap: " ++ [34] ++ bytes_of "hello from the MachaOS heap allocator!" ++ [34]);;
  allocated ← asks heap_allocated;
  println (bytes_of "after free: " ++ show allocated ++ bytes_of " bytes allocated").
Definition cmd_cpuinfo : SH unit :=
  println (bytes_of "vendor: " ++ default (bytes_of "????") (from_utf8 (vendor_id cpuid)));;
  (match brand_string cpuid with
   | Some brand => println (bytes_of "brand: " ++ trim_end_matches is_whitespace (default [] (from_utf8 brand)))
   | None => mret tt
   end);;
  println (bytes_of "logical cores: " ++ show (cores cpuid));;
  println (bytes_of "features: " ++ join spaces (features cpuid)).
Definition on_tasks {A} (f : ST Sched A) : SH A := on_world (on_sched f).
Definition cmd_tasks : SH unit :=
  count ← asks (fun s => task_count (sched_of (sh_world s)));
  println (bytes_of "scheduler tasks: " ++ show (Z.of_nat count));;
  Gfx.for_in (seq 0 count) (fun i =>
    state ← on_tasks (process_state_label i);
    n ← on_tasks (task_name i);
    println (bytes_of "  [" ++ show (Z.of_nat i) ++ bytes_of "] " ++ bytes_of n ++
             match state with Some st => bytes_of " [proc, " ++ bytes_of st ++ bytes_of "]" | None => [] end));;
  counters ← asks COUNTERS;
  Gfx.for_in (zip (seq 0 (length counters)) counters) (fun '(i, c) =>
    println (bytes_of "  bg-" ++ show (Z.of_nat i) ++ bytes_of " counter: " ++ show c)).

(** ** Waiting for the mouse *)
Fixpoint print_events (fuel : nat) : SH unit :=
  match fuel with
  | O => panic
  | S fuel =>
      e ← on_mouse Mouse.next_event;
      match e with
      | Some e =>
          println (bytes_of "mouse: dx=" ++ int_to_string (dx e) ++ bytes_of " dy=" ++ int_to_string (dy e) ++ bytes_of " left=" ++
                   show_bool (left e) ++ bytes_of " right=" ++ show_bool (right e) ++ bytes_of " middle=" ++ show_bool (middle e));;
          print_events fuel
      | None => mret tt
      end
  end.
Fixpoint mouse_rounds (fuel : nat) (deadline : Z) : SH unit :=
  match fuel with
  | O => panic
  | S fuel =>
      t ← ticks;
      if t <? deadline then print_events (S Mouse.BUFFER_CAPACITY);; halt;; mouse_rounds fuel deadline
      else mret tt
  end.
Definition cmd_mousetest : SH unit :=
  println (bytes_of "polling PS/2 mouse for 5 seconds...");;
  t ← ticks;
  mouse_rounds 501 (u64 (t + 500));;
  println (bytes_of "mousetest done").

(** ** Dispatch *)
Definition help_lines : list str :=
  [bytes_of "Available commands:";
   bytes_of "  help        show this help";
   bytes_of "  clear       clear the screen";
   bytes_of "  echo <txt>  print text";
   bytes_of "  time        print timer ticks";
   bytes_of "  date        print the current date and time (RTC)";
   bytes_of "  uptime      print time since boot";
   bytes_of "  meminfo     print memory information";
   bytes_of "  heap        exercise the heap allocator";
   bytes_of "  cpuinfo     print CPU information";
   bytes_of "  version     print kernel version";
   bytes_of "  reboot      reboot the machine";
   bytes_of "  shutdown    power off (QEMU only)";
   bytes_of "  crash       trigger a divide-by-zero exception";
   bytes_of "  breakpoint  trigger an int3 breakpoint";
   bytes_of "  fault       trigger a page fault";
   bytes_of "  panic       trigger a kernel panic";
   bytes_of "  mousetest   poll the PS/2 mouse for a few seconds";
   bytes_of "  tasks       list scheduler tasks and their counters";
   bytes_of "  ls [path]   list files (default: current directory)";
   bytes_of "  cat <path>  print a file's contents";
   bytes_of "  fatinfo     show mounted volume information";
   bytes_of "  write <path> <text>";
   bytes_of "               write text to a file (LFN supported)";
   bytes_of "  mkdir <path> create a directory";
   bytes_of "  rm <path>   remove a file or empty directory";
   bytes_of "  mv <path> <new-name>";
   bytes_of "               rename a file or directory in place";
   bytes_of "  run <path>  load and run an ELF program as a process";
   bytes_of "  runlinux <path> [args...]";
   bytes_of "               load and run a Linux ELF binary (Linux ABI, see linux_abi.rs)";
   bytes_of "  cd [path]   change directory (default: home, .. goes up)";
   bytes_of "  pwd         print the current directory";
   bytes_of "  whoami      print the current user";
   bytes_of "Paths may be relative to the current directory; '~' means the";
   bytes_of "home directory; quote arguments containing spaces: write notes.txt " ++ [34] ++ bytes_of "hello world" ++ [34]].
Definition cmd_help : SH unit := Gfx.for_in help_lines println.
Definition cmd_echo (args : list str) : SH unit :=
  Gfx.for_in (zip (seq 0 (length args)) args) (fun '(i, arg) =>
    (if decide (0 < i)%nat then print spaces else mret tt);;
    print arg);;
  println [].
(** The commands, by name. *)
Definition returns (m : SH unit) : SH after := m;; mret Back.
Definition run_command (args : list str) (command : str) : SH after :=
  let named c := bool_decide (command = bytes_of c) in
  if named "help"%string then returns cmd_help
  else if named "clear"%string || named "cls"%string then returns (emit Cleared)
  else if named "echo"%string then returns (cmd_echo args)
  else if named "time"%string then returns (t ← ticks; println (bytes_of "system ticks: " ++ show t))
  else if named "date"%string then returns cmd_date
  else if named "uptime"%string then returns (t ← ticks; println (bytes_of "uptime: " ++ show (t / 100) ++ bytes_of " seconds (" ++ show t ++ bytes_of " ticks)"))
  else if named "meminfo"%string then returns cmd_meminfo
  else if named "heap"%string then returns cmd_heap
  else if named "cpuinfo"%string then returns cmd_cpuinfo
  else if named "version"%string || named "ver"%string then returns (println BANNER)
  else if named "reboot"%string then (println (bytes_of "rebooting...");; emit (Port 0x64 0xFE);; mret Halted)
  else if named "shutdown"%string then (println (bytes_of "power off (QEMU isa-debug-exit)...");; emit (Port 0xF4 0);; mret Halted)
  else if named "crash"%string then (println (bytes_of "triggering a divide-by-zero exception (#DE)...");; emit (Trap 0);; mret Faulted)
  else if named "breakpoint"%string then (println (bytes_of "triggering an int3 breakpoint (#BP)...");;
      emit (Trap 3);;
      returns (println (bytes_of "...returned from the breakpoint")))
  else if named "fault"%string then (println (bytes_of "triggering a page fault (#PF)...");; emit (Trap 14);; mret Faulted)
  else if named "panic"%string then panic
  else if named "mousetest"%string then returns cmd_mousetest
  else if named "tasks"%string then returns cmd_tasks
  else if named "ls"%string then returns (cmd_ls args)
  else if named "cat"%string then returns (cmd_cat args)
  else if named "fatinfo"%string then returns cmd_fatinfo
  else if named "write"%string then returns (cmd_write args)
  else if named "mkdir"%string then returns (cmd_mkdir args)
  else if named "rm"%string then returns (cmd_rm args)
  else if named "mv"%string then returns (cmd_mv args)
  else if named "run"%string then returns (cmd_run args)
  else if named "runlinux"%string then returns (cmd_runlinux args)
  else if named "cd"%string then returns (cmd_cd args)
  else if named "pwd"%string then returns (dir ← asks (fun s => cwd (CWD s)); println dir)
  else if named "whoami"%string then returns (println USER)
  else returns (println (bytes_of "unknown command: '" ++ command ++ bytes_of "' (type 'help')")).
Definition execute (line : str) : SH after :=
  let line := trim line in
  if negb (nonempty line) then mret Back
  else match tokenize line with
       | [] => mret Back
       | command :: args => run_command args command
       end.
End shell.
