(* ===== verification/ShellFacts.v ===== *)
(** * What the shell's commands do

    A file written from the prompt is printed back from the prompt, the working
    directory is a normalised path at all times, and waiting for a program ends. *)
From S2P Require Import Prelude Bytes Text PhysMem Multiboot Pmm Paging Disk Ata Rtc Fat FatChain FatDir FatFile Mouse Process Task Spawn Font Gfx Session LineEdit Cpuid Shell Accounting.

(** ** Lines made of arguments *)
Lemma written_ends a : arg_ok a ->
  exists c d, head (written a) = Some c /\ last (written a) = Some d /\ is_whitespace c = false /\ is_whitespace d = false.
Proof.
  intros (Hn & _ & Hs). destruct a as [[] w]; unfold written, quoted; cbn [fst snd] in *.
  - exists 34, 34. split; [done|]. split; [by rewrite app_assoc, last_snoc|done].
  - specialize (Hs eq_refl). destruct w as [|c w]; [done|]. destruct (last (c :: w)) as [d|] eqn:E; [|by apply last_None in E].
    exists c, d. split; [done|]. split; [done|]. apply Forall_cons in Hs as Hs'. split; [apply Hs'|].
    apply last_Some in E as [l' E]. rewrite E in Hs. by apply Forall_app in Hs as [_ [? _]%Forall_cons].
Qed.
Lemma spaced_cons w ws : ws <> [] -> spaced (w :: ws) = w ++ 32 :: spaced ws.
Proof. by destruct ws. Qed.
Lemma spaced_snoc ws w : ws <> [] -> spaced (ws ++ [w]) = spaced ws ++ 32 :: w.
Proof.
  induction ws as [|v ws IH]; intros Hn; [done|]. destruct (decide (ws = [])) as [->|Hws]; [done|].
  cbn [Datatypes.app]. rewrite !spaced_cons, IH by (done || by destruct ws). by rewrite <- app_assoc.
Qed.
Lemma trim_args args : Forall arg_ok args -> args <> [] -> trim (spaced (written <$> args)) = spaced (written <$> args).
Proof.
  intros Ha Hn. destruct args as [|a args]; [done|]. pose proof Ha as [Ha0 _]%Forall_cons.
  destruct (written_ends a Ha0) as (c & _ & Hc & _ & Hcw & _).
  assert (head (spaced (written <$> a :: args)) = Some c) as Hhead.
  { cbn [fmap list_fmap]. destruct args; [done|]. cbn [fmap list_fmap]. rewrite spaced_cons by done. by destruct (written a). }
  destruct (exists_last (l := a :: args)) as (l & z & E); [done|]. rewrite E in Ha |- *. apply Forall_app in Ha as [_ [Hz _]%Forall_cons].
  destruct (written_ends z Hz) as (_ & d & _ & Hd & _ & Hdw). apply (trim_id _ c d); [by rewrite <- E| |done|done].
  rewrite fmap_app. cbn [fmap list_fmap]. destruct l as [|y l]; [done|]. rewrite spaced_snoc by done.
  rewrite last_app_cons. destruct (written z); [done|]. by rewrite last_cons_cons.
Qed.

Section shell.
Context {D : Type} `{BlockDevice D} (rtc_now : D -> DateTime).
Context (heap : Z * Z) (kernel_pml4 trampoline process_entry : Z) (halt : ST (Shell (D := D)) unit).
Context (stack_base : Shell (D := D) -> Z) (heap_total heap_allocated : Shell (D := D) -> Z) (COUNTERS : Shell (D := D) -> list Z).
Context (now : Shell (D := D) -> DateTime) (drives : list AtaDevice) (cpuid : Z -> Z * Z * Z * Z) (info_at : MultibootInfo).
Abbreviation run := (execute rtc_now heap kernel_pml4 trampoline process_entry halt stack_base heap_total heap_allocated COUNTERS now drives cpuid info_at).
Abbreviation dispatch := (run_command rtc_now heap kernel_pml4 trampoline process_entry halt stack_base heap_total heap_allocated COUNTERS now drives cpuid info_at).

Lemma execute_args a args : Forall arg_ok (a :: args) -> run (spaced (written <$> a :: args)) = dispatch (snd <$> args) a.2.
Proof.
  intros Ha. unfold execute. rewrite trim_args by done.
  assert (tokenize (spaced (written <$> a :: args)) = a.2 :: (snd <$> args)) as ->.
  { apply (lex_args (a :: args) (mk_lexer [] [] false)); done. }
  destruct (spaced (written <$> a :: args)) eqn:E; [|done]. exfalso.
  pose proof (lex_args (a :: args) (mk_lexer [] [] false) Ha eq_refl eq_refl) as Hl. by rewrite E in Hl.
Qed.
(** Running a file-system operation. *)
Lemma on_volume_run {A} (f : VOL A) (s : Shell (D := D)) r v :
  f (w_volume (sh_world s)) = Ret r v ->
  on_volume f s = Ret r (mk_shell (set_volume v (sh_world s)) (sh_mouse s) (CWD s) (out s)).
Proof. intros E. unfold on_volume, on_world. by rewrite E. Qed.
Lemma set_volume_twice v v' (w : world (D := D)) : set_volume v (set_volume v' w) = set_volume v w.
Proof. done. Qed.
Definition ascii_arg (s : str) : Prop := Forall (fun c => 0 <= c < 128 /\ c <> 34) s.
Lemma as_bytes_plain s : ascii_arg s -> as_bytes s = s /\ ascii_text s = s.
Proof.
  induction 1 as [|c s [Hc _] _ [IH1 IH2]]; [done|]. split.
  - unfold as_bytes in *. cbn [mbind list_bind]. rewrite IH1. unfold encode_char. by rewrite (proj2 (Z.ltb_lt c 0x80)) by lia.
  - unfold ascii_text in *. cbn [fmap list_fmap]. rewrite IH2. by rewrite (proj2 (Z.ltb_lt c 128)) by lia.
Qed.


(** ** The working directory *)
Definition keeps {A} (m : ST (Shell (D := D)) A) : Prop :=
  forall s, match m s with Ret _ s' => CWD s' = CWD s | Panic => True end.
Hypothesis Hhalt : keeps halt.
Lemma keeps_ret {A} (a : A) : keeps (mret a).
Proof. by intros s. Qed.
Lemma keeps_panic {A} : keeps (A := A) panic.
Proof. by intros s. Qed.
Lemma keeps_bind {A B} (m : ST (Shell (D := D)) A) (k : A -> ST (Shell (D := D)) B) :
  keeps m -> (forall a, keeps (k a)) -> keeps (a ← m; k a).
Proof.
  intros Hm Hk s. unfold mbind, st_bind. specialize (Hm s). destruct (m s) as [a s1|]; [|done].
  specialize (Hk a s1). destruct (k a s1); [congruence|done].
Qed.
Lemma keeps_asks {A} (f : Shell -> A) : keeps (asks f).
Proof. by intros s. Qed.
Lemma keeps_emit o : keeps (emit o).
Proof. by intros s. Qed.
Lemma keeps_world {A} (f : ST (world (D := D)) A) : keeps (on_world f).
Proof. intros s. unfold on_world. by destruct (f (sh_world s)). Qed.
Lemma keeps_mouse {A} (f : ST mouse A) : keeps (on_mouse f).
Proof. intros s. unfold on_mouse. by destruct (f (sh_mouse s)). Qed.
Lemma keeps_unwrap {A} (o : option A) : keeps (unwrap o).
Proof. intros s. unfold unwrap. by destruct o. Qed.
Lemma keeps_for {A} (l : list A) body : (forall x, keeps (body x)) -> keeps (for_in l body).
Proof. intros Hb. induction l as [|x l IH]; [apply keeps_ret|]. cbn [for_in]. by apply keeps_bind. Qed.
Lemma keeps_wait fuel pid deadline : keeps (wait_rounds halt fuel pid deadline).
Proof.
  induction fuel as [|fuel IH]; [apply keeps_panic|]. cbn [wait_rounds]. apply keeps_bind; [apply keeps_world|].
  intros [r|]; [apply keeps_ret|]. by apply keeps_bind.
Qed.
Lemma keeps_events fuel : keeps (print_events fuel).
Proof.
  induction fuel as [|fuel IH]; [apply keeps_panic|]. cbn [print_events]. apply keeps_bind; [apply keeps_mouse|].
  intros [e|]; [|apply keeps_ret]. apply keeps_bind; [apply keeps_emit|done].
Qed.
Lemma keeps_rounds fuel deadline : keeps (mouse_rounds halt fuel deadline).
Proof.
  induction fuel as [|fuel IH]; [apply keeps_panic|]. cbn [mouse_rounds]. apply keeps_bind; [apply keeps_asks|].
  intros t. case_match; [|apply keeps_ret]. apply keeps_bind; [apply keeps_events|]. intros _. by apply keeps_bind.
Qed.
#[local] Hint Resolve keeps_ret keeps_panic keeps_asks keeps_emit keeps_world keeps_mouse keeps_unwrap keeps_wait keeps_events keeps_rounds : keeps.
(** Commands are sequences of such steps. *)
Ltac keep :=
  repeat first
    [ progress intros
    | solve [auto with keeps]
    | apply keeps_bind
    | apply keeps_for
    | case_match ].
Lemma keeps_report :
  keeps cmd_help /\ keeps (cmd_date now) /\ keeps (cmd_fatinfo drives) /\ keeps (cmd_heap heap_allocated) /\
  keeps (cmd_meminfo heap_total heap_allocated info_at) /\ keeps (cmd_cpuinfo cpuid) /\ keeps (cmd_tasks COUNTERS) /\ keeps (cmd_mousetest halt).
Proof.
  unfold cmd_help, cmd_date, cmd_fatinfo, cmd_heap, cmd_meminfo, cmd_cpuinfo, cmd_tasks, cmd_mousetest, ticks, println, on_tasks.
  cbv zeta. split_and!; keep.
Qed.
Lemma keeps_files args :
  keeps (cmd_ls args) /\ keeps (cmd_cat args) /\ keeps (cmd_write rtc_now args) /\ keeps (cmd_mkdir rtc_now args) /\
  keeps (cmd_rm args) /\ keeps (cmd_mv rtc_now args) /\ keeps (cmd_echo args).
Proof.
  unfold cmd_ls, cmd_cat, cmd_write, cmd_mkdir, cmd_rm, cmd_mv, cmd_echo, on_path, path_of, complain, println, print, on_volume.
  cbv zeta. split_and!; keep.
Qed.
Lemma keeps_run args :
  keeps (cmd_run rtc_now heap kernel_pml4 trampoline process_entry halt stack_base args) /\
  keeps (cmd_runlinux rtc_now heap kernel_pml4 trampoline process_entry halt stack_base args).
Proof.
  unfold cmd_run, cmd_runlinux, wait, ticks, path_of, complain, println, on_volume. split; keep.
Qed.
Lemma keeps_returns (m : ST (Shell (D := D)) unit) : keeps m -> keeps (returns m).
Proof. intros Hm. apply keeps_bind; [done|]. intros _. apply keeps_ret. Qed.
Lemma commands_keep command args : command <> bytes_of "cd" -> keeps (dispatch args command).
Proof.
  destruct keeps_report as (? & ? & ? & ? & ? & ? & ? & ?). destruct (keeps_files args) as (? & ? & ? & ? & ? & ? & ?).
  destruct (keeps_run args). assert (keeps ticks) by apply keeps_asks. unfold run_command. intros Hn.
  rewrite (bool_decide_false (command = bytes_of "cd")) by done.
  repeat match goal with |- keeps (if ?b then _ else _) =>
    destruct b; [first [apply keeps_returns; by eauto with keeps | solve [unfold println; keep]]|] end.
  apply keeps_emit.
Qed.

(** Absolute and without empty, [.] or [..] components. *)
Definition normal_path (p : str) : Prop :=
  p = bytes_of "/" ++ join (bytes_of "/") (components p) /\ Forall plain_component (components p).
Lemma abs_path_normal stored path : normal_path (abs_path stored path).
Proof.
  assert (forall p, normal_path (normalize_path p)) as Hn.
  { intros p. destruct (normalize_components p) as (E & Hp & Ec). unfold normal_path. by rewrite Ec. }
  unfold abs_path. case_match; apply Hn.
Qed.
Lemma home_normal : normal_path home.
Proof.
  split; [by vm_compute|]. assert (components home = bytes_of <$> ["users"; "macha"]%string) as -> by (vm_compute; reflexivity).
  repeat constructor; vm_compute; try discriminate; intuition discriminate.
Qed.
Lemma cd_moves args s :
  match cmd_cd args s with
  | Ret _ s' => CWD s' = CWD s \/ normal_path (CWD s') /\ exists v, path_is_dir (CWD s') (w_volume (sh_world s)) = Ret (Ok true) v
  | Panic => True
  end.
Proof.
  assert (forall target, normal_path target -> match (r ← on_volume (path_is_dir target);
    match r with
    | Ok true => set_cwd target
    | Ok false => complain "cd" target (bytes_of "not a directory")
    | Err e => complain "cd" target (fat_error e)
    end) s with
    | Ret _ s' => CWD s' = CWD s \/ normal_path (CWD s') /\ exists v, path_is_dir (CWD s') (w_volume (sh_world s)) = Ret (Ok true) v
    | Panic => True end) as Ht.
  { intros target Hn. unfold mbind, st_bind, on_volume, on_world.
    destruct (path_is_dir target (w_volume (sh_world s))) as [[[]|e] v|] eqn:E; cbn; eauto. }
  unfold cmd_cd. destruct args as [|a l].
  - change (a ← mret home; ?k a) with (k home). exact (Ht _ home_normal).
  - exact (Ht _ (abs_path_normal _ _)).
Qed.

(** C32: The working directory is a directory.  No line, whatever it runs, leaves
    the shell in a place that is not a normalised absolute path: only [cd]
    changes the working directory, and only to a path in normal form which the
    volume, as it was then, said is a directory.  (The directory may be removed
    afterwards: the shell does not notice.)  Starting from the empty string of
    boot, which stands for the home directory, every command of a session
    therefore sees a working directory in normal form. *)
Theorem working_directory_normal lines s :
  normal_path (cwd (CWD s)) ->
  match for_in lines (fun line => a ← run line; mret tt) s with
  | Ret _ s' => normal_path (cwd (CWD s')) /\
      (CWD s' <> CWD s -> exists line args s1 v, line ∈ lines /\ tokenize (trim line) = bytes_of "cd" :: args /\
         path_is_dir (CWD s') (w_volume (sh_world s1)) = Ret (Ok true) v)
  | Panic => True
  end.
Proof.
  assert (forall line s, match run line s with
    | Ret _ s' => CWD s' = CWD s \/ normal_path (CWD s') /\ exists args v, tokenize (trim line) = bytes_of "cd" :: args /\
         path_is_dir (CWD s') (w_volume (sh_world s)) = Ret (Ok true) v
    | Panic => True end) as Hrun.
  { intros line s0. unfold execute. destruct (negb (nonempty (trim line))); [by left|]. destruct (tokenize (trim line)) as [|command args]; [by left|].
    destruct (decide (command = bytes_of "cd")) as [->|Hc].
    - change (dispatch args (bytes_of "cd")) with (returns (cmd_cd args)). unfold returns, mbind, st_bind.
      pose proof (cd_moves args s0) as Hm. destruct (cmd_cd args s0) as [[] s1|]; [|done]. cbn.
      destruct Hm as [?|(? & v & ?)]; [by left|right]. eauto.
    - pose proof (commands_keep command args Hc s0) as Hk. destruct (dispatch args command s0); [by left|done]. }
  revert s. induction lines as [|line lines IH]; intros s Hs; [by split|].
  assert (forall f : str -> ST (Shell (D := D)) after, for_in (line :: lines) (fun line => a ← f line; mret tt) s =
    match f line s with Ret _ s1 => for_in lines (fun line => a ← f line; mret tt) s1 | Panic => Panic end) as ->.
  { intros f. cbn [for_in]. unfold mbind, st_bind. by destruct (f line s). }
  specialize (Hrun line s). destruct (run line s) as [a s1|]; [|done].
  assert (normal_path (cwd (CWD s1))) as Hs1.
  { destruct Hrun as [E|[Hn _]]; [by rewrite E|]. unfold cwd. case_match; [done|exact home_normal]. }
  specialize (IH s1 Hs1). destruct (for_in lines _ s1) as [[] s2|]; [|done]. destruct IH as [Hn2 Hcd]. split; [done|].
  intros Hd. destruct (decide (CWD s2 = CWD s1)) as [E|E].
  - rewrite E in Hd |- *. destruct Hrun as [E1|(_ & args & v & Ht & Hv)]; [congruence|].
    exists line, args, s, v. split; [by left|done].
  - destruct (Hcd E) as (l & args & s0 & v & Hl & ?). exists l, args, s0, v. split; [by right|done].
Qed.
End shell.

(** ** Waiting for a program *)
Section waiting.
Context {D : Type} `{BlockDevice D} (halt : ST (Shell (D := D)) unit).
Definition exit_of (pid : nat) (s : Shell (D := D)) (info : ExitInfo) : Prop :=
  exists p, process_of (sched_of (sh_world s)) pid = Some p /\ p_state p = Exited /\ exit_info p = Some info.
(** What [hlt] relies on: it comes back after a timer tick, and the state stays
    one in which an exited process says how it exited. *)
Context (Inv : Shell (D := D) -> Prop) (pid : nat).
Hypothesis Hticks : forall s, Inv s -> exists s', halt s = Ret tt s' /\ Inv s' /\ w_ticks (sh_world s) < w_ticks (sh_world s').
Hypothesis Hexit : forall s p, Inv s -> process_of (sched_of (sh_world s)) pid = Some p -> p_state p = Exited -> exit_info p <> None.

Lemma wait_poll_at s deadline : Inv s ->
  exists r, on_world (wait_poll pid deadline) s = Ret r s /\
    match r with
    | Some (Some info) => exit_of pid s info
    | Some None => deadline <= w_ticks (sh_world s) /\ forall info, ~ exit_of pid s info
    | None => w_ticks (sh_world s) < deadline
    end.
Proof.
  intros Hs. pose proof (Hexit s) as He. unfold on_world, wait_poll, mbind, st_bind, on_sched, process_exit_status, gets, exit_of.
  destruct s as [[[] ? ? ? ? ? ? ? ?] m c o]. unfold with_sched, sched_of in *. cbn in He |- *.
  destruct (process_of _ pid) as [p|] eqn:Ep; cbn.
  - case_bool_decide as Hx; cbn.
    + eexists; split; [reflexivity|]. destruct (deadline <=? _) eqn:El; [|cbn; lia]. split; [cbn; lia|].
      intros i (q & [= <-] & ? & ?). congruence.
    + destruct (exit_info p) as [i|] eqn:Ei; [|by destruct (He p)]. eexists; split; [reflexivity|]. cbn. by exists p.
  - eexists; split; [reflexivity|]. destruct (deadline <=? _) eqn:El; [|cbn; lia]. split; [cbn; lia|].
    by intros i (q & ? & _).
Qed.
Lemma wait_rounds_ends fuel deadline s : Inv s -> Z.max 0 (deadline - w_ticks (sh_world s)) < Z.of_nat fuel ->
  exists r s', wait_rounds halt fuel pid deadline s = Ret r s' /\ Inv s' /\
    match r with Some info => exit_of pid s' info | None => deadline <= w_ticks (sh_world s') /\ forall info, ~ exit_of pid s' info end.
Proof.
  revert s. induction fuel as [|fuel IH]; intros s Hs Hf; [lia|].
  destruct (wait_poll_at s deadline Hs) as (r & E & Hr). cbn [wait_rounds]. rewrite (st_bind_ret _ _ _ _ _ E).
  destruct r as [[info|]|]; [by eauto..|].
  destruct (Hticks s Hs) as (s1 & E1 & Hs1 & Ht). rewrite (st_bind_ret _ _ _ _ _ E1). apply IH; [done|lia].
Qed.

(** Waiting for a program always ends.  Whatever the machine does between two
    looks (interrupts, other tasks: [halt]), as long as its ticks advance and a
    process that exited has its exit information, [wait] returns within
    [timeout] looks at most: with the information of the process when it had
    exited at that look, and with nothing only when the deadline had passed and
    the process had not exited. *)
Theorem wait_returns s timeout :
  Inv s -> 0 <= w_ticks (sh_world s) -> 0 <= timeout -> w_ticks (sh_world s) + timeout < 2 ^ 64 ->
  exists r s', wait halt pid timeout s = Ret r s' /\ Inv s' /\
    match r with
    | Some info => exit_of pid s' info
    | None => w_ticks (sh_world s) + timeout <= w_ticks (sh_world s') /\ forall info, ~ exit_of pid s' info
    end.
Proof.
  intros Hs H0 Ht Hw. unfold wait, ticks. rewrite (st_bind_ret _ _ _ _ _ (eq_refl : asks _ s = Ret _ s)).
  rewrite wrap_small by (unfold in_u; lia). apply wait_rounds_ends; [done|lia].
Qed.
End waiting.

(** ** Witnesses *)
Definition sample_shell (v : option (Fat32 RamDisk)) : Shell :=
  mk_shell (set_volume v sample_world) Mouse.boot_state [] [].
(** A machine on which nothing happens but the timer. *)
Definition tick : ST (Shell (D := RamDisk)) unit := fun s =>
  let w := sh_world s in
  Ret tt (mk_shell (MkWorld (w_machine w) (w_tasks w) (w_current w) (w_ticks w + 1) (w_cpu w) (w_volume w) (w_endpoints w)
                      (w_listeners w) (w_objects w)) (sh_mouse s) (CWD s) (out s)).
Definition no_cpuid (leaf : Z) : Z * Z * Z * Z := (0, 0, 0, 0).
Abbreviation sample_run := (execute sample_clock (0, 0) (16 * 4096) 0x1000 0x2000 tick (fun _ => 0x4000) (fun _ => 1024) (fun _ => 0)
  (fun _ => []) (fun _ => sample_clock (MkRamDisk [])) [] no_cpuid (mk_info 0)).
Lemma working_directory_normal_witness :
  normal_path (cwd []) /\
  match for_in [bytes_of "cd /"; bytes_of "pwd"] (fun line => a ← sample_run line; mret tt) (sample_shell (Some sample_volume)) with
  | Ret _ s' => CWD s' = bytes_of "/" /\ normal_path (cwd (CWD s'))
  | Panic => False
  end.
Proof.
  pose proof (working_directory_normal sample_clock (0, 0) (16 * 4096) 0x1000 0x2000 tick (fun _ => 0x4000) (fun _ => 1024) (fun _ => 0)
    (fun _ => []) (fun _ => sample_clock (MkRamDisk [])) [] no_cpuid (mk_info 0) (fun s => eq_refl)
    [bytes_of "cd /"; bytes_of "pwd"] (sample_shell (Some sample_volume)) home_normal) as Hw.
  split; [exact home_normal|].
  assert (match for_in [bytes_of "cd /"; bytes_of "pwd"] (fun line => a ← sample_run line; mret tt) (sample_shell (Some sample_volume)) with
    | Ret _ s' => CWD s' = bytes_of "/" | Panic => False end) as E by (vm_compute; reflexivity).
  destruct (for_in _ _ _) as [[] s'|]; [|exact E]. split; [exact E|apply Hw].
Defined.
Lemma wait_returns_witness :
  exists s', wait tick 0 5 (sample_shell None) = Ret None s' /\ w_ticks (sh_world s') = 5.
Proof.
  destruct (wait_returns tick (fun s => w_tasks (sh_world s) = w_tasks (sample_world)) 0) with (s := sample_shell None) (timeout := 5)
    as (r & s' & E & _); [|by intros s p Hs; unfold process_of, sched_of; cbn; rewrite Hs|reflexivity|cbn; lia|lia|cbn; lia|].
  - intros s Hs. eexists. split; [reflexivity|]. split; [exact Hs|]. cbn. lia.
  - assert (match wait tick 0 5 (sample_shell None) with Ret r s' => r = None /\ w_ticks (sh_world s') = 5 | Panic => False end) as Ev
      by (vm_compute; split; reflexivity).
    rewrite E in Ev |- *. destruct Ev as [-> Et]. exists s'. split; [reflexivity|exact Et].
Defined.
