(* ===== verification/Canvas.v ===== *)
(** * Windows that draw their own contents

    Paint, the image viewer, the calculator and the settings implement the
    [Surface] trait over a vector of pixels as the frame buffer does, but keep the
    trait's own [blend_span]; all but the settings keep its [get_pixel], too. *)
From stdpp Require Import list_numbers.
From S2P Require Import Prelude Bytes Font Gfx Draw PixelBuffer.

Section canvas.
Context {T : Type} {PB : PixelBuffer T}.
(** [impl Surface for PaintApp], [ImageViewerApp] and [CalculatorApp] *)
Definition canvas_surface : Surface T := {|
  width := buf_width; height := buf_height; put_pixel := buf_put_pixel; get_pixel := get_pixel_default;
  blit_span := buf_blit_span; fill_span := buf_fill_span;
  blend_span := blend_span_default buf_put_pixel get_pixel_default |}.
#[refine] Definition canvas_spec (s0 : T) : @SurfaceSpec T canvas_surface := {|
  ok := pix_ok s0; pixel := pix; readable := false |}.
Proof.
  - intros s (? & ? & ? & ? & _). split; split; done.
  - intros. by apply buf_put_pixel_spec.
  - done.
  - intros. by apply buf_fill_span_spec.
  - done.
  - intros. by apply buf_blit_span_spec.
Defined.
(** [impl Surface for SettingsApp] *)
Definition readable_surface : Surface T := {|
  width := buf_width; height := buf_height; put_pixel := buf_put_pixel; get_pixel := buf_get_pixel;
  blit_span := buf_blit_span; fill_span := buf_fill_span;
  blend_span := blend_span_default buf_put_pixel buf_get_pixel |}.
(** [for pixel in &mut self.buffer { *pixel = c }] *)
Definition clear_buffer (c : Z) : ST T unit := modify (fun s => set_buf (replicate (length (buf s)) c) s).
End canvas.
