(* ===== verification/Settings.v ===== *)
(** * Settings, [settings.rs]

    The settings file and the Settings window.  The window's drawing routine
    saves the file each time it runs, so drawing, too, works on the volume. *)
From stdpp Require Import list_numbers.
From S2P Require Import Prelude Bytes Text PhysMem Multiboot Disk Rtc Fat Font Gfx Draw PixelBuffer Canvas Fb Cpuid.

Definition SETTINGS_PATH : str := bytes_of "/system/settings.conf".
Definition WIDTH : Z := 480.
Definition SIDEBAR_W : Z := 140.
Definition BG : Z := 0x00202020.
Definition SIDEBAR_BG : Z := 0x001A1A1A.
Definition TEXT : Z := 0x00FFFFFF.
Definition TEXT_DIM : Z := 0x009A9A9A.
Definition ROW_BG : Z := 0x002C2C2C.
Definition ROW_HOVER : Z := 0x00343434.
Definition NAV_HOVER : Z := 0x00262626.
Definition NAV_SELECTED : Z := 0x002C2C2C.
Definition TOGGLE_OFF : Z := 0x004A4A4A.
Definition DIVIDER : Z := 0x002A2A2A.
Definition ACCENT_COLORS : list (str * Z) :=
  [(bytes_of "blue", 0x004CC2FF); (bytes_of "purple", 0x00A87BD4); (bytes_of "green", 0x0086C77B);
   (bytes_of "orange", 0x00E8A87B); (bytes_of "red", 0x00E87B7B)].

Inductive Page := System | Personalization | About.
Global Instance page_eq : EqDecision Page.
Proof. solve_decision. Defined.

Record Settings := mk_settings {
  accent_color : str; wallpaper : bool; show_bg_tasks : bool; resolution : option (Z * Z); font_scale_percent : Z }.
Definition defaults : Settings := mk_settings (bytes_of "blue") true true None 100.
Definition set_accent_color v s := mk_settings v (wallpaper s) (show_bg_tasks s) (resolution s) (font_scale_percent s).
Definition set_wallpaper v s := mk_settings (accent_color s) v (show_bg_tasks s) (resolution s) (font_scale_percent s).
Definition set_show_bg_tasks v s := mk_settings (accent_color s) (wallpaper s) v (resolution s) (font_scale_percent s).
Definition set_resolution v s := mk_settings (accent_color s) (wallpaper s) (show_bg_tasks s) v (font_scale_percent s).
Definition set_font_scale v s := mk_settings (accent_color s) (wallpaper s) (show_bg_tasks s) (resolution s) v.
Definition accent_color_rgb (s : Settings) : Z :=
  match find (fun c => bool_decide (c.1 = accent_color s)) ACCENT_COLORS with Some c => c.2 | None => 0x004CC2FF end.

(** ** The file *)
(** [str::split_once] *)
Fixpoint split_once (sep : Z) (s : str) : option (str * str) :=
  match s with
  | [] => None
  | c :: s => if c =? sep then Some ([], s) else '(a, b) ← split_once sep s; Some (c :: a, b)
  end.
Section file.
(** [fb::dimensions]: the physical resolution. *)
Variable dims : Z * Z.
Definition parse_resolution (value : str) : option (Z * Z) :=
  if bool_decide (value = bytes_of "native") then None else
  '(w, h) ← split_once 120 value;
  w ← parse_uint 32 w; h ← parse_uint 32 h;
  if (dims.1 <? w) || (dims.2 <? h) || (w =? 0) || (h =? 0) then None else Some (w, h).
Definition apply_setting (key value : str) (s : Settings) : Settings :=
  if bool_decide (key = bytes_of "accent_color") then set_accent_color value s
  else if bool_decide (key = bytes_of "wallpaper") then set_wallpaper (bool_decide (value = bytes_of "true")) s
  else if bool_decide (key = bytes_of "show_bg_tasks") then set_show_bg_tasks (bool_decide (value = bytes_of "true")) s
  else if bool_decide (key = bytes_of "resolution") then set_resolution (parse_resolution value) s
  else if bool_decide (key = bytes_of "font_scale") then set_font_scale (default 100 (parse_uint 16 value)) s
  else s.
Definition load_line (s : Settings) (line : str) : Settings :=
  let line := trim line in
  if negb (nonempty line) || bool_decide (head line = Some 35) then s
  else match split_once 61 line with
       | Some (key, value) => apply_setting (trim key) (trim value) s
       | None => s
       end.
Definition load_text (data : list Z) : Settings :=
  match from_utf8 data with Some text => foldl load_line defaults (lines text) | None => defaults end.
Definition bool_text (b : bool) : str := if b then bytes_of "true" else bytes_of "false".
Definition resolution_text (r : option (Z * Z)) : str :=
  match r with Some (w, h) => uint_to_string w ++ bytes_of "x" ++ uint_to_string h | None => bytes_of "native" end.
Definition setting_lines (s : Settings) : list str :=
  [bytes_of "# MachaOS settings";
   bytes_of "accent_color=" ++ accent_color s;
   bytes_of "wallpaper=" ++ bool_text (wallpaper s);
   bytes_of "show_bg_tasks=" ++ bool_text (show_bg_tasks s);
   bytes_of "resolution=" ++ resolution_text (resolution s);
   bytes_of "font_scale=" ++ uint_to_string (font_scale_percent s)].
Definition content (s : Settings) : str := setting_lines s ≫= (fun l => l ++ [10]).

Section disk.
Context {D : Type} `{BlockDevice D} (rtc_now : D -> DateTime).
Abbreviation Volume := (option (Fat32 D)).
Definition load : ST Volume Settings := fun v =>
  match read_file SETTINGS_PATH v with
  | Ret (Ok data) v => Ret (load_text data) v
  | Ret (Err _) v => Ret defaults v
  | Panic => Panic
  end.
Definition save (s : Settings) : ST Volume bool := fun v =>
  match write_file rtc_now SETTINGS_PATH (as_bytes (content s)) v with
  | Ret (Ok _) v => Ret true v
  | Ret (Err _) v => Ret false v
  | Panic => Panic
  end.
End disk.
End file.

(** ** What the window shows of the machine *)
Definition build_about_lines (dims : Z * Z) (cpuid : Z -> Z * Z * Z * Z) (m : mem) (info : MultibootInfo)
    (heap_allocated heap_total : Z) : list str :=
  let brand := match brand_string cpuid with
               | Some b => let b := trim_end_matches is_whitespace (default [] (from_utf8 b)) in
                           if nonempty b then [b] else []
               | None => []
               end in
  let memory := match memory_lower_kb m info, memory_upper_kb m info with
                | Some lower, Some upper => [bytes_of "Memory: " ++ uint_to_string (u32 (lower + upper)) ++ bytes_of " KiB"]
                | _, _ => []
                end in
  [bytes_of "MachaOS v0.1.0";
   bytes_of "CPU: " ++ default (bytes_of "unknown") (from_utf8 (vendor_id cpuid))] ++ brand ++ memory ++
  [bytes_of "Display: " ++ uint_to_string dims.1 ++ bytes_of "x" ++ uint_to_string dims.2 ++ bytes_of "x32";
   bytes_of "Heap: " ++ uint_to_string (heap_allocated / 1024) ++ bytes_of " / " ++ uint_to_string (heap_total / 1024) ++
     bytes_of " KiB"].

(** ** The window *)
(** What the Settings window asks the window manager to do after a click. *)
Inductive SettingsChange := NoChange | Reload | Resolution (w h : Z) | FontScale (scale : Z).
Record SettingsApp := mk_settings_app {
  buffer : list Z; settings : Settings; page : Page; cursor : Z * Z; about_lines : list str }.
Definition I32_MAX : Z := 2 ^ 31 - 1.

Section window.
(** The font scale, a byte. *)
Variable fscale : Z.
Definition window_height : Z := 380 + (fscale - 1) * 180.
Definition row_height : Z := glyph_h fscale + 12.
#[refine] Definition settings_buffer : PixelBuffer SettingsApp := {|
  buf_width := fun _ => WIDTH; buf_height := fun _ => window_height; buf := buffer;
  set_buf b a := mk_settings_app b (settings a) (page a) (cursor a) (about_lines a) |}.
Proof. all: try done. by intros []. Defined.
Definition app_width (a : SettingsApp) : Z := WIDTH.
Definition app_height (a : SettingsApp) : Z := window_height.
Definition pixels (a : SettingsApp) : list Z := buffer a.
#[local] Hint Extern 0 (Surface SettingsApp) => exact (readable_surface (PB := settings_buffer)) : typeclass_instances.

Variable dims : Z * Z.
Definition supported_resolutions : list (Z * Z) :=
  filter (fun r => (r.1 <=? dims.1) && (r.2 <=? dims.2) = true) Fb.SUPPORTED_RESOLUTIONS.
Definition content_top : Z := 12 + glyph_h fscale + 8.
Definition label_h : Z := glyph_h fscale + 6.
Definition app_settings : ST SettingsApp Settings := a ← get_st; mret (settings a).
(** Inside the rectangle, as the hover tests write it. *)
Definition over (c : Z * Z) (x0 x1 y0 y1 : Z) : bool :=
  (x0 <=? c.1) && (c.1 <? x1) && (y0 <=? c.2) && (c.2 <? y1).
Definition text (x y : Z) (s : str) (color : Z) : ST SettingsApp unit :=
  draw_string fscale x y (as_bytes s) color None.
Definition page_title (title : string) : ST SettingsApp unit := text (SIDEBAR_W + 16) 12 (bytes_of title) TEXT.
Definition section_label (y : Z) (label : string) : ST SettingsApp unit := text (SIDEBAR_W + 16) y (bytes_of label) TEXT_DIM.
(** The list with its indices, [iter().enumerate()]. *)
Definition enumerate {A} (l : list A) : list (Z * A) := zip (range 0 (Z.of_nat (length l))) l.
Definition nav : list (Page * string) :=
  [(System, "System"); (Personalization, "Personalization"); (About, "About")]%string.

Definition render_sidebar (accent : Z) (c : Z * Z) : ST SettingsApp unit :=
  let height := window_height in
  fill_rect 0 0 SIDEBAR_W height SIDEBAR_BG;;
  fill_rect (SIDEBAR_W - 1) 0 1 height DIVIDER;;
  let nav_h := 36 in
  for_in (enumerate nav) (fun '(i, (p, label)) =>
    let ny := 12 + i * (nav_h + 8) in
    let hovered := over c 8 (SIDEBAR_W - 8) ny (ny + nav_h) in
    a ← get_st;
    let selected := bool_decide (page a = p) in
    let bg := if selected then NAV_SELECTED else if hovered then NAV_HOVER else SIDEBAR_BG in
    fill_rounded_rect 8 ny (SIDEBAR_W - 16) nav_h 4 bg;;
    (if selected then fill_rounded_rect 8 (ny + 8) 3 (nav_h - 16) 2 accent else mret tt);;
    let text_color := if selected then TEXT else TEXT_DIM in
    let ty := u32 (ny + u32 (nav_h - glyph_h fscale) / 2) in
    text 18 ty (bytes_of label) text_color).

Definition render_option_row_text (y accent : Z) (c : Z * Z) (selected : bool) (label : str) : ST SettingsApp unit :=
  let rh := row_height in
  let x := SIDEBAR_W + 16 in
  let hovered := over c x (WIDTH - 16) y (y + rh) in
  let bg := if selected then blend accent ROW_BG 45 else if hovered then ROW_HOVER else ROW_BG in
  fill_rounded_rect x y (WIDTH - SIDEBAR_W - 32) rh 6 bg;;
  (if selected then fill_rounded_rect x y (WIDTH - SIDEBAR_W - 32) 1 1 accent else mret tt);;
  let ry := y + (rh - 12) / 2 in
  let ring := if selected then accent else 0x005A5A5A in
  fill_rounded_rect (x + 12) ry 12 12 6 ring;;
  (if selected then fill_rounded_rect (x + 16) (ry + 4) 4 4 2 TEXT else mret tt);;
  let ty := y + (rh - glyph_h fscale) / 2 in
  text (x + 34) ty label TEXT.
Definition render_option_row (y accent : Z) (c : Z * Z) (selected : bool) (w h : Z) : ST SettingsApp unit :=
  render_option_row_text y accent c selected (uint_to_string w ++ bytes_of " x " ++ uint_to_string h).
Definition render_system (accent : Z) (c : Z * Z) : ST SettingsApp unit :=
  let rh := row_height in
  page_title "Display";;
  let yy := content_top in
  section_label yy "Resolution";;
  let yy := yy + label_h in
  let resolutions := supported_resolutions in
  s ← app_settings;
  let selected := match resolution s with Some r => r | None => dims end in
  for_in (enumerate resolutions) (fun '(i, (w, h)) =>
    render_option_row (yy + i * rh) accent c (bool_decide ((w, h) = selected)) w h);;
  let yy := yy + Z.of_nat (length resolutions) * rh + 10 in
  section_label yy "Font size";;
  let yy := yy + label_h in
  for_in (enumerate [(100, "100%  (Default)"%string); (200, "200%  (Large)"%string)]) (fun '(i, (percent, label)) =>
    s ← app_settings;
    render_option_row_text (yy + i * rh) accent c (font_scale_percent s =? percent) (bytes_of label));;
  let yy := yy + 2 * rh + 12 in
  text (SIDEBAR_W + 16) yy (bytes_of "Screen: " ++ uint_to_string dims.1 ++ bytes_of " x " ++ uint_to_string dims.2) TEXT_DIM.

Definition draw_toggle (y : Z) (on : bool) (accent : Z) (c : Z * Z) : ST SettingsApp unit :=
  let w := 44 in
  let h := 22 in
  let track_x := WIDTH - SIDEBAR_W - 16 - w in
  let hovered := over c track_x (track_x + w) y (y + h) in
  let track_color := if on then accent else TOGGLE_OFF in
  fill_rounded_rect track_x y w h 11 track_color;;
  let knob_x := if on then track_x + w - h + 2 else track_x + 2 in
  fill_rounded_rect knob_x (y + 2) (h - 4) (h - 4) 9 0x00FFFFFF;;
  if hovered then fill_rounded_rect (track_x - 2) (y - 2) (w + 4) (h + 4) 13 0x004A4A4A else mret tt.
Definition swatch : Z := 28.
Definition gap : Z := 12.
(** Where a swatch is drawn. *)
Definition swatch_x (i : Z) : Z := SIDEBAR_W + 16 + i * (swatch + gap).
Definition render_personalization (accent : Z) (c : Z * Z) : ST SettingsApp unit :=
  page_title "Personalization";;
  let yy := content_top in
  section_label yy "Accent color";;
  let yy := yy + label_h in
  for_in (enumerate ACCENT_COLORS) (fun '(i, (name, color)) =>
    let sx := swatch_x i in
    s ← app_settings;
    let selected := bool_decide (accent_color s = name) in
    let hovered := over c sx (sx + swatch) yy (yy + swatch) in
    (if selected || hovered then
       fill_rounded_rect (sx - 3) (yy - 3) (swatch + 6) (swatch + 6) 8 (if selected then TEXT else 0x004A4A4A)
     else mret tt);;
    fill_rounded_rect sx yy swatch swatch 6 color);;
  let yy := yy + swatch + 18 in
  s ← app_settings;
  text (SIDEBAR_W + 16) yy (bytes_of "Wallpaper") TEXT;;
  draw_toggle (yy + 2) (wallpaper s) accent c;;
  let yy := yy + 24 + 14 in
  text (SIDEBAR_W + 16) yy (bytes_of "Show background tasks") TEXT;;
  draw_toggle (yy + 2) (show_bg_tasks s) accent c.
Fixpoint about_text (y : Z) (ls : list str) : ST SettingsApp unit :=
  match ls with
  | [] => mret tt
  | l :: ls => text (SIDEBAR_W + 16) y l TEXT_DIM;; about_text (u32 (y + (glyph_h fscale + 6))) ls
  end.
Definition render_about : ST SettingsApp unit :=
  page_title "About";;
  a ← get_st;
  about_text (content_top + 4) (about_lines a).
Definition render_page (accent : Z) (c : Z * Z) : ST SettingsApp unit :=
  a ← get_st;
  match page a with
  | System => render_system accent c
  | Personalization => render_personalization accent c
  | About => render_about
  end.

Context {D : Type} `{BlockDevice D} (rtc_now : D -> DateTime).
Abbreviation APP := (ST (option (Fat32 D) * SettingsApp)).
Definition on_app {A} (m : ST SettingsApp A) : APP A := fun '(v, a) =>
  match m a with Ret r a => Ret r (v, a) | Panic => Panic end.
Definition save_now : APP bool := fun '(v, a) =>
  match save rtc_now (settings a) v with Ret r v => Ret r (v, a) | Panic => Panic end.
Definition render : APP unit :=
  a ← on_app get_st;
  let accent := accent_color_rgb (settings a) in
  let height := window_height in
  on_app (fill_rect 0 0 WIDTH height BG);;
  on_app (render_sidebar accent (cursor a));;
  on_app (render_page accent (cursor a));;
  saved ← save_now;
  let status := if saved : bool then bytes_of "Settings saved" else bytes_of "Failed to save" in
  on_app (text (SIDEBAR_W + 16) (u32 (height - glyph_h fscale - 8)) status TEXT_DIM).
Definition new (s : Settings) (about : list str) (v : option (Fat32 D)) : outcome (option (Fat32 D) * SettingsApp) unit :=
  render (v, mk_settings_app (replicate (Z.to_nat (WIDTH * window_height)) BG) s System (I32_MAX, I32_MAX) about).
Definition update (f : SettingsApp -> SettingsApp) : APP unit := on_app (modify f).
Definition with_settings (f : Settings -> Settings) (a : SettingsApp) : SettingsApp :=
  mk_settings_app (buffer a) (f (settings a)) (page a) (cursor a) (about_lines a).
Definition with_page (p : Page) (a : SettingsApp) : SettingsApp :=
  mk_settings_app (buffer a) (settings a) p (cursor a) (about_lines a).
Definition with_cursor (c : Z * Z) (a : SettingsApp) : SettingsApp :=
  mk_settings_app (buffer a) (settings a) (page a) c (about_lines a).
Definition render_hover (x y : Z) : APP unit :=
  a ← on_app get_st;
  if bool_decide (cursor a = (x, y)) then mret tt else update (with_cursor (x, y));; render.

(** ** Clicks *)
(** What a changed setting does: [self.settings.save(); self.render()]. *)
Definition change (f : Settings -> Settings) (c : SettingsChange) : APP SettingsChange :=
  update (with_settings f);; save_now;; render;; mret c.
(** The first row of the list that is hit. *)
Definition hit_row {A} (rows : list A) (yy x y : Z) : option A :=
  match find (fun r => (yy + r.1 * row_height <=? y) && (y <? yy + r.1 * row_height + row_height) &&
                       (16 <=? x) && (x <? WIDTH - SIDEBAR_W - 16)) (enumerate rows) with
  | Some r => Some r.2
  | None => None
  end.
Definition handle_system_click (x y : Z) : APP SettingsChange :=
  let yy := content_top + label_h in
  let resolutions := supported_resolutions in
  a ← on_app get_st;
  match hit_row resolutions yy x y with
  | Some (w, h) =>
      let next := if bool_decide ((w, h) = dims) then None else Some (w, h) in
      if bool_decide (resolution (settings a) = next) then mret NoChange
      else change (set_resolution next) (Resolution w h)
  | None =>
      let yy := yy + Z.of_nat (length resolutions) * row_height + 10 + label_h in
      match hit_row [100; 200] yy x y with
      | Some percent =>
          if font_scale_percent (settings a) =? percent then mret NoChange
          else change (set_font_scale percent) (FontScale (percent / 100))
      | None => mret NoChange
      end
  end.
Definition toggle_hit (x y row_y : Z) : bool :=
  let toggle_x := WIDTH - SIDEBAR_W - 16 - 44 in
  let toggle_y := row_y + 2 in
  (toggle_y <=? y) && (y <? toggle_y + 22) && (toggle_x <=? x) && (x <? toggle_x + 44).
Definition hit_swatch (x y yy : Z) : option str :=
  match find (fun r => (swatch_x r.1 <=? x) && (x <? swatch_x r.1 + swatch) && (yy <=? y) && (y <? yy + swatch))
             (enumerate ACCENT_COLORS) with
  | Some r => Some r.2.1
  | None => None
  end.
Definition handle_personalization_click (x y : Z) : APP SettingsChange :=
  let yy := content_top + label_h in
  a ← on_app get_st;
  match hit_swatch x y yy with
  | Some name =>
      if bool_decide (accent_color (settings a) = name) then mret NoChange
      else change (set_accent_color name) Reload
  | None =>
      let yy := yy + swatch + 18 in
      if toggle_hit x y yy then change (fun s => set_wallpaper (negb (wallpaper s)) s) Reload
      else
        let yy := yy + 24 + 14 in
        if toggle_hit x y yy then change (fun s => set_show_bg_tasks (negb (show_bg_tasks s)) s) Reload
        else mret NoChange
  end.
(** [x] and [y] are [i32] coordinates in the window. *)
Definition app_click (x y : Z) : APP SettingsChange :=
  if (x <? 0) || (y <? 0) then mret NoChange
  else if x <? SIDEBAR_W then
    match find (fun r => (12 + r.1 * (36 + 8) <=? y) && (y <? 12 + r.1 * (36 + 8) + 36)) (enumerate nav) with
    | Some (_, (p, _)) => update (with_page p);; render;; mret NoChange
    | None => mret NoChange
    end
  else
    a ← on_app get_st;
    match page a with
    | System => handle_system_click (x - SIDEBAR_W) y
    | Personalization => handle_personalization_click (x - SIDEBAR_W) y
    | About => mret NoChange
    end.
End window.
