(* ===== verification/SettingsFacts.v ===== *)
(** * What the settings keep, and where the window goes wrong

    The file is read back as it was saved.  Two defects of the window: its
    personalisation page tests clicks a sidebar's width to the right of what it
    draws, and enlarging the font outgrows its pixels. *)
From stdpp Require Import list_numbers.
From S2P Require Import Prelude Bytes Text PhysMem Multiboot Disk Rtc Fat Session Font Gfx Draw PixelBuffer Canvas Fb FbFacts Cpuid Settings.

(** ** The file *)
(** Nothing that trimming or splitting the lines would change. *)
Definition trimmed (s : str) : Prop :=
  (s = [] \/ exists c d, head s = Some c /\ last s = Some d /\ is_whitespace c = false /\ is_whitespace d = false) /\
  10 ∉ s /\ Forall (fun c => is_scalar c = true) s.
Definition settings_ok (dims : Z * Z) (s : Settings) : Prop :=
  trimmed (accent_color s) /\ 0 <= font_scale_percent s < 2 ^ 16 /\
  match resolution s with
  | Some (w, h) => 0 < w <= dims.1 /\ 0 < h <= dims.2 /\ w < 2 ^ 32 /\ h < 2 ^ 32
  | None => True
  end.
Lemma trimmed_trim s : trimmed s -> trim s = s.
Proof. intros [[->|(c & d & ? & ? & ? & ?)] _]; [done|by apply (trim_id s c d)]. Qed.
Lemma split_once_at sep k v : sep ∉ k -> split_once sep (k ++ sep :: v) = Some (k, v).
Proof.
  induction k as [|c k IH]; intros Hk; cbn [split_once Datatypes.app]; [by rewrite Z.eqb_refl|].
  apply not_elem_of_cons in Hk as [Hc Hk]. rewrite (proj2 (Z.eqb_neq c sep)) by done. by rewrite IH.
Qed.
(** A line [key=value]. *)
Definition key_ok (k : str) : Prop :=
  trimmed k /\ 61 ∉ k /\ k <> [] /\ head k <> Some 35.
Lemma load_entry dims s k v : key_ok k -> trimmed v ->
  load_line dims s (k ++ 61 :: v) = apply_setting dims k v s.
Proof.
  intros (Hk & He & Hn & Hh) Hv. unfold load_line. assert (trim (k ++ 61 :: v) = k ++ 61 :: v) as ->.
  { destruct Hk as [[->|(c & d & Hc & _ & Hcw & _)] _]; [done|]. destruct Hv as [[->|(c' & d' & _ & Hd' & _ & Hdw)] _].
    - apply (trim_id _ c 61); [by destruct k|by rewrite last_snoc|done|done].
    - apply (trim_id _ c d'); [by destruct k| |done|done]. rewrite last_app_cons. by destruct v. }
  rewrite split_once_at, !trimmed_trim by done. destruct k as [|c k]; [done|]. cbn [Datatypes.app nonempty negb orb head].
  by rewrite bool_decide_false.
Qed.
Lemma trimmed_word w : word w -> Forall (fun c => is_scalar c = true) w -> trimmed w.
Proof.
  intros Hw Hs. destruct (word_head w Hw) as (c & Hc & Hcw). destruct (word_last w Hw) as (d & Hd & Hdw).
  split; [right; by exists c, d|]. split; [|done]. intros Hin. destruct Hw as [_ Hw]. rewrite Forall_forall in Hw.
  by specialize (Hw _ Hin).
Qed.
Lemma scalar_digits v : Forall (fun c => is_scalar c = true) (uint_to_string v).
Proof. eapply Forall_impl; [apply uint_to_string_digits|]. intros c. unfold is_ascii_digit, is_scalar. lia. Qed.
Lemma trimmed_digits v : trimmed (uint_to_string v).
Proof. apply trimmed_word; [apply digits_word|apply scalar_digits]. Qed.
Lemma digits_no_x v : 120 ∉ uint_to_string v.
Proof.
  intros Hin. pose proof (uint_to_string_digits v) as Hd. rewrite Forall_forall in Hd. by specialize (Hd _ Hin).
Qed.
Lemma trimmed_resolution r : trimmed (resolution_text r).
Proof.
  destruct r as [[w h]|]; [|apply trimmed_word; [split; [done|by repeat constructor]|by repeat constructor]]. cbn [resolution_text].
  apply trimmed_word; [split|].
  - by destruct (uint_to_string_head w) as (c & s & -> & _).
  - apply Forall_app. split; [apply digits_word|]. constructor; [done|apply digits_word].
  - apply Forall_app. split; [apply scalar_digits|]. constructor; [done|apply scalar_digits].
Qed.
Lemma trimmed_bool b : trimmed (bool_text b).
Proof. destruct b; (apply trimmed_word; [split; [done|by repeat constructor]|by repeat constructor]). Qed.
Lemma parse_resolution_text dims s : settings_ok dims s -> parse_resolution dims (resolution_text (resolution s)) = resolution s.
Proof.
  intros (_ & _ & Hr). destruct (resolution s) as [[w h]|]; [|done]. destruct Hr as (Hw & Hh & Hw32 & Hh32).
  unfold parse_resolution, resolution_text. rewrite bool_decide_false.
  2: { destruct (uint_to_string_head w) as (c & s' & -> & Hc). intros E. injection E as -> _. by vm_compute in Hc. }
  change (bytes_of "x" ++ uint_to_string h) with (120 :: uint_to_string h).
  rewrite split_once_at by apply digits_no_x. cbn [mbind option_bind].
  rewrite !parse_uint_to_string by lia. cbn [mbind option_bind].
  by rewrite !(proj2 (Z.ltb_ge _ _)), !(proj2 (Z.eqb_neq _ 0)) by lia.
Qed.
Definition plain_key (k : str) : bool :=
  nonempty k && forallb (fun c => is_scalar c && negb (is_whitespace c) && negb (c =? 61) && negb (c =? 35)) k.
Lemma plain_key_ok k : plain_key k = true -> key_ok k.
Proof.
  intros [Hn Hk]%andb_true_iff. pose proof (proj1 (List.forallb_forall _ _) Hk) as Hk'. clear Hk.
  assert (forall c, c ∈ k -> is_scalar c = true /\ is_whitespace c = false /\ c <> 61 /\ c <> 35) as Hc.
  { intros c Hin%list_elem_of_In. specialize (Hk' c Hin). rewrite !andb_true_iff, !negb_true_iff, !Z.eqb_neq in Hk'. tauto. }
  assert (k <> []) as Hne by by destruct k. split; [|split; [|split; [done|]]].
  - apply trimmed_word; [split; [done|]|]; apply Forall_forall; intros c Hin; by destruct (Hc c Hin) as (? & ? & _).
  - intros Hin. by destruct (Hc _ Hin) as (_ & _ & ? & _).
  - intros Hh. destruct k as [|c k]; [done|]. injection Hh as ->. by destruct (Hc 35 ltac:(left)) as (_ & _ & _ & ?).
Qed.
Definition entry (k : string) (v : str) : str := bytes_of k ++ 61 :: v.
Definition entries (s : Settings) : list (string * str) :=
  [("accent_color", accent_color s); ("wallpaper", bool_text (wallpaper s)); ("show_bg_tasks", bool_text (show_bg_tasks s));
   ("resolution", resolution_text (resolution s)); ("font_scale", uint_to_string (font_scale_percent s))]%string.
Lemma setting_lines_entries s : setting_lines s = bytes_of "# MachaOS settings" :: ((fun e => entry e.1 e.2) <$> entries s).
Proof. reflexivity. Qed.
Lemma entries_ok dims s : settings_ok dims s -> Forall (fun e => plain_key (bytes_of e.1) = true /\ trimmed e.2) (entries s).
Proof.
  intros (Ha & _). pose proof trimmed_bool. pose proof trimmed_resolution. pose proof trimmed_digits. unfold entries.
  repeat (apply Forall_cons_2; [split; [reflexivity|cbn [snd]; auto 1]|]). by apply Forall_nil_2.
Qed.
Lemma entry_line k v : plain_key (bytes_of k) = true -> trimmed v ->
  (10 ∉ entry k v /\ last (entry k v) <> Some 13) /\ Forall (fun c => is_scalar c = true) (entry k v).
Proof.
  intros ((_ & Hkn & Hks) & _)%plain_key_ok (Hv & Hn & Hs). unfold entry. split; [split|].
  - rewrite not_elem_of_app, not_elem_of_cons. done.
  - rewrite last_app_cons. destruct Hv as [->|(c & d & _ & Hd & _ & Hdw)]; [done|]. destruct v; [done|].
    rewrite last_cons_cons, Hd. by intros [= ->].
  - apply Forall_app. split; [done|]. by constructor.
Qed.
Lemma content_lines dims s : settings_ok dims s ->
  lines (content s) = setting_lines s /\ Forall (fun c => is_scalar c = true) (content s).
Proof.
  intros Hs. pose proof (entries_ok dims s Hs) as He.
  assert (Forall (fun l => (10 ∉ l /\ last l <> Some 13) /\ Forall (fun c => is_scalar c = true) l) (setting_lines s)) as Hl.
  { rewrite setting_lines_entries. constructor.
    - split; [split; [|by vm_compute]|by repeat constructor]. intros Hin. apply list_elem_of_In in Hin. vm_compute in Hin. intuition discriminate.
    - apply Forall_fmap. eapply Forall_impl; [exact He|]. intros e [? ?]. by apply entry_line. }
  split; [apply lines_of; eapply Forall_impl; [exact Hl|]; by intros l [? _]|]. unfold content.
  induction Hl as [|l ls [_ Hl] _ IH]; [constructor|]. cbn [mbind list_bind]. rewrite !Forall_app. split; [|done].
  split; [done|by repeat constructor].
Qed.

Lemma apply_settings dims s v :
  apply_setting dims (bytes_of "accent_color") v s = set_accent_color v s /\
  apply_setting dims (bytes_of "wallpaper") v s = set_wallpaper (bool_decide (v = bytes_of "true")) s /\
  apply_setting dims (bytes_of "show_bg_tasks") v s = set_show_bg_tasks (bool_decide (v = bytes_of "true")) s /\
  apply_setting dims (bytes_of "resolution") v s = set_resolution (parse_resolution dims v) s /\
  apply_setting dims (bytes_of "font_scale") v s = set_font_scale (default 100 (parse_uint 16 v)) s.
Proof. split_and!; reflexivity. Qed.
Lemma bool_text_read b : bool_decide (bool_text b = bytes_of "true") = b.
Proof. by destruct b; vm_compute. Qed.
Lemma comment_line dims s : load_line dims s (bytes_of "# MachaOS settings") = s.
Proof. reflexivity. Qed.


(** ** Clicks that miss *)
Lemma hit_swatch_at x y yy name : hit_swatch x y yy = Some name ->
  exists i color, ACCENT_COLORS !! i = Some (name, color) /\ swatch_x (Z.of_nat i) <= x < swatch_x (Z.of_nat i) + swatch.
Proof.
  unfold hit_swatch. destruct (find _ _) as [[i [n c]]|] eqn:E; [|done]. intros [= ->].
  apply find_some in E as [Hin Hc]. cbn [fst snd] in Hc. apply list_elem_of_In in Hin. unfold enumerate in Hin.
  apply list_elem_of_lookup in Hin as [k Hk]. apply lookup_zip_Some in Hk as [Hi Hn]. unfold range in Hi.
  apply lookup_seqZ in Hi as [-> _]. rewrite Z.add_0_l in Hc. exists k, c. split; [done|]. lia.
Qed.
Lemma accent_names i j n c d : ACCENT_COLORS !! i = Some (n, c) -> ACCENT_COLORS !! j = Some (n, d) -> i = j.
Proof.
  do 5 (destruct i as [|i]; [do 5 (destruct j as [|j]; [intros [= <- <-]; vm_compute; congruence|]); done|]). done.
Qed.
(** Where the [i]-th colour and a switch are drawn, as [render_personalization] and
    [draw_toggle] do it. *)
Definition on_swatch (fscale i x y : Z) : Prop :=
  swatch_x i <= x < swatch_x i + swatch /\ content_top fscale + label_h fscale <= y < content_top fscale + label_h fscale + swatch.
Definition on_switch (fscale x y : Z) : Prop :=
  WIDTH - SIDEBAR_W - 16 - 44 <= x < WIDTH - SIDEBAR_W - 16 /\ content_top fscale + label_h fscale + swatch <= y.
Section misplaced.
Context {D : Type} `{BlockDevice D} (rtc_now : D -> DateTime) (fscale : Z) (dims : Z * Z).
(** The personalisation page does not do what is clicked.  The colours and
    switches are drawn from the window's left edge, but the areas tested lie a
    sidebar's width to the right of them: a click anywhere on a drawn colour never
    selects that colour (on the last two it can select another one), and a click
    anywhere on a drawn switch changes nothing at all. *)
Theorem personalization_misses v a x y i name color :
  page a = Personalization -> ACCENT_COLORS !! i = Some (name, color) -> accent_color (settings a) <> name ->
  (on_swatch fscale (Z.of_nat i) x y -> 0 < y ->
   exists selected, handle_personalization_click fscale dims rtc_now (x - SIDEBAR_W) y (v, a) = 
     match selected with
     | Some other => change fscale dims rtc_now (set_accent_color other) Reload (v, a)
     | None => Ret NoChange (v, a)
     end /\ selected <> Some name /\ app_click fscale dims rtc_now x y (v, a) =
       handle_personalization_click fscale dims rtc_now (x - SIDEBAR_W) y (v, a)) /\
  (on_switch fscale x y -> 0 < y -> app_click fscale dims rtc_now x y (v, a) = Ret NoChange (v, a)).
Proof.
  intros Hp Hi Hn.
  assert (forall x y, SIDEBAR_W <= x -> 0 < y -> app_click fscale dims rtc_now x y (v, a) =
    handle_personalization_click fscale dims rtc_now (x - SIDEBAR_W) y (v, a)) as Hclick.
  { intros x0 y0 Hx0 Hy0. unfold app_click, SIDEBAR_W in *. rewrite !(proj2 (Z.ltb_ge _ _)) by lia. cbn [orb].
    unfold mbind, st_bind, on_app, get_st. by rewrite Hp. }
  assert (forall x y row, x < WIDTH - 60 -> toggle_hit (x - SIDEBAR_W) y row = false) as Htoggle.
  { intros x0 y0 row Hx0. unfold toggle_hit, WIDTH, SIDEBAR_W in *. cbv zeta. apply not_true_is_false.
    rewrite !andb_true_iff, !Z.leb_le, !Z.ltb_lt. lia. }
  assert (forall k, (k < 5)%nat -> swatch_x (Z.of_nat k) + swatch < WIDTH - 60) as Hsw.
  { intros k Hk. unfold swatch_x, swatch, gap, WIDTH, SIDEBAR_W. lia. }
  split.
  - intros [Hx Hy] Hy0. pose proof (lookup_lt_Some _ _ _ Hi) as Hlen. change (length ACCENT_COLORS) with 5%nat in Hlen.
    specialize (Hsw i Hlen).
    destruct (hit_swatch (x - SIDEBAR_W) y (content_top fscale + label_h fscale)) as [other|] eqn:Eh.
    + assert (other <> name) as Hne.
      { intros ->. destruct (hit_swatch_at _ _ _ _ Eh) as (j & d & Hj & Hxj). rewrite (accent_names i j _ _ _ Hi Hj) in Hx.
        unfold SIDEBAR_W, swatch in *. lia. }
      exists (if bool_decide (accent_color (settings a) = other) then None else Some other). split; [|split].
      * unfold handle_personalization_click. cbv zeta. rewrite Eh. unfold mbind at 1, st_bind at 1, on_app at 1, get_st at 1.
        by case_bool_decide.
      * case_bool_decide; congruence.
      * apply Hclick; [|done]. unfold swatch_x, SIDEBAR_W, swatch, gap in *. lia.
    + exists None. split; [|split; [done|]].
      * unfold handle_personalization_click. cbv zeta. rewrite Eh. unfold mbind at 1, st_bind at 1, on_app at 1, get_st at 1.
        by rewrite !Htoggle by lia.
      * apply Hclick; [|done]. unfold swatch_x, SIDEBAR_W, swatch, gap in *. lia.
  - intros [Hx Hy] Hy0. rewrite Hclick by (unfold WIDTH, SIDEBAR_W in *; lia). unfold handle_personalization_click. cbv zeta.
    assert (hit_swatch (x - SIDEBAR_W) y (content_top fscale + label_h fscale) = None) as ->.
    { unfold hit_swatch. destruct (find _ _) as [r|] eqn:E; [|done]. apply find_some in E as [_ E].
      rewrite !andb_true_iff, !Z.leb_le, !Z.ltb_lt in E. lia. }
    unfold mbind at 1, st_bind at 1, on_app at 1, get_st at 1. by rewrite !Htoggle by (unfold WIDTH, SIDEBAR_W in *; lia).
Qed.
End misplaced.

(** ** A window that is too small *)
Section short.
Context {T : Type} {PB : PixelBuffer T}.
Lemma fill_rows_short w h c n : 0 < w -> w * h < 2 ^ 32 -> forall y s,
  0 <= y -> y + Z.of_nat n = h -> buf_width s = w -> buf_height s = h ->
  y * w <= Z.of_nat (length (buf s)) < w * h ->
  for_in (range y (y + Z.of_nat n)) (fun yy => buf_fill_span 0 yy w c) s = Panic.
Proof.
  intros Hw Hwh. induction n as [|n IH]; intros y s Hy Hn Ew Eh Hl; [nia|].
  rewrite range_cons by lia. cbn [for_in]. unfold mbind, st_bind, buf_fill_span at 1, span_slice at 1.
  rewrite Ew, Eh. rewrite !(proj2 (Z.leb_gt _ _)) by lia. rewrite (proj2 (Z.eqb_neq w 0)) by lia. cbn [orb].
  rewrite Z.add_0_r, wrap_small by (unfold in_u; nia). rewrite Z.sub_0_r, Z.min_id. unfold write_slice, splice.
  rewrite length_replicate. case_decide as Hd; [|done].
  replace (range (Z.succ y) (Z.succ y + (Z.of_nat (S n) - 1))) with (range (Z.succ y) (Z.succ y + Z.of_nat n)) by (f_equal; lia).
  apply IH; rewrite ?buf_width_set, ?buf_height_set, ?buf_set; try done; try lia.
  rewrite !length_app, length_take, length_drop, length_replicate. nia.
Qed.
Lemma fill_rect_short w h c s : 0 < w -> 0 < h -> w * h < 2 ^ 32 -> buf_width s = w -> buf_height s = h ->
  Z.of_nat (length (buf s)) < w * h -> fill_rect (H := readable_surface) 0 0 w h c s = Panic.
Proof.
  intros Hw Hh Hwh Ew Eh Hl. unfold fill_rect, mbind, st_bind, get_st. cbn [width height readable_surface]. rewrite Ew, Eh.
  rewrite !Z.add_0_l, !wrap_small, !Z.min_id, !(proj2 (Z.leb_gt _ _)), Z.sub_0_r by (unfold in_u; nia). cbn [orb].
  change (fill_span (Surface := readable_surface)) with (buf_fill_span (PB := PB)).
  replace h with (0 + Z.of_nat (Z.to_nat h)) at 1 by lia. apply (fill_rows_short w h); lia.
Qed.
End short.

(** Enlarging the font breaks the Settings window.  Its height is computed
    from the font scale, but its pixels are allocated when the window is opened:
    once the scale is larger than it was then, [render] panics at the first row
    that is missing, whatever the settings and the page, so choosing the large
    font stops the machine as soon as the cursor moves over the window. *)
Theorem larger_font_panics {D : Type} `{BlockDevice D} (rtc_now : D -> DateTime) dims old new v a x y :
  1 <= old < new -> new < 256 -> Z.of_nat (length (buffer a)) = WIDTH * window_height old ->
  render new dims rtc_now (v, a) = Panic /\
  (cursor a <> (x, y) -> render_hover new dims rtc_now x y (v, a) = Panic).
Proof.
  intros Hs Hn Hl.
  assert (forall a, length (buffer a) = Z.to_nat (WIDTH * window_height old) -> render new dims rtc_now (v, a) = Panic) as Hr.
  { intros b Hb. unfold render. rewrite (st_bind_ret _ _ _ _ _ (eq_refl : on_app get_st (v, b) = Ret b (v, b))). cbv zeta.
    unfold mbind at 1, st_bind at 1. enough (on_app (D := D) (fill_rect (H := readable_surface (PB := settings_buffer new))
      0 0 WIDTH (window_height new) BG) (v, b) = Panic) as -> by done.
    unfold on_app. rewrite (fill_rect_short (PB := settings_buffer new) WIDTH (window_height new)); try done.
    all: cbn; rewrite ?Hb; unfold WIDTH, window_height in *; lia. }
  split; [apply Hr; lia|]. intros Hc. unfold render_hover, on_app at 1, mbind at 1, st_bind at 1, get_st at 1.
  rewrite bool_decide_false by done. unfold mbind at 1, st_bind at 1, update, on_app at 1, modify.
  apply Hr. cbn. lia.
Qed.

(** ** Witnesses *)
Definition no_clock (d : RamDisk) : DateTime := MkDateTime 2024 1 2 3 4 5.
Definition sample_app (px : list Z) (p : Page) : SettingsApp :=
  mk_settings_app px defaults p (I32_MAX, I32_MAX) [].
Lemma personalization_misses_witness :
  accent_color (settings (sample_app [] Personalization)) <> bytes_of "purple" /\
  (exists selected, app_click 1 (1920, 1080) no_clock 210 60 (None, sample_app [] Personalization) =
     match selected with
     | Some other => change 1 (1920, 1080) no_clock (set_accent_color other) Reload (None, sample_app [] Personalization)
     | None => Ret NoChange (None, sample_app [] Personalization)
     end /\ selected <> Some (bytes_of "purple")) /\
  app_click 1 (1920, 1080) no_clock 300 100 (None, sample_app [] Personalization) = Ret NoChange (None, sample_app [] Personalization).
Proof.
  assert (accent_color (settings (sample_app [] Personalization)) <> bytes_of "purple") as Hn by (vm_compute; discriminate).
  split; [exact Hn|].
  pose proof (fun x y => personalization_misses no_clock 1 (1920, 1080) None (sample_app [] Personalization) x y 1 (bytes_of "purple") _
    eq_refl eq_refl Hn) as Hm. split.
  - destruct (proj1 (Hm 210 60)) as (sel & E & Hs & Ec); [|lia|].
    + unfold on_swatch. vm_compute. repeat split; discriminate || reflexivity.
    + exists sel. split; [rewrite Ec; exact E|exact Hs].
  - apply (proj2 (Hm 300 100)); [|lia]. unfold on_switch. vm_compute. repeat split; discriminate || reflexivity.
Defined.
Lemma larger_font_panics_witness :
  let a := sample_app (replicate (Z.to_nat (WIDTH * window_height 1)) BG) System in
  render 2 (1920, 1080) no_clock (None, a) = Panic /\ render_hover 2 (1920, 1080) no_clock 5 5 (None, a) = Panic.
Proof.
  intros a. destruct (larger_font_panics no_clock (1920, 1080) 1 2 None a 5 5) as [H1 H2]; [lia|lia| |].
  - unfold a, sample_app. cbn [buffer]. rewrite length_replicate. apply Z2Nat.id. vm_compute. discriminate.
  - split; [exact H1|]. apply H2. unfold a, sample_app. cbn [cursor]. intros E. injection E as E _. discriminate.
Defined.
