(* ===== verification/Line.v ===== *)
(** * Straight lines

    The window buttons' glyphs and Paint's strokes are drawn by two variants of
    Bresenham's algorithm, which differ in how ties are broken ([lt] is [<] in one
    and [<=] in the other).  Both visit the points nearest to the segment, one for
    each step along its longer side, and end at its end. *)
From S2P Require Import Prelude.

(** The [k]-th point of [n] is within half a pixel of the point at [k/n] of the
    segment, in both directions. *)
Definition near (x0 y0 x1 y1 n k : Z) (p : Z * Z) : Prop :=
  Z.abs (2 * (Z.max 1 n * (p.1 - x0) - k * (x1 - x0))) <= n /\ Z.abs (2 * (Z.max 1 n * (p.2 - y0) - k * (y1 - y0))) <= n.
Definition steps (x0 y0 x1 y1 : Z) : Z := Z.max (Z.abs (x1 - x0)) (Z.abs (y1 - y0)).
Definition traces (x0 y0 x1 y1 : Z) (pts : list (Z * Z)) : Prop :=
  Z.of_nat (length pts) = steps x0 y0 x1 y1 + 1 /\
  head pts = Some (x0, y0) /\ last pts = Some (x1, y1) /\
  forall k p, pts !! k = Some p -> near x0 y0 x1 y1 (steps x0 y0 x1 y1) (Z.of_nat k) p.

Section line.
Variable lt : Z -> Z -> bool.
Hypothesis lt_true : forall u v, u < v -> lt u v = true.
Hypothesis lt_le : forall u v, lt u v = true -> u <= v.
Variables (x0 y0 x1 y1 dx dy sx sy : Z).
Hypotheses (Hdx : 0 <= dx) (Hdy : 0 <= dy) (Hsx : sx = 1 \/ sx = -1) (Hsy : sy = 1 \/ sy = -1)
  (Hx1 : x1 = x0 + sx * dx) (Hy1 : y1 = y0 + sy * dy).

(** One round: the new error and the steps taken. *)
Definition x_step (err : Z) : bool := lt (- dy) (2 * err).
Definition y_step (err : Z) : bool := lt (2 * err) dx.
Definition next_err (err : Z) : Z := err - (if x_step err then dy else 0) + (if y_step err then dx else 0).
(** After [k] rounds: [a] steps to the side and [b] up, [err] as it then is. *)
Definition reached (k a b err : Z) : Prop :=
  0 <= a <= dx /\ 0 <= b <= dy /\ k = Z.max a b /\ err = dx * b - dy * a + dx - dy /\
  (dy <= dx -> a = k /\ - dx <= 2 * (dx * b - dy * a) <= dx) /\
  (dx <= dy -> b = k /\ - dy <= 2 * (dx * b - dy * a) <= dy).
Lemma reached_0 : reached 0 0 0 (dx - dy).
Proof. unfold reached. lia. Qed.
(** The last point is reached in the round that says so, and in no earlier one. *)
Lemma reached_end k a b err : reached k a b err -> (a = dx /\ b = dy <-> k = Z.max dx dy).
Proof.
  intros (Ha & Hb & Hk & _ & H1 & H2). split; [lia|]. intros Ek. destruct (Z.le_ge_cases dy dx) as [Hc|Hc].
  - destruct (H1 Hc) as [Ea HD]. assert (a = dx) as -> by lia. split; [done|]. destruct (decide (dx = 0)); [lia|nia].
  - destruct (H2 Hc) as [Eb HD]. assert (b = dy) as -> by lia. split; [|done]. destruct (decide (dy = 0)); [lia|nia].
Qed.
Lemma reached_next k a b err : reached k a b err -> k < Z.max dx dy ->
  reached (k + 1) (a + if x_step err then 1 else 0) (b + if y_step err then 1 else 0) (next_err err) /\
  (x_step err = true -> a < dx) /\ (y_step err = true -> b < dy).
Proof.
  intros (Ha & Hb & Hk & He & H1 & H2) Hlt. unfold next_err, x_step, y_step.
  set (D := dx * b - dy * a) in *.
  destruct (Z.lt_trichotomy dx dy) as [Hc|[Hc|Hc]].
  - destruct H2 as [Eb HD]; [lia|]. rewrite (lt_true (2 * err) dx) by lia.
    destruct (lt (- dy) (2 * err)) eqn:Ex.
    + apply lt_le in Ex. assert (a < dx) by (unfold D in *; nia). unfold reached, D in *. split_and!; lia.
    + assert (2 * err <= - dy). { destruct (Z.le_gt_cases (2 * err) (- dy)); [done|]. by rewrite lt_true in Ex. }
      unfold reached, D in *. split_and!; lia.
  - destruct H1 as [Ea HD]; [lia|]. destruct H2 as [Eb _]; [lia|]. assert (D = 0) by (unfold D; rewrite Ea, Eb, Hc; lia).
    rewrite !lt_true by lia. unfold reached, D in *. split_and!; lia.
  - destruct H1 as [Ea HD]; [lia|]. rewrite (lt_true (- dy) (2 * err)) by lia.
    destruct (lt (2 * err) dx) eqn:Ey.
    + apply lt_le in Ey. assert (b < dy) by (unfold D in *; nia). unfold reached, D in *. split_and!; lia.
    + assert (dx <= 2 * err). { destruct (Z.le_gt_cases dx (2 * err)); [done|]. by rewrite lt_true in Ey. }
      unfold reached, D in *. split_and!; lia.
Qed.
Lemma reached_near k a b err : reached k a b err ->
  near x0 y0 x1 y1 (Z.max dx dy) k (x0 + sx * a, y0 + sy * b).
Proof.
  intros (Ha & Hb & Hk & _ & H1 & H2). unfold near. cbn [fst snd]. rewrite Hx1, Hy1.
  destruct (decide (Z.max dx dy = 0)) as [E|E].
  { rewrite E. assert (a = 0) as -> by lia. assert (b = 0) as -> by lia. lia. }
  rewrite (Z.max_r 1) by lia. destruct (Z.le_ge_cases dy dx) as [Hc|Hc].
  - destruct (H1 Hc) as [-> HD]. rewrite Z.max_l by done. destruct Hsx as [->| ->], Hsy as [->| ->]; split; lia.
  - destruct (H2 Hc) as [-> HD]. rewrite Z.max_r by done. destruct Hsx as [->| ->], Hsy as [->| ->]; split; lia.
Qed.

(** The points visited, at most [fuel]. *)
Fixpoint points (fuel : nat) (x y err : Z) : list (Z * Z) :=
  match fuel with
  | O => []
  | S fuel =>
      (x, y) :: (if (x =? x1) && (y =? y1) then []
                 else points fuel (if x_step err then x + sx else x) (if y_step err then y + sy else y) (next_err err))
  end.
Lemma at_end k a b err : reached k a b err ->
  (x0 + sx * a =? x1) && (y0 + sy * b =? y1) = bool_decide (k = Z.max dx dy).
Proof.
  intros Hr. pose proof (reached_end k a b err Hr) as He. rewrite Hx1, Hy1.
  assert ((x0 + sx * a =? x0 + sx * dx) && (y0 + sy * b =? y0 + sy * dy) = bool_decide (a = dx /\ b = dy)) as ->.
  { destruct Hsx as [->| ->], Hsy as [->| ->]; case_bool_decide; lia. }
  by apply bool_decide_ext.
Qed.
Lemma points_spec fuel k a b err : reached k a b err -> Z.max dx dy - k < Z.of_nat fuel ->
  let pts := points fuel (x0 + sx * a) (y0 + sy * b) err in
  Z.of_nat (length pts) = Z.max dx dy - k + 1 /\ head pts = Some (x0 + sx * a, y0 + sy * b) /\
  last pts = Some (x1, y1) /\ forall i p, pts !! i = Some p -> near x0 y0 x1 y1 (Z.max dx dy) (k + Z.of_nat i) p.
Proof.
  revert k a b err. induction fuel as [|fuel IH]; intros k a b err Hr Hf.
  { destruct Hr as (? & ? & -> & _). lia. }
  cbn [points]. rewrite (at_end k a b err Hr). pose proof (reached_near k a b err Hr) as Hn.
  case_bool_decide as Hk.
  - destruct (proj2 (reached_end k a b err Hr) Hk) as [-> ->]. rewrite <- Hx1, <- Hy1 in *. split_and!; try done; [cbn; lia|].
    intros [|i] p; [|done]. intros [= <-]. by rewrite Z.add_0_r.
  - assert (k < Z.max dx dy) as Hlt by (destruct Hr as (? & ? & -> & _); lia).
    destruct (reached_next k a b err Hr Hlt) as [Hr' _].
    replace (if x_step err then x0 + sx * a + sx else x0 + sx * a) with (x0 + sx * (a + if x_step err then 1 else 0))
      by (destruct (x_step err); lia).
    replace (if y_step err then y0 + sy * b + sy else y0 + sy * b) with (y0 + sy * (b + if y_step err then 1 else 0))
      by (destruct (y_step err); lia).
    destruct (IH _ _ _ _ Hr' ltac:(lia)) as (Hl & Hh & Hla & Hp). split_and!; [cbn [length]; lia|done| |].
    + rewrite last_cons, Hla. done.
    + intros [|i] p; [intros [= <-]; by rewrite Z.add_0_r|]. intros Hi. specialize (Hp i p Hi).
      by replace (k + Z.of_nat (S i)) with (k + 1 + Z.of_nat i) by lia.
Qed.
Lemma points_trace fuel : Z.max dx dy < Z.of_nat fuel -> traces x0 y0 x1 y1 (points fuel x0 y0 (dx - dy)).
Proof.
  intros Hf. destruct (points_spec fuel 0 0 0 (dx - dy) reached_0) as (Hl & Hh & Hla & Hp); [lia|].
  rewrite !Z.mul_0_r, !Z.add_0_r in *. assert (steps x0 y0 x1 y1 = Z.max dx dy) as Es.
  { unfold steps. rewrite Hx1, Hy1. destruct Hsx as [->| ->], Hsy as [->| ->]; lia. }
  split; [rewrite Es; lia|]. split; [done|]. split; [done|]. rewrite Es. intros i p Hi. by apply (Hp i p).
Qed.
End line.
(** Tracing stays in the box of the end points. *)
Lemma near_box x0 y0 x1 y1 n k p : near x0 y0 x1 y1 n k p -> 0 <= k <= n -> n = steps x0 y0 x1 y1 ->
  Z.min x0 x1 <= p.1 <= Z.max x0 x1 /\ Z.min y0 y1 <= p.2 <= Z.max y0 y1.
Proof.
  unfold near, steps. intros [H1 H2] Hk Hn.
  assert (forall u d, Z.abs d <= n -> Z.abs (2 * (Z.max 1 n * u - k * d)) <= n -> Z.min 0 d <= u <= Z.max 0 d) as Hg.
  { intros u d Hd Hu. destruct (decide (n = 0)) as [->|]; [lia|]. rewrite Z.max_r in Hu by lia.
    assert (0 <= k * Z.abs d <= n * Z.abs d) by nia. destruct (Z.le_ge_cases 0 d); split; nia. }
  split.
  - pose proof (Hg _ (x1 - x0) ltac:(rewrite Hn; lia) H1). lia.
  - pose proof (Hg _ (y1 - y0) ltac:(rewrite Hn; lia) H2). lia.
Qed.
