(* ===== verification/Paint.v ===== *)
(** * Paint, [paint.rs]

    A canvas, the window's pixels with a picture of it, a tool and a colour.
    Every change of the canvas draws the whole window again. *)
From stdpp Require Import list_numbers.
From S2P Require Import Prelude Bytes Text Disk Rtc Fat Keyboard Font Gfx Draw PixelBuffer Canvas Line.

Definition CANVAS_WIDTH : Z := 320.
Definition CANVAS_HEIGHT : Z := 240.
Definition TOOLBAR_HEIGHT : Z := 40.
Definition WIDTH : Z := CANVAS_WIDTH.
Definition HEIGHT : Z := CANVAS_HEIGHT + TOOLBAR_HEIGHT.
Definition BG : Z := 0x00202020.
Definition TOOLBAR_BG : Z := 0x002A2A2A.
Definition CANVAS_BG : Z := 0x00FFFFFF.
Definition TEXT : Z := 0x00FFFFFF.
Definition TEXT_DIM : Z := 0x009A9A9A.
Definition COLORS : list Z :=
  [0x00000000; 0x00FFFFFF; 0x00FF0000; 0x0000FF00; 0x000000FF; 0x00FFFF00; 0x0000FFFF; 0x00FF00FF].
Inductive Tool := Pen | Eraser.
Global Instance tool_eq : EqDecision Tool.
Proof. solve_decision. Defined.
Inductive PaintAction := Load.

Record PaintApp := mk_paint {
  buffer : list Z; canvas : list Z; current_color : Z; current_tool : Tool; drawing : bool;
  last_x : Z; last_y : Z; status : str; file_path : str }.
Definition with_buffer v a := mk_paint v (canvas a) (current_color a) (current_tool a) (drawing a) (last_x a) (last_y a) (status a) (file_path a).
Definition with_canvas v a := mk_paint (buffer a) v (current_color a) (current_tool a) (drawing a) (last_x a) (last_y a) (status a) (file_path a).
Definition with_color v a := mk_paint (buffer a) (canvas a) v (current_tool a) (drawing a) (last_x a) (last_y a) (status a) (file_path a).
Definition with_tool v a := mk_paint (buffer a) (canvas a) (current_color a) v (drawing a) (last_x a) (last_y a) (status a) (file_path a).
Definition with_stroke d x y a := mk_paint (buffer a) (canvas a) (current_color a) (current_tool a) d x y (status a) (file_path a).
Definition with_status v a := mk_paint (buffer a) (canvas a) (current_color a) (current_tool a) (drawing a) (last_x a) (last_y a) v (file_path a).
Definition with_path v a := mk_paint (buffer a) (canvas a) (current_color a) (current_tool a) (drawing a) (last_x a) (last_y a) (status a) v.

#[refine] Global Instance paint_buffer : PixelBuffer PaintApp := {
  buf_width := fun _ => WIDTH; buf_height := fun _ => HEIGHT; buf := buffer; set_buf := with_buffer }.
Proof. all: try done. by intros []. Defined.
#[local] Hint Extern 0 (Surface PaintApp) => exact canvas_surface : typeclass_instances.
Definition app_width (a : PaintApp) : Z := WIDTH.
Definition app_height (a : PaintApp) : Z := HEIGHT.
Definition pixels (a : PaintApp) : list Z := buffer a.

Section paint.
Variable fscale : Z.
Abbreviation APP := (ST PaintApp).
Definition enumerate {A} (l : list A) : list (Z * A) := zip (range 0 (Z.of_nat (length l))) l.

(** The canvas, copied into the window pixel by pixel; a missing pixel panics. *)
Definition copy_pixel (x y : Z) : APP unit := fun a =>
  match canvas a !! Z.to_nat (y * CANVAS_WIDTH + x) with
  | Some c =>
      let i := Z.to_nat ((y + TOOLBAR_HEIGHT) * WIDTH + x) in
      if decide (i < length (buffer a))%nat then Ret tt (with_buffer (<[i := c]> (buffer a)) a) else Panic
  | None => Panic
  end.
Definition copy_canvas : APP unit :=
  for_in (range 0 CANVAS_HEIGHT) (fun y => for_in (range 0 CANVAS_WIDTH) (fun x => copy_pixel x y)).
Definition tool_size : Z := 30.
Definition tool_y : Z := 5.
Definition pen_x : Z := 5.
Definition eraser_x : Z := 40.
Definition color_size : Z := 20.
Definition color_y : Z := 10.
Definition color_start_x : Z := 100.
Definition color_x (i : Z) : Z := color_start_x + i * (color_size + 5).
Definition render : APP unit :=
  clear_buffer BG;;
  fill_rect 0 0 WIDTH TOOLBAR_HEIGHT TOOLBAR_BG;;
  a ← get_st;
  fill_rect pen_x tool_y tool_size tool_size (if decide (current_tool a = Pen) then 0x00444444 else 0x00333333);;
  fill_rect (pen_x + 10) (tool_y + 5) 2 15 TEXT;;
  fill_rect (pen_x + 8) (tool_y + 18) 6 2 TEXT;;
  fill_rect eraser_x tool_y tool_size tool_size (if decide (current_tool a = Eraser) then 0x00444444 else 0x00333333);;
  fill_rect (eraser_x + 8) (tool_y + 10) 14 10 TEXT;;
  for_in (enumerate COLORS) (fun '(i, color) =>
    fill_rect (color_x i) color_y color_size color_size color;;
    if color =? current_color a then
      fill_rect (color_x i - 1) (color_y - 1) (color_size + 2) 1 TEXT;;
      fill_rect (color_x i - 1) (color_y + color_size) (color_size + 2) 1 TEXT;;
      fill_rect (color_x i - 1) color_y 1 color_size TEXT;;
      fill_rect (color_x i + color_size) color_y 1 color_size TEXT
    else mret tt);;
  copy_canvas;;
  if nonempty (status a) then draw_string fscale 5 (HEIGHT - 12) (as_bytes (status a)) TEXT_DIM None else mret tt.
Definition new : outcome PaintApp unit :=
  render (mk_paint (replicate (Z.to_nat (WIDTH * HEIGHT)) BG) (replicate (Z.to_nat (CANVAS_WIDTH * CANVAS_HEIGHT)) CANVAS_BG)
    0x00000000 Pen false (-1) (-1) [] []).

(** ** Drawing *)
Definition ink (a : PaintApp) : Z := match current_tool a with Pen => current_color a | Eraser => CANVAS_BG end.
Definition draw_pixel (x y : Z) : APP unit :=
  if (CANVAS_WIDTH <=? x) || (CANVAS_HEIGHT <=? y) then mret tt
  else
    a ← get_st;
    let index := Z.to_nat (y * CANVAS_WIDTH + x) in
    if decide (index < length (canvas a))%nat
    then put_st (with_canvas (<[index := ink a]> (canvas a)) a);; render
    else panic.
Section stroke.
Variables (x1 y1 dx dy sx sy : Z).
(** [fuel] rounds at most; running out of them would be a loop without end. *)
Fixpoint line_loop (fuel : nat) (x y err : Z) : APP unit :=
  match fuel with
  | O => panic
  | S fuel =>
      (if (0 <=? x) && (0 <=? y) && (x <? CANVAS_WIDTH) && (y <? CANVAS_HEIGHT) then draw_pixel x y else mret tt);;
      if (x =? x1) && (y =? y1) then mret tt
      else
        let e2 := i32 (2 * err) in
        if (dy <=? e2) && (x =? x1) then mret tt
        else
          let '(err, x) := if dy <=? e2 then (i32 (err + dy), i32 (x + sx)) else (err, x) in
          if (e2 <=? dx) && (y =? y1) then mret tt
          else
            let '(err, y) := if e2 <=? dx then (i32 (err + dx), i32 (y + sy)) else (err, y) in
            line_loop fuel x y err
  end.
End stroke.
Definition draw_line (x0 y0 x1 y1 : Z) : APP unit :=
  let dx := Z.abs (i32 (x1 - x0)) in
  let dy := - Z.abs (i32 (y1 - y0)) in
  let sx := if x0 <? x1 then 1 else -1 in
  let sy := if y0 <? y1 then 1 else -1 in
  line_loop x1 y1 dx dy sx sy (S (Z.to_nat (Z.max dx (- dy)))) x0 y0 (i32 (dx + dy)).

(** ** The mouse *)
Definition handle_toolbar_click (x y : Z) : APP unit :=
  if (tool_y <=? y) && (y <? tool_y + tool_size) && ((pen_x <=? x) && (x <? pen_x + tool_size)) then
    modify (fun a => with_status (bytes_of "Tool: Pen") (with_tool Pen a));; render
  else if (tool_y <=? y) && (y <? tool_y + tool_size) && ((eraser_x <=? x) && (x <? eraser_x + tool_size)) then
    modify (fun a => with_status (bytes_of "Tool: Eraser") (with_tool Eraser a));; render
  else if (color_y <=? y) && (y <? color_y + color_size) then
    match find (fun c => (color_x c.1 <=? x) && (x <? color_x c.1 + color_size)) (enumerate COLORS) with
    | Some (i, color) =>
        modify (fun a => with_status (bytes_of "Color: " ++ uint_to_string (i + 1)) (with_color color a));; render
    | None => mret tt
    end
  else mret tt.
Definition handle_click (x y : Z) : APP unit :=
  if (x <? 0) || (y <? 0) then mret tt
  else if y <? TOOLBAR_HEIGHT then handle_toolbar_click x y
  else
    let canvas_y := y - TOOLBAR_HEIGHT in
    if (x <? CANVAS_WIDTH) && (canvas_y <? CANVAS_HEIGHT) then
      modify (with_stroke true x canvas_y);; draw_pixel x canvas_y
    else mret tt.
Definition handle_release : APP unit := modify (with_stroke false (-1) (-1)).
Definition handle_mouse_move (x y : Z) (pressed : bool) : APP unit :=
  if negb pressed || (x <? 0) || (y <? 0) then mret tt
  else if (TOOLBAR_HEIGHT <=? y) && (x <? CANVAS_WIDTH) then
    let canvas_y := y - TOOLBAR_HEIGHT in
    if canvas_y <? CANVAS_HEIGHT then
      a ← get_st;
      (if drawing a then draw_line (last_x a) (last_y a) x canvas_y else mret tt);;
      modify (fun a => with_stroke (drawing a) x canvas_y a)
    else mret tt
  else mret tt.

(** ** Files and keys *)
Definition image_bytes (px : list Z) : list Z := px ≫= le_split 4.
Definition expected_len : nat := Z.to_nat (CANVAS_WIDTH * CANVAS_HEIGHT * 4).
Definition load_image (path : str) (data : list Z) : APP unit :=
  if decide (length data <> expected_len) then
    modify (with_status (bytes_of "Invalid image size (expected " ++ uint_to_string (Z.of_nat expected_len) ++ bytes_of " bytes)"));;
    render
  else
    modify (fun a => with_canvas ((fun i => le_combine (take 4 (drop (4 * i) data))) <$> seq 0 (Z.to_nat (CANVAS_WIDTH * CANVAS_HEIGHT))) a);;
    modify (fun a => with_status (bytes_of "Loaded " ++ path) (with_path path a));;
    render.
Context {D : Type} `{BlockDevice D} (rtc_now : D -> DateTime).
Abbreviation IO := (ST (option (Fat32 D) * PaintApp)).
Definition on_app {A} (m : APP A) : IO A := fun '(v, a) =>
  match m a with Ret r a => Ret r (v, a) | Panic => Panic end.
Definition save (path : str) : IO bool := fun '(v, a) =>
  match write_file rtc_now path (image_bytes (canvas a)) v with
  | Ret (Ok _) v => Ret true (v, a)
  | Ret (Err _) v => Ret false (v, a)
  | Panic => Panic
  end.
Definition DEFAULT_PATH : str := bytes_of "/users/macha/Pictures/painting.raw".
Definition handle_key (ev : Event) : IO (option PaintAction) :=
  if decide (ev = Ctrl 115) then
    a ← on_app get_st;
    let path := if nonempty (file_path a) then file_path a else DEFAULT_PATH in
    ok ← save path;
    on_app (modify (if ok : bool then fun a => with_path path (with_status (bytes_of "Saved to " ++ path) a)
                    else with_status (bytes_of "Save failed: write failed")));;
    on_app render;;
    mret None
  else if decide (ev = Ctrl 111) then mret (Some Load)
  else if decide (ev = Char 49) then on_app (modify (with_tool Pen));; on_app render;; mret None
  else if decide (ev = Char 50) then on_app (modify (with_tool Eraser));; on_app render;; mret None
  else mret None.
End paint.
