(* ===== verification/PaintFacts.v ===== *)
(** * What Paint paints

    A stroke colours exactly the pixels of a traced segment; a saved picture is
    the picture loaded; and a stroke is not over when the button is released. *)
From stdpp Require Import list_numbers.
From S2P Require Import Prelude Bytes Text Disk Rtc Fat Keyboard Font Gfx Draw PixelBuffer Canvas Line FbFacts Paint.

#[local] Hint Extern 0 (Surface PaintApp) => exact canvas_surface : typeclass_instances.
Definition on_canvas (x y : Z) : Prop := 0 <= x < CANVAS_WIDTH /\ 0 <= y < CANVAS_HEIGHT.
Definition at_canvas (a : PaintApp) (x y : Z) : Z := canvas a !!! Z.to_nat (y * CANVAS_WIDTH + x).
Record paint_ok (a : PaintApp) : Prop := {
  pk_buffer : Z.of_nat (length (buffer a)) = WIDTH * HEIGHT;
  pk_canvas : Z.of_nat (length (canvas a)) = CANVAS_WIDTH * CANVAS_HEIGHT;
  pk_colors : Forall (in_u 32) (canvas a) /\ in_u 32 (current_color a);
  pk_status : Z.of_nat (length (as_bytes (status a))) < 2 ^ 16 /\ Forall (fun b => 0 <= b) (as_bytes (status a)) }.
(** The window shows the canvas, below the toolbar and but for the status line. *)
Definition shown (a : PaintApp) : Prop :=
  forall x y, on_canvas x y -> status a = [] \/ y < CANVAS_HEIGHT - 12 ->
    buffer a !!! Z.to_nat ((y + TOOLBAR_HEIGHT) * WIDTH + x) = at_canvas a x y.

Lemma paint_pix_ok a : paint_ok a -> pix_ok a a.
Proof. intros [Hb _ _ _]. unfold pix_ok. cbn. unfold WIDTH, HEIGHT, CANVAS_WIDTH, CANVAS_HEIGHT, TOOLBAR_HEIGHT in *. split_and!; lia || done. Qed.
(** Drawing one thing after another, keeping only that the window is intact. *)
Lemma wp_draws s0 m (k : ST PaintApp unit) f (Q : unit -> PaintApp -> Prop) s :
  draws_by (pix_ok s0) buf_width buf_height pix WIDTH HEIGHT m f -> pix_ok s0 s ->
  (forall s', pix_ok s0 s' -> wp k Q s') -> wp (m;; k) Q s.
Proof.
  intros Hd Hs Hk. apply wp_bind. eapply wp_conseq; [by apply (Hd s)|]. intros [] s' (Hs' & _). by apply Hk.
Qed.
Lemma pix_ok_frame (s0 s : PaintApp) : pix_ok s0 s -> s = with_buffer (buffer s) s0.
Proof. intros (_ & _ & _ & _ & _ & _ & Hf). rewrite <- Hf. by destruct s. Qed.
Lemma pix_ok_length (s0 s : PaintApp) : pix_ok s0 s -> Z.of_nat (length (buffer s)) = WIDTH * HEIGHT.
Proof. by intros (_ & _ & _ & _ & _ & Hl & _). Qed.
Lemma pix_ok_with (s0 s : PaintApp) b : pix_ok s0 s -> length b = length (buffer s) -> pix_ok s0 (with_buffer b s).
Proof.
  intros (H1 & H2 & H3 & H4 & H5 & Hl & Hf) Hb. unfold pix_ok in *. cbn in *. split_and!; try done. by rewrite Hb.
Qed.

Lemma buffer_index x y : on_canvas x y ->
  0 <= y * CANVAS_WIDTH + x < CANVAS_WIDTH * CANVAS_HEIGHT /\ 0 <= (y + TOOLBAR_HEIGHT) * WIDTH + x < WIDTH * HEIGHT.
Proof. unfold on_canvas, WIDTH, HEIGHT, TOOLBAR_HEIGHT, CANVAS_WIDTH, CANVAS_HEIGHT. lia. Qed.
(** Copying the canvas. *)
Lemma copy_canvas_spec s0 s : paint_ok s0 -> pix_ok s0 s ->
  wp copy_canvas (fun _ s' => pix_ok s0 s' /\
    forall x y, on_canvas x y -> buffer s' !!! Z.to_nat ((y + TOOLBAR_HEIGHT) * WIDTH + x) = at_canvas s0 x y) s.
Proof.
  intros H0 Hs. set (done_to := fun k (s' : PaintApp) => pix_ok s0 s' /\
    forall x y, on_canvas x y -> y * CANVAS_WIDTH + x < k ->
      buffer s' !!! Z.to_nat ((y + TOOLBAR_HEIGHT) * WIDTH + x) = at_canvas s0 x y).
  assert (forall x y s1, on_canvas x y -> done_to (y * CANVAS_WIDTH + x) s1 ->
    wp (copy_pixel x y) (fun _ => done_to (y * CANVAS_WIDTH + x + 1)) s1) as Hpx.
  { intros x y s1 Hxy [Hs1 Hd]. destruct (buffer_index x y Hxy) as [Hi1 Hi2]. pose proof (pk_canvas _ H0) as Hlc.
    pose proof (pix_ok_length _ _ Hs1) as Hlb. rewrite (pix_ok_frame _ _ Hs1) in *. cbn [buffer with_buffer] in *.
    unfold copy_pixel, wp. cbn [canvas with_buffer buffer].
    destruct (lookup_lt_is_Some_2 (canvas s0) (Z.to_nat (y * CANVAS_WIDTH + x))) as [c Hc]; [lia|]. rewrite Hc.
    rewrite decide_True by lia. split; [apply pix_ok_with; [done|by rewrite length_insert]|].
    intros x' y' Hxy' Hlt. cbn [buffer with_buffer]. destruct (buffer_index x' y' Hxy') as [_ Hi2'].
    destruct (decide (x' = x /\ y' = y)) as [[-> ->]|Hne].
    - rewrite list_lookup_total_insert_eq by lia. unfold at_canvas. symmetry. by apply list_lookup_total_correct.
    - unfold on_canvas, WIDTH, HEIGHT, CANVAS_WIDTH, CANVAS_HEIGHT, TOOLBAR_HEIGHT in *. rewrite list_lookup_total_insert_ne by lia. apply Hd; [done|lia]. }
  assert (done_to 0 s) as Hd0.
  { split; [done|]. intros x y (? & ?) ?. unfold CANVAS_WIDTH in *. lia. }
  eapply wp_conseq; [apply (wp_for_range (fun k => done_to (k * CANVAS_WIDTH)) 0 CANVAS_HEIGHT)|]; [done|exact Hd0| |].
  - intros y s1 Hy Hs1. eapply wp_conseq; [apply (wp_for_range (fun k => done_to (y * CANVAS_WIDTH + k)) 0 CANVAS_WIDTH)|].
    + done.
    + by rewrite Z.add_0_r.
    + intros x s2 Hx Hs2. eapply wp_conseq; [apply Hpx; [split; lia|done]|]. intros [] s3. by rewrite Z.add_assoc.
    + intros [] s2 Hs2. by replace ((y + 1) * CANVAS_WIDTH) with (y * CANVAS_WIDTH + (0 + CANVAS_WIDTH)) by lia.
  - intros [] s' [Hs' Hd]. split; [done|]. intros x y Hxy. apply Hd; [done|]. unfold on_canvas, CANVAS_WIDTH, CANVAS_HEIGHT in *. lia.
Qed.
(** Steps that leave everything but the window's pixels alone. *)
Definition tidy (s0 : PaintApp) (m : ST PaintApp unit) : Prop := forall s, pix_ok s0 s -> wp m (fun _ => pix_ok s0) s.
Lemma tidy_seq s0 m1 m2 : tidy s0 m1 -> tidy s0 m2 -> tidy s0 (m1;; m2).
Proof. intros H1 H2 s Hs. apply wp_bind. eapply wp_conseq; [by apply H1|]. intros [] s'. apply H2. Qed.
Lemma tidy_ret s0 : tidy s0 (mret tt).
Proof. by intros s Hs. Qed.
Lemma tidy_for {A} s0 (l : list A) body : (forall x, x ∈ l -> tidy s0 (body x)) -> tidy s0 (for_in l body).
Proof.
  intros Hb. induction l as [|x l IH]; [apply tidy_ret|]. cbn [for_in]. apply tidy_seq; [apply Hb; left|].
  apply IH. intros y Hy. apply Hb. by right.
Qed.
Lemma tidy_draws s0 m f : draws_by (pix_ok s0) buf_width buf_height pix WIDTH HEIGHT m f -> tidy s0 m.
Proof. intros Hd s Hs. eapply wp_conseq; [by apply (Hd s)|]. by intros [] s' (Hs' & _). Qed.
Lemma tidy_rect s0 x y w h c : in_u 32 x -> in_u 32 y -> tidy s0 (fill_rect x y w h c).
Proof. intros. eapply tidy_draws. by apply (draws_fill_rect (spec := canvas_spec s0)). Qed.

(** The colours' columns. *)
Lemma color_cols i c : (i, c) ∈ enumerate COLORS ->
  in_u 32 (color_x i - 1) /\ in_u 32 (color_x i) /\ in_u 32 (color_x i + color_size).
Proof.
  intros Hi. apply list_elem_of_lookup in Hi as [k Hk]. apply lookup_zip_Some in Hk as [Hk _]. apply lookup_seqZ in Hk as [-> Hk].
  change (Z.of_nat (length COLORS)) with 8 in Hk. unfold color_x, color_start_x, color_size, in_u. lia.
Qed.
Lemma constant_in_u x : (0 <=? x) && (x <? 2 ^ 32) = true -> in_u 32 x.
Proof. unfold in_u. lia. Qed.
Ltac tidy_step :=
  apply wp_bind; match goal with H : pix_ok ?a ?s |- wp (fill_rect _ _ _ _ _) _ ?s =>
    eapply wp_conseq; [apply (tidy_rect a); [apply constant_in_u; vm_compute; reflexivity|apply constant_in_u; vm_compute; reflexivity|exact H]|]; clear H; clear s; intros [] s H end.

Section paint.
Context (fscale : Z) (Hscale : 1 <= fscale < 256).
Lemma status_draws s0 : paint_ok s0 ->
  draws_by (pix_ok s0) buf_width buf_height pix WIDTH HEIGHT
    (draw_string fscale 5 (HEIGHT - 12) (as_bytes (status s0)) TEXT_DIM None)
    (string_picture fscale 5 (HEIGHT - 12) (as_bytes (status s0)) TEXT_DIM None).
Proof.
  intros H0. destruct (pk_status _ H0). apply (draws_draw_string (spec := canvas_spec s0)).
  all: first [done | unfold in_u, HEIGHT, CANVAS_HEIGHT, TOOLBAR_HEIGHT; lia | unfold HEIGHT, CANVAS_HEIGHT, TOOLBAR_HEIGHT; nia].
Qed.
Lemma paint_render_spec a : paint_ok a ->
  exists b, render fscale a = Ret tt (with_buffer b a) /\ paint_ok (with_buffer b a) /\ shown (with_buffer b a).
Proof.
  intros Ha. enough (wp (render fscale) (fun _ s => pix_ok a s /\ shown s) a) as Hw.
  { apply wp_elim in Hw as ([] & s & E & Hs & Hsh). pose proof (pix_ok_frame _ _ Hs) as Ef. rewrite Ef in E, Hsh.
    exists (buffer s). split; [exact E|]. split; [|exact Hsh]. pose proof (pix_ok_length _ _ Hs). by destruct Ha; split. }
  unfold render. apply wp_bind. change (wp (clear_buffer BG) ?Q a) with (Q tt (with_buffer (replicate (length (buffer a)) BG) a)).
  cbv beta. assert (pix_ok a (with_buffer (replicate (length (buffer a)) BG) a)) as H1.
  { apply pix_ok_with; [by apply paint_pix_ok|by rewrite length_replicate]. }
  revert H1. generalize (with_buffer (replicate (length (buffer a)) BG) a). intros s H.
  tidy_step. apply wp_get. pose proof (pix_ok_frame _ _ H) as Ef.
  pose proof (f_equal current_tool Ef) as ->. pose proof (f_equal current_color Ef) as ->. pose proof (f_equal status Ef) as ->.
  cbn [current_tool current_color status with_buffer]. clear Ef.
  do 5 tidy_step. apply wp_bind. eapply wp_conseq; [apply (tidy_for a); [|exact H]|].
  { intros [i c] Hi. destruct (color_cols i c Hi) as (Hc1 & Hc2 & Hc3).
    apply tidy_seq; [apply tidy_rect; [done|by apply constant_in_u]|]. case_match; [|apply tidy_ret].
    repeat apply tidy_seq; apply tidy_rect; (done || by apply constant_in_u). }
  clear H s. intros [] s H. apply wp_bind. eapply wp_conseq; [by apply (copy_canvas_spec a)|]. clear H s. intros [] s [H Hcopy].
  destruct (status a) as [|c st] eqn:Est; cbn [nonempty].
  - apply wp_ret. split; [done|]. intros x y Hxy _. rewrite Hcopy by done. by rewrite (pix_ok_frame _ _ H).
  - rewrite <- Est. eapply wp_conseq; [apply (status_draws a Ha s H); reflexivity|]. intros [] s' (H' & _ & _ & Hp). split; [done|].
    intros x y Hxy [E|Hy]; [by rewrite (pix_ok_frame _ _ H') in E; cbn in E; rewrite Est in E|].
    destruct Hxy as [Hx Hy0]. specialize (Hp x (y + TOOLBAR_HEIGHT)). unfold pix in Hp. cbn in Hp.
    unfold HEIGHT, WIDTH, CANVAS_WIDTH, CANVAS_HEIGHT, TOOLBAR_HEIGHT in *. rewrite Hp by lia. unfold string_picture, in_box, in_range. cbn [fst snd].
    rewrite (proj2 (Z.leb_gt (240 + 40 - 12) (y + 40))) by lia. cbn [andb]. rewrite Hcopy by (unfold on_canvas, CANVAS_WIDTH, CANVAS_HEIGHT; lia).
    by rewrite (pix_ok_frame _ _ H').
Qed.

(** [a'] is [a] with the points coloured, and its window shows that. *)
Definition painted (pts : list (Z * Z)) (a a' : PaintApp) : Prop :=
  (exists b cv, a' = with_buffer b (with_canvas cv a)) /\ paint_ok a' /\ shown a' /\
  forall i j, on_canvas i j -> at_canvas a' i j = if decide ((i, j) ∈ pts) then ink a else at_canvas a i j.
Lemma painted_nil a : paint_ok a -> shown a -> painted [] a a.
Proof.
  intros Ha Hs. split; [exists (buffer a), (canvas a); by destruct a|]. split_and!; [done..|]. intros i j Hij.
  rewrite decide_False; [done|apply not_elem_of_nil].
Qed.
Lemma painted_app pts1 pts2 a a1 a2 : painted pts1 a a1 -> painted pts2 a1 a2 -> painted (pts1 ++ pts2) a a2.
Proof.
  intros ((b1 & c1 & ->) & _ & _ & H1) ((b2 & c2 & ->) & Hok & Hs & H2).
  split; [by exists b2, c2|]. split_and!; [done..|]. intros i j Hij. rewrite H2, H1 by done. change (ink _) with (ink a) at 1.
  destruct (decide ((i, j) ∈ pts2)), (decide ((i, j) ∈ pts1)), (decide ((i, j) ∈ pts1 ++ pts2)) as [Hin|Hin]; try done;
    rewrite elem_of_app in Hin; tauto.
Qed.
Lemma ink_in_u a : paint_ok a -> in_u 32 (ink a).
Proof. intros Ha. unfold ink. destruct (current_tool a); [apply Ha|split; done]. Qed.
Lemma draw_pixel_spec a x y : paint_ok a -> on_canvas x y ->
  exists a', draw_pixel fscale x y a = Ret tt a' /\ painted [(x, y)] a a'.
Proof.
  intros Ha Hxy. pose proof (proj1 (buffer_index x y Hxy)) as Hi. pose proof (pk_canvas _ Ha) as Hl. pose proof Hxy as [Hx Hy].
  unfold draw_pixel. rewrite !(proj2 (Z.leb_gt _ _)) by lia. cbn [orb]. unfold mbind, st_bind, get_st, put_st.
  rewrite decide_True by lia. set (cv := <[_ := _]> _).
  assert (paint_ok (with_canvas cv a)) as Hc.
  { destruct Ha. split; try done; cbn [canvas with_canvas]; unfold cv; [by rewrite length_insert|].
    split; [|tauto]. apply Forall_insert; [tauto|]. by apply ink_in_u. }
  destruct (paint_render_spec _ Hc) as (b & E & Hok & Hs). exists (with_buffer b (with_canvas cv a)). split; [exact E|].
  split; [by exists b, cv|]. split_and!; [done..|]. intros i j Hij. pose proof (proj1 (buffer_index i j Hij)) as Hij'.
  unfold at_canvas. cbn [canvas with_canvas with_buffer]. unfold cv. case_decide as Hin.
  - apply list_elem_of_singleton in Hin as [= -> ->]. by rewrite list_lookup_total_insert_eq by lia.
  - rewrite list_lookup_total_insert_ne; [done|]. intros E'. apply Hin. apply list_elem_of_singleton.
    destruct Hij. unfold CANVAS_WIDTH, CANVAS_HEIGHT in *. f_equal; lia.
Qed.

(** The loop draws the traced points one after another. *)
Definition plot (p : Z * Z) : ST PaintApp unit :=
  if (0 <=? p.1) && (0 <=? p.2) && (p.1 <? CANVAS_WIDTH) && (p.2 <? CANVAS_HEIGHT) then draw_pixel fscale p.1 p.2 else mret tt.
Lemma plot_all pts a : paint_ok a -> shown a -> Forall (fun p => on_canvas p.1 p.2) pts ->
  exists a', for_in pts plot a = Ret tt a' /\ painted pts a a'.
Proof.
  intros Ha Hs Hp. revert a Ha Hs. induction Hp as [|[x y] pts Hxy _ IH]; intros a Ha Hs; [by exists a; split; [|apply painted_nil]|].
  cbn [for_in]. unfold mbind, st_bind, plot at 1. cbn [fst snd] in *. destruct Hxy as [Hx Hy].
  rewrite !(proj2 (Z.leb_le _ _)), !(proj2 (Z.ltb_lt _ _)) by lia. cbn [andb].
  destruct (draw_pixel_spec a x y Ha (conj Hx Hy)) as (a1 & -> & H1). pose proof H1 as (_ & Hok1 & Hs1 & _).
  destruct (IH a1 Hok1 Hs1) as (a2 & E2 & H2). exists a2. split; [exact E2|]. exact (painted_app [(x, y)] pts a a1 a2 H1 H2).
Qed.
Lemma small_i32 v : - 2 ^ 20 <= v < 2 ^ 20 -> i32 v = v.
Proof. intros. unfold swrap, wrap. cbv zeta. destruct (Z.ltb_spec (v mod 2 ^ 32) (2 ^ (32 - 1))); zlia. Qed.
Section stroke.
Variables (x0 y0 x1 y1 dx dy sx sy : Z).
Hypotheses (Hdx : 0 <= dx < 2 ^ 16) (Hdy : 0 <= dy < 2 ^ 16) (Hsx : sx = 1 \/ sx = -1) (Hsy : sy = 1 \/ sy = -1)
  (Hx1 : x1 = x0 + sx * dx) (Hy1 : y1 = y0 + sy * dy) (Hx0 : Z.abs x0 < 2 ^ 16) (Hy0 : Z.abs y0 < 2 ^ 16).
Lemma line_loop_points fuel k a b err s : reached dx dy k a b err -> Z.max dx dy - k < Z.of_nat fuel ->
  line_loop fscale x1 y1 dx (- dy) sx sy fuel (x0 + sx * a) (y0 + sy * b) err s =
  for_in (points Z.leb x1 y1 dx dy sx sy fuel (x0 + sx * a) (y0 + sy * b) err) plot s.
Proof.
  assert (forall u v, u < v -> (u <=? v) = true) as Hlt1 by (intros; lia).
  assert (forall u v, (u <=? v) = true -> u <= v) as Hlt2 by (intros; lia).
  revert k a b err s. induction fuel as [|fuel IH]; intros k a b err s Hr Hf.
  { destruct Hr as (? & ? & -> & _). lia. }
  cbn [line_loop points for_in]. unfold mbind, st_bind. change (if (0 <=? x0 + sx * a) && _ && _ && _ then _ else _) with (plot (x0 + sx * a, y0 + sy * b)).
  destruct (plot (x0 + sx * a, y0 + sy * b) s) as [[] s1|]; [|done].
  rewrite (at_end x0 y0 x1 y1 dx dy sx sy ltac:(lia) ltac:(lia) Hsx Hsy Hx1 Hy1 k a b err Hr).
  case_bool_decide as Hk; [done|].
  assert (k < Z.max dx dy) as Hkm by (destruct Hr as (? & ? & -> & _); lia).
  destruct (reached_next Z.leb Hlt1 Hlt2 x0 y0 x1 y1 dx dy sx sy ltac:(lia) ltac:(lia) Hsx Hsy Hx1 Hy1 k a b err Hr Hkm) as (Hr' & Hxs & Hys).
  assert (- 2 ^ 18 <= err < 2 ^ 18) as He by (destruct Hr as (? & ? & _ & -> & H1 & H2); destruct (Z.le_ge_cases dy dx); lia).
  assert (- 2 ^ 18 <= x0 + sx * a < 2 ^ 18 /\ - 2 ^ 18 <= y0 + sy * b < 2 ^ 18) as [Hbx Hby]
    by (destruct Hr as (? & ? & _); destruct Hsx as [->| ->], Hsy as [->| ->]; lia).
  unfold next_err, x_step, y_step in *. rewrite (small_i32 (2 * err)) by lia.
  assert (forall u z p q, (u = 1 \/ u = -1) -> p < q -> (z + u * p =? z + u * q) = false) as Hne by (intros u z p q [->| ->] ?; lia).
  specialize (IH _ _ _ _ s1 Hr' ltac:(lia)). rewrite Hx1, Hy1 in *.
  destruct (- dy <=? 2 * err) eqn:Ex, (2 * err <=? dx) eqn:Ey; cbn [andb];
    rewrite ?(Hne sx x0 a dx Hsx (Hxs eq_refl)), ?(Hne sy y0 b dy Hsy (Hys eq_refl)); rewrite ?(small_i32 (err + - dy)) by lia; rewrite ?small_i32 by lia; rewrite ?Z.add_opp_r, ?Z.add_0_r, ?Z.sub_0_r;
    rewrite ?(Z.mul_add_distr_l _ _ 1), ?Z.mul_1_r, ?Z.add_0_r, ?Z.sub_0_r, ?Z.add_assoc in IH; exact IH.
Qed.
End stroke.
Lemma draw_line_spec a x0 y0 x1 y1 : paint_ok a -> shown a -> on_canvas x0 y0 -> on_canvas x1 y1 ->
  exists pts a', draw_line fscale x0 y0 x1 y1 a = Ret tt a' /\ traces x0 y0 x1 y1 pts /\ painted pts a a'.
Proof.
  intros Ha Hs [Hx0 Hy0] [Hx1 Hy1]. unfold CANVAS_WIDTH, CANVAS_HEIGHT in *. unfold draw_line.
  rewrite (small_i32 (x1 - x0)), (small_i32 (y1 - y0)), (small_i32 (_ + _)) by lia.
  set (dx := Z.abs (x1 - x0)). set (dy := Z.abs (y1 - y0)). set (sx := if x0 <? x1 then 1 else -1). set (sy := if y0 <? y1 then 1 else -1).
  assert ((sx = 1 \/ sx = -1) /\ x1 = x0 + sx * dx) as [Hsx Ex1].
  { unfold sx, dx. destruct (Z.ltb_spec x0 x1); lia. }
  assert ((sy = 1 \/ sy = -1) /\ y1 = y0 + sy * dy) as [Hsy Ey1].
  { unfold sy, dy. destruct (Z.ltb_spec y0 y1); lia. }
  set (fuel := S (Z.to_nat (Z.max dx (- - dy)))). assert (Z.max dx dy < Z.of_nat fuel) as Hf by (unfold fuel; lia).
  assert (traces x0 y0 x1 y1 (points Z.leb x1 y1 dx dy sx sy fuel x0 y0 (dx - dy))) as Ht.
  { apply points_trace; try done; try (unfold dx, dy; lia); intros; lia. }
  pose proof (line_loop_points x0 y0 x1 y1 dx dy sx sy ltac:(unfold dx; lia) ltac:(unfold dy; lia) Hsx Hsy Ex1 Ey1
    ltac:(lia) ltac:(lia) fuel 0 0 0 (dx - dy) a) as Hl.
  assert (reached dx dy 0 0 0 (dx - dy)) as Hr by (unfold reached, dx, dy; lia).
  rewrite !Z.mul_0_r, !Z.add_0_r in Hl. specialize (Hl Hr ltac:(unfold fuel; lia)).
  set (pts := points _ _ _ _ _ _ _ _ _ _ _) in *. destruct (plot_all pts a Ha Hs) as (a' & E & Hp).
  - apply Forall_forall. intros p Hp. apply list_elem_of_lookup in Hp as [k Hk]. destruct Ht as (Hl' & _ & _ & Hn).
    pose proof (lookup_lt_Some _ _ _ Hk). pose proof (near_box _ _ _ _ _ _ _ (Hn k p Hk) ltac:(lia) eq_refl).
    unfold on_canvas, CANVAS_WIDTH, CANVAS_HEIGHT. lia.
  - exists pts, a'. split; [|done]. rewrite Z.add_opp_r. by rewrite Hl, E.
Qed.
(** The same, with the pen at [p] afterwards. *)
Definition inked (pts : list (Z * Z)) (p : Z * Z) (a a' : PaintApp) : Prop :=
  exists a1, painted pts a a1 /\ a' = with_stroke true p.1 p.2 a1.
Lemma inked_ok pts p a a' : inked pts p a a' -> paint_ok a' /\ shown a' /\ drawing a' = true /\ last_x a' = p.1 /\ last_y a' = p.2.
Proof. intros (a1 & (_ & Hok & Hs & _) & ->). by destruct Hok. Qed.
Lemma inked_app pts1 pts2 p1 p2 a a1 a2 : inked pts1 p1 a a1 -> inked pts2 p2 a1 a2 -> inked (pts1 ++ pts2) p2 a a2.
Proof.
  intros (b1 & H1 & ->) (b2 & ((b & cv & ->) & Hok & Hs & H2) & ->).
  exists (with_buffer b (with_canvas cv b1)). split; [|done]. apply (painted_app pts1 pts2 a b1); [done|].
  destruct Hok. split; [by exists b, cv|done].
Qed.
(** The window is told of a move with the button down. *)
Definition drag (q : Z * Z) : ST PaintApp unit := handle_mouse_move fscale q.1 (q.2 + TOOLBAR_HEIGHT) true.
Lemma drag_spec p q a : paint_ok a -> shown a -> drawing a = true -> last_x a = p.1 -> last_y a = p.2 ->
  on_canvas p.1 p.2 -> on_canvas q.1 q.2 ->
  exists pts a', drag q a = Ret tt a' /\ traces p.1 p.2 q.1 q.2 pts /\ inked pts q a a'.
Proof.
  intros Ha Hs Hd Hx Hy Hp Hq. unfold drag, handle_mouse_move. pose proof Hq as [Hqx Hqy].
  unfold CANVAS_WIDTH, CANVAS_HEIGHT, TOOLBAR_HEIGHT in *.
  rewrite !(proj2 (Z.ltb_ge _ 0)), (proj2 (Z.leb_le _ _)), !(proj2 (Z.ltb_lt _ _)) by lia. cbn [negb orb andb].
  unfold mbind, st_bind, get_st, modify. rewrite Hd, Hx, Hy, Z.add_simpl_r.
  destruct (draw_line_spec a p.1 p.2 q.1 q.2 Ha Hs Hp Hq) as (pts & a' & -> & Ht & Hpt).
  exists pts, (with_stroke true q.1 q.2 a'). split; [|by split; [|exists a']].
  destruct Hpt as ((b & cv & ->) & _). cbn [drawing with_buffer with_canvas]. by rewrite Hd.
Qed.
(** The segments of a stroke. *)
Fixpoint stroke_of (p : Z * Z) (qs pts : list (Z * Z)) : Prop :=
  match qs with
  | [] => pts = []
  | q :: qs => exists seg rest, pts = seg ++ rest /\ traces p.1 p.2 q.1 q.2 seg /\ stroke_of q qs rest
  end.
Lemma drags_spec p qs a : paint_ok a -> shown a -> drawing a = true -> last_x a = p.1 -> last_y a = p.2 ->
  on_canvas p.1 p.2 -> Forall (fun q => on_canvas q.1 q.2) qs ->
  exists pts a', for_in qs drag a = Ret tt a' /\ stroke_of p qs pts /\ inked pts (default p (last qs)) a a'.
Proof.
  revert p a. induction qs as [|q qs IH]; intros p a Ha Hs Hd Hx Hy Hp Hqs.
  - exists [], a. split; [done|]. split; [done|]. exists a. split; [by apply painted_nil|]. cbn. rewrite <- Hd, <- Hx, <- Hy. by destruct a.
  - apply Forall_cons in Hqs as [Hq Hqs]. cbn [for_in]. unfold mbind, st_bind.
    destruct (drag_spec p q a) as (seg & a1 & -> & Ht & Hi); [done..|]. destruct (inked_ok _ _ _ _ Hi) as (? & ? & ? & ? & ?).
    destruct (IH q a1) as (rest & a2 & E & Hst & Hi2); [done..|]. exists (seg ++ rest), a2. split; [exact E|].
    split; [by exists seg, rest|]. replace (default p (last (q :: qs))) with (default q (last qs)); [by eapply inked_app|].
    rewrite last_cons. by destruct (last qs).
Qed.

(** C34: A stroke paints exactly its line.  Pressing the button on the canvas and
    moving it over any points of the canvas never panics, ends, and colours
    exactly the point pressed and the traced segments from each point to the next
    (one pixel for each step along a segment's longer side, each within half a
    pixel of it, its ends included) with the pen's colour or, for the eraser, the
    paper's; no other pixel, tool or colour changes, and the window shows it. *)
Theorem stroke_paints p qs a :
  paint_ok a -> on_canvas p.1 p.2 -> Forall (fun q => on_canvas q.1 q.2) qs ->
  exists pts a', (handle_click fscale p.1 (p.2 + TOOLBAR_HEIGHT);; for_in qs drag) a = Ret tt a' /\
    stroke_of p qs pts /\ inked (p :: pts) (default p (last qs)) a a'.
Proof.
  intros Ha Hp Hqs. unfold handle_click. pose proof Hp as [Hpx Hpy]. unfold mbind at 1, st_bind at 1.
  assert (exists a1, (modify (with_stroke true p.1 p.2);; draw_pixel fscale p.1 p.2) a = Ret tt a1 /\ inked [p] p a a1) as (a1 & E1 & H1).
  { assert (paint_ok (with_stroke true p.1 p.2 a)) as Ha' by by destruct Ha.
    destruct (draw_pixel_spec _ p.1 p.2 Ha' Hp) as (a1 & E & (b & cv & ->) & Hok & Hs & Hpt). rewrite <- surjective_pairing in Hpt.
    eexists. split; [exact E|]. exists (with_buffer b (with_canvas cv a)). split; [|done].
    destruct Hok. split_and!; [by exists b, cv|done|exact Hs|exact Hpt]. }
  unfold CANVAS_WIDTH, CANVAS_HEIGHT, TOOLBAR_HEIGHT in *.
  rewrite !(proj2 (Z.ltb_ge _ _)), !(proj2 (Z.ltb_lt _ _)), Z.add_simpl_r by lia. cbn [orb andb]. rewrite E1.
  destruct (inked_ok _ _ _ _ H1) as (? & ? & ? & ? & ?). destruct (drags_spec p qs a1) as (pts & a2 & E2 & Hst & Hi2); [done..|].
  exists pts, a2. split; [exact E2|]. split; [done|]. exact (inked_app [p] pts p _ a a1 a2 H1 Hi2).
Qed.

(** A stroke is not over when the button is released.  Nothing tells the
    window of the release ([handle_release] is never called), so after a stroke
    that ended at [p], and any moves without a button, the next move with the
    button down, wherever it was pressed, draws a line from [p]. *)
Theorem stroke_survives_release pts p ms q a a' :
  paint_ok a -> inked pts p a a' -> on_canvas p.1 p.2 -> on_canvas q.1 q.2 ->
  exists seg a2, (for_in ms (fun m : Z * Z => handle_mouse_move fscale m.1 m.2 false);; drag q) a' = Ret tt a2 /\
    traces p.1 p.2 q.1 q.2 seg /\ inked (pts ++ seg) q a a2.
Proof.
  intros Ha Hi Hp Hq. assert (for_in ms (fun m : Z * Z => handle_mouse_move fscale m.1 m.2 false) a' = Ret tt a') as E.
  { clear. induction ms as [|m ms IH]; [done|]. exact IH. }
  rewrite (st_bind_ret _ _ _ _ _ E). destruct (inked_ok _ _ _ _ Hi) as (? & ? & ? & ? & ?).
  destruct (drag_spec p q a') as (seg & a2 & E2 & Ht & Hi2); [done..|]. exists seg, a2. split; [exact E2|]. split; [done|].
  by eapply inked_app.
Qed.

Lemma image_bytes_length px : length (image_bytes px) = (4 * length px)%nat.
Proof. induction px as [|c px IH]; [done|]. unfold image_bytes in *. cbn [mbind list_bind]. rewrite length_app, IH. cbn. lia. Qed.
Lemma image_pixel px i : Forall (in_u 32) px -> (i < length px)%nat ->
  le_combine (take 4 (drop (4 * i) (image_bytes px))) = px !!! i.
Proof.
  intros Hpx. revert i. induction Hpx as [|c px Hc _ IH]; intros i Hi; [cbn in Hi; lia|].
  unfold image_bytes in *. cbn [mbind list_bind]. destruct i as [|i].
  - rewrite drop_0. rewrite take_app_le, take_ge by (rewrite length_le_split; lia). by apply le_combine_small.
  - cbn [length] in Hi. replace (4 * S i)%nat with (length (le_split 4 c) + 4 * i)%nat by (rewrite length_le_split; lia).
    rewrite drop_app_add. apply IH. lia.
Qed.
Lemma image_roundtrip px n : Forall (in_u 32) px -> n = length px ->
  (fun i => le_combine (take 4 (drop (4 * i) (image_bytes px)))) <$> seq 0 n = px.
Proof.
  intros Hpx ->. apply list_eq. intros i. rewrite list_lookup_fmap. destruct (decide (i < length px)%nat) as [Hi|Hi].
  - rewrite lookup_seq_lt by done. cbn [fmap option_fmap option_map Nat.add]. rewrite image_pixel by done. by rewrite list_lookup_lookup_total_lt.
  - rewrite lookup_seq_ge, lookup_ge_None_2 by lia. done.
Qed.
(** A saved picture is the picture loaded: from the bytes that [save] writes
    for a canvas, [load_image] restores that canvas pixel for pixel in any window,
    which then shows it and saves to that file from then on; any other number of
    bytes leaves the canvas and the file name as they were. *)
Theorem picture_roundtrip path a b :
  paint_ok a -> paint_ok b -> Z.of_nat (length (as_bytes path)) < 2 ^ 15 -> Forall (fun c => 0 <= c) (as_bytes path) ->
  (exists a', load_image fscale path (image_bytes (canvas a)) b = Ret tt a' /\ paint_ok a' /\ shown a' /\
     canvas a' = canvas a /\ file_path a' = path) /\
  forall data, length data <> expected_len ->
    exists a', load_image fscale path data b = Ret tt a' /\ paint_ok a' /\ shown a' /\ canvas a' = canvas b /\ file_path a' = file_path b.
Proof.
  intros Ha Hb Hlen Hpos. pose proof (pk_canvas _ Ha) as Hl. split.
  - unfold load_image. rewrite decide_False by (intros Hn; apply Hn; rewrite image_bytes_length; unfold expected_len; lia).
    rewrite image_roundtrip by (try apply Ha; lia).
    unfold mbind, st_bind, modify. set (b1 := with_status _ _).
    assert (paint_ok b1) as H1.
    { destruct Hb, Ha. split; [done|done|cbn; tauto|]. cbn [status b1 with_status]. unfold as_bytes in *.
      rewrite bind_app, length_app, Forall_app. split; [vm_compute (length (bytes_of _ ≫= _)); lia|]. split; [|done].
      by repeat constructor. }
    destruct (paint_render_spec b1 H1) as (px & -> & Hok & Hs). by exists (with_buffer px b1).
  - intros data Hd. unfold load_image. rewrite decide_True by done. unfold mbind, st_bind, modify. set (b1 := with_status _ _).
    assert (paint_ok b1) as H1.
    { destruct Hb. split; [done|done|done|]. cbn [status b1 with_status]. split; [by vm_compute|]. vm_compute. repeat constructor; discriminate. }
    destruct (paint_render_spec b1 H1) as (px & -> & Hok & Hs). by exists (with_buffer px b1).
Qed.
End paint.

(** ** Witnesses *)
Definition sample_paint : PaintApp :=
  mk_paint (replicate (Z.to_nat (WIDTH * HEIGHT)) BG) (replicate (Z.to_nat (CANVAS_WIDTH * CANVAS_HEIGHT)) CANVAS_BG) 0x00FF0000 Pen
    false (-1) (-1) [] [].
Lemma sample_paint_ok : paint_ok sample_paint.
Proof.
  unfold sample_paint. split; cbn [buffer canvas current_color status]; rewrite ?length_replicate, ?Z2Nat.id; try done.
  split; [|done]. apply Forall_replicate. done.
Qed.
Lemma stroke_paints_witness :
  exists pts a', (handle_click 1 10 50;; for_in [(30, 15); (0, 239)] (drag 1)) sample_paint = Ret tt a' /\
    stroke_of (10, 10) [(30, 15); (0, 239)] pts /\ inked ((10, 10) :: pts) (0, 239) sample_paint a'.
Proof.
  apply (stroke_paints 1 ltac:(lia) (10, 10) [(30, 15); (0, 239)] sample_paint sample_paint_ok).
  - unfold on_canvas, CANVAS_WIDTH, CANVAS_HEIGHT. cbn. lia.
  - repeat constructor; cbn; lia.
Defined.
Lemma stroke_survives_release_witness :
  exists a seg a2, (for_in [(5, 5); (300, 20)] (fun m : Z * Z => handle_mouse_move 1 m.1 m.2 false);; drag 1 (200, 100)) a = Ret tt a2 /\
    last_x a = 20 /\ last_y a = 30 /\ traces 20 30 200 100 seg /\ inked seg (200, 100) a a2.
Proof.
  destruct (paint_render_spec 1 ltac:(lia) sample_paint sample_paint_ok) as (b & _ & Hok & Hs).
  set (a0 := with_buffer b sample_paint) in *.
  assert (inked [] (20, 30) a0 (with_stroke true 20 30 a0)) as Hi by (exists a0; split; [apply painted_nil; assumption|reflexivity]).
  destruct (inked_ok _ _ _ _ Hi) as (Hok' & Hs' & _).
  assert (inked [] (20, 30) (with_stroke true 20 30 a0) (with_stroke true 20 30 a0)) as Hi'.
  { exists (with_stroke true 20 30 a0). split; [apply painted_nil; assumption|reflexivity]. }
  destruct (stroke_survives_release 1 ltac:(lia) [] (20, 30) [(5, 5); (300, 20)] (200, 100) _ _ Hok' Hi') as (seg & a2 & E & Ht & H2).
  - unfold on_canvas, CANVAS_WIDTH, CANVAS_HEIGHT. cbn. lia.
  - unfold on_canvas, CANVAS_WIDTH, CANVAS_HEIGHT. cbn. lia.
  - exists (with_stroke true 20 30 a0), seg, a2. split; [exact E|]. split; [reflexivity|]. split; [reflexivity|]. split; [exact Ht|exact H2].
Defined.
Lemma picture_roundtrip_witness :
  exists a', load_image 1 (bytes_of "/a.raw") (image_bytes (canvas sample_paint)) sample_paint = Ret tt a' /\
    canvas a' = canvas sample_paint /\ file_path a' = bytes_of "/a.raw".
Proof.
  destruct (proj1 (picture_roundtrip 1 ltac:(lia) (bytes_of "/a.raw") sample_paint sample_paint sample_paint_ok sample_paint_ok
    ltac:(vm_compute; reflexivity) ltac:(vm_compute; repeat constructor; discriminate))) as (a' & E & _ & _ & Ec & Ep).
  exists a'. split; [exact E|]. split; [exact Ec|exact Ep].
Defined.
