(* ===== verification/ImageViewer.v ===== *)
(** * The image viewer, [image_viewer.rs], and the square root of [wm.rs]

    A picture shown at a whole-number magnification, moved by the arrow keys. *)
From stdpp Require Import list_numbers.
From S2P Require Import Prelude Bytes Text Keyboard Font Gfx Draw PixelBuffer Canvas.

Definition WIDTH : Z := 640.
Definition HEIGHT : Z := 480.
Definition BG : Z := 0x00202020.
Definition TOOLBAR_BG : Z := 0x002A2A2A.
Definition TEXT : Z := 0x00FFFFFF.
Definition TEXT_DIM : Z := 0x009A9A9A.
Definition TOOLBAR_HEIGHT : Z := 30.

Record ImageViewerApp := mk_viewer {
  buffer : list Z; image_data : option (list Z); image_width : Z; image_height : Z; zoom : Z;
  offset_x : Z; offset_y : Z; file_path : str; status : str }.
Definition with_buffer v a := mk_viewer v (image_data a) (image_width a) (image_height a) (zoom a) (offset_x a) (offset_y a) (file_path a) (status a).
Definition with_view z x y a := mk_viewer (buffer a) (image_data a) (image_width a) (image_height a) z x y (file_path a) (status a).
Definition with_status v a := mk_viewer (buffer a) (image_data a) (image_width a) (image_height a) (zoom a) (offset_x a) (offset_y a) (file_path a) v.

#[refine] Global Instance viewer_buffer : PixelBuffer ImageViewerApp := {
  buf_width := fun _ => WIDTH; buf_height := fun _ => HEIGHT; buf := buffer; set_buf := with_buffer }.
Proof. all: try done. by intros []. Defined.
#[local] Hint Extern 0 (Surface ImageViewerApp) => exact canvas_surface : typeclass_instances.
Definition app_width (a : ImageViewerApp) : Z := WIDTH.
Definition app_height (a : ImageViewerApp) : Z := HEIGHT.
Definition pixels (a : ImageViewerApp) : list Z := buffer a.

Section viewer.
Variable fscale : Z.
Abbreviation APP := (ST ImageViewerApp).
(** The image's pixel under the window's ([i32] division truncates), if any. *)
Definition source (a : ImageViewerApp) (screen_x screen_y : Z) : option (Z * Z) :=
  let img_x := Z.quot (i32 (screen_x - offset_x a)) (i32 (zoom a)) in
  let img_y := Z.quot (i32 (i32 (screen_y - offset_y a) - TOOLBAR_HEIGHT)) (i32 (zoom a)) in
  if (0 <=? img_x) && (img_x <? i32 (image_width a)) && (0 <=? img_y) && (img_y <? i32 (image_height a))
  then Some (img_x, img_y) else None.
Definition show_pixel (data : list Z) (screen_y screen_x : Z) : APP unit := fun a =>
  match source a screen_x screen_y with
  | None => Ret tt a
  | Some (img_x, img_y) =>
      match data !! Z.to_nat (u32 (u32 (img_y * image_width a) + img_x)) with
      | Some pixel =>
          let i := Z.to_nat (screen_y * WIDTH + screen_x) in
          if decide (i < length (buffer a))%nat then Ret tt (with_buffer (<[i := pixel]> (buffer a)) a) else Panic
      | None => Panic
      end
  end.
Definition render : APP unit :=
  clear_buffer BG;;
  fill_rect 0 0 WIDTH TOOLBAR_HEIGHT TOOLBAR_BG;;
  draw_string fscale 10 10 (bytes_of "Image Viewer") TEXT None;;
  a ← get_st;
  (match image_data a with
   | Some data =>
       for_in (range TOOLBAR_HEIGHT HEIGHT) (fun screen_y => for_in (range 0 WIDTH) (show_pixel data screen_y))
   | None =>
       let msg := bytes_of "No image loaded" in
       let msg_width := u32 (Z.of_nat (length msg) * glyph_w fscale) in
       draw_string fscale (u32 (WIDTH - msg_width) / 2) (HEIGHT / 2) msg TEXT_DIM None
   end);;
  if nonempty (status a) then draw_string fscale 10 (HEIGHT - 15) (as_bytes (status a)) TEXT_DIM None else mret tt.
Definition new : outcome ImageViewerApp unit :=
  render (mk_viewer (replicate (Z.to_nat (WIDTH * HEIGHT)) BG) None 0 0 1 0 0 [] (bytes_of "No image loaded")).

(** [{} ({}x{}, zoom {}x)] *)
Definition describe (a : ImageViewerApp) (path : str) : str :=
  path ++ bytes_of " (" ++ uint_to_string (image_width a) ++ bytes_of "x" ++ uint_to_string (image_height a) ++
  bytes_of ", zoom " ++ uint_to_string (zoom a) ++ bytes_of "x)".
Definition centered (view size zoom : Z) : Z := Z.quot (i32 (view - i32 (i32 size * i32 zoom))) 2.
Definition center (a : ImageViewerApp) : ImageViewerApp :=
  with_view (zoom a) (centered WIDTH (image_width a) (zoom a)) (centered (HEIGHT - TOOLBAR_HEIGHT) (image_height a) (zoom a)) a.
Definition load_image (path : str) (data : list Z) (width height : Z) : APP unit :=
  let expected_len := Z.to_nat (u32 (u32 (width * height) * 4)) in
  if decide (length data <> expected_len) then
    modify (with_status (bytes_of "Invalid image size (expected " ++ uint_to_string (Z.of_nat expected_len) ++
                         bytes_of " bytes, got " ++ uint_to_string (Z.of_nat (length data)) ++ bytes_of ")"));;
    render
  else
    px ← (if decide (4 * Z.to_nat (u32 (width * height)) <= length data)%nat
          then mret ((fun i => le_combine (take 4 (drop (4 * i) data))) <$> seq 0 (Z.to_nat (u32 (width * height))))
          else panic);
    modify (fun a => center (mk_viewer (buffer a) (Some px) width height (zoom a) (offset_x a) (offset_y a) path (status a)));;
    modify (fun a => with_status (describe a path) a);;
    render.
(** Clicks change nothing. *)
Definition handle_click (x y : Z) : APP unit := mret tt.
Definition set_zoom (z : Z) (a : ImageViewerApp) : ImageViewerApp :=
  let a := with_view z (offset_x a) (offset_y a) a in with_status (describe a (file_path a)) a.
Definition pan (dx dy : Z) : APP unit :=
  modify (fun a => with_view (zoom a) (i32 (offset_x a + dx)) (i32 (offset_y a + dy)) a);; render.
Definition handle_key (ev : Event) : APP unit :=
  a ← get_st;
  if decide (ev = Char 43 \/ ev = Char 61) then
    if zoom a <? 8 then modify (set_zoom (zoom a + 1));; render else mret tt
  else if decide (ev = Char 45) then
    if 1 <? zoom a then modify (set_zoom (zoom a - 1));; render else mret tt
  else if decide (ev = Char 48) then
    modify (fun a => let a := center (with_view 1 (offset_x a) (offset_y a) a) in with_status (describe a (file_path a)) a);; render
  else match ev with
       | Left => pan 20 0
       | Right => pan (-20) 0
       | Up => pan 0 20
       | Down => pan 0 (-20)
       | _ => mret tt
       end.
End viewer.

(** ** [isqrt] *)
(** Newton's method; [fuel] rounds.  [None] is a division by zero, or a loop that
    goes on. *)
Fixpoint isqrt_loop (fuel : nat) (n x y : Z) : option Z :=
  if y <? x then
    match fuel with
    | O => None
    | S fuel => if y =? 0 then None else isqrt_loop fuel n y (u32 (y + n / y) / 2)
    end
  else Some x.
Definition isqrt (n : Z) : option Z :=
  if n =? 0 then Some 0 else isqrt_loop (Z.to_nat n) n n (u32 (n + 1) / 2).
