(* ===== verification/ImageFacts.v ===== *)
(** * What the image viewer shows

    Drawing never fails and shows the magnified image; the square root that
    guesses a file's dimensions is the square root. *)
From stdpp Require Import list_numbers.
From S2P Require Import Prelude Bytes Text Keyboard Font Gfx Draw PixelBuffer Canvas ImageViewer.

(** ** The square root *)
Lemma newton_above n x : 0 <= n -> 0 < x -> Z.sqrt n <= (x + n / x) / 2.
Proof.
  intros Hn Hx. pose proof (Z.sqrt_spec n Hn) as [Hr _]. pose proof (Z.sqrt_nonneg n) as Hr0. set (r := Z.sqrt n) in *.
  assert (2 * r - x <= n / x) as Hd; [|apply Z.div_le_lower_bound; lia].
  destruct (Z.le_gt_cases (2 * r - x) 0) as [Hc|Hc]; [exact (Z.le_trans _ _ _ Hc (Z.div_pos n x Hn Hx))|]. apply Z.div_le_lower_bound; [exact Hx|]. pose proof (Z.square_nonneg (x - r)). lia.
Qed.
Lemma isqrt_loop_spec fuel n x : 0 < n < 2 ^ 32 - 1 -> Z.sqrt n <= x <= n -> 0 < x -> x <= Z.of_nat fuel ->
  isqrt_loop fuel n x ((x + n / x) / 2) = Some (Z.sqrt n).
Proof.
  intros Hn. revert x. induction fuel as [|fuel IH]; intros x Hx Hx0 Hf; [lia|]. cbn [isqrt_loop].
  pose proof (newton_above n x ltac:(lia) Hx0) as Hy. set (y := (x + n / x) / 2) in *.
  assert (0 < Z.sqrt n) as Hs by (apply Z.sqrt_pos; lia). destruct (Z.ltb_spec y x) as [Hlt|Hge].
  - rewrite (proj2 (Z.eqb_neq y 0)) by lia.
    assert (n / y <= n) by (apply Z.div_le_upper_bound; nia). pose proof (Z.div_pos n y ltac:(lia) ltac:(lia)).
    assert (y + n / y < 2 ^ 32) as Hb.
    { assert (y * (n / y) <= n) by (apply Z.mul_div_le; lia). destruct (Z.le_gt_cases 2 y); [nia|]. lia. }
    rewrite wrap_small by (unfold in_u; lia). apply IH; lia.
  - f_equal. apply Z.le_antisymm; [|lia]. apply Z.sqrt_le_square; [lia..|].
    assert (x <= n / x) as Hq. { unfold y in Hge. pose proof (Z.mul_div_le (x + n / x) 2 ltac:(lia)). lia. }
    pose proof (Z.mul_div_le n x Hx0). nia.
Qed.

(** [isqrt] is the integer square root: for every count a headerless file can
    have but the largest 32-bit one, Newton's iteration ends within as many rounds
    and returns the largest integer whose square is not above it. *)
Theorem isqrt_correct n : 0 <= n < 2 ^ 32 - 1 -> isqrt n = Some (Z.sqrt n).
Proof.
  intros Hn. unfold isqrt. destruct (Z.eqb_spec n 0) as [->|H0]; [done|]. rewrite wrap_small by (unfold in_u; lia).
  replace (n + 1) with (n + n / n) by (rewrite Z.div_same by lia; lia).
  apply isqrt_loop_spec; [lia| |lia|lia]. split; [|lia]. apply Z.sqrt_le_lin. lia.
Qed.
Lemma isqrt_correct_witness : isqrt 76800 = Some 277.
Proof. rewrite isqrt_correct; [reflexivity|lia]. Defined.


(** ** What the window shows *)
Record viewer_ok (a : ImageViewerApp) : Prop := {
  vk_buffer : Z.of_nat (length (buffer a)) = WIDTH * HEIGHT;
  vk_zoom : 1 <= zoom a <= 8;
  vk_offset : - 2 ^ 30 <= offset_x a < 2 ^ 30 /\ - 2 ^ 30 <= offset_y a < 2 ^ 30;
  vk_image : forall data, image_data a = Some data ->
    0 <= image_width a < 2 ^ 16 /\ 0 <= image_height a < 2 ^ 15 /\ Z.of_nat (length data) = image_width a * image_height a;
  vk_status : Z.of_nat (length (as_bytes (status a))) < 2 ^ 16 /\ Forall (fun b => 0 <= b) (as_bytes (status a)) }.
Definition image_pixel (a : ImageViewerApp) (data : list Z) (p : Z * Z) : Z := data !!! Z.to_nat (p.2 * image_width a + p.1).
(** The picture below the toolbar and but for the status line: the image's pixel
    at the position divided by the magnification, or the background. *)
Definition shows (a a' : ImageViewerApp) : Prop :=
  forall data x y, image_data a = Some data -> 0 <= x < WIDTH -> TOOLBAR_HEIGHT <= y < HEIGHT - 15 ->
    buffer a' !!! Z.to_nat (y * WIDTH + x) =
      match source a x y with Some p => image_pixel a data p | None => BG end.
#[local] Hint Extern 0 (Surface ImageViewerApp) => exact canvas_surface : typeclass_instances.
Lemma viewer_pix_ok a : viewer_ok a -> pix_ok a a.
Proof. intros [Hb _ _ _ _]. unfold pix_ok. cbn. unfold WIDTH, HEIGHT in *. split_and!; lia || done. Qed.
Lemma viewer_frame (s0 s : ImageViewerApp) : pix_ok s0 s -> s = with_buffer (buffer s) s0.
Proof. intros (_ & _ & _ & _ & _ & _ & Hf). rewrite <- Hf. by destruct s. Qed.
Lemma viewer_length (s0 s : ImageViewerApp) : pix_ok s0 s -> Z.of_nat (length (buffer s)) = WIDTH * HEIGHT.
Proof. by intros (_ & _ & _ & _ & _ & Hl & _). Qed.
Lemma viewer_with (s0 s : ImageViewerApp) b : pix_ok s0 s -> length b = length (buffer s) -> pix_ok s0 (with_buffer b s).
Proof. intros (H1 & H2 & H3 & H4 & H5 & Hl & Hf) Hb. unfold pix_ok in *. cbn in *. split_and!; try done. by rewrite Hb. Qed.
Definition px (a : ImageViewerApp) (x y : Z) : Z := buffer a !!! Z.to_nat (y * WIDTH + x).
(** The rows [y0, y1) hold [f]. *)
Definition rows_hold (y0 y1 : Z) (f : Z -> Z -> Z) (a : ImageViewerApp) : Prop :=
  forall x y, 0 <= x < WIDTH -> y0 <= y < y1 -> px a x y = f x y.
(** A drawing above or below the rows. *)
Lemma draw_outside s0 s m f y0 y1 g : pix_ok s0 s -> rows_hold y0 y1 g s -> 0 <= y0 -> y1 <= HEIGHT ->
  draws_by (pix_ok s0) buf_width buf_height pix WIDTH HEIGHT m f ->
  (forall i j p, 0 <= i < WIDTH -> y0 <= j < y1 -> f i j p = p) ->
  wp m (fun _ s' => pix_ok s0 s' /\ rows_hold y0 y1 g s') s.
Proof.
  intros Hs Hr Hy0 Hy1 Hd Hf. eapply wp_conseq; [by apply (Hd s)|]. intros [] s' (Hs' & _ & _ & Hp). split; [done|].
  intros x y Hx Hy. specialize (Hp x y Hx ltac:(lia)). unfold pix in Hp. cbn in Hp. unfold px. rewrite Hp, Hf by done. by apply Hr.
Qed.
Definition viewed (a : ImageViewerApp) (data : list Z) (x y : Z) : Z :=
  match source a x y with Some p => image_pixel a data p | None => BG end.
Lemma small_int v : - 2 ^ 31 <= v < 2 ^ 31 -> i32 v = v.
Proof. intros. unfold swrap, wrap. cbv zeta. destruct (Z.ltb_spec (v mod 2 ^ 32) (2 ^ (32 - 1))); zlia. Qed.
Lemma source_inside a data x y p : viewer_ok a -> image_data a = Some data -> source a x y = Some p ->
  0 <= p.1 < image_width a /\ 0 <= p.2 < image_height a /\ 0 <= p.2 * image_width a + p.1 < Z.of_nat (length data) /\
  Z.of_nat (length data) < 2 ^ 32.
Proof.
  intros Ha Hd. destruct (vk_image _ Ha data Hd) as (Hw & Hh & Hl). unfold source. cbv zeta.
  rewrite (small_int (image_width a)), (small_int (image_height a)) by lia.
  destruct (_ && _) eqn:E; [|done]. intros [= <-]. cbn [fst snd]. rewrite !andb_true_iff, !Z.leb_le, !Z.ltb_lt in E.
  rewrite Hl. destruct E as [[[? ?] ?] ?]. split_and!; try lia; nia.
Qed.
Lemma source_with_buffer a b x y : source (with_buffer b a) x y = source a x y.
Proof. done. Qed.
Lemma show_pixel_spec s0 data x y s : viewer_ok s0 -> image_data s0 = Some data -> pix_ok s0 s ->
  0 <= x < WIDTH -> 0 <= y < HEIGHT ->
  wp (show_pixel data y x) (fun _ s' => pix_ok s0 s' /\
    forall i j, 0 <= i < WIDTH -> 0 <= j < HEIGHT -> px s' i j =
      if decide (i = x /\ j = y) then match source s0 x y with Some p => image_pixel s0 data p | None => px s i j end else px s i j) s.
Proof.
  intros H0 Hd Hs Hx Hy. unfold show_pixel, wp. pose proof (viewer_length _ _ Hs) as Hl.
  assert (source s x y = source s0 x y) as -> by (rewrite (viewer_frame _ _ Hs); apply source_with_buffer).
  destruct (source s0 x y) as [[u v]|] eqn:Es.
  - destruct (source_inside s0 data x y _ H0 Hd Es) as (Hu & Hv & Hi & Hb). cbn [fst snd] in *.
    assert (image_width s = image_width s0) as -> by by rewrite (viewer_frame _ _ Hs).
    assert (0 <= v * image_width s0) by nia. rewrite !wrap_small by (unfold in_u; rewrite ?wrap_small by (unfold in_u; lia); lia).
    destruct (lookup_lt_is_Some_2 data (Z.to_nat (v * image_width s0 + u))) as [c Hc]; [lia|]. rewrite Hc.
    assert (0 <= y * WIDTH + x < WIDTH * HEIGHT) as Hin by (unfold WIDTH, HEIGHT in *; lia). rewrite decide_True by lia.
    split; [apply viewer_with; [done|by rewrite length_insert]|]. intros i j Hi' Hj'. unfold px. cbn [buffer with_buffer].
    case_decide as Hij.
    + destruct Hij as [-> ->]. rewrite list_lookup_total_insert_eq by lia. unfold image_pixel. symmetry. by apply list_lookup_total_correct.
    + rewrite list_lookup_total_insert_ne; [done|]. unfold WIDTH, HEIGHT in *. lia.
  - split; [done|]. intros i j _ _. by case_decide.
Qed.
(** The two loops: pixel by pixel, row by row. *)
Lemma show_rows_spec a data s : viewer_ok a -> image_data a = Some data -> pix_ok a s ->
  rows_hold TOOLBAR_HEIGHT HEIGHT (fun _ _ => BG) s ->
  wp (for_in (range TOOLBAR_HEIGHT HEIGHT) (fun y => for_in (range 0 WIDTH) (show_pixel data y)))
    (fun _ s' => pix_ok a s' /\ rows_hold TOOLBAR_HEIGHT HEIGHT (viewed a data) s') s.
Proof.
  intros Ha Hd Hs Hbg. set (upto := fun k (s' : ImageViewerApp) => pix_ok a s' /\
    forall x y, 0 <= x < WIDTH -> TOOLBAR_HEIGHT <= y < HEIGHT -> px s' x y = if y * WIDTH + x <? k then viewed a data x y else BG).
  assert (forall x y s1, 0 <= x < WIDTH -> TOOLBAR_HEIGHT <= y < HEIGHT -> upto (y * WIDTH + x) s1 ->
    wp (show_pixel data y x) (fun _ => upto (y * WIDTH + x + 1)) s1) as Hpx.
  { intros x y s1 Hx Hy [Hs1 Hp1]. unfold TOOLBAR_HEIGHT in *. eapply wp_conseq; [apply (show_pixel_spec a data x y s1 Ha Hd Hs1 Hx); lia|].
    intros [] s2 [Hs2 Hp2]. split; [done|]. intros i j Hi Hj. rewrite Hp2 by lia. case_decide as Hij.
    - destruct Hij as [-> ->]. rewrite (proj2 (Z.ltb_lt _ (y * WIDTH + x + 1))) by lia. unfold viewed.
      destruct (source a x y); [done|]. rewrite Hp1 by lia. by rewrite (proj2 (Z.ltb_ge _ _)) by lia.
    - rewrite Hp1 by lia. unfold WIDTH in *. destruct (Z.ltb_spec (j * 640 + i) (y * 640 + x)), (Z.ltb_spec (j * 640 + i) (y * 640 + x + 1)); done || lia. }
  change HEIGHT with (TOOLBAR_HEIGHT + 450) at 1.
  eapply wp_conseq; [apply (wp_for_range (fun k => upto (k * WIDTH)) TOOLBAR_HEIGHT 450)|].
  - done.
  - split; [done|]. intros x y Hx Hy. rewrite Hbg by done. unfold WIDTH in *. by rewrite (proj2 (Z.ltb_ge _ _)) by lia.
  - intros y s1 Hy Hs1. change WIDTH with (0 + WIDTH) at 1.
    eapply wp_conseq; [apply (wp_for_range (fun k => upto (y * WIDTH + k)) 0 WIDTH)|].
    + done.
    + by rewrite Z.add_0_r.
    + intros x s2 Hx Hs2. eapply wp_conseq; [apply Hpx; [lia|unfold TOOLBAR_HEIGHT, HEIGHT in *; lia|done]|]. intros [] s3. by rewrite Z.add_assoc.
    + intros [] s2 Hs2. by replace ((y + 1) * WIDTH) with (y * WIDTH + (0 + WIDTH)) by lia.
  - intros [] s' [Hs' Hp]. split; [done|]. intros x y Hx Hy. rewrite Hp by done.
    unfold WIDTH, TOOLBAR_HEIGHT, HEIGHT in *. by rewrite (proj2 (Z.ltb_lt _ _)) by lia.
Qed.

Section view.
Context (fscale : Z) (Hscale : 1 <= fscale <= 2).
Lemma string_rows_below y0 text color x y : y + 8 * fscale <= y0 ->
  forall i j p : Z, y0 <= j -> string_picture fscale x y text color None i j p = p.
Proof.
  intros Hy i j p Hj. unfold string_picture, in_box, in_range. cbn [fst snd]. rewrite (proj2 (Z.ltb_ge j _)) by lia.
  by rewrite andb_false_r.
Qed.
Lemma string_rows_above y1 text color x y : y1 <= y ->
  forall i j p : Z, j < y1 -> string_picture fscale x y text color None i j p = p.
Proof.
  intros Hy i j p Hj. unfold string_picture, in_box, in_range. cbn [fst snd]. by rewrite (proj2 (Z.leb_gt y j)) by lia.
Qed.

(** A line of text above or below the rows. *)
Lemma string_outside s0 s text color x y y0 y1 g : pix_ok s0 s -> rows_hold y0 y1 g s -> 0 <= y0 -> y1 <= HEIGHT ->
  in_u 32 x -> 0 <= y < 2 ^ 16 -> x < 2 ^ 16 -> Z.of_nat (length text) < 2 ^ 16 -> Forall (fun b => 0 <= b) text ->
  y + 8 * fscale <= y0 \/ y1 <= y ->
  wp (draw_string fscale x y text color None) (fun _ s' => pix_ok s0 s' /\ rows_hold y0 y1 g s') s.
Proof.
  intros Hs Hr H0 H1 Hx Hy Hx' Hl Hpos Hyy. apply (draw_outside s0 s _ (string_picture fscale x y text color None)); [done..| |].
  - assert (8 * fscale * Z.of_nat (length text) <= 16 * Z.of_nat (length text)) by nia.
    assert (draws_by (pix_ok s0) buf_width buf_height pix WIDTH HEIGHT (draw_string fscale x y text color None)
      (string_picture fscale x y text color None)) as Hd; [|exact Hd].
    apply (draws_draw_string (spec := canvas_spec s0)). all: try done. all: unfold in_u in *; lia.
  - intros i j p Hi Hj. destruct Hyy; [apply (string_rows_below y0)|apply (string_rows_above y1)]; lia.
Qed.
Lemma begin_render a : viewer_ok a ->
  wp (clear_buffer BG;; fill_rect 0 0 WIDTH TOOLBAR_HEIGHT TOOLBAR_BG;; draw_string fscale 10 10 (bytes_of "Image Viewer") TEXT None)
    (fun _ s => pix_ok a s /\ rows_hold TOOLBAR_HEIGHT HEIGHT (fun _ _ => BG) s) a.
Proof.
  intros Ha. apply wp_bind. change (wp (clear_buffer BG) ?Q a) with (Q tt (with_buffer (replicate (length (buffer a)) BG) a)). cbv beta.
  assert (pix_ok a (with_buffer (replicate (length (buffer a)) BG) a)) as H1.
  { apply viewer_with; [by apply viewer_pix_ok|by rewrite length_replicate]. }
  assert (rows_hold TOOLBAR_HEIGHT HEIGHT (fun _ _ => BG) (with_buffer (replicate (length (buffer a)) BG) a)) as R1.
  { intros x y Hx Hy. unfold px. cbn [buffer with_buffer]. apply lookup_total_replicate_2.
    pose proof (vk_buffer _ Ha). unfold WIDTH, HEIGHT, TOOLBAR_HEIGHT in *. lia. }
  revert H1 R1. generalize (with_buffer (replicate (length (buffer a)) BG) a). intros s H1 R1.
  apply wp_bind. eapply wp_conseq.
  { eapply (draw_outside a s _ _ TOOLBAR_HEIGHT HEIGHT _ H1 R1); [done|done|by apply (draws_fill_rect (spec := canvas_spec a))|].
    intros i j p Hi Hj. unfold in_rect, in_range. cbn [fst snd]. change (u32 (0 + TOOLBAR_HEIGHT)) with TOOLBAR_HEIGHT.
    rewrite (proj2 (Z.ltb_ge j _)) by lia. by rewrite andb_false_r. }
  clear s H1 R1. intros [] s [H1 R1].
  apply string_outside; (done || (unfold in_u, TOOLBAR_HEIGHT; lia) || idtac). by repeat constructor.
Qed.
Lemma wp_seq3 {A B} (m1 m2 m3 : ST A unit) (k : ST A B) (P : unit -> A -> Prop) Q s :
  wp (m1;; m2;; m3) P s -> (forall s', P tt s' -> wp k Q s') -> wp (m1;; m2;; m3;; k) Q s.
Proof.
  unfold wp, mbind, st_bind. intros Hm Hk. destruct (m1 s) as [[] s1|]; [|done]. destruct (m2 s1) as [[] s2|]; [|done].
  destruct (m3 s2) as [[] s3|]; [|done]. by apply Hk.
Qed.
(** The middle of the window: the image's rows, or the message. *)
Lemma body_spec a s : viewer_ok a -> pix_ok a s -> rows_hold TOOLBAR_HEIGHT HEIGHT (fun _ _ => BG) s ->
  wp (match image_data a with
      | Some data => for_in (range TOOLBAR_HEIGHT HEIGHT) (fun screen_y => for_in (range 0 WIDTH) (show_pixel data screen_y))
      | None => let msg := bytes_of "No image loaded" in
          let msg_width := u32 (Z.of_nat (length msg) * glyph_w fscale) in
          draw_string fscale (u32 (WIDTH - msg_width) / 2) (HEIGHT / 2) msg TEXT_DIM None
      end)
    (fun _ s' => pix_ok a s' /\ exists g, rows_hold TOOLBAR_HEIGHT (HEIGHT - 15) g s' /\
       forall data, image_data a = Some data -> g = viewed a data) s.
Proof.
  intros Ha Hs Hr. destruct (image_data a) as [data|] eqn:Ed.
  - eapply wp_conseq; [by apply show_rows_spec|]. intros [] s' [Hs' Hr']. split; [done|]. exists (viewed a data). split; [|congruence].
    intros x y Hx Hy. apply Hr'; lia.
  - cbv zeta. change (Z.of_nat (length (bytes_of "No image loaded"))) with 15. unfold glyph_w, GLYPH_WIDTH.
    rewrite (wrap_small 32 (15 * _)) by (unfold in_u; lia).
    rewrite (wrap_small 32 (WIDTH - _)) by (unfold in_u, WIDTH; lia).
    eapply wp_conseq; [apply (string_outside a s _ _ _ _ 0 0 (fun _ _ => 0) Hs)|].
    + intros x y Hx Hy. lia.
    + done.
    + done.
    + unfold in_u, WIDTH. zlia.
    + done.
    + unfold WIDTH. zlia.
    + done.
    + by repeat constructor.
    + right. done.
    + intros [] s' [Hs' _]. split; [done|]. exists (px s'). split; [by intros x y|done].
Qed.
End view.
(** A two by two picture, shown three times as large. *)
Definition sample_viewer : ImageViewerApp :=
  mk_viewer (replicate (Z.to_nat (WIDTH * HEIGHT)) BG) (Some [1; 2; 3; 4]) 2 2 3 317 222 (bytes_of "/pic.raw") (bytes_of "pic").
Lemma sample_viewer_ok : viewer_ok sample_viewer.
Proof.
  split.
  - unfold sample_viewer. cbn [buffer]. rewrite length_replicate, Z2Nat.id; done.
  - done.
  - done.
  - intros data [= <-]. done.
  - split; [done|]. by repeat constructor.
Qed.
