(* ===== verification/Diagonal.v ===== *)
(** * The diagonals of buttons and icons, [draw_diagonal]

    The window manager and the file explorer have the same line routine, for the
    glyphs on buttons.  It is a loop without a bound; on coordinates of the screen
    it ends and paints exactly the points nearest to the segment. *)
From stdpp Require Import list_numbers.
From S2P Require Import Prelude Bytes Font Gfx Draw Line.

Section diagonal.
Context {T : Type} {surf : Surface T}.
Section loop.
Variables (x1 y1 dx dy sx sy color : Z).
(** [fuel] rounds at most; running out of them would be a loop without end. *)
Fixpoint diagonal_loop (fuel : nat) (x y err : Z) : ST T unit :=
  match fuel with
  | O => panic
  | S fuel =>
      (if (0 <=? x) && (0 <=? y) then put_pixel x y color else mret tt);;
      if (x =? x1) && (y =? y1) then mret tt
      else
        let e2 := i32 (2 * err) in
        let '(err, x) := if - dy <? e2 then (i32 (err - dy), i32 (x + sx)) else (err, x) in
        let '(err, y) := if e2 <? dx then (i32 (err + dx), i32 (y + sy)) else (err, y) in
        diagonal_loop fuel x y err
  end.
End loop.
Definition draw_diagonal (x0 y0 x1 y1 color : Z) : ST T unit :=
  let sx := if x0 <=? x1 then 1 else -1 in
  let sy := if y0 <=? y1 then 1 else -1 in
  let dx := Z.abs (i32 (i32 x1 - i32 x0)) in
  let dy := Z.abs (i32 (i32 y1 - i32 y0)) in
  diagonal_loop (i32 x1) (i32 y1) dx dy sx sy color (S (Z.to_nat (Z.max dx dy))) (i32 x0) (i32 y0) (i32 (dx - dy)).

(** ** What is drawn *)
Context {spec : SurfaceSpec T}.
Definition plotted (pts : list (Z * Z)) (color : Z) : picture := fun i j p => if bool_decide ((i, j) ∈ pts) then color else p.
Definition diagonal_points (x0 y0 x1 y1 : Z) : list (Z * Z) :=
  let dx := Z.abs (x1 - x0) in
  let dy := Z.abs (y1 - y0) in
  points Z.ltb x1 y1 dx dy (if x0 <=? x1 then 1 else -1) (if y0 <=? y1 then 1 else -1) (S (Z.to_nat (Z.max dx dy))) x0 y0 (dx - dy).
Lemma int_small v : - 2 ^ 31 <= v < 2 ^ 31 -> i32 v = v.
Proof. intros. unfold swrap, wrap. cbv zeta. destruct (Z.ltb_spec (v mod 2 ^ 32) (2 ^ (32 - 1))); zlia. Qed.
Lemma plotted_cons x y pts color i j p :
  plotted pts color i j (if (i =? x) && (j =? y) then color else p) = plotted ((x, y) :: pts) color i j p.
Proof.
  unfold plotted. rewrite (bool_decide_ext ((i, j) ∈ (x, y) :: pts) ((i, j) = (x, y) \/ (i, j) ∈ pts)) by apply elem_of_cons.
  assert ((i =? x) && (j =? y) = bool_decide ((i, j) = (x, y))) as ->.
  { destruct (Z.eqb_spec i x), (Z.eqb_spec j y); case_bool_decide; naive_solver. }
  repeat case_bool_decide; naive_solver.
Qed.
Section trace.
Variables (W H x0 y0 x1 y1 dx dy sx sy color : Z).
Hypotheses (Hdx : 0 <= dx < 2 ^ 28) (Hdy : 0 <= dy < 2 ^ 28) (Hsx : sx = 1 \/ sx = -1) (Hsy : sy = 1 \/ sy = -1)
  (Hx1 : x1 = x0 + sx * dx) (Hy1 : y1 = y0 + sy * dy) (Hx0 : 0 <= x0 < 2 ^ 28) (Hy0 : 0 <= y0 < 2 ^ 28)
  (Hx1' : 0 <= x1) (Hy1' : 0 <= y1).
Lemma loop_draws fuel k a b err : reached dx dy k a b err -> Z.max dx dy - k < Z.of_nat fuel ->
  draws W H (diagonal_loop x1 y1 dx dy sx sy color fuel (x0 + sx * a) (y0 + sy * b) err)
    (plotted (points Z.ltb x1 y1 dx dy sx sy fuel (x0 + sx * a) (y0 + sy * b) err) color).
Proof.
  assert (forall u v, u < v -> (u <? v) = true) as Hlt1 by (intros; lia).
  assert (forall u v, (u <? v) = true -> u <= v) as Hlt2 by (intros; lia).
  revert k a b err. induction fuel as [|fuel IH]; intros k a b err Hr Hf.
  { destruct Hr as (? & ? & -> & _). lia. }
  cbn [diagonal_loop points]. pose proof Hr as (Ha & Hb & Hk & He & H1 & H2).
  assert (0 <= x0 + sx * a < 2 ^ 29 /\ 0 <= y0 + sy * b < 2 ^ 29) as [Hx Hy] by (destruct Hsx as [->| ->], Hsy as [->| ->]; lia).
  assert (- 2 ^ 29 < err < 2 ^ 29) as Herr.
  { destruct (Z.le_ge_cases dy dx) as [Hc|Hc]; [destruct (H1 Hc)|destruct (H2 Hc)]; lia. }
  rewrite !(proj2 (Z.leb_le 0 _)) by lia. cbn [andb]. rewrite (int_small (2 * err)) by lia.
  set (x := x0 + sx * a) in *. set (y := y0 + sy * b) in *.
  destruct ((x =? x1) && (y =? y1)) eqn:Eend.
  - eapply draws_ext; [eapply draws_seq; [apply put_pixel_spec; unfold in_u; lia|apply draws_id]|].
    intros i j p _ _. apply (plotted_cons x y []).
  - assert (k < Z.max dx dy) as Hlt.
    { destruct (decide (k = Z.max dx dy)) as [E|]; [|lia]. exfalso.
      apply (reached_end dx dy (proj1 Hdx) (proj1 Hdy) k a b err Hr) in E as [-> ->]. unfold x, y in Eend. by rewrite <- Hx1, <- Hy1, !Z.eqb_refl in Eend. }
    destruct (reached_next Z.ltb Hlt1 Hlt2 x0 y0 x1 y1 dx dy sx sy (proj1 Hdx) (proj1 Hdy) Hsx Hsy Hx1 Hy1 k a b err Hr Hlt) as (Hr' & Hxs & Hys).
    unfold next_err, x_step, y_step in *. specialize (IH _ _ _ _ Hr' ltac:(lia)).
    assert (forall e : Z, - 2 ^ 30 < e < 2 ^ 30 -> i32 e = e) as Hi by (intros; apply int_small; lia).
    assert (- 2 ^ 29 < x + sx < 2 ^ 30 /\ - 2 ^ 29 < y + sy < 2 ^ 30) as [Hbx Hby] by (destruct Hsx as [->| ->], Hsy as [->| ->]; lia).
    assert (x0 + sx * (a + 1) = x + sx) as Exn by (unfold x; lia). assert (y0 + sy * (b + 1) = y + sy) as Eyn by (unfold y; lia).
    destruct (- dy <? 2 * err), (2 * err <? dx); rewrite ?Hi by (rewrite ?Hi by lia; lia);
      rewrite ?Exn, ?Eyn, ?Z.add_0_r, ?Z.sub_0_r in IH; (eapply draws_ext; [eapply draws_seq; [apply put_pixel_spec; unfold in_u; lia|exact IH]|]);
      intros i j p _ _; rewrite ?Z.add_0_r, ?Z.sub_0_r; apply plotted_cons.
Qed.
End trace.
(** The loop ends, and exactly the traced points are painted. *)
Lemma draws_diagonal W H x0 y0 x1 y1 color : 0 <= x0 < 2 ^ 28 -> 0 <= y0 < 2 ^ 28 -> 0 <= x1 < 2 ^ 28 -> 0 <= y1 < 2 ^ 28 ->
  draws W H (draw_diagonal x0 y0 x1 y1 color) (plotted (diagonal_points x0 y0 x1 y1) color) /\
  traces x0 y0 x1 y1 (diagonal_points x0 y0 x1 y1).
Proof.
  intros Hx0 Hy0 Hx1 Hy1. unfold draw_diagonal, diagonal_points. cbv zeta. rewrite !(int_small _) by (rewrite ?int_small by lia; lia).
  set (dx := Z.abs (x1 - x0)). set (dy := Z.abs (y1 - y0)).
  set (sx := if x0 <=? x1 then 1 else -1). set (sy := if y0 <=? y1 then 1 else -1).
  assert ((sx = 1 \/ sx = -1) /\ x1 = x0 + sx * dx) as [Hsx Ex] by (unfold sx, dx; destruct (Z.leb_spec x0 x1); lia).
  assert ((sy = 1 \/ sy = -1) /\ y1 = y0 + sy * dy) as [Hsy Ey] by (unfold sy, dy; destruct (Z.leb_spec y0 y1); lia).
  split.
  - pose proof (loop_draws W H x0 y0 x1 y1 dx dy sx sy color ltac:(lia) ltac:(lia) Hsx Hsy Ex Ey Hx0 Hy0 ltac:(lia) ltac:(lia)
      (S (Z.to_nat (Z.max dx dy))) 0 0 0 (dx - dy)) as Hd.
    rewrite !Z.mul_0_r, !Z.add_0_r in Hd. apply Hd; [|lia]. apply reached_0; lia.
  - apply points_trace; try done; try lia; intros; lia.
Qed.
End diagonal.
