(* ===== verification/Steady.v ===== *)
(** * Drawing that cannot fail

    On a correct surface the drawing routines never panic and leave the surface
    correct, wherever they draw: coordinates wrap at 32 bits and what lies outside
    is clipped.  [steady] says that of a piece of drawing code; the windows'
    [render] routines are put together from steady pieces. *)
From stdpp Require Import list_numbers.
From S2P Require Import Prelude Bytes Font Gfx Draw PixelBuffer Canvas Line Diagonal.

Section steady.
Context {T : Type} {surf : Surface T} {spec : SurfaceSpec T}.
Definition steady {A} (m : ST T A) : Prop := forall s, ok s -> wp m (fun _ s' => ok s') s.
Lemma steady_ret {A} (a : A) : steady (mret a).
Proof. by intros s Hs. Qed.
Lemma steady_bind {A B} (m : ST T A) (k : A -> ST T B) : steady m -> (forall a, steady (k a)) -> steady (m ≫= k).
Proof. intros Hm Hk s Hs. apply wp_bind. eapply wp_conseq; [by apply Hm|]. intros a s' Hs'. by apply Hk. Qed.
Lemma steady_get {A} (k : T -> ST T A) : (forall s, ok s -> steady (k s)) -> steady (s ← get_st; k s).
Proof. intros Hk s Hs. by apply (Hk s). Qed.
Lemma steady_for_in {X} (l : list X) body : (forall x, x ∈ l -> steady (body x)) -> steady (for_in l body).
Proof.
  intros Hb. induction l as [|x l IH]; [apply steady_ret|]. cbn [for_in]. apply steady_bind; [apply Hb; left|].
  intros _. apply IH. intros y Hy. apply Hb. by right.
Qed.
Lemma steady_for_break {X} (l : list X) body : (forall x, x ∈ l -> steady (body x)) -> steady (for_break l body).
Proof.
  intros Hb. induction l as [|x l IH]; [apply steady_ret|]. cbn [for_break]. apply steady_bind; [apply Hb; left|].
  intros [|]; [apply steady_ret|]. apply IH. intros y Hy. apply Hb. by right.
Qed.
Lemma steady_draws m f : (forall W H, H < 2 ^ 32 -> draws W H m f) -> steady m.
Proof.
  intros Hd s Hs. destruct (surface_dims s Hs) as [_ Hh]. eapply wp_conseq; [by apply (Hd (width s) (height s) (proj2 Hh) s)|].
  by intros _ s' [? _].
Qed.
Lemma steady_put x y c : in_u 32 x -> in_u 32 y -> steady (put_pixel x y c).
Proof. intros. eapply steady_draws. intros. by apply put_pixel_spec. Qed.
Lemma steady_rect x y w h c : in_u 32 x -> in_u 32 y -> steady (fill_rect x y w h c).
Proof. intros. eapply steady_draws. intros. by apply draws_fill_rect. Qed.
Lemma steady_rounded x y w h r c : in_u 32 y -> in_u 32 h -> steady (fill_rounded_rect x y w h r c).
Proof. intros. eapply steady_draws. intros. by apply draws_fill_rounded_rect. Qed.
Lemma steady_rounded_gradient x y w h r c d : in_u 32 y -> in_u 32 h -> steady (fill_rounded_rect_gradient_v x y w h r c d).
Proof. intros. eapply steady_draws. intros. by apply draws_fill_rounded_rect_gradient_v. Qed.
Lemma steady_diagonal x0 y0 x1 y1 c : 0 <= x0 < 2 ^ 28 -> 0 <= y0 < 2 ^ 28 -> 0 <= x1 < 2 ^ 28 -> 0 <= y1 < 2 ^ 28 ->
  steady (draw_diagonal x0 y0 x1 y1 c).
Proof. intros. eapply steady_draws. intros. by apply draws_diagonal. Qed.
Lemma steady_char fscale x y ch fg bg : steady (draw_char fscale x y ch fg bg).
Proof.
  unfold draw_char. cbv zeta. apply steady_for_in. intros [row bits] _. apply steady_for_in. intros col _.
  assert (forall v, in_u 32 (u32 v)) as Hu by (intros; apply wrap_bound; lia).
  destruct (fscale =? 1), (is_set bits _), bg; try apply steady_ret; (apply steady_put || apply steady_rect); apply Hu.
Qed.
Lemma steady_string fscale x y text fg bg : steady (draw_string fscale x y text fg bg).
Proof.
  revert x. induction text as [|ch text IH]; intros x; [apply steady_ret|]. cbn [draw_string].
  apply steady_bind; [apply steady_char|]. intros _. apply IH.
Qed.
End steady.
(** On a window's own pixels: what a steady routine leaves, and nothing but the
    pixels changes. *)
Lemma canvas_steady {T} {PB : PixelBuffer T} {A} (s : T) (m : ST T A) :
  steady (surf := canvas_surface) (spec := canvas_spec s) m -> pix_ok s s ->
  exists a s', m s = Ret a s' /\ pix_ok s s'.
Proof. intros Hm Hs. by apply wp_elim, Hm. Qed.

Lemma wrapped_in_u v : in_u 32 (u32 v).
Proof. apply wrap_bound. lia. Qed.
(** Splits drawing code into its primitives; what is left are the coordinates. *)
Ltac steady_step :=
  match goal with
  | |- steady (mret _) => apply steady_ret
  | |- steady (draw_string _ _ _ _ _ _) => apply steady_string
  | |- steady (draw_char _ _ _ _ _ _) => apply steady_char
  | |- steady (fill_rect _ _ _ _ _) => apply steady_rect
  | |- steady (fill_rounded_rect _ _ _ _ _ _) => apply steady_rounded
  | |- steady (fill_rounded_rect_gradient_v _ _ _ _ _ _ _) => apply steady_rounded_gradient
  | |- steady (draw_diagonal _ _ _ _ _) => apply steady_diagonal
  | |- steady (for_in _ _) => apply steady_for_in; intros
  | |- steady (for_break _ _) => apply steady_for_break; intros
  | |- steady (if ?b then _ else _) => destruct b eqn:?
  | |- steady (match ?p with pair _ _ => _ end) => destruct p eqn:?
  | |- steady (s ← get_st; _) => apply steady_get; intros
  | |- steady (_ ≫= _) => apply steady_bind; [|intros]
  | |- in_u 32 (u32 _) => apply wrapped_in_u
  end.
Ltac steady := repeat (cbv iota zeta; steady_step).
