(* ===== verification/Explorer.v ===== *)
(** * The file explorer, [file_explorer.rs]

    One window on a directory of the volume: its entries, the selection and the
    scroll position, two views, sorting, renaming, deleting, dropping.  What a
    click or a key asks of the window manager is returned as an action.  The entry
    names come from [fat.rs], which replaces every character that is not ASCII, so
    [to_lowercase] is the ASCII one. *)
From stdpp Require Import list_numbers.
From S2P Require Import Prelude Bytes Text Keyboard Disk Rtc Fat Session Editor Font Gfx Draw PixelBuffer Canvas Diagonal.

Definition WIDTH : Z := 700.
Definition HEIGHT : Z := 440.
Definition PATH_H : Z := 24.
Definition TOOLBAR_H : Z := 26.
Definition HEADER_H : Z := 24.
Definition STATUS_H : Z := 16.
Definition LIST_Y : Z := PATH_H + TOOLBAR_H.
Definition SIDEBAR_W : Z := 128.
Definition SCROLLBAR_W : Z := 10.
Definition LIST_W : Z := WIDTH - SIDEBAR_W - SCROLLBAR_W.
Definition ROW_H : Z := 18.
Definition GRID_TILE_W : Z := 88.
Definition GRID_TILE_H : Z := 54.
Definition DOUBLE_CLICK_TICKS : Z := 30.
Definition DELETE_ARM_TICKS : Z := 120.
Definition BG : Z := 0x001F1F1F.
Definition LIST_BG : Z := 0x001C1C1C.
Definition SIDEBAR_BG : Z := 0x001A1A1A.
Definition PATH_BG : Z := 0x00252525.
Definition TOOLBAR_BG : Z := 0x00232323.
Definition STATUS_BG : Z := 0x00242424.
Definition HEADER_BG : Z := 0x00242424.
Definition HEADER_FG : Z := 0x009AA8B5.
Definition TEXT : Z := 0x00FFFFFF.
Definition TEXT_DIM : Z := 0x009A9A9A.
Definition TEXT_FAINT : Z := 0x006A6A6A.
Definition DIR_TEXT : Z := 0x00F0C070.
Definition ELF_TEXT : Z := 0x0086C77B.
Definition SELECTED_TOP : Z := 0x003A3A3A.
Definition SELECTED_BOTTOM : Z := 0x00333333.
Definition HOVER_BG : Z := 0x002A2A2A.
Definition CRUMB_BG : Z := 0x002C2C2C.
Definition ACCENT : Z := 0x004CC2FF.
Definition SCROLL_TRACK : Z := 0x00202020.
Definition SCROLL_THUMB : Z := 0x003A3A3A.
Definition BTN_TOP : Z := 0x002C2C2C.
Definition BTN_BOTTOM : Z := 0x002C2C2C.
Definition BTN_HOVER_TOP : Z := 0x00343434.
Definition BTN_HOVER_BOTTOM : Z := 0x00343434.
Definition BTN_EDGE : Z := 0x001A1A1A.
Definition ICON_FOLDER : Z := 0x00F0C070.
Definition ICON_FILE : Z := 0x00BBC8D4.
Definition ICON_ELF : Z := 0x0086C77B.
Definition STATUS_TEXT : Z := 0x009AB8D8.
Definition STATUS_TEXT_BAD : Z := 0x00E06060.

Inductive FsAction := RunTerminal (path : str) | OpenText (path : str) (content : list Z) | OpenImage (path : str) (content : list Z).
Inductive View := Details | Grid.
Inductive SortKey := Name | Size | Type_.
Inductive ToolbarAction := Up_ | New | NewFile | Del | Refresh | ToggleView.
Global Instance sort_key_eq : EqDecision SortKey.
Proof. solve_decision. Defined.
Record SidebarEntry := mk_sidebar { label : str; target : str }.
Record RenameState := mk_rename { rn_item : Z; buf_text : str; rn_cursor : Z; select_all : bool }.
Record DragInfo := mk_drag { drag_path : str; drag_is_dir : bool }.
Record FileExplorer := mk_explorer {
  buffer : list Z; path : str; entries : list DirEntry; selection : Z; scroll : Z; view : View; sort : SortKey; sort_asc : bool;
  cursor : Z * Z; last_click_item : Z; last_click_ticks : Z; last_click_was_double : bool; pending_delete : option (Z * Z);
  rename : option RenameState; status : str; free_bytes : Z; sidebar : list SidebarEntry; drag : option DragInfo }.
Definition with_buffer v a := mk_explorer v (path a) (entries a) (selection a) (scroll a) (view a) (sort a) (sort_asc a) (cursor a) (last_click_item a) (last_click_ticks a) (last_click_was_double a) (pending_delete a) (rename a) (status a) (free_bytes a) (sidebar a) (drag a).
Definition with_path v a := mk_explorer (buffer a) v (entries a) (selection a) (scroll a) (view a) (sort a) (sort_asc a) (cursor a) (last_click_item a) (last_click_ticks a) (last_click_was_double a) (pending_delete a) (rename a) (status a) (free_bytes a) (sidebar a) (drag a).
Definition with_entries v a := mk_explorer (buffer a) (path a) v (selection a) (scroll a) (view a) (sort a) (sort_asc a) (cursor a) (last_click_item a) (last_click_ticks a) (last_click_was_double a) (pending_delete a) (rename a) (status a) (free_bytes a) (sidebar a) (drag a).
Definition with_selection v a := mk_explorer (buffer a) (path a) (entries a) v (scroll a) (view a) (sort a) (sort_asc a) (cursor a) (last_click_item a) (last_click_ticks a) (last_click_was_double a) (pending_delete a) (rename a) (status a) (free_bytes a) (sidebar a) (drag a).
Definition with_scroll v a := mk_explorer (buffer a) (path a) (entries a) (selection a) v (view a) (sort a) (sort_asc a) (cursor a) (last_click_item a) (last_click_ticks a) (last_click_was_double a) (pending_delete a) (rename a) (status a) (free_bytes a) (sidebar a) (drag a).
Definition with_view v a := mk_explorer (buffer a) (path a) (entries a) (selection a) (scroll a) v (sort a) (sort_asc a) (cursor a) (last_click_item a) (last_click_ticks a) (last_click_was_double a) (pending_delete a) (rename a) (status a) (free_bytes a) (sidebar a) (drag a).
Definition with_cursor v a := mk_explorer (buffer a) (path a) (entries a) (selection a) (scroll a) (view a) (sort a) (sort_asc a) v (last_click_item a) (last_click_ticks a) (last_click_was_double a) (pending_delete a) (rename a) (status a) (free_bytes a) (sidebar a) (drag a).
Definition with_double v a := mk_explorer (buffer a) (path a) (entries a) (selection a) (scroll a) (view a) (sort a) (sort_asc a) (cursor a) (last_click_item a) (last_click_ticks a) v (pending_delete a) (rename a) (status a) (free_bytes a) (sidebar a) (drag a).
Definition with_pending v a := mk_explorer (buffer a) (path a) (entries a) (selection a) (scroll a) (view a) (sort a) (sort_asc a) (cursor a) (last_click_item a) (last_click_ticks a) (last_click_was_double a) v (rename a) (status a) (free_bytes a) (sidebar a) (drag a).
Definition with_rename v a := mk_explorer (buffer a) (path a) (entries a) (selection a) (scroll a) (view a) (sort a) (sort_asc a) (cursor a) (last_click_item a) (last_click_ticks a) (last_click_was_double a) (pending_delete a) v (status a) (free_bytes a) (sidebar a) (drag a).
Definition with_status v a := mk_explorer (buffer a) (path a) (entries a) (selection a) (scroll a) (view a) (sort a) (sort_asc a) (cursor a) (last_click_item a) (last_click_ticks a) (last_click_was_double a) (pending_delete a) (rename a) v (free_bytes a) (sidebar a) (drag a).
Definition with_sidebar v a := mk_explorer (buffer a) (path a) (entries a) (selection a) (scroll a) (view a) (sort a) (sort_asc a) (cursor a) (last_click_item a) (last_click_ticks a) (last_click_was_double a) (pending_delete a) (rename a) (status a) (free_bytes a) v (drag a).
Definition with_drag v a := mk_explorer (buffer a) (path a) (entries a) (selection a) (scroll a) (view a) (sort a) (sort_asc a) (cursor a) (last_click_item a) (last_click_ticks a) (last_click_was_double a) (pending_delete a) (rename a) (status a) (free_bytes a) (sidebar a) v.
Definition with_sort k asc a := mk_explorer (buffer a) (path a) (entries a) (selection a) (scroll a) (view a) k asc (cursor a) (last_click_item a) (last_click_ticks a) (last_click_was_double a) (pending_delete a) (rename a) (status a) (free_bytes a) (sidebar a) (drag a).
Definition with_click item now double a := mk_explorer (buffer a) (path a) (entries a) (selection a) (scroll a) (view a) (sort a) (sort_asc a) (cursor a) item now double (pending_delete a) (rename a) (status a) (free_bytes a) (sidebar a) (drag a).
Definition with_free v a := mk_explorer (buffer a) (path a) (entries a) (selection a) (scroll a) (view a) (sort a) (sort_asc a) (cursor a) (last_click_item a) (last_click_ticks a) (last_click_was_double a) (pending_delete a) (rename a) (status a) v (sidebar a) (drag a).

(** ** Names and sizes *)
Definition to_lowercase (s : str) : str := to_ascii_lowercase <$> s.
Definition ends_with (suffix : string) (s : str) : bool :=
  bool_decide (drop (length s - length (bytes_of suffix)) s = bytes_of suffix).
Definition starts_with (prefix s : str) : bool := bool_decide (take (length prefix) s = prefix).
Definition is_elf (name : str) : bool := ends_with ".elf" (to_lowercase name).
Definition is_text (name : str) : bool :=
  let lower := to_lowercase name in
  ends_with ".txt" lower || ends_with ".md" lower || ends_with ".log" lower || ends_with ".cfg" lower.
Definition is_raw (name : str) : bool := ends_with ".raw" (to_lowercase name).
Definition file_type (name : str) : str :=
  if is_elf name then bytes_of "ELF Program" else if is_text name then bytes_of "Text"
  else if is_raw name then bytes_of "Image" else bytes_of "File".
Definition fmt_size (bytes : Z) : str :=
  if 1024 * 1024 <=? bytes then
    uint_to_string (bytes / (1024 * 1024)) ++ bytes_of "." ++
    uint_to_string (u64 (bytes mod (1024 * 1024) * 10) / (1024 * 1024)) ++ bytes_of " MiB"
  else if 1024 <=? bytes then
    uint_to_string (bytes / 1024) ++ bytes_of "." ++ uint_to_string (u64 (bytes mod 1024 * 10) / 1024) ++ bytes_of " KiB"
  else uint_to_string bytes ++ bytes_of " B".
Definition join (path child : str) : str :=
  if bool_decide (path = bytes_of "/") then bytes_of "/" ++ child else path ++ bytes_of "/" ++ child.
(** What is before the last slash, if there is one. *)
Fixpoint rfind_slash (s : str) : option str :=
  match s with
  | [] => None
  | c :: s => match rfind_slash s with
              | Some p => Some (c :: p)
              | None => if c =? 47 then Some [] else None
              end
  end.
Definition parent_path (path : str) : str :=
  if bool_decide (path = bytes_of "/") then bytes_of "/"
  else match rfind_slash path with
       | Some [] => bytes_of "/"
       | Some p => p
       | None => bytes_of "/"
       end.
(** [rsplit('/').next()] *)
Definition base_name (path : str) : str := default path (last (split_on (Z.eqb 47) path)).
Definition char_index (s : str) (i : Z) : nat := Nat.min (Z.to_nat i) (length s).

(** ** Sorting *)
(** The order of strings. *)
Fixpoint str_lt (a b : str) : bool :=
  match a, b with
  | _, [] => false
  | [], _ :: _ => true
  | x :: a, y :: b => (x <? y) || ((x =? y) && str_lt a b)
  end.
Definition entry_less (a b : DirEntry) (key : SortKey) (asc : bool) : bool :=
  if bool_decide (is_dir a = is_dir b) then
    let lt x y := match key with
                  | Name => str_lt (to_lowercase (name x)) (to_lowercase (name y))
                  | Size => size x <? size y
                  | Type_ => str_lt (file_type (name x)) (file_type (name y))
                  end in
    if asc then lt a b else lt b a
  else is_dir a.
(** [entries[j]] moves left while it sorts before the one ahead of it. *)
Fixpoint bubble (key : SortKey) (asc : bool) (j : nat) (l : list DirEntry) : list DirEntry :=
  match j with
  | O => l
  | S j' =>
      match l !! j, l !! j' with
      | Some b, Some a => if entry_less b a key asc then bubble key asc j' (<[j' := b]> (<[j := a]> l)) else l
      | _, _ => l
      end
  end.
Fixpoint sort_from (key : SortKey) (asc : bool) (n i : nat) (l : list DirEntry) : list DirEntry :=
  match n with O => l | S n => sort_from key asc n (S i) (bubble key asc i l) end.
Definition sort_entries (key : SortKey) (asc : bool) (l : list DirEntry) : list DirEntry :=
  sort_from key asc (length l - 1) 1 l.

(** ** Layout *)
Record Crumb := mk_crumb { crumb_x : Z; crumb_w : Z; crumb_label : str; crumb_path : str }.
Section layout.
Variable fscale : Z.
Definition width_of (label : str) : Z := u32 (u32 (len_utf8 label * glyph_w fscale) + 16).
Definition segments (path : str) : list (str * str) :=
  (bytes_of "/", bytes_of "/") ::
  (foldl (fun '(acc, segs) seg => let acc := acc ++ bytes_of "/" ++ seg in (acc, segs ++ [(seg, acc)]))
     ([], []) (components path)).2.
Definition total_width (segs : list (str * str)) : Z := foldr (fun s w => u32 (width_of s.1 + w)) 0 segs.
(** The segments left out on the left. *)
Fixpoint crumb_start (fuel start : nat) (segs : list (str * str)) (max_w : Z) : nat :=
  match fuel with
  | O => start
  | S fuel =>
      if decide (start + 2 < length segs)%nat then
        if total_width (drop start segs) <=? max_w then start else crumb_start fuel (S start) segs max_w
      else start
  end.
Fixpoint crumbs_from (x : Z) (segs : list (str * str)) : list Crumb :=
  match segs with
  | [] => []
  | (label, target) :: segs =>
      let w := width_of label in
      mk_crumb x w label target :: crumbs_from (u32 (x + (w + 2))) segs
  end.
Definition crumb_layout (path : str) (max_w : Z) : list Crumb :=
  let segs := segments path in
  let start := if decide (2 < length segs)%nat then crumb_start (length segs) 0 segs max_w else O in
  if decide (0 < start)%nat
  then mk_crumb 6 24 (bytes_of "...") (bytes_of "/") :: crumbs_from 36 (drop start segs)
  else crumbs_from 6 segs.
End layout.
Definition details_columns : (Z * Z) * (Z * Z) * (Z * Z) :=
  ((SIDEBAR_W, 320), (320, 460), (460, SIDEBAR_W + LIST_W)).
Definition toolbar_button_rect (action : ToolbarAction) : Z * Z :=
  match action with
  | Up_ => (6, 48) | New => (58, 48) | NewFile => (110, 48) | Del => (162, 48) | Refresh => (214, 64)
  | ToggleView => (WIDTH - 76, 70)
  end.
Definition toolbar_button_at (x : Z) : option ToolbarAction :=
  find (fun a => let '(bx, bw) := toolbar_button_rect a in (bx <=? x) && (x <? bx + bw)) [Up_; New; NewFile; Del; Refresh; ToggleView].
Definition build_sidebar : list SidebarEntry :=
  [mk_sidebar (bytes_of "QUICK ACCESS") [];
   mk_sidebar (bytes_of "Home") home;
   mk_sidebar (bytes_of "Desktop") desktop;
   mk_sidebar (bytes_of "Documents") documents;
   mk_sidebar (bytes_of "Downloads") (home ++ bytes_of "/Downloads");
   mk_sidebar (bytes_of "Pictures") (home ++ bytes_of "/Pictures");
   mk_sidebar (bytes_of "Music") (home ++ bytes_of "/Music");
   mk_sidebar [] [];
   mk_sidebar (bytes_of "SYSTEM") [];
   mk_sidebar (bytes_of "Applications") (bytes_of "/bin");
   mk_sidebar (bytes_of "System") (bytes_of "/system");
   mk_sidebar (bytes_of "Users") (bytes_of "/users")].
Fixpoint sidebar_item_from (ry : Z) (entries : list SidebarEntry) (y : Z) : option str :=
  match entries with
  | [] => None
  | e :: entries =>
      if nonempty (target e) then
        if (ry <=? y) && (y <? ry + 16) then Some (target e) else sidebar_item_from (ry + 18) entries y
      else sidebar_item_from (ry + 14) entries y
  end.
Definition sidebar_item_at (entries : list SidebarEntry) (y : Z) : option str := sidebar_item_from (LIST_Y + 6) entries y.

Definition count (a : FileExplorer) : Z := Z.of_nat (length (entries a)).
Definition entry_at (a : FileExplorer) (i : Z) : option DirEntry := entries a !! Z.to_nat i.
Definition details_visible_rows : Z := (HEIGHT - STATUS_H - LIST_Y - HEADER_H) / ROW_H.
Definition grid_visible_rows : Z := (HEIGHT - STATUS_H - LIST_Y) / GRID_TILE_H.
Definition grid_cols : Z := Z.max (LIST_W / GRID_TILE_W) 1.
Definition visible_items (a : FileExplorer) : Z :=
  match view a with Details => details_visible_rows | Grid => grid_visible_rows * grid_cols end.
Definition item_at (a : FileExplorer) (x y : Z) : option Z :=
  if (x <? SIDEBAR_W) || (SIDEBAR_W + LIST_W <=? x) || (y <? LIST_Y) then None
  else
    let within item := if item <? count a then Some item else None in
    match view a with
    | Details => if y <? LIST_Y + HEADER_H then None else within (scroll a + (y - LIST_Y - HEADER_H) / ROW_H)
    | Grid => within (scroll a + (y - LIST_Y) / GRID_TILE_H * grid_cols + (x - SIDEBAR_W) / GRID_TILE_W)
    end.
Definition entry_path (a : FileExplorer) (item : Z) : option (str * bool) :=
  e ← entry_at a item; Some (join (path a) (name e), is_dir e).
Definition drop_target_at (a : FileExplorer) (x y : Z) : option str :=
  if (x <? 0) || (y <? 0) || (HEIGHT - STATUS_H <=? y) then None
  else if x <? SIDEBAR_W then sidebar_item_at (sidebar a) y
  else if (SIDEBAR_W + LIST_W <=? x) || (y <? LIST_Y) then None
  else match (i ← item_at a x y; entry_at a i) with
       | Some e => Some (if is_dir e then join (path a) (name e) else path a)
       | None => Some (path a)
       end.

(** ** Icons *)
Section icons.
Context {T : Type} {surf : Surface T}.
Definition rects (x y color : Z) (l : list (Z * Z * Z * Z)) : ST T unit :=
  for_in l (fun '(dx, dy, w, h) => fill_rect (x + dx) (y + dy) w h color).
Definition draw_entry_icon (x y : Z) (name : str) (dir : bool) : ST T unit :=
  if dir then
    rects x y ICON_FOLDER [(0, 1, 5, 2); (5, 0, 5, 2); (10, 1, 2, 1); (0, 3, 14, 7)];;
    rects x y LIST_BG [(1, 4, 12, 5)]
  else
    let color := if is_elf name then ICON_ELF else ICON_FILE in
    rects x y color [(2, 0, 9, 10)];; rects x y LIST_BG [(3, 1, 7, 8)];;
    rects x y color [(4, 3, 5, 1); (4, 5, 5, 1); (4, 7, 3, 1)].
Definition draw_big_icon (x y : Z) (name : str) (dir : bool) : ST T unit :=
  if dir then
    rects x y ICON_FOLDER [(2, 6, 12, 5); (14, 2, 12, 5); (26, 5, 4, 3); (0, 11, 36, 19)];;
    rects x y LIST_BG [(3, 14, 30, 13)]
  else
    let color := if is_elf name then ICON_ELF else ICON_FILE in
    rects x y color [(6, 0, 22, 28)];; rects x y LIST_BG [(9, 3, 16, 22)];;
    rects x y color [(11, 9, 12, 2); (11, 14, 12, 2); (11, 19, 8, 2)].
Definition draw_toolbar_icon (action : ToolbarAction) (x y : Z) : ST T unit :=
  let color := 0x00DBE6F0 in
  match action with
  | Up_ =>
      rects x y color [(7, 1, 2, 9)];;
      draw_diagonal (x + 1) (y + 7) (x + 7) (y + 1) color;;
      draw_diagonal (x + 15) (y + 7) (x + 9) (y + 1) color
  | New =>
      rects x y color [(1, 5, 6, 2); (7, 3, 6, 2); (0, 7, 16, 7)];; rects x y BG [(2, 8, 12, 5)];;
      rects x y color [(11, 8, 3, 2); (12, 7, 1, 4)]
  | NewFile =>
      rects x y color [(4, 0, 8, 12)];; rects x y BG [(5, 1, 6, 10)];;
      rects x y color [(6, 3, 4, 1); (6, 6, 4, 1); (6, 9, 4, 1); (11, 4, 4, 6); (12, 3, 2, 8)]
  | Del =>
      rects x y color [(2, 0, 12, 2); (5, 2, 2, 2); (9, 2, 2, 2); (3, 4, 10, 10)];;
      rects x y BG [(5, 6, 2, 6); (9, 6, 2, 6)]
  | Refresh =>
      rects x y color [(1, 1, 14, 3); (1, 10, 14, 3); (1, 1, 3, 7); (12, 6, 3, 7)];;
      draw_diagonal (x + 1) (y + 7) (x + 5) (y + 3) color;;
      draw_diagonal (x + 13) (y + 11) (x + 11) (y + 13) color;;
      draw_diagonal (x + 12) (y + 13) (x + 14) (y + 13) color
  | ToggleView => mret tt
  end.
End icons.

(** ** Drawing *)
#[refine] Global Instance explorer_buffer : PixelBuffer FileExplorer := {
  buf_width := fun _ => WIDTH; buf_height := fun _ => HEIGHT; buf := buffer; set_buf := with_buffer }.
Proof. all: try done. by intros []. Defined.
#[local] Hint Extern 0 (Surface FileExplorer) => exact canvas_surface : typeclass_instances.
Definition app_width (a : FileExplorer) : Z := WIDTH.
Definition app_height (a : FileExplorer) : Z := HEIGHT.
Definition pixels (a : FileExplorer) : list Z := buffer a.

Section explorer.
Variable fscale : Z.
Abbreviation APP := (ST FileExplorer).
Definition enumerate {A} (l : list A) : list (Z * A) := zip (range 0 (Z.of_nat (length l))) l.
Definition text (x y : Z) (s : str) (color : Z) : APP unit := draw_string fscale x y (as_bytes s) color None.
Definition over (c : Z * Z) (x0 x1 y0 y1 : Z) : bool := (x0 <=? c.1) && (c.1 <? x1) && (y0 <=? c.2) && (c.2 <? y1).
Definition drop_here (a : FileExplorer) : option str :=
  match drag a with Some _ => drop_target_at a (cursor a).1 (cursor a).2 | None => None end.
Fixpoint sidebar_rows (y : Z) (es : list SidebarEntry) : APP unit :=
  match es with
  | [] => mret tt
  | e :: es =>
      if nonempty (target e) then
        a ← get_st;
        let active := bool_decide (path a = target e) in
        let hovered := over (cursor a) 2 (SIDEBAR_W - 2) y (y + 16) in
        (if active then
           fill_rounded_rect 4 y (SIDEBAR_W - 8) 16 4 0x0022334A;; fill_rect 4 (y + 3) 2 10 ACCENT
         else if hovered then fill_rounded_rect 4 y (SIDEBAR_W - 8) 16 4 0x001E2A36
         else mret tt);;
        (if hovered && bool_decide (drop_here a = Some (target e)) then
           fill_rect 4 (y + 2) 2 12 ACCENT;; fill_rect (SIDEBAR_W - 8) (y + 2) 2 12 ACCENT
         else mret tt);;
        text 12 (y + 4) (label e) (if active then 0x00FFFFFF else TEXT);;
        sidebar_rows (y + 18) es
      else text 10 y (label e) TEXT_FAINT;; sidebar_rows (y + 14) es
  end.
Definition render_sidebar : APP unit :=
  fill_rect 0 LIST_Y SIDEBAR_W (HEIGHT - STATUS_H - LIST_Y) SIDEBAR_BG;;
  fill_rect (SIDEBAR_W - 1) LIST_Y 1 (HEIGHT - STATUS_H - LIST_Y) 0x000A1016;;
  a ← get_st;
  sidebar_rows (LIST_Y + 6) (sidebar a).
(** A toolbar button without its icon. *)
Definition toolbar_button (action : ToolbarAction) (c : Z * Z) : APP unit :=
  let '(bx, bw) := toolbar_button_rect action in
  let hovered := over c bx (bx + bw) (PATH_H + 3) (PATH_H + TOOLBAR_H - 3) in
  let '(top, bottom) := if hovered then (BTN_HOVER_TOP, BTN_HOVER_BOTTOM) else (BTN_TOP, BTN_BOTTOM) in
  fill_rounded_rect_gradient_v bx (PATH_H + 3) bw (TOOLBAR_H - 6) 4 top bottom;;
  fill_rect (bx + 1) (PATH_H + TOOLBAR_H - 4) (bw - 2) 1 BTN_EDGE.
Definition render_toolbar : APP unit :=
  fill_rect 0 PATH_H WIDTH TOOLBAR_H TOOLBAR_BG;;
  fill_rect 0 (PATH_H + TOOLBAR_H - 1) WIDTH 1 0x001A1A1A;;
  a ← get_st;
  for_in [Up_; New; NewFile; Del; Refresh] (fun action =>
    let '(bx, bw) := toolbar_button_rect action in
    toolbar_button action (cursor a);;
    draw_toolbar_icon action (bx + (bw - 16) / 2) (PATH_H + 6));;
  toolbar_button ToggleView (cursor a);;
  let '(bx, bw) := toolbar_button_rect ToggleView in
  let label := match view a with Details => bytes_of "Icons" | Grid => bytes_of "List" end in
  let lx := u32 (bx + u32 (bw - Z.of_nat (length label) * glyph_w fscale) / 2) in
  text lx (PATH_H + 9) label TEXT.
Definition render_breadcrumbs : APP unit :=
  fill_rect 0 0 WIDTH PATH_H PATH_BG;;
  fill_rect 0 (PATH_H - 1) WIDTH 1 0x001A1A1A;;
  a ← get_st;
  let crumbs := crumb_layout fscale (path a) (LIST_W - 6) in
  for_in (enumerate crumbs) (fun '(i, crumb) =>
    let is_last := i =? Z.of_nat (length crumbs) - 1 in
    let hovered := negb is_last && over (cursor a) (crumb_x crumb) (crumb_x crumb + crumb_w crumb) 4 (PATH_H - 4) in
    (if is_last then fill_rounded_rect (crumb_x crumb) 4 (crumb_w crumb) (PATH_H - 8) 4 CRUMB_BG else mret tt);;
    text (u32 (crumb_x crumb + 4)) 8 (crumb_label crumb)
      (if is_last then 0x00FFFFFF else if hovered then 0x00CFE0EC else TEXT_DIM);;
    if is_last then mret tt else text (u32 (crumb_x crumb + crumb_w crumb - 7)) 8 (bytes_of ">") TEXT_FAINT).
Definition draw_header (label : string) (range : Z * Z) (c : Z * Z) : APP unit :=
  let hovered := over c range.1 range.2 LIST_Y (LIST_Y + HEADER_H) in
  (if hovered then fill_rect range.1 LIST_Y (range.2 - range.1) HEADER_H 0x0025313E else mret tt);;
  text (range.1 + 8) (LIST_Y + 8) (bytes_of label) (if hovered then 0x00C9D6E0 else HEADER_FG).
Definition marked (a : FileExplorer) (e : DirEntry) : bool :=
  is_dir e && bool_decide (drop_here a = Some (join (path a) (name e))).
(** One row; [true] behind the last entry. *)
Definition details_row (r : Z) : APP bool :=
  a ← get_st;
  let '(nx, sx, tx) := details_columns in
  let index := r + scroll a in
  match entry_at a index with
  | None => mret true
  | Some e =>
      let ry := LIST_Y + HEADER_H + r * ROW_H in
      let selected := index =? selection a in
      let hovered := (ry <=? (cursor a).2) && ((cursor a).2 <? ry + ROW_H) && (SIDEBAR_W <=? (cursor a).1) in
      (if selected then
         fill_rounded_rect_gradient_v (SIDEBAR_W + 2) (ry + 1) (LIST_W - 4) (ROW_H - 2) 4 SELECTED_TOP SELECTED_BOTTOM
       else if hovered then fill_rounded_rect (SIDEBAR_W + 2) (ry + 1) (LIST_W - 4) (ROW_H - 2) 4 HOVER_BG
       else mret tt);;
      (if marked a e then
         fill_rect (SIDEBAR_W + 3) (ry + 1) (LIST_W - 6) 1 ACCENT;;
         fill_rect (SIDEBAR_W + 3) (ry + ROW_H - 2) (LIST_W - 6) 1 ACCENT
       else mret tt);;
      draw_entry_icon (SIDEBAR_W + 8) (ry + 4) (name e) (is_dir e);;
      let '(name_color, size_color) :=
        if selected then (0x00FFFFFF, 0x00C9DAE8) else if is_dir e then (DIR_TEXT, TEXT_DIM)
        else if is_elf (name e) then (ELF_TEXT, TEXT_DIM) else (TEXT, TEXT_DIM) in
      text (SIDEBAR_W + 26) (ry + 5) (name e) name_color;;
      (if is_dir e then mret tt
       else
         let s := fmt_size (size e) in
         let sw := u32 (Z.of_nat (length s) * glyph_w fscale) in
         text (u32 (sx.2 - sw - 10)) (ry + 5) s size_color);;
      let kind := if is_dir e then bytes_of "Folder" else file_type (name e) in
      let kw := u32 (Z.of_nat (length kind) * glyph_w fscale) in
      let kx := tx.1 + 8 in
      (if kx + kw <=? tx.2 then text kx (ry + 5) kind (if selected then 0x00C9DAE8 else TEXT_DIM) else mret tt);;
      mret false
  end.
Definition render_details : APP unit :=
  a ← get_st;
  let '(nx, sx, tx) := details_columns in
  fill_rect SIDEBAR_W LIST_Y LIST_W HEADER_H HEADER_BG;;
  fill_rect SIDEBAR_W (LIST_Y + HEADER_H - 1) LIST_W 1 0x001A1A1A;;
  draw_header "Name" nx (cursor a);;
  draw_header "Size" sx (cursor a);;
  draw_header "Type" tx (cursor a);;
  for_break (range 0 details_visible_rows) details_row.
(** A name cut to [n] characters. *)
Definition shortened (n : Z) (name : str) : str :=
  if n <? Z.of_nat (length name) then take (Z.to_nat (n - 2)) name ++ bytes_of ".." else name.
Definition grid_tile (rc : Z * Z) : APP bool :=
  let '(r, c) := rc in
  a ← get_st;
  let index := scroll a + r * grid_cols + c in
  match entry_at a index with
  | None => mret true
  | Some e =>
      let tx := SIDEBAR_W + c * GRID_TILE_W in
      let ty := LIST_Y + r * GRID_TILE_H in
      let selected := index =? selection a in
      let hovered := over (cursor a) tx (tx + GRID_TILE_W) ty (ty + GRID_TILE_H) in
      (if selected then fill_rounded_rect (tx + 4) (ty + 3) (GRID_TILE_W - 8) (GRID_TILE_H - 8) 6 0x0024467A
       else if hovered then fill_rounded_rect (tx + 4) (ty + 3) (GRID_TILE_W - 8) (GRID_TILE_H - 8) 6 0x001E2A36
       else mret tt);;
      (if marked a e then
         fill_rect (tx + 5) (ty + 3) (GRID_TILE_W - 10) 1 ACCENT;;
         fill_rect (tx + 5) (ty + GRID_TILE_H - 6) (GRID_TILE_W - 10) 1 ACCENT
       else mret tt);;
      draw_big_icon (tx + (GRID_TILE_W - 36) / 2) (ty + 6) (name e) (is_dir e);;
      let max_chars := (GRID_TILE_W - 10) / glyph_w fscale in
      let label := shortened max_chars (name e) in
      let lw := u32 (len_utf8 label * glyph_w fscale) in
      let lx := u32 (tx + u32 (GRID_TILE_W - lw) / 2) in
      text lx (ty + 44) label
        (if selected then 0x00FFFFFF else if is_dir e then DIR_TEXT else if is_elf label then ELF_TEXT else TEXT);;
      mret false
  end.
Definition tiles : list (Z * Z) := range 0 grid_visible_rows ≫= (fun r => (fun c => (r, c)) <$> range 0 grid_cols).
Definition render_grid : APP unit :=
  fill_rect SIDEBAR_W LIST_Y LIST_W (HEIGHT - STATUS_H - LIST_Y) LIST_BG;;
  for_break tiles grid_tile.
(** Where the box of a rename is drawn, if the item is visible. *)
Definition rename_box (a : FileExplorer) (item box_h : Z) : option (Z * Z * Z) :=
  match view a with
  | Details =>
      let row := item - scroll a in
      if (item <? scroll a) || (details_visible_rows <=? row) then None
      else Some (SIDEBAR_W + 4, u32 (LIST_Y + HEADER_H + row * ROW_H + u32 (ROW_H - box_h) / 2), LIST_W - 8)
  | Grid =>
      let row := u64 (item - scroll a) / grid_cols in
      let col := u64 (item - scroll a) mod grid_cols in
      if grid_visible_rows <=? row then None
      else Some (SIDEBAR_W + col * GRID_TILE_W + 4, LIST_Y + row * GRID_TILE_H + 6, GRID_TILE_W - 8)
  end.
Definition render_rename : APP unit :=
  a ← get_st;
  match rename a with
  | None => mret tt
  | Some st =>
      if count a <=? rn_item st then mret tt
      else
        let gh := glyph_h fscale in
        let box_h := Z.max (gh + 8) 16 in
        match rename_box a (rn_item st) box_h with
        | None => mret tt
        | Some (bx, by_, bw) =>
            fill_rounded_rect bx by_ bw box_h 4 0x00101010;;
            fill_rect (bx + 2) by_ (bw - 4) 1 ACCENT;;
            fill_rect (bx + 2) (u32 (by_ + box_h - 1)) (bw - 4) 1 ACCENT;;
            let text_x := bx + 6 in
            let max_chars := saturating_sub bw 12 / glyph_w fscale in
            let start := saturating_sub (rn_cursor st) (saturating_sub max_chars 1) in
            let shown := take (Z.to_nat max_chars) (drop (Z.to_nat start) (buf_text st)) in
            text text_x (u32 (by_ + (box_h - gh) / 2)) shown TEXT;;
            let cursor_col := Z.of_nat (length (take (Z.to_nat (rn_cursor st - start)) (drop (Z.to_nat start) (buf_text st)))) in
            fill_rect (u32 (text_x + cursor_col * glyph_w fscale)) (u32 (by_ + 1)) (glyph_w fscale) (box_h - 2) 0x00FFCC66
        end
  end.
(** The thumb of the scroll bar: its height and position. *)
Definition thumb (a : FileExplorer) (max_scroll : Z) : Z * Z :=
  let track_h := HEIGHT - STATUS_H - LIST_Y in
  let thumb_h := Z.max (u32 (track_h * visible_items a) / u32 (count a)) 12 in
  (thumb_h, u32 (LIST_Y + u32 ((track_h - thumb_h) * scroll a) / u32 max_scroll)).
Definition render_scrollbar : APP unit :=
  let track_h := HEIGHT - STATUS_H - LIST_Y in
  fill_rect (SIDEBAR_W + LIST_W) LIST_Y SCROLLBAR_W track_h SCROLL_TRACK;;
  a ← get_st;
  if visible_items a <? count a then
    let '(thumb_h, thumb_y) := thumb a (count a - visible_items a) in
    fill_rect (SIDEBAR_W + LIST_W + 2) thumb_y (SCROLLBAR_W - 4) thumb_h SCROLL_THUMB
  else mret tt.
Definition render_status : APP unit :=
  fill_rect 0 (HEIGHT - STATUS_H) WIDTH STATUS_H STATUS_BG;;
  fill_rect 0 (HEIGHT - STATUS_H - 1) WIDTH 1 0x000E141B;;
  a ← get_st;
  let st := if nonempty (status a) then status a else uint_to_string (count a) ++ bytes_of " items" in
  let is_error := existsb (fun p => starts_with (bytes_of p) st)
    ["cannot"; "error"; "delete failed"; "create failed"; "no viewer"]%string in
  text 6 (HEIGHT - STATUS_H + 4) st (if is_error then STATUS_TEXT_BAD else STATUS_TEXT);;
  let free := bytes_of "free " ++ fmt_size (free_bytes a) in
  let fw := u32 (Z.of_nat (length free) * glyph_w fscale) in
  text (u32 (WIDTH - fw - 8)) (HEIGHT - STATUS_H + 4) free TEXT_DIM.
Definition render : APP unit :=
  fill_rect 0 0 WIDTH HEIGHT BG;;
  render_sidebar;; render_toolbar;; render_breadcrumbs;;
  a ← get_st;
  (match view a with Details => render_details | Grid => render_grid end);;
  render_rename;; render_scrollbar;; render_status.

(** ** Operations *)
Definition ensure_selection_visible (a : FileExplorer) : FileExplorer :=
  let visible := visible_items a in
  let max_scroll := saturating_sub (count a) visible in
  let s := if selection a <? scroll a then selection a
           else if scroll a + visible <=? selection a then selection a + 1 - visible
           else scroll a in
  with_scroll (Z.min s max_scroll) a.
Context {D : Type} `{BlockDevice D} (rtc_now : D -> DateTime).
Abbreviation EX := (ST (option (Fat32 D) * FileExplorer)).
Definition on_app {A} (m : APP A) : EX A := fun '(v, a) =>
  match m a with Ret r a => Ret r (v, a) | Panic => Panic end.
Definition vol {A} (m : ST (option (Fat32 D)) A) : EX A := fun '(v, a) =>
  match m v with Ret r v => Ret r (v, a) | Panic => Panic end.
Definition app_state : EX FileExplorer := on_app get_st.
Definition update (f : FileExplorer -> FileExplorer) : EX unit := on_app (modify f).
Definition redraw : EX unit := on_app render.
(** Set the status line and draw. *)
Definition say (s : str) : EX unit := update (with_status s);; redraw.
Definition refresh : EX unit :=
  a ← app_state;
  r ← vol (list_dir (path a));
  (match r with
   | Ok es => update (with_entries (sort_entries (sort a) (sort_asc a) es))
   | Err e => update (fun a => with_entries [] (with_status (bytes_of "cannot read " ++ path a ++ bytes_of ": " ++ fat_message e) a))
   end);;
  update (fun a => if count a <=? selection a then with_selection 0 a else a);;
  update (fun a => with_scroll (Z.min (scroll a) (saturating_sub (count a) (visible_items a))) a);;
  free ← vol (fun v => Ret (match info v with
                           | Some i => u64 (u64 (vi_free_clusters i * vi_sectors_per_cluster i) * 512)
                           | None => 0
                           end) v);
  update (with_free free);;
  update (with_sidebar build_sidebar);;
  redraw.
Definition navigate (p : str) : EX unit :=
  update (fun a => with_status [] (with_rename None (with_pending None (with_scroll 0 (with_selection 0 (with_path p a))))));;
  refresh.
Definition new : EX unit :=
  update (fun _ => mk_explorer (replicate (Z.to_nat (WIDTH * HEIGHT)) BG) home [] 0 0 Details Name true (2 ^ 31 - 1, 2 ^ 31 - 1)
    (2 ^ 64 - 1) 0 false None None [] 0 [] None);;
  navigate home.
Definition render_hover (x y : Z) : EX unit :=
  a ← app_state;
  if bool_decide (cursor a = (x, y)) then mret tt else update (with_cursor (x, y));; redraw.
Definition drag_candidate (item : option Z) : EX (option Z) :=
  a ← app_state;
  update (with_double false);;
  mret (if last_click_was_double a then None else item).
Definition set_drag (d : option DragInfo) : EX unit := update (with_drag d);; redraw.
Definition refresh_now : EX unit := refresh.
Definition handle_drop (x y : Z) (src : str) (dir : bool) : EX bool :=
  a ← app_state;
  match drop_target_at a x y with
  | None => mret false
  | Some target =>
      let name := base_name src in
      if bool_decide (target = parent_path src) || bool_decide (target = src) ||
         (dir && starts_with (src ++ bytes_of "/") target) then
        say (name ++ bytes_of " is already in " ++ target);; mret true
      else
        r ← vol (move_file rtc_now src (join target name));
        (match r with
         | Ok _ => update (with_status (bytes_of "moved " ++ name ++ bytes_of " to " ++ target));; refresh
         | Err e => say (bytes_of "move failed: " ++ fat_message e)
         end);;
        mret true
  end.
Definition move_selection (delta : Z) : EX unit :=
  a ← app_state;
  if count a =? 0 then mret tt
  else
    let new := if delta <? 0 then saturating_sub (selection a) (- delta) else Z.min (selection a + delta) (count a - 1) in
    update (fun a => ensure_selection_visible (with_selection new a));; redraw.
Definition open_with (view : str -> list Z -> FsAction) (name : str) (p : str) : EX (option FsAction) :=
  r ← vol (read_file p);
  match r with
  | Ok content =>
      say (bytes_of "opened " ++ name ++ bytes_of " (" ++ uint_to_string (Z.of_nat (length content)) ++ bytes_of " bytes)");;
      mret (Some (view p content))
  | Err e => say (bytes_of "cannot read " ++ name ++ bytes_of ": " ++ fat_message e);; mret None
  end.
Definition open_selected : EX (option FsAction) :=
  a ← app_state;
  match entry_at a (selection a) with
  | None => mret None
  | Some e =>
      let p := join (path a) (name e) in
      if is_dir e then navigate p;; mret None
      else if is_elf (name e) then say (bytes_of "launching " ++ name e);; mret (Some (RunTerminal p))
      else if is_raw (name e) then open_with OpenImage (name e) p
      else if is_text (name e) then open_with OpenText (name e) p
      else say (name e ++ bytes_of ": no viewer (" ++ fmt_size (size e) ++ bytes_of ")");; mret None
  end.
(** [now] is the tick counter. *)
Definition delete_selected (now : Z) : EX unit :=
  a ← app_state;
  match entry_at a (selection a) with
  | None => mret tt
  | Some e =>
      let armed := match pending_delete a with
                   | Some (sel, tick) => (sel =? selection a) && (saturating_sub now tick <=? DELETE_ARM_TICKS)
                   | None => false
                   end in
      if armed then
        update (with_pending None);;
        r ← vol (remove (join (path a) (name e)));
        match r with
        | Ok _ => update (with_status (bytes_of "deleted " ++ name e));; refresh
        | Err err => say (bytes_of "delete failed: " ++ fat_message err)
        end
      else
        update (with_pending (Some (selection a, now)));;
        say (bytes_of "delete " ++ name e ++ bytes_of "? press Del again to confirm")
  end.
(** The entry of that name becomes the selection, if there is one. *)
Definition select_name (n : str) : EX unit :=
  a ← app_state;
  match find (fun ie => bool_decide (name ie.2 = n)) (enumerate (entries a)) with
  | Some (pos, _) => update (fun a => ensure_selection_visible (with_selection pos a));; redraw
  | None => mret tt
  end.
(** The first name that is not taken, up to number 99. *)
Fixpoint fresh_name (fuel : nat) (i : Z) (numbered : Z -> str) (taken : list str) (n : str) : str :=
  match fuel with
  | O => n
  | S fuel =>
      if bool_decide (to_lowercase n ∈ taken) && (i <? 100) then fresh_name fuel (i + 1) numbered taken (numbered i) else n
  end.
Definition taken (a : FileExplorer) : list str := (fun e => to_lowercase (name e)) <$> entries a.
Definition create (first : string) (numbered : Z -> str) (make : str -> ST (option (Fat32 D)) (result FatError unit)) : EX unit :=
  a ← app_state;
  let n := fresh_name 100 2 numbered (taken a) (bytes_of first) in
  r ← vol (make (join (path a) n));
  match r with
  | Ok _ => update (with_status (bytes_of "created " ++ n));; refresh;; select_name n
  | Err e => say (bytes_of "create failed: " ++ fat_message e)
  end.
Definition create_folder : EX unit :=
  create "New Folder" (fun i => bytes_of "New Folder (" ++ uint_to_string i ++ bytes_of ")") (make_dir rtc_now).
Definition create_file : EX unit :=
  create "New File.txt" (fun i => bytes_of "New File (" ++ uint_to_string i ++ bytes_of ").txt") (fun p => write_file rtc_now p []).

(** ** Renaming *)
Definition start_rename : EX unit :=
  a ← app_state;
  match entry_at a (selection a) with
  | None => mret tt
  | Some e =>
      update (fun a => with_pending None (with_rename (Some (mk_rename (selection a) (name e) (Z.of_nat (length (name e))) true)) a));;
      say (bytes_of "rename " ++ name e ++ [32; 0x2014; 32] ++ bytes_of "Enter to confirm, Esc to cancel")
  end.
Definition cancel_rename : EX unit :=
  a ← app_state;
  match rename a with Some _ => update (with_rename None);; redraw | None => mret tt end.
Definition commit_rename : EX unit :=
  a ← app_state;
  match rename a with
  | None => mret tt
  | Some st =>
      update (with_rename None);;
      let new_name := trim (buf_text st) in
      match entry_at a (rn_item st) with
      | None => redraw
      | Some e =>
          if negb (nonempty new_name) || bool_decide (name e = new_name) then redraw
          else
            r ← vol (Fat.rename rtc_now (join (path a) (name e)) new_name);
            match r with
            | Ok _ =>
                update (with_status (bytes_of "renamed " ++ name e ++ bytes_of " to " ++ new_name));; refresh;; select_name new_name
            | Err err => say (bytes_of "rename failed: " ++ fat_message err)
            end
      end
  end.
Definition set_rename (st : RenameState) : EX unit := update (with_rename (Some st));; redraw.
Definition rename_key (ev : Event) : EX unit :=
  a ← app_state;
  match ev with
  | Escape => cancel_rename
  | Enter => commit_rename
  | _ =>
      match rename a with
      | None => mret tt
      | Some st =>
          match ev with
          | Backspace =>
              if select_all st then set_rename (mk_rename (rn_item st) [] 0 false)
              else if 0 <? rn_cursor st then
                let idx := char_index (buf_text st) (rn_cursor st - 1) in
                if decide (idx < length (buf_text st))%nat
                then set_rename (mk_rename (rn_item st) (take idx (buf_text st) ++ drop (S idx) (buf_text st)) (rn_cursor st - 1) false)
                else on_app panic
              else mret tt
          | Left => set_rename (mk_rename (rn_item st) (buf_text st) (saturating_sub (rn_cursor st) 1) false)
          | Right =>
              update (with_rename (Some (mk_rename (rn_item st) (buf_text st) (rn_cursor st) false)));;
              if rn_cursor st <? Z.of_nat (length (buf_text st))
              then set_rename (mk_rename (rn_item st) (buf_text st) (rn_cursor st + 1) false)
              else mret tt
          | Char c =>
              if (c =? 47) || (c =? 92) || is_ascii_control c then mret tt
              else
                let st := if select_all st then mk_rename (rn_item st) [] 0 false else st in
                update (with_rename (Some st));;
                if MAX_NAME <=? len_utf8 (buf_text st) then mret tt
                else
                  let idx := char_index (buf_text st) (rn_cursor st) in
                  set_rename (mk_rename (rn_item st) (take idx (buf_text st) ++ [c] ++ drop idx (buf_text st)) (rn_cursor st + 1) (select_all st))
          | _ => mret tt
          end
      end
  end.

(** ** Views, sorting, scrolling *)
Definition toggle_view : EX unit :=
  update (fun a => with_view (match view a with Details => Grid | Grid => Details end) a);;
  update (fun a => ensure_selection_visible (with_scroll (Z.min (scroll a) (saturating_sub (count a) (visible_items a))) a));;
  redraw.
Definition toggle_sort (key : SortKey) : EX unit :=
  update (fun a => if decide (sort a = key) then with_sort (sort a) (negb (sort_asc a)) a else with_sort key true a);;
  refresh.
Definition scroll_click (y : Z) : EX unit :=
  a ← app_state;
  let visible := visible_items a in
  let max_scroll := saturating_sub (count a) visible in
  if max_scroll =? 0 then mret tt
  else
    let '(thumb_h, thumb_y) := thumb a max_scroll in
    let page := Z.max (visible / 2) 1 in
    update (fun a => if y <? thumb_y then with_scroll (saturating_sub (scroll a) page) a
                     else if u32 (thumb_y + thumb_h) <=? y then with_scroll (Z.min (scroll a + page) max_scroll) a
                     else a);;
    redraw.

(** ** Clicks and keys *)
Definition click_breadcrumb (x : Z) : EX unit :=
  a ← app_state;
  match find (fun c => (crumb_x c <=? x) && (x <? u32 (crumb_x c + crumb_w c))) (crumb_layout fscale (path a) (LIST_W - 6)) with
  | Some c => navigate (crumb_path c)
  | None => mret tt
  end.
Definition click_toolbar (now x : Z) : EX unit :=
  a ← app_state;
  match toolbar_button_at x with
  | Some Up_ => navigate (parent_path (path a))
  | Some New => create_folder
  | Some NewFile => create_file
  | Some Del => delete_selected now
  | Some Refresh => update (with_status []);; refresh
  | Some ToggleView => toggle_view
  | None => mret tt
  end.
Definition click_sidebar (y : Z) : EX unit :=
  a ← app_state;
  match sidebar_item_at (sidebar a) y with Some t => navigate t | None => mret tt end.
Definition select_item (item now : Z) : EX (option FsAction) :=
  a ← app_state;
  match (if item <? count a then entry_at a item else None) with
  | None => update (with_pending None);; mret None
  | Some e =>
      let is_double := (last_click_item a =? item) && (saturating_sub now (last_click_ticks a) <=? DOUBLE_CLICK_TICKS) in
      update (fun a => with_pending None (ensure_selection_visible (with_selection item (with_click item now is_double a))));;
      if is_double then open_selected
      else
        say (if is_dir e then name e ++ bytes_of " (folder)"
             else name e ++ [32; 0xB7; 32] ++ fmt_size (size e));;
        mret None
  end.
Definition click_details (now x y : Z) : EX (option FsAction) :=
  if y <? LIST_Y + HEADER_H then
    let '(nx, sx, tx) := details_columns in
    let inside r := (r.1 <=? x) && (x <? r.2) in
    (if inside nx then toggle_sort Name else if inside sx then toggle_sort Size
     else if inside tx then toggle_sort Type_ else mret tt);;
    mret None
  else
    a ← app_state;
    select_item ((y - LIST_Y - HEADER_H) / ROW_H + scroll a) now.
Definition click_grid (now x y : Z) : EX (option FsAction) :=
  a ← app_state;
  select_item (scroll a + (y - LIST_Y) / GRID_TILE_H * grid_cols + (x - SIDEBAR_W) / GRID_TILE_W) now.
Definition handle_click (now x y : Z) : EX (option FsAction) :=
  update (fun a => with_double false (with_rename None a));;
  if (x <? 0) || (y <? 0) then mret None
  else if y <? PATH_H then click_breadcrumb x;; mret None
  else if y <? LIST_Y then click_toolbar now x;; mret None
  else if HEIGHT - STATUS_H <=? y then mret None
  else if x <? SIDEBAR_W then click_sidebar y;; mret None
  else if SIDEBAR_W + LIST_W <=? x then scroll_click y;; mret None
  else
    a ← app_state;
    match view a with Details => click_details now x y | Grid => click_grid now x y end.
Definition handle_key (now : Z) (ev : Event) : EX (option FsAction) :=
  a ← app_state;
  match rename a with
  | Some _ => rename_key ev;; mret None
  | None =>
      let sideways delta := match view a with Grid => move_selection delta | Details => mret tt end in
      match ev with
      | Up => move_selection (-1);; mret None
      | Down => move_selection 1;; mret None
      | Left => sideways (- grid_cols);; mret None
      | Right => sideways grid_cols;; mret None
      | Enter => open_selected
      | Backspace => navigate (parent_path (path a));; mret None
      | F2 => start_rename;; mret None
      | Char c =>
          (if c =? 100 then delete_selected now
           else if c =? 114 then update (with_status []);; refresh
           else if c =? 110 then create_folder
           else if c =? 102 then create_file
           else if c =? 118 then toggle_view
           else mret tt);;
          mret None
      | _ => mret None
      end
  end.
End explorer.
