(* ===== verification/ExplorerFacts.v ===== *)
(** * What the file explorer does

    The list is a stable sort of the directory, a click selects the entry that is
    drawn under the pointer, and a delete that was armed can hit another file. *)
From stdpp Require Import list_numbers sorting.
From S2P Require Import Prelude Bytes Text Keyboard Disk Rtc Fat FatFile Session Editor Font Gfx Draw PixelBuffer Canvas Diagonal Steady Explorer.

(** ** Sorting *)
Lemma str_lt_irrefl a : str_lt a a = false.
Proof. induction a as [|x a IH]; [done|]. cbn [str_lt]. by rewrite Z.ltb_irrefl, Z.eqb_refl, IH. Qed.
Lemma str_lt_trans a b c : str_lt a b = true -> str_lt b c = true -> str_lt a c = true.
Proof.
  revert b c. induction a as [|x a IH]; intros [|y b] [|z c]; try done. cbn [str_lt].
  rewrite !orb_true_iff, !andb_true_iff, !Z.ltb_lt, !Z.eqb_eq.
  intros [?|[-> Hab]] [?|[-> Hbc]]; [left; lia..|]. right. split; [done|]. by eapply IH.
Qed.
(** What neither precedes nor follows is in the same place as anything else. *)
Lemma str_lt_total a b : str_lt a b = true \/ a = b \/ str_lt b a = true.
Proof.
  revert b. induction a as [|x a IH]; intros [|y b]; try (by auto). cbn [str_lt].
  rewrite !orb_true_iff, !andb_true_iff, !Z.ltb_lt, !Z.eqb_eq.
  destruct (Z.lt_trichotomy x y) as [?|[->|?]]; [by auto| |by auto].
  destruct (IH b) as [?|[->|?]]; auto.
Qed.
Section order.
Context (key : SortKey) (asc : bool).
Abbreviation less a b := (entry_less a b key asc).
(** The key's order, as a comparison of ranks. *)
Lemma less_negatively_trans a b c : less a b = false -> less b c = false -> less a c = false.
Proof.
  unfold entry_less.
  set (lt := fun x y => match key with Name => str_lt (to_lowercase (name x)) (to_lowercase (name y)) | Size => size x <? size y
    | Type_ => str_lt (file_type (name x)) (file_type (name y)) end).
  assert (forall x y z, lt x y = false -> lt y z = false -> lt x z = false) as Hlt.
  { intros x y z. unfold lt. destruct key; [| rewrite !Z.ltb_ge; lia |].
    all: generalize (to_lowercase (name x)), (to_lowercase (name y)), (to_lowercase (name z)), (file_type (name x)), (file_type (name y)), (file_type (name z)).
    all: intros u v w u' v' w' H1 H2.
    - destruct (str_lt_total u v) as [?|[->|?]]; [congruence|done|]. destruct (str_lt_total v w) as [?|[->|?]]; [congruence|done|].
      apply not_true_is_false. intros Huw. pose proof (str_lt_trans _ _ _ Huw H0) as Hx. pose proof (str_lt_trans _ _ _ Hx H) as Hy. congruence.
    - destruct (str_lt_total u' v') as [?|[->|?]]; [congruence|done|]. destruct (str_lt_total v' w') as [?|[->|?]]; [congruence|done|].
      apply not_true_is_false. intros Huw. pose proof (str_lt_trans _ _ _ Huw H0) as Hx. pose proof (str_lt_trans _ _ _ Hx H) as Hy. congruence. }
  repeat case_bool_decide; destruct (is_dir a), (is_dir b), (is_dir c); try congruence; try done; destruct asc; eauto.
Qed.
Lemma less_asym a b : less a b = true -> less b a = false.
Proof.
  unfold entry_less. rewrite (bool_decide_ext (is_dir b = is_dir a) (is_dir a = is_dir b)) by done. case_bool_decide.
  - destruct key, asc; intros Hl; try (rewrite Z.ltb_lt in Hl; rewrite Z.ltb_ge; lia);
      apply not_true_is_false; intros Hl'; pose proof (str_lt_trans _ _ _ Hl Hl') as Hx; by rewrite str_lt_irrefl in Hx.
  - destruct (is_dir a), (is_dir b); congruence.
Qed.
Lemma less_irrefl a : less a a = false.
Proof. destruct (less a a) eqn:E; [|done]. pose proof (less_asym _ _ E). congruence. Qed.
End order.
Section sorting.
Context (key : SortKey) (asc : bool).
Abbreviation less a b := (entry_less a b key asc).
Definition after_or_same (a b : DirEntry) : Prop := entry_less b a key asc = false.
(** Neither entry comes before the other. *)
Definition same_place (e a : DirEntry) : Prop := entry_less a e key asc = false /\ entry_less e a key asc = false.
#[local] Instance same_place_dec e a : Decision (same_place e a).
Proof. unfold same_place. apply _. Defined.
Lemma bubble_spec p b r : exists p1 p2, p = p1 ++ p2 /\ bubble key asc (length p) (p ++ b :: r) = p1 ++ b :: p2 ++ r /\
  Forall (fun a => less b a = true) p2 /\ forall a, last p1 = Some a -> less b a = false.
Proof.
  revert r. induction p as [|a p IH] using rev_ind; intros r; [by exists [], []|].
  rewrite length_app. cbn [length]. rewrite Nat.add_1_r. cbn [bubble]. rewrite <- app_assoc. change ([a] ++ b :: r) with (a :: b :: r).
  assert ((p ++ a :: b :: r) !! S (length p) = Some b) as -> by (rewrite lookup_app_r by lia; by replace (S (length p) - length p)%nat with 1%nat by lia).
  assert ((p ++ a :: b :: r) !! length p = Some a) as -> by by rewrite list_lookup_middle.

  destruct (less b a) eqn:El.
  - rewrite insert_app_r_alt by lia. replace (S (length p) - length p)%nat with 1%nat by lia. cbn [insert list_insert].
    rewrite (insert_app_r_alt p) by lia. rewrite Nat.sub_diag. cbn [insert list_insert].
    destruct (IH (a :: r)) as (p1 & p2 & -> & E & Hf & Hl). exists p1, (p2 ++ [a]). rewrite app_assoc. split; [done|].
    rewrite E, <- app_assoc. split; [done|]. split; [|done]. apply Forall_app. by split; [|constructor].
  - exists (p ++ [a]), []. rewrite app_nil_r, <- app_assoc. split; [done|]. split; [done|]. split; [done|].
    intros a'. rewrite last_snoc. by intros [= <-].
Qed.
Definition sorted : list DirEntry -> Prop := StronglySorted after_or_same.
Lemma sorted_app p q : sorted (p ++ q) <-> sorted p /\ sorted q /\ forall a b, a ∈ p -> b ∈ q -> after_or_same a b.
Proof.
  unfold sorted. induction p as [|x p IH]; cbn [app].
  - split; [intros Hs; split_and!; [constructor|done|]; intros a b Ha; by apply not_elem_of_nil in Ha|by intros (_ & ? & _)].
  - split.
    + intros [Hs Hx]%StronglySorted_inv. apply IH in Hs as (Hp & Hq & Hpq). rewrite Forall_app in Hx. destruct Hx as [Hx1 Hx2].
      split_and!; [by constructor|done|]. intros a b [->|Ha]%elem_of_cons Hb; [|by auto]. rewrite Forall_forall in Hx2. auto.
    + intros ([Hp Hx]%StronglySorted_inv & Hq & Hpq). constructor.
      * apply IH. split_and!; try done. intros a b Ha. apply Hpq. by apply elem_of_cons; right.
      * apply Forall_app. split; [done|]. rewrite Forall_forall. intros b Hb. apply Hpq; [|done]. by apply elem_of_cons; left.
Qed.
Lemma sorted_insert p1 p2 b : sorted (p1 ++ p2) -> Forall (fun a => less b a = true) p2 ->
  (forall a, last p1 = Some a -> less b a = false) -> sorted (p1 ++ b :: p2).
Proof.
  rewrite !sorted_app. intros (H1 & H2 & H12) Hb Hl. split; [done|].
  assert (forall a, a ∈ p1 -> after_or_same a b) as Hab.
  { intros a Ha. destruct p1 as [|l p1 _] using rev_ind; [by apply not_elem_of_nil in Ha|]. specialize (Hl l). rewrite last_snoc in Hl.
    specialize (Hl eq_refl). apply elem_of_app in Ha as [Ha| ->%list_elem_of_singleton]; [|done].
    apply sorted_app in H1 as (_ & _ & H1). unfold after_or_same in *. eapply less_negatively_trans; [exact Hl|].
    apply H1; [done|]. by apply list_elem_of_singleton. }
  split.
  - constructor; [done|]. eapply Forall_impl; [exact Hb|]. intros a Ha. by apply less_asym.
  - intros a c Ha [->|Hc]%elem_of_cons; auto.
Qed.
Lemma filter_insert e p1 p2 b : Forall (fun a => less b a = true) p2 ->
  filter (same_place e) (p1 ++ b :: p2) = filter (same_place e) ((p1 ++ p2) ++ [b]).
Proof.
  intros Hb. rewrite !filter_app, filter_cons. destruct (decide (same_place e b)) as [[He1 He2]|He].
  - assert (filter (same_place e) p2 = []) as ->.
    { induction Hb as [|a p2 Ha _ IH]; [done|]. rewrite filter_cons, decide_False; [done|]. intros [_ Hea].
      pose proof (less_negatively_trans key asc b e a He1 Hea). congruence. }
    rewrite filter_cons, decide_True by done. by rewrite app_nil_r.
  - rewrite filter_cons, decide_False, app_nil_r by done. done.
Qed.
Definition stable_sort_of (l s : list DirEntry) : Prop :=
  s ≡ₚ l /\ sorted s /\ forall e, filter (same_place e) s = filter (same_place e) l.
Lemma sort_from_spec n l0 p r : stable_sort_of l0 p -> length r = n ->
  stable_sort_of (l0 ++ r) (sort_from key asc n (length p) (p ++ r)).
Proof.
  revert l0 p r. induction n as [|n IH]; intros l0 p r Hp Hr.
  - destruct r; [|done]. by rewrite !app_nil_r.
  - destruct r as [|b r]; [done|]. injection Hr as Hr. cbn [sort_from]. destruct Hp as (Hperm & Hs & Hf).
    destruct (bubble_spec p b r) as (p1 & p2 & -> & -> & Hb & Hl).
    replace (p1 ++ b :: p2 ++ r) with ((p1 ++ b :: p2) ++ r) by by rewrite <- app_assoc.
    replace (S (length (p1 ++ p2))) with (length (p1 ++ b :: p2)) by (rewrite !length_app; cbn [length]; lia).
    replace (l0 ++ b :: r) with ((l0 ++ [b]) ++ r) by by rewrite <- app_assoc. apply IH; [|done]. split; [|split].
    + rewrite <- Hperm, <- !app_assoc. apply Permutation_app_head. by rewrite Permutation_app_comm.
    + by apply sorted_insert.
    + intros e. rewrite filter_insert by done. rewrite filter_app, Hf. by rewrite filter_app.
Qed.
End sorting.

(** ** Drawing *)
#[local] Hint Extern 0 (Surface FileExplorer) => exact canvas_surface : typeclass_instances.
Ltac geometry := unfold in_u, details_visible_rows, grid_visible_rows, grid_cols, LIST_Y, LIST_W, WIDTH, HEIGHT, PATH_H, TOOLBAR_H,
  HEADER_H, STATUS_H, SIDEBAR_W, SCROLLBAR_W, ROW_H, GRID_TILE_W, GRID_TILE_H in *; try zlia.
Lemma explorer_frame (a s : FileExplorer) : pix_ok a s -> s = with_buffer (buffer s) a.
Proof. intros (_ & _ & _ & _ & _ & _ & Hf). rewrite <- Hf. by destruct s. Qed.
Section drawing.
Context (fscale : Z) (s0 : FileExplorer).
#[local] Instance explorer_spec : SurfaceSpec FileExplorer := canvas_spec s0.
Lemma text_steady x y s c : steady (text fscale x y s c).
Proof. apply steady_string. Qed.
Lemma rects_steady x y c l : Forall (fun r => in_u 32 (x + r.1.1.1) /\ in_u 32 (y + r.1.1.2)) l -> steady (T := FileExplorer) (rects x y c l).
Proof. intros Hl. apply steady_for_in. intros [[[dx dy] w] h] Hr. rewrite Forall_forall in Hl. by apply steady_rect; apply (Hl _ Hr). Qed.
Ltac rects := match goal with |- steady (rects _ _ _ _) => apply rects_steady; repeat constructor; cbn [fst snd]; geometry | |- steady (text _ _ _ _ _) => apply text_steady end.
Ltac picture := repeat (cbv zeta; first [steady_step | rects]); geometry.
Lemma toolbar_rect_in b : 0 <= (toolbar_button_rect b).1 <= WIDTH.
Proof. by destruct b. Qed.
Lemma toolbar_icon_steady b x y : 0 <= x < 2 ^ 16 -> 0 <= y < 2 ^ 16 -> steady (T := FileExplorer) (draw_toolbar_icon b x y).
Proof. intros Hx Hy. destruct b; cbn [draw_toolbar_icon]; picture. Qed.
Lemma entry_icon_steady x y n d : 0 <= x < 2 ^ 16 -> 0 <= y < 2 ^ 16 -> steady (T := FileExplorer) (draw_entry_icon x y n d).
Proof. intros Hx Hy. unfold draw_entry_icon. picture. Qed.
Lemma big_icon_steady x y n d : 0 <= x < 2 ^ 16 -> 0 <= y < 2 ^ 16 -> steady (T := FileExplorer) (draw_big_icon x y n d).
Proof. intros Hx Hy. unfold draw_big_icon. picture. Qed.
Lemma sidebar_rows_steady y es : 0 <= y -> y + 18 * Z.of_nat (length es) < 2 ^ 31 -> steady (sidebar_rows fscale y es).
Proof.
  revert y. induction es as [|e es IH]; intros y Hy Hl; cbn [sidebar_rows length] in *; [apply steady_ret|].
  rewrite Nat2Z.inj_succ in Hl. picture; apply IH; lia.
Qed.
Lemma crumbs_in x segs : in_u 32 x -> Forall (fun c => in_u 32 (crumb_x c)) (crumbs_from fscale x segs).
Proof.
  revert x. induction segs as [|[l t] segs IH]; intros x Hx; [constructor|]. cbn [crumbs_from]. constructor; [done|].
  apply IH, wrapped_in_u.
Qed.
Lemma crumb_layout_in p m : Forall (fun c => in_u 32 (crumb_x c)) (crumb_layout fscale p m).
Proof. unfold crumb_layout. case_match; [constructor|]; try apply crumbs_in; by geometry. Qed.
Lemma in_enumerate_index {A} (l : list A) i x : In (i, x) (enumerate l) -> 0 <= i < Z.of_nat (length l).
Proof. intros Hi. apply in_combine_l in Hi. apply list_elem_of_In, elem_of_seqZ in Hi. lia. Qed.
Lemma in_enumerate {A} (l : list A) i x : (i, x) ∈ enumerate l -> x ∈ l.
Proof. unfold enumerate. intros Hi. by apply elem_of_zip_r in Hi. Qed.
Lemma sidebar_steady : Z.of_nat (length (sidebar s0)) < 2 ^ 16 -> steady (render_sidebar fscale).
Proof.
  intros Hl. unfold render_sidebar. steady; try by geometry.
  match goal with Hs : ok _ |- _ => rename Hs into H0 end.
  apply sidebar_rows_steady; [by geometry|]. rewrite (explorer_frame _ _ H0). cbn [sidebar with_buffer]. geometry.
Qed.
Lemma toolbar_button_steady b c : steady (toolbar_button b c).
Proof.
  unfold toolbar_button. pose proof (toolbar_rect_in b) as Hx. destruct (toolbar_button_rect b) as [bx bw] eqn:E.
  assert (0 <= bx <= WIDTH) by by destruct b; injection E as <- <-.
  destruct (over _ _ _ _ _); picture.
Qed.
Lemma toolbar_steady : steady (render_toolbar fscale).
Proof.
  unfold render_toolbar. steady; try apply toolbar_button_steady; try apply text_steady; try by geometry.
  match goal with b : ToolbarAction, E : toolbar_button_rect _ = (?bx, ?bw) |- _ =>
    assert (0 <= bx + (bw - 16) / 2 < 2 ^ 16) by by destruct b; injection E as <- <- end.
  apply toolbar_icon_steady; by geometry.
Qed.
Lemma breadcrumbs_steady : steady (render_breadcrumbs fscale).
Proof.
  unfold render_breadcrumbs. steady; try apply text_steady; by geometry.
Qed.
Lemma header_steady l r c : in_u 32 r.1 -> steady (draw_header fscale l r c).
Proof. intros Hr. unfold draw_header. picture. Qed.
Lemma details_row_steady r : 0 <= r < 100 -> steady (details_row fscale r).
Proof.
  intros Hr. unfold details_row. apply steady_get. intros a _. cbv zeta. cbn [fst snd details_columns].
  destruct (entry_at a _) as [e|]; [|apply steady_ret]. steady; try apply text_steady; try by geometry.
  apply entry_icon_steady; by geometry.
Qed.
Lemma range_bounds x a b : x ∈ range a b -> a <= x < b.
Proof. intros Hx. apply elem_of_seqZ in Hx. lia. Qed.
Lemma details_steady : steady (render_details fscale).
Proof.
  unfold render_details, details_columns. steady; try (apply header_steady; by geometry); try by geometry.
  match goal with Hx : _ ∈ range _ _ |- _ => apply range_bounds in Hx end. apply details_row_steady. geometry.
Qed.
Lemma grid_tile_steady r c : 0 <= r < 100 -> 0 <= c < 100 -> steady (grid_tile fscale (r, c)).
Proof.
  intros Hr Hc. unfold grid_tile. apply steady_get. intros a _. cbv zeta.
  destruct (entry_at a _) as [e|]; [|apply steady_ret]. steady; try apply text_steady; try by geometry.
  apply big_icon_steady; by geometry.
Qed.
Lemma grid_steady : steady (render_grid fscale).
Proof.
  unfold render_grid. apply steady_bind; [steady; by geometry|]. intros _. apply steady_for_break. intros [r c] Hx.
  unfold tiles in Hx. apply list_elem_of_bind in Hx as (r' & (c' & [= -> ->] & Hc)%list_elem_of_fmap & Hr).
  apply range_bounds in Hc, Hr. apply grid_tile_steady; geometry.
Qed.
Lemma rename_steady : 1 <= fscale < 256 -> steady (render_rename fscale).
Proof.
  intros Hf. unfold render_rename. apply steady_get. intros a _. destruct (rename a) as [st|]; [|apply steady_ret].
  destruct (count a <=? rn_item st); [apply steady_ret|]. cbv zeta.
  destruct (rename_box a _ _) as [[[bx by_] bw]|] eqn:Eb; [|apply steady_ret].
  assert (0 <= bx < 2 ^ 31 /\ in_u 32 by_) as [Hbx Hby].
  { unfold rename_box in Eb. destruct (view a).
    - cbv zeta in Eb. destruct (_ || _); [done|]. injection Eb as <- <- <-. split; [by geometry|apply wrapped_in_u].
    - cbv zeta in Eb. destruct (Z.leb_spec grid_visible_rows (u64 (rn_item st - scroll a) / grid_cols)); [done|]. injection Eb as <- <- <-.
      pose proof (wrap_bound 64 (rn_item st - scroll a) ltac:(lia)) as Hw. unfold in_u in Hw.
      pose proof (Z.div_pos (u64 (rn_item st - scroll a)) grid_cols ltac:(lia) ltac:(done)).
      pose proof (Z.mod_pos_bound (u64 (rn_item st - scroll a)) grid_cols ltac:(done)). geometry. }
  unfold glyph_h, GLYPH_HEIGHT. steady; try apply text_steady; try by geometry.
Qed.
Lemma scrollbar_steady : steady render_scrollbar.
Proof.
  unfold render_scrollbar, thumb. cbv zeta. steady; try by geometry.
Qed.
Lemma status_steady : steady (render_status fscale).
Proof. unfold render_status. steady; try apply text_steady; by geometry. Qed.
Lemma render_steady : 1 <= fscale < 256 -> Z.of_nat (length (sidebar s0)) < 2 ^ 16 -> steady (render fscale).
Proof.
  intros Hf Hl. unfold render. steady; try by geometry.
  - by apply sidebar_steady.
  - apply toolbar_steady.
  - apply breadcrumbs_steady.
  - apply details_steady.
  - apply grid_steady.
  - by apply rename_steady.
  - apply scrollbar_steady.
  - apply status_steady.
Qed.
End drawing.
(** A window with its pixels. *)
Definition framed (a : FileExplorer) : Prop :=
  Z.of_nat (length (buffer a)) = WIDTH * HEIGHT /\ Z.of_nat (length (sidebar a)) < 2 ^ 16.
Lemma framed_pix_ok a : framed a -> pix_ok a a.
Proof. intros [Hl _]. unfold pix_ok. cbn. rewrite Hl. by vm_compute. Qed.
Lemma render_total fscale a : 1 <= fscale < 256 -> framed a ->
  exists b, render fscale a = Ret tt (with_buffer b a) /\ framed (with_buffer b a).
Proof.
  intros Hf Ha. destruct (canvas_steady a (render fscale) (render_steady fscale a Hf (proj2 Ha)) (framed_pix_ok a Ha)) as ([] & s' & E & Hs).
  pose proof (explorer_frame _ _ Hs) as Ef. rewrite Ef in E. exists (buffer s'). split; [done|].
  destruct Hs as (_ & _ & _ & _ & _ & Hl & _), Ha as [_ Hs]. by split.
Qed.

(** ** Where clicks go *)
Section hits.
Context (fscale : Z) {D : Type} `{BlockDevice D} (rtc_now : D -> DateTime).
(** The part of the list a click goes to. *)
Definition in_list (x y : Z) : Prop := SIDEBAR_W <= x < SIDEBAR_W + LIST_W /\ LIST_Y <= y < HEIGHT - STATUS_H.
(** The rectangle in which [details_row] and [grid_tile] draw the [k]-th entry
    from the scroll position. *)
Definition drawn_at (v : View) (k x y : Z) : Prop :=
  match v with
  | Details => k < details_visible_rows /\ SIDEBAR_W <= x < SIDEBAR_W + LIST_W /\
      LIST_Y + HEADER_H + k * ROW_H <= y < LIST_Y + HEADER_H + (k + 1) * ROW_H
  | Grid => k < grid_visible_rows * grid_cols /\
      SIDEBAR_W + k mod grid_cols * GRID_TILE_W <= x < SIDEBAR_W + (k mod grid_cols + 1) * GRID_TILE_W /\
      LIST_Y + k / grid_cols * GRID_TILE_H <= y < LIST_Y + (k / grid_cols + 1) * GRID_TILE_H
  end.
Lemma item_at_drawn a k x y : 0 <= scroll a -> 0 <= k -> drawn_at (view a) k x y -> scroll a + k < count a ->
  in_list x y /\ item_at a x y = Some (scroll a + k).
Proof.
  intros Hs Hk Hd Hc. unfold item_at, drawn_at, in_list in *. change (GRID_TILE_W) with 88 in *. change GRID_TILE_H with 54 in *.
  change grid_cols with 6 in *. change grid_visible_rows with 6 in *. change details_visible_rows with 19 in *. change ROW_H with 18 in *.
  change LIST_W with 562 in *. change (LIST_Y + HEADER_H) with 74 in *. change LIST_Y with 50 in *. change SIDEBAR_W with 128 in *. change HEADER_H with 24.
  change (HEIGHT - STATUS_H) with 424 in *.
  destruct (view a).
  - split; [lia|]. rewrite !(proj2 (Z.ltb_ge _ _)), (proj2 (Z.leb_gt _ _)) by lia. cbn [orb].
    assert ((y - 50 - 24) / 18 = k) as -> by zlia. by rewrite (proj2 (Z.ltb_lt _ _)) by lia.
  - assert (0 <= k / 6 < 6 /\ 0 <= k mod 6 < 6 /\ k = k / 6 * 6 + k mod 6) as (H1 & H2 & H3) by zlia.
    split; [zlia|]. rewrite !(proj2 (Z.ltb_ge _ _)), (proj2 (Z.leb_gt _ _)) by zlia. cbn [orb].
    assert ((y - 50) / 54 = k / 6) as -> by zlia. assert ((x - 128) / 88 = k mod 6) as -> by zlia.
    replace (scroll a + k / 6 * 6 + k mod 6) with (scroll a + k) by lia. by rewrite (proj2 (Z.ltb_lt _ _)) by lia.
Qed.
Context (Hscale : 1 <= fscale < 256).
Lemma redraw_run (v : option (Fat32 D)) a : framed a -> exists b, redraw fscale (v, a) = Ret tt (v, with_buffer b a) /\ framed (with_buffer b a).
Proof.
  intros Ha. destruct (render_total fscale a Hscale Ha) as (b & E & Hb). exists b. split; [|done]. unfold redraw, on_app. by rewrite E.
Qed.
Lemma say_run s (v : option (Fat32 D)) a : framed a -> exists b, say fscale s (v, a) = Ret tt (v, with_buffer b (with_status s a)) /\
  framed (with_buffer b (with_status s a)).
Proof. intros Ha. apply (redraw_run v (with_status s a) Ha). Qed.
(** The selection after a click on an entry. *)
Definition clicked (now item : Z) (double : bool) (a : FileExplorer) : FileExplorer :=
  with_pending None (ensure_selection_visible (with_selection item (with_click item now double (with_double false (with_rename None a))))).
Definition described (e : DirEntry) : str :=
  if is_dir e then name e ++ bytes_of " (folder)" else name e ++ [32; 0xB7; 32] ++ fmt_size (size e).
(** C38: A click selects what is drawn under it.  For every entry on the screen, in
    either view, a click anywhere in the rectangle where it is drawn selects that
    entry, shows its description and disarms a delete; the second click within
    300 ms opens it. *)
Theorem click_selects_drawn now v a k x y e :
  framed a -> 0 <= scroll a -> 0 <= k -> drawn_at (view a) k x y -> entry_at a (scroll a + k) = Some e ->
  let item := scroll a + k in
  let double := (last_click_item a =? item) && (saturating_sub now (last_click_ticks a) <=? DOUBLE_CLICK_TICKS) in
  exists b, handle_click fscale rtc_now now x y (v, a) =
    if double then open_selected fscale (v, clicked now item double a)
    else Ret None (v, with_buffer b (with_status (described e) (clicked now item double a))).
Proof.
  intros Ha Hs Hk Hd He item double. set (a1 := with_double false (with_rename None a)).
  assert (scroll a + k < count a) as Hc.
  { unfold entry_at in He. apply lookup_lt_Some in He. unfold count. lia. }
  destruct (item_at_drawn a k x y Hs Hk Hd Hc) as [Hin Hitem].
  assert (exists b, select_item fscale item now (v, a1) = if double then open_selected fscale (v, clicked now item double a)
    else Ret None (v, with_buffer b (with_status (described e) (clicked now item double a)))) as [b Hsel].
  { unfold select_item. unfold mbind at 1, st_bind at 1, app_state, on_app, get_st.
    change (count a1) with (count a). rewrite (proj2 (Z.ltb_lt item _)) by done. change (entry_at a1 item) with (entry_at a item).
    unfold item at 1. rewrite He. change (last_click_item a1) with (last_click_item a). change (last_click_ticks a1) with (last_click_ticks a).
    fold double. change ((update (fun a => with_pending None (ensure_selection_visible (with_selection item (with_click item now double a))));; ?m) (v, a1))
      with (m (v, clicked now item double a)).
    destruct double; [by exists []|]. destruct (say_run (described e) v (clicked now item false a)) as (b & E & _); [done|].
    exists b. unfold mbind, st_bind. unfold described in *. by rewrite E. }
  exists b. rewrite <- Hsel. unfold handle_click. change ((update (fun a => with_double false (with_rename None a));; ?m) (v, a)) with (m (v, a1)).
  destruct Hin as [Hx Hy]. rewrite (proj2 (Z.ltb_ge x 0)), (proj2 (Z.ltb_ge y 0)), (proj2 (Z.ltb_ge y PATH_H)), (proj2 (Z.ltb_ge y LIST_Y)),
    (proj2 (Z.leb_gt (HEIGHT - STATUS_H) y)), (proj2 (Z.ltb_ge x SIDEBAR_W)), (proj2 (Z.leb_gt (SIDEBAR_W + LIST_W) x)) by geometry. cbn [orb].
  rewrite (st_bind_ret app_state _ (v, a1) a1 (v, a1) eq_refl). change (view a1) with (view a).
  destruct (view a) eqn:Ev.
  - unfold click_details. unfold drawn_at in Hd. rewrite (proj2 (Z.ltb_ge y _)) by geometry.
    rewrite (st_bind_ret app_state _ (v, a1) a1 (v, a1) eq_refl). change (scroll a1) with (scroll a). f_equal. unfold item. geometry.
  - unfold click_grid. rewrite (st_bind_ret app_state _ (v, a1) a1 (v, a1) eq_refl). change (scroll a1) with (scroll a). f_equal.
    unfold item_at in Hitem. rewrite Ev in Hitem. destruct (_ || _); [done|]. destruct (_ <? _) in Hitem; [|done]. by injection Hitem as ->.
Qed.

(** ** Deleting *)
(** The window after the directory was read again. *)
Definition listed (r : result FatError (list DirEntry)) (v : option (Fat32 D)) (a : FileExplorer) : FileExplorer :=
  let a := match r with
           | Ok es => with_entries (sort_entries (sort a) (sort_asc a) es) a
           | Err e => with_entries [] (with_status (bytes_of "cannot read " ++ path a ++ bytes_of ": " ++ fat_message e) a)
           end in
  let a := if count a <=? selection a then with_selection 0 a else a in
  let a := with_scroll (Z.min (scroll a) (saturating_sub (count a) (visible_items a))) a in
  let free := match info v with
              | Some i => u64 (u64 (vi_free_clusters i * vi_sectors_per_cluster i) * 512)
              | None => 0
              end in
  with_sidebar build_sidebar (with_free free a).
Lemma listed_framed r v a : framed a -> framed (listed r v a).
Proof. intros [Hb _]. unfold listed. cbv zeta. split; [|cbn [sidebar with_sidebar]; by vm_compute]. destruct r; by destruct (count _ <=? _). Qed.
Lemma refresh_run v v' a r : framed a -> list_dir (path a) v = Ret r v' ->
  exists b, refresh fscale (v, a) = Ret tt (v', with_buffer b (listed r v' a)) /\ framed (with_buffer b (listed r v' a)).
Proof.
  intros Ha El. destruct (redraw_run v' _ (listed_framed r v' a Ha)) as (b & E & Hb). exists b. split; [|done]. rewrite <- E.
  unfold refresh. rewrite (st_bind_ret app_state _ (v, a) a (v, a) eq_refl).
  assert (vol (list_dir (path a)) (v, a) = Ret r (v', a)) as Ev by (unfold vol; by rewrite El).
  rewrite (st_bind_ret _ _ _ _ _ Ev). by destruct r.
Qed.
(** The window after a delete was asked for. *)
Definition armed (t : Z) (e : DirEntry) (a : FileExplorer) : FileExplorer :=
  with_status (bytes_of "delete " ++ name e ++ bytes_of "? press Del again to confirm") (with_pending (Some (selection a, t)) a).
Lemma delete_arms t v a e : framed a -> entry_at a (selection a) = Some e -> pending_delete a = None ->
  exists b, delete_selected fscale t (v, a) = Ret tt (v, with_buffer b (armed t e a)) /\ framed (with_buffer b (armed t e a)).
Proof.
  intros Ha He Hp. unfold delete_selected. rewrite (st_bind_ret app_state _ (v, a) a (v, a) eq_refl). rewrite He, Hp.
  exact (say_run (bytes_of "delete " ++ name e ++ bytes_of "? press Del again to confirm") v (with_pending (Some (selection a, t)) a) Ha).
Qed.
(** The direction of the sort after a click on a column's header. *)
Definition toggled (key : SortKey) (a : FileExplorer) : bool := if decide (sort a = key) then negb (sort_asc a) else true.
(** A confirmed delete removes whatever has moved to the place of the entry that
    was named.  After a first press asked about the entry [e] at the selection,
    sorting by another column and pressing once more within the 1.2 seconds removes
    the entry that the sort has put there, which was never asked about. *)
Theorem delete_takes_other_file v v1 v2 v3 a e e' key es r t0 t1 :
  framed a -> pending_delete a = None -> 0 <= selection a -> entry_at a (selection a) = Some e ->
  list_dir (path a) v = Ret (Ok es) v1 ->
  sort_entries key (toggled key a) es !! Z.to_nat (selection a) = Some e' -> t0 <= t1 <= t0 + DELETE_ARM_TICKS ->
  remove (join (path a) (name e')) v1 = Ret (Ok tt) v2 -> list_dir (path a) v2 = Ret r v3 ->
  exists a1 a2, delete_selected fscale t0 (v, a) = Ret tt (v, a1) /\
    status a1 = bytes_of "delete " ++ name e ++ bytes_of "? press Del again to confirm" /\
    (toggle_sort fscale key;; delete_selected fscale t1) (v, a1) = Ret tt (v3, a2) /\
    (forall es', r = Ok es' -> status a2 = bytes_of "deleted " ++ name e').
Proof.
  intros Ha Hp Hsel He El He' Ht Er El'. destruct (delete_arms t0 v a e Ha He Hp) as (b & E & Hb).
  set (a1 := with_buffer b (armed t0 e a)) in *.
  set (a2 := with_sort key (toggled key a) a1). assert (framed a2) as H2 by done.
  destruct (refresh_run v v1 a2 (Ok es) H2 El) as (b2 & E2 & H3). set (a3 := with_buffer b2 (listed (Ok es) v1 a2)) in *.
  assert (toggle_sort fscale key (v, a1) = Ret tt (v1, a3)) as Et.
  { unfold toggle_sort. rewrite <- E2. unfold a2, toggled. change (sort a) with (sort a1). change (sort_asc a) with (sort_asc a1).
    change ((update ?f;; ?m) (v, a1)) with (m (v, f a1)). cbv beta. case_decide as Hk; [|done]. by rewrite Hk. }
  assert (selection a3 = selection a /\ entry_at a3 (selection a) = Some e') as [Es Ee].
  { unfold a3, listed. cbv zeta. change (sort a2) with key. change (sort_asc a2) with (toggled key a).
    apply lookup_lt_Some in He' as Hlt. unfold count. cbn [entries with_entries]. 
    change (selection (with_entries ?l a2)) with (selection a). rewrite (proj2 (Z.leb_gt _ (selection a))) by lia. done. }
  assert (pending_delete a3 = Some (selection a, t0) /\ path a3 = path a /\ framed a3) as (Epend & Epath & Hf).
  { unfold a3, listed. cbv zeta. destruct (count _ <=? _); done. }
  set (a4 := with_status (bytes_of "deleted " ++ name e') (with_pending None a3)).
  destruct (refresh_run v2 v3 a4 r Hf) as (b5 & E5 & H5); [by change (path a4) with (path a3); rewrite Epath|].
  exists a1, (with_buffer b5 (listed r v3 a4)). split; [exact E|]. split; [done|]. split.
  - rewrite (st_bind_ret _ _ _ _ _ Et). unfold delete_selected. rewrite (st_bind_ret app_state _ (v1, a3) a3 (v1, a3) eq_refl).
    rewrite Es, Ee, Epend, Z.eqb_refl. cbn [andb]. unfold saturating_sub. rewrite (proj2 (Z.leb_le _ DELETE_ARM_TICKS)) by (unfold DELETE_ARM_TICKS in *; lia).
    rewrite Epath. change ((update (with_pending None);; ?m) (v1, a3)) with (m (v1, with_pending None a3)). 
    assert (vol (remove (join (path a) (name e'))) (v1, with_pending None a3) = Ret (Ok tt) (v2, with_pending None a3)) as Ev by (unfold vol; by rewrite Er).
    rewrite (st_bind_ret _ _ _ _ _ Ev). exact E5.
  - intros es' ->. unfold listed. cbv zeta. destruct (count _ <=? _); done.
Qed.
End hits.

(** ** Every sequence of inputs *)
(** What the window asks of the file system: on a volume it can work with, every
    operation comes back and leaves such a volume. *)
Class Filing {D : Type} `{BlockDevice D} (rtc_now : D -> DateTime) (good : option (Fat32 D) -> Prop) := {
  filing_list : forall p v, good v -> wp (list_dir p) (fun _ => good) v;
  filing_read : forall p v, good v -> wp (read_file p) (fun _ => good) v;
  filing_remove : forall p v, good v -> wp (remove p) (fun _ => good) v;
  filing_make : forall p v, good v -> wp (make_dir rtc_now p) (fun _ => good) v;
  filing_write : forall p c v, good v -> wp (write_file rtc_now p c) (fun _ => good) v;
  filing_rename : forall p n v, good v -> wp (Fat.rename rtc_now p n) (fun _ => good) v;
  filing_move : forall p q v, good v -> wp (move_file rtc_now p q) (fun _ => good) v }.
(** Without a volume every operation fails with an error. *)
#[export] Instance no_volume_filing {D : Type} `{BlockDevice D} (rtc_now : D -> DateTime) : Filing rtc_now (fun v => v = None).
Proof. split; intros; subst; try reflexivity. unfold move_file. by case_bool_decide. Qed.

Definition rename_ok (a : FileExplorer) : Prop :=
  match rename a with Some st => 0 <= rn_cursor st <= Z.of_nat (length (buf_text st)) | None => True end.
Definition loose (a : FileExplorer) : Prop := framed a /\ 0 <= selection a /\ 0 <= scroll a /\ rename_ok a.
(** The selection is an entry if there is one, the scroll position shows a full
    window if the list fills it, and the rename cursor is within the text. *)
Definition in_order (a : FileExplorer) : Prop :=
  framed a /\ 0 <= selection a /\ (selection a < count a \/ selection a = 0) /\
  0 <= scroll a <= saturating_sub (count a) (visible_items a) /\ rename_ok a.
Lemma in_order_loose a : in_order a -> loose a.
Proof. intros (? & ? & _ & [? _] & ?). by split_and!. Qed.
Lemma loose_selection a i : loose a -> 0 <= i -> loose (with_selection i a).
Proof. intros (Hf & _ & Hsc & Hr) Hi. split; [exact Hf|]. split; [exact Hi|]. split; [exact Hsc|exact Hr]. Qed.
Lemma visible_pos a : 0 < visible_items a.
Proof. unfold visible_items. by destruct (view a). Qed.
Lemma count_nonneg a : 0 <= count a.
Proof. unfold count. lia. Qed.
Lemma ensure_in_order a : loose a -> (selection a < count a \/ selection a = 0) -> in_order (ensure_selection_visible a).
Proof.
  intros (Hf & Hs & Hsc & Hr) Hsel. unfold ensure_selection_visible. cbv zeta. pose proof (visible_pos a). pose proof (count_nonneg a).
  split_and!; try done; cbn [scroll with_scroll].
  - unfold saturating_sub. repeat case_match; lia.
  - change (visible_items (with_scroll ?x a)) with (visible_items a). change (count (with_scroll ?x a)) with (count a). apply Z.le_min_r.
Qed.
Section runs.
Context (fscale : Z) (Hscale : 1 <= fscale < 256) {D : Type} `{BlockDevice D} (rtc_now : D -> DateTime).
Context (good : option (Fat32 D) -> Prop) `{!Filing rtc_now good}.
Definition kept (s : option (Fat32 D) * FileExplorer) : Prop := good s.1 /\ in_order s.2.
Definition calm {A} (m : ST (option (Fat32 D) * FileExplorer) A) : Prop := forall v a, good v -> in_order a -> wp m (fun _ => kept) (v, a).
Lemma calm_ret {A} (x : A) : calm (mret x).
Proof. intros v a Hv Ha. by apply wp_ret. Qed.
Lemma calm_bind {A B} (m : ST (option (Fat32 D) * FileExplorer) A) (k : A -> ST (option (Fat32 D) * FileExplorer) B) :
  calm m -> (forall x, calm (k x)) -> calm (m ≫= k).
Proof. intros Hm Hk v a Hv Ha. apply wp_bind. eapply wp_conseq; [by apply Hm|]. intros x [v' a'] [? ?]. by apply Hk. Qed.
Lemma wp_state {A} (k : FileExplorer -> ST (option (Fat32 D) * FileExplorer) A) Q v a : wp (k a) Q (v, a) -> wp (a ← app_state; k a) Q (v, a).
Proof. done. Qed.
Lemma wp_update {A} f (m : ST (option (Fat32 D) * FileExplorer) A) Q v a : wp m Q (v, f a) -> wp (update f;; m) Q (v, a).
Proof. done. Qed.
Lemma wp_vol {A B} (m : ST (option (Fat32 D)) A) (k : A -> ST (option (Fat32 D) * FileExplorer) B) Q v a :
  wp m (fun _ => good) v -> (forall r v', good v' -> wp (k r) Q (v', a)) -> wp (r ← vol m; k r) Q (v, a).
Proof. intros Hm Hk. apply wp_elim in Hm as (r & v' & E & Hv'). unfold wp, mbind, st_bind, vol. rewrite E. by apply Hk. Qed.
Lemma with_buffer_order b a : framed (with_buffer b a) -> in_order a -> in_order (with_buffer b a).
Proof. intros Hf (_ & Ho). split; [done|]. exact Ho. Qed.
Lemma redraw_kept v a : good v -> in_order a -> wp (redraw fscale) (fun _ => kept) (v, a).
Proof.
  intros Hv Ha. destruct (redraw_run fscale Hscale v a (proj1 Ha)) as (b & E & Hb). unfold wp. rewrite E. split; [done|]. by apply with_buffer_order.
Qed.
Lemma say_kept s v a : good v -> in_order a -> wp (say fscale s) (fun _ => kept) (v, a).
Proof. intros Hv Ha. by apply (redraw_kept v (with_status s a)). Qed.
Lemma listed_in_order r (v : option (Fat32 D)) a : loose a -> in_order (listed r v a).
Proof.
  intros (Hf & Hs & Hsc & Hr). split; [by apply listed_framed|]. unfold listed. cbv zeta.
  set (a1 := match r with Ok es => _ | Err e => _ end). set (a2 := if count a1 <=? selection a1 then with_selection 0 a1 else a1).
  assert (selection a1 = selection a /\ scroll a1 = scroll a /\ rename a1 = rename a) as (E1 & E2 & E3) by by destruct r.
  assert (0 <= selection a2 /\ (selection a2 < count a2 \/ selection a2 = 0) /\ scroll a2 = scroll a /\ rename a2 = rename a) as (H1 & H2 & H3 & H4).
  { unfold a2. destruct (Z.leb_spec (count a1) (selection a1)).
    - split_and!; [done|by right|done|done].
    - split_and!; try done; lia. }
  split; [done|]. split; [done|]. split; [|by unfold rename_ok; cbn; rewrite H4].
  cbn [scroll with_sidebar with_free with_scroll]. rewrite H3. change (visible_items (with_sidebar ?x (with_free ?y (with_scroll ?z a2)))) with (visible_items a2).
  change (count (with_sidebar ?x (with_free ?y (with_scroll ?z a2)))) with (count a2). unfold saturating_sub. lia.
Qed.
Lemma refresh_kept v a : good v -> loose a -> wp (refresh fscale) (fun _ => kept) (v, a).
Proof.
  intros Hv Ha. pose proof (filing_list (path a) v Hv) as Hl. apply wp_elim in Hl as (r & v' & E & Hv').
  destruct (refresh_run fscale Hscale v v' a r (proj1 Ha) E) as (b & Er & Hb). unfold wp. rewrite Er. split; [done|].
  by apply with_buffer_order, listed_in_order.
Qed.
Lemma navigate_kept p (v : option (Fat32 D)) a : good v -> framed a -> wp (navigate fscale p) (fun _ => kept) (v, a).
Proof. intros Hv Ha. unfold navigate. apply wp_update. by apply refresh_kept. Qed.

Lemma then_ret {A B} (m : ST (option (Fat32 D) * FileExplorer) A) (x : B) v a : wp m (fun _ => kept) (v, a) -> wp (m;; mret x) (fun _ => kept) (v, a).
Proof. intros Hm. apply wp_bind. eapply wp_conseq; [exact Hm|]. intros y s Hs. by apply wp_ret. Qed.
Ltac calm_step :=
  match goal with
  | |- wp (mret _) _ _ => apply wp_ret; split; [done|]
  | |- wp (a ← app_state; _) _ _ => apply wp_state
  | |- wp (update _;; _) _ _ => apply wp_update
  | |- wp (r ← vol (list_dir _); _) _ _ => apply wp_vol; [by apply filing_list|intros]
  | |- wp (r ← vol (read_file _); _) _ _ => apply wp_vol; [by apply filing_read|intros]
  | |- wp (r ← vol (remove _); _) _ _ => apply wp_vol; [by apply filing_remove|intros]
  | |- wp (r ← vol (make_dir _ _); _) _ _ => apply wp_vol; [by apply filing_make|intros]
  | |- wp (r ← vol (write_file _ _ _); _) _ _ => apply wp_vol; [by apply filing_write|intros]
  | |- wp (r ← vol (Fat.rename _ _ _); _) _ _ => apply wp_vol; [by apply filing_rename|intros]
  | |- wp (r ← vol (move_file _ _ _); _) _ _ => apply wp_vol; [by apply filing_move|intros]
  | |- wp (say _ _) _ _ => apply say_kept; [done|]
  | |- wp (redraw _) _ _ => apply redraw_kept; [done|]
  | |- wp (refresh _) _ _ => apply refresh_kept; [done|]
  | |- wp (navigate _ _) _ _ => apply navigate_kept; [done|]
  | |- wp (_;; mret _) _ _ => apply then_ret
  | |- wp (match ?x with _ => _ end) _ _ => destruct x eqn:?
  end.
Ltac calm := repeat (cbv zeta; calm_step); try done; try (by apply in_order_loose).
Lemma move_selection_calm d : calm (move_selection fscale d).
Proof.
  intros v a Hv Ha. pose proof (in_order_loose a Ha) as (Hf & Hs & Hsc & Hr). unfold move_selection. calm.
  set (i := if d <? 0 then _ else _). apply Z.eqb_neq in Heqb. pose proof (count_nonneg a).
  assert (0 <= i < count a) as Hi.
  { destruct Ha as (_ & _ & [?|?] & _); unfold i, saturating_sub; destruct (Z.ltb_spec d 0); lia. }
  apply ensure_in_order; [apply loose_selection; [by apply in_order_loose|lia]|]. left. cbn [selection with_selection]. apply Hi.
Qed.
Lemma open_selected_calm : calm (open_selected fscale).
Proof.
  intros v a Hv Ha. unfold open_selected, open_with. calm. all: by destruct Ha.
Qed.
Lemma delete_selected_calm t : calm (delete_selected fscale t).
Proof. intros v a Hv Ha. unfold delete_selected. calm. Qed.
Lemma select_name_calm n : calm (select_name fscale n).
Proof.
  intros v a Hv Ha. pose proof (in_order_loose a Ha) as (Hf & Hs & Hsc & Hr). unfold select_name. calm. subst.
  match goal with E : find _ _ = Some _ |- _ => apply find_some in E as [Hin _] end. apply in_enumerate_index in Hin.
  apply ensure_in_order; [apply loose_selection; [by apply in_order_loose|lia]|]. left. cbn [selection with_selection]. apply Hin.
Qed.
Lemma refresh_then {A} (k : ST (option (Fat32 D) * FileExplorer) A) v a : good v -> loose a -> calm k -> wp (refresh fscale;; k) (fun _ => kept) (v, a).
Proof.
  intros Hv Ha Hk. apply wp_bind. eapply wp_conseq; [by apply refresh_kept|]. intros [] [v' a'] [? ?]. by apply Hk.
Qed.
Lemma create_calm first numbered make : (forall p v, good v -> wp (make p) (fun _ => good) v) -> calm (create fscale first numbered make).
Proof.
  intros Hm v a Hv Ha. unfold create. apply wp_state. cbv zeta. apply wp_vol; [by apply Hm|]. intros r v' Hv'. calm.
  apply refresh_then; [done|by apply in_order_loose|apply select_name_calm].
Qed.
Lemma rename_order a st : in_order a -> 0 <= rn_cursor st <= Z.of_nat (length (buf_text st)) -> in_order (with_rename (Some st) a).
Proof. intros (Hf & Hs & Hc & Hsc & _) Hst. split; [exact Hf|]. split; [exact Hs|]. split; [exact Hc|]. split; [exact Hsc|exact Hst]. Qed.
Lemma no_rename_order a : in_order a -> in_order (with_rename None a).
Proof. intros (Hf & Hs & Hc & Hsc & _). split; [exact Hf|]. split; [exact Hs|]. split; [exact Hc|]. by split; [exact Hsc|]. Qed.
Lemma start_rename_calm : calm (start_rename fscale).
Proof.
  intros v a Hv Ha. unfold start_rename. calm.
  match goal with |- in_order (with_pending None (with_rename (Some ?st) a)) => change (in_order (with_rename (Some st) a)) end.
  apply rename_order; [done|cbn; lia].
Qed.
Lemma commit_rename_calm : calm (commit_rename fscale rtc_now).
Proof.
  intros v a Hv Ha. unfold commit_rename. pose proof (no_rename_order a Ha) as Hn. calm.
  apply refresh_then; [done|by apply in_order_loose|apply select_name_calm].
Qed.
Lemma rename_key_calm ev : calm (rename_key fscale rtc_now ev).
Proof.
  intros v a Hv Ha. unfold rename_key. apply wp_state.
  destruct ev; try (by apply commit_rename_calm); try (unfold cancel_rename; calm; by apply no_rename_order); (destruct (rename a) as [st|] eqn:Er; [|by apply calm_ret]);
    (assert (0 <= rn_cursor st <= Z.of_nat (length (buf_text st))) as Hst by (destruct Ha as (_ & _ & _ & _ & Hr); unfold rename_ok in Hr; by rewrite Er in Hr));
    unfold set_rename; try (by apply calm_ret).
  - destruct (_ || _); [by apply calm_ret|]. cbv zeta. set (st' := if select_all st then _ else st).
    assert (0 <= rn_cursor st' <= Z.of_nat (length (buf_text st'))) as Hst' by (unfold st'; destruct (select_all st); [cbn; lia|done]).
    calm; apply rename_order; try done; [by apply rename_order|]. cbn [rn_cursor buf_text]. rewrite !length_app, length_take, length_drop. cbn [length]. unfold char_index. lia.
  - destruct (select_all st); [calm; by apply rename_order|]. destruct (Z.ltb_spec 0 (rn_cursor st)); [|by apply calm_ret].
    rewrite decide_True by (unfold char_index; lia). calm. apply rename_order; [done|]. cbn [rn_cursor buf_text].
    rewrite length_app, length_take, length_drop. unfold char_index. lia.
  - calm. apply rename_order; [done|]. cbn [rn_cursor buf_text]. unfold saturating_sub. lia.
  - calm; [|by apply rename_order]. apply rename_order; [by apply rename_order|]. cbn [rn_cursor buf_text]. lia.
Qed.
Lemma reorder a s : loose a -> 0 <= s -> (selection a < count a \/ selection a = 0) ->
  in_order (with_scroll (Z.min s (saturating_sub (count a) (visible_items a))) a).
Proof.
  intros (Hf & Hsel & _ & Hr) Hs Hc. split; [exact Hf|]. split; [exact Hsel|]. split; [exact Hc|]. split; [|exact Hr].
  cbn [scroll with_scroll]. change (count (with_scroll ?x a)) with (count a). change (visible_items (with_scroll ?x a)) with (visible_items a).
  unfold saturating_sub. lia.
Qed.
Lemma toggle_view_calm : calm (toggle_view fscale).
Proof.
  intros v a Hv Ha. unfold toggle_view. pose proof Ha as (_ & _ & Hc & _). pose proof (in_order_loose a Ha) as Hl. calm.
  set (a1 := with_view _ a). apply ensure_in_order; [|exact Hc].
  destruct Hl as (Hf & Hs & Hsc & Hr). split; [exact Hf|]. split; [exact Hs|]. split; [|exact Hr].
  cbn [scroll with_scroll]. change (scroll a1) with (scroll a). unfold saturating_sub. lia.
Qed.
Lemma toggle_sort_calm key : calm (toggle_sort fscale key).
Proof. intros v a Hv Ha. unfold toggle_sort. apply wp_update, refresh_kept; [done|]. apply in_order_loose in Ha. by case_decide. Qed.
Lemma scroll_click_calm y : calm (scroll_click fscale y).
Proof.
  intros v a Hv Ha. pose proof (in_order_loose a Ha) as Hl. pose proof Hl as (_ & _ & Hsc & _). pose proof Ha as (_ & _ & Hc & [_ Hm] & _).
  unfold scroll_click. apply wp_state. cbv zeta. destruct (_ =? 0); [by apply calm_ret|]. destruct (thumb a _) as [th ty].
  pose proof (visible_pos a) as Hp. pose proof (Z.div_pos (visible_items a) 2 ltac:(lia) ltac:(lia)).
  apply wp_update, redraw_kept; [done|]. destruct (y <? ty); [|destruct (_ <=? y); [|done]].
  - assert (saturating_sub (scroll a) (Z.max (visible_items a / 2) 1) =
      Z.min (saturating_sub (scroll a) (Z.max (visible_items a / 2) 1)) (saturating_sub (count a) (visible_items a))) as -> by (unfold saturating_sub in *; lia).
    apply reorder; [done|unfold saturating_sub; lia|done].
  - apply reorder; [done|lia|done].
Qed.
Lemma select_item_calm i t : 0 <= i -> calm (select_item fscale i t).
Proof.
  intros Hi v a Hv Ha. unfold select_item. apply wp_state. pose proof (in_order_loose a Ha) as Hl.
  destruct (Z.ltb_spec i (count a)) as [Hlt|]; [|apply wp_update; by apply calm_ret].
  destruct (entry_at a i) as [e|]; [|apply wp_update; by apply calm_ret]. cbv zeta. apply wp_update.
  set (a1 := with_pending None _). assert (in_order a1) as H1.
  { pose (a2 := with_click i t ((last_click_item a =? i) && (saturating_sub t (last_click_ticks a) <=? DOUBLE_CLICK_TICKS)) a).
    apply (ensure_in_order (with_selection i a2)); [|by left]. by apply (loose_selection a2). }
  case_match; [by apply open_selected_calm|]. apply then_ret. by apply say_kept.
Qed.
Lemma handle_click_calm t x y : calm (handle_click fscale rtc_now t x y).
Proof.
  intros v a Hv Ha. unfold handle_click. apply wp_update. set (a1 := with_double false (with_rename None a)).
  assert (in_order a1) as H1 by by apply (no_rename_order a). clearbody a1. clear Ha a. rename a1 into a, H1 into Ha.
  pose proof (in_order_loose a Ha) as (Hf & Hsel & Hsc & Hr).
  destruct (_ || _); [by apply calm_ret|]. destruct (y <? PATH_H).
  { apply then_ret. unfold click_breadcrumb. by calm. }
  destruct (Z.ltb_spec y LIST_Y).
  { apply then_ret. unfold click_toolbar. apply wp_state. destruct (toolbar_button_at x) as [[]|]; calm.
    - by apply create_calm; [intros; apply filing_make| |].
    - by apply create_calm; [intros; apply filing_write| |].
    - by apply delete_selected_calm.
    - by apply toggle_view_calm. }
  destruct (_ <=? y); [by apply calm_ret|]. destruct (Z.ltb_spec x SIDEBAR_W).
  { apply then_ret. unfold click_sidebar. by calm. }
  destruct (_ <=? x); [apply then_ret; by apply scroll_click_calm|]. apply wp_state. destruct (view a).
  - unfold click_details. destruct (Z.ltb_spec y (LIST_Y + HEADER_H)).
    + unfold details_columns. apply then_ret. repeat case_match; by apply toggle_sort_calm || by apply calm_ret.
    + apply wp_state. apply select_item_calm; [|done..]. geometry.
  - unfold click_grid. apply wp_state. apply select_item_calm; [|done..]. change grid_cols with 6. geometry.
Qed.
Lemma handle_key_calm t ev : calm (handle_key fscale rtc_now t ev).
Proof.
  intros v a Hv Ha. unfold handle_key. apply wp_state. pose proof (in_order_loose a Ha) as (Hf & Hsel & Hsc & Hr).
  destruct (rename a); [apply then_ret; by apply rename_key_calm|]. cbv zeta.
  destruct ev; try (by apply calm_ret); try (apply then_ret).
  - repeat (match goal with |- wp (if ?b then _ else _) _ _ => destruct b end); try by apply calm_ret.
    + by apply delete_selected_calm.
    + apply wp_update. by apply refresh_kept.
    + by apply create_calm; [intros; apply filing_make| |].
    + by apply create_calm; [intros; apply filing_write| |].
    + by apply toggle_view_calm.
  - by apply navigate_kept.
  - by apply open_selected_calm.
  - by apply move_selection_calm.
  - by apply move_selection_calm.
  - destruct (view a); [by apply calm_ret|by apply move_selection_calm].
  - destruct (view a); [by apply calm_ret|by apply move_selection_calm].
  - by apply start_rename_calm.
Qed.
Lemma handle_drop_calm x y src d : calm (handle_drop fscale rtc_now x y src d).
Proof.
  intros v a Hv Ha. pose proof (in_order_loose a Ha) as Hl. unfold handle_drop. apply wp_state.
  destruct (drop_target_at a x y) as [t|]; [|by apply calm_ret]. cbv zeta.
  destruct (_ || _); [apply then_ret; by apply say_kept|]. apply wp_vol; [by apply filing_move|]. intros r v' Hv'.
  apply then_ret. destruct r; [apply wp_update; by apply refresh_kept|by apply say_kept].
Qed.
(** What the window manager does with the window. *)
Inductive input :=
| Key (now : Z) (ev : Event) | Click (now x y : Z) | Hover (x y : Z) | Drop (x y : Z) (src : str) (dir : bool)
| Dragging (d : option DragInfo) | Candidate (item : option Z) | Reread.
Definition run_input (i : input) : ST (option (Fat32 D) * FileExplorer) unit :=
  match i with
  | Key now ev => handle_key fscale rtc_now now ev;; mret tt
  | Click now x y => handle_click fscale rtc_now now x y;; mret tt
  | Hover x y => render_hover fscale x y
  | Drop x y src dir => handle_drop fscale rtc_now x y src dir;; mret tt
  | Dragging d => set_drag fscale d
  | Candidate item => drag_candidate item;; mret tt
  | Reread => refresh_now fscale
  end.
Lemma run_input_calm i : calm (run_input i).
Proof.
  intros v a Hv Ha. pose proof (in_order_loose a Ha) as Hl. destruct i; cbn [run_input]; try apply then_ret.
  - by apply handle_key_calm.
  - by apply handle_click_calm.
  - unfold render_hover. calm.
  - by apply handle_drop_calm.
  - by apply (redraw_kept v (with_drag d a)).
  - unfold drag_candidate. apply wp_state, wp_update. by apply wp_ret.
  - by apply refresh_kept.
Qed.
End runs.
Definition sample_explorer0 : FileExplorer := mk_explorer [] [] [] 0 0 Details Name true (0, 0) 0 0 false None None [] 0 [] None.
(** Two files on a small volume: [a.txt] is first by name, [b.txt] by size. *)
Definition two_files : option (Fat32 RamDisk) :=
  match (write_file sample_now (bytes_of "/a.txt") (replicate 600 7);; write_file sample_now (bytes_of "/b.txt") [1]) (Some sample_volume) with
  | Ret _ v => v
  | Panic => None
  end.
Definition sample_listing : list DirEntry * option (Fat32 RamDisk) :=
  match list_dir (bytes_of "/") two_files with Ret (Ok es) v => (es, v) | _ => ([], None) end.
Definition removed : option (Fat32 RamDisk) := match remove (bytes_of "/b.txt") sample_listing.2 with Ret (Ok _) v => v | _ => None end.
Definition sample_explorer : FileExplorer :=
  mk_explorer (replicate (Z.to_nat (WIDTH * HEIGHT)) BG) (bytes_of "/") (sort_entries Name true sample_listing.1) 0 0 Details Name true
    (0, 0) (2 ^ 64 - 1) 0 false None None [] 0 [] None.
Lemma sample_framed : framed sample_explorer.
Proof. split; [|done]. unfold sample_explorer. cbn [buffer]. by rewrite length_replicate, Z2Nat.id. Qed.
Definition entry_named (l : list DirEntry) (i : nat) : DirEntry := default (MkDirEntry [] false 0 0 (0, 0)) (l !! i).
Lemma delete_takes_other_file_witness : exists v3 a1 a2,
  delete_selected 1 100 (two_files, sample_explorer) = Ret tt (two_files, a1) /\
  status a1 = bytes_of "delete a.txt? press Del again to confirm" /\
  (toggle_sort 1 Size;; delete_selected 1 150) (two_files, a1) = Ret tt (v3, a2) /\ status a2 = bytes_of "deleted b.txt".
Proof.
  assert (exists es v, list_dir (bytes_of "/") removed = Ret (Ok es) v) as (es & v3 & El).
  { assert (match list_dir (bytes_of "/") removed with Ret (Ok _) _ => True | _ => False end) as Hl by (vm_compute; exact I).
    destruct (list_dir (bytes_of "/") removed) as [[es|] v|]; [by exists es, v|done|done]. }
  destruct (delete_takes_other_file 1 ltac:(lia) two_files sample_listing.2 removed v3 sample_explorer
    (entry_named (entries sample_explorer) 0) (entry_named (sort_entries Size true sample_listing.1) 0) Size sample_listing.1 (Ok es) 100 150)
    as (a1 & a2 & E1 & S1 & E2 & S2).
  - exact sample_framed.
  - reflexivity.
  - cbn. lia.
  - vm_compute. reflexivity.
  - vm_compute. reflexivity.
  - vm_compute. reflexivity.
  - unfold DELETE_ARM_TICKS. lia.
  - vm_compute. reflexivity.
  - exact El.
  - exists v3, a1, a2. split; [exact E1|]. split; [rewrite S1; vm_compute; reflexivity|]. split; [exact E2|].
    rewrite (S2 es eq_refl). vm_compute. reflexivity.
Defined.
Lemma click_selects_drawn_witness : exists b e,
  handle_click 1 sample_now 500 300 100 (two_files, sample_explorer) =
    Ret None (two_files, with_buffer b (with_status (described e) (clicked 500 1 false sample_explorer))) /\ name e = bytes_of "b.txt".
Proof.
  destruct (click_selects_drawn 1 sample_now ltac:(lia) 500 two_files sample_explorer 1 300 100 (entry_named (entries sample_explorer) 1))
    as (b & E).
  - exact sample_framed.
  - cbn. lia.
  - lia.
  - vm_compute. repeat split; (reflexivity || discriminate).
  - vm_compute. reflexivity.
  - exists b, (entry_named (entries sample_explorer) 1). split; [exact E|]. vm_compute. reflexivity.
Defined.
