(* ===== verification/CalcWindow.v ===== *)
(** * The calculator's window, [calculator.rs]

    The pixels around the state of [Calculator]: how it is drawn, and a click. *)
From stdpp Require Import list_numbers.
From S2P Require Import Prelude Bytes Text Font Gfx Draw PixelBuffer Canvas Line Diagonal Steady Calculator.

Definition GRID_COLS : Z := 4.
Definition GRID_ROWS : Z := 4.
Definition WIDTH : Z := BUTTON_SIZE * GRID_COLS.
Definition HEIGHT : Z := DISPLAY_HEIGHT + BUTTON_SIZE * GRID_ROWS.
Definition BG : Z := 0x00202020.
Definition BUTTON_BG : Z := 0x002F2F2F.
Definition BUTTON_BG_OP : Z := 0x003D3D3D.
Definition BUTTON_FG : Z := 0x00FFFFFF.
Definition BUTTON_FG_OP : Z := 0x00FFFFFF.
Definition DISPLAY_BG : Z := 0x00202020.
Definition DISPLAY_FG : Z := 0x00FFFFFF.
Definition ERROR_FG : Z := 0x00E06060.
Definition ACCENT : Z := 0x004CC2FF.

Record CalcWindow := mk_calc_window { buffer : list Z; calc : CalculatorApp }.
Definition with_buffer (b : list Z) (a : CalcWindow) : CalcWindow := mk_calc_window b (calc a).
#[refine] Global Instance calc_buffer : PixelBuffer CalcWindow := {
  buf_width := fun _ => WIDTH; buf_height := fun _ => HEIGHT; buf := buffer; set_buf := with_buffer }.
Proof. all: try done. by intros []. Defined.
#[local] Hint Extern 0 (Surface CalcWindow) => exact canvas_surface : typeclass_instances.
Definition app_width (a : CalcWindow) : Z := WIDTH.
Definition app_height (a : CalcWindow) : Z := HEIGHT.
Definition pixels (a : CalcWindow) : list Z := buffer a.

Section calc.
Variable fscale : Z.
Abbreviation APP := (ST CalcWindow).
Definition button_colors (label : string) : Z * Z :=
  if bool_decide (label = "C"%string) then (BUTTON_BG_OP, BUTTON_FG_OP)
  else if is_op_label label || bool_decide (label = "="%string) then (ACCENT, 0x00000000)
  else (BUTTON_BG, BUTTON_FG).
Definition render : APP unit :=
  fill_rect 0 0 WIDTH HEIGHT BG;;
  fill_rect 0 0 WIDTH DISPLAY_HEIGHT DISPLAY_BG;;
  a ← get_st;
  let fg := if error (calc a) then ERROR_FG else DISPLAY_FG in
  let text := as_bytes (display (calc a)) in
  let text_w := u32 (Z.of_nat (length text) * glyph_w fscale) in
  let x := saturating_sub WIDTH (u32 (text_w + 10)) in
  let y := u32 (DISPLAY_HEIGHT - glyph_h fscale) / 2 in
  draw_string fscale x y text fg None;;
  for_in BUTTONS (fun '(label, col, row) =>
    let bx := col * BUTTON_SIZE in
    let by_ := DISPLAY_HEIGHT + row * BUTTON_SIZE in
    let '(bg, fg) := button_colors label in
    fill_rounded_rect (bx + 2) (by_ + 2) (BUTTON_SIZE - 4) (BUTTON_SIZE - 4) 8 bg;;
    let lx := u32 (bx + u32 (BUTTON_SIZE - glyph_w fscale) / 2) in
    let ly := u32 (by_ + u32 (BUTTON_SIZE - glyph_h fscale) / 2) in
    draw_string fscale lx ly (bytes_of label) fg None).
Definition window_new : outcome CalcWindow unit := render (mk_calc_window (replicate (Z.to_nat (WIDTH * HEIGHT)) BG) new).
Definition on_calc (m : ST CalculatorApp unit) : APP unit := fun a =>
  match m (calc a) with Ret _ c => Ret tt (mk_calc_window (buffer a) c) | Panic => Panic end.
Definition app_click (x y : Z) : APP unit :=
  if (x <? 0) || (y <? 0) || (y <? DISPLAY_HEIGHT) then mret tt
  else
    let col := x / BUTTON_SIZE in
    let row := (y - DISPLAY_HEIGHT) / BUTTON_SIZE in
    match find (fun b => (b.1.2 =? col) && (b.2 =? row)) BUTTONS with
    | Some b => on_calc (press b.1.1);; render
    | None => mret tt
    end.

(** ** Drawing never fails *)
Definition calc_framed (a : CalcWindow) : Prop := Z.of_nat (length (buffer a)) = WIDTH * HEIGHT.
Lemma button_rows label col row : (label, col, row) ∈ BUTTONS -> 0 <= row < 4.
Proof. unfold BUTTONS. rewrite !elem_of_cons. intros Hb. repeat destruct Hb as [[= _ _ ->]|Hb]; [lia..|]. by apply not_elem_of_nil in Hb. Qed.
Lemma calc_steady s0 : steady (spec := canvas_spec s0) render.
Proof.
  unfold render. steady; try (unfold in_u, BUTTON_SIZE; lia).
  match goal with H : _ ∈ BUTTONS |- _ => apply button_rows in H end. unfold in_u, DISPLAY_HEIGHT, BUTTON_SIZE. lia.
Qed.
Lemma calc_render_total a : calc_framed a -> exists b, render a = Ret tt (with_buffer b a) /\ calc_framed (with_buffer b a).
Proof.
  intros Ha. assert (pix_ok a a) as Hs by (unfold pix_ok; cbn; rewrite Ha; by vm_compute).
  destruct (canvas_steady a render (calc_steady a) Hs) as ([] & s' & E & (_ & _ & _ & _ & _ & Hl & Hf)).
  assert (s' = with_buffer (buffer s') a) as Ef by (specialize (Hf (buffer s')); destruct s'; exact Hf).
  rewrite Ef in E. by exists (buffer s').
Qed.
End calc.
