(* ===== verification/Window.v ===== *)
(** * Windows, the data of [wm.rs]

    What a window is, what it shows, and the geometry of its frame.  Screen
    coordinates are [i32]: [a ⊞ b] and [a ⊟ b] are its wrapping sum and difference. *)
From stdpp Require Import list_numbers.
From S2P Require Import Prelude Bytes Text Fat Font LineEdit Console Editor CalcWindow Explorer Settings Paint ImageViewer.

Declare Scope int_scope.
Delimit Scope int_scope with int.
Notation "a ⊞ b" := (i32 (a + b)) (at level 50, left associativity) : int_scope.
Notation "a ⊟ b" := (i32 (a - b)) (at level 50, left associativity) : int_scope.
Open Scope int_scope.

Definition TITLE_BAR_HEIGHT : Z := 32.
Definition TASKBAR_HEIGHT : Z := 48.
Definition WINDOW_RADIUS : Z := 8.
Definition TITLE_BTN_W : Z := 40.
Definition TITLE_BTN_H : Z := 28.
Definition TITLE_BTN_GAP : Z := 2.
Definition TITLE_BTN_MARGIN_RIGHT : Z := 6.
Definition RESIZE_GRIP_SIZE : Z := 12.
Definition MIN_COLS : Z := 20.
Definition MIN_ROWS : Z := 5.
Definition MAX_TERMINAL_COLS : Z := 100.
Definition MAX_TERMINAL_ROWS : Z := 30.
Definition MAX_EDITOR_COLS : Z := 100.
Definition MAX_EDITOR_ROWS : Z := 20.
Definition START_BTN_W : Z := 40.
Definition START_BTN_H : Z := 36.
Definition TASKBAR_GAP : Z := 4.
Definition TASKBAR_PAD : Z := 12.
Definition LAUNCHER_W : Z := 408.
Definition LAUNCHER_COLS : Z := 4.
Definition LAUNCHER_TILE_W : Z := 92.
Definition LAUNCHER_TILE_H : Z := 84.
Definition LAUNCHER_ICON : Z := 56.
Definition LAUNCHER_TILES_Y : Z := 64.
Definition CONSOLE_FG : Z := 0x00E6E6E6.
Definition CONSOLE_BG : Z := 0x00202020.

(** ** Applications *)
Inductive LauncherAction :=
| LaunchTerminal | LaunchCalculator | LaunchFiles | LaunchNotepad | LaunchSysInfo | LaunchSettings
| LaunchPaint | LaunchImageViewer | RunElf (path : str).
(** In the order of the source, which numbers them. *)
Inductive AppId := AppTerminal | AppCalculator | AppNotepad | AppSysInfo | AppFiles | AppSettings | AppPaint | AppImageViewer.
Global Instance AppId_eq : EqDecision AppId.
Proof. solve_decision. Defined.
Definition APP_ID_COUNT : nat := 8.
(** [id as usize] *)
Definition index_of (id : AppId) : nat :=
  match id with
  | AppTerminal => 0 | AppCalculator => 1 | AppNotepad => 2 | AppSysInfo => 3
  | AppFiles => 4 | AppSettings => 5 | AppPaint => 6 | AppImageViewer => 7
  end.
Definition app_name (id : AppId) : str :=
  bytes_of match id with
  | AppTerminal => "terminal" | AppCalculator => "calculator" | AppNotepad => "notepad" | AppSysInfo => "sysinfo"
  | AppFiles => "files" | AppSettings => "settings" | AppPaint => "paint" | AppImageViewer => "imageviewer"
  end.
Definition all_apps : list AppId :=
  [AppTerminal; AppCalculator; AppNotepad; AppSysInfo; AppFiles; AppSettings; AppPaint; AppImageViewer].
Definition from_name (name : str) : option AppId := find (fun id => bool_decide (app_name id = name)) all_apps.
Definition from_index (index : nat) : option AppId := all_apps !! index.
Definition builtin_action (id : AppId) : LauncherAction :=
  match id with
  | AppTerminal => LaunchTerminal | AppCalculator => LaunchCalculator | AppNotepad => LaunchNotepad
  | AppSysInfo => LaunchSysInfo | AppFiles => LaunchFiles | AppSettings => LaunchSettings
  | AppPaint => LaunchPaint | AppImageViewer => LaunchImageViewer
  end.
Record RememberedWindow := mk_remembered { r_x : Z; r_y : Z; r_cols : Z; r_rows : Z; r_maximized : bool }.

(** ** Windows *)
Inductive AppKind :=
| Terminal (console : Console) (editor : LineEditor)
| SysInfo (console : Console)
| EditorWindow (e : Editor)
| Calculator (app : CalcWindow)
| FileExplorer (app : Explorer.FileExplorer)
| SettingsWindow (app : SettingsApp)
| Paint (app : PaintApp)
| ImageViewer (app : ImageViewerApp).
Record Window := mk_window {
  title : str; at_x : Z; at_y : Z; open : bool; minimized : bool; maximized : bool; resizable : bool;
  app_id : option AppId; restore_geometry : option (Z * Z * Z * Z); kind : AppKind }.
Definition move_to (x y : Z) (w : Window) : Window :=
  mk_window (title w) x y (open w) (minimized w) (maximized w) (resizable w) (app_id w) (restore_geometry w) (kind w).
Definition with_open (b : bool) (w : Window) : Window :=
  mk_window (title w) (at_x w) (at_y w) b (minimized w) (maximized w) (resizable w) (app_id w) (restore_geometry w) (kind w).
Definition with_minimized (b : bool) (w : Window) : Window :=
  mk_window (title w) (at_x w) (at_y w) (open w) b (maximized w) (resizable w) (app_id w) (restore_geometry w) (kind w).
Definition with_maximized (b : bool) (g : option (Z * Z * Z * Z)) (w : Window) : Window :=
  mk_window (title w) (at_x w) (at_y w) (open w) (minimized w) b (resizable w) (app_id w) g (kind w).
Definition with_kind (k : AppKind) (w : Window) : Window :=
  mk_window (title w) (at_x w) (at_y w) (open w) (minimized w) (maximized w) (resizable w) (app_id w) (restore_geometry w) k.
Definition shown (w : Window) : bool := open w && negb (minimized w).
(** The console of the console-backed kinds. *)
Definition console_of (k : AppKind) : option Console :=
  match k with Terminal c _ | SysInfo c => Some c | EditorWindow e => Some (Editor.console e) | _ => None end.

Section geometry.
Variable fscale : Z.
Definition content_size (w : Window) : Z * Z :=
  match kind w with
  | Terminal c _ | SysInfo c => (width_px fscale c, height_px fscale c)
  | EditorWindow e => (width_px fscale (Editor.console e), height_px fscale (Editor.console e))
  | Calculator a => (CalcWindow.app_width a, CalcWindow.app_height a)
  | FileExplorer a => (Explorer.app_width a, Explorer.app_height a)
  | SettingsWindow a => (Settings.app_width a, Settings.app_height fscale a)
  | Paint a => (Paint.app_width a, Paint.app_height a)
  | ImageViewer a => (ImageViewer.app_width a, ImageViewer.app_height a)
  end.
Definition content_pixels (w : Window) : list Z :=
  match kind w with
  | Terminal c _ | SysInfo c => Console.pixels c
  | EditorWindow e => Console.pixels (Editor.console e)
  | Calculator a => CalcWindow.pixels a
  | FileExplorer a => Explorer.pixels a
  | SettingsWindow a => Settings.pixels a
  | Paint a => Paint.pixels a
  | ImageViewer a => ImageViewer.pixels a
  end.
Definition cols_rows (w : Window) : Z * Z :=
  match console_of (kind w) with Some c => (Console.cols c, Console.rows c) | None => (0, 0) end.
Definition fit_console_cells (screen_w screen_h max_cols max_rows : Z) : Z * Z :=
  let avail_w := saturating_sub (u32 (screen_w * 3) / 4) 40 / u32 (glyph_w fscale) in
  let avail_h := saturating_sub screen_h (TASKBAR_HEIGHT + 80) / u32 (glyph_h fscale) in
  (Z.max MIN_COLS (Z.min max_cols avail_w), Z.max MIN_ROWS (Z.min max_rows avail_h)).
Definition icon_size (base : Z) : Z := u32 (base + u32 (u32 (fscale - 1) * 8)).
Definition taskbar_label_width (title : str) : Z :=
  i32 (u32 (u32 (icon_size 16 + 6 + u32 (len_utf8 title * u32 (glyph_w fscale))) + 20)).
(** The positions of the minimize, maximize and close buttons of a title bar. *)
Definition title_button_positions (wx content_w : Z) (resizable : bool) : Z * option Z * Z :=
  let close_x := i32 (wx + content_w - TITLE_BTN_W - TITLE_BTN_MARGIN_RIGHT) in
  let maximize_x := if resizable then Some (i32 (close_x - TITLE_BTN_W - TITLE_BTN_GAP)) else None in
  let minimize_x := i32 (default close_x maximize_x - TITLE_BTN_W - TITLE_BTN_GAP) in
  (minimize_x, maximize_x, close_x).
(** [x >= rx && x < rx + w && y >= ry && y < ry + h], as the hit tests have it. *)
Definition hit (x y rx ry w h : Z) : bool := (rx <=? x) && (x <? rx ⊞ w) && (ry <=? y) && (y <? ry ⊞ h).
Definition in_content (w : Window) (x y : Z) : bool :=
  let '(cw, ch) := content_size w in
  (at_x w <=? x) && (x <? at_x w ⊞ cw) && (at_y w ⊞ TITLE_BAR_HEIGHT <=? y) && (y <? at_y w ⊞ TITLE_BAR_HEIGHT ⊞ ch).
Definition in_title (w : Window) (x y : Z) : bool := hit x y (at_x w) (at_y w) (content_size w).1 TITLE_BAR_HEIGHT.
Definition in_grip (w : Window) (x y : Z) : bool :=
  let '(cw, ch) := content_size w in
  hit x y (i32 (at_x w + cw - RESIZE_GRIP_SIZE)) (i32 (at_y w + TITLE_BAR_HEIGHT + ch - RESIZE_GRIP_SIZE)) RESIZE_GRIP_SIZE RESIZE_GRIP_SIZE.
End geometry.

Definition content_cursor (x y w h : Z) : Z * Z :=
  if (0 <=? x) && (0 <=? y) && (x <? w) && (y <? h) then (x, y) else (I32_MAX, I32_MAX).
Definition truncate_label (label : str) (max_chars : nat) : str :=
  if decide (max_chars < length label)%nat then take (max_chars - 1) label ++ bytes_of ".." else label.
(** [path.rsplit('/').next()] *)
Definition file_part (path : str) : str := List.last (split_on (Z.eqb 47) path) [].
