(* ===== verification/Chrome.v ===== *)
(** * What the window manager draws

    The drawing routines of [wm.rs] that are handed a surface: icons, the frame of
    a window, the pointer and the tag of a dragged file. *)
From stdpp Require Import list_numbers.
From S2P Require Import Prelude Bytes Text Fat Font Gfx Draw Diagonal Window.

Definition DESKTOP_BG_TOP : Z := 0x000F2E5F.
Definition DESKTOP_BG_BOTTOM : Z := 0x00061630.
Definition WIN_BG : Z := 0x00202020.
Definition WIN_BORDER : Z := 0x002B2B2B.
Definition WIN_BORDER_FOCUSED : Z := 0x004A4A4A.
Definition TITLE_TEXT : Z := 0x00FFFFFF.
Definition TITLE_TEXT_UNFOCUSED : Z := 0x008A8A8A.
Definition TITLE_DIVIDER : Z := 0x002A2A2A.
Definition BTN_HOVER : Z := 0x002C2C2C.
Definition BTN_CLOSE_HOVER : Z := 0x00C42B1C.
Definition BTN_GLYPH : Z := 0x00FFFFFF.
Definition BTN_GLYPH_DIM : Z := 0x009A9A9A.
Definition RESIZE_GRIP_COLOR : Z := 0x004A4A4A.
Definition CURSOR_SAVE_W : Z := 14.
Definition CURSOR_SAVE_H : Z := 20.
Definition CURSOR_SAVE_MARGIN : Z := 2.
Definition CURSOR_W : Z := 10.
Definition CURSOR_BITS : list Z :=
  [0x200; 0x300; 0x380; 0x3C0; 0x3E0; 0x3F0; 0x3F8; 0x3FC; 0x3FE; 0x3E0; 0x3B0; 0x330; 0x218; 0x018; 0x00C; 0x00C].

Definition app_icon_color (k : AppKind) : Z :=
  match k with
  | Terminal _ _ => 0x002D7D46 | Calculator _ => 0x004A6EE0 | FileExplorer _ => 0x00E8A33D | EditorWindow _ => 0x000078D4
  | Paint _ => 0x00C5423B | ImageViewer _ => 0x007B5CD6 | SysInfo _ => 0x003E5C76 | SettingsWindow _ => 0x005C6BC0
  end.
Definition launcher_icon_color (label : str) : Z :=
  let starts p := LineEdit.starts_with (bytes_of p) label in
  if starts "Terminal" then 0x002D7D46
  else if starts "Calculator" then 0x004A6EE0
  else if starts "File Explorer" then 0x00E8A33D
  else if starts "Notepad" then 0x000078D4
  else if starts "Paint" then 0x00C5423B
  else if starts "Image Viewer" then 0x007B5CD6
  else if starts "System Info" then 0x003E5C76
  else if starts "Settings" then 0x005C6BC0
  else 0x004A4A4A.
Definition enumerate {A} (l : list A) : list (Z * A) := zip (range 0 (Z.of_nat (length l))) l.

Section chrome.
Context {T : Type} {surf : Surface T}.
Variable fscale : Z.
Definition gw32 : Z := u32 (glyph_w fscale).
Definition gh32 : Z := u32 (glyph_h fscale).
(** [label.bytes().next().unwrap_or(b'?')] *)
Definition first_letter (label : str) : Z := default 63 (head (as_bytes label)).
Definition draw_app_icon (x y size : Z) (k : AppKind) (title : str) : ST T unit :=
  fill_rounded_rect x y size size (size / 4) (app_icon_color k);;
  let lx := u32 (x + u32 (size - gw32) / 2) in
  let ly := u32 (y + u32 (size - gh32) / 2) in
  draw_char fscale lx ly (first_letter title) 0x00FFFFFF None.
Definition draw_close_icon (x y s color : Z) : ST T unit :=
  draw_diagonal x y (u32 (x + s - 1)) (u32 (y + s - 1)) color;;
  draw_diagonal (u32 (x + s - 1)) y x (u32 (y + s - 1)) color.
Definition draw_minimize_icon (x y s color : Z) : ST T unit := fill_rect x (u32 (y + s - 1)) s 2 color.
Definition draw_maximize_icon (x y s color : Z) : ST T unit :=
  fill_rect x y s 2 color;;
  fill_rect x y 2 s color;;
  fill_rect (u32 (x + s - 2)) y 2 s color;;
  fill_rect x (u32 (y + s - 2)) s 2 color.
Definition draw_restore_icon (x y s color : Z) : ST T unit :=
  fill_rect (u32 (x + 3)) y s 2 color;;
  fill_rect (u32 (x + 3)) y 2 s color;;
  fill_rect (u32 (x + 3)) (u32 (y + s - 2)) s 2 color;;
  let ox := x in let oy := u32 (y + 3) in
  fill_rect ox oy (u32 (s - 3)) 2 color;;
  fill_rect ox oy 2 (u32 (s - 3)) color;;
  fill_rect (u32 (ox + s - 3 - 2)) oy 2 (u32 (s - 3)) color;;
  fill_rect ox (u32 (oy + s - 3 - 2)) (u32 (s - 3)) 2 color.
Definition draw_title_button (x y : Z) (hovered close : bool) : ST T unit :=
  if hovered then fill_rounded_rect x y TITLE_BTN_W TITLE_BTN_H 4 (if close then BTN_CLOSE_HOVER else BTN_HOVER) else mret tt.
Definition grip_lines : list (Z * Z * Z * Z) := [
  (0, 11, 11, 0); (2, 11, 11, 2); (0, 9, 9, 0); (4, 11, 11, 4); (0, 7, 7, 0); (0, 1, 1, 0); (10, 11, 11, 10)].
Definition draw_grip (gx gy : Z) : ST T unit :=
  fill_rounded_rect gx gy RESIZE_GRIP_SIZE RESIZE_GRIP_SIZE 3 0x00141414;;
  for_in grip_lines (fun '(x0, y0, x1, y1) =>
    draw_diagonal (u32 (gx + x0)) (u32 (gy + y0)) (u32 (gx + x1)) (u32 (gy + y1)) RESIZE_GRIP_COLOR).

Definition draw_frame (w : Window) (focused : bool) : ST T unit :=
  let '(content_w, content_h) := content_size fscale w in
  let x := u32 (at_x w) in
  let y := u32 (at_y w) in
  let total_h := u32 (TITLE_BAR_HEIGHT + content_h) in
  if maximized w then fill_rect x y content_w total_h WIN_BG
  else
    draw_window_shadow x y content_w total_h WINDOW_RADIUS;;
    let border_color := if focused then WIN_BORDER_FOCUSED else WIN_BORDER in
    fill_rounded_rect (u32 (x - 1)) (u32 (y - 1)) (u32 (content_w + 2)) (u32 (total_h + 2)) (WINDOW_RADIUS + 1) border_color;;
    fill_rounded_rect x y content_w total_h WINDOW_RADIUS WIN_BG.
Definition draw_title (w : Window) (focused : bool) : ST T unit :=
  let content_w := (content_size fscale w).1 in
  let x := u32 (at_x w) in
  let y := u32 (at_y w) in
  let title_color := if focused then TITLE_TEXT else TITLE_TEXT_UNFOCUSED in
  let ty := u32 (y + u32 (TITLE_BAR_HEIGHT - gh32) / 2) in
  let icon := icon_size fscale 16 in
  draw_app_icon (u32 (x + 8)) (u32 (y + u32 (TITLE_BAR_HEIGHT - icon) / 2)) icon (kind w) (title w);;
  draw_string fscale (u32 (x + 8 + icon + 6)) ty (as_bytes (title w)) title_color None;;
  fill_rect x (u32 (y + TITLE_BAR_HEIGHT - 1)) content_w 1 TITLE_DIVIDER.
Definition draw_buttons (w : Window) (focused : bool) (cursor_x cursor_y : Z) : ST T unit :=
  let '(minimize_x, maximize_x, close_x) := title_button_positions (at_x w) (content_size fscale w).1 (resizable w) in
  let button_y := u32 (u32 (at_y w) + 2) in
  let in_button_row := (i32 button_y <=? cursor_y) && (cursor_y <? i32 (u32 (button_y + TITLE_BTN_H))) in
  let over bx := in_button_row && (bx <=? cursor_x) && (cursor_x <? bx ⊞ TITLE_BTN_W) in
  let glyph_color := if focused then BTN_GLYPH else BTN_GLYPH_DIM in
  draw_title_button (u32 minimize_x) button_y (over minimize_x) false;;
  draw_minimize_icon (u32 (u32 minimize_x + 12)) (u32 (button_y + 8)) 16 glyph_color;;
  (match maximize_x with
   | Some max_x =>
       draw_title_button (u32 max_x) button_y (over max_x) false;;
       let icon_x := u32 (u32 max_x + 14) in
       if maximized w then draw_restore_icon icon_x (u32 (button_y + 8)) 12 glyph_color
       else draw_maximize_icon icon_x (u32 (button_y + 8)) 12 glyph_color
   | None => mret tt
   end);;
  draw_title_button (u32 close_x) button_y (over close_x) true;;
  draw_close_icon (u32 (u32 close_x + 14)) (u32 (button_y + 9)) 12 glyph_color.
Definition draw_window (w : Window) (focused : bool) (cursor_x cursor_y : Z) : ST T unit :=
  let '(content_w, content_h) := content_size fscale w in
  let x := u32 (at_x w) in
  let y := u32 (at_y w) in
  draw_frame w focused;;
  draw_title w focused;;
  draw_buttons w focused cursor_x cursor_y;;
  blit_rounded x (u32 (y + TITLE_BAR_HEIGHT)) (content_pixels w) content_w content_h WINDOW_RADIUS;;
  if resizable w && negb (maximized w) then
    draw_grip (u32 (x + content_w - RESIZE_GRIP_SIZE)) (u32 (y + TITLE_BAR_HEIGHT + content_h - RESIZE_GRIP_SIZE))
  else mret tt.

(** ** The pointer *)
Definition paint_cursor_shape (x y color : Z) : ST T unit :=
  for_in (enumerate CURSOR_BITS) (fun '(row, bits) =>
    for_in (range 0 CURSOR_W) (fun col =>
      if is_set bits (Z.shiftl 1 (CURSOR_W - 1 - col)) then
        let px := x ⊞ col in
        let py := y ⊞ row in
        if (0 <=? px) && (0 <=? py) then put_pixel (u32 px) (u32 py) color else mret tt
      else mret tt)).
Definition outline : list (Z * Z) := [(-1, -1); (0, -1); (1, -1); (-1, 0); (1, 0); (-1, 1); (0, 1); (1, 1)].
Definition draw_cursor (x y : Z) : ST T unit :=
  for_in outline (fun '(dx, dy) => paint_cursor_shape (x ⊞ dx) (y ⊞ dy) 0x00000000);;
  paint_cursor_shape x y 0x00FFFFFF.
Definition draw_file_drag_tag (cursor_x cursor_y : Z) (path : str) (is_dir : bool) : ST T unit :=
  let name := file_part path in
  let max_chars := 24%nat in
  let label := if decide (max_chars < length name)%nat then take (max_chars - 2) name ++ bytes_of ".." else name in
  let tag_w := Z.min (u32 (u32 (len_utf8 label * gw32) + 30)) 260 in
  let tag_h := 20 in
  let x := u32 (Z.max (cursor_x ⊞ 14) 0) in
  let y := u32 (Z.max (cursor_y ⊞ 16) 0) in
  fill_rounded_rect (u32 (x + 2)) (u32 (y + 2)) tag_w tag_h 5 0x00070C12;;
  fill_rounded_rect x y tag_w tag_h 5 0x002B3A49;;
  fill_rect x y tag_w 1 0x006FB1E8;;
  fill_rect (u32 (x + 6)) (u32 (y + 6)) 10 8 (if is_dir then 0x00F0C070 else 0x00BBC8D4);;
  draw_string fscale (u32 (x + 22)) (u32 (y + 6)) (as_bytes label) 0x00FFFFFF None.
End chrome.
