(* ===== verification/Wm.v ===== *)
(** * The window manager's state, [wm.rs]

    The windows from back to front, the focus, what the mouse is dragging, and the
    geometry operations that need nothing but this state.  An operation on the
    whole desktop also reads and writes the kernel ([Shell]), the frame buffer and
    the font scale. *)
From stdpp Require Import list_numbers.
From S2P Require Import Prelude Bytes Text Disk Rtc Fat Ata Keyboard Mouse Multiboot Spawn Cpuid Font Gfx Draw Session Shell Fb Console LineEdit Editor Settings Window.

Record DragState := mk_drag_state { d_window : nat; offset_x : Z; offset_y : Z }.
Record ResizeState := mk_resize { rs_window : nat; last_cols : Z; last_rows : Z }.
Record FileDragState := mk_file_drag { source_window : nat; fd_path : str; fd_is_dir : bool }.
Record PressState := mk_press { p_window : nat; p_item : Z; screen_x : Z; screen_y : Z }.
Record WindowManager := mk_wm {
  windows : list Window; focused : nat; cursor_x : Z; cursor_y : Z; screen_w : Z; screen_h : Z;
  dragging : option DragState; resizing : option ResizeState; file_drag : option FileDragState;
  press_state : option PressState; left_was_down : bool; last_clock_secs : Z; launcher_open : bool;
  launcher_items : list (str * LauncherAction); spawn_counter : Z; remembered : list (option RememberedWindow);
  wallpaper : option (list Z); settings : Settings; clock_cache : Z * str; cursor_save : option (Z * Z * list Z) }.
Definition set_windows (v : list Window) (m : WindowManager) : WindowManager :=
  mk_wm v (focused m) (cursor_x m) (cursor_y m) (screen_w m) (screen_h m) (dragging m) (resizing m) (file_drag m)
    (press_state m) (left_was_down m) (last_clock_secs m) (launcher_open m) (launcher_items m) (spawn_counter m)
    (remembered m) (wallpaper m) (settings m) (clock_cache m) (cursor_save m).
Definition set_pointer (x y : Z) (m : WindowManager) : WindowManager :=
  mk_wm (windows m) (focused m) x y (screen_w m) (screen_h m) (dragging m) (resizing m) (file_drag m) (press_state m)
    (left_was_down m) (last_clock_secs m) (launcher_open m) (launcher_items m) (spawn_counter m) (remembered m)
    (wallpaper m) (settings m) (clock_cache m) (cursor_save m).
Definition set_screen (w h : Z) (m : WindowManager) : WindowManager :=
  mk_wm (windows m) (focused m) (cursor_x m) (cursor_y m) w h (dragging m) (resizing m) (file_drag m) (press_state m)
    (left_was_down m) (last_clock_secs m) (launcher_open m) (launcher_items m) (spawn_counter m) (remembered m)
    (wallpaper m) (settings m) (clock_cache m) (cursor_save m).
Definition set_focused (v : nat) (m : WindowManager) : WindowManager :=
  mk_wm (windows m) v (cursor_x m) (cursor_y m) (screen_w m) (screen_h m) (dragging m) (resizing m) (file_drag m)
    (press_state m) (left_was_down m) (last_clock_secs m) (launcher_open m) (launcher_items m) (spawn_counter m)
    (remembered m) (wallpaper m) (settings m) (clock_cache m) (cursor_save m).
Definition set_dragging (v : option DragState) (m : WindowManager) : WindowManager :=
  mk_wm (windows m) (focused m) (cursor_x m) (cursor_y m) (screen_w m) (screen_h m) v (resizing m) (file_drag m)
    (press_state m) (left_was_down m) (last_clock_secs m) (launcher_open m) (launcher_items m) (spawn_counter m)
    (remembered m) (wallpaper m) (settings m) (clock_cache m) (cursor_save m).
Definition set_resizing (v : option ResizeState) (m : WindowManager) : WindowManager :=
  mk_wm (windows m) (focused m) (cursor_x m) (cursor_y m) (screen_w m) (screen_h m) (dragging m) v (file_drag m)
    (press_state m) (left_was_down m) (last_clock_secs m) (launcher_open m) (launcher_items m) (spawn_counter m)
    (remembered m) (wallpaper m) (settings m) (clock_cache m) (cursor_save m).
Definition set_file_drag (v : option FileDragState) (m : WindowManager) : WindowManager :=
  mk_wm (windows m) (focused m) (cursor_x m) (cursor_y m) (screen_w m) (screen_h m) (dragging m) (resizing m) v
    (press_state m) (left_was_down m) (last_clock_secs m) (launcher_open m) (launcher_items m) (spawn_counter m)
    (remembered m) (wallpaper m) (settings m) (clock_cache m) (cursor_save m).
Definition set_press_state (v : option PressState) (m : WindowManager) : WindowManager :=
  mk_wm (windows m) (focused m) (cursor_x m) (cursor_y m) (screen_w m) (screen_h m) (dragging m) (resizing m)
    (file_drag m) v (left_was_down m) (last_clock_secs m) (launcher_open m) (launcher_items m) (spawn_counter m)
    (remembered m) (wallpaper m) (settings m) (clock_cache m) (cursor_save m).
Definition set_left_was_down (v : bool) (m : WindowManager) : WindowManager :=
  mk_wm (windows m) (focused m) (cursor_x m) (cursor_y m) (screen_w m) (screen_h m) (dragging m) (resizing m)
    (file_drag m) (press_state m) v (last_clock_secs m) (launcher_open m) (launcher_items m) (spawn_counter m)
    (remembered m) (wallpaper m) (settings m) (clock_cache m) (cursor_save m).
Definition set_last_clock_secs (v : Z) (m : WindowManager) : WindowManager :=
  mk_wm (windows m) (focused m) (cursor_x m) (cursor_y m) (screen_w m) (screen_h m) (dragging m) (resizing m)
    (file_drag m) (press_state m) (left_was_down m) v (launcher_open m) (launcher_items m) (spawn_counter m)
    (remembered m) (wallpaper m) (settings m) (clock_cache m) (cursor_save m).
Definition set_launcher_open (v : bool) (m : WindowManager) : WindowManager :=
  mk_wm (windows m) (focused m) (cursor_x m) (cursor_y m) (screen_w m) (screen_h m) (dragging m) (resizing m)
    (file_drag m) (press_state m) (left_was_down m) (last_clock_secs m) v (launcher_items m) (spawn_counter m)
    (remembered m) (wallpaper m) (settings m) (clock_cache m) (cursor_save m).
Definition set_launcher_items (v : list (str * LauncherAction)) (m : WindowManager) : WindowManager :=
  mk_wm (windows m) (focused m) (cursor_x m) (cursor_y m) (screen_w m) (screen_h m) (dragging m) (resizing m)
    (file_drag m) (press_state m) (left_was_down m) (last_clock_secs m) (launcher_open m) v (spawn_counter m)
    (remembered m) (wallpaper m) (settings m) (clock_cache m) (cursor_save m).
Definition set_spawn_counter (v : Z) (m : WindowManager) : WindowManager :=
  mk_wm (windows m) (focused m) (cursor_x m) (cursor_y m) (screen_w m) (screen_h m) (dragging m) (resizing m)
    (file_drag m) (press_state m) (left_was_down m) (last_clock_secs m) (launcher_open m) (launcher_items m) v
    (remembered m) (wallpaper m) (settings m) (clock_cache m) (cursor_save m).
Definition set_remembered (v : list (option RememberedWindow)) (m : WindowManager) : WindowManager :=
  mk_wm (windows m) (focused m) (cursor_x m) (cursor_y m) (screen_w m) (screen_h m) (dragging m) (resizing m)
    (file_drag m) (press_state m) (left_was_down m) (last_clock_secs m) (launcher_open m) (launcher_items m)
    (spawn_counter m) v (wallpaper m) (settings m) (clock_cache m) (cursor_save m).
Definition set_wallpaper (v : option (list Z)) (m : WindowManager) : WindowManager :=
  mk_wm (windows m) (focused m) (cursor_x m) (cursor_y m) (screen_w m) (screen_h m) (dragging m) (resizing m)
    (file_drag m) (press_state m) (left_was_down m) (last_clock_secs m) (launcher_open m) (launcher_items m)
    (spawn_counter m) (remembered m) v (settings m) (clock_cache m) (cursor_save m).
Definition set_settings (v : Settings) (m : WindowManager) : WindowManager :=
  mk_wm (windows m) (focused m) (cursor_x m) (cursor_y m) (screen_w m) (screen_h m) (dragging m) (resizing m)
    (file_drag m) (press_state m) (left_was_down m) (last_clock_secs m) (launcher_open m) (launcher_items m)
    (spawn_counter m) (remembered m) (wallpaper m) v (clock_cache m) (cursor_save m).
Definition set_clock_cache (v : Z * str) (m : WindowManager) : WindowManager :=
  mk_wm (windows m) (focused m) (cursor_x m) (cursor_y m) (screen_w m) (screen_h m) (dragging m) (resizing m)
    (file_drag m) (press_state m) (left_was_down m) (last_clock_secs m) (launcher_open m) (launcher_items m)
    (spawn_counter m) (remembered m) (wallpaper m) (settings m) v (cursor_save m).
Definition set_cursor_save (v : option (Z * Z * list Z)) (m : WindowManager) : WindowManager :=
  mk_wm (windows m) (focused m) (cursor_x m) (cursor_y m) (screen_w m) (screen_h m) (dragging m) (resizing m)
    (file_drag m) (press_state m) (left_was_down m) (last_clock_secs m) (launcher_open m) (launcher_items m)
    (spawn_counter m) (remembered m) (wallpaper m) (settings m) (clock_cache m) v.

(** ** Geometry *)
Section geometry.
Variable fscale : Z.
Definition max_content_cells (m : WindowManager) : Z * Z :=
  let max_h := u32 (screen_h m - TASKBAR_HEIGHT - TITLE_BAR_HEIGHT) in
  (screen_w m / u32 (glyph_w fscale), max_h / u32 (glyph_h fscale)).
(** The start button's x, then a window's index, x and width for each button. *)
Definition label_buttons (m : WindowManager) : list (nat * Z) :=
  omap (fun '(i, w) => if open w : bool then Some (i, taskbar_label_width fscale (title w)) else None) (imap pair (windows m)).
Fixpoint place_buttons (x : Z) (bs : list (nat * Z)) : list (nat * Z * Z) :=
  match bs with
  | [] => []
  | (i, w) :: bs => (i, x, w) :: place_buttons (i32 (x + i32 (w + TASKBAR_GAP))) bs
  end.
Definition taskbar_layout (m : WindowManager) : Z * list (nat * Z * Z) :=
  (TASKBAR_PAD, place_buttons (TASKBAR_PAD + START_BTN_W + TASKBAR_GAP) (label_buttons m)).
Definition start_button_hit (m : WindowManager) : bool :=
  let y := i32 (screen_h m - TASKBAR_HEIGHT) in
  hit (cursor_x m) (cursor_y m) (taskbar_layout m).1 (y ⊞ 6) START_BTN_W START_BTN_H.
End geometry.
Definition drag_bounds (m : WindowManager) : Z * Z :=
  (i32 (screen_w m - 40), i32 (screen_h m - TASKBAR_HEIGHT - TITLE_BAR_HEIGHT)).
Definition next_spawn_position (m : WindowManager) : Z * Z * WindowManager :=
  let c := u32 (spawn_counter m + 1) in
  let offset := Z.rem (i32 (i32 c * 28)) 320 in
  (Z.min (140 + offset) (i32 (screen_w m - 260)), Z.min (100 + offset) (i32 (screen_h m - TASKBAR_HEIGHT - 260)),
   set_spawn_counter c m).
(** [i32::abs] and [i32::clamp] between 0 and a bound that is not negative *)
Definition iabs (v : Z) : Z := i32 (Z.abs v).
Definition clamp0 (v hi : Z) : Z := Z.max 0 (Z.min v hi).
Definition collides (m : WindowManager) (x y : Z) : bool :=
  existsb (fun w => shown w && (iabs (at_x w ⊟ x) <? 24) && (iabs (at_y w ⊟ y) <? 24)) (windows m).
Fixpoint nudge (rounds : nat) (m : WindowManager) (x y : Z) : Z * Z :=
  match rounds with
  | O => (x, y)
  | S rounds =>
      let max_x := i32 (screen_w m - 260) in
      let max_y := i32 (screen_h m - TASKBAR_HEIGHT - 260) in
      if collides m x y then nudge rounds m (clamp0 (x ⊞ 28) (Z.max max_x 0)) (clamp0 (y ⊞ 28) (Z.max max_y 0)) else (x, y)
  end.
Definition avoid_overlap (m : WindowManager) (x y : Z) : Z * Z := nudge 20 m x y.
Definition launcher_popup_rect (m : WindowManager) : Z * Z * Z * Z :=
  let rows := (Z.max (Z.of_nat (length (launcher_items m))) 1 + LAUNCHER_COLS - 1) / LAUNCHER_COLS in
  let popup_h := u32 (LAUNCHER_TILES_Y + u32 rows * LAUNCHER_TILE_H + 10) in
  let popup_y := i32 (screen_h m - TASKBAR_HEIGHT - popup_h - 10) in
  (TASKBAR_PAD, popup_y, LAUNCHER_W, popup_h).
Definition launcher_hit_test (m : WindowManager) : option nat :=
  let '(px, py, pw, ph) := launcher_popup_rect m in
  if negb (hit (cursor_x m) (cursor_y m) px py pw ph) then None
  else
    let base_x := px ⊞ 20 in
    let base_y := py ⊞ LAUNCHER_TILES_Y in
    find (fun i =>
      let col := Z.of_nat i mod LAUNCHER_COLS in
      let row := Z.of_nat i / LAUNCHER_COLS in
      hit (cursor_x m) (cursor_y m) (i32 (base_x + col * LAUNCHER_TILE_W)) (i32 (base_y + row * LAUNCHER_TILE_H))
        LAUNCHER_TILE_W LAUNCHER_TILE_H) (seq 0 (length (launcher_items m))).

(** ** Stacking and focus; [None] is an index out of range *)
Definition raise (index : nat) (m : WindowManager) : option WindowManager :=
  w ← windows m !! index;
  let ws := delete index (windows m) ++ [w] in
  Some (set_focused (length ws - 1) (set_windows ws m)).
(** [iter().rposition(..)] *)
Fixpoint rposition {A} (p : A -> bool) (l : list A) : option nat :=
  match l with
  | [] => None
  | x :: l => match rposition p l with Some i => Some (S i) | None => if p x then Some O else None end
  end.
Definition refocus_after_hide (hidden_index : nat) (m : WindowManager) : WindowManager :=
  if decide (focused m = hidden_index) then set_focused (default O (rposition shown (windows m))) m else m.
Definition remember_geometry (index : nat) (m : WindowManager) : option WindowManager :=
  w ← windows m !! index;
  match app_id w with
  | None => Some m
  | Some id =>
      let r :=
        if maximized w then '(x, y, cols, rows) ← restore_geometry w; Some (mk_remembered x y cols rows true)
        else let '(cols, rows) := cols_rows w in Some (mk_remembered (at_x w) (at_y w) cols rows false) in
      match r with Some r => Some (set_remembered (<[index_of id := Some r]> (remembered m)) m) | None => Some m end
  end.

Section hover.
Variable fscale : Z.
Definition over_chrome (cx cy : Z) (w : Window) : bool :=
  shown w && (in_title fscale w cx cy ||
    (in_content fscale w cx cy && match kind w with FileExplorer _ | SettingsWindow _ => true | _ => false end)).
Definition cursor_over_hoverable_at (m : WindowManager) (cx cy : Z) : bool :=
  (i32 (u32 (screen_h m - TASKBAR_HEIGHT)) <=? cy) ||
  (launcher_open m && (let '(lx, ly, lw, lh) := launcher_popup_rect m in hit cx cy lx ly lw lh)) ||
  existsb (over_chrome cx cy) (windows m).
End hover.

(** ** The session *)
Definition session_window (m : WindowManager) (w : Window) : option SessionWindow :=
  if open w then
    id ← app_id w;
    let '(cols, rows) := cols_rows w in
    Some (MkSessionWindow (app_name id) (at_x w) (at_y w) cols rows (minimized w) (maximized w))
  else None.
Definition session_remembered (shown : list SessionWindow) (e : nat * option RememberedWindow) : option SessionWindow :=
  r ← e.2;
  id ← from_index e.1;
  if existsb (fun w => bool_decide (Session.app w = app_name id)) shown then None
  else Some (MkSessionWindow (app_name id) (r_x r) (r_y r) (r_cols r) (r_rows r) false (r_maximized r)).
Definition session_data (m : WindowManager) : SessionData :=
  let ws := omap (session_window m) (windows m) in
  MkSessionData ws (omap (session_remembered ws) (imap pair (remembered m))).
