(* ===== verification/Desktop.v ===== *)
(** * The desktop's operations, [wm.rs]

    The window manager on top of the kernel: what a window needs of the disk and
    of the shell, how windows are resized and maximised, and the session file. *)
From stdpp Require Import list_numbers.
From S2P Require Import Prelude Bytes Text PhysMem Disk Rtc Fat Ata Keyboard Mouse Multiboot Paging Task Spawn Cpuid Font Gfx Draw PixelBuffer Session LineEdit Shell Fb Terminal Console Editor Settings Window Wm.

(** What the hardware and the boot loader give, as in [Shell]. *)
Record Platform {D : Type} `{BlockDevice D} := mk_platform {
  rtc_now : D -> DateTime; heap : Z * Z; kernel_pml4 : Z; trampoline : Z; process_entry : Z;
  halt : ST (Shell (D := D)) unit; stack_base : Shell (D := D) -> Z;
  heap_total : Shell (D := D) -> Z; heap_allocated : Shell (D := D) -> Z; COUNTERS : Shell (D := D) -> list Z;
  now : Shell (D := D) -> DateTime; drives : list AtaDevice; cpuid : Z -> Z * Z * Z * Z; info_at : MultibootInfo }.
Arguments Platform D {_}.

(** The window manager, the kernel, the frame buffer, the font scale and the
    keyboard. *)
Record Desktop {D : Type} := mk_desktop {
  manager : WindowManager; kernel : Shell (D := D); display : fb; FONT_SCALE : Z; keys : keyboard }.
Arguments Desktop D : clear implicits.

Section desktop.
Context {D : Type} `{BlockDevice D} (P : Platform D).
Abbreviation DK := (ST (Desktop D)).
Abbreviation Volume := (option (Fat32 D)).

Definition set_manager (m : WindowManager) (d : Desktop D) : Desktop D := mk_desktop _ m (kernel d) (display d) (FONT_SCALE d) (keys d).
Definition set_kernel (k : Shell) (d : Desktop D) : Desktop D := mk_desktop _ (manager d) k (display d) (FONT_SCALE d) (keys d).
Definition set_display (b : fb) (d : Desktop D) : Desktop D := mk_desktop _ (manager d) (kernel d) b (FONT_SCALE d) (keys d).
Definition set_font (s : Z) (d : Desktop D) : Desktop D := mk_desktop _ (manager d) (kernel d) (display d) s (keys d).
Definition set_keys (k : keyboard) (d : Desktop D) : Desktop D := mk_desktop _ (manager d) (kernel d) (display d) (FONT_SCALE d) k.
Definition the {A} (f : WindowManager -> A) : DK A := fun d => Ret (f (manager d)) d.
Definition update (f : WindowManager -> WindowManager) : DK unit := modify (fun d => set_manager (f (manager d)) d).
Definition update_opt (f : WindowManager -> option WindowManager) : DK unit := fun d =>
  match f (manager d) with Some m => Ret tt (set_manager m d) | None => Panic end.
Definition font : DK Z := fun d => Ret (FONT_SCALE d) d.
Definition on_fb {A} (m : ST fb A) : DK A := fun d =>
  match m (display d) with Ret a b => Ret a (set_display b d) | Panic => Panic end.
Definition on_shell {A} (m : ST Shell A) : DK A := fun d =>
  match m (kernel d) with Ret a k => Ret a (set_kernel k d) | Panic => Panic end.
Definition on_disk {A} (m : ST Volume A) : DK A := on_shell (Shell.on_world (fun w =>
  match m (w_volume w) with Ret a v => Ret a (Shell.set_volume v w) | Panic => Panic end)).
Definition ticks : DK Z := on_shell Shell.ticks.
Definition prompt : DK str := fun d => Ret (LineEdit.prompt (CWD (kernel d))) d.
Definition load_settings : DK Settings := d ← get_st; on_disk (Settings.load (dimensions (display d))).

(** [self.windows[index]] *)
Definition window (index : nat) : DK Window := fun d => unwrap (windows (manager d) !! index) d.
Definition alter_window (index : nat) (f : Window -> Window) : DK unit :=
  w ← window index;
  update (fun m => set_windows (<[index := f w]> (windows m)) m).
Definition set_kind (index : nat) (k : AppKind) : DK unit := alter_window index (with_kind k).
(** An operation of an application that also uses the disk, or only its own state. *)
Definition run_app {X A} (m : ST (Volume * X) A) (a : X) : DK (A * X) :=
  on_disk (fun v => match m (v, a) with Ret r (v, a) => Ret (r, a) v | Panic => Panic end).
Definition run_own {X A} (m : ST X A) (a : X) : DK (A * X) := fun d =>
  match m a with Ret r a => Ret (r, a) d | Panic => Panic end.

(** ** Printing to a console: the sink of [print!] is the window's own *)
Definition print_to (s : str) (c : Console) : DK Console :=
  on_shell (Shell.print s);;
  f ← font;
  r ← run_own (Console.write_str f (as_bytes s)) c;
  mret r.2.
Definition show_output (f : Z) (o : output) : ST Console unit :=
  match o with
  | Text s => Console.write_str f (as_bytes s)
  | Cleared => Console.clear
  | Port _ _ | Trap _ => mret tt
  end.
(** [shell::execute], its output on the console *)
Definition execute (line : str) (c : Console) : DK (after * Console) := fun d =>
    match Shell.execute (rtc_now P) (heap P) (kernel_pml4 P) (trampoline P) (process_entry P) (halt P) (stack_base P)
            (heap_total P) (heap_allocated P) (COUNTERS P) (now P) (drives P) (cpuid P) (info_at P) line (kernel d) with
    | Ret r k =>
        match for_in (drop (length (out (kernel d))) (out k)) (show_output (FONT_SCALE d)) c with
        | Ret _ c => Ret (r, c) (set_kernel k d)
        | Panic => Panic
        end
    | Panic => Panic
    end.

(** ** The system information *)
Definition sysinfo_lines (k : Shell) (dims : Z * Z) : list str :=
  let m := ram (w_machine (sh_world k)) in
  let brand := match brand_string (cpuid P) with
               | Some b => [trim_end_matches is_whitespace (default [] (from_utf8 b))]
               | None => []
               end in
  let memory := match memory_lower_kb m (info_at P), memory_upper_kb m (info_at P) with
                | Some lower, Some upper => [bytes_of "memory: " ++ show (u32 (lower + upper)) ++ bytes_of " KiB"]
                | _, _ => []
                end in
  [bytes_of "MachaOS v0.1.0"; []; bytes_of "CPU: " ++ default (bytes_of "unknown") (from_utf8 (vendor_id (cpuid P)))] ++ brand ++
  [bytes_of "cores: " ++ show (cores (cpuid P)); []] ++ memory ++
  [bytes_of "heap: " ++ show (heap_allocated P k / 1024) ++ bytes_of " / " ++ show (heap_total P k / 1024) ++ bytes_of " KiB";
   bytes_of "display: " ++ show dims.1 ++ bytes_of "x" ++ show dims.2 ++ bytes_of "x32"].
Definition build_sysinfo_console : DK Console :=
  d ← get_st;
  f ← font;
  r ← run_own (for_in (sysinfo_lines (kernel d) (virtual_dimensions (display d))) (fun l => Console.write_str f (as_bytes (l ++ [10]))))
        (Console.new f 38 16 CONSOLE_FG CONSOLE_BG);
  mret r.2.

(** ** Sizes *)
Definition resize_window (index : nat) (cols rows : Z) : DK unit :=
  w ← window index;
  f ← font;
  match kind w with
  | Terminal c ed =>
      r ← run_own (Console.resize f cols rows) c;
      p ← prompt;
      c ← print_to (p ++ current_line ed) r.2;
      set_kind index (Terminal c ed)
  | EditorWindow e =>
      r ← run_own (Editor.on_console (Console.resize f cols rows);; editor_render f) e;
      set_kind index (EditorWindow r.2)
  | SysInfo _ =>
      c ← build_sysinfo_console;
      set_kind index (SysInfo c)
  | Calculator _ | FileExplorer _ | SettingsWindow _ | Paint _ | ImageViewer _ => mret tt
  end.
Definition maximize_window (index : nat) : DK unit :=
  w ← window index;
  if negb (resizable w) || maximized w then mret tt
  else
    let '(cols, rows) := cols_rows w in
    alter_window index (fun w => with_maximized true (Some (at_x w, at_y w, cols, rows)) (move_to 0 0 w));;
    f ← font;
    cells ← the (max_content_cells f);
    resize_window index cells.1 cells.2.
Definition unmaximize_window (index : nat) : DK unit :=
  w ← window index;
  if negb (maximized w) then mret tt
  else
    alter_window index (with_maximized false None);;
    match restore_geometry w with
    | Some (x, y, cols, rows) =>
        alter_window index (move_to x y);;
        resize_window index cols rows
    | None => mret tt
    end.

(** ** The session file *)
Definition persist_session : DK unit :=
  data ← the session_data;
  on_disk (save_to_disk (rtc_now P) data);;
  mret tt.
(** The application that is remembered where it was. *)
Definition recall (entry : SessionWindow) : DK unit :=
  match from_name (Session.app entry) with
  | None => mret tt
  | Some id =>
      update (fun m => set_remembered (<[index_of id := Some (mk_remembered (win_x entry) (win_y entry) (Session.cols entry)
        (Session.rows entry) (Session.maximized entry))]> (remembered m)) m)
  end.

(** ** The screen *)
(** [chunks_exact(4)] and [u32::from_le_bytes] *)
Fixpoint raw_bytes_to_pixels (bytes : list Z) : list Z :=
  match bytes with
  | b0 :: b1 :: b2 :: b3 :: bytes => le_combine [b0; b1; b2; b3] :: raw_bytes_to_pixels bytes
  | _ => []
  end.
Definition load_wallpaper (w h : Z) : DK (option (list Z)) :=
  is_mounted ← on_disk (fun v => Ret (mounted v) v);
  if negb is_mounted then mret None
  else
    r ← on_disk (read_file (bytes_of "/system/wallpaper.raw"));
    match r with
    | Err _ => mret None
    | Ok bytes =>
        let len := Z.of_nat (length bytes) in
        if len =? u64 (w * h * 4) then mret (Some (raw_bytes_to_pixels bytes))
        else
          phys ← on_fb (fun b => Ret (dimensions b) b);
          if len =? u64 (phys.1 * phys.2 * 4) then
            pixels ← unwrap (scale_bytes bytes phys.1 phys.2 w h);
            mret (Some pixels)
          else mret None
    end.
(** [i32::clamp] panics when the bounds are the wrong way round. *)
Definition clamp (v lo hi : Z) : DK Z := if lo <=? hi then mret (Z.max lo (Z.min v hi)) else panic.
Definition each_window (body : nat -> DK unit) : DK unit :=
  ws ← the windows;
  for_in (seq 0 (length ws)) body.
Definition screen_bounds (w h : Z) : Z * Z := (Z.max (i32 (w - 40)) 0, Z.max (i32 (h - TASKBAR_HEIGHT - TITLE_BAR_HEIGHT)) 0).
Definition apply_resolution (w h : Z) : DK unit :=
  changed ← on_fb (set_virtual_resolution w h);
  if negb changed then mret tt
  else
    update (set_screen w h);;
    update (set_wallpaper None);;
    pixels ← load_wallpaper w h;
    update (set_wallpaper pixels);;
    m ← the id;
    x ← clamp (cursor_x m) 0 (i32 (w - 1));
    y ← clamp (cursor_y m) 0 (i32 (h - 1));
    update (set_pointer x y);;
    let '(max_x, max_y) := screen_bounds w h in
    f ← font;
    cells ← the (max_content_cells f);
    each_window (fun i =>
      win ← window i;
      if shown win then
        alter_window i (move_to (clamp0 (at_x win) max_x) (clamp0 (at_y win) max_y));;
        if maximized win && negb (bool_decide (cols_rows win = cells)) then resize_window i cells.1 cells.2 else mret tt
      else mret tt);;
    s ← load_settings;
    update (set_settings s);;
    persist_session.
Definition apply_font_scale (scale : Z) : DK unit :=
  modify (set_font (set_scale scale));;
  m ← the id;
  let '(max_x, max_y) := screen_bounds (screen_w m) (screen_h m) in
  f ← font;
  cells ← the (max_content_cells f);
  let max_cols := Z.max cells.1 1 in
  let max_rows := Z.max cells.2 1 in
  each_window (fun i =>
    win ← window i;
    if negb (open win) then mret tt
    else
      alter_window i (move_to (clamp0 (at_x win) max_x) (clamp0 (at_y win) max_y));;
      let '(cols, rows) := cols_rows win in
      if cols =? 0 then mret tt
      else if maximized win then resize_window i max_cols max_rows
      else resize_window i (Z.max 1 (Z.min cols max_cols)) (Z.max 1 (Z.min rows max_rows)));;
  persist_session.
Definition clock_tick_due : DK bool :=
  t ← ticks;
  let secs := t / 100 in
  m ← the id;
  if secs =? last_clock_secs m then mret false else update (set_last_clock_secs secs);; mret true.
End desktop.
