(* ===== verification/Launch.v ===== *)
(** * Starting applications, [wm.rs]

    A new window takes the slot of a closed one, comes to the front and gets its
    application's remembered place; the start menu, the file explorer and the saved
    session open their windows through the routines below. *)
From stdpp Require Import list_numbers.
From S2P Require Import Prelude Bytes Text PhysMem Paging Disk Rtc Fat Ata Keyboard Mouse Spawn Font Gfx Draw Session LineEdit Shell Fb Console Editor CalcWindow Explorer Settings Paint ImageViewer Window Wm Desktop.

Section launch.
Context {D : Type} `{BlockDevice D} (P : Platform D).
Abbreviation DK := (ST (Desktop D)).

Definition free_slot (ws : list Window) : nat :=
  match list_find (fun w => open w = false) ws with Some (slot, _) => slot | None => length ws end.
Definition spawn_window (title : str) (resizable : bool) (app_id : option AppId) (kind : AppKind) : DK nat :=
  m ← the id;
  let remembered := (id ← app_id; mjoin (remembered m !! index_of id)) in
  '(base_x, base_y) ← (match remembered with
    | Some r => mret (r_x r, r_y r)
    | None =>
        let '(x, y, m) := next_spawn_position m in
        update (fun _ => m);; mret (x, y)
    end);
  m ← the id;
  let '(x, y) := avoid_overlap m base_x base_y in
  let win := mk_window title x y true false false resizable app_id None kind in
  let index := free_slot (windows m) in
  update (set_windows (if decide (index < length (windows m))%nat then <[index := win]> (windows m) else windows m ++ [win]));;
  update_opt (raise index);;
  (match remembered with
   | Some r =>
       resize_window P index (Z.max (r_cols r) MIN_COLS) (Z.max (r_rows r) MIN_ROWS);;
       if r_maximized r then maximize_window P index else mret tt
   | None => mret tt
   end);;
  mret index.

(** Built-in apps first, then the [.elf] files of [/bin]. *)
Definition builtin_items : list (str * LauncherAction) := [
  (bytes_of "Terminal", LaunchTerminal); (bytes_of "Calculator", LaunchCalculator); (bytes_of "File Explorer", LaunchFiles);
  (bytes_of "Notepad", LaunchNotepad); (bytes_of "Paint", LaunchPaint); (bytes_of "Image Viewer", LaunchImageViewer);
  (bytes_of "System Info", LaunchSysInfo); (bytes_of "Settings", LaunchSettings)].
Definition build_launcher_items : DK (list (str * LauncherAction)) :=
  is_mounted ← on_disk (fun v => Ret (mounted v) v);
  if is_mounted : bool then
    r ← on_disk (list_dir (bytes_of "/bin"));
    match r with
    | Ok entries =>
        mret (builtin_items ++ omap (fun e =>
          if negb (is_dir e) && is_elf (name e) then Some (name e, RunElf (bytes_of "/bin/" ++ name e)) else None) entries)
    | Err _ => mret builtin_items
    end
  else mret builtin_items.

(** A terminal of a size that fits the screen, and what is printed into it. *)
Definition new_terminal (title : str) (app_id : option AppId) : DK nat :=
  f ← font;
  m ← the id;
  let '(cols, rows) := fit_console_cells f (screen_w m) (screen_h m) MAX_TERMINAL_COLS MAX_TERMINAL_ROWS in
  spawn_window title true app_id (Terminal (Console.new f cols rows CONSOLE_FG CONSOLE_BG) LineEdit.new).
Definition in_terminal (index : nat) (body : Console -> DK Console) : DK unit :=
  w ← window index;
  match kind w with
  | Terminal c ed => c ← body c; set_kind index (Terminal c ed)
  | _ => mret tt
  end.
Definition launch_elf_in_terminal (path : str) : DK unit :=
  idx ← new_terminal (bytes_of "Terminal: " ++ path) None;
  in_terminal idx (fun c =>
    let command := bytes_of "run " ++ path in
    p ← prompt;
    c ← print_to (p ++ command ++ [10]) c;
    (* [run] always comes back, see [run_comes_back] *)
    r ← execute P command c;
    p ← prompt;
    print_to p r.2).
Definition new_editor (title : str) (app_id : option AppId) (lines : list str) (status path : str) : DK nat :=
  f ← font;
  m ← the id;
  let '(cols, rows) := fit_console_cells f (screen_w m) (screen_h m) MAX_EDITOR_COLS MAX_EDITOR_ROWS in
  r ← run_own (editor_render f) (mk_editor (Console.new f cols rows CONSOLE_FG CONSOLE_BG) lines 0 0 0 status path);
  spawn_window title true app_id (EditorWindow r.2).
Definition open_notepad_with (path : str) (content : list Z) : DK unit :=
  let status := bytes_of "opened " ++ path ++ bytes_of " (" ++ uint_to_string (Z.of_nat (length content)) ++ bytes_of " bytes)" in
  new_editor (bytes_of "Notepad: " ++ file_part path) None (open_lines content) status path;;
  mret tt.
(** A constructor's result; an application that is still to be built. *)
Definition build {A} (o : outcome A unit) : DK A := match o with Ret _ a => mret a | Panic => panic end.
Definition blank_explorer : Explorer.FileExplorer :=
  mk_explorer [] [] [] 0 0 Details Name true (0, 0) 0 0 false None None [] 0 [] None.
Definition open_image_viewer_with (path : str) (content : list Z) : DK unit :=
  side ← unwrap (isqrt (u32 (Z.of_nat (length content) / 4)));
  f ← font;
  a ← build (ImageViewer.new f);
  r ← run_own (ImageViewer.load_image f path content side side) a;
  spawn_window (bytes_of "Image Viewer: " ++ file_part path) true None (ImageViewer r.2);;
  mret tt.
Definition dispatch_action (action : FsAction) : DK unit :=
  match action with
  | RunTerminal path => launch_elf_in_terminal path
  | OpenText path content => open_notepad_with path content
  | OpenImage path content => open_image_viewer_with path content
  end.
Definition spawn_builtin (title : string) (id : AppId) (kind : AppKind) : DK unit :=
  spawn_window (bytes_of title) false (Some id) kind;; mret tt.
Definition run_launcher_action (action : LauncherAction) : DK unit :=
  f ← font;
  match action with
  | LaunchTerminal =>
      idx ← new_terminal (bytes_of "Terminal") (Some AppTerminal);
      in_terminal idx (fun c => p ← prompt; print_to p c)
  | LaunchCalculator =>
      a ← build (CalcWindow.window_new f);
      spawn_builtin "Calculator" AppCalculator (Calculator a)
  | LaunchFiles =>
      r ← run_app (Explorer.new f) blank_explorer;
      spawn_builtin "File Explorer" AppFiles (FileExplorer r.2)
  | LaunchNotepad =>
      new_editor (bytes_of "Notepad") (Some AppNotepad) [[]] [] [];; mret tt
  | LaunchSysInfo =>
      c ← build_sysinfo_console P;
      spawn_builtin "System Info" AppSysInfo (SysInfo c)
  | LaunchSettings =>
      m ← the id;
      d ← get_st;
      let dims := dimensions (display d) in
      let about := build_about_lines dims (cpuid P) (ram (w_machine (sh_world (kernel d)))) (info_at P)
                     (heap_allocated P (kernel d)) (heap_total P (kernel d)) in
      a ← on_disk (fun v =>
        match Settings.new f dims (rtc_now P) (Wm.settings m) about v with Ret _ (v, a) => Ret a v | Panic => Panic end);
      spawn_builtin "Settings" AppSettings (SettingsWindow a)
  | LaunchPaint =>
      a ← build (Paint.new f);
      spawn_builtin "Paint" AppPaint (Paint a)
  | LaunchImageViewer =>
      a ← build (ImageViewer.new f);
      spawn_builtin "Image Viewer" AppImageViewer (ImageViewer a)
  | RunElf path => launch_elf_in_terminal path
  end.

(** ** The session, reopened at boot *)
Definition reopen (max_x max_y : Z) (entry : SessionWindow) : DK unit :=
  match from_name (Session.app entry) with
  | None => mret tt
  | Some id =>
      ws ← the windows;
      if existsb (fun w => open w && bool_decide (app_id w = Some id)) ws then mret tt
      else
        run_launcher_action (builtin_action id);;
        idx ← the focused;
        alter_window idx (move_to (clamp0 (win_x entry) max_x) (clamp0 (win_y entry) max_y));;
        (if negb (Session.maximized entry) && (0 <? Session.cols entry) then
           resize_window P idx (Z.max (Session.cols entry) MIN_COLS) (Z.max (Session.rows entry) MIN_ROWS)
         else mret tt);;
        (if Session.maximized entry then maximize_window P idx else mret tt);;
        alter_window idx (with_minimized (Session.minimized entry))
  end.
Definition restore_session : DK unit :=
  data ← on_disk load_from_disk;
  match Session.windows data, Session.remembered data with
  | [], [] => mret tt
  | saved, remembered =>
      for_in remembered recall;;
      m ← the id;
      let '(max_x, max_y) := screen_bounds (screen_w m) (screen_h m) in
      for_in saved (reopen max_x max_y);;
      persist_session P
  end.
(** [WindowManager::new] *)
Definition new_manager (w h : Z) : DK unit :=
  update (fun _ => mk_wm [] 0 (i32 (w / 2)) (i32 (h / 2)) w h None None None None false (2 ^ 64 - 1) false [] 0
    (replicate APP_ID_COUNT None) None Settings.defaults (2 ^ 64 - 1, []) None);;
  pixels ← load_wallpaper w h;
  update (set_wallpaper pixels);;
  s ← load_settings;
  update (set_settings s);;
  restore_session.
End launch.
