(* ===== verification/WmInput.v ===== *)
(** * Keys, mouse and clicks, [wm.rs] *)
From stdpp Require Import list_numbers.
From S2P Require Import Prelude Bytes Text PhysMem Paging Disk Rtc Fat Ata Keyboard Mouse Spawn Font Gfx Draw Session LineEdit Shell Fb Console Editor CalcWindow Explorer Settings Paint ImageViewer Window Wm Desktop Launch.

Section input.
Context {D : Type} `{BlockDevice D} (P : Platform D).
Abbreviation DK := (ST (Desktop D)).

(** ** Keys *)
(** [Back] unless the shell's line stopped the machine. *)
Definition handle_key (event : Event) : DK after :=
  m ← the id;
  if bool_decide (windows m = []) then mret Back
  else
    let index := focused m in
    w ← window index;
    f ← font;
    match kind w with
    | Terminal c ed =>
        p ← prompt;
        r ← run_own (feed p event) (ed, []);
        let '(fed, (ed, printed)) := r in
        c ← print_to printed c;
        match fed with
        | Line line =>
            r ← execute P line c;
            match r.1 with
            | Back =>
                p ← prompt;
                c ← print_to p r.2;
                set_kind index (Terminal c ed);; mret Back
            | stopped => set_kind index (Terminal r.2 ed);; mret stopped
            end
        | Pending => set_kind index (Terminal c ed);; mret Back
        end
    | EditorWindow e =>
        r ← run_app (editor_handle_key f (rtc_now P) event) e;
        set_kind index (EditorWindow r.2);; mret Back
    | FileExplorer a =>
        t ← ticks;
        r ← run_app (Explorer.handle_key f (rtc_now P) t event) a;
        set_kind index (FileExplorer r.2);;
        (match r.1 with Some action => dispatch_action P action | None => mret tt end);;
        mret Back
    | Paint a =>
        r ← run_app (Paint.handle_key f (rtc_now P) event) a;
        set_kind index (Paint r.2);; mret Back
    | ImageViewer a =>
        r ← run_own (ImageViewer.handle_key f event) a;
        set_kind index (ImageViewer r.2);; mret Back
    | SettingsWindow _ | SysInfo _ | Calculator _ => mret Back
    end.

(** ** Dragging a file *)
(** The same operation on the explorer in a window, if it is one. *)
Definition on_explorer {A} (index : nat) (other : A) (op : Z -> ST (option (Fat32 D) * Explorer.FileExplorer) A) : DK A :=
  w ← window index;
  f ← font;
  match kind w with
  | FileExplorer a =>
      r ← run_app (op f) a;
      set_kind index (FileExplorer r.2);; mret r.1
  | _ => mret other
  end.
Definition set_explorer_drag (drag : option DragInfo) : DK unit :=
  each_window (fun i => on_explorer i tt (fun f => Explorer.set_drag f drag)).
Definition drag_source (ws : list Window) (press : PressState) : option (str * bool) :=
  w ← ws !! p_window press;
  match kind w with FileExplorer a => entry_path a (p_item press) | _ => None end.
Definition begin_file_drag : DK unit :=
  m ← the id;
  match press_state m with
  | None => mret tt
  | Some press =>
      update (set_press_state None);;
      match drag_source (windows m) press with
      | None => mret tt
      | Some (path, is_dir) =>
          update (set_file_drag (Some (mk_file_drag (p_window press) path is_dir)));;
          set_explorer_drag (Some (mk_drag path is_dir))
      end
  end.
(** The topmost window whose contents are at a point. *)
Definition content_at (f : Z) (m : WindowManager) (x y : Z) : option nat :=
  rposition (fun w => shown w && in_content f w x y) (windows m).
Definition drop_on (drag : FileDragState) (index : nat) : DK unit :=
  w ← window index;
  m ← the id;
  let local_x := cursor_x m ⊟ at_x w in
  let local_y := i32 (cursor_y m - at_y w - TITLE_BAR_HEIGHT) in
  handled ← on_explorer index false (fun f => handle_drop f (rtc_now P) local_x local_y (fd_path drag) (fd_is_dir drag));
  if handled && negb (bool_decide (index = source_window drag)) && bool_decide (is_Some (windows m !! source_window drag)) then
    on_explorer (source_window drag) tt (fun f => refresh_now f)
  else mret tt.
Definition finish_file_drag : DK unit :=
  m ← the id;
  match file_drag m with
  | None => mret tt
  | Some drag =>
      update (set_file_drag None);;
      f ← font;
      (match content_at f m (cursor_x m) (cursor_y m) with Some index => drop_on drag index | None => mret tt end);;
      update (set_press_state None);;
      set_explorer_drag None
  end.

(** ** Clicks *)
Definition apply_change (change : SettingsChange) : DK unit :=
  match change with
  | NoChange => mret tt
  | Reload => s ← load_settings; update (set_settings s)
  | Resolution w h => apply_resolution P w h
  | FontScale scale => apply_font_scale P scale
  end.
(** What an application makes of a click at its own coordinates. *)
Definition click_app (f t : Z) (dims : Z * Z) (x y : Z) (index : nat) (k : AppKind) : DK (option FsAction * option Z * SettingsChange) :=
  match k with
  | Calculator a =>
      r ← run_own (CalcWindow.app_click f x y) a;
      set_kind index (Calculator r.2);; mret (None, None, NoChange)
  | FileExplorer a =>
      let item := item_at a x y in
      r ← run_app (Explorer.handle_click f (rtc_now P) t x y) a;
      r' ← run_app (drag_candidate item) r.2;
      set_kind index (FileExplorer r'.2);; mret (r.1, r'.1, NoChange)
  | SettingsWindow a =>
      r ← run_app (Settings.app_click f dims (rtc_now P) x y) a;
      set_kind index (SettingsWindow r.2);; mret (None, None, r.1)
  | Paint a =>
      r ← run_own (Paint.handle_click f x y) a;
      set_kind index (Paint r.2);; mret (None, None, NoChange)
  | ImageViewer a =>
      r ← run_own (ImageViewer.handle_click x y) a;
      set_kind index (ImageViewer r.2);; mret (None, None, NoChange)
  | _ => mret (None, None, NoChange)
  end.
Definition click_content (i : nat) (w : Window) : DK unit :=
  m ← the id;
  let local_x := cursor_x m ⊟ at_x w in
  let local_y := i32 (cursor_y m - at_y w - TITLE_BAR_HEIGHT) in
  update_opt (raise i);;
  index ← the focused;
  win ← window index;
  f ← font;
  t ← ticks;
  d ← get_st;
  r ← click_app f t (dimensions (display d)) local_x local_y index (kind win);
  let '(action, item, change) := r in
  (match action, item with
   | Some action, _ => update (set_press_state None);; dispatch_action P action
   | None, Some item => update (set_press_state (Some (mk_press index item (cursor_x m) (cursor_y m))))
   | None, None => update (set_press_state None)
   end);;
  apply_change change.
Definition over_button (m : WindowManager) (w : Window) (bx : Z) : bool :=
  hit (cursor_x m) (cursor_y m) bx (at_y w ⊞ 2) TITLE_BTN_W TITLE_BTN_H.
Definition click_title (i : nat) (w : Window) : DK unit :=
  f ← font;
  m ← the id;
  let '(minimize_x, maximize_x, close_x) := title_button_positions (at_x w) (content_size f w).1 (resizable w) in
  if over_button m w close_x then
    update_opt (remember_geometry i);;
    alter_window i (with_open false);;
    update (refocus_after_hide i);;
    persist_session P
  else if match maximize_x with Some max_x => over_button m w max_x | None => false end then
    update_opt (raise i);;
    index ← the focused;
    (if maximized w then unmaximize_window P index else maximize_window P index);;
    persist_session P
  else if over_button m w minimize_x then
    alter_window i (with_minimized true);;
    update (refocus_after_hide i);;
    persist_session P
  else
    update_opt (raise i);;
    index ← the focused;
    (if maximized w then unmaximize_window P index else mret tt);;
    win ← window index;
    update (set_dragging (Some (mk_drag_state index (cursor_x m ⊟ at_x win) (cursor_y m ⊟ at_y win)))).
Definition grab_corner (i : nat) (w : Window) : DK unit :=
  f ← font;
  let '(content_w, content_h) := content_size f w in
  update_opt (raise i);;
  index ← the focused;
  update (set_resizing (Some (mk_resize index (content_w / glyph_w f) (content_h / glyph_h f)))).
(** Where on a window a point is. *)
Inductive part := Grip | Title | Content.
Definition part_at (f : Z) (w : Window) (x y : Z) : option part :=
  if negb (shown w) then None
  else if resizable w && negb (maximized w) && in_grip f w x y then Some Grip
  else if in_title f w x y then Some Title
  else if in_content f w x y then Some Content
  else None.
Definition click_window (i : nat) : DK unit :=
  w ← window i;
  f ← font;
  m ← the id;
  match part_at f w (cursor_x m) (cursor_y m) with
  | Some Grip => grab_corner i w
  | Some Title => click_title i w
  | Some Content => click_content i w
  | None => mret tt
  end.
Definition click_taskbar : DK unit :=
  f ← font;
  m ← the id;
  if start_button_hit f m then
    items ← build_launcher_items;
    update (set_launcher_items items);;
    update (set_launcher_open true)
  else
    match find (fun '(_, x, w) => (x <=? cursor_x m) && (cursor_x m <? x ⊞ w)) (taskbar_layout f m).2 with
    | Some (i, _, _) =>
        alter_window i (with_minimized false);;
        update_opt (raise i);;
        persist_session P
    | None => mret tt
    end.
Definition click_launcher : DK unit :=
  m ← the id;
  match launcher_hit_test m with
  | Some idx =>
      item ← unwrap (launcher_items m !! idx);
      update (set_launcher_open false);;
      run_launcher_action P item.2;;
      persist_session P
  | None => update (set_launcher_open false)
  end.
(** The first window from the front that the point is on takes the click. *)
Definition handle_click : DK unit :=
  f ← font;
  m ← the id;
  if launcher_open m then click_launcher
  else if i32 (screen_h m - TASKBAR_HEIGHT) <=? cursor_y m then click_taskbar
  else
    match rposition (fun w => bool_decide (is_Some (part_at f w (cursor_x m) (cursor_y m)))) (windows m) with
    | Some i => click_window i
    | None => mret tt
    end.

(** ** The mouse *)
Definition keep_resizing (r : ResizeState) : DK unit :=
  w ← window (rs_window r);
  f ← font;
  m ← the id;
  let local_w := u32 (Z.max (cursor_x m ⊟ at_x w) 0) in
  let local_h := u32 (Z.max (i32 (cursor_y m - at_y w - TITLE_BAR_HEIGHT)) 0) in
  let cols := Z.max (local_w / u32 (glyph_w f)) MIN_COLS in
  let rows := Z.max (local_h / u32 (glyph_h f)) MIN_ROWS in
  if (cols =? last_cols r) && (rows =? last_rows r) then mret tt
  else
    update (set_resizing (Some (mk_resize (rs_window r) cols rows)));;
    resize_window P (rs_window r) cols rows.
Definition keep_dragging (drag : DragState) : DK unit :=
  m ← the id;
  let '(max_x, max_y) := drag_bounds m in
  window (d_window drag);;
  x ← clamp (cursor_x m ⊟ offset_x drag) 0 max_x;
  y ← clamp (cursor_y m ⊟ offset_y drag) 0 max_y;
  alter_window (d_window drag) (move_to x y).
(** A press that has moved far enough becomes a file drag. *)
Definition maybe_file_drag (left : bool) : DK bool :=
  m ← the id;
  match press_state m with
  | Some press =>
      if left && (6 <=? iabs (cursor_x m ⊟ screen_x press) ⊞ iabs (cursor_y m ⊟ screen_y press)) then
        begin_file_drag;;
        m ← the id;
        mret (bool_decide (is_Some (file_drag m)))
      else mret false
  | None => mret false
  end.
Definition pointer_moved (old_x old_y : Z) (left : bool) : DK bool :=
  f ← font;
  m ← the id;
  let moved := negb ((old_x =? cursor_x m) && (old_y =? cursor_y m)) in
  if moved && negb left && bool_decide (dragging m = None) && bool_decide (resizing m = None) then
    mret (negb (cursor_over_hoverable_at f m (cursor_x m) (cursor_y m) || cursor_over_hoverable_at f m old_x old_y))
  else mret true.
Definition handle_mouse (event : MouseEvent) : DK bool :=
  m ← the id;
  let old_x := cursor_x m in
  let old_y := cursor_y m in
  x ← clamp (old_x ⊞ dx event) 0 (i32 (screen_w m - 1));
  y ← clamp (old_y ⊞ dy event) 0 (i32 (screen_h m - 1));
  let just_pressed := left event && negb (left_was_down m) in
  let just_released := negb (left event) && left_was_down m in
  update (set_pointer x y);;
  update (set_left_was_down (left event));;
  match resizing m with
  | Some r =>
      (if left event then keep_resizing r else mret tt);;
      (if just_released then update (set_resizing None);; persist_session P else mret tt);;
      mret true
  | None =>
      if bool_decide (is_Some (file_drag m)) then
        (if just_released then finish_file_drag else mret tt);;
        mret true
      else
        started ← maybe_file_drag (left event);
        if started : bool then mret true
        else
          (match dragging m with Some drag => if left event then keep_dragging drag else mret tt | None => mret tt end);;
          (if just_released then
             (if bool_decide (is_Some (dragging m)) then persist_session P else mret tt);;
             update (set_dragging None);;
             update (set_press_state None)
           else mret tt);;
          if just_pressed then handle_click;; mret true
          else pointer_moved old_x old_y (left event)
  end.
End input.
