(* ===== verification/Compositor.v ===== *)
(** * The compositor and the desktop's loop, [wm.rs] and [desktop.rs] *)
From stdpp Require Import list_numbers.
From S2P Require Import Prelude Bytes Text PhysMem Disk Rtc Fat Ata Keyboard Mouse Spawn Font Gfx Draw Session LineEdit Shell Fb Console Editor CalcWindow Explorer Settings Paint ImageViewer Window Chrome Wm Desktop Launch WmInput.

Definition TASKBAR_BG : Z := 0x001F1F1F.
Definition TASKBAR_BG_ALPHA : Z := 235.
Definition TASKBAR_TOP_LINE : Z := 0x002E2E2E.
Definition TASKBAR_TEXT : Z := 0x00FFFFFF.
Definition TASKBAR_TEXT_DIM : Z := 0x008A8A8A.
Definition TB_BTN_HOVER : Z := 0x002C2C2C.
Definition TB_BTN_ACTIVE : Z := 0x003A3A3A.
Definition TB_DIVIDER : Z := 0x002E2E2E.
Definition START_LOGO_COLOR : Z := 0x00FFB900.
Definition LAUNCHER_BG : Z := 0x00262626.
Definition LAUNCHER_BG_ALPHA : Z := 235.
Definition LAUNCHER_BORDER : Z := 0x003F3F3F.
Definition LAUNCHER_SEARCH_BG : Z := 0x003A3A3A.
Definition LAUNCHER_TEXT : Z := 0x00FFFFFF.
Definition LAUNCHER_TEXT_DIM : Z := 0x008A8A8A.
Definition LAUNCHER_TILE_HOVER : Z := 0x002C2C2C.

Section draw.
Context {T : Type} {surf : Surface T}.
Variable fscale : Z.
Abbreviation gw := (gw32 fscale).
Abbreviation gh := (gh32 fscale).
Definition draw_background (m : WindowManager) : ST T unit :=
  match (if Settings.wallpaper (settings m) then Wm.wallpaper m else None) with
  | Some pixels => blit 0 0 pixels (screen_w m) (screen_h m)
  | None => fill_rect_gradient_v 0 0 (screen_w m) (screen_h m) DESKTOP_BG_TOP DESKTOP_BG_BOTTOM
  end.

(** ** The start menu *)
Definition draw_tile (m : WindowManager) (base_x base_y i : Z) (label : str) : ST T unit :=
  let tx := u32 (base_x + i mod LAUNCHER_COLS * LAUNCHER_TILE_W) in
  let ty := u32 (base_y + u32 (i / LAUNCHER_COLS) * LAUNCHER_TILE_H) in
  let hovered := (i32 tx <=? cursor_x m) && (cursor_x m <? i32 (u32 (tx + LAUNCHER_TILE_W))) &&
                 (i32 ty <=? cursor_y m) && (cursor_y m <? i32 (u32 (ty + LAUNCHER_TILE_H))) in
  (if hovered then fill_rounded_rect tx ty LAUNCHER_TILE_W LAUNCHER_TILE_H 8 LAUNCHER_TILE_HOVER else mret tt);;
  let icon_x := u32 (tx + (LAUNCHER_TILE_W - LAUNCHER_ICON) / 2) in
  let icon_y := u32 (ty + 6) in
  fill_rounded_rect icon_x icon_y LAUNCHER_ICON LAUNCHER_ICON 12 (launcher_icon_color label);;
  draw_char fscale (u32 (icon_x + u32 (LAUNCHER_ICON - gw) / 2)) (u32 (icon_y + u32 (LAUNCHER_ICON - gh) / 2))
    (first_letter label) 0x00FFFFFF None;;
  let label_text := truncate_label label 10 in
  let label_w := u32 (len_utf8 label_text * gw) in
  draw_string fscale (u32 (tx + u32 (LAUNCHER_TILE_W - label_w) / 2)) (u32 (ty + 6 + LAUNCHER_ICON + 6)) (as_bytes label_text)
    LAUNCHER_TEXT None.
Definition draw_launcher (m : WindowManager) : ST T unit :=
  let '(px, py, pw, ph) := launcher_popup_rect m in
  let px := u32 px in
  let py := u32 py in
  fill_rounded_rect_blend (u32 (px + 6)) (u32 (py + 6)) pw ph 12 0x00000000 90;;
  fill_rounded_rect (u32 (px - 1)) (u32 (py - 1)) (u32 (pw + 2)) (u32 (ph + 2)) 13 LAUNCHER_BORDER;;
  fill_rounded_rect_blend px py pw ph 12 LAUNCHER_BG LAUNCHER_BG_ALPHA;;
  let search_h := 28 in
  fill_rounded_rect (u32 (px + 16)) (u32 (py + 12)) (u32 (pw - 32)) search_h 8 LAUNCHER_SEARCH_BG;;
  draw_string fscale (u32 (px + 28)) (u32 (py + 12 + u32 (search_h - gh) / 2)) (bytes_of "Search") LAUNCHER_TEXT_DIM None;;
  draw_string fscale (u32 (px + 20)) (u32 (py + 48)) (bytes_of "Pinned") LAUNCHER_TEXT_DIM None;;
  let base_x := u32 (px + 20) in
  let base_y := u32 (py + LAUNCHER_TILES_Y) in
  for_in (Chrome.enumerate (launcher_items m)) (fun '(i, (label, _)) => draw_tile m base_x base_y i label).

(** ** The task bar *)
Definition draw_start_button (m : WindowManager) (y start_x : Z) : ST T unit :=
  (if start_button_hit fscale m || launcher_open m then
     fill_rounded_rect (u32 start_x) (u32 (y + 6)) START_BTN_W START_BTN_H 8 TB_BTN_HOVER
   else mret tt);;
  let pane := u32 (4 + fscale * 2) in
  let logo := u32 (2 * pane + 2) in
  let lx := u32 (u32 start_x + u32 (START_BTN_W - logo) / 2) in
  let ly := u32 (y + 6 + u32 (START_BTN_H - logo) / 2) in
  let rx := u32 (lx + pane + 2) in
  let ry := u32 (ly + pane + 2) in
  fill_rounded_rect lx ly pane pane 2 START_LOGO_COLOR;;
  fill_rounded_rect rx ly pane pane 2 START_LOGO_COLOR;;
  fill_rounded_rect lx ry pane pane 2 START_LOGO_COLOR;;
  fill_rounded_rect rx ry pane pane 2 START_LOGO_COLOR.
Definition draw_task_button (m : WindowManager) (y accent : Z) (b : nat * Z * Z) : ST T unit :=
  let '(i, x, w) := b in
  win ← unwrap (windows m !! i);
  let is_focused := bool_decide (i = focused m) in
  let hovered := hit (cursor_x m) (cursor_y m) x (i32 y ⊞ 6) w START_BTN_H in
  let bx := u32 x in
  let bw := u32 w in
  let bg := if is_focused then TB_BTN_ACTIVE else if hovered then TB_BTN_HOVER else TASKBAR_BG in
  fill_rounded_rect bx (u32 (y + 6)) bw START_BTN_H 6 bg;;
  let icon := icon_size fscale 16 in
  let ix := u32 (bx + 8) in
  draw_app_icon fscale ix (u32 (y + 6 + u32 (START_BTN_H - icon) / 2)) icon (kind win) (title win);;
  let text_color := if minimized win then TASKBAR_TEXT_DIM else TASKBAR_TEXT in
  draw_string fscale (u32 (bx + 8 + icon + 6)) (u32 (y + 6 + u32 (START_BTN_H - gh) / 2)) (as_bytes (title win)) text_color None;;
  if is_focused then fill_rounded_rect ix (u32 (y + 42)) icon 3 2 accent else mret tt.
Definition draw_tray (m : WindowManager) (y : Z) (counters : list Z) : ST T unit :=
  let text_y := u32 (y + u32 (TASKBAR_HEIGHT - gh) / 2) in
  let clock := (clock_cache m).2 in
  let clock_w := u32 (len_utf8 clock * glyph_w fscale) in
  let clock_x := u32 (screen_w m - clock_w - 12) in
  draw_string fscale clock_x text_y (as_bytes clock) TASKBAR_TEXT None;;
  if show_bg_tasks (settings m) then
    c0 ← unwrap (counters !! 0%nat);
    c1 ← unwrap (counters !! 1%nat);
    c2 ← unwrap (counters !! 2%nat);
    let bg := bytes_of "bg: " ++ show c0 ++ bytes_of " " ++ show c1 ++ bytes_of " " ++ show c2 in
    let bg_w := u32 (len_utf8 bg * glyph_w fscale) in
    let bg_x := u32 (clock_x - bg_w - 16) in
    draw_string fscale bg_x text_y (as_bytes bg) 0x0086C77B None;;
    fill_rect (u32 (bg_x - 9)) (u32 (y + 6)) 1 (TASKBAR_HEIGHT - 12) TB_DIVIDER
  else mret tt.
Definition draw_taskbar (m : WindowManager) (counters : list Z) : ST T unit :=
  let y := u32 (screen_h m - TASKBAR_HEIGHT) in
  fill_rect_blend 0 y (screen_w m) TASKBAR_HEIGHT TASKBAR_BG TASKBAR_BG_ALPHA;;
  fill_rect 0 y (screen_w m) 1 TASKBAR_TOP_LINE;;
  let accent := accent_color_rgb (settings m) in
  let '(start_x, buttons) := taskbar_layout fscale m in
  draw_start_button m y start_x;;
  for_in buttons (draw_task_button m y accent);;
  draw_tray m y counters.
End draw.

(** ** Frames *)
Section compositor.
Context {D : Type} `{BlockDevice D} (P : Platform D).
Abbreviation DK := (ST (Desktop D)).
Definition clock_text (t : DateTime) (secs : Z) : str :=
  let two v := pad_left 48 2 (show v) in
  two (hour t) ++ bytes_of ":" ++ two (minute t) ++ bytes_of "  up " ++ two (secs / 60) ++ bytes_of ":" ++ two (secs mod 60).
Definition refresh_clock : DK unit :=
  t ← ticks;
  let secs := t / 100 in
  m ← the id;
  if secs =? (clock_cache m).1 then mret tt
  else
    time ← on_shell (asks (now P));
    update (set_clock_cache (secs, clock_text time secs)).
(** The closure of [fb::with_surface], which is not run without a display. *)
Abbreviation FRAME := (ST (Desktop D * State)).
Definition on_screen (m : FRAME unit) : DK unit := fun d =>
  match state (display d) with
  | None => Ret tt d
  | Some s => match m (d, s) with
              | Ret _ (d, s) => Ret tt (set_display (Fb.set_state (Some s) (display d)) d)
              | Panic => Panic
              end
  end.
Definition paint {A} (m : ST State A) : FRAME A := fun '(d, s) =>
  match m s with Ret a s => Ret a (d, s) | Panic => Panic end.
Definition meanwhile {A} (m : DK A) : FRAME A := fun '(d, s) =>
  match m d with Ret a d => Ret a (d, s) | Panic => Panic end.
(** Explorer and Settings highlight what is under the pointer, Paint draws. *)
Definition follow_pointer (i : nat) : DK unit :=
  w ← window i;
  m ← the id;
  f ← font;
  d ← get_st;
  let lx := cursor_x m ⊟ at_x w in
  let ly := i32 (cursor_y m - at_y w - TITLE_BAR_HEIGHT) in
  match kind w with
  | FileExplorer a =>
      let '(x, y) := content_cursor lx ly (Explorer.app_width a) (Explorer.app_height a) in
      r ← run_app (Explorer.render_hover f x y) a;
      set_kind i (FileExplorer r.2)
  | SettingsWindow a =>
      let '(x, y) := content_cursor lx ly (Settings.app_width a) (Settings.app_height f a) in
      r ← run_app (Settings.render_hover f (dimensions (display d)) (rtc_now P) x y) a;
      set_kind i (SettingsWindow r.2)
  | Paint a =>
      r ← run_own (handle_mouse_move f lx ly (left_was_down m)) a;
      set_kind i (Paint r.2)
  | _ => mret tt
  end.
Definition compose_window (i : nat) : FRAME unit :=
  w ← meanwhile (window i);
  if shown w then
    meanwhile (follow_pointer i);;
    w ← meanwhile (window i);
    m ← meanwhile (the id);
    f ← meanwhile font;
    paint (draw_window f w (bool_decide (i = focused m)) (cursor_x m) (cursor_y m))
  else mret tt.
Definition compose_desktop : FRAME unit :=
  m ← meanwhile (the id);
  f ← meanwhile font;
  counters ← meanwhile (on_shell (asks (COUNTERS P)));
  paint (draw_background m);;
  for_in (seq 0 (length (windows m))) compose_window;;
  m ← meanwhile (the id);
  paint (draw_taskbar f m counters);;
  (if launcher_open m then paint (draw_launcher f m) else mret tt);;
  match file_drag m with
  | Some drag => paint (draw_file_drag_tag f (cursor_x m) (cursor_y m) (fd_path drag) (fd_is_dir drag))
  | None => mret tt
  end.
(** The corner of the saved region for the pointer at [v], in one direction. *)
Definition margin (v : Z) : Z := u32 (Z.max (v ⊟ CURSOR_SAVE_MARGIN) 0).
Definition save_under (x y : Z) : DK unit :=
  pixels ← on_fb (snapshot_region (margin x) (margin y) CURSOR_SAVE_W CURSOR_SAVE_H);
  update (set_cursor_save (Some (x, y, pixels))).
Definition show_cursor (x y : Z) : DK unit := on_fb (with_surface (draw_cursor x y)).
Definition composite : DK unit :=
  refresh_clock;;
  on_screen compose_desktop;;
  m ← the id;
  save_under (cursor_x m) (cursor_y m);;
  show_cursor (cursor_x m) (cursor_y m);;
  on_fb present.
(** The rectangle around the old and the new pointer. *)
Definition cursor_region (old_x old_y x y w h : Z) : Z * Z * Z * Z :=
  let min_x := margin (Z.min old_x x) in
  let min_y := margin (Z.min old_y y) in
  let max_x := u32 (Z.max old_x x + CURSOR_SAVE_W - CURSOR_SAVE_MARGIN) in
  let max_y := u32 (Z.max old_y y + CURSOR_SAVE_H - CURSOR_SAVE_MARGIN) in
  (min_x, min_y, Z.min (saturating_sub max_x min_x) (u32 (w - Z.min min_x w)), Z.min (saturating_sub max_y min_y) (u32 (h - Z.min min_y h))).
Definition composite_cursor_only : DK unit :=
  m ← the id;
  match cursor_save m with
  | None => composite
  | Some (old_x, old_y, saved) =>
      update (set_cursor_save None);;
      on_fb (restore_region (margin old_x) (margin old_y) CURSOR_SAVE_W CURSOR_SAVE_H saved);;
      let '(x, y, w, h) := cursor_region old_x old_y (cursor_x m) (cursor_y m) (screen_w m) (screen_h m) in
      save_under (cursor_x m) (cursor_y m);;
      show_cursor (cursor_x m) (cursor_y m);;
      on_fb (present_region x y w h)
  end.

(** ** The main loop *)
Definition start : DK unit :=
  s ← load_settings;
  (match resolution s with
   | Some (w, h) => on_fb (set_virtual_resolution w h);; mret tt
   | None => mret tt
   end);;
  modify (set_font (set_scale (if 200 <=? font_scale_percent s then 2 else 1)));;
  dims ← on_fb (fun b => Ret (virtual_dimensions b) b);
  new_manager P dims.1 dims.2;;
  composite.
Definition next_mouse : DK (option MouseEvent) := on_shell (on_mouse Mouse.next_event).
Definition next_key : DK (option Event) := fun d =>
  match Keyboard.next_event (keys d) with Ret e k => Ret e (set_keys k d) | Panic => Panic end.
(** Taking every event out of the queues; [r] is whether the screen is dirty and
    whether only the pointer moved. *)
Inductive mouse_drained : bool -> bool -> Desktop D -> bool -> bool -> Desktop D -> Prop :=
| mouse_empty dirty only d d' :
    next_mouse d = Ret None d' -> mouse_drained dirty only d dirty only d'
| mouse_event dirty only d event d1 changed d2 dirty' only' d' :
    next_mouse d = Ret (Some event) d1 ->
    handle_mouse P event d1 = Ret changed d2 ->
    mouse_drained (dirty || changed) (only || negb changed) d2 dirty' only' d' ->
    mouse_drained dirty only d dirty' only' d'.
Inductive keys_drained : bool -> Desktop D -> bool -> Desktop D -> Prop :=
| keys_empty dirty d d' : next_key d = Ret None d' -> keys_drained dirty d dirty d'
| key_event dirty d event d1 d2 dirty' d' :
    next_key d = Ret (Some event) d1 ->
    handle_key P event d1 = Ret Back d2 ->
    keys_drained true d2 dirty' d' ->
    keys_drained dirty d dirty' d'.
Definition redraw (dirty only : bool) : DK unit :=
  due ← (if dirty then mret true else clock_tick_due);
  if due : bool then composite else if only then composite_cursor_only else mret tt.
(** A round of the loop up to [interrupts::halt()], during which interrupt
    handlers and the other tasks change the kernel's state. *)
Inductive round : Desktop D -> Desktop D -> Prop :=
| round_made d dirty only d1 dirty' d2 d3 :
    mouse_drained false false d dirty only d1 ->
    keys_drained dirty d1 dirty' d2 ->
    redraw dirty' only d2 = Ret tt d3 ->
    round d d3
| halted d k q : round d (set_kernel k (set_keys q d)).
End compositor.
