(* ===== verification/WmInvariant.v ===== *)
(** * The window manager stays in order

    Whatever the user does and whatever the applications and the disk answer, in
    every state the desktop's loop reaches the focus and everything that is being
    dragged name windows that exist, the pointer is on the screen, and a window has
    a size to return to exactly when it is maximised. *)
From stdpp Require Import list_numbers.
From S2P Require Import Prelude Bytes Text PhysMem Disk Rtc Fat Ata Keyboard Mouse Spawn Accounting Multiboot Font Gfx Draw Session LineEdit Shell ShellFacts Fb Console Editor CalcWindow Explorer Settings Paint ImageViewer Window Chrome Wm Desktop Launch WmInput Compositor.

Definition window_ok (w : Window) : Prop := restore_geometry w = None <-> maximized w = false.
Definition pointer_ok (m : WindowManager) : Prop :=
  0 < screen_w m < 2 ^ 31 -> 0 < screen_h m < 2 ^ 31 -> 0 <= cursor_x m < screen_w m /\ 0 <= cursor_y m < screen_h m.
(** Apart from the pointer. *)
Record stack_ok (m : WindowManager) : Prop := {
  ok_focus : (windows m = [] /\ focused m = 0%nat) \/ (focused m < length (windows m))%nat;
  ok_dragging : forall s, dragging m = Some s -> (d_window s < length (windows m))%nat;
  ok_resizing : forall s, resizing m = Some s -> (rs_window s < length (windows m))%nat;
  ok_press : forall s, press_state m = Some s -> (p_window s < length (windows m))%nat;
  ok_file_drag : forall s, file_drag m = Some s -> (source_window s < length (windows m))%nat;
  ok_remembered : length (remembered m) = APP_ID_COUNT;
  ok_windows : Forall window_ok (windows m) }.
Definition wm_ok (m : WindowManager) : Prop := stack_ok m /\ pointer_ok m.

(** ** Partial correctness over the manager *)
Section rules.
Context {D : Type} `{BlockDevice D}.
Abbreviation DK := (ST (Desktop D)).
Definition triple {A} (I : WindowManager -> Prop) (p : DK A) (Q : A -> WindowManager -> Prop) : Prop :=
  forall d a d', p d = Ret a d' -> I (manager d) -> Q a (manager d').
(** The manager is not touched. *)
Definition aside {A} (p : DK A) : Prop := forall d a d', p d = Ret a d' -> manager d' = manager d.
Lemma triple_conseq {A} (I J : WindowManager -> Prop) (p : DK A) (Q R : A -> WindowManager -> Prop) :
  triple J p R -> (forall m, I m -> J m) -> (forall a m, R a m -> Q a m) -> triple I p Q.
Proof. intros Hp HI HQ d a d' E Hd. eapply HQ, Hp; [done|]. by apply HI. Qed.
Lemma triple_ret {A} (I : WindowManager -> Prop) (a : A) (Q : A -> WindowManager -> Prop) : (forall m, I m -> Q a m) -> triple I (mret a) Q.
Proof. intros HQ d a' d' [= <- <-]. apply HQ. Qed.
Lemma triple_bind {A B} I R (p : DK A) (k : A -> DK B) Q : triple I p R -> (forall a, triple (R a) (k a) Q) -> triple I (p ≫= k) Q.
Proof.
  intros Hp Hk d b d' E Hd. unfold mbind, st_bind in E. destruct (p d) as [a d1|] eqn:E1; [|done].
  eapply Hk; [exact E|]. by eapply Hp.
Qed.
(** A step that keeps the invariant and what follows does not need its result. *)
Lemma triple_seq {A B} I (p : DK A) (k : A -> DK B) Q : triple I p (fun _ => I) -> (forall a, triple I (k a) Q) -> triple I (p ≫= k) Q.
Proof. intros Hp Hk. by eapply triple_bind. Qed.
Lemma triple_aside {A} I (p : DK A) : aside p -> triple I p (fun _ => I).
Proof. intros Hp d a d' E. by rewrite (Hp _ _ _ E). Qed.
Lemma triple_the {A B} I (f : WindowManager -> A) (k : A -> DK B) Q :
  (forall m0, I m0 -> triple (fun m => m = m0) (k (f m0)) Q) -> triple I (a ← the f; k a) Q.
Proof. intros Hk d a d' E Hd. by apply (Hk (manager d) Hd _ _ _ E). Qed.
Lemma triple_update I f (Q : WindowManager -> Prop) : (forall m, I m -> Q (f m)) -> triple I (update f) (fun _ => Q).
Proof. intros HQ d [] d' [= <-]. apply HQ. Qed.
Lemma triple_update_opt I f (Q : WindowManager -> Prop) : (forall m m', I m -> f m = Some m' -> Q m') -> triple I (update_opt f) (fun _ => Q).
Proof. intros HQ d [] d' E Hd. unfold update_opt in E. destruct (f (manager d)) eqn:Ef; [|done]. injection E as <-. by eapply HQ. Qed.
Lemma triple_window {B} I i (k : Window -> DK B) Q :
  (forall w, triple (fun m => I m /\ windows m !! i = Some w) (k w) Q) -> triple I (w ← window i; k w) Q.
Proof.
  intros Hk d a d' E Hd. unfold mbind, st_bind, window, unwrap in E. destruct (windows (manager d) !! i) as [w|] eqn:Ew; [|done].
  by apply (Hk w _ _ _ E).
Qed.
Lemma triple_for {X} I (l : list X) body : (forall x, triple I (body x) (fun _ => I)) -> triple I (for_in l body) (fun _ => I).
Proof. intros Hb. induction l as [|x l IH]; cbn [for_in]; [by apply triple_ret|]. by eapply triple_bind. Qed.
Lemma triple_alter I i f (Q : WindowManager -> Prop) :
  (forall m w, I m -> windows m !! i = Some w -> Q (set_windows (<[i := f w]> (windows m)) m)) -> triple I (alter_window i f) (fun _ => Q).
Proof.
  intros HQ. unfold alter_window. apply triple_window. intros w. apply triple_update. intros m [Hm Ew]. by apply HQ.
Qed.

Lemma aside_ret {A} (a : A) : aside (mret a).
Proof. by intros d a' d' [= _ <-]. Qed.
Lemma aside_panic {A} : aside (A := A) panic.
Proof. done. Qed.
Lemma aside_bind {A B} (p : DK A) (k : A -> DK B) : aside p -> (forall a, aside (k a)) -> aside (p ≫= k).
Proof.
  intros Hp Hk d b d' E. unfold mbind, st_bind in E. destruct (p d) as [a d1|] eqn:E1; [|done].
  rewrite (Hk _ _ _ _ E). by eapply Hp.
Qed.
Lemma aside_get {B} (k : Desktop D -> DK B) : (forall d, aside (k d)) -> aside (d ← get_st; k d).
Proof. intros Hk d b d' E. exact (Hk d d b d' E). Qed.
Lemma aside_the {A} (f : WindowManager -> A) : aside (the f).
Proof. by intros d a d' [= _ <-]. Qed.
Lemma aside_unwrap {A} (o : option A) : aside (unwrap o).
Proof. intros d a d'. unfold unwrap. destruct o; [|done]. by intros [= _ <-]. Qed.
Lemma aside_font : aside font.
Proof. by intros d a d' [= _ <-]. Qed.
Lemma aside_prompt : aside prompt.
Proof. by intros d a d' [= _ <-]. Qed.
Lemma aside_fb {A} (p : ST fb A) : aside (on_fb p).
Proof. intros d a d'. unfold on_fb. destruct (p _); [|done]. by intros [= _ <-]. Qed.
Lemma aside_shell {A} (p : ST Shell A) : aside (on_shell p).
Proof. intros d a d'. unfold on_shell. destruct (p _); [|done]. by intros [= _ <-]. Qed.
Lemma aside_own {X A} (p : ST X A) x : aside (run_own p x).
Proof. intros d a d'. unfold run_own. destruct (p _); [|done]. by intros [= _ <-]. Qed.
Lemma aside_build {A} (o : outcome A unit) : aside (build o).
Proof. destruct o; [apply aside_ret|apply aside_panic]. Qed.
Lemma aside_clamp v lo hi : aside (clamp v lo hi).
Proof. unfold clamp. destruct (lo <=? hi); [apply aside_ret|apply aside_panic]. Qed.
End rules.
Create HintDb aside discriminated.
#[export] Hint Resolve aside_ret aside_panic aside_the aside_unwrap aside_font aside_prompt aside_fb aside_shell aside_own aside_build aside_clamp : aside.
Ltac aside_step :=
  match goal with
  | |- aside (_ ← get_st; _) => apply aside_get; intros
  | |- aside (mbind _ _) => apply aside_bind; [|intros]
  | |- aside (if ?b then _ else _) => destruct b
  | |- aside (match ?x with _ => _ end) => destruct x
  | |- aside _ => solve [eauto with aside]
  | |- aside (let '(_, _) := ?x in _) => destruct x
  end.
Ltac aside := repeat (cbv zeta; aside_step).

Section asides.
Context {D : Type} `{BlockDevice D} (P : Platform D).
Lemma aside_disk {A} (p : ST (option (Fat32 D)) A) : aside (on_disk p).
Proof. apply aside_shell. Qed.
Lemma aside_app {X A} (p : ST (option (Fat32 D) * X) A) x : aside (run_app p x).
Proof. apply aside_disk. Qed.
Lemma aside_ticks : aside (D := D) ticks.
Proof. apply aside_shell. Qed.
Lemma aside_load_settings : aside (D := D) load_settings.
Proof. unfold load_settings. aside. Qed.
Lemma aside_print s c : aside (D := D) (print_to s c).
Proof. unfold print_to. aside. Qed.
Lemma aside_execute line c : aside (execute P line c).
Proof.
  intros d a d'. unfold execute. destruct (Shell.execute _ _ _ _ _ _ _ _ _ _ _ _ _ _ _ _) as [r k|]; [|done].
  destruct (for_in _ _ c); [|done]. by intros [= _ <-].
Qed.
Lemma aside_sysinfo : aside (build_sysinfo_console P).
Proof. unfold build_sysinfo_console. aside. Qed.
Lemma aside_persist : aside (persist_session P).
Proof. unfold persist_session. aside. Qed.
Lemma aside_wallpaper w h : aside (D := D) (load_wallpaper w h).
Proof. unfold load_wallpaper. aside. Qed.
Lemma aside_items : aside (D := D) build_launcher_items.
Proof. unfold build_launcher_items. aside. Qed.
End asides.
#[export] Hint Resolve aside_disk aside_app aside_ticks aside_load_settings aside_print aside_execute aside_sysinfo aside_persist aside_wallpaper aside_items : aside.

(** ** Keeping the manager in order, given at least [n] windows; none is ever removed *)
Definition inv (n : nat) (m : WindowManager) : Prop := wm_ok m /\ (n <= length (windows m))%nat.
Section reach.
Context {D : Type} `{BlockDevice D} (P : Platform D).
Abbreviation DK := (ST (Desktop D)).
Definition reach {A} (n : nat) (p : DK A) : Prop := forall n', (n <= n')%nat -> triple (inv n') p (fun _ => inv n').
Lemma reach_aside {A} n (p : DK A) : aside p -> reach n p.
Proof. intros Hp n' _. by apply triple_aside. Qed.
Lemma reach_mono {A} n n' (p : DK A) : (n <= n')%nat -> reach n p -> reach n' p.
Proof. intros Hn Hp k Hk. apply Hp. lia. Qed.
Lemma reach_bind {A B} n (p : DK A) (k : A -> DK B) : reach n p -> (forall a, reach n (k a)) -> reach n (p ≫= k).
Proof. intros Hp Hk n' Hn. eapply triple_seq; [by apply Hp|]. intros a. by apply Hk. Qed.
Lemma reach_get {B} n (k : Desktop D -> DK B) : (forall d, reach n (k d)) -> reach n (d ← get_st; k d).
Proof. intros Hk n' Hn d b d' E. by apply (Hk d n' Hn d b d'). Qed.
Lemma reach_the {A B} n (f : WindowManager -> A) (k : A -> DK B) :
  (forall m0, wm_ok m0 -> reach (Nat.max n (length (windows m0))) (k (f m0))) -> reach n (a ← the f; k a).
Proof.
  intros Hk n' Hn. apply triple_the. intros m0 [Hm Hl].
  eapply triple_conseq; [by apply (Hk m0 Hm (Nat.max n' (length (windows m0)))); lia|..].
  - intros m ->. split; [done|lia].
  - intros a m [? ?]. split; [done|lia].
Qed.
Lemma reach_window {B} n i (k : Window -> DK B) :
  (forall w, window_ok w -> reach (Nat.max n (S i)) (k w)) -> reach n (w ← window i; k w).
Proof.
  intros Hk n' Hn d b d' E [Hm Hl]. unfold mbind, st_bind, window, unwrap in E.
  destruct (windows (manager d) !! i) as [w|] eqn:Ew; [|done]. apply lookup_lt_Some in Ew as Hi.
  destruct (Hk w) with (n' := Nat.max n' (S i)) (d := d) (a := b) (d' := d') as [? ?]; [|lia|exact E|split; [done|lia]|split; [done|lia]].
  destruct Hm as [Hs _]. eapply Forall_lookup_1; [exact (ok_windows _ Hs)|done].
Qed.
Lemma reach_for {X} n (l : list X) body : (forall x, reach n (body x)) -> reach n (for_in l body).
Proof. intros Hb n' Hn. apply triple_for. intros x. by apply Hb. Qed.
Lemma reach_update n f : (forall m, wm_ok m -> (n <= length (windows m))%nat -> wm_ok (f m) /\ length (windows (f m)) = length (windows m)) ->
  reach n (update (D := D) f).
Proof. intros Hf n' Hn. apply triple_update. intros m [Hm Hl]. destruct (Hf m) as [? E]; [done|lia|]. split; [done|lia]. Qed.
Lemma reach_alter n i f : (forall w, window_ok w -> window_ok (f w)) -> reach n (alter_window (D := D) i f).
Proof.
  intros Hf n' Hn. apply triple_alter. intros m w [[Hm Hp] Hl] Ew. unfold inv, wm_ok. cbn [set_windows windows].
  rewrite length_insert. split; [|done]. split; [|exact Hp]. destruct Hm. split; cbn; rewrite ?length_insert; try done.
  - destruct ok_focus0 as [[E ?]|?]; [|by right]. by rewrite E in Ew.
  - apply Forall_insert; [done|]. apply Hf. by eapply Forall_lookup_1.
Qed.
Lemma raise_ok n i m m' : inv n m -> raise i m = Some m' ->
  inv n m' /\ (focused m' < length (windows m'))%nat /\ length (windows m') = length (windows m).
Proof.
  unfold raise. intros [[Hm Hp] Hl] E. destruct (windows m !! i) as [w|] eqn:Ew; [|done]. injection E as <-.
  apply lookup_lt_Some in Ew as Hi. assert (length (delete i (windows m) ++ [w]) = length (windows m)) as El.
  { rewrite length_app, length_delete by done. simpl. lia. }
  unfold inv, wm_ok. cbn [set_focused set_windows windows focused]. rewrite El. split_and!; [|exact Hp|lia|lia|done].
  destruct Hm. split; cbn; rewrite ?El; try done; [right; lia|]. apply Forall_app_2; [by apply Forall_delete|].
  apply Forall_singleton. by eapply Forall_lookup_1.
Qed.
Lemma reach_raise_focus {B} n i (k : nat -> DK B) :
  (forall j, reach (Nat.max n (S j)) (k j)) -> reach n (update_opt (raise i);; j ← the focused; k j).
Proof.
  intros Hk n' Hn d b d' E [Hm Hl]. unfold mbind, st_bind, update_opt in E.
  destruct (raise i (manager d)) as [m'|] eqn:Er; [|done]. cbn in E.
  destruct (raise_ok n' i _ _ (conj Hm Hl) Er) as (Hi & Hf & El). destruct Hi as [Hi Hl'].
  destruct (Hk (focused m')) with (n' := Nat.max n' (S (focused m'))) (d := set_manager m' d) (a := b) (d' := d') as [? ?];
    [lia|exact E|split; cbn; [done|lia]|split; [done|lia]].
Qed.
Lemma reach_raise n i : reach n (update_opt (D := D) (raise i)).
Proof. intros n' Hn. apply triple_update_opt. intros m m' Hm Er. by apply (raise_ok n' i m m' Hm Er). Qed.
Lemma reach_remember n i : reach n (update_opt (D := D) (remember_geometry i)).
Proof.
  intros n' Hn. apply triple_update_opt. intros m m' [[Hm Hp] Hl] E. unfold remember_geometry in E.
  destruct (windows m !! i) as [w|]; [|done]. cbn in E. destruct (app_id w) as [id|]; [|by injection E as <-].
  destruct (if maximized w then _ else _) as [r|]; [|by injection E as <-]. injection E as <-.
  split; [|done]. split; [|exact Hp]. destruct Hm. split; cbn; try done. by rewrite length_insert.
Qed.
End reach.
(** Setting a field that the invariant does not constrain, or to a value in range. *)
Ltac set_field := apply reach_update; intros m [Hm Hp] Hl; (split; [|done]); (split; [|exact Hp]); destruct Hm; split; cbn; try done.
Section fields.
Context {D : Type} `{BlockDevice D} (P : Platform D).
Lemma reach_items n v : reach (D := D) n (update (set_launcher_items v)).
Proof. set_field. Qed.
Lemma reach_menu n v : reach (D := D) n (update (set_launcher_open v)).
Proof. set_field. Qed.
Lemma reach_settings n v : reach (D := D) n (update (set_settings v)).
Proof. set_field. Qed.
Lemma reach_wallpaper n v : reach (D := D) n (update (set_wallpaper v)).
Proof. set_field. Qed.
Lemma reach_clock n v : reach (D := D) n (update (set_clock_cache v)).
Proof. set_field. Qed.
Lemma reach_save n v : reach (D := D) n (update (set_cursor_save v)).
Proof. set_field. Qed.
Lemma reach_secs n v : reach (D := D) n (update (set_last_clock_secs v)).
Proof. set_field. Qed.
Lemma reach_left n v : reach (D := D) n (update (set_left_was_down v)).
Proof. set_field. Qed.
Lemma reach_dragging n v : (forall s, v = Some s -> (d_window s < n)%nat) -> reach (D := D) n (update (set_dragging v)).
Proof. intros Hv. set_field. intros s Es. specialize (Hv s Es). lia. Qed.
Lemma reach_resizing n v : (forall s, v = Some s -> (rs_window s < n)%nat) -> reach (D := D) n (update (set_resizing v)).
Proof. intros Hv. set_field. intros s Es. specialize (Hv s Es). lia. Qed.
Lemma reach_press n v : (forall s, v = Some s -> (p_window s < n)%nat) -> reach (D := D) n (update (set_press_state v)).
Proof. intros Hv. set_field. intros s Es. specialize (Hv s Es). lia. Qed.
Lemma reach_file_drag n v : (forall s, v = Some s -> (source_window s < n)%nat) -> reach (D := D) n (update (set_file_drag v)).
Proof. intros Hv. set_field. intros s Es. specialize (Hv s Es). lia. Qed.
Lemma rposition_lt {A} (p : A -> bool) l i : rposition p l = Some i -> (i < length l)%nat.
Proof.
  revert i. induction l as [|x l IH]; intros i E; [done|]. cbn in *. destruct (rposition p l) as [j|].
  - injection E as <-. specialize (IH j eq_refl). lia.
  - destruct (p x); [|done]. injection E as <-. lia.
Qed.
Lemma reach_refocus n i : reach (D := D) n (update (refocus_after_hide i)).
Proof.
  apply reach_update. intros m [Hm Hp] Hl. unfold refocus_after_hide. destruct (decide _); [|done]. split; [|done].
  split; [|exact Hp]. destruct Hm. split; cbn; try done. destruct (rposition shown (windows m)) as [j|] eqn:E.
  - right. by eapply rposition_lt.
  - destruct (windows m); [by left|right; simpl; lia].
Qed.
Lemma reach_kind n i k : reach (D := D) n (set_kind i k).
Proof. apply reach_alter. by intros []. Qed.
Lemma reach_move n i x y : reach (D := D) n (alter_window i (move_to x y)).
Proof. apply reach_alter. by intros []. Qed.
End fields.
Create HintDb reach discriminated.
#[export] Hint Resolve reach_items reach_menu reach_settings reach_wallpaper reach_clock reach_save reach_secs reach_left reach_raise reach_remember
  reach_refocus reach_kind reach_move : reach.
#[export] Hint Extern 2 (reach _ _) => apply reach_aside; aside; fail : reach.
Ltac indexed := intros ? [= <-]; cbn; lia.
Ltac reach_step :=
  match goal with
  | |- reach _ (d ← get_st; _) => apply reach_get; intros
  | |- reach _ (w ← window _; _) => apply reach_window; intros
  | |- reach _ (update_opt (raise _);; (_ ← the focused; _)) => apply reach_raise_focus; intros
  | |- reach _ (a ← the _; _) => apply reach_the; intros
  | |- reach _ (mbind _ _) => apply reach_bind; [|intros]
  | |- reach _ (for_in _ _) => apply reach_for; intros
  | |- reach _ (update (set_dragging _)) => apply reach_dragging; first [done | indexed]
  | |- reach _ (update (set_resizing _)) => apply reach_resizing; first [done | indexed]
  | |- reach _ (update (set_press_state _)) => apply reach_press; first [done | indexed]
  | |- reach _ (update (set_file_drag _)) => apply reach_file_drag; first [done | indexed]
  | |- reach _ (alter_window _ _) => apply reach_alter; solve [by intros [] | by intros [] [? ?]]
  | |- reach _ (if ?b then _ else _) => destruct b eqn:?
  | |- reach _ (match ?x with _ => _ end) => destruct x eqn:?
  | |- reach _ _ => solve [eauto 2 with reach]
  end.
Ltac reach := repeat (cbv zeta; reach_step).

(** ** The operations *)
Section operations.
Context {D : Type} `{BlockDevice D} (P : Platform D).
Lemma reach_resize n i cols rows : reach n (resize_window P i cols rows).
Proof. unfold resize_window. reach. Qed.
Lemma reach_maximize n i : reach n (maximize_window P i).
Proof. unfold maximize_window. reach. apply reach_resize. Qed.
Lemma reach_unmaximize n i : reach n (unmaximize_window P i).
Proof. unfold unmaximize_window. reach; apply reach_resize. Qed.
#[local] Hint Resolve reach_resize reach_maximize reach_unmaximize : reach.
Lemma aside_scale s : aside (D := D) (modify (set_font s)).
Proof. by intros d a d' [= _ <-]. Qed.
#[local] Hint Resolve aside_scale : aside.
Lemma reach_fold n scale : reach n (apply_font_scale P scale).
Proof.
  unfold apply_font_scale, each_window. reach.
Qed.
(** A new screen: the pointer is out of order until it is moved onto it. *)
Definition resized (n : nat) (w h : Z) (m : WindowManager) : Prop :=
  stack_ok m /\ (n <= length (windows m))%nat /\ screen_w m = w /\ screen_h m = h.
Lemma resized_wallpaper n w h v : triple (D := D) (resized n w h) (update (set_wallpaper v)) (fun _ => resized n w h).
Proof. apply triple_update. intros m (Hm & Hl & Hw & Hh). split_and!; try done. destruct Hm. by split. Qed.
Lemma triple_clamp {B} I v lo hi (k : Z -> ST (Desktop D) B) Q :
  (forall x, lo <= x <= hi -> triple I (k x) Q) -> triple I (x ← clamp v lo hi; k x) Q.
Proof.
  intros Hk d b d' E. unfold mbind, st_bind, clamp in E. destruct (Z.leb_spec lo hi); [|done]. eapply Hk; [|exact E]. lia.
Qed.
Lemma int_last w : 0 < w < 2 ^ 31 -> i32 (w - 1) = w - 1.
Proof. intros. unfold swrap, wrap. cbv zeta. rewrite Z.mod_small, (proj2 (Z.ltb_lt _ _)) by lia. done. Qed.
Lemma pointed n w h x y m : 0 <= x <= i32 (w - 1) -> 0 <= y <= i32 (h - 1) -> resized n w h m -> inv n (set_pointer x y m).
Proof.
  intros Hx Hy (Hm & Hl & Hw & Hh). split; [|done]. split; [destruct Hm; by split|]. unfold pointer_ok. cbn. rewrite Hw, Hh.
  intros Bw Bh. rewrite int_last in Hx by done. rewrite int_last in Hy by done. lia.
Qed.
Lemma reach_resolution n w h : reach n (apply_resolution P w h).
Proof.
  unfold apply_resolution. apply reach_bind; [reach|]. intros [|]; cbn [negb]; [|reach]. intros n' Hn.
  apply triple_bind with (R := fun _ => resized n' w h).
  { apply triple_update. intros m [[Hm Hp] Hl]. split_and!; try done. destruct Hm. by split. }
  intros _. apply triple_seq; [apply resized_wallpaper|]. intros _. apply triple_seq; [by apply triple_aside; aside|]. intros pixels.
  apply triple_seq; [apply resized_wallpaper|]. intros _. apply triple_the. intros m0 Hm0.
  apply triple_clamp. intros x Hx. apply triple_clamp. intros y Hy.
  apply triple_bind with (R := fun _ => inv n'); [apply triple_update; intros m ->; by eapply pointed|].
  intros _. revert n' Hn Hm0. unfold each_window. enough (forall k, reach k _) as Hr by (intros; by apply (Hr n')). intros k. reach.
Qed.

(** ** New windows *)
Lemma free_slot_bound ws : (free_slot ws <= length ws)%nat.
Proof.
  unfold free_slot. destruct (list_find _ ws) as [[slot w]|] eqn:E; [|done]. apply list_find_Some in E as (Hs & _ & _).
  apply lookup_lt_Some in Hs. lia.
Qed.
Definition placed (win : Window) (ws : list Window) : list Window :=
  if decide (free_slot ws < length ws)%nat then <[free_slot ws := win]> ws else ws ++ [win].
Lemma placed_ok n win m : window_ok win -> inv n m ->
  inv n (set_windows (placed win (windows m)) m) /\ (free_slot (windows m) < length (placed win (windows m)))%nat.
Proof.
  intros Hw [[Hm Hp] Hl]. pose proof (free_slot_bound (windows m)) as Hf. unfold placed.
  assert (length (windows m) <= length (placed win (windows m)))%nat as El.
  { unfold placed. destruct (decide _); rewrite ?length_insert, ?length_app; simpl; lia. }
  assert (free_slot (windows m) < length (placed win (windows m)))%nat as Hi.
  { unfold placed. destruct (decide _); rewrite ?length_insert, ?length_app; simpl; lia. }
  fold (placed win (windows m)). split; [|exact Hi]. split; [|cbn; lia]. split; [|exact Hp].
  assert (Forall window_ok (placed win (windows m))) as Hws.
  { destruct Hm. unfold placed. destruct (decide _); [by apply Forall_insert|]. by apply Forall_app_2; [|apply Forall_singleton]. }
  destruct Hm. split; cbn; try done.
  - right. destruct ok_focus0 as [[_ ->]|?]; lia.
  - intros s Es. specialize (ok_dragging0 s Es). lia.
  - intros s Es. specialize (ok_resizing0 s Es). lia.
  - intros s Es. specialize (ok_press0 s Es). lia.
  - intros s Es. specialize (ok_file_drag0 s Es). lia.
Qed.
Lemma triple_place {B} n win m0 (k : ST (Desktop D) B) Q : window_ok win -> inv n m0 ->
  triple (inv (Nat.max n (S (free_slot (windows m0))))) k Q ->
  triple (fun m => m = m0) (update (set_windows (placed win (windows m0)));; update_opt (raise (free_slot (windows m0)));; k) Q.
Proof.
  intros Hw Hm Hk. destruct (placed_ok n win m0 Hw Hm) as [[Hp Hl] Hf].
  apply triple_bind with (R := fun _ => inv (Nat.max n (S (free_slot (windows m0))))).
  { apply triple_update. intros m ->. split; [done|]. cbn in *. lia. }
  intros _. apply triple_seq; [exact (reach_raise _ _ _ (le_n _))|]. intros _. exact Hk.
Qed.
(** Opening a window: the index returned is one of a window. *)
Definition opens (p : ST (Desktop D) nat) : Prop := forall n, triple (inv n) p (fun i => inv (Nat.max n (S i))).
Lemma reach_opened {B} n (p : ST (Desktop D) nat) (k : nat -> ST (Desktop D) B) :
  opens p -> (forall i, reach (Nat.max n (S i)) (k i)) -> reach n (p ≫= k).
Proof.
  intros Hp Hk n' Hn. eapply triple_bind; [exact (Hp n')|]. intros i.
  eapply triple_conseq; [apply (Hk i (Nat.max n' (S i))); lia|done|]. intros a m [? ?]. split; [done|lia].
Qed.
Lemma opens_aside {A} (p : ST (Desktop D) A) k : aside p -> (forall a, opens (k a)) -> opens (p ≫= k).
Proof. intros Hp Hk n. eapply triple_seq; [by apply triple_aside|]. intros a. apply Hk. Qed.
Lemma opens_spawn title r id k : opens (spawn_window P title r id k).
Proof.
  intros n'.
  unfold spawn_window. apply triple_the. intros m1 Hm1. cbv zeta. unfold Datatypes.id.
  apply triple_bind with (R := fun _ => inv n').
  { destruct (id ≫= _); [by apply triple_ret; intros m ->|]. destruct (next_spawn_position m1) as [[x y] m2] eqn:E2.
    apply triple_bind with (R := fun _ => inv n'); [|intros _; by apply triple_ret].
    apply triple_update. intros m ->. injection E2 as _ _ <-. destruct Hm1 as [[[] ?] ?]. split; [|done]. by split. }
  intros [bx by_]. apply triple_the. intros m2 Hm2. unfold Datatypes.id. destruct (avoid_overlap m2 bx by_) as [x y].
  refine (triple_place n' _ m2 _ _ _ Hm2 _); [by split|].
  apply triple_bind with (R := fun _ => inv (Nat.max n' (S (free_slot (windows m2))))); [|intros _; by apply triple_ret].
  enough (forall j, reach j (match id ≫= (fun id => mjoin (remembered m1 !! index_of id)) with
    | Some r => resize_window P (free_slot (windows m2)) (Z.max (r_cols r) MIN_COLS) (Z.max (r_rows r) MIN_ROWS);;
                if r_maximized r then maximize_window P (free_slot (windows m2)) else mret tt
    | None => mret tt end)) as Hr by exact (Hr _ _ (le_n _)).
  intros j. reach.
Qed.

(** ** Applications *)
Lemma opens_terminal t id : opens (new_terminal P t id).
Proof.
  unfold new_terminal. apply opens_aside; [aside|]. intros f. apply opens_aside; [aside|]. intros m.
  destruct (fit_console_cells _ _ _ _ _). apply opens_spawn.
Qed.
Lemma opens_editor t id ls st p : opens (new_editor P t id ls st p).
Proof.
  unfold new_editor. apply opens_aside; [aside|]. intros f. apply opens_aside; [aside|]. intros m.
  destruct (fit_console_cells _ _ _ _ _). apply opens_aside; [aside|]. intros r. apply opens_spawn.
Qed.
Lemma reach_new_editor n t id ls st p : reach n (new_editor P t id ls st p;; mret tt).
Proof. apply reach_opened; [apply opens_editor|]. intros i. reach. Qed.
Lemma reach_spawn_builtin n t id k : reach n (spawn_builtin P t id k).
Proof. apply reach_opened; [apply opens_spawn|]. intros i. reach. Qed.
Lemma reach_in_terminal n i body : (forall c, aside (D := D) (body c)) -> reach n (in_terminal i body).
Proof. intros Hb. unfold in_terminal. reach. Qed.
Lemma reach_launch n p : reach n (launch_elf_in_terminal P p).
Proof. apply reach_opened; [apply opens_terminal|]. intros i. apply reach_in_terminal. intros c. aside. Qed.
Lemma reach_notepad n p c : reach n (open_notepad_with P p c).
Proof. apply reach_new_editor. Qed.
Lemma reach_image n p c : reach n (open_image_viewer_with P p c).
Proof. unfold open_image_viewer_with. do 4 (apply reach_bind; [by reach|intros ?]). apply reach_opened; [apply opens_spawn|]. intros i. reach. Qed.
Lemma reach_dispatch n a : reach n (dispatch_action P a).
Proof. destruct a; [apply reach_launch|apply reach_notepad|apply reach_image]. Qed.
#[local] Hint Resolve reach_spawn_builtin reach_launch reach_new_editor : reach.
Lemma reach_launcher n a : reach n (run_launcher_action P a).
Proof.
  unfold run_launcher_action. apply reach_bind; [reach|]. intros f. destruct a; [|reach|reach|apply reach_new_editor|reach..].
  apply reach_opened; [apply opens_terminal|]. intros i. apply reach_in_terminal. intros c. aside.
Qed.
#[local] Hint Resolve reach_launcher reach_dispatch reach_fold reach_resolution : reach.
Lemma reach_recall n e : reach n (D := D) (recall e).
Proof.
  unfold recall. destruct (from_name _) as [id|]; [|reach]. apply reach_update. intros m [Hm Hp] Hl. split; [|done].
  split; [|exact Hp]. destruct Hm. split; cbn; try done. by rewrite length_insert.
Qed.
#[local] Hint Resolve reach_recall : reach.
Lemma reach_reopen n x y e : reach n (reopen P x y e).
Proof. unfold reopen. reach. Qed.
#[local] Hint Resolve reach_reopen : reach.
Lemma reach_restore n : reach n (restore_session P).
Proof. unfold restore_session. reach. Qed.

(** ** Input *)
Lemma reach_explorer {A} n i (x : A) op : reach n (on_explorer (D := D) i x op).
Proof. unfold on_explorer. reach. Qed.
#[local] Hint Resolve reach_explorer : reach.
Lemma reach_set_drag n drag : reach n (set_explorer_drag (D := D) drag).
Proof. unfold set_explorer_drag, each_window. reach. Qed.
#[local] Hint Resolve reach_set_drag : reach.
Lemma reach_key n ev : reach n (handle_key P ev).
Proof. unfold handle_key. reach. Qed.
Lemma reach_begin n : reach (D := D) n begin_file_drag.
Proof.
  unfold begin_file_drag. apply reach_the. intros m0 [Hm Hp]. unfold Datatypes.id. destruct (press_state m0) as [press|] eqn:Ep; [|reach].
  pose proof (ok_press _ Hm press Ep). reach.
Qed.
Lemma reach_drop n drag i : reach n (drop_on P drag i).
Proof. unfold drop_on. reach. Qed.
#[local] Hint Resolve reach_begin reach_drop : reach.
Lemma reach_finish n : reach n (finish_file_drag P).
Proof. unfold finish_file_drag. reach. Qed.
Lemma reach_change n c : reach n (apply_change P c).
Proof. unfold apply_change. reach. Qed.
Lemma reach_click_app n f t dims x y i k : reach n (click_app P f t dims x y i k).
Proof. unfold click_app. reach. Qed.
#[local] Hint Resolve reach_finish reach_change reach_click_app : reach.
Lemma reach_content n i w : reach n (click_content P i w).
Proof. unfold click_content. reach. Qed.
Lemma reach_title n i w : reach n (click_title P i w).
Proof. unfold click_title. reach. Qed.
Lemma reach_corner n i w : reach (D := D) n (grab_corner i w).
Proof. unfold grab_corner. reach. Qed.
#[local] Hint Resolve reach_content reach_title reach_corner : reach.
Lemma reach_click n : reach n (handle_click P).
Proof. unfold handle_click, click_launcher, click_taskbar, click_window. reach. Qed.
#[local] Hint Resolve reach_click : reach.
Lemma reach_keep_resizing n r : (rs_window r < n)%nat -> reach n (keep_resizing P r).
Proof. intros Hr. unfold keep_resizing. reach. Qed.
Lemma reach_keep_dragging n drag : reach (D := D) n (keep_dragging drag).
Proof. unfold keep_dragging. reach. Qed.
Lemma reach_maybe n b : reach (D := D) n (maybe_file_drag b).
Proof. unfold maybe_file_drag. reach. Qed.
Lemma reach_moved n x y b : reach (D := D) n (pointer_moved x y b).
Proof. unfold pointer_moved. reach. Qed.
#[local] Hint Resolve reach_keep_dragging reach_maybe reach_moved : reach.
Lemma reach_mouse n ev : reach n (handle_mouse P ev).
Proof.
  intros n' Hn. unfold handle_mouse. apply triple_the. unfold Datatypes.id. intros m0 [Hm0 Hl]. cbv zeta.
  apply triple_clamp. intros x Hx. apply triple_clamp. intros y Hy.
  apply triple_bind with (R := fun _ => inv (Nat.max n' (length (windows m0)))).
  { apply triple_update. intros m ->. eapply pointed; [done|done|]. split_and!; [by destruct Hm0|lia|done|done]. }
  intros _. eapply triple_conseq with (R := fun _ => inv (Nat.max n' (length (windows m0)))); [|done|intros a m [? ?]; split; [done|lia]].
  enough (forall k, reach (Nat.max k (length (windows m0))) _) as Hr by (exact (Hr n' _ (le_n _))). intros k.
  apply reach_bind; [reach|]. intros _. destruct (resizing m0) as [r|] eqn:Er.
  - pose proof (ok_resizing _ (proj1 Hm0) r Er). apply reach_bind; [|intros _; reach]. destruct (left ev); [|reach]. apply reach_keep_resizing. lia.
  - reach.
Qed.

(** ** Frames and rounds *)
Lemma reach_clock_text n : reach n (refresh_clock P).
Proof. unfold refresh_clock. reach. Qed.
Lemma reach_follow n i : reach n (follow_pointer P i).
Proof. unfold follow_pointer. reach. Qed.
(** The same for a step that also draws. *)
Definition frame_reach {A} (n : nat) (p : ST (Desktop D * State) A) : Prop := forall n' d s a d' s', (n <= n')%nat ->
  p (d, s) = Ret a (d', s') -> inv n' (manager d) -> inv n' (manager d').
Lemma frame_bind {A B} n (p : ST (Desktop D * State) A) (k : A -> ST (Desktop D * State) B) :
  frame_reach n p -> (forall a, frame_reach n (k a)) -> frame_reach n (p ≫= k).
Proof.
  intros Hp Hk n' d s b d' s' Hn E Hd. unfold mbind, st_bind in E. destruct (p (d, s)) as [a [d1 s1]|] eqn:E1; [|done].
  eapply Hk; [exact Hn|exact E|]. by eapply Hp.
Qed.
Lemma frame_paint {A} n (p : ST State A) : frame_reach n (paint (D := D) p).
Proof. intros n' d s a d' s' _. unfold paint. destruct (p s); [|done]. by intros [= _ <- _]. Qed.
Lemma frame_meanwhile {A} n (p : ST (Desktop D) A) : reach n p -> frame_reach n (meanwhile p).
Proof.
  intros Hp n' d s a d' s' Hn. unfold meanwhile. destruct (p d) as [a1 d1|] eqn:E; [|done]. intros [= <- <- _]. by apply (Hp n' Hn _ _ _ E).
Qed.
Lemma frame_ret {A} n (a : A) : frame_reach n (mret a).
Proof. by intros n' d s a' d' s' _ [= _ <- _]. Qed.
Lemma frame_for {X} n (l : list X) body : (forall x, frame_reach n (body x)) -> frame_reach n (for_in l body).
Proof. intros Hb. induction l as [|x l IH]; cbn [for_in]; [apply frame_ret|]. by apply frame_bind. Qed.
Lemma frame_window n i : frame_reach n (compose_window P i).
Proof.
  unfold compose_window. apply frame_bind; [apply frame_meanwhile, reach_aside; unfold window|].
  { intros d a d'. unfold unwrap. destruct (_ !! i); [|done]. by intros [= _ <-]. }
  intros w. destruct (shown w); [|apply frame_ret]. apply frame_bind; [apply frame_meanwhile, reach_follow|]. intros _.
  apply frame_bind; [apply frame_meanwhile, reach_aside; unfold window|].
  { intros d a d'. unfold unwrap. destruct (_ !! i); [|done]. by intros [= _ <-]. }
  intros w'. do 2 (apply frame_bind; [apply frame_meanwhile; reach|intros ?]). apply frame_paint.
Qed.
Lemma frame_desktop n : frame_reach n (compose_desktop P).
Proof.
  unfold compose_desktop. do 3 (apply frame_bind; [apply frame_meanwhile; reach|intros ?]).
  apply frame_bind; [apply frame_paint|]. intros _. apply frame_bind; [apply frame_for, frame_window|]. intros _.
  apply frame_bind; [apply frame_meanwhile; reach|]. intros m. apply frame_bind; [apply frame_paint|]. intros _.
  apply frame_bind; [destruct (launcher_open m); [apply frame_paint|apply frame_ret]|]. intros _.
  destruct (file_drag m); [apply frame_paint|apply frame_ret].
Qed.
Lemma reach_screen n : reach n (on_screen (compose_desktop P)).
Proof.
  intros n' Hn d a d' E Hd. unfold on_screen in E. destruct (state (display d)) as [s|]; [|by injection E as _ <-].
  destruct (compose_desktop P (d, s)) as [[] [d1 s1]|] eqn:E1; [|done]. injection E as _ <-.
  exact (frame_desktop n n' d s tt d1 s1 Hn E1 Hd).
Qed.
#[local] Hint Resolve reach_clock_text reach_screen : reach.
Lemma reach_save_under n x y : reach (D := D) n (save_under x y).
Proof. unfold save_under. reach. Qed.
Lemma reach_show n x y : reach (D := D) n (show_cursor x y).
Proof. unfold show_cursor. reach. Qed.
#[local] Hint Resolve reach_save_under reach_show : reach.
Lemma reach_composite n : reach n (composite P).
Proof. unfold composite. reach. Qed.
#[local] Hint Resolve reach_composite : reach.
Lemma reach_cursor_only n : reach n (composite_cursor_only P).
Proof. unfold composite_cursor_only. reach. Qed.
Lemma reach_tick n : reach (D := D) n clock_tick_due.
Proof. unfold clock_tick_due. reach. Qed.
#[local] Hint Resolve reach_cursor_only reach_tick : reach.
Lemma reach_redraw n dirty only : reach n (redraw P dirty only).
Proof. unfold redraw. reach. Qed.
Lemma reach_run {A} n (p : ST (Desktop D) A) d a d' : reach n p -> p d = Ret a d' -> inv n (manager d) -> inv n (manager d').
Proof. intros Hp E. exact (Hp n (le_n _) d a d' E). Qed.
Lemma mouse_inv n dirty only d dirty' only' d' :
  mouse_drained P dirty only d dirty' only' d' -> inv n (manager d) -> inv n (manager d').
Proof.
  induction 1 as [dirty only d d' E|dirty only d ev d1 c d2 dirty' only' d' E Eh _ IH]; intros Hd.
  - refine (reach_run n next_mouse d None d' _ E Hd). apply reach_aside, aside_shell.
  - apply IH. eapply reach_run; [apply (reach_mouse n ev)|exact Eh|].
    refine (reach_run n next_mouse d (Some ev) d1 _ E Hd). apply reach_aside, aside_shell.
Qed.
Lemma aside_next_key : aside (D := D) next_key.
Proof. intros d a d'. unfold next_key. destruct (Keyboard.next_event (keys d)); [|done]. by intros [= _ <-]. Qed.
Lemma keys_inv n dirty d dirty' d' : keys_drained P dirty d dirty' d' -> inv n (manager d) -> inv n (manager d').
Proof.
  induction 1 as [dirty d d' E|dirty d ev d1 d2 dirty' d' E Eh _ IH]; intros Hd.
  - rewrite (aside_next_key _ _ _ E). exact Hd.
  - apply IH. eapply reach_run; [apply (reach_key n ev)|exact Eh|]. by rewrite (aside_next_key _ _ _ E).
Qed.
Lemma round_inv n d d' : round P d d' -> inv n (manager d) -> inv n (manager d').
Proof.
  intros [d0 dirty only d1 dirty' d2 d3 Hm Hk E|d0 k q] Hd; [|exact Hd].
  eapply reach_run; [apply (reach_redraw n dirty' only)|exact E|]. eapply keys_inv; [exact Hk|]. by eapply mouse_inv.
Qed.
(** At boot. *)
Lemma boots_in_order d d' : start P d = Ret tt d' -> wm_ok (manager d').
Proof.
  enough (triple (fun _ => True) (start P) (fun _ => inv 0)) as Hs by (intros E; by apply (Hs d tt d' E)).
  unfold start. apply triple_seq; [by apply triple_aside; aside|]. intros s.
  apply triple_seq; [by apply triple_aside; aside|]. intros _. apply triple_seq; [by apply triple_aside, aside_scale|]. intros _.
  apply triple_seq; [by apply triple_aside; aside|]. intros dims.
  apply triple_bind with (R := fun _ => inv 0); [|intros _; exact (reach_composite 0%nat 0%nat (le_n _))]. unfold new_manager.
  apply triple_bind with (R := fun _ => inv 0).
  { apply triple_update. intros m _. split; [|cbn; lia]. split; [split; cbn; try done; by left|]. unfold pointer_ok. cbn.
    intros Hw Hh. assert (forall v, 0 < v < 2 ^ 31 -> i32 (v / 2) = v / 2) as Ei.
    { intros v Hv. unfold swrap, wrap. cbv zeta. rewrite Z.mod_small, (proj2 (Z.ltb_lt _ _)); [done|zlia..]. }
    rewrite !Ei by done. zlia. }
  intros _. enough (forall k, reach k _) as Hr by exact (Hr 0%nat 0%nat (le_n _)). intros k. reach. apply reach_restore.
Qed.
End operations.

(** C22: From boot on, through every round of the desktop's loop and whatever the
    mouse, the keyboard, the applications, the other tasks and the disk do: the
    focus, a window or corner or file being dragged and a pressed entry name windows
    that exist, the pointer is on the screen, the table of remembered places has an
    entry for each application, and a window has a size to return to exactly when it
    is maximised. *)
Theorem desktop_in_order {D : Type} `{BlockDevice D} (P : Platform D) d0 d1 d2 :
  start P d0 = Ret tt d1 -> rtc (round P) d1 d2 -> wm_ok (manager d2).
Proof.
  intros Hs Hr. apply boots_in_order in Hs. assert (inv 0 (manager d1)) as Hi by (split; [done|lia]). clear Hs.
  induction Hr as [d|d d' d'' Hd _ IH]; [apply Hi|]. apply IH. by eapply round_inv.
Qed.

(** ** A desktop without disk and display *)
Definition sample_platform : Platform RamDisk := mk_platform _ _
  Accounting.sample_clock (0, 0) (16 * 4096) 0x1000 0x2000 tick (fun _ => 0x4000) (fun _ => 1024) (fun _ => 0) (fun _ => [0; 0; 0])
  (fun _ => Accounting.sample_clock (MkRamDisk [])) [] no_cpuid (mk_info 0).
(** The first packet is skipped, the second moves the pointer. *)
Definition moved_mouse : mouse := match Mouse.irqs [0x08; 0; 0; 0x08; 5; 3] Mouse.boot_state with Ret _ m => m | Panic => Mouse.boot_state end.
Definition sample_display : fb := mk_fb None false 0 0 800 600 (fun _ => 0).
Definition sample_desktop : Desktop RamDisk :=
  mk_desktop _ (mk_wm [] 0 0 0 0 0 None None None None false 0 false [] 0 [] None Settings.defaults (0, []) None)
    (mk_shell sample_world moved_mouse [] []) sample_display 1 Keyboard.boot_state.
Lemma desktop_in_order_witness : exists d1 d2,
  start sample_platform sample_desktop = Ret tt d1 /\ round sample_platform d1 d2 /\
  cursor_x (manager d2) = 405 /\ wm_ok (manager d2).
Proof.
  assert (match start sample_platform sample_desktop with
    | Ret _ d1 => match next_mouse d1 with
      | Ret (Some ev) d2 => match handle_mouse sample_platform ev d2 with
        | Ret c d3 => match next_mouse d3 with
          | Ret None d4 => match next_key d4 with
            | Ret None d5 => match redraw sample_platform (false || c) (false || negb c) d5 with
              | Ret _ d6 => cursor_x (manager d6) = 405 | Panic => False end
            | _ => False end
          | _ => False end
        | _ => False end
      | _ => False end
    | _ => False end) as E by (by vm_compute).
  destruct (start _ _) as [[] d1|] eqn:E1; [|done]. destruct (next_mouse d1) as [[ev|] d2|] eqn:E2; [|done..].
  destruct (handle_mouse _ ev d2) as [c d3|] eqn:E3; [|done]. destruct (next_mouse d3) as [[|] d4|] eqn:E4; [done| |done].
  destruct (next_key d4) as [[|] d5|] eqn:E5; [done| |done]. destruct (redraw _ _ _ d5) as [[] d6|] eqn:E6; [|done].
  assert (round sample_platform d1 d6) as Hr.
  { eapply round_made; [eapply mouse_event; [exact E2|exact E3|apply mouse_empty, E4]|apply keys_empty, E5|exact E6]. }
  exists d1, d6. split; [reflexivity|]. split; [exact Hr|]. split; [exact E|]. eapply (desktop_in_order sample_platform sample_desktop d1 d6); [exact E1|].
  eapply rtc_l; [exact Hr|apply rtc_refl].
Defined.
