(* ===== verification/CursorFacts.v ===== *)
(** * The pointer without redrawing the desktop

    A frame in which only the pointer moved erases it from the picture that is on
    the screen, draws it at its new place and shows the rectangle around both.
    The result is the frame a full redraw of the same desktop would have shown. *)
From stdpp Require Import list_numbers.
From S2P Require Import Prelude Bytes PhysMem Pmm Paging Multiboot Disk Rtc Fat Font Gfx Draw PixelBuffer Scale Fb FbFacts Diagonal Window Chrome Wm Desktop Compositor WmInvariant.

(** ** Drawing inside a box *)
Lemma boxed_ret x y w h : draws_in_box (mret tt) x y w h.
Proof. exists (fun _ _ p => p). split; [|done]. intros s0 W H. apply (@draws_id State state_surface (buffer_spec s0)). Qed.
Lemma boxed_seq m1 m2 x y w h : draws_in_box m1 x y w h -> draws_in_box m2 x y w h -> draws_in_box (m1;; m2) x y w h.
Proof.
  intros (f & Hf & Bf) (g & Hg & Bg). exists (fun i j p => g i j (f i j p)). split.
  - intros s0 W H. exact (@draws_seq State state_surface (buffer_spec s0) W H m1 m2 f g (Hf s0 W H) (Hg s0 W H)).
  - intros i j p Hb. by rewrite Bg, Bf.
Qed.
Lemma boxed_for {A} (l : list A) body x y w h : (forall a, a ∈ l -> draws_in_box (body a) x y w h) -> draws_in_box (for_in l body) x y w h.
Proof.
  intros Hb. induction l as [|a l IH]; [apply boxed_ret|]. cbn [for_in]. apply boxed_seq; [apply Hb; left|].
  apply IH. intros b Hin. apply Hb. by right.
Qed.
Lemma boxed_put px py c x y w h : in_u 32 px -> in_u 32 py -> in_box x y w h px py = true -> draws_in_box (put_pixel px py c) x y w h.
Proof.
  intros Hx Hy Hin. exists (fun i j p => if (i =? px) && (j =? py) then c else p). split.
  - intros s0 W H. exact (@put_pixel_spec State state_surface (buffer_spec s0) W H px py c Hx Hy).
  - intros i j p Hb. destruct (Z.eqb_spec i px) as [->|], (Z.eqb_spec j py) as [->|]; cbn [andb]; congruence.
Qed.

(** ** The pointer's shape *)
Lemma bits_rows row bits : (row, bits) ∈ Chrome.enumerate CURSOR_BITS -> 0 <= row < 16.
Proof.
  intros Hin. apply elem_of_zip_l in Hin. unfold range in Hin. apply elem_of_seqZ in Hin. cbn in Hin. lia.
Qed.
Lemma margin_small v : 0 <= v < 2 ^ 25 -> margin v = Z.max (v - 2) 0.
Proof. intros. unfold margin, CURSOR_SAVE_MARGIN. rewrite int_small, wrap_small by (unfold in_u; lia). done. Qed.
(** The box the pointer at [v] is in, in one direction: narrower than the saved one at the edge. *)
Definition reach_of (v size : Z) : Z := v + size - CURSOR_SAVE_MARGIN - margin v.
Abbreviation pointer_box := (fun x y => in_box (margin x) (margin y) (reach_of x CURSOR_SAVE_W) (reach_of y CURSOR_SAVE_H)).
Lemma shape_boxed x y c x0 y0 : 0 <= x0 < 2 ^ 25 -> 0 <= y0 < 2 ^ 25 -> -1 <= x - x0 <= 1 -> -1 <= y - y0 <= 1 ->
  draws_in_box (paint_cursor_shape x y c) (margin x0) (margin y0) (reach_of x0 CURSOR_SAVE_W) (reach_of y0 CURSOR_SAVE_H).
Proof.
  intros Hx0 Hy0 Hx Hy. unfold paint_cursor_shape. apply boxed_for. intros [row bits] Hrow. apply bits_rows in Hrow.
  apply boxed_for. intros col Hcol. unfold range in Hcol. apply elem_of_seqZ in Hcol. unfold CURSOR_W in Hcol.
  destruct (is_set _ _); [|apply boxed_ret]. cbv zeta. rewrite !int_small by lia.
  destruct (Z.leb_spec 0 (x + col)); [|apply boxed_ret]. destruct (Z.leb_spec 0 (y + row)); [|apply boxed_ret]. cbn [andb].
  rewrite !wrap_small by (unfold in_u; lia). apply boxed_put; [unfold in_u; lia..|].
  unfold reach_of. rewrite !margin_small by done. unfold in_box, in_range, CURSOR_SAVE_W, CURSOR_SAVE_H, CURSOR_SAVE_MARGIN. cbn [fst snd].
  rewrite !(proj2 (Z.leb_le _ _)), !(proj2 (Z.ltb_lt _ _)) by lia. done.
Qed.
Lemma cursor_boxed x y : 0 <= x < 2 ^ 25 -> 0 <= y < 2 ^ 25 ->
  draws_in_box (draw_cursor x y) (margin x) (margin y) (reach_of x CURSOR_SAVE_W) (reach_of y CURSOR_SAVE_H).
Proof.
  intros Hx Hy. unfold draw_cursor. apply boxed_seq; [|by apply shape_boxed; lia]. apply boxed_for. intros [dx dy] Hd.
  assert (-1 <= dx <= 1 /\ -1 <= dy <= 1) as [? ?].
  { unfold outline in Hd. rewrite !elem_of_cons in Hd. repeat destruct Hd as [[= -> ->]|Hd]; [lia..|]. by apply not_elem_of_nil in Hd. }
  apply shape_boxed; rewrite ?int_small by lia; lia.
Qed.
Lemma pointer_box_saved x y i j : 0 <= x < 2 ^ 25 -> 0 <= y < 2 ^ 25 ->
  in_box (margin x) (margin y) CURSOR_SAVE_W CURSOR_SAVE_H i j = false -> pointer_box x y i j = false.
Proof.
  intros Hx Hy. unfold reach_of. rewrite !margin_small by done. unfold in_box, in_range, CURSOR_SAVE_W, CURSOR_SAVE_H, CURSOR_SAVE_MARGIN.
  cbn [fst snd]. rewrite <- !not_true_iff_false. intros Hb Ht. apply Hb. revert Ht. rewrite !andb_true_iff, !Z.leb_le, !Z.ltb_lt. lia.
Qed.
Lemma boxed_weaken m x y w h x' y' w' h' : (forall i j, in_box x' y' w' h' i j = false -> in_box x y w h i j = false) ->
  draws_in_box m x y w h -> draws_in_box m x' y' w' h'.
Proof. intros Hi (f & Hf & Bf). exists f. split; [done|]. intros i j p Hb. by apply Bf, Hi. Qed.

(** The rectangle that is shown covers both pointers: in one direction, *)
Lemma span_covers v0 v1 n size i : 0 <= v0 < n -> 0 <= v1 < n -> 14 <= size <= 20 -> 0 <= i < n ->
  let lo := Z.max (Z.min v0 v1 - 2) 0 in
  let len := Z.min (Z.max 0 (Z.max v0 v1 + size - 2 - lo)) (n - Z.min lo n) in
  (Z.max (v0 - 2) 0 <= i < Z.max (v0 - 2) 0 + (v0 + size - 2 - Z.max (v0 - 2) 0) \/
   Z.max (v1 - 2) 0 <= i < Z.max (v1 - 2) 0 + (v1 + size - 2 - Z.max (v1 - 2) 0)) -> lo <= i < lo + len.
Proof. intros. subst lo len. lia. Qed.
(** and in both. *)
Lemma region_covers x0 y0 x1 y1 w h : 0 < w <= 2 ^ 24 -> 0 < h <= 2 ^ 24 -> 0 <= x0 < w -> 0 <= y0 < h -> 0 <= x1 < w -> 0 <= y1 < h ->
  let '(x, y, rw, rh) := cursor_region x0 y0 x1 y1 w h in
  in_u 32 x /\ in_u 32 y /\ 0 <= rw /\ 0 <= rh /\ x + rw < 2 ^ 32 /\ y + rh < 2 ^ 32 /\
  forall i j, 0 <= i < w -> 0 <= j < h -> in_box x y rw rh i j = false -> pointer_box x0 y0 i j = false /\ pointer_box x1 y1 i j = false.
Proof.
  intros Hw Hh Hx0 Hy0 Hx1 Hy1. unfold cursor_region, reach_of. cbv zeta. rewrite !margin_small by lia.
  unfold CURSOR_SAVE_W, CURSOR_SAVE_H, CURSOR_SAVE_MARGIN, saturating_sub. rewrite !wrap_small by (unfold in_u; lia).
  split_and!; try (unfold in_u; lia). intros i j Hi Hj Hb.
  pose proof (span_covers x0 x1 w 14 i Hx0 Hx1 ltac:(lia) Hi) as Hcx. pose proof (span_covers y0 y1 h 20 j Hy0 Hy1 ltac:(lia) Hj) as Hcy.
  cbv zeta in Hcx, Hcy. unfold in_box, in_range in *. cbn [fst snd] in *. apply not_true_iff_false in Hb.
  split; apply not_true_iff_false; intros Ht; apply Hb; rewrite !andb_true_iff, !Z.leb_le, !Z.ltb_lt in *; tauto.
Qed.

(** ** The same picture over different physical buffers *)
Section frames.
Variable s : State.
Hypothesis (Hd : display_ok s).
Abbreviation over back sc := (set_back back sc s).
Lemma over_ok back sc : Z.of_nat (length back) = pwidth s * pheight s -> display_ok (over back sc).
Proof. intros Hl. unfold display_ok in *. cbn. intuition lia. Qed.
Lemma same_pixels (l1 l2 : list Z) w h : 0 < w -> 0 <= h -> Z.of_nat (length l1) = w * h -> length l2 = length l1 ->
  (forall i j, 0 <= i < w -> 0 <= j < h -> l1 !!! Z.to_nat (j * w + i) = l2 !!! Z.to_nat (j * w + i)) -> l1 = l2.
Proof.
  intros Hw Hh Hl1 Hl2 He. apply (grid_list_eq l1 l2 w h); [done..|]. intros i j Hi Hj.
  pose proof (index_bound w h i j Hi Hj). rewrite !list_lookup_lookup_total_lt by lia. f_equal. by apply He.
Qed.
Lemma drawn_once m x y w h : draws_in_box m x y w h ->
  exists b, Z.of_nat (length b) = vwidth s * vheight s /\
    (forall i j, 0 <= i < vwidth s -> 0 <= j < vheight s -> in_box x y w h i j = false ->
      b !!! Z.to_nat (j * vwidth s + i) = vback_buffer s !!! Z.to_nat (j * vwidth s + i)) /\
    forall back sc, Z.of_nat (length back) = pwidth s * pheight s -> m (over back sc) = Ret tt (set_buf b (over back sc)).
Proof.
  intros (f & Hf & Bf). destruct (drawing_picture s m f Hd Hf) as (b & _ & Hl & Hb). exists b. split_and!; [done|..].
  - intros i j Hi Hj Hbx. rewrite Hb by done. by apply Bf.
  - intros back sc Hlb. destruct (drawing_picture (over back sc) m f (over_ok back sc Hlb) Hf) as (b' & E & Hl' & Hb').
    rewrite E. do 2 f_equal. cbn in Hl', Hb'. destruct Hd as (_ & _ & _ & _ & _ & _ & Hvw & Hvh & _).
    apply (same_pixels b' b (vwidth s) (vheight s)); [lia|lia|done|lia|]. intros i j Hi Hj. by rewrite Hb, Hb'.
Qed.
Lemma snapshot_over back sc x y xe w rows out : snapshot_rows (over back sc) x y xe w rows out = snapshot_rows s x y xe w rows out.
Proof.
  revert out. induction rows as [|r rows IH]; intros out; [done|]. cbn [snapshot_rows]. change (vheight (over back sc)) with (vheight s).
  destruct (_ <=? _); [done|]. change (region_row (over back sc) x xe) with (region_row s x xe).
  destruct (region_row s x xe _); [|done]. cbn. destruct (splice _ _ _); [|done]. apply IH.
Qed.
Lemma saved_once x y w h : in_u 32 x -> in_u 32 y -> 0 < w -> 0 < h -> x + w < 2 ^ 32 -> y + h < 2 ^ 32 -> w * h < 2 ^ 32 ->
  exists saved, forall back sc d, Z.of_nat (length back) = pwidth s * pheight s -> state d = Some (over back sc) ->
    snapshot_region x y w h d = Ret saved d /\
    forall b2, Z.of_nat (length b2) = vwidth s * vheight s ->
      (forall i j, 0 <= i < vwidth s -> 0 <= j < vheight s -> in_box x y w h i j = false ->
         b2 !!! Z.to_nat (j * vwidth s + i) = vback_buffer s !!! Z.to_nat (j * vwidth s + i)) ->
      restore_region x y w h saved (set_state (Some (set_buf b2 (over back sc))) d) = Ret tt d.
Proof.
  intros Hx Hy Hw Hh Hxw Hyh Hwh. pose proof Hd as (_ & _ & _ & _ & _ & _ & Hvw & Hvh & _).
  assert (0 <= w * h) by nia. unfold snapshot_region, restore_region. cbv zeta. rewrite (wrap_small 32 (w * h)) by (unfold in_u; lia).
  rewrite (proj2 (Z.eqb_neq w 0)), (proj2 (Z.eqb_neq h 0)) by lia. cbn [orb].
  destruct (in_box_clip x y w h (vwidth s) (vheight s) 0 0) as (_ & Hx' & Hxe & Hy' & _); [done|done|lia..|].
  pose proof (fun i j Hi Hj => proj1 (in_box_clip x y w h (vwidth s) (vheight s) i j Hx Hy ltac:(lia) ltac:(lia) Hxw Hyh Hi Hj)) as Hclip.
  cbv zeta in Hclip, Hx', Hxe, Hy'.
  destruct (save_restore_rows s (Z.min x (vwidth s)) (Z.min y (vheight s)) (Z.min (u32 (Z.min x (vwidth s) + w)) (vwidth s)) w h
    (display_pix_ok s Hd)) as (saved & Esn & _); try lia; [rewrite wrap_small by (unfold in_u in *; lia); lia|].
  exists saved. intros back sc d Hlb Es. rewrite Es.
  destruct (save_restore_rows (over back sc) (Z.min x (vwidth s)) (Z.min y (vheight s)) (Z.min (u32 (Z.min x (vwidth s) + w)) (vwidth s)) w h
    (display_pix_ok _ (over_ok back sc Hlb))) as (saved' & Esn' & _ & Hr); try (cbn; lia); [rewrite wrap_small by (unfold in_u in *; lia); lia|].
  rewrite snapshot_over in Esn'. assert (saved' = saved) as -> by congruence.
  change (vwidth (over back sc)) with (vwidth s) in *. change (vheight (over back sc)) with (vheight s) in *.
  rewrite snapshot_over, Esn. split; [done|]. intros b2 Hl2 Hb2. cbn [state set_state].
  change (vwidth (set_buf b2 (over back sc))) with (vwidth s). change (vheight (set_buf b2 (over back sc))) with (vheight s).
  rewrite (Hr b2 Hl2); [by destruct d; cbn in *; subst|]. intros i j Hi Hj Hbx. apply Hb2; [done..|]. rewrite Hclip by done.
  apply not_true_is_false. intros Ht. apply not_true_iff_false in Hbx. apply Hbx. revert Ht.
  unfold in_box, in_range. cbn [fst snd]. rewrite !andb_true_iff, !Z.leb_le, !Z.ltb_lt. rewrite !wrap_small by (unfold in_u in *; lia). lia.
Qed.
End frames.

(** ** Two frames that show the same *)
(** The desktop's picture, the picture at the physical resolution and the memory
    the screen shows are the same. *)
Definition shows_same (d1 d2 : fb) : Prop := exists s1 s2, state d1 = Some s1 /\ state d2 = Some s2 /\
  vback_buffer s1 = vback_buffer s2 /\ back_buffer s1 = back_buffer s2 /\ video d1 ≡ video d2.
Section same.
Variable s : State.
Hypotheses (Hd : display_ok s) (Hn : native s = true \/ (2 <= pwidth s /\ 2 <= pheight s)).
(** Presenting the same picture, over screens that agree outside the visible part. *)
Lemma presents_same b back1 sc1 back2 sc2 d1 d2 : Z.of_nat (length b) = vwidth s * vheight s ->
  Z.of_nat (length back1) = pwidth s * pheight s -> Z.of_nat (length back2) = pwidth s * pheight s ->
  state d1 = Some (set_buf b (set_back back1 sc1 s)) -> state d2 = Some (set_buf b (set_back back2 sc2 s)) ->
  (forall a, ~ FbFacts.on_screen s 0 (pwidth s) 0 (pheight s) a -> video d1 a = video d2 a) ->
  exists d1' d2', present d1 = Ret tt d1' /\ present d2 = Ret tt d2' /\ shows_same d1' d2'.
Proof.
  intros Hl Hl1 Hl2 E1 E2 Hout.
  assert (forall back sc, Z.of_nat (length back) = pwidth s * pheight s -> display_ok (set_buf b (set_back back sc s))) as Hok.
  { intros back sc Hb. unfold display_ok in *. cbn. intuition lia. }
  destruct (present_spec _ d1 E1 (Hok _ _ Hl1) Hn) as (c1 & e1 & m1 & P1 & Lc1 & C1 & _ & In1 & Out1).
  destruct (present_spec _ d2 E2 (Hok _ _ Hl2) Hn) as (c2 & e2 & m2 & P2 & Lc2 & C2 & _ & In2 & Out2).
  eexists _, _. split; [exact P1|]. split; [exact P2|]. eexists _, _. split; [done|]. split; [done|]. split; [done|].
  cbn in Lc1, Lc2, C1, C2. destruct Hd as (Hpw & Hph & _). split.
  - apply (same_pixels c1 c2 (pwidth s) (pheight s)); [lia|lia|done|cbn; lia|]. intros i j Hi Hj. cbn. by rewrite C1, C2.
  - intros a. cbn. destruct (screen_cases s a Hd) as [(i & j & c & Hi & Hj & Hc & ->)|Ho].
    + transitivity (le_split 4 (composed (set_buf b (set_back back1 sc1 s)) i j) !!! Z.to_nat c); [by apply In1|symmetry; by apply In2].
    + rewrite (Out1 a) by exact Ho. rewrite (Out2 a) by exact Ho. by apply Hout.
Qed.
Lemma shows_same_state d1 d2 d3 : state d1 = state d2 -> video d1 ≡ video d2 -> shows_same d2 d3 -> shows_same d1 d3.
Proof.
  intros Es Ev (s2 & s3 & E2 & E3 & Eb & Ep & E). exists s2, s3. split_and!; try done; [congruence|]. etransitivity; [exact Ev|exact E].
Qed.
(** Showing a region, when everything else on the screen is up to date. *)
Lemma region_or_whole p back sc x y w h d : Z.of_nat (length p) = vwidth s * vheight s -> Z.of_nat (length back) = pwidth s * pheight s ->
  state d = Some (set_buf p (set_back back sc s)) ->
  in_u 32 x -> in_u 32 y -> 0 <= w -> 0 <= h -> x + w < 2 ^ 32 -> y + h < 2 ^ 32 ->
  (native s = true -> forall i j, 0 <= i < pwidth s -> 0 <= j < pheight s ->
     (in_box x y w h i j = false -> p !!! Z.to_nat (j * pwidth s + i) = back !!! Z.to_nat (j * pwidth s + i)) /\
     forall b, 0 <= b < 4 -> video d (screen_addr s i j + b) = le_split 4 (back !!! Z.to_nat (j * pwidth s + i)) !!! Z.to_nat b) ->
  exists d3 d4, present_region x y w h d = Ret tt d3 /\ present d = Ret tt d4 /\ state d3 = state d4 /\ video d3 ≡ video d4.
Proof.
  intros Hl Hlb Es Hx Hy Hw Hh Hxw Hyh Hnat. set (s4 := set_buf p (set_back back sc s)) in *.
  assert (display_ok s4) as Hd4. { unfold display_ok, s4 in *. cbn. intuition lia. }
  destruct (native s) eqn:En.
  - apply (region_matches_whole s4 d x y w h); try done; intros i j; [|intros b]; intros Hi Hj; destruct (Hnat eq_refl i j Hi Hj) as [Ha Hb]; [exact Ha|exact (Hb b)].
  - destruct Hn as [?|Hn2]; [congruence|]. destruct (present_spec s4 d Es Hd4 (or_intror Hn2)) as (b4 & sc4 & m4 & E4 & _).
    eexists _, _. split_and!; [|exact E4|done|done]. rewrite <- E4. unfold present_region, native in *. rewrite Es.
    change (vwidth s4) with (vwidth s). change (vheight s4) with (vheight s).
    change (pwidth s4) with (pwidth s). change (pheight s4) with (pheight s). by rewrite <- negb_andb, En.
Qed.
Lemma presented_once p d : Z.of_nat (length p) = vwidth s * vheight s -> state d = Some (set_buf p s) ->
  exists back sc m, present d = Ret tt (set_video m (set_state (Some (set_buf p (set_back back sc s))) d)) /\
    Z.of_nat (length back) = pwidth s * pheight s /\
    (native s = true -> forall i j, 0 <= i < pwidth s -> 0 <= j < pheight s ->
       back !!! Z.to_nat (j * pwidth s + i) = p !!! Z.to_nat (j * pwidth s + i) /\
       forall b, 0 <= b < 4 -> m (screen_addr s i j + b) = le_split 4 (back !!! Z.to_nat (j * pwidth s + i)) !!! Z.to_nat b) /\
    forall a, ~ FbFacts.on_screen s 0 (pwidth s) 0 (pheight s) a -> m a = video d a.
Proof.
  intros Hl Es. assert (display_ok (set_buf p s)) as Hd1. { clear -Hd Hl. unfold display_ok in *. cbn. intuition lia. }
  destruct (present_spec (set_buf p s) d Es Hd1 Hn) as (back & sc & m & E & Lb & Cb & Nat0 & In0 & Out0).
  exists back, sc, m. split; [exact E|]. split; [exact Lb|]. split; [|exact Out0]. intros Enat i j Hi Hj.
  destruct (Nat0 Enat) as [-> _]. split; [done|]. intros b Hb.
  change (screen_addr s i j) with (screen_addr (set_buf p s) i j). rewrite (In0 i j b Hi Hj Hb). unfold composed, grid.
  assert (native (set_buf p s) = true) as -> by exact Enat. pose proof (proj1 (native_spec s) Enat) as [Ew _].
  change (vwidth (set_buf p s)) with (vwidth s). by rewrite Ew.
Qed.
(** Drawing both pointers in turn over the picture, and showing only the
    rectangle around them, against drawing the second one and showing everything. *)
Lemma pointer_frames x0 y0 x1 y1 d : state d = Some s ->
  0 <= x0 < vwidth s -> 0 <= y0 < vheight s -> 0 <= x1 < vwidth s -> 0 <= y1 < vheight s ->
  let '(rx, ry, rw, rh) := cursor_region x0 y0 x1 y1 (vwidth s) (vheight s) in
  exists saved0 saved1 a1 a2 a3 a4 a5 b1 b2,
    snapshot_region (margin x0) (margin y0) CURSOR_SAVE_W CURSOR_SAVE_H d = Ret saved0 d /\
    with_surface (draw_cursor x0 y0) d = Ret tt a1 /\ present a1 = Ret tt a2 /\
    restore_region (margin x0) (margin y0) CURSOR_SAVE_W CURSOR_SAVE_H saved0 a2 = Ret tt a3 /\
    snapshot_region (margin x1) (margin y1) CURSOR_SAVE_W CURSOR_SAVE_H a3 = Ret saved1 a3 /\
    with_surface (draw_cursor x1 y1) a3 = Ret tt a4 /\ present_region rx ry rw rh a4 = Ret tt a5 /\
    snapshot_region (margin x1) (margin y1) CURSOR_SAVE_W CURSOR_SAVE_H d = Ret saved1 d /\
    with_surface (draw_cursor x1 y1) d = Ret tt b1 /\ present b1 = Ret tt b2 /\ shows_same a5 b2.
Proof.
  intros Es Hx0 Hy0 Hx1 Hy1. pose proof Hd as (Hpw & Hph & Hpp & _ & _ & _ & Hvw & Hvh & _ & Hlb).
  pose proof (region_covers x0 y0 x1 y1 (vwidth s) (vheight s) ltac:(lia) ltac:(lia) Hx0 Hy0 Hx1 Hy1) as Hc.
  destruct (cursor_region x0 y0 x1 y1 (vwidth s) (vheight s)) as [[[rx ry] rw] rh]. destruct Hc as (Hrx & Hry & Hrw & Hrh & Hxw & Hyh & Hcov).
  assert (s = set_back (back_buffer s) (scale_scratch s) s) as Eself by by destruct s.
  assert (forall v, 0 <= v < 2 ^ 25 -> in_u 32 (margin v) /\ margin v + 20 < 2 ^ 32) as Hm.
  { intros v Hv. rewrite margin_small by done. unfold in_u. lia. }
  destruct (Hm x0 ltac:(lia)), (Hm y0 ltac:(lia)), (Hm x1 ltac:(lia)), (Hm y1 ltac:(lia)).
  destruct (saved_once s Hd (margin x0) (margin y0) CURSOR_SAVE_W CURSOR_SAVE_H) as (saved0 & Hs0); unfold CURSOR_SAVE_W, CURSOR_SAVE_H in *; [done|done|lia..|].
  destruct (saved_once s Hd (margin x1) (margin y1) 14 20) as (saved1 & Hs1); [done|done|lia..|].
  destruct (drawn_once s Hd _ _ _ _ _ (cursor_boxed x0 y0 ltac:(lia) ltac:(lia))) as (p0 & Lp0 & Bp0 & Dp0).
  destruct (drawn_once s Hd _ _ _ _ _ (cursor_boxed x1 y1 ltac:(lia) ltac:(lia))) as (p1 & Lp1 & Bp1 & Dp1).
  set (a1 := set_state (Some (set_buf p0 s)) d).
  destruct (presented_once p0 a1 Lp0 eq_refl) as (back & sc & m & Ea2 & Lb & Nat0 & Out0).
  set (a3 := set_video m (set_state (Some (set_back back sc s)) d)).
  set (a4 := set_state (Some (set_buf p1 (set_back back sc s))) a3). set (b1 := set_state (Some (set_buf p1 s)) d).
  destruct (Hs0 (back_buffer s) (scale_scratch s) d Hlb) as [Sn0 _]; [by rewrite <- Eself|].
  destruct (Hs1 (back_buffer s) (scale_scratch s) d Hlb) as [Sn1 _]; [by rewrite <- Eself|].
  destruct (Hs0 back sc a3 Lb eq_refl) as [_ Re0]. destruct (Hs1 back sc a3 Lb eq_refl) as [Sn1' _].
  assert (forall i j, in_box (margin x0) (margin y0) 14 20 i j = false -> pointer_box x0 y0 i j = false) as Hpb
    by (intros i j; apply pointer_box_saved; lia).
  destruct (presents_same p1 back sc (back_buffer s) (scale_scratch s) a4 b1 Lp1 Lb Hlb eq_refl) as (d4 & b2 & E4 & E2 & Hs);
    [by unfold b1; rewrite <- Eself|intros a Ha; exact (Out0 a Ha)|].
  destruct (region_or_whole p1 back sc rx ry rw rh a4 Lp1 Lb eq_refl Hrx Hry Hrw Hrh Hxw Hyh) as (a5 & d4' & E5 & E4' & Est & Ev).
  { intros Enat i j Hi Hj. destruct (Nat0 Enat i j Hi Hj) as [Eb Em]. pose proof (proj1 (native_spec s) Enat) as [Ew Eh].
    rewrite Ew, Eh in Bp0, Bp1, Hcov. split; [|exact Em].
    intros Hbx. destruct (Hcov i j Hi Hj Hbx) as [Hc0 Hc1]. by rewrite Eb, Bp1, Bp0. }
  assert (d4' = d4) as -> by congruence.
  exists saved0, saved1, a1, (set_video m (set_state (Some (set_buf p0 (set_back back sc s))) a1)), a3, a4, a5, b1, b2.
  assert (forall p q, q s = Ret tt (set_buf p s) -> with_surface q d = Ret tt (set_state (Some (set_buf p s)) d)) as Hws
    by (intros p q Eq; unfold with_surface; by rewrite Es, Eq).
  specialize (Dp0 (back_buffer s) (scale_scratch s) Hlb) as D0. specialize (Dp1 (back_buffer s) (scale_scratch s) Hlb) as D1.
  rewrite <- Eself in D0, D1.
  split; [exact Sn0|]. split; [by apply Hws|]. split; [exact Ea2|].
  split; [exact (Re0 p0 Lp0 (fun i j Hi Hj Hb => Bp0 i j Hi Hj (Hpb i j Hb)))|]. split; [exact Sn1'|]. split.
  { unfold with_surface, a3. cbn [state set_state set_video]. by rewrite (Dp1 back sc Lb). }
  split; [exact E5|]. split; [exact Sn1|]. split; [by apply Hws|]. split; [exact E2|]. by eapply shows_same_state.
Qed.
End same.

(** ** The frames of the desktop *)
Section desktop.
Context {D : Type} `{BlockDevice D} (P : Platform D).
Definition pointed_at (x y : Z) (d : Desktop D) : Desktop D := set_manager (set_pointer x y (manager d)) d.
(** What [composite] does once the desktop is drawn. *)
Definition finish_frame : ST (Desktop D) unit :=
  m ← the id;
  save_under (cursor_x m) (cursor_y m);;
  show_cursor (cursor_x m) (cursor_y m);;
  on_fb present.
Lemma composite_finishes : composite P = (refresh_clock P;; on_screen (compose_desktop P);; finish_frame).
Proof. done. Qed.
Lemma on_fb_run {A} (p : ST fb A) (d : Desktop D) a b : p (display d) = Ret a b -> on_fb p d = Ret a (set_display b d).
Proof. intros E. unfold on_fb. by rewrite E. Qed.

Lemma save_run x y (d : Desktop D) sv : snapshot_region (margin x) (margin y) CURSOR_SAVE_W CURSOR_SAVE_H (display d) = Ret sv (display d) ->
  save_under x y d = Ret tt (set_manager (set_cursor_save (Some (x, y, sv)) (manager d)) d).
Proof.
  intros E. unfold save_under. rewrite (st_bind_ret _ _ _ _ _ (on_fb_run _ _ _ _ E)). by destruct d.
Qed.
Lemma finish_run (d : Desktop D) sv b1 b2 : let x := cursor_x (manager d) in let y := cursor_y (manager d) in
  snapshot_region (margin x) (margin y) CURSOR_SAVE_W CURSOR_SAVE_H (display d) = Ret sv (display d) ->
  with_surface (draw_cursor x y) (display d) = Ret tt b1 -> present b1 = Ret tt b2 ->
  finish_frame d = Ret tt (set_display b2 (set_manager (set_cursor_save (Some (x, y, sv)) (manager d)) d)).
Proof.
  intros x y E1 E2 E3. unfold finish_frame. rewrite (st_bind_ret _ _ _ _ _ (eq_refl : the Datatypes.id d = Ret (manager d) d)). fold x y.
  rewrite (st_bind_ret _ _ _ _ _ (save_run x y d sv E1)). set (d' := set_manager _ d).
  rewrite (st_bind_ret _ _ d' _ _ (on_fb_run (with_surface (draw_cursor x y)) d' _ _ E2)).
  exact (on_fb_run present (set_display b1 d') tt b2 E3).
Qed.

Lemma cursor_only_run (d : Desktop D) old_x old_y saved x y w h : let m := manager d in
  cursor_save m = Some (old_x, old_y, saved) ->
  cursor_region old_x old_y (cursor_x m) (cursor_y m) (screen_w m) (screen_h m) = (x, y, w, h) ->
  composite_cursor_only P d =
    (on_fb (restore_region (margin old_x) (margin old_y) CURSOR_SAVE_W CURSOR_SAVE_H saved);;
     save_under (cursor_x m) (cursor_y m);; show_cursor (cursor_x m) (cursor_y m);;
     on_fb (present_region x y w h)) (set_manager (set_cursor_save None m) d).
Proof.
  intros m Ec Er. unfold composite_cursor_only. rewrite (st_bind_ret _ _ _ _ _ (eq_refl : the Datatypes.id d = Ret m d)). unfold Datatypes.id.
  rewrite Ec, Er. done.
Qed.

End desktop.

(** ** A concrete move, on a screen of 2 by 2 pixels *)
Definition tiny_desktop : Desktop RamDisk :=
  mk_desktop _ (mk_wm [] 0 0 0 2 2 None None None None false 0 false [] 0 [] None Settings.defaults (0, []) None)
    (kernel sample_desktop) tiny_fb 1 Keyboard.boot_state.
