(* ===== verification/WmFacts.v ===== *)
(** * What the window manager does to windows *)
From stdpp Require Import list_numbers.
From S2P Require Import Prelude Bytes Text PhysMem Disk Rtc Fat Ata Keyboard Mouse Spawn Multiboot Font Gfx Draw PixelBuffer Session LineEdit Shell ShellFacts Fb Terminal Console Editor EditorFacts CalcWindow Explorer Settings Paint ImageViewer Window Chrome Wm Desktop Launch WmInput Compositor WmInvariant.

Section facts.
Context {D : Type} `{BlockDevice D} (P : Platform D).
Abbreviation DK := (ST (Desktop D)).
Implicit Types (d : Desktop D) (w : Window).

(** ** Changing one window *)
(** [d'] is [d] with another window at [i] and more output on the serial line. *)
Record altered (d d' : Desktop D) (i : nat) (w' : Window) : Prop := {
  alt_manager : manager d' = set_windows (<[i := w']> (windows (manager d))) (manager d);
  alt_font : FONT_SCALE d' = FONT_SCALE d;
  alt_display : display d' = display d;
  alt_world : sh_world (kernel d') = sh_world (kernel d);
  alt_mouse : sh_mouse (kernel d') = sh_mouse (kernel d);
  alt_cwd : CWD (kernel d') = CWD (kernel d) }.
Lemma altered_trans d d1 d2 i w1 w2 : altered d d1 i w1 -> altered d1 d2 i w2 -> altered d d2 i w2.
Proof.
  intros [M1 F1 D1 W1 U1 C1] [M2 F2 D2 W2 U2 C2]. split; try congruence. rewrite M2, M1. cbn. by rewrite list_insert_insert_eq.
Qed.
Lemma altered_at d d' i w w' : windows (manager d) !! i = Some w -> altered d d' i w' -> windows (manager d') !! i = Some w'.
Proof. intros Hi [M _ _ _ _ _]. rewrite M. cbn. apply list_lookup_insert_eq. by apply lookup_lt_Some in Hi. Qed.
Lemma altered_same d i w : windows (manager d) !! i = Some w -> altered d d i w.
Proof. intros Hi. split; try done. rewrite list_insert_id by done. by destruct (manager d). Qed.
Lemma alter_run d i w f : windows (manager d) !! i = Some w ->
  exists d', alter_window i f d = Ret tt d' /\ altered d d' i (f w).
Proof.
  intros Hi. eexists. split; [unfold alter_window, mbind, st_bind, window, unwrap; rewrite Hi; reflexivity|]. by split.
Qed.
Lemma printed_run d s c c' : run_own (Console.write_str (FONT_SCALE d) (as_bytes s)) c d = Ret (tt, c') d ->
  exists d', print_to s c d = Ret c' d' /\ manager d' = manager d /\ FONT_SCALE d' = FONT_SCALE d /\ display d' = display d /\
    sh_world (kernel d') = sh_world (kernel d) /\ sh_mouse (kernel d') = sh_mouse (kernel d) /\ CWD (kernel d') = CWD (kernel d).
Proof.
  intros E. unfold run_own in E. destruct (Console.write_str _ _ c) as [[] c1|] eqn:Ew; [|done]. injection E as ->.
  eexists. split; [unfold print_to, run_own, mbind, st_bind; cbn; rewrite Ew; reflexivity|done].
Qed.

(** ** Resizing *)
Definition contents_ok (f : Z) (w : Window) : Prop :=
  match kind w with
  | Terminal c ed => dims_ok f (cols c) (rows c) /\ chars_ok (line ed)
  | EditorWindow e => page_ok f e
  | SysInfo _ => False
  | _ => True
  end.
(** What is left of a window's contents at another size: the line editor, behind a
    fresh prompt, the text and the cursor of an editor; other windows do not
    change. *)
Definition resized_to (f : Z) (p : str) (cols rows : Z) (k k' : AppKind) : Prop :=
  match k, k' with
  | Terminal c ed, Terminal c' ed' => ed' = ed /\ Console.cols c' = cols /\ Console.rows c' = rows /\
      shows f c' (term_write (fun b => b) (Z.to_nat cols) (Z.to_nat rows) true
                    (term_clear (fun b => b) (Z.to_nat cols) (Z.to_nat rows)) (as_bytes (p ++ line ed)))
  | EditorWindow e, EditorWindow e' => Editor.lines e' = Editor.lines e /\ cursor_row e' = cursor_row e /\
      cursor_col e' = cursor_col e /\ Editor.status e' = Editor.status e /\ Editor.path e' = Editor.path e /\
      Console.cols (Editor.console e') = cols /\ Console.rows (Editor.console e') = rows /\ rendered f e'
  | _, _ => k' = k
  end.
Lemma resize_console f c cols rows : 1 <= f -> dims_ok f cols rows ->
  exists c0, Console.resize f cols rows c = Ret tt c0 /\ Console.cols c0 = cols /\ Console.rows c0 = rows /\
    shows f c0 (term_clear (fun b => b) (Z.to_nat cols) (Z.to_nat rows)).
Proof. intros Hf Hd. eexists. split; [reflexivity|]. split; [done|]. split; [done|]. by apply shows_fresh. Qed.
Lemma resize_runs d i w cols rows : let f := FONT_SCALE d in let p := LineEdit.prompt (CWD (kernel d)) in
  1 <= f -> windows (manager d) !! i = Some w -> contents_ok f w -> chars_ok p ->
  (is_Some (console_of (kind w)) -> dims_ok f cols rows) ->
  exists d' k', resize_window P i cols rows d = Ret tt d' /\ altered d d' i (with_kind k' w) /\
    contents_ok f (with_kind k' w) /\ resized_to f p cols rows (kind w) k'.
Proof.
  intros f p Hf Hi Hc Hp Hd. unfold resize_window.
  rewrite (st_bind_ret _ _ d w d) by (unfold window, unwrap; by rewrite Hi). rewrite (st_bind_ret _ _ d f d (eq_refl : font d = Ret f d)).
  pose proof (altered_same d i w Hi) as Hsame. assert (with_kind (kind w) w = w) as Hw by by destruct w.
  unfold contents_ok in Hc. destruct (kind w) as [c ed|c|e|a|a|a|a|a] eqn:Ek;
    try (eexists d, _; split; [reflexivity|]; rewrite Hw; split; [exact Hsame|]; split; [unfold contents_ok; by rewrite Ek|reflexivity]);
    [|done|].
  - specialize (Hd ltac:(done)). destruct Hc as [_ Hl]. destruct (resize_console f c cols rows Hf Hd) as (c0 & E0 & Ec0 & Er0 & Hs0).
    rewrite (st_bind_ret _ _ d (tt, c0) d) by (unfold run_own; by rewrite E0). rewrite (st_bind_ret _ _ d p d (eq_refl : prompt d = Ret p d)). cbn [snd].
    destruct (wp_elim _ _ _ (write_str_shows f Hf (as_bytes (p ++ current_line ed)) c0 _ Hs0 ltac:(apply as_bytes_nonneg, Forall_app_2; done)))
      as ([] & c1 & E1 & (Ec1 & Er1 & _) & Hs1). rewrite Ec0, Er0 in *.
    destruct (printed_run d (p ++ current_line ed) c0 c1) as (d1 & E2 & M & F & Dp & W & U & C); [unfold run_own; change (FONT_SCALE d) with f; by rewrite E1|].
    rewrite (st_bind_ret _ _ d c1 d1 E2). assert (windows (manager d1) !! i = Some w) as Hi1 by by rewrite M.
    destruct (alter_run d1 i w (with_kind (Terminal c1 ed)) Hi1) as (d2 & E3 & [M3 F3 D3 W3 U3 C3]).
    exists d2, (Terminal c1 ed). split; [exact E3|]. split; [split; congruence|]. split; [|done]. cbn. rewrite Ec1, Er1. done.
  - specialize (Hd ltac:(done)). destruct (resize_console f (Editor.console e) cols rows Hf Hd) as (c0 & E0 & Ec0 & Er0 & Hs0).
    set (e0 := mk_editor c0 (Editor.lines e) (cursor_row e) (cursor_col e) (scroll_offset e) (Editor.status e) (Editor.path e)).
    assert (page_ok f e0) as Hp0. { destruct Hc as (_ & ? & ? & ?). split; [|done]. apply Hs0. }
    destruct (wp_elim _ _ _ (editor_render_spec f Hf e0 Hp0)) as ([] & e1 & E1 & Hp1 & Hr1 & El & Er & Ek' & Est & Ep & (Ec1 & Er1 & _)).
    rewrite (st_bind_ret _ _ d (tt, e1) d).
    2: { unfold run_own, mbind, st_bind, Editor.on_console. rewrite E0. fold e0. by rewrite E1. }
    destruct (alter_run d i w (with_kind (EditorWindow e1)) Hi) as (d2 & E3 & Ha).
    exists d2, (EditorWindow e1). split; [exact E3|]. split; [exact Ha|]. split; [exact Hp1|]. cbn in *. split_and!; try done; congruence.
Qed.

Lemma maximize_steps d i w oc orows : windows (manager d) !! i = Some w -> resizable w = true -> maximized w = false -> cols_rows w = (oc, orows) ->
  maximize_window P i d = (alter_window i (fun w => with_maximized true (Some (at_x w, at_y w, oc, orows)) (move_to 0 0 w));;
    resize_window P i (max_content_cells (FONT_SCALE d) (manager d)).1 (max_content_cells (FONT_SCALE d) (manager d)).2) d.
Proof.
  intros Hi Hr Hm Ew. unfold maximize_window. rewrite (st_bind_ret _ _ d w d) by (unfold window, unwrap; by rewrite Hi).
  rewrite Hr, Hm, Ew. cbn [negb orb]. destruct (alter_run d i w (fun w => with_maximized true (Some (at_x w, at_y w, oc, orows)) (move_to 0 0 w)) Hi) as (d1 & E & [M F _ _ _ _]).
  rewrite !(st_bind_ret _ _ d tt d1 E). rewrite (st_bind_ret _ _ d1 _ d1 (eq_refl : font d1 = Ret (FONT_SCALE d1) d1)).
  rewrite (st_bind_ret _ _ d1 _ d1 (eq_refl : the (max_content_cells (FONT_SCALE d1)) d1 = Ret (max_content_cells (FONT_SCALE d1) (manager d1)) d1)).
  by rewrite F, M.
Qed.
Lemma unmaximize_steps d i w x y oc orows : windows (manager d) !! i = Some w -> maximized w = true -> restore_geometry w = Some (x, y, oc, orows) ->
  unmaximize_window P i d = (alter_window i (with_maximized false None);; (alter_window i (move_to x y);; resize_window P i oc orows)) d.
Proof.
  intros Hi Hm Hg. unfold unmaximize_window. rewrite (st_bind_ret _ _ d w d) by (unfold window, unwrap; by rewrite Hi).
  by rewrite Hm, Hg.
Qed.
Lemma alter_then_resize d i w g cols rows : let f := FONT_SCALE d in let p := LineEdit.prompt (CWD (kernel d)) in
  1 <= f -> windows (manager d) !! i = Some w -> kind (g w) = kind w -> contents_ok f w -> chars_ok p ->
  (is_Some (console_of (kind w)) -> dims_ok f cols rows) ->
  exists d' k', (alter_window i g;; resize_window P i cols rows) d = Ret tt d' /\ altered d d' i (with_kind k' (g w)) /\
    contents_ok f (with_kind k' (g w)) /\ resized_to f p cols rows (kind w) k'.
Proof.
  intros f p Hf Hi Hg Hc Hp Hd. destruct (alter_run d i w g Hi) as (d1 & E1 & H1). rewrite (st_bind_ret _ _ d tt d1 E1).
  pose proof (altered_at _ _ _ _ _ Hi H1) as Hi1. pose proof H1 as [_ F1 _ _ _ C1].
  destruct (resize_runs d1 i (g w) cols rows) as (d2 & k' & E2 & H2 & Hc' & Hr); rewrite ?F1, ?C1, ?Hg; try done.
  { unfold contents_ok in *. by rewrite Hg. }
  exists d2, k'. split; [exact E2|]. split; [by eapply altered_trans|]. rewrite F1 in Hc'. split; [done|].
  unfold f, p. by rewrite F1, C1, Hg in Hr.
Qed.
Definition cells_of (k : AppKind) : Z * Z :=
  match console_of k with Some c => (Console.cols c, Console.rows c) | None => (0, 0) end.
Lemma resized_cells f w p cols rows k' : contents_ok f w -> resized_to f p cols rows (kind w) k' ->
  (is_Some (console_of k') -> is_Some (console_of (kind w)) /\ cells_of k' = (cols, rows)) /\
  (is_Some (console_of (kind w)) -> is_Some (console_of k')).
Proof.
  unfold contents_ok, resized_to, cells_of. destruct (kind w) as [c ed|c|e|a|a|a|a|a], k' as [c' ed'|c'|e'|a'|a'|a'|a'|a']; intros Hc Hr; cbn;
    try done; try (split; intros [? [=]]; done); split; intros _; try done; split; try done.
  - by destruct Hr as (_ & -> & -> & _).
  - by destruct Hr as (_ & _ & _ & _ & _ & -> & -> & _).
Qed.
Lemma cells_restored f w k1 k3 p mc mr oc orows : contents_ok f w -> resized_to f p mc mr (kind w) k1 ->
  contents_ok f (with_kind k1 w) -> resized_to f p oc orows k1 k3 -> cols_rows w = (oc, orows) -> cells_of k3 = cols_rows w.
Proof.
  intros Hc H1 Hc1 H3 Ew. destruct (resized_cells f w _ _ _ _ Hc H1) as [Ha Hb].
  destruct (resized_cells f (with_kind k1 w) _ _ _ _ Hc1 H3) as [Ha' Hb']. change (kind (with_kind k1 w)) with k1 in *.
  destruct (console_of k3) as [c|] eqn:E3.
  - rewrite (proj2 (Ha' ltac:(done))). done.
  - assert (console_of (kind w) = None) as E. { destruct (console_of (kind w)) eqn:E; [|done]. by destruct (Hb' (Hb ltac:(done))). }
    unfold cells_of, cols_rows. by rewrite E3, E.
Qed.


(** ** The slot of a closed window *)
Lemma raise_at k m w : windows m !! k = Some w ->
  exists m', raise k m = Some m' /\ windows m' = delete k (windows m) ++ [w] /\ focused m' = length (delete k (windows m)).
Proof.
  intros Hw. unfold raise. rewrite Hw. eexists. split; [reflexivity|]. split; [reflexivity|]. cbn. rewrite length_app. cbn. lia.
Qed.
Lemma delete_replaced {A} (k : nat) (x : A) (l : list A) : delete k (<[k := x]> l) = delete k l.
Proof. revert k. induction l as [|y l IH]; intros [|k]; cbn; try done. unfold delete, insert in *. cbn. by f_equal. Qed.
(** [k] is the lowest slot whose window [w] has been closed. *)
Definition lowest_closed (ws : list Window) (k : nat) (w : Window) : Prop :=
  ws !! k = Some w /\ open w = false /\ forall j v, (j < k)%nat -> ws !! j = Some v -> open v = true.
Lemma free_slot_first ws k w : lowest_closed ws k w -> free_slot ws = k.
Proof.
  intros (Hw & Hc & Hb). unfold free_slot. rewrite (proj2 (list_find_Some (fun w => open w = false) ws k w)); [done|].
  split_and!; try done. intros j v Hj Hlt. by rewrite (Hb j v Hlt Hj).
Qed.
(** The new window takes the closed window's slot and is raised out of it: what is
    in that slot afterwards is the window that was above. *)
Lemma spawn_runs d title rs app k kd w : free_slot (windows (manager d)) = k -> windows (manager d) !! k = Some w ->
  (id ← app; mjoin (remembered (manager d) !! index_of id)) = None ->
  exists m x y, spawn_window P title rs app kd d = Ret k (set_manager m d) /\
    windows m = delete k (windows (manager d)) ++ [mk_window title x y true false false rs app None kd] /\
    focused m = length (delete k (windows (manager d))).
Proof.
  intros Hk Hw Hr. unfold spawn_window. rewrite (st_bind_ret _ _ d _ d (eq_refl : the id d = Ret (manager d) d)). cbv beta zeta. rewrite Hr.
  destruct (next_spawn_position (manager d)) as [[bx by_] m] eqn:En.
  assert (windows m = windows (manager d)) as Em by (by injection En as _ _ <-).
  rewrite (st_bind_ret _ _ d (bx, by_) (set_manager m d) eq_refl).
  rewrite (st_bind_ret _ _ _ _ _ (eq_refl : the id (set_manager m d) = Ret m (set_manager m d))).
  destruct (avoid_overlap m bx by_) as [x y]. cbv beta zeta. set (win := mk_window title x y true false false rs app None kd).
  rewrite Em, Hk, (decide_True _ _ (lookup_lt_Some _ _ _ Hw)).
  set (m1 := set_windows (<[k := win]> (windows (manager d))) m).
  destruct (raise_at k m1 win) as (m2 & E2 & Ew2 & Ef2); [apply list_lookup_insert_eq; by apply lookup_lt_Some in Hw|].
  rewrite (st_bind_ret _ _ _ tt (set_manager m1 d)) by done.
  rewrite (st_bind_ret _ _ _ tt (set_manager m2 d)) by (unfold update_opt; cbn; by rewrite E2).
  exists m2, x, y. split; [reflexivity|]. cbn [m1 set_windows windows] in Ew2, Ef2. rewrite delete_replaced in Ew2, Ef2. done.
Qed.
Lemma fresh_terminal d title app : exists c, Console.new (FONT_SCALE d) (Console.cols c) (Console.rows c) CONSOLE_FG CONSOLE_BG = c /\
  new_terminal P title app d = spawn_window P title true app (Terminal c LineEdit.new) d.
Proof.
  unfold new_terminal. rewrite (st_bind_ret _ _ d _ d (eq_refl : font d = Ret (FONT_SCALE d) d)).
  rewrite (st_bind_ret _ _ d _ d (eq_refl : the id d = Ret (manager d) d)).
  destruct (fit_console_cells _ _ _ _ _) as [cols rows]. by eexists (Console.new _ cols rows _ _).
Qed.

(** C40: Where the prompt of a new terminal goes.  Once a window has been closed below
    another one, launching a terminal reuses the closed window's slot, raises the new
    window out of it, and then prints the prompt into the slot: when the window that
    was above the closed one is a terminal, that terminal gets a second prompt, and
    the new one, in front and focused, is blank. *)
Theorem prompt_goes_astray d k w w1 c ed t : let f := FONT_SCALE d in
  1 <= f -> lowest_closed (windows (manager d)) k w ->
  mjoin (remembered (manager d) !! index_of AppTerminal) = None ->
  windows (manager d) !! S k = Some w1 -> kind w1 = Terminal c ed -> shows f c t -> chars_ok (LineEdit.prompt (CWD (kernel d))) ->
  exists d' c' blank x y, run_launcher_action P LaunchTerminal d = Ret tt d' /\
    windows (manager d') !! k = Some (with_kind (Terminal c' ed) w1) /\
    shows f c' (term_write (fun b => b) (Z.to_nat (Console.cols c)) (Z.to_nat (Console.rows c)) true t (as_bytes (LineEdit.prompt (CWD (kernel d))))) /\
    windows (manager d') !! focused (manager d') =
      Some (mk_window (bytes_of "Terminal") x y true false false true (Some AppTerminal) None (Terminal blank LineEdit.new)) /\
    blank = Console.new f (Console.cols blank) (Console.rows blank) CONSOLE_FG CONSOLE_BG.
Proof.
  intros f Hf Hl Hr Hw1 Ek Hs Hp. pose proof Hl as [Hw _]. unfold run_launcher_action.
  rewrite (st_bind_ret _ _ d f d (eq_refl : font d = Ret f d)).
  destruct (fresh_terminal d (bytes_of "Terminal") (Some AppTerminal)) as (blank & Eb & En).
  destruct (spawn_runs d (bytes_of "Terminal") true (Some AppTerminal) k (Terminal blank LineEdit.new) w (free_slot_first _ _ _ Hl) Hw Hr)
    as (m & x & y & Es & Em & Ef).
  rewrite (st_bind_ret _ _ d k (set_manager m d) (eq_trans En Es)). set (d1 := set_manager m d).
  assert (windows m !! k = Some w1) as Hk.
  { rewrite Em, lookup_app_l; [by rewrite list_lookup_delete_ge|]. apply lookup_lt_Some in Hw1. rewrite length_delete by done. lia. }
  destruct (wp_elim _ _ _ (write_str_shows f Hf (as_bytes (LineEdit.prompt (CWD (kernel d)))) c t Hs (as_bytes_nonneg _ Hp))) as ([] & c1 & E1 & _ & Hs1).
  destruct (printed_run d1 (LineEdit.prompt (CWD (kernel d))) c c1) as (d2 & E2 & M2 & _);
    [unfold run_own; change (FONT_SCALE d1) with f; by rewrite E1|].
  assert (windows (manager d2) !! k = Some w1) as Hk2 by by rewrite M2.
  destruct (alter_run d2 k w1 (with_kind (Terminal c1 ed)) Hk2) as (d3 & E3 & [M3 _ _ _ _ _]).
  exists d3, c1, blank, x, y. split.
  { unfold in_terminal. rewrite (st_bind_ret _ _ d1 w1 d1) by (unfold window, unwrap; cbn; by rewrite Hk). rewrite Ek.
    rewrite (st_bind_ret _ _ d1 c1 d2); [exact E3|]. rewrite (st_bind_ret _ _ d1 _ d1 (eq_refl : prompt d1 = Ret (LineEdit.prompt (CWD (kernel d))) d1)). exact E2. }
  rewrite M3, M2. cbn [set_windows windows manager set_manager focused d1]. split; [apply list_lookup_insert_eq; by apply lookup_lt_Some in Hk|].
  split; [exact Hs1|]. split; [|done].
  pose proof (lookup_lt_Some _ _ _ Hk). rewrite Ef, list_lookup_insert_ne.
  - rewrite Em, lookup_app_r, Nat.sub_diag by done. done.
  - apply lookup_lt_Some in Hw1. rewrite length_delete by done. lia.
Qed.
End facts.

(** ** A desktop with a closed terminal below an open one *)
Definition small_console : Console := Console.new 1 20 4 CONSOLE_FG CONSOLE_BG.
Definition small_editor : Editor := mk_editor small_console [bytes_of "hello"] 0 3 0 [] (bytes_of "/notes.txt").
Definition small_window (is_open : bool) (x : Z) (k : AppKind) : Window :=
  mk_window (bytes_of "Window") x 50 is_open false false true None None k.
Definition two_windows : Desktop RamDisk := set_manager (set_screen 64 112 (set_windows
  [small_window false 10 (Terminal small_console LineEdit.new); small_window true 20 (Terminal small_console LineEdit.new);
   small_window true 30 (EditorWindow small_editor)] (manager sample_desktop))) sample_desktop.
Lemma small_dims cols rows : 0 < cols <= 20 -> 0 < rows <= 4 -> dims_ok 1 cols rows.
Proof. intros. unfold dims_ok, gw. change (glyph_w 1) with 8. nia. Qed.
Lemma small_shows : shows 1 small_console (term_clear (fun b => b) 20 4).
Proof. apply (shows_fresh 1); [done|by apply small_dims]. Qed.
Lemma small_page : page_ok 1 small_editor.
Proof.
  split; [apply small_shows|]. split; [constructor; [by apply chars_lit|constructor]|]. split; [by apply chars_lit|].
  done.
Qed.
Lemma prompt_goes_astray_witness : exists d' c' x y blank, run_launcher_action sample_platform LaunchTerminal two_windows = Ret tt d' /\
  windows (manager d') !! 0%nat = Some (small_window true 20 (Terminal c' LineEdit.new)) /\
  shows 1 c' (term_write (fun b => b) 20 4 true (term_clear (fun b => b) 20 4) (as_bytes (LineEdit.prompt (CWD (kernel two_windows))))) /\
  windows (manager d') !! focused (manager d') =
    Some (mk_window (bytes_of "Terminal") x y true false false true (Some AppTerminal) None (Terminal blank LineEdit.new)).
Proof.
  destruct (prompt_goes_astray sample_platform two_windows 0 (small_window false 10 (Terminal small_console LineEdit.new))
    (small_window true 20 (Terminal small_console LineEdit.new)) small_console LineEdit.new (term_clear (fun b => b) 20 4))
    as (d' & c' & blank & x & y & E & Ek & Hs & Ef & _).
  - change (1 <= 1). lia.
  - split; [reflexivity|]. split; [reflexivity|]. intros j v Hj. lia.
  - reflexivity.
  - reflexivity.
  - reflexivity.
  - exact small_shows.
  - by apply chars_lit.
  - exists d', c', x, y, blank. split; [exact E|]. split; [exact Ek|]. split; [exact Hs|exact Ef].
Defined.
